(* ===== verification/_CoqProject ===== *)
-Q . S2P
Prelude.v
Economic.v
ChainLib.v
PredictionTypes.v
Market.v
Sha256.v
Text.v
Base64.v
Codec.v
Semantic.v
Authority.v
Amounts.v
Billing.v
Agreement.v
Payment.v
FileStore.v
RelayJournal.v
Relay.v
BudgetJournal.v
GuarantorState.v
CellLib.v
Native.v
Policy.v
Quote.v
EscrowLib.v
Receipt.v
Escrow.v
QuoteV2.v
EscrowV2.v
RelayTypes.v
RelayAbsence.v
RelayAdmission.v
RelayQuotes.v
AgentRelay.v
RelayFinality.v
RelaySafety.v
RelayRestore.v
RelayService.v
RelaySystem.v
