(* ===== verification/Prelude.v ===== *)
(** * A verification library for the TOS service protocol

    The repository implements the off-chain half of a service market on the TOS
    chain: agents publish capabilities and controller policies on a native registry,
    buyers and providers exchange quotes, payments are sent by relayers and sponsors,
    guarantors cover failures, a prediction market settles collateral, and metrics
    are aggregated from verified jobs.  This library models the parts that decide
    about money, authority and irreversible actions, from the Go code under [src/],
    and proves what makes them correct.

    ** Conventions

    A Go call is a value of [result]: it returns, it returns an error, or it panics.
    Strings and byte slices are Rocq strings of bytes.  A machine integer is a [Z] in
    range, and every operation that can leave the range wraps explicitly ([wrap64],
    [wrap32]); [big.Int] is [Z].  Go maps are [gmap]s; where the code iterates over a
    map, the model iterates over its list of entries, and a theorem shows where the
    order does not matter.  Methods under a mutex are single steps.  Loops over slices
    are [foldM] and [mapE]; the chain of text cells in Native ([decodeText]) is
    read with fuel: every cell but the last holds 127 bytes, so [text_fuel] of the
    length limit is enough, and the lemma [decodeText_fuel] shows that it never runs
    out; the chain of byte cells of a schema-2 quote is read with the depth of its first
    cell as fuel, which bounds its length; the loops over the blocks of a hashed message and over the chunks of a text
    take their fuel from its length.

    ** Files

    - Prelude: outcomes, machine integers, byte strings, hexadecimal and decimal text,
      sums over maps, and the tactics [inv_ok], [solve_total] and [solve_errs].
    - Economic (pkg/economic): [AggregateNetwork] and the amounts, jobs, rates,
      medians and percentiles it is made of.
    - ChainLib: the interface of the chain library's addresses ([AddressLib]).
    - PredictionTypes, Market (pkg/predictionmarket types.go, order.go, model.go): the
      collateral ledger [ReferenceModel] with [Deposit], [Split], [Merge], [Match],
      [Finalize], [Claim] and its self-checks.
    - Sha256, Base64: SHA-256, with its constants computed from primes; raw URL base64
      and the texts of keys and signatures.
    - Text (unicode/utf8, encoding/json): valid UTF-8 and JSON strings.
    - Codec (pkg/codec canonical.go): the digest of an encoded document in a domain.
    - Semantic (pkg/agentcommerce semantic_action.go): the registry of action kinds
      and the stable identity of an action.
    - Authority (pkg/agentcommerce authority.go): writer fences and authorized actions;
      encodings and signatures are the interface [CommerceCodec].
    - Amounts, Billing, Payment (pkg/agentcommerce agreement.go, billing.go,
      payment.go): amounts, settlement obligations with their ledger, and payment
      requests.
    - Agreement (pkg/agentcommerce agreement.go): agreement bodies, the targets their
      acceptances sign, authorization evidence; encodings are [AgreementCodec].
    - FileStore: a directory whose calls may fail, with atomic create and replace.
    - RelayJournal, Relay (pkg/nativecore relay_journal.go, relay.go): the file journal
      of a relayer and the submission steps of concurrent relayers against the
      interface [RelayJournal], which the file journal implements.
    - BudgetJournal (pkg/buyersdk journal.go): the buyer's spending journal.
    - GuarantorState (pkg/agentguarantor state.go): offers, coverage, claim filing,
      payouts and collateral as state machines.
    - CellLib: the interface of the cell library ([CellLib] with its laws [CellLaws]),
      implemented by a model of cells.
    - Native (pkg/nativecore action.go, locator.go, state.go, errors.go): identifiers,
      digests, texts in cells, the network domain.
    - Policy (pkg/nativecore action.go, state.go): controller policies, threshold and
      possession checks, policy and signature cells; signatures are the interface
      [Ed25519].
    - Quote (pkg/nativecore quote.go): the accepted quote's cell, commitment, decoder.
    - EscrowLib: what the escrow cells use beyond [CellLib]: wide amounts, addresses and
      serialization ([CellX] with its laws) and the depth of a cell.
    - Receipt (pkg/nativecore receipt.go): the receipt of software work as a cell, the
      settlement intent a buyer signs, and the messages that release or refund.
    - Escrow (pkg/nativecore escrow.go, quote_policy.go): the schema-1 escrow contract, its derivation
      from an accepted quote and the decoder of its data; the URL and IP parsers of the
      transport binding are the interface [TransportParser].
    - QuoteV2, EscrowV2 (pkg/nativecore quote_v2.go, escrow_v2.go): the paid-demand
      quote with its extension, and the schema-2 escrow, which is accepted before it is
      funded.
    - RelayTypes (pkg/agentrelay types.go, validation.go, canonical.go): the documents
      of the transaction relay and the checks before their digests; the encodings and
      the URL and address parsers are the interface [RelayCodec].
    - RelayAbsence (pkg/agentrelay absence.go, canonical.go): proofs that a payment or
      transaction did not happen; their encodings are the interface [AbsenceCodec].
    - RelayAdmission (pkg/agentrelay admission.go, canonical.go): the receipts by which
      an owner's authority admits side effects, and their route chains.
    - RelayQuotes (pkg/agentrelay validation.go, canonical.go): quote requests, quotes
      and executions against the published profile, the inspected transaction, the
      authorized action and the agreement's obligations.
    - AgentRelay (pkg/agentrelay state.go): the relay provider's [MemoryJournal].
    - RelayFinality (pkg/agentrelay validation.go, canonical.go): the resolutions and
      the finality evidence a provider signs, and their checks for an execution.
    - RelaySafety: what any sequence of operations of that journal guarantees, proved
      over a small-step description of the journal that every operation refines.
    - RelayRestore (pkg/agentrelay state.go): snapshots of relay records and
      [RestoreRecord].
    - RelayService (pkg/agentrelay service.go): the provider's [Quote], [Submit],
      [Resolve] and [Evidence] as programs, trees of calls to the journal and to the
      services around the provider, whose answers are arbitrary.
    - RelaySystem: any number of those programs interleaved on one journal, a logic for
      what a program does whatever the others do meanwhile, and runs of the system.

    ** What the theorems show

    - No double action: a relayer broadcasts a recorded intent at most once, whatever
      the interleaving and the file errors; leases are given at most once; the relay
      provider's submissions broadcast a relay_exact action at most once, every broadcast
      is of bytes bound to a durable record, and all payment attempts of an action are
      one durable payment, in every interleaving of its programs (of at most 2^64 - 1
      steps, so that no revision wraps around); for a combined action there is a run
      that broadcasts twice; a quote
      reservation of the relay provider is used by at most one action; revisions are
      compare-and-swap tickets.
    - One identity, one action: a stable action identity determines the kind and the
      fields of an action, a payment identity determines the payment, and a verified
      authorized action is what its authority signed, for the exact request, under a
      live fence.  Where a statement depends on the hash it excludes a collision of the
      very texts that the code hashed on the two sides ([collides], [collision_between]);
      it never excludes collisions in general.
    - Money is bounded and conserved: settlement amounts are added, compared and capped
      exactly; what an obligation has been paid and still owes adds up to its amount
      through every operation; the market's ledger keeps its backing through
      every operation and pays out exactly; the relayer's and buyer's spending windows
      hold; the sponsorship a provider has outstanding never exceeds its limit, and is
      not released while a transfer is unsettled.
    - Authority: accepted signatures are of distinct controllers whose weight reaches
      the threshold; a valid policy can be satisfied; a quote commitment determines the
      quote; an admission receipt binds one execution in a short window, an authority's
      receipts verify, and a chain of them is one action's path through providers.
      Every obligation of an authorized agreement was accepted for its obligor by
      evidence bound to the agreement's exact terms, and the obligations have no cycles.
    - Escrow: an accepted quote yields a contract exactly when its price and deadlines
      fit, the quote determines the contract's parties, asset and transport whatever its
      status, every decoded state carries the quote's commitments and only the amounts
      its status allows, and a settlement intent binds one charge of one contract.
    - Crashes: the record of an admitted action and of a payment about to be attempted
      restore to themselves, and every restored record is safe to go on with.
    - Final states are final: coverage cuts, offers, claims and relay records never
      change outcome, and a record stands for one payment only.
    - Evidence: an absence observation set is accepted exactly when it is a quorum of
      independent observations; the two halves of a dual absence share no proof; valid
      finality evidence with a finalized outcome rests on validators only.
    - Executions: a verified relay execution spends, pays and sponsors at most what its
      parties signed, and its agreement carries the quoted service and nothing else.
    - Round trips and totality: policy and quote cells decode to what was encoded and
      only canonical cells decode; the decoders, the aggregator and the relay journal
      always return.
    - The aggregator refines a specification of every published figure, written from the
      jobs alone.

    ** Not modelled

    Network, process and file-system calls beyond their success or failure (toschain,
    chain, nativeclient, servicerpc, the wallet and custody senders, the directory
    permission checks of the journals); the CBOR library behind the codec;
    generated Connect messages beyond the fields read; the JSON documents of the
    guarantor, capability and gift packages and the intent and handoff documents;
    and the rest of the native registry state and actions, the capability manifests and
    projections and the cells of the prediction market.  The relay service runs on the
    in-memory journal; the cancellation of its contexts is an arbitrary answer of the
    call it interrupts. *)

From stdpp Require Export base tactics gmap strings list sorting.
From Stdlib Require Export ZArith Lia ZifyNat Ascii.
From Stdlib Require Import DecimalString DecimalN.

#[global] Set Default Proof Using "Type".
Open Scope Z_scope.

(** ** Outcomes of a Go call

    A call returns a value, returns a non-nil error, or panics at run time
    (an index out of range, a [MustStore*] that does not fit). *)

Inductive result (E A : Type) : Type :=
  | Ok (a : A)
  | Err (e : E)
  | Panic (why : string).
Arguments Ok {E A} a.
Arguments Err {E A} e.
Arguments Panic {E A} why.

#[global] Instance result_ret E : MRet (result E) := fun _ a => Ok a.
#[global] Instance result_bind E : MBind (result E) :=
  fun _ _ f m => match m with Ok a => f a | Err e => Err e | Panic w => Panic w end.
#[global] Instance result_fmap E : FMap (result E) :=
  fun _ _ f m => match m with Ok a => Ok (f a) | Err e => Err e | Panic w => Panic w end.

Definition is_ok {E A} (r : result E A) : bool := match r with Ok _ => true | _ => false end.
Definition no_panic {E A} (r : result E A) : Prop := match r with Panic _ => False | _ => True end.

(** [if cond { return ..., err }] *)
Definition fail_if {E} (cond : bool) (e : E) : result E unit := if cond then Err e else Ok tt.

(** [v, err := f(); if err != nil { return ..., err' }] with the error replaced. *)
Definition or_err {E E' A} (m : result E A) (e : E') : result E' A :=
  match m with Ok a => Ok a | Err _ => Err e | Panic w => Panic w end.
Definition opt_err {E A} (o : option A) (e : E) : result E A :=
  match o with Some a => Ok a | None => Err e end.

(** A loop over a slice whose body may return early with an error. *)
Fixpoint foldM {E A B} (f : B -> A -> result E B) (b : B) (l : list A) : result E B :=
  match l with
  | [] => Ok b
  | a :: l' => b' ← f b a; foldM f b' l'
  end.

Fixpoint mapE {E A B} (f : A -> result E B) (l : list A) : result E (list B) :=
  match l with
  | [] => Ok []
  | a :: l' => b ← f a; bs ← mapE f l'; Ok (b :: bs)
  end.

Lemma bind_Ok {E A B} (m : result E A) (f : A -> result E B) b :
  (m ≫= f) = Ok b <-> exists a, m = Ok a /\ f a = Ok b.
Proof. destruct m as [a| |]; cbn; split; intros; destruct_and?; naive_solver. Qed.

Section ResultLemmas.
Context {E A B : Type}.

Lemma fail_if_Ok cond (e : E) u : fail_if cond e = Ok u <-> cond = false.
Proof. destruct cond, u; unfold fail_if; naive_solver. Qed.

Lemma or_err_Ok {E'} (m : result E' A) (e : E) a : or_err m e = Ok a <-> m = Ok a.
Proof. destruct m; naive_solver. Qed.

Lemma opt_err_Ok (o : option A) (e : E) a : opt_err o e = Ok a <-> o = Some a.
Proof. destruct o; naive_solver. Qed.

Lemma foldM_app (f : B -> A -> result E B) b l1 l2 :
  foldM f b (l1 ++ l2) = (b' ← foldM f b l1; foldM f b' l2).
Proof.
  revert b; induction l1 as [|a l1 IH]; intros b; [done|].
  cbn. destruct (f b a); cbn; [apply IH|done..].
Qed.

Lemma foldM_inv (P : B -> Prop) (f : B -> A -> result E B) b l b' :
  P b -> (forall b1 a b2, a ∈ l -> P b1 -> f b1 a = Ok b2 -> P b2) ->
  foldM f b l = Ok b' -> P b'.
Proof.
  revert b; induction l as [|a l IH]; intros b HP Hstep Hf; cbn in Hf.
  - by simplify_eq.
  - apply bind_Ok in Hf as (b1 & H1 & H2).
    eapply IH; [|intros; eapply Hstep; [by right|..]; eauto|done].
    eapply Hstep; [by left|..]; eauto.
Qed.

Lemma bind_no_panic (m : result E A) (f : A -> result E B) :
  no_panic m -> (forall a, m = Ok a -> no_panic (f a)) -> no_panic (m ≫= f).
Proof. destruct m; cbn; auto. Qed.

Lemma fail_if_no_panic cond (e : E) : no_panic (fail_if cond e).
Proof. by destruct cond. Qed.

Lemma or_err_no_panic {E'} (m : result E' A) (e : E) : no_panic m -> no_panic (or_err m e).
Proof. by destruct m. Qed.

Lemma opt_err_no_panic (o : option A) (e : E) : no_panic (opt_err o e).
Proof. by destruct o. Qed.

Lemma foldM_no_panic (f : B -> A -> result E B) b l :
  (forall b a, no_panic (f b a)) -> no_panic (foldM f b l).
Proof.
  intros Hf; revert b; induction l as [|a l IH]; intros b; cbn; [done|].
  specialize (Hf b a). destruct (f b a); cbn in *; auto.
Qed.

Lemma mapE_Ok (f : A -> result E B) l k :
  mapE f l = Ok k <-> Forall2 (fun a b => f a = Ok b) l k.
Proof.
  revert k; induction l as [|a l IH]; intros k; cbn.
  - split; [intros [= <-]; constructor|inversion 1; done].
  - rewrite bind_Ok. setoid_rewrite bind_Ok. split.
    + intros (b & Hb & bs & Hbs & [= <-]). constructor; [done|]. by apply IH.
    + inversion 1 as [|? b ? bs Hb Hbs]; subst. exists b. split; [done|].
      exists bs. split; [by apply IH|done].
Qed.
End ResultLemmas.

(** Inversion of a successful computation into its successful steps. *)
Ltac inv_ok1 :=
  match goal with
  | H : mbind _ _ = Ok _ |- _ => apply bind_Ok in H; destruct H as (? & ? & ?)
  | H : fail_if _ _ = Ok _ |- _ => apply fail_if_Ok in H
  | H : or_err _ _ = Ok _ |- _ => apply or_err_Ok in H
  | H : opt_err _ _ = Ok _ |- _ => apply opt_err_Ok in H
  | H : Ok _ = Ok _ |- _ => injection H as H
  | H : Err _ = Ok _ |- _ => discriminate H
  | H : Panic _ = Ok _ |- _ => discriminate H
  | H : mret _ = Ok _ |- _ => injection H as H
  end.
Ltac inv_ok := repeat (inv_ok1; simplify_eq/=).

(** Totality of a computation from that of its steps. *)
Create HintDb no_panic.
#[export] Hint Resolve fail_if_no_panic or_err_no_panic opt_err_no_panic : no_panic.
Ltac total_step :=
  lazymatch goal with
  | |- no_panic (mbind _ _) => apply bind_no_panic; [auto with no_panic|let H := fresh "Hok" in intros ? H]
  | |- no_panic (Ok _) => exact I
  | |- no_panic (Err _) => exact I
  end.


(** Totality of a computation with branches. *)
Ltac solve_total :=
  repeat lazymatch goal with
  | |- no_panic (mbind _ _) => apply bind_no_panic; [|intros ? _]
  | |- no_panic (Ok _) => exact I
  | |- no_panic (Err _) => exact I
  | |- no_panic (fail_if _ _) => apply fail_if_no_panic
  | |- no_panic (or_err _ _) => apply or_err_no_panic
  | |- no_panic (opt_err _ _) => apply opt_err_no_panic
  | |- no_panic (foldM _ _ _) => apply foldM_no_panic; intros
  | |- no_panic (match _ with _ => _ end) => case_match
  | |- no_panic (let _ := _ in _) => cbn zeta
  | |- no_panic _ => solve [auto with no_panic]
  end.

(** ** Machine integers

    Values of Go's fixed-width types are integers in range; an operation that
    can leave the range wraps explicitly. *)

Definition two64 : Z := 2 ^ 64.
Definition two32 : Z := 2 ^ 32.
Definition two16 : Z := 2 ^ 16.
Definition u64 (z : Z) : Prop := 0 <= z < two64.
Definition wrap64 (z : Z) : Z := z mod two64.
Definition wrap32 (z : Z) : Z := z mod two32.
Definition maxUint64 : Z := two64 - 1.

Lemma two64_pos : 0 < two64.
Proof. done. Qed.

Lemma u64_lit z : (0 <=? z) && (z <? two64) = true -> u64 z.
Proof. unfold u64. lia. Qed.

Lemma wrap64_small z : u64 z -> wrap64 z = z.
Proof. apply Z.mod_small. Qed.

Lemma wrap64_range z : u64 (wrap64 z).
Proof. apply Z.mod_pos_bound, two64_pos. Qed.

(** [lia] with division and remainder by constants. *)
Ltac dlia := zify; Z.to_euclidean_division_equations; lia.

(** Sums of integer lists. *)
Definition zsum (l : list Z) : Z := foldr Z.add 0 l.

Lemma zsum_cons x l : zsum (x :: l) = x + zsum l.
Proof. done. Qed.

Lemma zsum_app l1 l2 : zsum (l1 ++ l2) = zsum l1 + zsum l2.
Proof. induction l1 as [|x l1 IH]; cbn; [done|]. fold (zsum (l1 ++ l2)) (zsum l1). lia. Qed.

Lemma zsum_nonneg l : Forall (fun x => 0 <= x) l -> 0 <= zsum l.
Proof. induction 1; cbn; [done|]. fold (zsum l). lia. Qed.

#[global] Instance zsum_perm : Proper (Permutation ==> eq) zsum.
Proof. induction 1; rewrite ?zsum_cons; try lia; congruence. Qed.

(** Sums over the values of a map. *)
Definition map_sum {A} (f : A -> Z) (m : gmap string A) : Z := map_fold (fun _ a acc => f a + acc) 0 m.

Section MapSums.
Context {A : Type}.
Implicit Types (f g : A -> Z) (m : gmap string A).

Lemma map_sum_empty f : map_sum f ∅ = 0.
Proof. apply map_fold_empty. Qed.

Lemma map_sum_insert_new f k a m : m !! k = None -> map_sum f (<[k := a]> m) = f a + map_sum f m.
Proof. intros Hk. unfold map_sum. rewrite map_fold_insert_L; [done|intros; lia|done]. Qed.

Lemma map_sum_insert f k a b m : m !! k = Some b -> map_sum f (<[k := a]> m) = map_sum f m - f b + f a.
Proof.
  intros Hk. rewrite <-(insert_id m k b Hk) at 2. rewrite <-(insert_delete_eq m k a), <-(insert_delete_eq m k b).
  rewrite !map_sum_insert_new by apply lookup_delete_eq. lia.
Qed.

Lemma map_sum_delete f k a m : m !! k = Some a -> map_sum f (delete k m) = map_sum f m - f a.
Proof.
  intros Hk. rewrite <-(insert_delete_id m k a Hk) at 2.
  rewrite map_sum_insert_new by apply lookup_delete_eq. lia.
Qed.

Lemma map_sum_list f m : map_sum f m = zsum (f <$> (map_to_list m).*2).
Proof.
  unfold map_sum. rewrite map_fold_foldr. induction (map_to_list m) as [|[k a] l IH]; cbn; [done|].
  by rewrite IH.
Qed.

Lemma map_sum_nonneg f m : (forall k b, m !! k = Some b -> 0 <= f b) -> 0 <= map_sum f m.
Proof.
  intros Hnn. rewrite map_sum_list. apply zsum_nonneg, Forall_fmap, Forall_forall.
  intros b ([k' b'] & -> & Hin%elem_of_map_to_list)%list_elem_of_fmap. cbn. by eapply Hnn.
Qed.

Lemma map_sum_ge f m k a :
  (forall k b, m !! k = Some b -> 0 <= f b) -> m !! k = Some a -> f a <= map_sum f m.
Proof.
  intros Hnn Hk. rewrite <-(insert_delete_id m k a Hk), map_sum_insert_new by apply lookup_delete_eq.
  enough (0 <= map_sum f (delete k m)) by lia. apply map_sum_nonneg.
  intros k' b [_ Hb]%lookup_delete_Some. by eapply Hnn.
Qed.

Lemma map_sum_linear f g c d m :
  map_sum (fun a => f a * c + g a * d) m = map_sum f m * c + map_sum g m * d.
Proof.
  rewrite !map_sum_list. induction (map_to_list m).*2 as [|a l IH]; [done|].
  rewrite !fmap_cons, !zsum_cons, IH. ring.
Qed.

Lemma map_sum_ext f g m : (forall a, f a = g a) -> map_sum f m = map_sum g m.
Proof. intros H. rewrite !map_sum_list. f_equal. by apply list_fmap_ext. Qed.

Lemma map_sum_le f g m : (forall k a, m !! k = Some a -> f a <= g a) -> map_sum f m <= map_sum g m.
Proof.
  intros H. rewrite !map_sum_list.
  assert (Forall (fun a => f a <= g a) (map_to_list m).*2) as HF.
  { apply Forall_forall. intros b ([k' b'] & -> & Hin%elem_of_map_to_list)%list_elem_of_fmap. cbn. by eapply H. }
  induction HF as [|a l Ha Hl IH]; [done|]. rewrite !fmap_cons, !zsum_cons. lia.
Qed.
Lemma map_sum_le_size f m : (forall a, f a <= 1) -> map_sum f m <= Z.of_nat (size m).
Proof.
  intros H. rewrite map_sum_list, <-length_map_to_list, <-(length_fmap snd).
  induction (map_to_list m).*2 as [|a l IH]; [done|]. rewrite fmap_cons, zsum_cons. cbn [length]. specialize (H a). lia.
Qed.

Lemma map_sum_dom f m : map_sum f m = zsum ((fun k => from_option f 0 (m !! k)) <$> elements (dom m)).
Proof.
  induction m as [|k a m Hk IH] using map_ind; [done|].
  rewrite map_sum_insert_new, dom_insert_L by done.
  rewrite elements_union_singleton by (by apply not_elem_of_dom). rewrite fmap_cons, zsum_cons, lookup_insert_eq, IH. cbn [from_option].
  do 2 f_equal. apply list_fmap_ext. intros i k' Hk'. rewrite lookup_insert_ne; [done|].
  intros <-. apply list_elem_of_lookup_2, elem_of_elements, elem_of_dom in Hk' as [??]. congruence.
Qed.
End MapSums.

(** ** Byte strings

    A Go [string] and a [[]byte] are both sequences of bytes; both are Rocq
    strings here, so the conversions between them are the identity. *)

Definition slen (s : string) : Z := Z.of_nat (String.length s).
Definition byte_val (c : ascii) : Z := Z.of_N (N_of_ascii c).

Fixpoint all_bytes (p : ascii -> bool) (s : string) : bool :=
  match s with EmptyString => true | String c r => p c && all_bytes p r end.

(** [make([]byte, n)] *)
(** A byte string of one repeated byte. *)
Fixpoint repeat_byte (c : ascii) (n : nat) : string :=
  match n with O => EmptyString | S n => String c (repeat_byte c n) end.
Fixpoint zero_bytes (n : nat) : string :=
  match n with O => EmptyString | S n' => String zero (zero_bytes n') end.

(** [strings.HasPrefix], [strings.TrimPrefix], [strings.HasSuffix]. *)
Definition HasPrefix (s p : string) : bool := String.prefix p s.
Fixpoint drop_bytes (n : nat) (s : string) : string :=
  match n, s with
  | O, _ => s
  | S n', String _ r => drop_bytes n' r
  | S _, EmptyString => EmptyString
  end.
Definition TrimPrefix (s p : string) : string :=
  if HasPrefix s p then drop_bytes (String.length p) s else s.

Definition HasSuffix (s p : string) : bool :=
  (String.length p <=? String.length s)%nat &&
  bool_decide (drop_bytes (String.length s - String.length p) s = p).

Fixpoint join_strings (sep : string) (l : list string) : string :=
  match l with
  | [] => ""%string
  | [s] => s
  | s :: l' => s +:+ sep +:+ join_strings sep l'
  end.

Lemma slen_app a b : slen (a +:+ b) = slen a + slen b.
Proof.
  unfold slen. induction a as [|c a IH]; [done|].
  change (String c a +:+ b) with (String c (a +:+ b)). cbn [String.length]. lia.
Qed.

Lemma slen_nonneg s : 0 <= slen s.
Proof. unfold slen; lia. Qed.

Lemma app_cons_str c a b : String c a +:+ b = String c (a +:+ b).
Proof. done. Qed.

Lemma app_nil_r_str a : a +:+ "" = a.
Proof. induction a as [|c a IH]; [done|]. by rewrite app_cons_str, IH. Qed.

Lemma app_assoc_str a b c : (a +:+ b) +:+ c = a +:+ (b +:+ c).
Proof. induction a as [|x a IH]; [done|]. by rewrite !app_cons_str, IH. Qed.

Lemma app_inj_len a b c d :
  String.length a = String.length c -> a +:+ b = c +:+ d -> a = c /\ b = d.
Proof.
  revert c; induction a as [|x a IH]; intros [|y c]; cbn [String.length];
    intros Hlen; try discriminate; rewrite ?app_cons_str; [done|].
  intros [= -> H]. apply IH in H as [-> ->]; [done|lia].
Qed.

(** Splitting from the right: the tails have the same length. *)
Lemma app_inj_len_r a b c d :
  String.length b = String.length d -> a +:+ b = c +:+ d -> a = c /\ b = d.
Proof.
  intros Hlen H. apply app_inj_len; [|done].
  apply (f_equal slen) in H. rewrite !slen_app in H. unfold slen in H. lia.
Qed.

Lemma prefix_app p s : String.prefix p (p +:+ s) = true.
Proof.
  induction p as [|c p IH]; [by destruct s|].
  rewrite app_cons_str; cbn. by destruct (ascii_dec c c).
Qed.

Lemma prefix_split p s : String.prefix p s = true -> exists r, s = p +:+ r.
Proof.
  revert s; induction p as [|c p IH]; intros s; [by exists s|].
  destruct s as [|d s]; cbn; [done|]. destruct (ascii_dec c d) as [->|]; [|done].
  intros (r & ->)%IH. by exists r.
Qed.

Lemma drop_bytes_app p s : drop_bytes (String.length p) (p +:+ s) = s.
Proof. induction p as [|c p IH]; [done|exact IH]. Qed.

Lemma TrimPrefix_app p s : TrimPrefix (p +:+ s) p = s.
Proof. unfold TrimPrefix, HasPrefix. by rewrite prefix_app, drop_bytes_app. Qed.

Lemma length_app_str a b : String.length (a +:+ b) = (String.length a + String.length b)%nat.
Proof. induction a as [|c a IH]; [done|]. rewrite app_cons_str. cbn. by rewrite IH. Qed.

Lemma HasSuffix_app a p : HasSuffix (a +:+ p) p = true.
Proof.
  unfold HasSuffix. rewrite length_app_str, Nat.add_sub, drop_bytes_app, bool_decide_true by done.
  rewrite andb_true_r. apply Nat.leb_le. lia.
Qed.

Lemma all_bytes_app p a b : all_bytes p (a +:+ b) = all_bytes p a && all_bytes p b.
Proof.
  induction a as [|c a IH]; [done|]. rewrite app_cons_str; cbn.
  by rewrite IH, andb_assoc.
Qed.

(** *** Lexicographic order of byte strings: [bytes.Compare] and Go's [<] on strings *)

Fixpoint cmp_bytes (a b : string) : comparison :=
  match a, b with
  | EmptyString, EmptyString => Eq
  | EmptyString, String _ _ => Lt
  | String _ _, EmptyString => Gt
  | String x a', String y b' =>
      match N.compare (N_of_ascii x) (N_of_ascii y) with
      | Eq => cmp_bytes a' b'
      | c => c
      end
  end.

Definition bytes_le (a b : string) : Prop := cmp_bytes a b <> Gt.
Definition bytes_lt (a b : string) : Prop := cmp_bytes a b = Lt.

#[global] Instance bytes_le_dec : RelDecision bytes_le.
Proof. intros a b. unfold bytes_le. apply _. Defined.
#[global] Instance bytes_lt_dec : RelDecision bytes_lt.
Proof. intros a b. unfold bytes_lt. apply _. Defined.

Lemma N_of_ascii_inj x y : N_of_ascii x = N_of_ascii y -> x = y.
Proof.
  intros H. rewrite <-(ascii_N_embedding x), <-(ascii_N_embedding y). congruence.
Qed.

Lemma cmp_bytes_eq a b : cmp_bytes a b = Eq <-> a = b.
Proof.
  revert b; induction a as [|x a IH]; intros [|y b]; cbn; try done.
  destruct (N.compare_spec (N_of_ascii x) (N_of_ascii y)) as [H|H|H].
  - apply N_of_ascii_inj in H as ->. rewrite IH. naive_solver.
  - split; [done|]. intros [= -> ->]. lia.
  - split; [done|]. intros [= -> ->]. lia.
Qed.

Lemma cmp_bytes_refl a : cmp_bytes a a = Eq.
Proof. by apply cmp_bytes_eq. Qed.

Lemma cmp_bytes_antisym a b : cmp_bytes b a = CompOpp (cmp_bytes a b).
Proof.
  revert b; induction a as [|x a IH]; intros [|y b]; cbn; try done.
  rewrite (N.compare_antisym (N_of_ascii x)).
  destruct (N.compare _ _); cbn; [apply IH|done..].
Qed.

Lemma cmp_bytes_lt_trans a b c : cmp_bytes a b = Lt -> cmp_bytes b c = Lt -> cmp_bytes a c = Lt.
Proof.
  revert b c; induction a as [|x a IH]; intros [|y b] [|z c]; cbn; try done.
  destruct (N.compare_spec (N_of_ascii x) (N_of_ascii y)) as [Hxy|Hxy|Hxy],
    (N.compare_spec (N_of_ascii y) (N_of_ascii z)) as [Hyz|Hyz|Hyz]; try done;
    intros H1 H2;
    destruct (N.compare_spec (N_of_ascii x) (N_of_ascii z)) as [Hxz|Hxz|Hxz];
    try lia; eauto.
Qed.

#[global] Instance bytes_le_total : Total bytes_le.
Proof. intros a b. unfold bytes_le. rewrite (cmp_bytes_antisym a b). destruct (cmp_bytes a b); naive_solver. Qed.
#[global] Instance bytes_le_antisymm : AntiSymm eq bytes_le.
Proof.
  intros a b. unfold bytes_le. rewrite (cmp_bytes_antisym a b).
  destruct (cmp_bytes a b) eqn:E; [by apply cmp_bytes_eq in E|done..].
Qed.
#[global] Instance bytes_le_trans : Transitive bytes_le.
Proof.
  intros a b c. unfold bytes_le.
  destruct (cmp_bytes a b) eqn:E1; [|destruct (cmp_bytes b c) eqn:E2|]; try done.
  - by apply cmp_bytes_eq in E1 as ->.
  - apply cmp_bytes_eq in E2 as ->. by rewrite E1.
  - by rewrite (cmp_bytes_lt_trans _ _ _ E1 E2).
Qed.
#[global] Instance bytes_lt_trans : Transitive bytes_lt.
Proof. intros a b c. apply cmp_bytes_lt_trans. Qed.

Lemma bytes_lt_irrefl a : ~ bytes_lt a a.
Proof. unfold bytes_lt. by rewrite cmp_bytes_refl. Qed.

(** [sort.Strings] *)
Definition sort_strings : list string -> list string := merge_sort bytes_le.

Lemma sort_strings_perm l1 l2 : l1 ≡ₚ l2 -> sort_strings l1 = sort_strings l2.
Proof.
  intros H. apply (Sorted_unique bytes_le); try apply Sorted_merge_sort, _.
  unfold sort_strings. by rewrite !merge_sort_Permutation.
Qed.

Lemma sort_strings_Permutation l : sort_strings l ≡ₚ l.
Proof. apply merge_sort_Permutation. Qed.

(** *** encoding/hex *)

Definition hex_digit (n : N) : ascii :=
  if (n <? 10)%N then ascii_of_N (48 + n) else ascii_of_N (87 + n).
Definition hex_value (c : ascii) : option N :=
  let n := N_of_ascii c in
  if (48 <=? n)%N && (n <=? 57)%N then Some (n - 48)%N
  else if (97 <=? n)%N && (n <=? 102)%N then Some (n - 87)%N
  else if (65 <=? n)%N && (n <=? 70)%N then Some (n - 55)%N
  else None.

Fixpoint hex_EncodeToString (s : string) : string :=
  match s with
  | EmptyString => EmptyString
  | String c r =>
      let n := N_of_ascii c in
      String (hex_digit (n / 16)) (String (hex_digit (n mod 16)) (hex_EncodeToString r))
  end.

Fixpoint hex_DecodeString (s : string) : option string :=
  match s with
  | EmptyString => Some EmptyString
  | String a (String b r) =>
      match hex_value a, hex_value b, hex_DecodeString r with
      | Some x, Some y, Some t => Some (String (ascii_of_N (16 * x + y)) t)
      | _, _, _ => None
      end
  | _ => None
  end.

(** The character class [[0-9a-f]]. *)
Definition lower_hex (c : ascii) : bool :=
  let n := byte_val c in
  (48 <=? n) && (n <=? 57) || (97 <=? n) && (n <=? 102).

(** A pattern of the form [prefix] followed by exactly 64 lowercase hex digits. *)
Definition prefixed_hex64 (prefix s : string) : bool :=
  HasPrefix s prefix &&
  (let rest := drop_bytes (String.length prefix) s in
   (slen rest =? 64) && all_bytes lower_hex rest).

Lemma prefixed_hex64_length p s :
  prefixed_hex64 p s = true -> String.length s = (String.length p + 64)%nat.
Proof.
  unfold prefixed_hex64, HasPrefix. rewrite !andb_true_iff. intros [(r & ->)%prefix_split [Hlen _]].
  rewrite drop_bytes_app in Hlen.
  pose proof (slen_app p r) as H. unfold slen in *. lia.
Qed.

Lemma hex_byte_roundtrip c :
  let n := N_of_ascii c in
  hex_value (hex_digit (n / 16)) = Some (n / 16)%N /\
  hex_value (hex_digit (n mod 16)) = Some (n mod 16)%N /\
  ascii_of_N (16 * (n / 16) + n mod 16) = c.
Proof. by destruct c as [[] [] [] [] [] [] [] []]; vm_compute. Qed.

Lemma hex_decode_encode s : hex_DecodeString (hex_EncodeToString s) = Some s.
Proof.
  induction s as [|c s IH]; [done|].
  cbn [hex_EncodeToString hex_DecodeString].
  destruct (hex_byte_roundtrip c) as (-> & -> & Hc). rewrite IH. by rewrite Hc.
Qed.

Lemma hex_encode_inj a b : hex_EncodeToString a = hex_EncodeToString b -> a = b.
Proof.
  intros H. apply (f_equal hex_DecodeString) in H. rewrite !hex_decode_encode in H. by injection H.
Qed.

Lemma hex_encode_length s : slen (hex_EncodeToString s) = 2 * slen s.
Proof. unfold slen. induction s as [|c s IH]; cbn [hex_EncodeToString String.length]; lia. Qed.

Lemma hex_decode_length s r : hex_DecodeString s = Some r -> slen s = 2 * slen r.
Proof.
  unfold slen.
  assert (forall n s r, (String.length s <= n)%nat -> hex_DecodeString s = Some r ->
            Z.of_nat (String.length s) = 2 * Z.of_nat (String.length r)) as Haux;
    [|eauto].
  clear. intros n; induction n as [|n IH]; intros [|a [|b s]] r Hn; cbn [hex_DecodeString];
    try (intros; simplify_eq/=; done); cbn in Hn; try lia.
  repeat case_match; intros; simplify_eq/=.
  match goal with H : hex_DecodeString _ = _ |- _ => apply IH in H; [lia|lia] end.
Qed.

Lemma hex_encode_lower s : all_bytes lower_hex (hex_EncodeToString s) = true.
Proof.
  induction s as [|c s IH]; [done|]. cbn [hex_EncodeToString all_bytes]. rewrite IH, andb_true_r.
  by destruct c as [[] [] [] [] [] [] [] []]; vm_compute.
Qed.

Lemma hex_char_roundtrip c x : lower_hex c = true -> hex_value c = Some x -> (x < 16)%N /\ hex_digit x = c.
Proof.
  destruct c as [[] [] [] [] [] [] [] []]; cbn; intros Hl Hx; try discriminate Hl; injection Hx as <-; by vm_compute.
Qed.

Lemma hex_encode_decode s d : all_bytes lower_hex s = true -> hex_DecodeString s = Some d -> hex_EncodeToString d = s.
Proof.
  revert s. induction d as [|c d IH]; intros [|a [|b s]] Hl Hd; cbn [hex_DecodeString] in Hd; try discriminate Hd; [done|..].
  { by destruct (hex_value a), (hex_value b), (hex_DecodeString s). }
  cbn [all_bytes] in Hl. rewrite !andb_true_iff in Hl. destruct Hl as (Ha & Hb & Hs).
  destruct (hex_value a) as [x|] eqn:Hx, (hex_value b) as [y|] eqn:Hy, (hex_DecodeString s) as [t|] eqn:Ht; try discriminate Hd.
  injection Hd as <- <-. destruct (hex_char_roundtrip a x Ha Hx) as [Hx16 Hxa]. destruct (hex_char_roundtrip b y Hb Hy) as [Hy16 Hyb].
  cbn [hex_EncodeToString]. rewrite N_ascii_embedding by lia. rewrite (N.mul_comm 16), N.div_add_l, N.div_small, N.add_0_r by lia.
  rewrite N.add_comm, N.Div0.mod_add, N.mod_small by lia. by rewrite Hxa, Hyb, (IH s).
Qed.

(** *** Decimal text: [strconv.FormatUint], [strconv.FormatInt], [big.Int] *)

Definition FormatN (n : N) : string := NilZero.string_of_uint (N.to_uint n).
Definition FormatZ (z : Z) : string :=
  match z with
  | Z0 => "0"
  | Zpos p => FormatN (Npos p)
  | Zneg p => "-" +:+ FormatN (Npos p)
  end.

Definition is_digit (c : ascii) : bool := (48 <=? byte_val c) && (byte_val c <=? 57).

(** [new(big.Int).SetString(s, 10)]: an optional sign, then at least one digit. *)
Definition digits_value (s : string) : option N := N.of_uint <$> NilZero.uint_of_string s.
Definition SetString10 (s : string) : option Z :=
  match s with
  | String "-"%char r => (fun n => - Z.of_N n) <$> digits_value r
  | String "+"%char r => Z.of_N <$> digits_value r
  | _ => Z.of_N <$> digits_value s
  end.

(** Canonical unsigned decimal text: a single zero, or digits with no leading zero. *)
Definition canonical_decimal (s : string) : bool :=
  match s with
  | EmptyString => false
  | String c r =>
      if byte_val c =? 48 then match r with EmptyString => true | _ => false end
      else is_digit c && all_bytes is_digit r
  end.

Section Decimal.
Import Decimal.

Ltac solve_digit :=
  split; [by intros []|split; [first [by intros Hn; exfalso; apply Hn|done]|done]].

Lemma digit_char c : is_digit c = true ->
  exists f : uint -> uint,
    (forall o, uint_of_char c o = f <$> o) /\ (byte_val c <> 48 -> forall d, nzhead (f d) = f d)
    /\ (forall d, f d <> Nil).
Proof.
  destruct c as [[] [] [] [] [] [] [] []]; intros Hd; vm_compute in Hd; try discriminate Hd;
    first [ exists D0; solve_digit | exists D1; solve_digit | exists D2; solve_digit
          | exists D3; solve_digit | exists D4; solve_digit | exists D5; solve_digit
          | exists D6; solve_digit | exists D7; solve_digit | exists D8; solve_digit
          | exists D9; solve_digit ].
Qed.

Lemma digits_parse s : all_bytes is_digit s = true -> is_Some (NilEmpty.uint_of_string s).
Proof.
  induction s as [|c s IH]; cbn [all_bytes NilEmpty.uint_of_string]; [by eexists|].
  rewrite andb_true_iff. intros [Hc [d Hd]%IH].
  destruct (digit_char c Hc) as (f & Hf & _). rewrite Hf, Hd. by eexists.
Qed.

Lemma canonical_decimal_parse s : canonical_decimal s = true ->
  exists d, NilZero.uint_of_string s = Some d /\ unorm d = d.
Proof.
  destruct s as [|c s]; [done|]. unfold canonical_decimal, NilZero.uint_of_string.
  cbn [NilEmpty.uint_of_string]. case_match eqn:Hz.
  - destruct s; [|done]. intros _. exists (D0 Nil). split; [|done].
    assert (c = "0"%char) as ->; [|done].
    apply N_of_ascii_inj. unfold byte_val in Hz. cbn. lia.
  - rewrite andb_true_iff. intros [Hc [d Hd]%digits_parse].
    destruct (digit_char c Hc) as (f & Hf & Hnz & Hnn). rewrite Hf, Hd. cbn.
    exists (f d). split; [done|]. unfold unorm. rewrite Hnz by lia.
    specialize (Hnn d). by destruct (f d).
Qed.

Lemma string_of_uint_digits d : all_bytes is_digit (NilEmpty.string_of_uint d) = true.
Proof. by induction d. Qed.

Lemma canonical_decimal_unorm d : canonical_decimal (NilZero.string_of_uint (unorm d)) = true.
Proof.
  unfold unorm. assert (forall e, nzhead d <> D0 e) as Hnz.
  { induction d; cbn; intros e; try congruence. }
  destruct (nzhead d) as [|e|e|e|e|e|e|e|e|e|e] eqn:E; try done; [by destruct (Hnz e)|..];
    unfold NilZero.string_of_uint; cbn; apply string_of_uint_digits.
Qed.

Lemma to_uint_unorm n : unorm (N.to_uint n) = N.to_uint n.
Proof. rewrite <-DecimalN.Unsigned.to_of. by rewrite DecimalN.Unsigned.of_to. Qed.

Lemma unorm_nonnil d : unorm d <> Nil.
Proof. unfold unorm. by destruct (nzhead d). Qed.
End Decimal.

Lemma FormatN_canonical n : canonical_decimal (FormatN n) = true.
Proof. unfold FormatN. rewrite <-to_uint_unorm. apply canonical_decimal_unorm. Qed.

Lemma digits_value_FormatN n : digits_value (FormatN n) = Some n.
Proof.
  unfold digits_value, FormatN. rewrite NilZero.usu; cbn.
  - by rewrite DecimalN.Unsigned.of_to.
  - rewrite <-to_uint_unorm. apply unorm_nonnil.
Qed.

Lemma canonical_decimal_FormatN s :
  canonical_decimal s = true -> exists n, digits_value s = Some n /\ FormatN n = s.
Proof.
  intros (d & Hd & Hn)%canonical_decimal_parse. exists (N.of_uint d).
  unfold digits_value, FormatN. rewrite Hd. split; [done|].
  rewrite DecimalN.Unsigned.to_of, Hn. by apply NilZero.sus.
Qed.

Lemma FormatN_inj n m : FormatN n = FormatN m -> n = m.
Proof.
  intros H. apply (f_equal digits_value) in H. rewrite !digits_value_FormatN in H. by injection H.
Qed.

Lemma canonical_decimal_digits s : canonical_decimal s = true -> all_bytes is_digit s = true.
Proof.
  destruct s as [|c s]; [done|]. unfold canonical_decimal. cbn [all_bytes]. case_match.
  - destruct s; [|done]. intros _. unfold is_digit. cbn. rewrite andb_true_r. lia.
  - done.
Qed.

Lemma SetString10_FormatN n : SetString10 (FormatN n) = Some (Z.of_N n).
Proof.
  pose proof (FormatN_canonical n) as Hc%canonical_decimal_digits.
  pose proof (digits_value_FormatN n) as Hv.
  unfold SetString10. destruct (FormatN n) as [|c s]; [by rewrite Hv|].
  cbn [all_bytes] in Hc. apply andb_true_iff in Hc as [Hc _].
  destruct c as [[] [] [] [] [] [] [] []]; vm_compute in Hc; try discriminate Hc; by rewrite Hv.
Qed.

Lemma FormatZ_of_N n : FormatZ (Z.of_N n) = FormatN n.
Proof. by destruct n. Qed.

Lemma FormatN_digits n : all_bytes is_digit (FormatN n) = true.
Proof. apply canonical_decimal_digits, FormatN_canonical. Qed.

(** ** Shared list facts *)

Lemma Forall2_iff_elem {A B} (P Q : A -> B -> Prop) l k :
  (forall a b, a ∈ l -> P a b <-> Q a b) -> Forall2 P l k <-> Forall2 Q l k.
Proof.
  intros H. split; revert k; induction l as [|a l IH]; intros k; inversion 1; subst; constructor;
    try (apply H; [by left|done]); apply IH; try done; intros; apply H; by right.
Qed.

Lemma Forall2_diag_elem {A} (P : A -> A -> Prop) l : (forall a, a ∈ l -> P a a) -> Forall2 P l l.
Proof.
  induction l as [|a l IH]; intros H; constructor; [apply H; by left|].
  apply IH. intros; apply H; by right.
Qed.

(** ** Which errors a call can return *)

(** The call does not panic, and an error it returns satisfies [P]. *)
Definition errs {E A} (P : E -> Prop) (r : result E A) : Prop :=
  match r with Ok _ => True | Err e => P e | Panic _ => False end.

Section Errs.
Context {E : Type} (P : E -> Prop).

Lemma errs_bind {A B} (m : result E A) (f : A -> result E B) :
  errs P m -> (forall a, m = Ok a -> errs P (f a)) -> errs P (m ≫= f).
Proof. destruct m; cbn; auto. Qed.

Lemma errs_fail_if c e : (c = true -> P e) -> errs P (fail_if c e).
Proof. destruct c; cbn; auto. Qed.

Lemma errs_or_err {E' A} (m : result E' A) e : errs (fun _ => True) m -> P e -> errs P (or_err m e).
Proof. destruct m; cbn; auto. Qed.

Lemma errs_opt_err {A} (o : option A) e : P e -> errs P (opt_err o e).
Proof. destruct o; cbn; auto. Qed.

Lemma errs_foldM {A B} (f : B -> A -> result E B) b l :
  (forall b a, errs P (f b a)) -> errs P (foldM f b l).
Proof.
  intros Hf. revert b. induction l as [|a l IH]; intros b; cbn; [done|]. by apply errs_bind.
Qed.

Lemma errs_mapE {A B} (f : A -> result E B) l :
  (forall a, a ∈ l -> errs P (f a)) -> errs P (mapE f l).
Proof.
  induction l as [|a l IH]; intros Hf; cbn; [done|].
  apply errs_bind; [apply Hf; by left|]. intros b _.
  apply errs_bind; [apply IH; intros; apply Hf; by right|done].
Qed.

Lemma errs_no_panic {A} (r : result E A) : errs P r -> no_panic r.
Proof. by destruct r. Qed.
End Errs.

Create HintDb errs.
#[export] Hint Resolve errs_bind errs_fail_if errs_or_err errs_opt_err errs_foldM : errs.

(** Decides an [errs] goal whose error values are all literal. *)
Ltac solve_errs :=
  repeat first
    [ done
    | apply errs_bind; [|intros ? _]
    | apply errs_fail_if; intros _
    | apply errs_or_err
    | apply errs_opt_err ].
