(* ===== verification/Economic.v ===== *)
(** * Agent economy metrics (src/pkg/economic)

    The deterministic aggregator: canonical atomic amounts and their bounded
    sums (amount.go), verified job records and their validation (job.go,
    set.go), and the per-asset network metrics over a window (metrics.go).

    A [uint64] is an integer in [0, 2^64); a job list is a [list]; Go's maps
    [seen] and [buckets] are a [gset] and a [gmap].  The results are compared
    with an abstract specification ([bucket_spec]) written with filters and
    sums over the whole job list. *)

From S2P Require Import Prelude.

(** ** amount.go *)

Definition maxU256 : Z := 2 ^ 256.

Definition ErrAmountOverflow : string := "aggregate amount reached the 2^256 bound".

Definition parseAtomic (value : string) : result string Z :=
  fail_if (negb (canonical_decimal value)) "amount is not a canonical unsigned atomic value";;
  parsed ← opt_err (SetString10 value) "amount is not a base-10 integer";
  fail_if ((parsed <? 0) || (maxU256 <=? parsed)) ErrAmountOverflow;;
  Ok parsed.

(** The accumulator [sum256] is its running total. *)
Definition newSum256 : Z := 0.

Definition sum256_add (total : Z) (value : string) : result string Z :=
  parsed ← parseAtomic value;
  let next := total + parsed in
  fail_if (maxU256 <=? next) ErrAmountOverflow;;
  Ok next.

Definition sum256_string (total : Z) : string := FormatZ total.

Definition equalSum (total : Z) (parts : list Z) : bool := foldl Z.add 0 parts =? total.

(** ** job.go *)

Inductive Outcome :=
  | OutcomeNone
  | OutcomeReleased
  | OutcomeRefunded
  | OutcomeOther (text : string).

Inductive Attribution :=
  | AttributionNone
  | AttributionAttributed
  | AttributionUnattributed
  | AttributionUnresolved
  | AttributionOther (text : string).

#[global] Instance Outcome_eq_dec : EqDecision Outcome.
Proof. solve_decision. Defined.
#[global] Instance Attribution_eq_dec : EqDecision Attribution.
Proof. solve_decision. Defined.

Definition jobIDPattern : string -> bool := prefixed_hex64 "sha256:".
Definition agentIDPattern : string -> bool := prefixed_hex64 "agent_".
Definition capIDPattern : string -> bool := prefixed_hex64 "cap_".
Definition codeHashPattern : string -> bool := prefixed_hex64 "tvm-cell-sha256:".
Definition accountIDPattern : string -> bool := prefixed_hex64 "".

Record AssetIdentity := {
  NetworkID : string;
  MasterWorkchain : Z;
  MasterAccountID : string;
  MasterCodeHash : string;
  WalletCodeHash : string;
  Decimals : Z }.

#[global] Instance AssetIdentity_eq_dec : EqDecision AssetIdentity.
Proof. solve_decision. Defined.

Definition AssetIdentity_Validate (a : AssetIdentity) : result string unit :=
  fail_if (bool_decide (NetworkID a = ""%string) || (128 <? slen (NetworkID a))) "asset names no network";;
  fail_if (negb (MasterWorkchain a =? 0)) "V1 assets live on workchain zero";;
  fail_if (negb (accountIDPattern (MasterAccountID a))) "asset master account is not a 32-byte hex address";;
  fail_if (negb (codeHashPattern (MasterCodeHash a))) "asset master code hash is malformed";;
  fail_if (negb (codeHashPattern (WalletCodeHash a))) "asset wallet code hash is malformed".

(** The unit separator, byte 0x1f. *)
Definition unit_sep : string := String (ascii_of_N 31) EmptyString.

Definition AssetIdentity_key (a : AssetIdentity) : string :=
  join_strings unit_sep
    [NetworkID a; FormatZ (MasterWorkchain a); MasterAccountID a; MasterCodeHash a;
     WalletCodeHash a; FormatZ (Decimals a)].

Record VerifiedJob := {
  JobID : string;
  Asset : AssetIdentity;
  BuyerWallet : string;
  ProviderAgentID : string;
  CapabilityID : string;
  CapabilityVersion : string;
  JobOutcome : Outcome;
  JobAttribution : Attribution;
  Amount : string;
  AcceptanceTime : Z;
  FundingTime : Z;
  TerminalTime : Z }.

Definition validateTerminal (j : VerifiedJob) : result string unit :=
  or_err (parseAtomic (Amount j)) "terminal job has a malformed amount";;
  fail_if ((FundingTime j =? 0) || (TerminalTime j =? 0)) "terminal job is missing a funding or terminal time";;
  fail_if ((FundingTime j <? AcceptanceTime j) || (TerminalTime j <? FundingTime j))
    "job times are not ordered acceptance <= funding <= terminal".

Definition VerifiedJob_Validate (j : VerifiedJob) : result string unit :=
  fail_if (negb (jobIDPattern (JobID j))) "job identifier is malformed";;
  AssetIdentity_Validate (Asset j);;
  fail_if (negb (accountIDPattern (BuyerWallet j))) "buyer wallet is not a 32-byte hex address";;
  fail_if (negb (agentIDPattern (ProviderAgentID j))) "provider agent identifier is malformed";;
  fail_if (negb (capIDPattern (CapabilityID j))) "capability identifier is malformed";;
  fail_if (bool_decide (CapabilityVersion j = ""%string) || (64 <? slen (CapabilityVersion j)))
    "capability version is malformed";;
  fail_if (AcceptanceTime j =? 0) "job has no acceptance time";;
  match JobOutcome j with
  | OutcomeNone =>
      fail_if (negb (bool_decide (JobAttribution j = AttributionNone)))
        "a non-terminal job cannot carry an attribution verdict";;
      fail_if (negb (bool_decide (Amount j = ""%string)) || negb (TerminalTime j =? 0))
        "a non-terminal job cannot carry a terminal amount or time"
  | OutcomeReleased =>
      fail_if (negb (bool_decide (JobAttribution j = AttributionAttributed)) &&
               negb (bool_decide (JobAttribution j = AttributionUnattributed)) &&
               negb (bool_decide (JobAttribution j = AttributionUnresolved)))
        "a released job needs an attribution verdict";;
      validateTerminal j
  | OutcomeRefunded =>
      fail_if (negb (bool_decide (JobAttribution j = AttributionNone)))
        "a refunded job carries no attribution verdict";;
      validateTerminal j
  | OutcomeOther _ => Err "unknown job outcome"%string
  end.

Definition isTerminal (j : VerifiedJob) : bool :=
  bool_decide (JobOutcome j = OutcomeReleased) || bool_decide (JobOutcome j = OutcomeRefunded).

(** ** metrics.go *)

Record Window := { From : Z; To : Z }.

Definition Window_Validate (w : Window) : result string unit :=
  fail_if (To w <=? From w) "window end must be after its start".

Definition contains (w : Window) (unix : Z) : bool := (From w <=? unix) && (unix <? To w).

Record NetworkMetrics := {
  nmAsset : AssetIdentity;
  nmWindow : Window;
  SettledCashFlowAtomic : string;
  GrossAgentValueAtomic : string;
  SettledProviderReceiptsAtomic : string;
  UnattributedReleasedValueAtomic : string;
  AttributionUnresolvedReleasedValueAtomic : string;
  AcceptedJobCount : Z;
  FundedJobCount : Z;
  ReleasedEscrowCount : Z;
  AttributedSettledJobCount : Z;
  RefundedJobCount : Z;
  UniqueBuyerWalletCount : Z;
  UniqueQuoteNamedProviderAgentCount : Z;
  UniqueAttributedProviderAgentCount : Z;
  TerminalReleaseRatePPM : option Z;
  RefundRatePPM : option Z;
  MedianSettlementSeconds : option Z;
  P95SettlementSeconds : option Z }.

Definition incr (count : Z) : result string Z :=
  fail_if (count =? maxUint64) "count overflowed";;
  Ok (count + 1).

(** The product is taken in arbitrary precision; [Uint64] keeps the low 64 bits
    of the quotient and the conversion to [uint32] the low 32. *)
Definition ratePPM (numerator denominator : Z) : option Z :=
  if denominator =? 0 then None
  else Some (wrap32 (wrap64 (Z.quot (numerator * 1000000) denominator))).

(** [sorted[i]] of a slice known to be long enough. *)
Definition slice_at (l : list Z) (i : Z) : Z := default 0 (l !! Z.to_nat i).

Definition median (sorted : list Z) : option Z :=
  let n := Z.of_nat (length sorted) in
  if n =? 0 then None
  else if n mod 2 =? 1 then Some (slice_at sorted (n / 2))
  else
    let low := slice_at sorted (n / 2 - 1) in
    let high := slice_at sorted (n / 2) in
    Some (wrap64 (wrap64 (low / 2 + high / 2) + wrap64 (low mod 2 + high mod 2) / 2)).

Definition p95 (sorted : list Z) : option Z :=
  let n := Z.of_nat (length sorted) in
  if n =? 0 then None
  else
    let rank := (95 * n + 99) / 100 in
    let rank := if rank <? 1 then 1 else rank in
    let rank := if n <? rank then n else rank in
    Some (slice_at sorted (rank - 1)).

(** The local variables of [aggregateBucket]'s loop. *)
Record BucketLoop := {
  blAccepted : Z; blFunded : Z; blReleased : Z; blAttributed : Z; blRefunded : Z;
  blSettled : Z; blGross : Z; blUnattributed : Z; blUnresolved : Z;
  blBuyers : gset string; blNamed : gset string; blProviders : gset string;
  blDurations : list Z }.

Definition newBucketLoop : BucketLoop :=
  {| blAccepted := 0; blFunded := 0; blReleased := 0; blAttributed := 0; blRefunded := 0;
     blSettled := newSum256; blGross := newSum256; blUnattributed := newSum256; blUnresolved := newSum256;
     blBuyers := ∅; blNamed := ∅; blProviders := ∅; blDurations := [] |}.

Definition jobSeen (w : Window) (job : VerifiedJob) : bool :=
  contains w (AcceptanceTime job) || contains w (FundingTime job) ||
  (negb (TerminalTime job =? 0) && contains w (TerminalTime job)).

(** One iteration, in the source's order of effects. *)
Definition bucketStep (w : Window) (s : BucketLoop) (job : VerifiedJob) : result string BucketLoop :=
  let '(buyers, named) :=
    if jobSeen w job
    then ({[BuyerWallet job]} ∪ blBuyers s, {[ProviderAgentID job]} ∪ blNamed s)
    else (blBuyers s, blNamed s) in
  accepted ← (if contains w (AcceptanceTime job) then incr (blAccepted s) else Ok (blAccepted s));
  funded ← (if contains w (FundingTime job) then incr (blFunded s) else Ok (blFunded s));
  if negb (isTerminal job) || negb (contains w (TerminalTime job)) then
    Ok {| blAccepted := accepted; blFunded := funded; blReleased := blReleased s;
          blAttributed := blAttributed s; blRefunded := blRefunded s; blSettled := blSettled s;
          blGross := blGross s; blUnattributed := blUnattributed s; blUnresolved := blUnresolved s;
          blBuyers := buyers; blNamed := named; blProviders := blProviders s;
          blDurations := blDurations s |}
  else
    let durations := blDurations s ++ [wrap64 (TerminalTime job - FundingTime job)] in
    match JobOutcome job with
    | OutcomeReleased =>
        released ← incr (blReleased s);
        settled ← sum256_add (blSettled s) (Amount job);
        '(gross, attributed, providers, unattributed, unresolved) ←
          match JobAttribution job with
          | AttributionAttributed =>
              gross ← sum256_add (blGross s) (Amount job);
              attributed ← incr (blAttributed s);
              Ok (gross, attributed, {[ProviderAgentID job]} ∪ blProviders s, blUnattributed s, blUnresolved s)
          | AttributionUnattributed =>
              unattributed ← sum256_add (blUnattributed s) (Amount job);
              Ok (blGross s, blAttributed s, blProviders s, unattributed, blUnresolved s)
          | AttributionUnresolved =>
              unresolved ← sum256_add (blUnresolved s) (Amount job);
              Ok (blGross s, blAttributed s, blProviders s, blUnattributed s, unresolved)
          | _ => Ok (blGross s, blAttributed s, blProviders s, blUnattributed s, blUnresolved s)
          end;
        Ok {| blAccepted := accepted; blFunded := funded; blReleased := released;
              blAttributed := attributed; blRefunded := blRefunded s; blSettled := settled;
              blGross := gross; blUnattributed := unattributed; blUnresolved := unresolved;
              blBuyers := buyers; blNamed := named; blProviders := providers;
              blDurations := durations |}
    | OutcomeRefunded =>
        refunded ← incr (blRefunded s);
        Ok {| blAccepted := accepted; blFunded := funded; blReleased := blReleased s;
              blAttributed := blAttributed s; blRefunded := refunded; blSettled := blSettled s;
              blGross := blGross s; blUnattributed := blUnattributed s; blUnresolved := blUnresolved s;
              blBuyers := buyers; blNamed := named; blProviders := blProviders s;
              blDurations := durations |}
    | _ =>
        Ok {| blAccepted := accepted; blFunded := funded; blReleased := blReleased s;
              blAttributed := blAttributed s; blRefunded := blRefunded s; blSettled := blSettled s;
              blGross := blGross s; blUnattributed := blUnattributed s; blUnresolved := blUnresolved s;
              blBuyers := buyers; blNamed := named; blProviders := blProviders s;
              blDurations := durations |}
    end.

Definition sort_uint64 : list Z -> list Z := merge_sort Z.le.

Definition set_size (s : gset string) : Z := Z.of_nat (size s).

(** What [aggregateBucket] reports from the final values of the loop. *)
Definition bucketResult (asset : AssetIdentity) (w : Window) (s : BucketLoop) : NetworkMetrics :=
  let terminalTotal := wrap64 (blReleased s + blRefunded s) in
  let durations := sort_uint64 (blDurations s) in
  {| nmAsset := asset;
     nmWindow := w;
     SettledCashFlowAtomic := sum256_string (blSettled s);
     GrossAgentValueAtomic := sum256_string (blGross s);
     SettledProviderReceiptsAtomic := sum256_string (blGross s);
     UnattributedReleasedValueAtomic := sum256_string (blUnattributed s);
     AttributionUnresolvedReleasedValueAtomic := sum256_string (blUnresolved s);
     AcceptedJobCount := blAccepted s;
     FundedJobCount := blFunded s;
     ReleasedEscrowCount := blReleased s;
     AttributedSettledJobCount := blAttributed s;
     RefundedJobCount := blRefunded s;
     UniqueBuyerWalletCount := set_size (blBuyers s);
     UniqueQuoteNamedProviderAgentCount := set_size (blNamed s);
     UniqueAttributedProviderAgentCount := set_size (blProviders s);
     TerminalReleaseRatePPM := ratePPM (blReleased s) terminalTotal;
     RefundRatePPM := ratePPM (blRefunded s) terminalTotal;
     MedianSettlementSeconds := median durations;
     P95SettlementSeconds := p95 durations |}.

Definition aggregateBucket (jobs : list VerifiedJob) (w : Window) : result string NetworkMetrics :=
  match jobs with
  | [] => Panic "index out of range [0] with length 0"
  | first :: _ =>
      s ← foldM (bucketStep w) newBucketLoop jobs;
      fail_if (negb (equalSum (blSettled s) [blGross s; blUnattributed s; blUnresolved s]))
        "released value does not partition into its attribution buckets";;
      Ok (bucketResult (Asset first) w s)
  end.

(** The first loop of [AggregateNetwork]: [seen], [buckets] and [order]. *)
Record GroupLoop := {
  glSeen : gset string;
  glBuckets : gmap string (list VerifiedJob);
  glOrder : list string }.

Definition newGroupLoop : GroupLoop := {| glSeen := ∅; glBuckets := ∅; glOrder := [] |}.

Definition groupStep (g : GroupLoop) (job : VerifiedJob) : result string GroupLoop :=
  VerifiedJob_Validate job;;
  fail_if (bool_decide (JobID job ∈ glSeen g)) "two records name the same job";;
  let key := AssetIdentity_key (Asset job) in
  Ok {| glSeen := {[JobID job]} ∪ glSeen g;
        glOrder := (match glBuckets g !! key with None => glOrder g ++ [key] | Some _ => glOrder g end);
        glBuckets := <[key := default [] (glBuckets g !! key) ++ [job]]> (glBuckets g) |}.

Definition AggregateNetwork (jobs : list VerifiedJob) (w : Window) : result string (list NetworkMetrics) :=
  Window_Validate w;;
  g ← foldM groupStep newGroupLoop jobs;
  mapE (fun key => aggregateBucket (default [] (glBuckets g !! key)) w) (sort_strings (glOrder g)).

(** ** Amounts *)

(** A canonical amount is the decimal text of its value, in range. *)
Lemma parseAtomic_iff s v :
  parseAtomic s = Ok v <-> 0 <= v < maxU256 /\ s = FormatZ v.
Proof.
  unfold parseAtomic. split.
  - intros H. inv_ok. destruct (canonical_decimal s) eqn:Hc; [|done].
    apply canonical_decimal_FormatN in Hc as (n & _ & <-).
    rewrite SetString10_FormatN in *. simplify_eq. rewrite FormatZ_of_N. split; [lia|done].
  - intros [Hr ->].
    assert (FormatZ v = FormatN (Z.to_N v)) as -> by (rewrite <-FormatZ_of_N; f_equal; lia).
    rewrite FormatN_canonical. cbn. rewrite SetString10_FormatN. cbn. rewrite Z2N.id by lia.
    by replace ((v <? 0) || (maxU256 <=? v)) with false by lia.
Qed.

Definition amount_of (j : VerifiedJob) : Z :=
  match parseAtomic (Amount j) with Ok v => v | _ => 0 end.

Lemma amount_of_nonneg j : 0 <= amount_of j.
Proof.
  unfold amount_of. destruct (parseAtomic _) eqn:E; [|done..]. apply parseAtomic_iff in E. lia.
Qed.

(** ** The asset key *)

Lemma unit_sep_not_digit : all_bytes is_digit unit_sep = false.
Proof. done. Qed.

(** Two texts of digits after a separator: the separator is found from the right. *)
Lemma sep_digits_inj a b d e :
  all_bytes is_digit d = true -> all_bytes is_digit e = true ->
  a +:+ unit_sep +:+ d = b +:+ unit_sep +:+ e -> d = e.
Proof.
  intros Hd He. revert b. induction a as [|x a IH]; intros [|y b].
  - intros H. by apply app_inj_len in H as [_ H]; [apply app_inj_len in H as [_ H]|].
  - intros H. change (String (ascii_of_N 31) d = String y (b +:+ unit_sep +:+ e)) in H.
    injection H as _ ->. by rewrite all_bytes_app, (all_bytes_app _ unit_sep), andb_false_r in Hd.
  - intros H. change (String x (a +:+ unit_sep +:+ d) = String (ascii_of_N 31) e) in H.
    injection H as _ <-. by rewrite all_bytes_app, (all_bytes_app _ unit_sep), andb_false_r in He.
  - rewrite !app_cons_str. intros [= _ H]. eauto.
Qed.

Lemma AssetIdentity_Validate_Ok a :
  AssetIdentity_Validate a = Ok tt ->
  MasterWorkchain a = 0 /\ String.length (MasterAccountID a) = 64%nat /\
  String.length (MasterCodeHash a) = 80%nat /\ String.length (WalletCodeHash a) = 80%nat.
Proof.
  unfold AssetIdentity_Validate, accountIDPattern, codeHashPattern. intros H. inv_ok.
  repeat match goal with
  | H : negb (prefixed_hex64 _ _) = false |- _ =>
      apply negb_false_iff, prefixed_hex64_length in H; rewrite H; clear H
  end. cbn [String.length]. lia.
Qed.

Lemma FormatZ_nonneg z : 0 <= z -> FormatZ z = FormatN (Z.to_N z).
Proof. intros. rewrite <-FormatZ_of_N. f_equal. lia. Qed.

Lemma AssetIdentity_key_inj a b :
  AssetIdentity_Validate a = Ok tt -> AssetIdentity_Validate b = Ok tt ->
  0 <= Decimals a -> 0 <= Decimals b ->
  AssetIdentity_key a = AssetIdentity_key b -> a = b.
Proof.
  destruct a as [na wa ma ca la da], b as [nb wb mb cb lb db].
  intros (Hw & Hm & Hc & Hl)%AssetIdentity_Validate_Ok (Hw' & Hm' & Hc' & Hl')%AssetIdentity_Validate_Ok
    Hda Hdb. cbn in *. subst. unfold AssetIdentity_key; cbn [join_strings
    NetworkID MasterWorkchain MasterAccountID MasterCodeHash WalletCodeHash Decimals].
  rewrite !FormatZ_nonneg by done. intros H.
  assert (da = db) as ->.
  { rewrite <-!app_assoc_str in H. rewrite (app_assoc_str _ unit_sep (FormatN (Z.to_N da))),
      (app_assoc_str _ unit_sep (FormatN (Z.to_N db))) in H.
    apply sep_digits_inj, FormatN_inj in H; [lia|apply FormatN_digits..]. }
  apply app_inj_len_r in H as [-> H].
  2: { clear H. pose proof (fun x y => slen_app x y) as Ha. apply Nat2Z.inj.
       change (slen (unit_sep +:+ FormatN (Z.to_N 0) +:+ unit_sep +:+ ma +:+ unit_sep +:+ ca +:+ unit_sep +:+ la +:+ unit_sep +:+ FormatN (Z.to_N db)) =
               slen (unit_sep +:+ FormatN (Z.to_N 0) +:+ unit_sep +:+ mb +:+ unit_sep +:+ cb +:+ unit_sep +:+ lb +:+ unit_sep +:+ FormatN (Z.to_N db))).
       rewrite !Ha. unfold slen. lia. }
  do 2 (apply app_inj_len in H as [_ H]; [|done]).
  apply app_inj_len in H as [_ H]; [|done]. apply app_inj_len in H as [-> H]; [|congruence].
  apply app_inj_len in H as [_ H]; [|done]. apply app_inj_len in H as [-> H]; [|congruence].
  apply app_inj_len in H as [_ H]; [|done]. apply app_inj_len in H as [-> H]; [|congruence].
  done.
Qed.

(** ** Abstract specification of one asset's bucket

    Every figure is a filter and a sum (or a set, or a list) over the jobs. *)

Section BucketSpec.
Context (w : Window).

Definition terminal_in (j : VerifiedJob) : bool := isTerminal j && contains w (TerminalTime j).
Definition released_in (j : VerifiedJob) : bool :=
  terminal_in j && bool_decide (JobOutcome j = OutcomeReleased).
Definition refunded_in (j : VerifiedJob) : bool :=
  terminal_in j && bool_decide (JobOutcome j = OutcomeRefunded).
Definition attributed_in (a : Attribution) (j : VerifiedJob) : bool :=
  released_in j && bool_decide (JobAttribution j = a).

Definition count (p : VerifiedJob -> bool) (jobs : list VerifiedJob) : Z :=
  Z.of_nat (length (List.filter p jobs)).
Definition value (p : VerifiedJob -> bool) (jobs : list VerifiedJob) : Z :=
  zsum (amount_of <$> List.filter p jobs).
Definition distinct (f : VerifiedJob -> string) (p : VerifiedJob -> bool) (jobs : list VerifiedJob) : gset string :=
  list_to_set (f <$> List.filter p jobs).

Definition bucket_spec (jobs : list VerifiedJob) : BucketLoop :=
  {| blAccepted := count (fun j => contains w (AcceptanceTime j)) jobs;
     blFunded := count (fun j => contains w (FundingTime j)) jobs;
     blReleased := count released_in jobs;
     blAttributed := count (attributed_in AttributionAttributed) jobs;
     blRefunded := count refunded_in jobs;
     blSettled := value released_in jobs;
     blGross := value (attributed_in AttributionAttributed) jobs;
     blUnattributed := value (attributed_in AttributionUnattributed) jobs;
     blUnresolved := value (attributed_in AttributionUnresolved) jobs;
     blBuyers := distinct BuyerWallet (jobSeen w) jobs;
     blNamed := distinct ProviderAgentID (jobSeen w) jobs;
     blProviders := distinct ProviderAgentID (attributed_in AttributionAttributed) jobs;
     blDurations := (fun j => TerminalTime j - FundingTime j) <$> List.filter terminal_in jobs |}.

Lemma count_snoc p jobs j : count p (jobs ++ [j]) = count p jobs + (if p j then 1 else 0).
Proof. unfold count. rewrite List.filter_app, length_app. cbn. destruct (p j); cbn; lia. Qed.

Lemma value_snoc p jobs j : value p (jobs ++ [j]) = value p jobs + (if p j then amount_of j else 0).
Proof.
  unfold value. rewrite List.filter_app, fmap_app, zsum_app. cbn. destruct (p j); cbn; lia.
Qed.

Lemma distinct_snoc f p jobs j :
  distinct f p (jobs ++ [j]) = (if p j then {[f j]} ∪ distinct f p jobs else distinct f p jobs).
Proof.
  unfold distinct. rewrite List.filter_app, fmap_app, list_to_set_app_L. cbn.
  destruct (p j); cbn; set_solver.
Qed.

Lemma count_bound p jobs : 0 <= count p jobs <= Z.of_nat (length jobs).
Proof. unfold count. pose proof (List.filter_length_le p jobs). lia. Qed.

Lemma value_nonneg p jobs : 0 <= value p jobs.
Proof.
  apply zsum_nonneg, Forall_fmap, Forall_true. intros j. apply amount_of_nonneg.
Qed.

Lemma value_mono p q jobs : (forall j, p j = true -> q j = true) -> value p jobs <= value q jobs.
Proof.
  intros Hpq. induction jobs as [|j jobs IH] using rev_ind; [done|].
  rewrite !value_snoc. specialize (Hpq j). pose proof (amount_of_nonneg j).
  destruct (p j), (q j); lia.
Qed.

(** What validation gives about a single job, as the loop uses it. *)
Lemma job_valid_terminal j :
  VerifiedJob_Validate j = Ok tt -> isTerminal j = true ->
  parseAtomic (Amount j) = Ok (amount_of j) /\ FundingTime j <= TerminalTime j.
Proof.
  unfold VerifiedJob_Validate, isTerminal, validateTerminal, amount_of. intros H Ht.
  inv_ok. destruct (JobOutcome j); cbn in Ht; try discriminate Ht; inv_ok;
    match goal with H : parseAtomic _ = Ok _ |- _ => rewrite H end; split; try done; lia.
Qed.

Lemma job_valid_attribution j :
  VerifiedJob_Validate j = Ok tt -> JobOutcome j = OutcomeReleased ->
  JobAttribution j ∈ [AttributionAttributed; AttributionUnattributed; AttributionUnresolved].
Proof.
  unfold VerifiedJob_Validate. intros H Hr. rewrite Hr in H. inv_ok.
  match goal with H : negb _ && negb _ && negb _ = false |- _ =>
    rewrite !andb_false_iff, !negb_false_iff, !bool_decide_eq_true in H end.
  set_solver.
Qed.

Lemma sum256_add_ok t s v :
  parseAtomic s = Ok v -> sum256_add t s = if maxU256 <=? t + v then Err ErrAmountOverflow else Ok (t + v).
Proof. unfold sum256_add. intros ->. cbn. unfold fail_if. by destruct (_ <=? _). Qed.

Lemma incr_ok c : c < maxUint64 -> incr c = Ok (c + 1).
Proof. intros. unfold incr. by replace (c =? maxUint64) with false by lia. Qed.

(** Released value splits into the three attribution parts. *)
Lemma value_partition jobs :
  Forall (fun j => VerifiedJob_Validate j = Ok tt) jobs ->
  value released_in jobs =
    value (attributed_in AttributionAttributed) jobs +
    value (attributed_in AttributionUnattributed) jobs +
    value (attributed_in AttributionUnresolved) jobs.
Proof.
  induction jobs as [|j jobs IH] using rev_ind; [done|].
  rewrite Forall_app, Forall_singleton. intros [Hjs Hj]. rewrite !value_snoc, IH by done.
  unfold attributed_in. destruct (released_in j) eqn:Hr; cbn; [|lia].
  unfold released_in in Hr. apply andb_true_iff in Hr as [_ Hr%bool_decide_eq_true].
  apply (job_valid_attribution j Hj) in Hr.
  set_unfold in Hr. destruct_or!; rewrite Hr; repeat case_bool_decide; try done; lia.
Qed.
End BucketSpec.

Section BucketLoopCorrect.
Context (w : Window).
Abbreviation valid j := (VerifiedJob_Validate j = Ok tt).

Lemma duration_nowrap j :
  valid j -> isTerminal j = true -> 0 <= FundingTime j -> TerminalTime j < two64 ->
  wrap64 (TerminalTime j - FundingTime j) = TerminalTime j - FundingTime j.
Proof. intros Hv Ht ? ?. apply wrap64_small. destruct (job_valid_terminal j Hv Ht). red. lia. Qed.

(** One iteration takes the specification of a prefix to that of the prefix
    extended by the job, unless released value reaches the bound. *)
Lemma bucketStep_spec jobs j :
  valid j -> u64 (FundingTime j) -> u64 (TerminalTime j) ->
  Forall (fun j => valid j) jobs ->
  Z.of_nat (length jobs) < maxUint64 -> value (released_in w) jobs < maxU256 ->
  bucketStep w (bucket_spec w jobs) j =
    if maxU256 <=? value (released_in w) (jobs ++ [j]) then Err ErrAmountOverflow
    else Ok (bucket_spec w (jobs ++ [j])).
Proof.
  intros Hv Hft Htt Hjs Hlen Hval.
  assert (forall p, incr (count p jobs) = Ok (count p jobs + 1)) as Hincr.
  { intros p. apply incr_ok. pose proof (count_bound p jobs). lia. }
  assert (forall (p : VerifiedJob -> bool) (c : bool), (if c then incr (count p jobs) else Ok (count p jobs)) =
            Ok (count p jobs + if c then 1 else 0)) as Hincr'.
  { intros p []; [apply Hincr|]. by rewrite Z.add_0_r. }
  unfold bucketStep, bucket_spec; cbn [blAccepted blFunded blReleased blAttributed blRefunded blSettled
    blGross blUnattributed blUnresolved blBuyers blNamed blProviders blDurations].
  rewrite !Hincr', !count_snoc, !value_snoc, !distinct_snoc, List.filter_app, fmap_app.
  replace (if jobSeen w j then _ else _) with
    ((if jobSeen w j then {[BuyerWallet j]} ∪ distinct BuyerWallet (jobSeen w) jobs
      else distinct BuyerWallet (jobSeen w) jobs),
     (if jobSeen w j then {[ProviderAgentID j]} ∪ distinct ProviderAgentID (jobSeen w) jobs
      else distinct ProviderAgentID (jobSeen w) jobs)) by (by destruct (jobSeen w j)).
  cbn [mbind result_bind List.filter fmap list_fmap]. rewrite <-negb_andb. fold (terminal_in w j).
  change (refunded_in w j) with (terminal_in w j && bool_decide (JobOutcome j = OutcomeRefunded)).
  assert (forall a, attributed_in w a j = released_in w j && bool_decide (JobAttribution j = a)) as Hat by done.
  rewrite !Hat.
  change (released_in w j) with (terminal_in w j && bool_decide (JobOutcome j = OutcomeReleased)).
  destruct (terminal_in w j) eqn:Hti; cbn [negb andb].
  2: { rewrite !Z.add_0_r, app_nil_r. by replace (maxU256 <=? _) with false by lia. }
  apply andb_true_iff in Hti as [Ht _]. pose proof (job_valid_terminal j Hv Ht) as [Hp _].
  rewrite (duration_nowrap j) by (done || (red in Hft, Htt; lia)).
  unfold isTerminal in Ht.
  destruct (JobOutcome j) eqn:Ho; cbn in Ht; try discriminate Ht.
  - rewrite (Hincr (released_in w)). cbn [mbind result_bind].
    rewrite (sum256_add_ok (value (released_in w) jobs) _ _ Hp).
    rewrite !(bool_decide_eq_true_2 (OutcomeReleased = OutcomeReleased)) by done.
    rewrite !(bool_decide_eq_false_2 (OutcomeReleased = OutcomeRefunded)) by done.
    cbn [andb]. destruct (maxU256 <=? value (released_in w) jobs + amount_of j) eqn:Hov; [done|].
    cbn [mbind result_bind].
    assert (forall a, (maxU256 <=? value (attributed_in w a) jobs + amount_of j) = false) as Hmono.
    { intros a. pose proof (value_mono (attributed_in w a) (released_in w) jobs) as Hm.
      assert (value (attributed_in w a) jobs <= value (released_in w) jobs); [|lia].
      apply Hm. unfold attributed_in. intros x. by destruct (released_in w x). }
    pose proof (job_valid_attribution j Hv Ho) as Ha. set_unfold in Ha.
    destruct_or!; rewrite Ha, !(sum256_add_ok _ _ _ Hp), !Hmono; cbn [mbind result_bind];
      rewrite ?Hincr; cbn [mbind result_bind]; repeat case_bool_decide; try done; by rewrite ?Z.add_0_r.
  - rewrite Hincr. cbn [mbind result_bind].
    rewrite !(bool_decide_eq_false_2 (OutcomeRefunded = OutcomeReleased)) by done.
    rewrite !(bool_decide_eq_true_2 (OutcomeRefunded = OutcomeRefunded)) by done.
    cbn [andb]. rewrite !Z.add_0_r. by replace (maxU256 <=? _) with false by lia.
Qed.


(** The loop as a whole: the specification, or the overflow error exactly when
    released value reaches the bound. *)
Lemma bucketLoop_spec jobs :
  Forall (fun j => valid j /\ u64 (FundingTime j) /\ u64 (TerminalTime j)) jobs ->
  Z.of_nat (length jobs) < two64 ->
  foldM (bucketStep w) newBucketLoop jobs =
    if maxU256 <=? value (released_in w) jobs then Err ErrAmountOverflow
    else Ok (bucket_spec w jobs).
Proof.
  induction jobs as [|j jobs IH] using rev_ind; [done|].
  rewrite Forall_app, Forall_singleton, length_app. intros [Hjs (Hv & Hf & Ht)] Hlen. cbn in Hlen.
  rewrite foldM_app, IH by (done || lia).
  destruct (maxU256 <=? value (released_in w) jobs) eqn:Hov; cbn [mbind result_bind foldM].
  - rewrite value_snoc. pose proof (amount_of_nonneg j).
    destruct (released_in w j); by replace (maxU256 <=? _) with true by lia.
  - rewrite bucketStep_spec; [by destruct (maxU256 <=? value (released_in w) (jobs ++ [j]))|done..| |unfold maxUint64; lia|lia].
    eapply Forall_impl; [exact Hjs|naive_solver].
Qed.

Lemma aggregateBucket_spec j jobs :
  Forall (fun j => valid j /\ u64 (FundingTime j) /\ u64 (TerminalTime j)) (j :: jobs) ->
  Z.of_nat (length (j :: jobs)) < two64 ->
  aggregateBucket (j :: jobs) w =
    if maxU256 <=? value (released_in w) (j :: jobs) then Err ErrAmountOverflow
    else Ok (bucketResult (Asset j) w (bucket_spec w (j :: jobs))).
Proof.
  intros Hjs Hlen. unfold aggregateBucket. rewrite bucketLoop_spec by done.
  destruct (maxU256 <=? _); [done|]. cbn [mbind result_bind].
  unfold equalSum. cbn [foldl blSettled blGross blUnattributed blUnresolved bucket_spec].
  rewrite (value_partition w) by (eapply Forall_impl; [exact Hjs|naive_solver]).
  by rewrite Z.add_0_l, Z.eqb_refl.
Qed.
End BucketLoopCorrect.

(** ** Grouping by asset *)

#[local] Arguments AssetIdentity_key : simpl never.
#[local] Arguments VerifiedJob_Validate : simpl never.

Section Grouping.
Abbreviation valid j := (VerifiedJob_Validate j = Ok tt).
Abbreviation jkey j := (AssetIdentity_key (Asset j)).

Definition bucket_of (k : string) (jobs : list VerifiedJob) : list VerifiedJob :=
  List.filter (fun j => bool_decide (jkey j = k)) jobs.

Lemma bucket_of_snoc k jobs j :
  bucket_of k (jobs ++ [j]) = bucket_of k jobs ++ (if bool_decide (jkey j = k) then [j] else []).
Proof. unfold bucket_of. rewrite List.filter_app. done. Qed.

Lemma bucket_of_nonempty k jobs : bucket_of k jobs <> [] <-> k ∈ (fun j => jkey j) <$> jobs.
Proof.
  induction jobs as [|j jobs IH]; cbn; [by rewrite elem_of_nil|].
  rewrite elem_of_cons, <-IH. case_bool_decide; naive_solver.
Qed.

(** What the first loop has computed after a prefix of the jobs. *)
Record group_inv (jobs : list VerifiedJob) (g : GroupLoop) : Prop := {
  gi_seen : glSeen g = list_to_set (JobID <$> jobs);
  gi_buckets : forall k, default [] (glBuckets g !! k) = bucket_of k jobs;
  gi_known : forall k, is_Some (glBuckets g !! k) <-> k ∈ (fun j => jkey j) <$> jobs;
  gi_order : forall k, k ∈ glOrder g <-> k ∈ (fun j => jkey j) <$> jobs;
  gi_nodup : NoDup (glOrder g) }.

Lemma groupStep_inv jobs g j :
  group_inv jobs g -> valid j -> JobID j ∉ JobID <$> jobs ->
  exists g', groupStep g j = Ok g' /\ group_inv (jobs ++ [j]) g'.
Proof.
  intros [Hs Hb Hk Ho Hn] Hv Hid. unfold groupStep. rewrite Hv. cbn.
  rewrite bool_decide_eq_false_2 by (by rewrite Hs, elem_of_list_to_set). cbn.
  eexists; split; [done|]. split; cbn.
  - rewrite Hs, fmap_app, list_to_set_app_L. cbn. rewrite (right_id_L ∅ (∪)). by rewrite (comm_L (∪)).
  - intros k. rewrite bucket_of_snoc. destruct (decide (jkey j = k)) as [<-|Hne].
    + by rewrite lookup_insert_eq, bool_decide_eq_true_2, Hb.
    + by rewrite lookup_insert_ne, bool_decide_eq_false_2, Hb, app_nil_r.
  - intros k. rewrite fmap_app, elem_of_app. cbn. rewrite list_elem_of_singleton.
    destruct (decide (jkey j = k)) as [<-|Hne].
    + rewrite lookup_insert_eq. split; [by right|by eexists].
    + rewrite lookup_insert_ne by done. rewrite Hk. naive_solver.
  - intros k. rewrite fmap_app, elem_of_app. cbn. rewrite list_elem_of_singleton.
    specialize (Hk (jkey j)). rewrite <-Ho.
    destruct (glBuckets g !! jkey j).
    + assert (jkey j ∈ (fun j => jkey j) <$> jobs) as Hin%Ho by (apply Hk; by eexists).
      split; [by left|intros [?| ->]; done].
    + by rewrite elem_of_app, list_elem_of_singleton.
  - specialize (Hk (jkey j)). specialize (Ho (jkey j)).
    destruct (glBuckets g !! jkey j); [done|].
    apply NoDup_app. split; [done|]. split; [|apply NoDup_singleton].
    intros k Hkin ->%list_elem_of_singleton. by apply Ho, Hk, is_Some_None in Hkin.
Qed.

Lemma groupLoop_ok jobs :
  Forall (fun j => valid j) jobs -> NoDup (JobID <$> jobs) ->
  exists g, foldM groupStep newGroupLoop jobs = Ok g /\ group_inv jobs g.
Proof.
  induction jobs as [|j jobs IH] using rev_ind.
  - intros _ _. eexists; split; [done|]. split; cbn; try done; [|constructor].
    intros k. rewrite lookup_empty, elem_of_nil. split; [intros [? [=]]|done].
  - rewrite Forall_app, Forall_singleton, fmap_app, NoDup_app. intros [Hjs Hj] (Hn & Hd & _).
    destruct IH as (g & Hg & Hinv); [done..|].
    rewrite foldM_app, Hg. cbn.
    destruct (groupStep_inv jobs g j Hinv Hj) as (g' & -> & Hinv').
    { intros Hin. apply (Hd (JobID j) Hin). cbn. by rewrite list_elem_of_singleton. }
    by exists g'.
Qed.

Lemma groupLoop_inv jobs g :
  foldM groupStep newGroupLoop jobs = Ok g ->
  Forall (fun j => valid j) jobs /\ NoDup (JobID <$> jobs).
Proof.
  revert g. induction jobs as [|j jobs IH] using rev_ind; intros g; [split; constructor|].
  rewrite foldM_app. intros H. apply bind_Ok in H as (g0 & Hg0 & H).
  destruct (IH g0 Hg0) as [Hjs Hn].
  destruct (groupLoop_ok jobs Hjs Hn) as (g1 & Hg1 & Hinv).
  rewrite Hg0 in Hg1. injection Hg1 as <-.
  cbn in H. unfold groupStep in H. inv_ok. destruct_all unit.
  match goal with H : bool_decide _ = false |- _ =>
    rewrite bool_decide_eq_false, (gi_seen _ _ Hinv), elem_of_list_to_set in H end.
  rewrite Forall_app, Forall_singleton, fmap_app, NoDup_app. split_and!; try done.
  - intros x Hx ->%list_elem_of_singleton. done.
  - apply NoDup_singleton.
Qed.
End Grouping.

(** ** The aggregate *)

(** Values a [VerifiedJob] can hold: its integer fields are in range. *)
Definition job_typed (j : VerifiedJob) : Prop :=
  u64 (AcceptanceTime j) /\ u64 (FundingTime j) /\ u64 (TerminalTime j) /\
  0 <= Decimals (Asset j) < two32.

Definition asset_jobs (a : AssetIdentity) (jobs : list VerifiedJob) : list VerifiedJob :=
  List.filter (fun j => bool_decide (Asset j = a)) jobs.

(** The report: one entry per distinct asset in the order of the asset keys,
    computed from exactly the jobs in that asset. *)
Definition asset_leb (a b : AssetIdentity) : Prop := bytes_le (AssetIdentity_key a) (AssetIdentity_key b).
#[global] Instance asset_leb_dec : RelDecision asset_leb.
Proof. intros a b. unfold asset_leb. apply _. Defined.
#[global] Instance asset_leb_total : Total asset_leb.
Proof. intros a b. apply (total bytes_le). Qed.
#[global] Instance asset_leb_trans : Transitive asset_leb.
Proof. intros a b c. apply (transitivity (R := bytes_le)). Qed.
Definition report_assets (jobs : list VerifiedJob) : list AssetIdentity :=
  merge_sort asset_leb (remove_dups (Asset <$> jobs)).
Definition computed_report (w : Window) (jobs : list VerifiedJob) : list NetworkMetrics :=
  (fun a => bucketResult a w (bucket_spec w (asset_jobs a jobs))) <$> report_assets jobs.

Section Aggregate.
Context (w : Window) (jobs : list VerifiedJob).
Abbreviation valid j := (VerifiedJob_Validate j = Ok tt).
Context (Htyped : Forall job_typed jobs) (Hvalid : Forall (fun j => valid j) jobs).

Lemma valid_asset j : valid j -> AssetIdentity_Validate (Asset j) = Ok tt.
Proof. unfold VerifiedJob_Validate. intros H. inv_ok. destruct_all unit. done. Qed.

Lemma jobs_key_inj a b :
  a ∈ Asset <$> jobs -> b ∈ Asset <$> jobs -> AssetIdentity_key a = AssetIdentity_key b -> a = b.
Proof using Htyped Hvalid.
  rewrite !list_elem_of_fmap. rewrite Forall_forall in Htyped, Hvalid.
  intros (i & -> & Hi) (j & -> & Hj).
  destruct (Htyped i Hi) as (_ & _ & _ & ?), (Htyped j Hj) as (_ & _ & _ & ?).
  apply AssetIdentity_key_inj; try lia; apply valid_asset; auto.
Qed.

Lemma bucket_of_asset a : a ∈ Asset <$> jobs -> bucket_of (AssetIdentity_key a) jobs = asset_jobs a jobs.
Proof using Htyped Hvalid.
  intros Ha. apply List.filter_ext_in. intros j Hj%list_elem_of_In. apply bool_decide_ext.
  split; [|by intros ->]. apply jobs_key_inj; [|done]. by apply list_elem_of_fmap_2.
Qed.

Lemma sorted_keys (order : list string) :
  NoDup order -> (forall k, k ∈ order <-> k ∈ (fun j => AssetIdentity_key (Asset j)) <$> jobs) ->
  sort_strings order = AssetIdentity_key <$> report_assets jobs.
Proof using Htyped Hvalid.
  intros Hn Ho. apply (Sorted_unique bytes_le).
  - apply Sorted_merge_sort, _.
  - unfold report_assets. pose proof (Sorted_merge_sort asset_leb (remove_dups (Asset <$> jobs))) as Hs.
    induction Hs as [|a l Hl IH Hhd]; cbn; constructor; [done|].
    destruct Hhd; cbn; constructor. done.
  - rewrite sort_strings_Permutation. unfold report_assets. rewrite merge_sort_Permutation.
    apply NoDup_Permutation; [done| |].
    + apply NoDup_fmap_2_strong; [|apply NoDup_remove_dups].
      intros a b. rewrite !elem_of_remove_dups. apply jobs_key_inj.
    + intros k. rewrite Ho, !list_elem_of_fmap. setoid_rewrite elem_of_remove_dups.
      setoid_rewrite list_elem_of_fmap. naive_solver.
Qed.

Lemma asset_jobs_nonempty a : a ∈ Asset <$> jobs ->
  exists j l, asset_jobs a jobs = j :: l /\ Asset j = a.
Proof using.
  intros (j & -> & Hj)%list_elem_of_fmap.
  assert (j ∈ asset_jobs (Asset j) jobs) as Hin.
  { apply list_elem_of_In, List.filter_In. rewrite bool_decide_eq_true. split; [by apply list_elem_of_In|done]. }
  destruct (asset_jobs (Asset j) jobs) as [|i l] eqn:E; [by apply elem_of_nil in Hin|].
  exists i, l. split; [done|].
  assert (i ∈ asset_jobs (Asset j) jobs) as Hi by (rewrite E; by left).
  apply list_elem_of_In, List.filter_In in Hi as [_ Hi%bool_decide_eq_true]. done.
Qed.

Lemma aggregate_asset a :
  Z.of_nat (length jobs) < two64 -> a ∈ Asset <$> jobs ->
  aggregateBucket (asset_jobs a jobs) w =
    if maxU256 <=? value (released_in w) (asset_jobs a jobs) then Err ErrAmountOverflow
    else Ok (bucketResult a w (bucket_spec w (asset_jobs a jobs))).
Proof using Htyped Hvalid.
  intros Hlen Ha. destruct (asset_jobs_nonempty a Ha) as (j & l & Hjl & <-).
  assert (Forall (fun j => valid j /\ u64 (FundingTime j) /\ u64 (TerminalTime j)) (asset_jobs (Asset j) jobs)).
  { apply Forall_forall. intros i [Hi _]%list_elem_of_In%List.filter_In.
    apply list_elem_of_In in Hi. rewrite Forall_forall in Htyped, Hvalid.
    destruct (Htyped i Hi) as (_ & ? & ? & _). auto. }
  pose proof (List.filter_length_le (fun i => bool_decide (Asset i = Asset j)) jobs) as Hle.
  fold (asset_jobs (Asset j) jobs) in Hle. rewrite Hjl in *.
  apply aggregateBucket_spec; [done|lia].
Qed.
End Aggregate.

Lemma elem_of_report_assets a jobs : a ∈ report_assets jobs <-> a ∈ Asset <$> jobs.
Proof. unfold report_assets. by rewrite merge_sort_Permutation, elem_of_remove_dups. Qed.

(** The whole call, characterised: when it succeeds and what it returns. *)
Lemma AggregateNetwork_iff jobs w ms :
  Forall job_typed jobs -> Z.of_nat (length jobs) < two64 ->
  AggregateNetwork jobs w = Ok ms <->
    From w < To w /\ Forall (fun j => VerifiedJob_Validate j = Ok tt) jobs /\ NoDup (JobID <$> jobs) /\
    (forall a, a ∈ Asset <$> jobs -> value (released_in w) (asset_jobs a jobs) < maxU256) /\
    ms = computed_report w jobs.
Proof.
  intros Ht Hlen.
  assert (forall g, group_inv jobs g -> Forall (fun j => VerifiedJob_Validate j = Ok tt) jobs ->
    mapE (fun key => aggregateBucket (default [] (glBuckets g !! key)) w) (sort_strings (glOrder g)) = Ok ms <->
    Forall2 (fun a m => value (released_in w) (asset_jobs a jobs) < maxU256 /\
                        m = bucketResult a w (bucket_spec w (asset_jobs a jobs))) (report_assets jobs) ms) as Hrep.
  { intros g Hg Hv. rewrite mapE_Ok, (sorted_keys jobs Ht Hv) by apply Hg.
    rewrite Forall2_fmap_l. apply Forall2_iff_elem. intros a m Ha%elem_of_report_assets.
    cbn beta delta [compose]. rewrite (gi_buckets _ _ Hg), (bucket_of_asset jobs Ht Hv) by done.
    rewrite (aggregate_asset w jobs Ht Hv) by done.
    destruct (Z.leb_spec maxU256 (value (released_in w) (asset_jobs a jobs))); naive_solver lia. }
  unfold AggregateNetwork, Window_Validate. split.
  - intros H. inv_ok. destruct (groupLoop_inv _ _ ltac:(eassumption)) as [Hv Hn].
    destruct (groupLoop_ok jobs Hv Hn) as (g & Hg & Hinv).
    match goal with H : foldM _ _ _ = Ok ?g' |- _ => rewrite H in Hg; injection Hg as -> end.
    match goal with H : mapE _ _ = Ok _ |- _ => rename H into HF; rewrite (Hrep g) in HF by done end.
    split_and!; try done; [lia| |].
    + intros a Ha%elem_of_report_assets. apply list_elem_of_lookup in Ha as (i & Hi).
      eapply Forall2_lookup_l in HF as (m & _ & Hm & _); done.
    + clear -HF. unfold computed_report. induction HF as [|a m l l' [_ ->] _ IH]; cbn; by f_equal.
  - intros (Hw & Hv & Hn & Hb & ->). replace (To w <=? From w) with false by lia. cbn.
    destruct (groupLoop_ok jobs Hv Hn) as (g & -> & Hinv). cbn. apply Hrep; [done..|].
    unfold computed_report. apply Forall2_fmap_r, Forall2_diag_elem. intros a Ha%elem_of_report_assets. auto.
Qed.

(** ** Order independence *)

Lemma filter_perm {A} (p : A -> bool) l l' : l ≡ₚ l' -> List.filter p l ≡ₚ List.filter p l'.
Proof.
  induction 1 as [|x l l' _ IH|x y l|l1 l2 l3 _ IH1 _ IH2]; cbn; [done|..].
  - destruct (p x); [by constructor|done].
  - destruct (p x), (p y); try done. constructor.
  - by etrans.
Qed.

Section OrderIndependence.
Context (w : Window).

#[global] Instance count_proper p : Proper (Permutation ==> eq) (count p).
Proof. intros l l' H. unfold count. by rewrite (filter_perm p _ _ H). Qed.
#[global] Instance value_proper p : Proper (Permutation ==> eq) (value p).
Proof. intros l l' H. unfold value. by rewrite (filter_perm p _ _ H). Qed.
#[global] Instance distinct_proper f p : Proper (Permutation ==> eq) (distinct f p).
Proof. intros l l' H. unfold distinct. apply leibniz_equiv. by rewrite (filter_perm p _ _ H). Qed.
#[global] Instance asset_jobs_proper a : Proper (Permutation ==> Permutation) (asset_jobs a).
Proof. intros l l' H. by apply filter_perm. Qed.

Lemma bucketResult_perm a l l' :
  l ≡ₚ l' -> bucketResult a w (bucket_spec w l) = bucketResult a w (bucket_spec w l').
Proof.
  intros H. unfold bucketResult, bucket_spec; cbn.
  rewrite !(count_proper _ _ _ H), !(value_proper _ _ _ H), !(distinct_proper _ _ _ _ H).
  assert (forall f : VerifiedJob -> Z, sort_uint64 (f <$> List.filter (terminal_in w) l) =
            sort_uint64 (f <$> List.filter (terminal_in w) l')) as ->; [|done].
  intros f. apply (Sorted_unique Z.le); try apply Sorted_merge_sort, _.
  unfold sort_uint64. rewrite !merge_sort_Permutation. by rewrite (filter_perm _ _ _ H).
Qed.

Lemma computed_report_perm jobs jobs' :
  Forall job_typed jobs -> Forall (fun j => VerifiedJob_Validate j = Ok tt) jobs ->
  jobs ≡ₚ jobs' -> computed_report w jobs = computed_report w jobs'.
Proof.
  intros Ht Hv Hp. unfold computed_report.
  assert (report_assets jobs = report_assets jobs') as ->.
  { apply (Sorted_unique_strong asset_leb).
    - intros x y Hx%elem_of_report_assets Hy%elem_of_report_assets ? ?.
      rewrite <-Hp in Hy. apply (jobs_key_inj jobs Ht Hv x y Hx Hy). by apply (anti_symm bytes_le).
    - apply Sorted_merge_sort, _.
    - apply Sorted_merge_sort, _.
    - unfold report_assets. rewrite !merge_sort_Permutation.
      apply NoDup_Permutation; [apply NoDup_remove_dups..|].
      intros x. by rewrite !elem_of_remove_dups, Hp. }
  apply list_fmap_ext. intros i a _. by apply bucketResult_perm, asset_jobs_proper.
Qed.
End OrderIndependence.

(** ** Rates and percentiles *)

Lemma ratePPM_value n d :
  0 <= n <= d -> 0 < d -> ratePPM n d = Some (n * 1000000 / d) /\ n * 1000000 / d <= 1000000.
Proof.
  intros Hn Hd. unfold ratePPM. replace (d =? 0) with false by lia.
  rewrite Z.quot_div_nonneg by lia.
  assert (0 <= n * 1000000 / d <= 1000000).
  { split; [apply Z.div_pos; lia|]. apply Z.div_le_upper_bound; nia. }
  unfold wrap32, wrap64. rewrite (Z.mod_small _ two64) by (unfold two64; lia).
  rewrite (Z.mod_small _ two32) by (unfold two32; lia). split; [done|lia].
Qed.

Lemma slice_at_lookup l i v : 0 <= i -> l !! Z.to_nat i = Some v -> slice_at l i = v.
Proof. intros _ H. unfold slice_at. by rewrite H. Qed.

Lemma halves_mean low high :
  0 <= low -> 0 <= high -> low / 2 + high / 2 + (low mod 2 + high mod 2) / 2 = (low + high) / 2.
Proof.
  intros. rewrite (Z.div_mod low 2) at 3 by lia. rewrite (Z.div_mod high 2) at 3 by lia.
  replace (2 * (low / 2) + low mod 2 + (2 * (high / 2) + high mod 2))
    with (low mod 2 + high mod 2 + (low / 2 + high / 2) * 2) by lia.
  rewrite Z.div_add by lia. lia.
Qed.

(** Number of list elements satisfying a test. *)
Definition zcount (p : Z -> bool) (l : list Z) : Z := Z.of_nat (length (List.filter p l)).

Lemma filter_all_true {A} (p : A -> bool) l : (forall x, x ∈ l -> p x = true) -> List.filter p l = l.
Proof.
  induction l as [|x l IH]; intros H; [done|]. cbn. rewrite (H x) by (by left). f_equal.
  apply IH. intros. apply H. by right.
Qed.

Lemma sorted_split_count l i v :
  Sorted Z.le l -> l !! i = Some v ->
  Z.of_nat i < zcount (fun x => x <=? v) l /\ zcount (fun x => x <? v) l <= Z.of_nat i.
Proof.
  intros Hs Hi. apply list_elem_of_split_length in Hi as (l1 & l2 & -> & ->).
  apply Sorted_StronglySorted in Hs; [|apply _].
  apply StronglySorted_app in Hs as (Hle & _ & Hs2). apply StronglySorted_inv in Hs2 as [_ Hge].
  unfold zcount. rewrite !List.filter_app, !length_app. cbn.
  rewrite (filter_all_true (fun x => x <=? v) l1).
  2: { intros x Hx. apply Z.leb_le, Hle; [done|by left]. }
  replace (v <=? v) with true by lia. replace (v <? v) with false by lia. cbn.
  pose proof (List.filter_length_le (fun x => x <? v) l1).
  assert (List.filter (fun x => x <? v) l2 = []) as ->.
  { rewrite Forall_forall in Hge. destruct (List.filter _ l2) as [|x r] eqn:E; [done|].
    assert (x ∈ List.filter (fun x => x <? v) l2) as Hx by (rewrite E; by left).
    apply list_elem_of_In, List.filter_In in Hx as [Hx%list_elem_of_In Hv]. apply Hge in Hx. lia. }
  cbn. lia.
Qed.

(** ** Properties *)

Lemma errs_groupStep g j :
  errs (fun e => e <> "released value does not partition into its attribution buckets"%string) (groupStep g j).
Proof.
  assert (errs (fun _ => True) (parseAtomic (Amount j))) by (unfold parseAtomic; solve_errs).
  unfold groupStep, VerifiedJob_Validate, validateTerminal. solve_errs.
  destruct (JobOutcome j); solve_errs.
Qed.

(** Canonical amounts and values below 2^256 correspond one to one:
    [parseAtomic] accepts a text exactly when it is what the accumulator prints
    for the value it returns, so an amount has one encoding and none is lost. *)
Theorem parseAtomic_canonical s v :
  parseAtomic s = Ok v <-> (0 <= v < 2 ^ 256 /\ s = sum256_string v).
Proof. apply parseAtomic_iff. Qed.

(** Two validated asset identities share a bucket key only when they are the
    same asset, although the network identifier may itself contain the separator. *)
Theorem asset_key_injective a b :
  AssetIdentity_Validate a = Ok tt -> AssetIdentity_Validate b = Ok tt ->
  0 <= Decimals a < two32 -> 0 <= Decimals b < two32 ->
  AssetIdentity_key a = AssetIdentity_key b -> a = b.
Proof. intros. apply AssetIdentity_key_inj; try done; lia. Qed.

(** The report does not depend on the order in which the jobs arrive. *)
Theorem AggregateNetwork_order_independent jobs jobs' w ms :
  Forall job_typed jobs -> Z.of_nat (length jobs) < two64 -> jobs ≡ₚ jobs' ->
  AggregateNetwork jobs w = Ok ms -> AggregateNetwork jobs' w = Ok ms.
Proof.
  intros Ht Hl Hp. rewrite AggregateNetwork_iff by done. intros (Hw & Hv & Hn & Hb & ->).
  apply AggregateNetwork_iff; rewrite <-?Hp; [done..|]. split_and!; rewrite <-?Hp; try done.
  - intros a. rewrite <-Hp. apply Hb.
  - by apply computed_report_perm.
Qed.

(** No input makes the aggregation panic, and the partition self-check of
    the value buckets is never the reason it fails. *)
Theorem AggregateNetwork_total jobs w :
  Forall job_typed jobs -> Z.of_nat (length jobs) < two64 ->
  no_panic (AggregateNetwork jobs w) /\
  AggregateNetwork jobs w <> Err "released value does not partition into its attribution buckets"%string.
Proof.
  intros Ht Hl.
  assert (errs (fun e => e <> "released value does not partition into its attribution buckets"%string)
            (AggregateNetwork jobs w)) as Herr.
  { unfold AggregateNetwork. apply errs_bind; [unfold Window_Validate; solve_errs|]. intros _ _.
    apply errs_bind; [apply errs_foldM; intros; apply errs_groupStep|]. intros g Hg.
    destruct (groupLoop_inv _ _ Hg) as [Hv Hn].
    destruct (groupLoop_ok jobs Hv Hn) as (g' & Hg' & Hinv). rewrite Hg in Hg'. injection Hg' as <-.
    rewrite (sorted_keys jobs Ht Hv) by apply Hinv. apply errs_mapE.
    intros k (a & -> & Ha%elem_of_report_assets)%list_elem_of_fmap.
    rewrite (gi_buckets _ _ Hinv), (bucket_of_asset jobs Ht Hv), (aggregate_asset w jobs Ht Hv) by done.
    by case_match. }
  split; [by eapply errs_no_panic|]. intros H. by rewrite H in Herr.
Qed.

(** The release and refund rates of a bucket with terminal jobs are at most a
    million parts per million and together lose at most one part to rounding. *)
Theorem rates_partition released refunded :
  0 <= released -> 0 <= refunded -> 0 < released + refunded < two64 ->
  exists r f, ratePPM released (wrap64 (released + refunded)) = Some r /\
              ratePPM refunded (wrap64 (released + refunded)) = Some f /\
              0 <= r <= 1000000 /\ 0 <= f <= 1000000 /\ 999999 <= r + f <= 1000000.
Proof.
  intros H1 H2 H3. rewrite wrap64_small by (red; lia).
  destruct (ratePPM_value released (released + refunded)) as [-> Hr]; [lia..|].
  destruct (ratePPM_value refunded (released + refunded)) as [-> Hf]; [lia..|].
  eexists _, _. split; [done|]. split; [done|].
  set (d := released + refunded) in *.
  pose proof (Z.div_mod (released * 1000000) d ltac:(lia)).
  pose proof (Z.div_mod (refunded * 1000000) d ltac:(lia)).
  pose proof (Z.mod_pos_bound (released * 1000000) d ltac:(lia)).
  pose proof (Z.mod_pos_bound (refunded * 1000000) d ltac:(lia)).
  pose proof (Z.div_pos (released * 1000000) d ltac:(lia) ltac:(lia)).
  pose proof (Z.div_pos (refunded * 1000000) d ltac:(lia) ltac:(lia)).
  split_and!; try lia; nia.
Qed.

(** On a sorted non-empty list of 64-bit durations the median is the middle
    value or the rounded-down mean of the two middle values, with no overflow. *)
Theorem median_correct l :
  l <> [] -> Forall u64 l ->
  let n := length l in
  exists low high, l !! ((n - 1) / 2)%nat = Some low /\ l !! (n / 2)%nat = Some high /\
    median l = Some ((low + high) / 2).
Proof.
  intros Hne Hl n. rewrite Forall_forall in Hl.
  assert (0 < n)%nat as Hn by (subst n; destruct l; [done|cbn; lia]).
  destruct (lookup_lt_is_Some_2 l ((n - 1) / 2)) as [low Hlow]; [fold n; dlia|].
  destruct (lookup_lt_is_Some_2 l (n / 2)) as [high Hhigh]; [fold n; dlia|].
  exists low, high. split; [done|]. split; [done|].
  pose proof (Hl low (list_elem_of_lookup_2 _ _ _ Hlow)) as [? ?].
  pose proof (Hl high (list_elem_of_lookup_2 _ _ _ Hhigh)) as [? ?].
  unfold median, slice_at. fold n. replace (Z.of_nat n =? 0) with false by lia.
  replace (Z.to_nat (Z.of_nat n / 2)) with (n / 2)%nat by dlia. rewrite Hhigh. change (default 0 (Some high)) with high.
  destruct (Z.eqb_spec (Z.of_nat n mod 2) 1) as [Hodd|Heven].
  - replace ((n - 1) / 2)%nat with (n / 2)%nat in Hlow by (clear -Hn Hodd; dlia).
    rewrite Hhigh in Hlow. injection Hlow as ->. f_equal. dlia.
  - replace (Z.to_nat (Z.of_nat n / 2 - 1)) with ((n - 1) / 2)%nat by (clear -Hn Heven; dlia).
    rewrite Hlow. change (default 0 (Some low)) with low.
    rewrite (wrap64_small (low / 2 + high / 2)), (wrap64_small (low mod 2 + high mod 2)), halves_mean
      by (done || (red; unfold two64 in *; dlia)).
    by rewrite wrap64_small by (red; unfold two64 in *; dlia).
Qed.

(** [p95] is the nearest-rank 95th percentile: at least 95 percent of the
    durations are at most the reported value and fewer than 95 percent are below it. *)
Theorem p95_nearest_rank l :
  l <> [] -> Sorted Z.le l ->
  exists v, p95 l = Some v /\ v ∈ l /\
    95 * Z.of_nat (length l) <= 100 * zcount (fun x => x <=? v) l /\
    100 * zcount (fun x => x <? v) l < 95 * Z.of_nat (length l).
Proof.
  intros Hne Hs. set (n := Z.of_nat (length l)).
  assert (0 < n) as Hn by (subst n; destruct l; [done|cbn; lia]).
  set (rank := (95 * n + 99) / 100).
  assert (95 * n <= 100 * rank /\ 100 * rank <= 95 * n + 99) as Hr.
  { pose proof (Z.div_mod (95 * n + 99) 100 ltac:(lia)).
    pose proof (Z.mod_pos_bound (95 * n + 99) 100 ltac:(lia)). subst rank. lia. }
  destruct (lookup_lt_is_Some_2 l (Z.to_nat (rank - 1))) as [v Hv]; [subst n; lia|].
  exists v. unfold p95. fold n. replace (n =? 0) with false by lia. fold rank.
  replace (rank <? 1) with false by lia. replace (n <? rank) with false by lia.
  rewrite (slice_at_lookup l (rank - 1) v) by (done || lia).
  split; [done|]. split; [by eapply list_elem_of_lookup_2|].
  destruct (sorted_split_count l _ _ Hs Hv). lia.
Qed.

(** ** The report, from the jobs alone

    The specification of a report: each figure is a number, a sum, a number of
    distinct names or an order statistic of the jobs that a condition selects.  It
    shares no definition with the code but the data types, the value of an amount and
    the order of the asset keys. *)

Section Report.
Context (w : Window).

Definition during (t : Z) : Prop := From w <= t < To w.
(** Released, refunded, or either, with the terminal time in the window. *)
Definition paid (j : VerifiedJob) : Prop := JobOutcome j = OutcomeReleased /\ during (TerminalTime j).
Definition refunded (j : VerifiedJob) : Prop := JobOutcome j = OutcomeRefunded /\ during (TerminalTime j).
Definition ended (j : VerifiedJob) : Prop := paid j \/ refunded j.
Definition paid_as (a : Attribution) (j : VerifiedJob) : Prop := paid j /\ JobAttribution j = a.
Definition active (j : VerifiedJob) : Prop :=
  during (AcceptanceTime j) \/ during (FundingTime j) \/ (TerminalTime j <> 0 /\ during (TerminalTime j)).

#[global] Instance during_dec t : Decision (during t).
Proof. unfold during. apply _. Defined.
#[global] Instance paid_dec j : Decision (paid j).
Proof. unfold paid. apply _. Defined.
#[global] Instance refunded_dec j : Decision (refunded j).
Proof. unfold refunded. apply _. Defined.
#[global] Instance ended_dec j : Decision (ended j).
Proof. unfold ended. apply _. Defined.
#[global] Instance paid_as_dec a j : Decision (paid_as a j).
Proof. unfold paid_as. apply _. Defined.
#[global] Instance active_dec j : Decision (active j).
Proof. unfold active. apply _. Defined.

Definition number (P : VerifiedJob -> Prop) `{forall j, Decision (P j)} (jobs : list VerifiedJob) : Z :=
  Z.of_nat (length (filter P jobs)).
Definition worth (P : VerifiedJob -> Prop) `{forall j, Decision (P j)} (jobs : list VerifiedJob) : Z :=
  zsum (amount_of <$> filter P jobs).
Definition names (f : VerifiedJob -> string) (P : VerifiedJob -> Prop) `{forall j, Decision (P j)} (jobs : list VerifiedJob) : Z :=
  Z.of_nat (length (remove_dups (f <$> filter P jobs))).

(** [n] of [total], in whole parts per million. *)
Definition share (n total : Z) : option Z := if decide (total = 0) then None else Some (n * 1000000 / total).

(** The mean of the two middle values, which are one value when their number is odd. *)
Definition middle (l : list Z) : option Z :=
  let sorted := merge_sort Z.le l in
  low ← sorted !! ((length l - 1) / 2)%nat; high ← sorted !! (length l / 2)%nat; Some ((low + high) / 2).

(** The least value that at least 95 percent of the values do not exceed. *)
Definition least95 (l : list Z) : option Z :=
  head (filter (fun v => 95 * Z.of_nat (length l) <= 100 * Z.of_nat (length (filter (fun x => x <= v) l))) (merge_sort Z.le l)).

Definition settlement_times (jobs : list VerifiedJob) : list Z :=
  (fun j => TerminalTime j - FundingTime j) <$> filter ended jobs.

(** The entry of one asset, from the jobs in it. *)
Definition entry_spec (a : AssetIdentity) (jobs : list VerifiedJob) : NetworkMetrics :=
  {| nmAsset := a; nmWindow := w;
     SettledCashFlowAtomic := FormatZ (worth paid jobs);
     GrossAgentValueAtomic := FormatZ (worth (paid_as AttributionAttributed) jobs);
     SettledProviderReceiptsAtomic := FormatZ (worth (paid_as AttributionAttributed) jobs);
     UnattributedReleasedValueAtomic := FormatZ (worth (paid_as AttributionUnattributed) jobs);
     AttributionUnresolvedReleasedValueAtomic := FormatZ (worth (paid_as AttributionUnresolved) jobs);
     AcceptedJobCount := number (fun j => during (AcceptanceTime j)) jobs;
     FundedJobCount := number (fun j => during (FundingTime j)) jobs;
     ReleasedEscrowCount := number paid jobs;
     AttributedSettledJobCount := number (paid_as AttributionAttributed) jobs;
     RefundedJobCount := number refunded jobs;
     UniqueBuyerWalletCount := names BuyerWallet active jobs;
     UniqueQuoteNamedProviderAgentCount := names ProviderAgentID active jobs;
     UniqueAttributedProviderAgentCount := names ProviderAgentID (paid_as AttributionAttributed) jobs;
     TerminalReleaseRatePPM := share (number paid jobs) (number ended jobs);
     RefundRatePPM := share (number refunded jobs) (number ended jobs);
     MedianSettlementSeconds := middle (settlement_times jobs);
     P95SettlementSeconds := least95 (settlement_times jobs) |}.
End Report.

Definition report_spec (w : Window) (jobs : list VerifiedJob) : list NetworkMetrics :=
  (fun a => entry_spec w a (filter (fun j => Asset j = a) jobs)) <$> report_assets jobs.

(** *** The figures of the code are those of the specification *)

Lemma filter_bool {A} (p : A -> bool) (P : A -> Prop) `{forall x, Decision (P x)} l :
  (forall x, p x = true <-> P x) -> List.filter p l = filter P l.
Proof.
  intros Hp. induction l as [|x l IH]; [done|]. cbn [List.filter]. rewrite filter_cons, IH.
  specialize (Hp x). destruct (p x); case_decide; naive_solver.
Qed.

Section Figures.
Context (w : Window).

Lemma during_contains t : contains w t = true <-> during w t.
Proof. unfold contains, during. rewrite andb_true_iff, Z.leb_le, Z.ltb_lt. done. Qed.

Lemma ended_terminal j : terminal_in w j = true <-> ended w j.
Proof.
  unfold terminal_in, isTerminal, ended, paid, refunded.
  rewrite andb_true_iff, orb_true_iff, !bool_decide_eq_true, during_contains. naive_solver.
Qed.

Lemma paid_released j : released_in w j = true <-> paid w j.
Proof. unfold released_in. rewrite andb_true_iff, bool_decide_eq_true, ended_terminal. unfold ended, paid, refunded. naive_solver. Qed.

Lemma refunded_refunded j : refunded_in w j = true <-> refunded w j.
Proof. unfold refunded_in. rewrite andb_true_iff, bool_decide_eq_true, ended_terminal. unfold ended, paid, refunded. naive_solver. Qed.

Lemma paid_attributed a j : attributed_in w a j = true <-> paid_as w a j.
Proof. unfold attributed_in, paid_as. by rewrite andb_true_iff, bool_decide_eq_true, paid_released. Qed.

Lemma active_seen j : jobSeen w j = true <-> active w j.
Proof.
  unfold jobSeen, active. rewrite !orb_true_iff, andb_true_iff, negb_true_iff, Z.eqb_neq, !during_contains. naive_solver.
Qed.

Lemma names_distinct f p P `{forall j, Decision (P j)} jobs : (forall j, p j = true <-> P j) ->
  set_size (distinct f p jobs) = names f P jobs.
Proof.
  intros Hp. unfold set_size, distinct, names. rewrite (filter_bool p P) by done. f_equal.
  rewrite <-(size_list_to_set (C := gset string) (remove_dups _)) by apply NoDup_remove_dups. f_equal.
  apply set_eq. intros x. by rewrite !elem_of_list_to_set, elem_of_remove_dups.
Qed.

Lemma number_ended jobs : number (paid w) jobs + number (refunded w) jobs = number (ended w) jobs.
Proof.
  unfold number. induction jobs as [|j jobs IH]; [done|]. rewrite !filter_cons.
  assert (~ (paid w j /\ refunded w j)) as Hx by (intros [[Hp _] [Hr _]]; congruence).
  destruct (decide (paid w j)), (decide (refunded w j)), (decide (ended w j)) as [He|He];
    unfold ended in He; cbn [length]; try lia; tauto.
Qed.

Lemma share_rate n m total : 0 <= n <= total -> 0 <= m -> total < two64 -> m = total -> ratePPM n (wrap64 m) = share n total.
Proof.
  intros Hn Hm Ht ->. rewrite wrap64_small by (red; lia). unfold share. case_decide as Hz; [by rewrite Hz|].
  by apply ratePPM_value; lia.
Qed.

Lemma middle_median l : Forall u64 l -> median (merge_sort Z.le l) = middle l.
Proof.
  intros Hl. destruct (decide (l = [])) as [->|Hne]; [done|]. unfold middle.
  assert (length (merge_sort Z.le l) = length l) as Hlen by by rewrite merge_sort_Permutation.
  destruct (median_correct (merge_sort Z.le l)) as (low & high & Hlow & Hhigh & ->).
  - intros Hn. rewrite Hn in Hlen. by destruct l.
  - by rewrite merge_sort_Permutation.
  - rewrite Hlen in Hlow, Hhigh. by rewrite Hlow, Hhigh.
Qed.

(** The head of the elements with a property, in a sorted list, is the least of them. *)
Lemma head_least (P : Z -> Prop) `{forall z, Decision (P z)} l v : StronglySorted Z.le l -> v ∈ l -> P v ->
  (forall u, u ∈ l -> P u -> v <= u) -> head (filter P l) = Some v.
Proof.
  induction 1 as [|x l Hs IH Hx]; intros Hv HP Hmin; [by apply elem_of_nil in Hv|]. rewrite filter_cons. case_decide as Hd.
  - cbn. f_equal. rewrite Forall_forall in Hx. pose proof (Hmin x ltac:(left) Hd).
    apply elem_of_cons in Hv as [->|Hv]; [done|]. specialize (Hx v Hv). lia.
  - apply elem_of_cons in Hv as [->|Hv]; [done|]. apply IH; [done..|]. intros u Hu. apply Hmin. by right.
Qed.

Lemma least95_p95 l : p95 (merge_sort Z.le l) = least95 l.
Proof.
  destruct (decide (l = [])) as [->|Hne]; [done|]. set (s := merge_sort Z.le l). assert (s ≡ₚ l) as Hp by apply merge_sort_Permutation.
  assert (Sorted Z.le s) as Hs by (apply Sorted_merge_sort, _).
  destruct (p95_nearest_rank s) as (v & -> & Hv & Hge & Hlt); [intros E; rewrite E in Hp; by apply Permutation_nil_l in Hp|done|].
  assert (length s = length l) as Hl by by rewrite Hp. symmetry. unfold least95. fold s.
  assert (forall q : Z -> bool, zcount q s = zcount q l) as Hz by (intros q; unfold zcount; by rewrite (filter_perm q _ _ Hp)).
  rewrite Hz, Hl in Hge, Hlt. apply head_least; [by apply Sorted_StronglySorted; [apply _|]|done|..].
  - rewrite <-(filter_bool (fun x => x <=? v)) by (intros; apply Z.leb_le). exact Hge.
  - intros u _ Hu. rewrite <-(filter_bool (fun x => x <=? u)) in Hu by (intros; apply Z.leb_le).
    apply Z.nlt_ge. intros Huv.
    enough (zcount (fun x => x <=? u) l <= zcount (fun x => x <? v) l) by (unfold zcount in *; lia).
    unfold zcount. clear -Huv. induction l as [|x l IH]; [done|]. cbn. destruct (Z.leb_spec x u), (Z.ltb_spec x v); cbn; lia.
Qed.

Lemma entry_computed a jobs : Forall (fun j => VerifiedJob_Validate j = Ok tt /\ u64 (FundingTime j) /\ u64 (TerminalTime j)) jobs ->
  Z.of_nat (length jobs) < two64 -> bucketResult a w (bucket_spec w jobs) = entry_spec w a jobs.
Proof.
  intros Hjs Hlen. unfold bucketResult, bucket_spec, entry_spec, sum256_string, count, value, sort_uint64, settlement_times.
  cbn [blAccepted blFunded blReleased blAttributed blRefunded blSettled blGross blUnattributed blUnresolved blBuyers blNamed
       blProviders blDurations].
  rewrite !(names_distinct _ _ _ jobs active_seen), !(names_distinct _ _ _ jobs (paid_attributed AttributionAttributed)).
  rewrite !(filter_bool _ _ jobs paid_released), !(filter_bool _ _ jobs refunded_refunded), !(filter_bool _ _ jobs ended_terminal),
    !(filter_bool _ _ jobs (paid_attributed _)), !(filter_bool _ _ jobs (fun j => during_contains (AcceptanceTime j))),
    !(filter_bool _ _ jobs (fun j => during_contains (FundingTime j))).
  change (Z.of_nat (length (filter (paid w) jobs))) with (number (paid w) jobs).
  change (Z.of_nat (length (filter (refunded w) jobs))) with (number (refunded w) jobs).
  pose proof (number_ended jobs) as He.
  assert (number (ended w) jobs <= Z.of_nat (length jobs)) as Hb.
  { unfold number. pose proof (length_filter (ended w) jobs). lia. }
  assert (0 <= number (paid w) jobs /\ 0 <= number (refunded w) jobs) as [H1 H2] by (unfold number; lia).
  rewrite !(share_rate _ _ (number (ended w) jobs)) by lia. rewrite middle_median, least95_p95; [done|].
  apply Forall_fmap, Forall_forall. intros j [Hend Hj]%list_elem_of_filter. cbn.
  rewrite Forall_forall in Hjs. destruct (Hjs j Hj) as (Hv & [Hf _] & [_ Ht]). apply ended_terminal, andb_true_iff in Hend as [Hend _].
  pose proof (job_valid_terminal j Hv Hend) as [_ Hle]. red. lia.
Qed.
End Figures.

(** The report that the loops compute is the specified one. *)
Lemma computed_report_spec w jobs : Forall job_typed jobs -> Forall (fun j => VerifiedJob_Validate j = Ok tt) jobs ->
  Z.of_nat (length jobs) < two64 -> computed_report w jobs = report_spec w jobs.
Proof.
  intros Ht Hv Hlen. unfold computed_report, report_spec. apply list_fmap_ext. intros i a _. unfold asset_jobs.
  rewrite (filter_bool _ (fun j => Asset j = a)) by (intros; apply bool_decide_eq_true). apply entry_computed.
  - apply Forall_forall. intros j [_ Hj]%list_elem_of_filter. rewrite Forall_forall in Ht, Hv.
    destruct (Ht j Hj) as (_ & ? & ? & _). auto.
  - pose proof (length_filter (fun j => Asset j = a) jobs). lia.
Qed.

(** C24: [AggregateNetwork] refines its specification, which is written from the jobs
    alone.  For jobs whose integer fields are in their types' range it succeeds
    exactly on an ordered window and valid, duplicate-free jobs whose released value
    per asset stays below 2^256, and then returns one entry per distinct asset, in
    key order, with every figure of the entry as specified: the values released, and
    released attributed, unattributed and unresolved, in decimal; the numbers of
    accepted, funded, released, attributed and refunded jobs; the numbers of distinct
    buyers, named providers and attributed providers; the release and refund rates in
    parts per million of the ended jobs; the median settlement time and the least
    time that at least 95 percent of the ended jobs do not exceed. *)
Theorem AggregateNetwork_refines_spec jobs w ms :
  Forall job_typed jobs -> Z.of_nat (length jobs) < two64 ->
  AggregateNetwork jobs w = Ok ms <->
    From w < To w /\ Forall (fun j => VerifiedJob_Validate j = Ok tt) jobs /\ NoDup (JobID <$> jobs) /\
    (forall a, a ∈ Asset <$> jobs -> worth (paid w) (filter (fun j => Asset j = a) jobs) < 2 ^ 256) /\
    ms = report_spec w jobs.
Proof.
  intros Ht Hlen. rewrite AggregateNetwork_iff by done.
  assert (forall a, value (released_in w) (asset_jobs a jobs) = worth (paid w) (filter (fun j => Asset j = a) jobs)) as Hval.
  { intros a. unfold value, worth, asset_jobs.
    rewrite (filter_bool (fun j => bool_decide (Asset j = a)) (fun j => Asset j = a)) by (intros; apply bool_decide_eq_true).
    by rewrite (filter_bool (released_in w) (paid w)) by apply paid_released. }
  setoid_rewrite Hval. split; intros (Hw & Hv & Hn & Hb & ->); (split_and!; [done..|]);
    [|symmetry]; by apply computed_report_spec.
Qed.

(** A job that was never funded (its funding time is zero) is counted as a
    funded job when the window starts at time zero: unlike the terminal time,
    the funding time is tested against the window without a zero check. *)
Theorem unfunded_job_counted_as_funded j w m :
  VerifiedJob_Validate j = Ok tt -> job_typed j -> FundingTime j = 0 -> From w = 0 -> 0 < To w ->
  AggregateNetwork [j] w = Ok [m] -> FundedJobCount m = 1.
Proof.
  intros Hv Ht Hf Hw0 Hw1. rewrite AggregateNetwork_iff by (done || by constructor).
  intros (_ & _ & _ & _ & Hm). unfold computed_report, report_assets in Hm. cbn in Hm.
  injection Hm as ->. unfold bucketResult, asset_jobs; cbn.
  rewrite bool_decide_eq_true_2 by done. unfold count. cbn. rewrite Hf. unfold contains.
  rewrite Hw0. by replace (0 <? To w) with true by lia.
Qed.

(** ** Witnesses *)

Definition hex64_1 : string := "1111111111111111111111111111111111111111111111111111111111111111".
Definition hex64_2 : string := "2222222222222222222222222222222222222222222222222222222222222222".
Definition sample_asset (net : string) : AssetIdentity :=
  {| NetworkID := net; MasterWorkchain := 0; MasterAccountID := hex64_1;
     MasterCodeHash := "tvm-cell-sha256:" +:+ hex64_1; WalletCodeHash := "tvm-cell-sha256:" +:+ hex64_2;
     Decimals := 6 |}.
Definition sample_job (id : string) (net : string) (o : Outcome) (a : Attribution) (amount : string) (terminal : Z) :
  VerifiedJob :=
  {| JobID := "sha256:" +:+ id; Asset := sample_asset net; BuyerWallet := hex64_1;
     ProviderAgentID := "agent_" +:+ hex64_1; CapabilityID := "cap_" +:+ hex64_1; CapabilityVersion := "1.0.0";
     JobOutcome := o; JobAttribution := a; Amount := amount;
     AcceptanceTime := 10; FundingTime := (match o with OutcomeNone => 0 | _ => 20 end); TerminalTime := terminal |}.
Definition sample_jobs : list VerifiedJob :=
  [sample_job hex64_1 "testnet" OutcomeReleased AttributionAttributed "1500000" 40;
   sample_job hex64_2 "mainnet" OutcomeRefunded AttributionNone "7" 25].
Definition sample_window : Window := {| From := 0; To := 100 |}.

Ltac typed_jobs := repeat constructor; cbn; unfold two64, two32; lia.

Lemma asset_key_injective_witness :
  sample_asset "testnet" = sample_asset "testnet".
Proof. apply asset_key_injective; try reflexivity; cbn; unfold two32; lia. Defined.

Lemma AggregateNetwork_refines_spec_witness :
  AggregateNetwork sample_jobs sample_window = Ok (report_spec sample_window sample_jobs).
Proof.
  apply AggregateNetwork_refines_spec; [typed_jobs|reflexivity|].
  split_and!; [reflexivity|repeat constructor| | |reflexivity].
  - apply (bool_decide_unpack _). vm_compute. exact I.
  - intros a Ha. apply list_elem_of_fmap in Ha as (j & -> & Hj).
    repeat (apply elem_of_cons in Hj as [->|Hj]; [vm_compute; reflexivity|]). by apply elem_of_nil in Hj.
Defined.

Lemma AggregateNetwork_order_independent_witness :
  AggregateNetwork (rev sample_jobs) sample_window = AggregateNetwork sample_jobs sample_window.
Proof.
  destruct (AggregateNetwork sample_jobs sample_window) as [ms| |] eqn:H;
    [|vm_compute in H; discriminate H..].
  apply (AggregateNetwork_order_independent sample_jobs); [typed_jobs|reflexivity| |exact H].
  apply Permutation_rev.
Defined.

Lemma AggregateNetwork_total_witness :
  no_panic (AggregateNetwork sample_jobs sample_window).
Proof. apply (AggregateNetwork_total sample_jobs sample_window); [typed_jobs|reflexivity]. Defined.

Lemma rates_partition_witness :
  exists r f, ratePPM 2 (wrap64 (2 + 1)) = Some r /\ ratePPM 1 (wrap64 (2 + 1)) = Some f /\
              0 <= r <= 1000000 /\ 0 <= f <= 1000000 /\ 999999 <= r + f <= 1000000.
Proof. apply (rates_partition 2 1); unfold two64; lia. Defined.

Lemma median_correct_witness : exists low high,
  [3; 8; 9; 20] !! 1%nat = Some low /\ [3; 8; 9; 20] !! 2%nat = Some high /\
  median [3; 8; 9; 20] = Some ((low + high) / 2).
Proof. apply (median_correct [3; 8; 9; 20]); [done|repeat constructor; done]. Defined.

Lemma p95_nearest_rank_witness : exists v, p95 [1; 2; 3] = Some v /\ v ∈ [1; 2; 3] /\
  95 * 3 <= 100 * zcount (fun x => x <=? v) [1; 2; 3] /\ 100 * zcount (fun x => x <? v) [1; 2; 3] < 95 * 3.
Proof. apply (p95_nearest_rank [1; 2; 3]); [done|repeat constructor; lia]. Defined.

Lemma unfunded_job_counted_as_funded_witness :
  exists m, AggregateNetwork [sample_job hex64_1 "testnet" OutcomeNone AttributionNone "" 0] sample_window = Ok [m] /\
            FundedJobCount m = 1.
Proof.
  destruct (AggregateNetwork [sample_job hex64_1 "testnet" OutcomeNone AttributionNone "" 0] sample_window)
    as [[|m []]| |] eqn:H; try (vm_compute in H; discriminate H).
  exists m. split; [reflexivity|].
  apply (unfunded_job_counted_as_funded (sample_job hex64_1 "testnet" OutcomeNone AttributionNone "" 0) sample_window);
    [reflexivity|typed_jobs|reflexivity|reflexivity|reflexivity|exact H].
Defined.
