(* ===== verification/ChainLib.v ===== *)
(** * Interfaces to the libraries the protocol is written against

    The repository imports [tosutils-go] (TOS addresses, TVM cells), which is
    not part of it.  What the code uses of it is stated here as type classes:
    the operations it calls, and the documented behaviour it relies on.  The
    components are proved against these classes. *)

From S2P Require Import Prelude.

(** ** tosutils-go/address

    [ParseRawAddr] returns no address exactly when the library returns an error
    or a nil address. *)
Class AddressLib := {
  Address : Type;
  ParseRawAddr : string -> option Address;
  addr_is_std : Address -> bool;
  addr_BitsLen : Address -> Z;
  addr_Workchain : Address -> Z;
  addr_Data : Address -> string;
  addr_StringRaw : Address -> string }.

(** A concrete library, which shows that the interface and the hypotheses on it can be met:
    an address of workchain 0 is named by its decimal account number. *)
Definition sampleAddressLib : AddressLib := {|
  Address := N;
  ParseRawAddr s := if canonical_decimal s then digits_value s else None;
  addr_is_std _ := true;
  addr_BitsLen _ := 256;
  addr_Workchain _ := 0;
  addr_Data a := zero_bytes 31 +:+ String (ascii_of_N a) EmptyString;
  addr_StringRaw := FormatN |}.

(** Distinct 32-byte hashes. *)
Definition sample_hash (n : N) : string := repeat_byte (ascii_of_N n) 32.
