(* ===== verification/PredictionTypes.v ===== *)
(** * Prediction market: shared types (src/pkg/predictionmarket/types.go, order.go)

    Enumerations are Go's unsigned bytes with named constants, as in the source,
    because the decoders convert arbitrary bytes into them; [Hash32] is a byte
    string (its length 32 is a typing hypothesis where it matters). *)

From S2P Require Import Prelude ChainLib.

Definition SchemaVersion : Z := 1.
Definition ContractCodeVersion : Z := 1.
Definition PriceScale : Z := 10000.
Definition MaxEvidenceEntries : Z := 32.
Definition MaxSourceIDBytes : Z := 120.
Definition MaxArchiveLocatorBytes : Z := 96.
Definition MaxParserProfileBytes : Z := 96.

Definition Hash32 := string.
Definition zeroHash : Hash32 := zero_bytes 32.
Definition IsZero (h : Hash32) : bool := bool_decide (h = zeroHash).

Definition ActionBuy : Z := 0.
Definition ActionSell : Z := 1.
Definition Action_valid (v : Z) : bool := (v =? ActionBuy) || (v =? ActionSell).

Definition OutcomeYes : Z := 0.
Definition OutcomeNo : Z := 1.
Definition OutcomeInvalid : Z := 2.
Definition Outcome_valid (v : Z) : bool := v <=? OutcomeInvalid.

Definition RoleMaker : Z := 0.
Definition RoleTaker : Z := 1.
Definition LiquidityRole_valid (v : Z) : bool := (v =? RoleMaker) || (v =? RoleTaker).

Definition RoundNormal : Z := 0.
Definition RoundAppeal : Z := 1.
Definition Round_valid (v : Z) : bool := (v =? RoundNormal) || (v =? RoundAppeal).

Definition ReviewNormalTimeout : Z := 0.
Definition ReviewChallenge : Z := 1.
Definition ReviewReason_valid (v : Z) : bool := (v =? ReviewNormalTimeout) || (v =? ReviewChallenge).

Definition SourceHTTPS : Z := 1.
Definition SourceSignedDocument : Z := 2.
Definition SourceTOSFinalized : Z := 3.
Definition SourceKind_valid (v : Z) : bool :=
  (v =? SourceHTTPS) || (v =? SourceSignedDocument) || (v =? SourceTOSFinalized).

(** Printable non-blank ASCII only. *)
Definition canonicalASCII (value : string) : bool :=
  all_bytes (fun c => negb ((byte_val c <? 0x21) || (0x7e <? byte_val c))) value.

Record PredictionOrderV1 := {
  GlobalID : Z;
  WorkchainID : Z;
  MarketAddress : string;
  MarketConfigHash : Hash32;
  OwnerAddress : string;
  KeyEpoch : Z;
  Nonce : Z;
  Salt : Hash32;
  Action : Z;
  Outcome : Z;
  LiquidityRole : Z;
  QuantityLots : Z;
  MinFillLots : Z;
  AllowPartial : bool;
  LimitPriceTick : Z;
  ValidAfter : Z;
  ValidUntil : Z;
  OptionalCounterparty : option string }.

Section Orders.
Context `{AL : AddressLib}.

Definition parseCanonicalAddress (value : string) : result string Address :=
  parsed ← opt_err (ParseRawAddr value) "address must be a canonical raw standard TOS address";
  fail_if (negb (addr_is_std parsed) || negb (addr_BitsLen parsed =? 256) ||
           negb (bool_decide (addr_StringRaw parsed = value)))
    "address must be a canonical raw standard TOS address";;
  fail_if (negb (addr_Workchain parsed =? -1) && negb (addr_Workchain parsed =? 0))
    "unsupported prediction-market workchain";;
  Ok parsed.

(** [int8(x)] *)
Definition int8 (z : Z) : Z := (z + 128) mod 256 - 128.

Definition validateOrder (value : PredictionOrderV1) : result string (Address * Address * option Address) :=
  market ← or_err (parseCanonicalAddress (MarketAddress value))
    "order market address does not match its workchain domain";
  fail_if (negb (int8 (addr_Workchain market) =? WorkchainID value))
    "order market address does not match its workchain domain";;
  owner ← or_err (parseCanonicalAddress (OwnerAddress value)) "invalid order owner address";
  fail_if (negb (WorkchainID value =? -1) && negb (WorkchainID value =? 0)) "unsupported order workchain";;
  fail_if (IsZero (MarketConfigHash value) || IsZero (Salt value)) "order hashes and salt must be non-zero";;
  fail_if (negb (Action_valid (Action value)) ||
           (negb (Outcome value =? OutcomeYes) && negb (Outcome value =? OutcomeNo)) ||
           negb (LiquidityRole_valid (LiquidityRole value)))
    "invalid order enum";;
  fail_if ((QuantityLots value =? 0) || (MinFillLots value =? 0) || (QuantityLots value <? MinFillLots value))
    "invalid order quantity or minimum fill";;
  fail_if ((LimitPriceTick value =? 0) || (PriceScale <=? LimitPriceTick value))
    "order price must be strictly inside the payout interval";;
  fail_if ((ValidUntil value =? 0) || (ValidUntil value <=? ValidAfter value))
    "order validity interval must be non-empty";;
  counterparty ←
    match OptionalCounterparty value with
    | None => Ok None
    | Some c => a ← or_err (parseCanonicalAddress c) "invalid order counterparty address"; Ok (Some a)
    end;
  Ok (market, owner, counterparty).

(** What a successful validation says about the order's own fields. *)
Lemma validateOrder_fields o r :
  validateOrder o = Ok r ->
  (Action o = ActionBuy \/ Action o = ActionSell) /\ (Outcome o = OutcomeYes \/ Outcome o = OutcomeNo) /\
  (LiquidityRole o = RoleMaker \/ LiquidityRole o = RoleTaker) /\
  QuantityLots o <> 0 /\ MinFillLots o <> 0 /\ MinFillLots o <= QuantityLots o /\
  LimitPriceTick o <> 0 /\ LimitPriceTick o < PriceScale /\
  ValidUntil o <> 0 /\ ValidAfter o < ValidUntil o.
Proof.
  unfold validateOrder. intros H. inv_ok.
  repeat match goal with H : (_ || _ || _) = false |- _ => apply orb_false_iff in H as [H ?] end.
  repeat match goal with H : (_ || _) = false |- _ => apply orb_false_iff in H as [H ?] end.
  unfold Action_valid, LiquidityRole_valid in *. lia.
Qed.
End Orders.
