(* ===== verification/Market.v ===== *)
(** * Prediction market: the bounded-arithmetic reference model
      (src/pkg/predictionmarket/model.go)

    The collateral ledger of one market: deposits, complete-set split and merge,
    order matching, finalization and claims.  The mutable [*ReferenceModel] is
    passed explicitly: an operation returns the new model, and an operation that
    fails leaves the caller's model as it was (the source works on a clone and
    assigns it last).  [uint64] fields are integers in [0, 2^64) and every
    addition and multiplication goes through [add64] and [mul64]. *)

From S2P Require Import Prelude ChainLib PredictionTypes.

Record AccountBalance := { Free : Z; YesLots : Z; NoLots : Z }.

Definition zeroAccount : AccountBalance := {| Free := 0; YesLots := 0; NoLots := 0 |}.

Record ReferenceModel := {
  LotPayout : Z;
  CompleteSets : Z;
  LockedCollateral : Z;
  Finalized : bool;
  FinalOutcome : Z;
  FinalBacking : Z;
  RemainingPayoutLiability : Z;
  CumulativeClaimedPayout : Z;
  Accounts : gmap string AccountBalance }.

Record MatchAmounts := { YesValue : Z; NoValue : Z; Notional : Z; YesPrice : Z }.

(** [bits.Add64] and [bits.Mul64] with their overflow reports. *)
Definition add64 (left right : Z) : Z * bool := (wrap64 (left + right), left + right <? two64).
Definition mul64 (left right : Z) : Z * bool := (wrap64 (left * right), left * right <? two64).

(** A read of a missing map key gives the zero value. *)
Definition account_of (model : ReferenceModel) (owner : string) : AccountBalance :=
  default zeroAccount (Accounts model !! owner).

Definition set_account (model : ReferenceModel) (owner : string) (a : AccountBalance) : ReferenceModel :=
  {| LotPayout := LotPayout model; CompleteSets := CompleteSets model;
     LockedCollateral := LockedCollateral model; Finalized := Finalized model;
     FinalOutcome := FinalOutcome model; FinalBacking := FinalBacking model;
     RemainingPayoutLiability := RemainingPayoutLiability model;
     CumulativeClaimedPayout := CumulativeClaimedPayout model;
     Accounts := <[owner := a]> (Accounts model) |}.

Definition set_sets (model : ReferenceModel) (sets locked : Z) : ReferenceModel :=
  {| LotPayout := LotPayout model; CompleteSets := sets;
     LockedCollateral := locked; Finalized := Finalized model;
     FinalOutcome := FinalOutcome model; FinalBacking := FinalBacking model;
     RemainingPayoutLiability := RemainingPayoutLiability model;
     CumulativeClaimedPayout := CumulativeClaimedPayout model;
     Accounts := Accounts model |}.

Definition NewReferenceModel (lotPayout : Z) : result string ReferenceModel :=
  fail_if ((lotPayout =? 0) || negb (lotPayout mod PriceScale =? 0))
    "lot payout must be non-zero and divisible by the price scale";;
  Ok {| LotPayout := lotPayout; CompleteSets := 0; LockedCollateral := 0; Finalized := false;
        FinalOutcome := 0; FinalBacking := 0; RemainingPayoutLiability := 0;
        CumulativeClaimedPayout := 0; Accounts := ∅ |}.

(** ** Self-checks

    Both loops range over a Go map, whose iteration order is unspecified: the
    order is the list argument, and any permutation of the map's values is a
    possible one. *)

Definition positionTotals (order : list AccountBalance) : result string (Z * Z) :=
  foldM (fun '(yesTotal, noTotal) account =>
    let '(yes, ok) := add64 yesTotal (YesLots account) in
    fail_if (negb ok) "aggregate YES overflow";;
    let '(no, ok) := add64 noTotal (NoLots account) in
    fail_if (negb ok) "aggregate NO overflow";;
    Ok (yes, no)) (0, 0) order.

Definition CheckInvariants_in (order : list AccountBalance) (model : ReferenceModel) : result string unit :=
  if Finalized model then
    let '(total, ok) := add64 (RemainingPayoutLiability model) (CumulativeClaimedPayout model) in
    fail_if (negb ok || negb (total =? FinalBacking model) || negb (LockedCollateral model =? 0))
      "final payout-liability conservation violated"
  else
    '(yesTotal, noTotal) ← positionTotals order;
    fail_if (negb (yesTotal =? CompleteSets model) || negb (noTotal =? CompleteSets model))
      "conditional-position conservation violated";;
    let '(expected, ok) := mul64 (CompleteSets model) (LotPayout model) in
    fail_if (negb ok || negb (expected =? LockedCollateral model))
      "locked collateral does not back every complete set".

Definition map_order (model : ReferenceModel) : list AccountBalance := (map_to_list (Accounts model)).*2.
Definition CheckInvariants (model : ReferenceModel) : result string unit :=
  CheckInvariants_in (map_order model) model.

Definition TotalBacking_in (order : list AccountBalance) (model : ReferenceModel) : result string Z :=
  foldM (fun total account =>
    let '(next, ok) := add64 total (Free account) in
    fail_if (negb ok) "total backing overflow";; Ok next)
    (if Finalized model then RemainingPayoutLiability model else LockedCollateral model) order.
Definition TotalBacking (model : ReferenceModel) : result string Z :=
  TotalBacking_in (map_order model) model.

(** ** Order fills *)

Section Operations.
Context `{AL : AddressLib}.

Definition ValidateOrderFill (order : PredictionOrderV1)
    (alreadyFilled quantity marketMinimum now tradeClose : Z) : result string unit :=
  validateOrder order;;
  fail_if ((quantity =? 0) || (QuantityLots order <? alreadyFilled) ||
           (QuantityLots order - alreadyFilled <? quantity))
    "fill exceeds order remaining quantity";;
  fail_if ((now <? ValidAfter order) || (ValidUntil order <=? now) || (tradeClose <? ValidUntil order))
    "order is outside its half-open validity interval";;
  let remaining := QuantityLots order - alreadyFilled in
  if negb (AllowPartial order) then
    fail_if (negb (quantity =? remaining)) "all-or-nothing order requires a full remaining fill"
  else
    let minimum := if marketMinimum <? MinFillLots order then MinFillLots order else marketMinimum in
    fail_if (negb (quantity =? remaining) && ((quantity <? minimum) || (remaining - quantity <? minimum)))
      "partial fill would violate the effective minimum or leave dust".

Definition orderAcceptsPrice (order : PredictionOrderV1) (yesPrice noPrice : Z) : bool :=
  let price := if Outcome order =? OutcomeNo then noPrice else yesPrice in
  if Action order =? ActionBuy then price <=? LimitPriceTick order else LimitPriceTick order <=? price.

(** ** Ledger operations *)

Definition Deposit (model : ReferenceModel) (owner : string) (amount : Z) : result string ReferenceModel :=
  or_err (parseCanonicalAddress owner) "invalid model deposit";;
  fail_if ((amount =? 0) || Finalized model) "invalid model deposit";;
  let account := account_of model owner in
  let '(next, ok) := add64 (Free account) amount in
  fail_if (negb ok) "free-balance overflow";;
  let nextModel := set_account model owner
    {| Free := next; YesLots := YesLots account; NoLots := NoLots account |} in
  CheckInvariants nextModel;;
  Ok nextModel.

Definition Split (model : ReferenceModel) (owner : string) (quantity : Z) : result string ReferenceModel :=
  fail_if (Finalized model || (quantity =? 0)) "split quantity must be non-zero";;
  let '(debit, ok) := mul64 quantity (LotPayout model) in
  let account := account_of model owner in
  fail_if (negb ok || (Free account <? debit)) "insufficient split collateral";;
  let '(yes, yesOK) := add64 (YesLots account) quantity in
  let '(no, noOK) := add64 (NoLots account) quantity in
  let '(sets, setsOK) := add64 (CompleteSets model) quantity in
  let '(locked, lockedOK) := add64 (LockedCollateral model) debit in
  fail_if (negb yesOK || negb noOK || negb setsOK || negb lockedOK) "split arithmetic overflow";;
  let nextModel := set_sets (set_account model owner
    {| Free := wrap64 (Free account - debit); YesLots := yes; NoLots := no |}) sets locked in
  CheckInvariants nextModel;;
  Ok nextModel.

Definition Merge (model : ReferenceModel) (owner : string) (quantity : Z) : result string ReferenceModel :=
  fail_if (Finalized model || (quantity =? 0)) "merge quantity must be non-zero";;
  let account := account_of model owner in
  let '(credit, ok) := mul64 quantity (LotPayout model) in
  let '(free, freeOK) := add64 (Free account) credit in
  fail_if (negb ok || negb freeOK || (YesLots account <? quantity) || (NoLots account <? quantity) ||
           (CompleteSets model <? quantity) || (LockedCollateral model <? credit))
    "insufficient merge position or arithmetic overflow";;
  let nextModel := set_sets (set_account model owner
    {| Free := free; YesLots := wrap64 (YesLots account - quantity); NoLots := wrap64 (NoLots account - quantity) |})
    (wrap64 (CompleteSets model - quantity)) (wrap64 (LockedCollateral model - credit)) in
  CheckInvariants nextModel;;
  Ok nextModel.

(** One iteration of [applyMint]'s loop over the two orders. *)
Definition mintOrder (quantity : Z) (amounts : MatchAmounts) (model : ReferenceModel) (order : PredictionOrderV1)
    : result string ReferenceModel :=
  let account := account_of model (OwnerAddress order) in
  let debit := if Outcome order =? OutcomeNo then NoValue amounts else YesValue amounts in
  fail_if (Free account <? debit) "buyer has insufficient free collateral";;
  let free := wrap64 (Free account - debit) in
  account' ←
    (if Outcome order =? OutcomeYes then
       let '(yes, ok) := add64 (YesLots account) quantity in
       fail_if (negb ok) "YES position overflow";;
       Ok {| Free := free; YesLots := yes; NoLots := NoLots account |}
     else
       let '(no, ok) := add64 (NoLots account) quantity in
       fail_if (negb ok) "NO position overflow";;
       Ok {| Free := free; YesLots := YesLots account; NoLots := no |});
  Ok (set_account model (OwnerAddress order) account').

Definition applyMint (model : ReferenceModel) (maker taker : PredictionOrderV1) (quantity : Z)
    (amounts : MatchAmounts) : result string ReferenceModel :=
  model' ← foldM (mintOrder quantity amounts) model [maker; taker];
  let '(sets, setsOK) := add64 (CompleteSets model') quantity in
  let '(locked, lockedOK) := add64 (LockedCollateral model') (Notional amounts) in
  fail_if (negb setsOK || negb lockedOK) "mint backing overflow";;
  Ok (set_sets model' sets locked).

Definition applyTransfer (model : ReferenceModel) (maker taker : PredictionOrderV1) (quantity : Z)
    (amounts : MatchAmounts) : result string ReferenceModel :=
  let '(buyer, seller) := if Action maker =? ActionBuy then (maker, taker) else (taker, maker) in
  let value := if Outcome buyer =? OutcomeNo then NoValue amounts else YesValue amounts in
  let buyAccount := account_of model (OwnerAddress buyer) in
  let sellAccount := account_of model (OwnerAddress seller) in
  fail_if (Free buyAccount <? value) "buyer has insufficient free balance";;
  let '(sellerFree, ok) := add64 (Free sellAccount) value in
  fail_if (negb ok) "seller free-balance overflow";;
  let buyFree := wrap64 (Free buyAccount - value) in
  '(buy', sell', ok) ←
    (if Outcome buyer =? OutcomeYes then
       fail_if (YesLots sellAccount <? quantity) "seller has insufficient YES position";;
       let '(yes, ok) := add64 (YesLots buyAccount) quantity in
       Ok ({| Free := buyFree; YesLots := yes; NoLots := NoLots buyAccount |},
           {| Free := sellerFree; YesLots := wrap64 (YesLots sellAccount - quantity); NoLots := NoLots sellAccount |}, ok)
     else
       fail_if (NoLots sellAccount <? quantity) "seller has insufficient NO position";;
       let '(no, ok) := add64 (NoLots buyAccount) quantity in
       Ok ({| Free := buyFree; YesLots := YesLots buyAccount; NoLots := no |},
           {| Free := sellerFree; YesLots := YesLots sellAccount; NoLots := wrap64 (NoLots sellAccount - quantity) |}, ok));
  fail_if (negb ok) "buyer position overflow";;
  Ok (set_account (set_account model (OwnerAddress buyer) buy') (OwnerAddress seller) sell').

(** One iteration of [applyMergeMatch]'s loop. *)
Definition mergeOrder (quantity : Z) (amounts : MatchAmounts) (model : ReferenceModel) (order : PredictionOrderV1)
    : result string ReferenceModel :=
  let account := account_of model (OwnerAddress order) in
  let credit := if Outcome order =? OutcomeNo then NoValue amounts else YesValue amounts in
  let '(free, ok) := add64 (Free account) credit in
  fail_if (negb ok) "seller free-balance overflow";;
  account' ←
    (if Outcome order =? OutcomeYes then
       fail_if (YesLots account <? quantity) "seller has insufficient YES position";;
       Ok {| Free := free; YesLots := wrap64 (YesLots account - quantity); NoLots := NoLots account |}
     else
       fail_if (NoLots account <? quantity) "seller has insufficient NO position";;
       Ok {| Free := free; YesLots := YesLots account; NoLots := wrap64 (NoLots account - quantity) |});
  Ok (set_account model (OwnerAddress order) account').

Definition applyMergeMatch (model : ReferenceModel) (maker taker : PredictionOrderV1) (quantity : Z)
    (amounts : MatchAmounts) : result string ReferenceModel :=
  model' ← foldM (mergeOrder quantity amounts) model [maker; taker];
  fail_if ((CompleteSets model' <? quantity) || (LockedCollateral model' <? Notional amounts))
    "merge match exceeds complete-set backing";;
  Ok (set_sets model' (wrap64 (CompleteSets model' - quantity)) (wrap64 (LockedCollateral model' - Notional amounts))).

(** Which of the two orders is the maker. *)
Definition matchRoles (left right : PredictionOrderV1) : result string (PredictionOrderV1 * PredictionOrderV1) :=
  if (LiquidityRole left =? RoleMaker) && (LiquidityRole right =? RoleTaker) then Ok (left, right)
  else if (LiquidityRole right =? RoleMaker) && (LiquidityRole left =? RoleTaker) then Ok (right, left)
  else Err "match requires exactly one maker and one taker"%string.

(** The execution price and the amounts exchanged, from the maker's price. *)
Definition matchAmounts (model : ReferenceModel) (maker taker : PredictionOrderV1) (quantity : Z)
    : result string MatchAmounts :=
  let yesPrice := if Outcome maker =? OutcomeNo then (PriceScale - LimitPriceTick maker) mod two16
                  else LimitPriceTick maker in
  fail_if ((yesPrice =? 0) || (PriceScale <=? yesPrice)) "maker price is outside the open payout interval";;
  let noPrice := PriceScale - yesPrice in
  fail_if (negb (orderAcceptsPrice taker yesPrice noPrice)) "maker execution price violates the taker limit";;
  let unit := LotPayout model / PriceScale in
  let '(base, ok) := mul64 quantity unit in
  let '(yesValue, yesOK) := mul64 base yesPrice in
  let '(notional, notionalOK) := mul64 quantity (LotPayout model) in
  fail_if (negb ok || negb yesOK || negb notionalOK || (notional <? yesValue)) "match value overflow";;
  Ok {| YesValue := yesValue; NoValue := wrap64 (notional - yesValue); Notional := notional; YesPrice := yesPrice |}.

Definition applyMatch (model : ReferenceModel) (maker taker : PredictionOrderV1) (quantity : Z)
    (amounts : MatchAmounts) : result string ReferenceModel :=
  if (Action maker =? ActionBuy) && (Action taker =? ActionBuy) && negb (Outcome maker =? Outcome taker) then
    applyMint model maker taker quantity amounts
  else if negb (Action maker =? Action taker) && (Outcome maker =? Outcome taker) then
    applyTransfer model maker taker quantity amounts
  else if (Action maker =? ActionSell) && (Action taker =? ActionSell) && negb (Outcome maker =? Outcome taker) then
    applyMergeMatch model maker taker quantity amounts
  else Err "order pair has no collateral-conserving match semantics"%string.

Definition Match (model : ReferenceModel) (left right : PredictionOrderV1) (quantity : Z)
    : result string (ReferenceModel * MatchAmounts) :=
  fail_if (Finalized model || (quantity =? 0) || bool_decide (OwnerAddress left = OwnerAddress right))
    "match must be non-zero and cannot self-trade";;
  '(maker, taker) ← matchRoles left right;
  validateOrder maker;;
  validateOrder taker;;
  fail_if (negb (GlobalID maker =? GlobalID taker) || negb (WorkchainID maker =? WorkchainID taker) ||
           negb (bool_decide (MarketAddress maker = MarketAddress taker)) ||
           negb (bool_decide (MarketConfigHash maker = MarketConfigHash taker)))
    "orders belong to different market domains";;
  fail_if (match OptionalCounterparty maker with Some c => negb (bool_decide (c = OwnerAddress taker)) | None => false end ||
           match OptionalCounterparty taker with Some c => negb (bool_decide (c = OwnerAddress maker)) | None => false end)
    "order counterparty restriction does not match";;
  amounts ← matchAmounts model maker taker quantity;
  before ← TotalBacking model;
  next ← applyMatch model maker taker quantity amounts;
  after ← or_err (TotalBacking next) "match violated total backing conservation";
  fail_if (negb (before =? after)) "match violated total backing conservation";;
  CheckInvariants next;;
  Ok (next, amounts).

Definition Finalize (model : ReferenceModel) (finalOutcome : Z) : result string ReferenceModel :=
  fail_if (Finalized model || negb (Outcome_valid finalOutcome) ||
           ((finalOutcome =? OutcomeInvalid) && negb (LotPayout model mod 2 =? 0)))
    "invalid or repeated finalization";;
  CheckInvariants model;;
  let next :=
    {| LotPayout := LotPayout model; CompleteSets := CompleteSets model;
       LockedCollateral := 0; Finalized := true; FinalOutcome := finalOutcome;
       FinalBacking := LockedCollateral model; RemainingPayoutLiability := LockedCollateral model;
       CumulativeClaimedPayout := CumulativeClaimedPayout model; Accounts := Accounts model |} in
  CheckInvariants next;;
  Ok next.

Definition Claim (model : ReferenceModel) (owner : string) : result string (ReferenceModel * Z) :=
  fail_if (negb (Finalized model)) "market is not finalized";;
  account ← opt_err (Accounts model !! owner) "unknown claim account";
  '(lots, unit) ←
    (if FinalOutcome model =? OutcomeYes then Ok (YesLots account, LotPayout model)
     else if FinalOutcome model =? OutcomeNo then Ok (NoLots account, LotPayout model)
     else if FinalOutcome model =? OutcomeInvalid then
       let '(lots, addOK) := add64 (YesLots account) (NoLots account) in
       fail_if (negb addOK) "position overflow during invalid payout";;
       Ok (lots, LotPayout model / 2)
     else Ok (0, 0));
  let '(payout, payoutOK) := mul64 lots unit in
  let '(free, freeOK) := add64 (Free account) payout in
  let '(claimed, claimedOK) := add64 (CumulativeClaimedPayout model) payout in
  fail_if (negb payoutOK || negb freeOK || negb claimedOK || (RemainingPayoutLiability model <? payout))
    "claim arithmetic or solvency failure";;
  let next :=
    {| LotPayout := LotPayout model; CompleteSets := CompleteSets model;
       LockedCollateral := LockedCollateral model; Finalized := Finalized model;
       FinalOutcome := FinalOutcome model; FinalBacking := FinalBacking model;
       RemainingPayoutLiability := wrap64 (RemainingPayoutLiability model - payout);
       CumulativeClaimedPayout := claimed;
       Accounts := <[owner := {| Free := free; YesLots := 0; NoLots := 0 |}]> (Accounts model) |} in
  CheckInvariants next;;
  Ok (next, payout).
End Operations.

(** ** Sums over the accounts *)

Abbreviation acct_sum := (map_sum (A := AccountBalance)).

(** A missing account counts as the zero account. *)
Lemma acct_sum_insert (f : AccountBalance -> Z) k a m :
  f zeroAccount = 0 ->
  acct_sum f (<[k := a]> m) = acct_sum f m - f (default zeroAccount (m !! k)) + f a.
Proof.
  intros Hz. destruct (m !! k) as [b|] eqn:Hk; cbn.
  - by rewrite (map_sum_insert f k a b m Hk).
  - rewrite map_sum_insert_new by done. lia.
Qed.

(** ** The self-checks as arithmetic facts *)

Definition acct_typed (a : AccountBalance) : Prop := u64 (Free a) /\ u64 (YesLots a) /\ u64 (NoLots a).

Lemma add64_Ok x y : 0 <= x -> 0 <= y -> x + y < two64 -> add64 x y = (x + y, true).
Proof. intros. unfold add64. rewrite wrap64_small by (red; lia). f_equal. lia. Qed.

Lemma mul64_Ok x y : 0 <= x -> 0 <= y -> x * y < two64 -> mul64 x y = (x * y, true).
Proof. intros. unfold mul64. rewrite wrap64_small by (red; nia). f_equal. lia. Qed.

Lemma positionTotals_sums l :
  Forall acct_typed l ->
  zsum (YesLots <$> l) < two64 -> zsum (NoLots <$> l) < two64 ->
  positionTotals l = Ok (zsum (YesLots <$> l), zsum (NoLots <$> l)).
Proof.
  intros Hl. unfold positionTotals.
  assert (forall y n, 0 <= y -> 0 <= n ->
    y + zsum (YesLots <$> l) < two64 -> n + zsum (NoLots <$> l) < two64 ->
    foldM (fun '(yesTotal, noTotal) account =>
      let '(yes, ok) := add64 yesTotal (YesLots account) in
      fail_if (negb ok) "aggregate YES overflow"%string;;
      let '(no, ok) := add64 noTotal (NoLots account) in
      fail_if (negb ok) "aggregate NO overflow"%string;;
      Ok (yes, no)) (y, n) l = Ok (y + zsum (YesLots <$> l), n + zsum (NoLots <$> l))) as Haux.
  { induction Hl as [|a l (_ & [Hy _] & [Hn _]) Hl IH]; intros y n Hy0 Hn0; cbn [fmap list_fmap foldM].
    - intros _ _. cbn. by rewrite !Z.add_0_r.
    - rewrite !zsum_cons. intros Hys Hns.
      assert (0 <= zsum (YesLots <$> l)).
      { apply zsum_nonneg, Forall_fmap. eapply Forall_impl; [exact Hl|]. by intros b (_ & [? _] & _). }
      assert (0 <= zsum (NoLots <$> l)).
      { apply zsum_nonneg, Forall_fmap. eapply Forall_impl; [exact Hl|]. by intros b (_ & _ & [? _]). }
      rewrite !add64_Ok by lia. cbn [negb fail_if mbind result_bind].
      rewrite IH by lia. do 2 f_equal; lia. }
  intros Hys Hns. rewrite (Haux 0 0) by lia. done.
Qed.

Lemma positionTotals_inv l y n :
  Forall acct_typed l -> positionTotals l = Ok (y, n) ->
  y = zsum (YesLots <$> l) /\ n = zsum (NoLots <$> l).
Proof.
  intros Hl. unfold positionTotals. revert y n.
  induction l as [|a l IH] using rev_ind; intros y n; [by intros [= <- <-]|].
  apply Forall_app in Hl as [Hl (_ & [Hya _] & [Hna _])%Forall_singleton].
  rewrite foldM_app, !fmap_app, !zsum_app. intros ([y0 n0] & H1 & H2)%bind_Ok.
  apply IH in H1 as [-> ->]; [|done].
  assert (0 <= zsum (YesLots <$> l)).
  { apply zsum_nonneg, Forall_fmap. eapply Forall_impl; [exact Hl|]. by intros b (_ & [? _] & _). }
  assert (0 <= zsum (NoLots <$> l)).
  { apply zsum_nonneg, Forall_fmap. eapply Forall_impl; [exact Hl|]. by intros b (_ & _ & [? _]). }
  cbn [foldM] in H2. unfold add64 in H2. inv_ok.
  repeat match goal with H : negb _ = false |- _ => apply negb_false_iff, Z.ltb_lt in H end.
  rewrite !wrap64_small by (red; lia). cbn. lia.
Qed.

(** ** The market invariant *)

Definition accts_typed (m : ReferenceModel) : Prop := forall k a, Accounts m !! k = Some a -> acct_typed a.

(** What a finalized market still owes to an account. *)
Definition owed (m : ReferenceModel) (a : AccountBalance) : Z :=
  if FinalOutcome m =? OutcomeYes then YesLots a * LotPayout m
  else if FinalOutcome m =? OutcomeNo then NoLots a * LotPayout m
  else if FinalOutcome m =? OutcomeInvalid then (YesLots a + NoLots a) * (LotPayout m / 2)
  else 0.

Record model_inv (m : ReferenceModel) : Prop := {
  mi_payout : 0 < LotPayout m < two64 /\ LotPayout m mod PriceScale = 0;
  mi_accts : accts_typed m;
  mi_sets : 0 <= CompleteSets m /\ CompleteSets m * LotPayout m < two64;
  mi_open : Finalized m = false ->
    acct_sum YesLots (Accounts m) = CompleteSets m /\ acct_sum NoLots (Accounts m) = CompleteSets m /\
    LockedCollateral m = CompleteSets m * LotPayout m /\ CumulativeClaimedPayout m = 0;
  mi_final : Finalized m = true ->
    0 <= FinalOutcome m <= OutcomeInvalid /\ LockedCollateral m = 0 /\
    FinalBacking m = CompleteSets m * LotPayout m /\ 0 <= CumulativeClaimedPayout m /\
    RemainingPayoutLiability m = acct_sum (owed m) (Accounts m) /\
    RemainingPayoutLiability m + CumulativeClaimedPayout m = FinalBacking m }.

(** The collateral the market holds: free balances plus what backs positions. *)
Definition total_backing (m : ReferenceModel) : Z :=
  (if Finalized m then RemainingPayoutLiability m else LockedCollateral m) + acct_sum Free (Accounts m).

Lemma map_order_typed m : accts_typed m -> Forall acct_typed (map_order m).
Proof.
  intros H. apply Forall_forall. intros a ([k b] & -> & Hin%elem_of_map_to_list)%list_elem_of_fmap.
  by eapply H.
Qed.

Lemma account_of_typed m o : accts_typed m -> acct_typed (account_of m o).
Proof.
  intros H. unfold account_of. destruct (Accounts m !! o) eqn:E; cbn; [by eapply H|].
  repeat split; cbn; lia.
Qed.

Lemma set_account_typed m o a : accts_typed m -> acct_typed a -> accts_typed (set_account m o a).
Proof.
  intros H Ha k b. cbn. rewrite lookup_insert_Some. intros [[<- <-]|[_ Hb]]; [done|]. by eapply H.
Qed.

Lemma sum_set_account f m o a :
  f zeroAccount = 0 ->
  acct_sum f (Accounts (set_account m o a)) = acct_sum f (Accounts m) - f (account_of m o) + f a.
Proof. intros. by apply acct_sum_insert. Qed.

Section CheckOpen.
Context (m : ReferenceModel) (Ht : accts_typed m).

(** On an open market, any iteration order gives the same verdict. *)
Lemma CheckInvariants_in_open l :
  l ≡ₚ map_order m -> Finalized m = false -> 0 <= CompleteSets m < two64 -> 0 <= LotPayout m ->
  CheckInvariants_in l m = Ok tt <->
    acct_sum YesLots (Accounts m) = CompleteSets m /\ acct_sum NoLots (Accounts m) = CompleteSets m /\
    LockedCollateral m = CompleteSets m * LotPayout m /\ CompleteSets m * LotPayout m < two64.
Proof using Ht.
  intros Hl Hf Hs Hp. unfold CheckInvariants_in. rewrite Hf.
  assert (Forall acct_typed l) as Hlt by (rewrite Hl; by apply map_order_typed).
  assert (zsum (YesLots <$> l) = acct_sum YesLots (Accounts m)) as Hy
    by (rewrite map_sum_list; unfold map_order in Hl; by rewrite Hl).
  assert (zsum (NoLots <$> l) = acct_sum NoLots (Accounts m)) as Hn
    by (rewrite map_sum_list; unfold map_order in Hl; by rewrite Hl).
  split.
  - intros ([y n] & H1 & H2)%bind_Ok. apply positionTotals_inv in H1 as [-> ->]; [|done].
    unfold mul64 in H2. inv_ok. 
    assert (CompleteSets m * LotPayout m < two64) by lia.
    rewrite wrap64_small in * by (red; nia). lia.
  - intros (H1 & H2 & H3 & H4). rewrite positionTotals_sums by (done || lia). cbn [mbind result_bind].
    rewrite Hy, Hn, H1, H2, Z.eqb_refl, mul64_Ok by lia. cbn. by rewrite H3, Z.eqb_refl.
Qed.

Lemma TotalBacking_in_iff l t :
  l ≡ₚ map_order m -> 0 <= (if Finalized m then RemainingPayoutLiability m else LockedCollateral m) < two64 ->
  TotalBacking_in l m = Ok t <-> t = total_backing m /\ total_backing m < two64.
Proof using Ht.
  intros Hl Hb. unfold TotalBacking_in, total_backing.
  set (b := if Finalized m then _ else _) in *. clearbody b.
  assert (Forall acct_typed l) as Hlt by (rewrite Hl; by apply map_order_typed).
  replace (acct_sum Free (Accounts m)) with (zsum (Free <$> l))
    by (rewrite map_sum_list; unfold map_order in Hl; by rewrite Hl).
  clear Hl. revert b Hb. induction Hlt as [|a l ([Ha _] & _) Hlt IH]; intros b Hb; cbn [foldM fmap list_fmap].
  - cbn. rewrite Z.add_0_r. naive_solver lia.
  - assert (0 <= zsum (Free <$> l)).
    { apply zsum_nonneg, Forall_fmap. eapply Forall_impl; [exact Hlt|]. by intros ? ([? _] & _). }
    rewrite zsum_cons. unfold add64. destruct (Z.ltb_spec (b + Free a) two64).
    + cbn [negb fail_if mbind result_bind]. rewrite wrap64_small by (red; lia).
      rewrite IH by lia. by rewrite Z.add_assoc.
    + cbn. split; [done|lia].
Qed.
End CheckOpen.

(** How an operation moves the ledger's totals. *)
Record ledger_delta (m m' : ReferenceModel) (dfree dyes dno dsets dlocked : Z) : Prop := {
  ld_payout : LotPayout m' = LotPayout m;
  ld_finalized : Finalized m' = Finalized m;
  ld_claimed : CumulativeClaimedPayout m' = CumulativeClaimedPayout m;
  ld_free : acct_sum Free (Accounts m') = acct_sum Free (Accounts m) + dfree;
  ld_yes : acct_sum YesLots (Accounts m') = acct_sum YesLots (Accounts m) + dyes;
  ld_no : acct_sum NoLots (Accounts m') = acct_sum NoLots (Accounts m) + dno;
  ld_sets : CompleteSets m' = CompleteSets m + dsets;
  ld_locked : LockedCollateral m' = LockedCollateral m + dlocked;
  ld_typed : accts_typed m' }.

Lemma ledger_delta_trans m1 m2 m3 f1 y1 n1 s1 l1 f2 y2 n2 s2 l2 :
  ledger_delta m1 m2 f1 y1 n1 s1 l1 -> ledger_delta m2 m3 f2 y2 n2 s2 l2 ->
  ledger_delta m1 m3 (f1 + f2) (y1 + y2) (n1 + n2) (s1 + s2) (l1 + l2).
Proof. intros [] []. split; first [congruence|lia|done]. Qed.

Lemma ledger_delta_set_account m o a :
  accts_typed m -> acct_typed a ->
  ledger_delta m (set_account m o a) (Free a - Free (account_of m o))
    (YesLots a - YesLots (account_of m o)) (NoLots a - NoLots (account_of m o)) 0 0.
Proof.
  intros Hm Ha. split; cbn; try lia; try done; try (rewrite acct_sum_insert by done; unfold account_of; lia).
  by apply set_account_typed.
Qed.

Lemma ledger_delta_set_sets m s l :
  accts_typed m -> ledger_delta m (set_sets m s l) 0 0 0 (s - CompleteSets m) (l - LockedCollateral m).
Proof. intros Hm. split; cbn; try lia; done. Qed.

Lemma ledger_delta_sets {m m' f y n s l} :
  ledger_delta m m' f y n s l ->
  CompleteSets m' = CompleteSets m + s /\ LockedCollateral m' = LockedCollateral m + l.
Proof. by intros []. Qed.

Lemma account_of_set_ne m o o' a : o <> o' -> account_of (set_account m o a) o' = account_of m o'.
Proof. intros. unfold account_of. cbn. by rewrite lookup_insert_ne. Qed.

Lemma ledger_delta_eq m m' f y n s l f' y' n' s' l' :
  ledger_delta m m' f y n s l -> f = f' -> y = y' -> n = n' -> s = s' -> l = l' ->
  ledger_delta m m' f' y' n' s' l'.
Proof. by intros H -> -> -> -> ->. Qed.

(** Moving whole sets together with their backing keeps an open market sound and
    satisfies its self-check. *)
Lemma open_inv_delta m m' df d :
  model_inv m -> Finalized m = false -> ledger_delta m m' df d d d (d * LotPayout m) ->
  0 <= CompleteSets m + d -> (CompleteSets m + d) * LotPayout m < two64 ->
  CheckInvariants m' = Ok tt /\ model_inv m'.
Proof.
  intros [[Hp Hdiv] Ha [Hs0 Hs1] Ho _] Hf [Dp Df Dc Dfree Dy Dn Ds Dl Dt] Hd0 Hd1.
  destruct (Ho Hf) as (Hy & Hn & Hl & Hc). rewrite Hf in Df. split.
  - apply CheckInvariants_in_open; try done; rewrite ?Dp, ?Ds, ?Dl; [nia|lia|].
    rewrite Dy, Dn, Hl. split_and!; try lia.
  - split; rewrite ?Dp, ?Ds; [done|done|lia| |congruence].
    intros _. rewrite Dy, Dn, Dl, Dc, Hl. split_and!; lia.
Qed.

(** The amounts of a match: exact shares of a whole number of lots. *)
Record amounts_ok (m : ReferenceModel) (q : Z) (am : MatchAmounts) : Prop := {
  am_notional : Notional am = q * LotPayout m;
  am_yes : 0 <= YesValue am;
  am_no : 0 <= NoValue am;
  am_split : YesValue am + NoValue am = Notional am;
  am_price : YesValue am * PriceScale = Notional am * YesPrice am;
  am_fits : Notional am < two64 }.

(** Integer fields of an order at their Go widths. *)
Definition order_typed (o : PredictionOrderV1) : Prop :=
  0 <= LimitPriceTick o < two16 /\ u64 (QuantityLots o) /\ u64 (MinFillLots o) /\
  u64 (ValidAfter o) /\ u64 (ValidUntil o).

(** Turns the overflow reports of a successful branch into bounds. *)
Ltac bounds :=
  repeat match goal with
  | H : (_ || _) = false |- _ => apply orb_false_iff in H as [H ?]
  | H : negb _ = false |- _ => apply negb_false_iff in H
  | H : (_ <? _) = true |- _ => apply Z.ltb_lt in H
  | H : (_ <? _) = false |- _ => apply Z.ltb_ge in H
  | H : (_ <=? _) = true |- _ => apply Z.leb_le in H
  | H : (_ <=? _) = false |- _ => apply Z.leb_gt in H
  | H : (_ =? _) = false |- _ => apply Z.eqb_neq in H
  | H : (_ =? _) = true |- _ => apply Z.eqb_eq in H
  | H : bool_decide _ = false |- _ => apply bool_decide_eq_false in H
  | H : bool_decide _ = true |- _ => apply bool_decide_eq_true in H
  end.

(** Removes the wrap-around of values shown to be in range. *)
Ltac nowrap := rewrite ?wrap64_small in * by (red; lia).

Section MatchSteps.
Context `{AL : AddressLib}.

Lemma matchAmounts_exact m maker taker q am r :
  0 < LotPayout m < two64 -> LotPayout m mod PriceScale = 0 -> 0 < q -> order_typed maker ->
  validateOrder maker = Ok r -> matchAmounts m maker taker q = Ok am ->
  amounts_ok m q am /\ 0 < YesPrice am < PriceScale /\
  YesPrice am = (if Outcome maker =? OutcomeNo then PriceScale - LimitPriceTick maker else LimitPriceTick maker) /\
  orderAcceptsPrice taker (YesPrice am) (PriceScale - YesPrice am) = true.
Proof.
  intros Hp Hd Hq (Ht & _) Hv H. apply validateOrder_fields in Hv as (_ & _ & _ & _ & _ & _ & ? & ? & _).
  unfold matchAmounts in H. unfold two16 in *.
  replace (if Outcome maker =? OutcomeNo then (PriceScale - LimitPriceTick maker) mod 2 ^ 16 else LimitPriceTick maker)
    with (if Outcome maker =? OutcomeNo then PriceScale - LimitPriceTick maker else LimitPriceTick maker) in H
    by (destruct (Outcome maker =? OutcomeNo); [rewrite Z.mod_small by (unfold PriceScale in *; lia)|]; done).
  set (yesPrice := if Outcome maker =? OutcomeNo then _ else _) in *.
  unfold mul64 in H. inv_ok. bounds.
  assert (0 < yesPrice) by (subst yesPrice; destruct (Outcome maker =? OutcomeNo); unfold PriceScale in *; lia).
  assert (LotPayout m = LotPayout m / PriceScale * PriceScale) as Hexact.
  { pose proof (Z.div_mod (LotPayout m) PriceScale ltac:(done)). unfold PriceScale in *; lia. }
  set (unit := LotPayout m / PriceScale) in *. assert (0 <= unit) by (apply Z.div_pos; unfold PriceScale; lia).
  rewrite (wrap64_small (q * unit)) in * by (red; nia).
  rewrite (wrap64_small (q * LotPayout m)) in * by (red; nia).
  rewrite (wrap64_small (q * unit * yesPrice)) in * by (red; nia).
  rewrite (wrap64_small (q * LotPayout m - q * unit * yesPrice)) by (red; nia).
  split; [|split_and!; cbn; done || lia].
  split; cbn; nia.
Qed.

Lemma Outcome_yes_no o r : validateOrder o = Ok r -> (Outcome o =? OutcomeNo) = negb (Outcome o =? OutcomeYes).
Proof. intros (_ & [-> | ->] & _)%validateOrder_fields; done. Qed.

Definition value_for (am : MatchAmounts) (o : PredictionOrderV1) : Z :=
  if Outcome o =? OutcomeYes then YesValue am else NoValue am.
Definition yes_part (o : PredictionOrderV1) (q : Z) : Z := if Outcome o =? OutcomeYes then q else 0.
Definition no_part (o : PredictionOrderV1) (q : Z) : Z := if Outcome o =? OutcomeYes then 0 else q.

Lemma mintOrder_delta m q am o r m' :
  accts_typed m -> 0 <= q -> amounts_ok m q am -> validateOrder o = Ok r -> mintOrder q am m o = Ok m' ->
  ledger_delta m m' (- value_for am o) (yes_part o q) (no_part o q) 0 0.
Proof.
  intros Hm Hq [] Hv H. unfold mintOrder in H. rewrite (Outcome_yes_no o r Hv) in H.
  unfold value_for, yes_part, no_part.
  pose proof (account_of_typed m (OwnerAddress o) Hm) as ([? ?] & [? ?] & [? ?]).
  unfold add64 in H. destruct (Outcome o =? OutcomeYes); cbn [negb] in H; inv_ok; bounds; nowrap;
    (eapply ledger_delta_eq; [apply ledger_delta_set_account; [done|repeat split; cbn; lia]|cbn; lia..]).
Qed.

Lemma mergeOrder_delta m q am o r m' :
  accts_typed m -> 0 <= q -> amounts_ok m q am -> validateOrder o = Ok r -> mergeOrder q am m o = Ok m' ->
  ledger_delta m m' (value_for am o) (- yes_part o q) (- no_part o q) 0 0.
Proof.
  intros Hm Hq [] Hv H. unfold mergeOrder in H. rewrite (Outcome_yes_no o r Hv) in H.
  unfold value_for, yes_part, no_part.
  pose proof (account_of_typed m (OwnerAddress o) Hm) as ([? ?] & [? ?] & [? ?]).
  unfold add64 in H. destruct (Outcome o =? OutcomeYes); cbn [negb] in H; inv_ok; bounds; nowrap;
    (eapply ledger_delta_eq; [apply ledger_delta_set_account; [done|repeat split; cbn; lia]|cbn; lia..]).
Qed.

Lemma amounts_ok_payout m m' q am : LotPayout m' = LotPayout m -> amounts_ok m q am -> amounts_ok m' q am.
Proof. intros E []. split; try done. by rewrite E. Qed.

(** A pair of orders on opposite outcomes covers both positions once. *)
Lemma opposite_parts o1 o2 r1 r2 am m q :
  validateOrder o1 = Ok r1 -> validateOrder o2 = Ok r2 -> (Outcome o1 =? Outcome o2) = false ->
  amounts_ok m q am ->
  value_for am o1 + value_for am o2 = Notional am /\
  yes_part o1 q + yes_part o2 q = q /\ no_part o1 q + no_part o2 q = q.
Proof.
  intros (_ & H1 & _)%validateOrder_fields (_ & H2 & _)%validateOrder_fields Hne [].
  unfold value_for, yes_part, no_part.
  destruct H1 as [E1|E1], H2 as [E2|E2]; rewrite E1, E2 in *; cbn in *; try done; lia.
Qed.

Lemma applyMint_delta m maker taker q am r1 r2 m' :
  accts_typed m -> 0 <= CompleteSets m -> 0 <= LockedCollateral m -> 0 <= q -> amounts_ok m q am ->
  validateOrder maker = Ok r1 -> validateOrder taker = Ok r2 -> (Outcome maker =? Outcome taker) = false ->
  applyMint m maker taker q am = Ok m' ->
  ledger_delta m m' (- Notional am) q q q (Notional am) /\
  CompleteSets m + q < two64 /\ LockedCollateral m + Notional am < two64.
Proof.
  intros Hm Hs Hl Hq Ham Hv1 Hv2 Hne H.
  destruct (opposite_parts _ _ _ _ _ _ _ Hv1 Hv2 Hne Ham) as (? & ? & ?).
  unfold applyMint in H. unfold add64 in H. cbn [foldM] in H.
  apply bind_Ok in H as (m2 & (m1 & Hm1 & (m2' & Hm2 & [= <-])%bind_Ok)%bind_Ok & H).
  eapply mintOrder_delta in Hm1 as D1; [|done..].
  eapply mintOrder_delta in Hm2 as D2; [|apply D1|done|eapply amounts_ok_payout; [apply D1|done]|done].
  pose proof (ledger_delta_trans _ _ _ _ _ _ _ _ _ _ _ _ _ D1 D2) as D.
  destruct (ledger_delta_sets D) as [Es El]. destruct Ham. inv_ok. bounds. nowrap. split; [|lia].
  eapply ledger_delta_eq;
    [eapply ledger_delta_trans; [exact D|apply ledger_delta_set_sets, D]|lia..].
Qed.

Lemma applyMergeMatch_delta m maker taker q am r1 r2 m' :
  accts_typed m -> u64 (CompleteSets m) -> u64 (LockedCollateral m) -> 0 <= q -> amounts_ok m q am ->
  validateOrder maker = Ok r1 -> validateOrder taker = Ok r2 -> (Outcome maker =? Outcome taker) = false ->
  applyMergeMatch m maker taker q am = Ok m' ->
  ledger_delta m m' (Notional am) (- q) (- q) (- q) (- Notional am) /\
  q <= CompleteSets m /\ Notional am <= LockedCollateral m.
Proof.
  intros Hm [Hs Hs'] [Hl Hl'] Hq Ham Hv1 Hv2 Hne H.
  destruct (opposite_parts _ _ _ _ _ _ _ Hv1 Hv2 Hne Ham) as (? & ? & ?).
  unfold applyMergeMatch in H. cbn [foldM] in H.
  apply bind_Ok in H as (m2 & (m1 & Hm1 & (m2' & Hm2 & [= <-])%bind_Ok)%bind_Ok & H).
  eapply mergeOrder_delta in Hm1 as D1; [|done..].
  eapply mergeOrder_delta in Hm2 as D2; [|apply D1|done|eapply amounts_ok_payout; [apply D1|done]|done].
  pose proof (ledger_delta_trans _ _ _ _ _ _ _ _ _ _ _ _ _ D1 D2) as D.
  destruct (ledger_delta_sets D) as [Es El]. destruct Ham. inv_ok. bounds. nowrap. split; [|lia].
  eapply ledger_delta_eq;
    [eapply ledger_delta_trans; [exact D|apply ledger_delta_set_sets, D]|lia..].
Qed.

Lemma applyTransfer_delta m maker taker q am r1 r2 m' :
  accts_typed m -> 0 <= q -> amounts_ok m q am -> OwnerAddress maker <> OwnerAddress taker ->
  validateOrder maker = Ok r1 -> validateOrder taker = Ok r2 ->
  applyTransfer m maker taker q am = Ok m' -> ledger_delta m m' 0 0 0 0 0.
Proof.
  intros Hm Hq [] Hne Hv1 Hv2 H. unfold applyTransfer in H.
  assert (exists buyer seller r, (if Action maker =? ActionBuy then (maker, taker) else (taker, maker)) = (buyer, seller) /\
    OwnerAddress buyer <> OwnerAddress seller /\ validateOrder buyer = Ok r) as (buyer & seller & r & E & Hne' & Hv)
    by (destruct (Action maker =? ActionBuy); eauto 10).
  rewrite E, (Outcome_yes_no buyer r Hv) in H. clear E Hv1 Hv2.
  unfold add64 in H. destruct (Outcome buyer =? OutcomeYes); cbn [negb] in H; inv_ok; bounds;
    pose proof (account_of_typed m (OwnerAddress buyer) Hm) as ([? ?] & [? ?] & [? ?]);
    pose proof (account_of_typed m (OwnerAddress seller) Hm) as ([? ?] & [? ?] & [? ?]); nowrap;
    (eapply ledger_delta_eq; [eapply ledger_delta_trans; cycle 1;
       [apply ledger_delta_set_account; [apply set_account_typed; [done|]; repeat split; cbn; lia|repeat split; cbn; lia]
       |apply ledger_delta_set_account; [done|repeat split; cbn; lia]]
     |rewrite ?account_of_set_ne by done; cbn; lia..]).
Qed.
End MatchSteps.

(** ** What each operation does on a sound model *)

Lemma account_of_sum_le f m o :
  accts_typed m -> f zeroAccount = 0 -> (forall a, acct_typed a -> 0 <= f a) ->
  f (account_of m o) <= acct_sum f (Accounts m).
Proof.
  intros Ht Hz Hnn. assert (forall k a, Accounts m !! k = Some a -> 0 <= f a) as H by eauto.
  unfold account_of. destruct (Accounts m !! o) as [a|] eqn:E; cbn.
  - by eapply map_sum_ge.
  - rewrite Hz, map_sum_list. apply zsum_nonneg, Forall_fmap.
    eapply Forall_impl; [by apply map_order_typed|]. done.
Qed.

Lemma open_positions_le m o :
  model_inv m -> Finalized m = false ->
  YesLots (account_of m o) <= CompleteSets m /\ NoLots (account_of m o) <= CompleteSets m.
Proof.
  intros [_ Ht _ Ho _] Hf. destruct (Ho Hf) as (Hy & Hn & _). rewrite <-Hy at 1. rewrite <-Hn at 1.
  split; apply account_of_sum_le; try done; by intros ? (_ & [? _] & [? _]).
Qed.

Lemma inv_sets_u64 m : model_inv m -> u64 (CompleteSets m).
Proof. intros [[? _] _ ? _ _]. red. nia. Qed.

(** The model after an owner turned [q] lots' worth of free balance into complete sets
    (into free balance, when [q] is negative). *)
Definition converted (m : ReferenceModel) (o : string) (q : Z) : ReferenceModel :=
  set_sets (set_account m o
    {| Free := Free (account_of m o) - q * LotPayout m; YesLots := YesLots (account_of m o) + q;
       NoLots := NoLots (account_of m o) + q |})
    (CompleteSets m + q) (LockedCollateral m + q * LotPayout m).

Definition deposited (m : ReferenceModel) (o : string) (amount : Z) : ReferenceModel :=
  set_account m o {| Free := Free (account_of m o) + amount; YesLots := YesLots (account_of m o);
                     NoLots := NoLots (account_of m o) |}.

Section SoundOperations.
Context (m : ReferenceModel) (Hinv : model_inv m) (Hopen : Finalized m = false).

Lemma converted_sound o q :
  u64 (Free (account_of m o) - q * LotPayout m) ->
  u64 (YesLots (account_of m o) + q) -> u64 (NoLots (account_of m o) + q) ->
  0 <= CompleteSets m + q -> (CompleteSets m + q) * LotPayout m < two64 ->
  CheckInvariants (converted m o q) = Ok tt /\ model_inv (converted m o q) /\
  total_backing (converted m o q) = total_backing m.
Proof using Hinv Hopen.
  intros. assert (ledger_delta m (converted m o q) (- (q * LotPayout m)) q q q (q * LotPayout m)) as D.
  { destruct Hinv. eapply ledger_delta_eq; [eapply ledger_delta_trans;
      [apply ledger_delta_set_account|apply ledger_delta_set_sets, set_account_typed]|cbn; lia..]; try done. }
  destruct (open_inv_delta m (converted m o q) (- (q * LotPayout m)) q) as [? ?]; try done.
  split_and!; try done. destruct D. unfold total_backing. rewrite ld_finalized0, Hopen. lia.
Qed.

Lemma deposited_sound o a :
  0 <= a -> Free (account_of m o) + a < two64 ->
  CheckInvariants (deposited m o a) = Ok tt /\ model_inv (deposited m o a) /\
  total_backing (deposited m o a) = total_backing m + a.
Proof using Hinv Hopen.
  intros ? ?. pose proof (account_of_typed m o (mi_accts m Hinv)) as ([? ?] & ? & ?).
  assert (ledger_delta m (deposited m o a) a 0 0 0 (0 * LotPayout m)) as D.
  { eapply ledger_delta_eq; [apply ledger_delta_set_account; [apply Hinv|]|cbn; lia..].
    repeat split; cbn; first [apply H1|apply H2|apply H3|apply H4|lia]. }
  destruct (open_inv_delta m (deposited m o a) a 0) as [? ?]; try done.
  - destruct (mi_sets m Hinv). lia.
  - destruct (mi_sets m Hinv). lia.
  - split_and!; try done. destruct D. unfold total_backing. rewrite ld_finalized0, Hopen. lia.
Qed.
End SoundOperations.

Section Operations_spec.
Context `{AL : AddressLib} (m : ReferenceModel) (Hinv : model_inv m).

Lemma Split_iff o q m' :
  0 <= q ->
  Split m o q = Ok m' <->
    Finalized m = false /\ q <> 0 /\ q * LotPayout m <= Free (account_of m o) /\
    (CompleteSets m + q) * LotPayout m < two64 /\ m' = converted m o q.
Proof using Hinv.
  intros Hq. unfold Split. destruct (Finalized m) eqn:Hf; [cbn; naive_solver|].
  destruct (Z.eqb_spec q 0); [cbn; naive_solver|]. cbn [orb fail_if mbind result_bind].
  pose proof (account_of_typed m o (mi_accts m Hinv)) as ([? ?] & [? ?] & [? ?]).
  destruct (mi_payout m Hinv) as [? _], (mi_sets m Hinv) as [? ?], (open_positions_le m o Hinv Hf) as [? ?].
  destruct (mi_open m Hinv Hf) as (_ & _ & Hlock & _).
  destruct (Z.leb_spec (q * LotPayout m) (Free (account_of m o))).
  2: { split; [|lia]. unfold mul64. intros H'. inv_ok. bounds.
       rewrite wrap64_small in * by (red; nia). lia. }
  rewrite mul64_Ok by nia. rewrite (proj2 (Z.ltb_ge _ _)) by lia. cbn [orb negb fail_if mbind result_bind].
  destruct (Z.ltb_spec ((CompleteSets m + q) * LotPayout m) two64).
  - rewrite !add64_Ok by nia. cbn [orb negb fail_if mbind result_bind].
    rewrite wrap64_small by (red; lia).
    destruct (converted_sound m Hinv Hf o q) as (Hc & _); try (red; nia); try nia.
    unfold converted in *. rewrite Hc. cbn. naive_solver.
  - split; [|lia]. intros H'. unfold add64 in H'. inv_ok. bounds. lia.
Qed.

Lemma Merge_iff o q m' :
  0 <= q ->
  Merge m o q = Ok m' <->
    Finalized m = false /\ q <> 0 /\ q <= YesLots (account_of m o) /\ q <= NoLots (account_of m o) /\
    Free (account_of m o) + q * LotPayout m < two64 /\ m' = converted m o (- q).
Proof using Hinv.
  intros Hq. unfold Merge. destruct (Finalized m) eqn:Hf; [cbn; naive_solver|].
  destruct (Z.eqb_spec q 0); [cbn; naive_solver|]. cbn [orb fail_if mbind result_bind].
  pose proof (account_of_typed m o (mi_accts m Hinv)) as ([? ?] & [? ?] & [? ?]).
  destruct (mi_payout m Hinv) as [? _], (mi_sets m Hinv) as [? ?], (open_positions_le m o Hinv Hf) as [? ?].
  destruct (mi_open m Hinv Hf) as (_ & _ & Hlock & _).
  split.
  - intros H'. unfold mul64, add64 in H'. inv_ok. bounds.
    rewrite (wrap64_small (q * LotPayout m)) in * by (red; nia). nowrap.
    rewrite (wrap64_small (LockedCollateral m - q * LotPayout m)) in * by (red; nia).
    rewrite (wrap64_small (CompleteSets m - q)) in * by (red; nia).
    split_and!; try lia. unfold converted. repeat f_equal; lia.
  - intros (_ & _ & ? & ? & ? & ->). rewrite mul64_Ok by nia. rewrite add64_Ok by nia.
    rewrite !(proj2 (Z.ltb_ge _ _)) by nia. cbn [orb negb fail_if mbind result_bind].
    rewrite !wrap64_small by (red; nia).
    destruct (converted_sound m Hinv Hf o (- q)) as (Hc & _); try (red; nia); try nia.
    replace (set_sets _ _ _) with (converted m o (- q)) by (unfold converted; repeat f_equal; lia).
    by rewrite Hc.
Qed.

Lemma Deposit_iff o a m' :
  0 <= a ->
  Deposit m o a = Ok m' <->
    (exists addr, parseCanonicalAddress o = Ok addr) /\ Finalized m = false /\ a <> 0 /\
    Free (account_of m o) + a < two64 /\ m' = deposited m o a.
Proof using Hinv.
  intros Ha. pose proof (account_of_typed m o (mi_accts m Hinv)) as ([? ?] & _).
  unfold Deposit, add64. split.
  - intros H'. inv_ok. bounds. nowrap. split_and!; try done; eauto.
  - intros ([addr ->] & Hf & ? & ? & ->). rewrite Hf. cbn [or_err mbind result_bind].
    rewrite (proj2 (Z.eqb_neq _ _)), (proj2 (Z.ltb_lt _ _)) by done. cbn [orb negb fail_if mbind result_bind].
    rewrite wrap64_small by (red; lia).
    destruct (deposited_sound m Hinv Hf o a) as (Hc & _); try lia. unfold deposited in *. by rewrite Hc.
Qed.
End Operations_spec.

(** What a match does to the account of one of its parties. *)
Definition settled (am : MatchAmounts) (q : Z) (o : PredictionOrderV1) (a : AccountBalance) : AccountBalance :=
  let sign := if Action o =? ActionBuy then 1 else -1 in
  {| Free := Free a - sign * value_for am o;
     YesLots := YesLots a + sign * yes_part o q; NoLots := NoLots a + sign * no_part o q |}.

Section MatchEffect.
Context `{AL : AddressLib} (m : ReferenceModel) (q : Z) (am : MatchAmounts).
Context (Hm : accts_typed m) (Hq : 0 <= q) (Ham : amounts_ok m q am).

Lemma mintOrder_effect m1 o r m' :
  accts_typed m1 -> validateOrder o = Ok r -> Action o = ActionBuy -> mintOrder q am m1 o = Ok m' ->
  m' = set_account m1 (OwnerAddress o) (settled am q o (account_of m1 (OwnerAddress o))).
Proof using Hq Ham.
  intros Hm1 Hv Ha H. unfold mintOrder in H. rewrite (Outcome_yes_no o r Hv) in H.
  unfold settled, value_for, yes_part, no_part. rewrite Ha. cbn [Z.eqb ActionBuy]. destruct Ham.
  unfold add64 in H. destruct (Outcome o =? OutcomeYes); cbn [negb] in H; inv_ok; bounds;
    pose proof (account_of_typed m1 (OwnerAddress o) Hm1) as ([? ?] & [? ?] & [? ?]); nowrap;
    repeat f_equal; lia.
Qed.

Lemma mergeOrder_effect m1 o r m' :
  accts_typed m1 -> validateOrder o = Ok r -> Action o = ActionSell -> mergeOrder q am m1 o = Ok m' ->
  m' = set_account m1 (OwnerAddress o) (settled am q o (account_of m1 (OwnerAddress o))).
Proof using Hq Ham.
  intros Hm1 Hv Ha H. unfold mergeOrder in H. rewrite (Outcome_yes_no o r Hv) in H.
  unfold settled, value_for, yes_part, no_part. rewrite Ha. cbn [Z.eqb ActionBuy ActionSell]. destruct Ham.
  unfold add64 in H. destruct (Outcome o =? OutcomeYes); cbn [negb] in H; inv_ok; bounds;
    pose proof (account_of_typed m1 (OwnerAddress o) Hm1) as ([? ?] & [? ?] & [? ?]); nowrap;
    repeat f_equal; lia.
Qed.

Lemma applyTransfer_effect maker taker r1 r2 m' :
  validateOrder maker = Ok r1 -> validateOrder taker = Ok r2 -> OwnerAddress maker <> OwnerAddress taker ->
  Action maker <> Action taker -> Outcome maker = Outcome taker ->
  applyTransfer m maker taker q am = Ok m' ->
  Accounts m' =
    <[OwnerAddress taker := settled am q taker (account_of m (OwnerAddress taker))]>
    (<[OwnerAddress maker := settled am q maker (account_of m (OwnerAddress maker))]> (Accounts m)).
Proof using Hm Hq Ham.
  intros Hv1 Hv2 Hne Ha Ho H.
  pose proof Hv1 as (A1 & _)%validateOrder_fields. pose proof Hv2 as (A2 & _)%validateOrder_fields.
  unfold settled, value_for, yes_part, no_part. unfold applyTransfer in H. destruct Ham.
  destruct A1 as [A1|A1], A2 as [A2|A2]; rewrite A1, A2 in *; try done; cbn [Z.eqb ActionBuy ActionSell] in *;
    rewrite ?(Outcome_yes_no maker r1 Hv1), ?(Outcome_yes_no taker r2 Hv2), <-?Ho in *;
    unfold add64 in H; destruct (Outcome maker =? OutcomeYes); cbn [negb] in H; inv_ok; bounds;
    pose proof (account_of_typed m (OwnerAddress maker) Hm) as ([? ?] & [? ?] & [? ?]);
    pose proof (account_of_typed m (OwnerAddress taker) Hm) as ([? ?] & [? ?] & [? ?]); nowrap;
    cbn; rewrite 1?(insert_insert_ne _ (OwnerAddress maker)) by done; repeat f_equal; lia.
Qed.

Lemma applyMatch_cases maker taker m' :
  applyMatch m maker taker q am = Ok m' ->
  (Action maker = ActionBuy /\ Action taker = ActionBuy /\ (Outcome maker =? Outcome taker) = false /\
     applyMint m maker taker q am = Ok m') \/
  (Action maker <> Action taker /\ Outcome maker = Outcome taker /\ applyTransfer m maker taker q am = Ok m') \/
  (Action maker = ActionSell /\ Action taker = ActionSell /\ (Outcome maker =? Outcome taker) = false /\
     applyMergeMatch m maker taker q am = Ok m').
Proof.
  unfold applyMatch. destruct (Outcome maker =? Outcome taker) eqn:Ho; rewrite ?andb_false_r, ?andb_true_r; cbn [negb].
  - destruct (Z.eqb_spec (Action maker) (Action taker)); cbn [negb]; [done|].
    intros H. right; left. split_and!; [done|lia|done].
  - destruct ((Action maker =? ActionBuy) && _) eqn:E; [intros H; left; split_and!; [lia|lia|done|done]|].
    destruct ((Action maker =? ActionSell) && _) eqn:E'; [intros H; right; right; split_and!; [lia|lia|done|done]|done].
Qed.

(** A match changes the two parties' accounts, by the settlement of their orders, and no other. *)
Lemma applyMatch_effect maker taker r1 r2 m' :
  validateOrder maker = Ok r1 -> validateOrder taker = Ok r2 -> OwnerAddress maker <> OwnerAddress taker ->
  applyMatch m maker taker q am = Ok m' ->
  Accounts m' =
    <[OwnerAddress taker := settled am q taker (account_of m (OwnerAddress taker))]>
    (<[OwnerAddress maker := settled am q maker (account_of m (OwnerAddress maker))]> (Accounts m)).
Proof using Hm Hq Ham.
  intros Hv1 Hv2 Hne [(A1 & A2 & Ho & H)|[(Ha & Ho & H)|(A1 & A2 & Ho & H)]]%applyMatch_cases.
  - unfold applyMint in H. cbn [foldM] in H.
    apply bind_Ok in H as (m2 & (m1 & Hm1 & (m2' & Hm2 & [= <-])%bind_Ok)%bind_Ok & H).
    assert (accts_typed m1) by (eapply mintOrder_delta in Hm1; eauto using ld_typed).
    eapply mintOrder_effect in Hm1, Hm2; eauto. subst.
    unfold add64 in H. inv_ok. by rewrite account_of_set_ne.
  - by eapply applyTransfer_effect.
  - unfold applyMergeMatch in H. cbn [foldM] in H.
    apply bind_Ok in H as (m2 & (m1 & Hm1 & (m2' & Hm2 & [= <-])%bind_Ok)%bind_Ok & H).
    assert (accts_typed m1) by (eapply mergeOrder_delta in Hm1; eauto using ld_typed).
    eapply mergeOrder_effect in Hm1, Hm2; eauto. subst.
    inv_ok. by rewrite account_of_set_ne.
Qed.

(** Whole sets move together with their backing. *)
Lemma applyMatch_delta maker taker r1 r2 m' :
  model_inv m -> Finalized m = false ->
  validateOrder maker = Ok r1 -> validateOrder taker = Ok r2 -> OwnerAddress maker <> OwnerAddress taker ->
  applyMatch m maker taker q am = Ok m' ->
  exists d, ledger_delta m m' (- (d * LotPayout m)) d d d (d * LotPayout m) /\
    0 <= CompleteSets m + d /\ (CompleteSets m + d) * LotPayout m < two64.
Proof using Hq Ham.
  intros Hinv Hf Hv1 Hv2 Hne H. pose proof (am_notional _ _ _ Ham) as Hn.
  destruct (mi_payout m Hinv) as [? _], (mi_sets m Hinv) as [? ?].
  destruct (mi_open m Hinv Hf) as (_ & _ & Hlock & _). pose proof (mi_accts m Hinv).
  pose proof (inv_sets_u64 m Hinv).
  apply applyMatch_cases in H as [(A1 & A2 & Ho & H)|[(Ha & Ho & H)|(A1 & A2 & Ho & H)]].
  - eapply applyMint_delta in H as (D & ? & ?); eauto; [|nia]. exists q. rewrite <-Hn. split; [done|nia].
  - eapply applyTransfer_delta in H; eauto. exists 0. split; [|lia]. by eapply ledger_delta_eq.
  - eapply applyMergeMatch_delta in H as (D & ? & ?); eauto; [|red; nia].
    exists (- q). split; [|nia]. eapply ledger_delta_eq; [done|lia..].
Qed.
End MatchEffect.

Section MatchSpec.
Context `{AL : AddressLib} (m : ReferenceModel) (Hinv : model_inv m).

(** The guards of [Match] before any amount is computed. *)
Definition match_admissible (left right maker taker : PredictionOrderV1) (q : Z) : Prop :=
  Finalized m = false /\ q <> 0 /\ OwnerAddress left <> OwnerAddress right /\
  matchRoles left right = Ok (maker, taker) /\
  (exists r, validateOrder maker = Ok r) /\ (exists r, validateOrder taker = Ok r) /\
  GlobalID maker = GlobalID taker /\ WorkchainID maker = WorkchainID taker /\
  MarketAddress maker = MarketAddress taker /\ MarketConfigHash maker = MarketConfigHash taker /\
  (forall c, OptionalCounterparty maker = Some c -> c = OwnerAddress taker) /\
  (forall c, OptionalCounterparty taker = Some c -> c = OwnerAddress maker).

Lemma matchRoles_Ok l r maker taker :
  matchRoles l r = Ok (maker, taker) ->
  (l = maker /\ r = taker \/ l = taker /\ r = maker) /\
  LiquidityRole maker = RoleMaker /\ LiquidityRole taker = RoleTaker.
Proof. unfold matchRoles. repeat case_match; intros; simplify_eq; split; (by auto) || lia. Qed.

Lemma owners_differ l r maker taker :
  matchRoles l r = Ok (maker, taker) -> OwnerAddress l <> OwnerAddress r -> OwnerAddress maker <> OwnerAddress taker.
Proof. intros [[[-> ->]|[-> ->]] _]%matchRoles_Ok; auto. Qed.

Lemma backing_base : 0 <= (if Finalized m then RemainingPayoutLiability m else LockedCollateral m) < two64.
Proof using Hinv.
  destruct (mi_payout m Hinv) as [? _], (mi_sets m Hinv) as [? ?]. destruct (Finalized m) eqn:Hf.
  - destruct (mi_final m Hinv Hf) as (_ & _ & ? & ? & Hr & ?). split; [|lia].
    rewrite Hr, map_sum_list. apply zsum_nonneg, Forall_fmap.
    eapply Forall_impl; [apply map_order_typed, Hinv|]. intros a (_ & [? _] & [? _]). unfold compose, owed.
    repeat case_match; try lia; apply Z.mul_nonneg_nonneg; lia || (apply Z.div_pos; lia).
  - destruct (mi_open m Hinv Hf) as (_ & _ & -> & _). nia.
Qed.

Lemma TotalBacking_iff t : TotalBacking m = Ok t <-> t = total_backing m /\ total_backing m < two64.
Proof using Hinv. apply TotalBacking_in_iff; [apply Hinv|done|apply backing_base]. Qed.

Lemma match_applies l r maker taker q am m' :
  (forall o, o ∈ [l; r] -> order_typed o) -> 0 <= q ->
  match_admissible l r maker taker q -> matchAmounts m maker taker q = Ok am ->
  applyMatch m maker taker q am = Ok m' ->
  amounts_ok m q am /\ CheckInvariants m' = Ok tt /\ model_inv m' /\ Finalized m' = false /\
  total_backing m' = total_backing m /\
  Accounts m' =
    <[OwnerAddress taker := settled am q taker (account_of m (OwnerAddress taker))]>
    (<[OwnerAddress maker := settled am q maker (account_of m (OwnerAddress maker))]> (Accounts m)).
Proof using Hinv.
  intros Hty Hq (Hf & Hq0 & Hne & Hroles & [r1 Hv1] & [r2 Hv2] & _) Ha Hm'.
  pose proof (owners_differ _ _ _ _ Hroles Hne) as Hne'.
  assert (order_typed maker) as Htm.
  { apply Hty. apply matchRoles_Ok in Hroles as [[[-> ->]|[-> ->]] _]; set_solver. }
  destruct (mi_payout m Hinv) as [? ?].
  eapply matchAmounts_exact in Ha as (Ham & _); eauto; [|lia].
  destruct (applyMatch_delta m q am Hq Ham maker taker r1 r2 m') as (d & D & ? & ?); try done.
  destruct (open_inv_delta m m' (- (d * LotPayout m)) d) as [Hc Hi]; try done.
  pose proof (applyMatch_effect m q am (mi_accts m Hinv) Hq Ham maker taker r1 r2 m' Hv1 Hv2 Hne' Hm').
  destruct D. split_and!; try done; [congruence|].
  unfold total_backing. rewrite ld_finalized0, Hf. lia.
Qed.
End MatchSpec.

Lemma Match_iff `{AL : AddressLib} m l r q m' am :
  model_inv m -> (forall o, o ∈ [l; r] -> order_typed o) -> 0 <= q ->
  Match m l r q = Ok (m', am) <->
    exists maker taker, match_admissible m l r maker taker q /\ matchAmounts m maker taker q = Ok am /\
      total_backing m < two64 /\ applyMatch m maker taker q am = Ok m'.
Proof.
  intros Hinv Hty Hq. unfold Match. split.
  - intros H. apply bind_Ok in H as (? & Hg & ([maker taker] & Hroles & H)%bind_Ok).
    apply bind_Ok in H as (? & Hv1 & (? & Hv2 & (? & Hdom & (? & Hcp & (am' & Ha & H)%bind_Ok)%bind_Ok)%bind_Ok)%bind_Ok).
    apply bind_Ok in H as (t & Ht & (next & Hn & (t' & Ht' & (? & Hcmp & (? & Hc & [= -> ->])%bind_Ok)%bind_Ok)%bind_Ok)%bind_Ok).
    apply TotalBacking_iff in Ht as [-> ?]; [|done].
    apply fail_if_Ok in Hg, Hdom, Hcp. bounds.
    exists maker, taker. split_and!; try done. split_and!; eauto; try lia.
    + intros c E. rewrite E in *. by bounds.
    + intros c E. rewrite E in *. by bounds.
  - intros (maker & taker & Hadm & Ha & Ht & Hm').
    destruct (match_applies m Hinv l r maker taker q am m') as (_ & Hc & Hinv' & Hf' & Hb & _); try done.
    destruct Hadm as (Hf & Hq0 & Hne & Hroles & [r1 Hv1] & [r2 Hv2] & E1 & E2 & E3 & E4 & C1 & C2).
    assert (TotalBacking m = Ok (total_backing m)) as B1 by (by apply TotalBacking_iff).
    assert (TotalBacking m' = Ok (total_backing m)) as B2 by (apply TotalBacking_iff; lia || done).
    rewrite Hf, Hroles, (bool_decide_false _ Hne), (proj2 (Z.eqb_neq _ _) Hq0).
    cbn [orb fail_if mbind result_bind]. rewrite Hv1, Hv2, E1, E2, E3, E4, !Z.eqb_refl, !bool_decide_true by done.
    cbn [orb negb fail_if mbind result_bind].
    replace (match OptionalCounterparty maker with Some _ => _ | None => _ end) with false
      by (destruct (OptionalCounterparty maker) as [c|]; [rewrite bool_decide_true|]; auto).
    replace (match OptionalCounterparty taker with Some _ => _ | None => _ end) with false
      by (destruct (OptionalCounterparty taker) as [c|]; [rewrite bool_decide_true|]; auto).
    cbn [orb negb fail_if mbind result_bind]. rewrite Ha, B1. cbn [mbind result_bind].
    rewrite Hm'. cbn [mbind result_bind]. rewrite B2. cbn [or_err mbind result_bind].
    rewrite Z.eqb_refl. cbn [negb fail_if mbind result_bind]. by rewrite Hc.
Qed.

(** ** Finalization and claims *)

Definition finalized_as (m : ReferenceModel) (outcome : Z) : ReferenceModel :=
  {| LotPayout := LotPayout m; CompleteSets := CompleteSets m; LockedCollateral := 0; Finalized := true;
     FinalOutcome := outcome; FinalBacking := LockedCollateral m; RemainingPayoutLiability := LockedCollateral m;
     CumulativeClaimedPayout := CumulativeClaimedPayout m; Accounts := Accounts m |}.

Definition claimed_by (m : ReferenceModel) (o : string) (a : AccountBalance) : ReferenceModel :=
  {| LotPayout := LotPayout m; CompleteSets := CompleteSets m; LockedCollateral := LockedCollateral m;
     Finalized := Finalized m; FinalOutcome := FinalOutcome m; FinalBacking := FinalBacking m;
     RemainingPayoutLiability := RemainingPayoutLiability m - owed m a;
     CumulativeClaimedPayout := CumulativeClaimedPayout m + owed m a;
     Accounts := <[o := {| Free := Free a + owed m a; YesLots := 0; NoLots := 0 |}]> (Accounts m) |}.

(** The winning positions of a market, whatever the outcome, are worth exactly its locked collateral. *)
Lemma owed_total m outcome :
  model_inv m -> Finalized m = false -> 0 <= outcome <= OutcomeInvalid ->
  acct_sum (owed (finalized_as m outcome)) (Accounts m) = LockedCollateral m.
Proof.
  intros Hinv Hf Ho. destruct (mi_open m Hinv Hf) as (Hy & Hn & -> & _).
  destruct (mi_payout m Hinv) as [_ Hd].
  assert (LotPayout m = 2 * (LotPayout m / 2)) as Heven by (unfold PriceScale in Hd; dlia).
  set (h := LotPayout m / 2) in *.
  assert (outcome = 0 \/ outcome = 1 \/ outcome = 2) as [-> | [-> | ->]] by (unfold OutcomeInvalid in *; lia).
  - rewrite (map_sum_ext _ (fun a => YesLots a * LotPayout m + NoLots a * 0)), map_sum_linear, Hy; [lia|].
    intros a. unfold owed. cbn. lia.
  - rewrite (map_sum_ext _ (fun a => YesLots a * 0 + NoLots a * LotPayout m)), map_sum_linear, Hn; [lia|].
    intros a. unfold owed. cbn. lia.
  - rewrite (map_sum_ext _ (fun a => YesLots a * h + NoLots a * h)), map_sum_linear, Hy, Hn; [lia|].
    intros a. unfold owed. cbn [FinalOutcome LotPayout finalized_as]. fold h. cbn. lia.
Qed.

Lemma CheckInvariants_final m :
  Finalized m = true -> 0 <= RemainingPayoutLiability m -> 0 <= CumulativeClaimedPayout m ->
  RemainingPayoutLiability m + CumulativeClaimedPayout m = FinalBacking m -> FinalBacking m < two64 ->
  LockedCollateral m = 0 -> CheckInvariants m = Ok tt.
Proof.
  intros Hf ? ? He ? Hl. unfold CheckInvariants, CheckInvariants_in. rewrite Hf, add64_Ok by lia.
  by rewrite He, Hl, !Z.eqb_refl.
Qed.

Lemma CheckInvariants_open m : model_inv m -> Finalized m = false -> CheckInvariants m = Ok tt.
Proof.
  intros Hinv Hf. destruct (mi_open m Hinv Hf) as (? & ? & ? & ?), (mi_payout m Hinv) as [? _], (mi_sets m Hinv).
  apply CheckInvariants_in_open; try done; [apply Hinv|by apply inv_sets_u64|lia].
Qed.

Section FinalSpec.
Context (m : ReferenceModel) (Hinv : model_inv m).

Lemma finalized_sound outcome :
  Finalized m = false -> 0 <= outcome <= OutcomeInvalid ->
  CheckInvariants (finalized_as m outcome) = Ok tt /\ model_inv (finalized_as m outcome) /\
  total_backing (finalized_as m outcome) = total_backing m.
Proof using Hinv.
  intros Hf Ho. pose proof (owed_total m outcome Hinv Hf Ho) as Hw.
  destruct (mi_open m Hinv Hf) as (_ & _ & Hl & Hc). pose proof (mi_payout m Hinv) as [? ?].
  pose proof (mi_sets m Hinv) as [? ?]. split_and!.
  - apply CheckInvariants_final; cbn; nia.
  - split; cbn; try done; [apply Hinv|]. intros _. split_and!; lia.
  - unfold total_backing. cbn. by rewrite Hf.
Qed.

Lemma Finalize_iff outcome m' :
  0 <= outcome ->
  Finalize m outcome = Ok m' <->
    Finalized m = false /\ outcome <= OutcomeInvalid /\ m' = finalized_as m outcome.
Proof using Hinv.
  intros Ho. unfold Finalize, Outcome_valid. destruct (Finalized m) eqn:Hf; [cbn; naive_solver|].
  destruct (Z.leb_spec outcome OutcomeInvalid); [|cbn; split; [done|lia]].
  assert (LotPayout m mod 2 = 0) as ->.
  { destruct (mi_payout m Hinv) as [_ Hd]. unfold PriceScale in Hd. dlia. }
  rewrite andb_false_r. cbn [orb negb fail_if mbind result_bind].
  rewrite (CheckInvariants_open m Hinv Hf). cbn [mbind result_bind].
  destruct (finalized_sound outcome Hf) as (Hc & _); [done|]. unfold finalized_as in *. rewrite Hc. cbn. naive_solver.
Qed.

Context (Hfin : Finalized m = true).

Lemma owed_nonneg a : acct_typed a -> 0 <= owed m a.
Proof using Hinv.
  intros (_ & [? _] & [? _]). destruct (mi_payout m Hinv) as [? _]. unfold owed.
  repeat case_match; try lia; apply Z.mul_nonneg_nonneg; lia || (apply Z.div_pos; lia).
Qed.

Lemma owed_le o a : Accounts m !! o = Some a -> owed m a <= RemainingPayoutLiability m.
Proof using Hinv Hfin.
  intros E. destruct (mi_final m Hinv Hfin) as (_ & _ & _ & _ & -> & _).
  eapply map_sum_ge; [|done]. intros k b Hb. eapply owed_nonneg, mi_accts; eauto.
Qed.

Lemma claim_bounds o a :
  Accounts m !! o = Some a ->
  0 <= owed m a <= RemainingPayoutLiability m /\ RemainingPayoutLiability m <= FinalBacking m /\
  FinalBacking m < two64 /\ CumulativeClaimedPayout m + owed m a <= FinalBacking m.
Proof using Hinv Hfin.
  intros E. pose proof (owed_le o a E). pose proof (owed_nonneg a (mi_accts m Hinv o a E)).
  destruct (mi_final m Hinv Hfin) as (_ & _ & ? & ? & ? & ?), (mi_sets m Hinv). lia.
Qed.

Lemma claimed_sound o a :
  Accounts m !! o = Some a -> Free a + owed m a < two64 ->
  CheckInvariants (claimed_by m o a) = Ok tt /\ model_inv (claimed_by m o a) /\
  total_backing (claimed_by m o a) = total_backing m.
Proof using Hinv Hfin.
  intros E Hfit. destruct (claim_bounds o a E) as ([? ?] & ? & ? & ?).
  destruct (mi_final m Hinv Hfin) as (? & Hl & Hb & ? & Hr & Hs).
  pose proof (mi_accts m Hinv o a E) as ([? ?] & ?). split_and!.
  - apply CheckInvariants_final; cbn; lia || done.
  - split; cbn; [apply Hinv| |apply Hinv|by rewrite Hfin|].
    + apply (set_account_typed m o); [apply Hinv|]. repeat split; cbn; lia.
    + intros _. split_and!; try lia.
      rewrite (map_sum_ext (owed (claimed_by m o a)) (owed m)) by done.
      rewrite acct_sum_insert, E, <-Hr by (unfold owed; cbn; repeat case_match; lia).
      cbn. unfold owed at 3. cbn. repeat case_match; lia.
  - unfold total_backing. cbn. rewrite Hfin, acct_sum_insert, E by done. cbn. lia.
Qed.

Lemma Claim_iff o m' p :
  Claim m o = Ok (m', p) <->
    exists a, Accounts m !! o = Some a /\ p = owed m a /\ Free a + owed m a < two64 /\ m' = claimed_by m o a.
Proof using Hinv Hfin.
  unfold Claim. rewrite Hfin. cbn [negb fail_if mbind result_bind].
  destruct (Accounts m !! o) as [a|] eqn:E; cbn [opt_err mbind result_bind]; [|naive_solver].
  destruct (claim_bounds o a E) as ([Hw0 Hw1] & ? & ? & ?). destruct (mi_final m Hinv Hfin) as (Ho & Hl & ? & ? & ? & ?).
  pose proof (mi_accts m Hinv o a E) as ([? ?] & [? ?] & [? ?]). destruct (mi_payout m Hinv) as [? Hd].
  assert (1 <= LotPayout m / 2) by (unfold PriceScale in *; dlia).
  match goal with |- context[mbind _ ?b] => assert (exists lots unit, b = Ok (lots, unit) /\
    lots * unit = owed m a /\ 0 <= lots /\ 0 <= unit) as (lots & unit & -> & Hlu & ? & ?) end.
  { unfold owed in *. destruct (FinalOutcome m =? OutcomeYes); [naive_solver lia|].
    destruct (FinalOutcome m =? OutcomeNo); [naive_solver lia|].
    destruct (FinalOutcome m =? OutcomeInvalid); [|naive_solver lia].
    rewrite add64_Ok by nia. cbn. eexists _, _. split_and!; [done|done|lia|lia]. }
  cbn [mbind result_bind]. rewrite mul64_Ok, Hlu by lia. rewrite (add64_Ok (CumulativeClaimedPayout m)) by lia.
  rewrite (proj2 (Z.ltb_ge (RemainingPayoutLiability m) _)) by lia.
  destruct (Z.ltb_spec (Free a + owed m a) two64).
  - rewrite add64_Ok by lia. cbn [negb orb fail_if mbind result_bind]. rewrite wrap64_small by (red; lia).
    destruct (claimed_sound o a E) as (Hc & _); [done|]. unfold claimed_by in *.
    rewrite Hfin in *. rewrite Hc. cbn. naive_solver.
  - unfold add64. rewrite (proj2 (Z.ltb_ge _ _)) by lia. cbn. split; [done|]. intros (? & [= ->] & ? & ? & ?). lia.
Qed.
End FinalSpec.

(** ** Histories of a market *)

Inductive operation :=
  | OpDeposit (owner : string) (amount : Z)
  | OpSplit (owner : string) (quantity : Z)
  | OpMerge (owner : string) (quantity : Z)
  | OpMatch (left right : PredictionOrderV1) (quantity : Z)
  | OpFinalize (outcome : Z)
  | OpClaim (owner : string).

Definition operation_typed (op : operation) : Prop :=
  match op with
  | OpDeposit _ n | OpSplit _ n | OpMerge _ n => u64 n
  | OpMatch l r q => order_typed l /\ order_typed r /\ u64 q
  | OpFinalize o => 0 <= o < 256
  | OpClaim _ => True
  end.

Section Histories.
Context `{AL : AddressLib}.

Definition exec (m : ReferenceModel) (op : operation) : result string ReferenceModel :=
  match op with
  | OpDeposit o a => Deposit m o a
  | OpSplit o q => Split m o q
  | OpMerge o q => Merge m o q
  | OpMatch l r q => '(m', _) ← Match m l r q; Ok m'
  | OpFinalize outcome => Finalize m outcome
  | OpClaim o => '(m', _) ← Claim m o; Ok m'
  end.

(** A rejected operation leaves the model unchanged.  The second component
    is the collateral accepted from outside so far. *)
Definition history_step (s : ReferenceModel * Z) (op : operation) : ReferenceModel * Z :=
  match exec s.1 op with
  | Ok m' => (m', s.2 + match op with OpDeposit _ a => a | _ => 0 end)
  | _ => s
  end.
Definition run (m : ReferenceModel) (ops : list operation) : ReferenceModel * Z := foldl history_step (m, 0) ops.

Lemma NewReferenceModel_sound p m :
  u64 p -> NewReferenceModel p = Ok m -> model_inv m /\ total_backing m = 0 /\ Finalized m = false.
Proof.
  intros [Hp0 Hp1] H. unfold NewReferenceModel in H. inv_ok. bounds.
  split_and!; [|unfold total_backing; cbn; by rewrite map_sum_empty|done].
  split; cbn; rewrite ?map_sum_empty; try (done || lia).
Qed.

Lemma exec_sound m op m' :
  model_inv m -> operation_typed op -> exec m op = Ok m' ->
  model_inv m' /\ total_backing m' = total_backing m + match op with OpDeposit _ a => a | _ => 0 end.
Proof.
  intros Hinv Hty H. destruct op as [o a|o q|o q|l r q|outcome|o]; cbn in H, Hty.
  - destruct Hty. apply Deposit_iff in H as (_ & Hf & ? & ? & ->); [|done..].
    destruct (deposited_sound m Hinv Hf o a) as (_ & ? & ?); auto.
  - destruct Hty. apply Split_iff in H as (Hf & ? & ? & ? & ->); [|done..].
    pose proof (account_of_typed m o (mi_accts m Hinv)) as ([? ?] & [? ?] & [? ?]).
    destruct (open_positions_le m o Hinv Hf), (mi_payout m Hinv) as [? _], (mi_sets m Hinv).
    destruct (converted_sound m Hinv Hf o q) as (_ & ? & ->); try (red; nia); try nia. split; [done|lia].
  - destruct Hty. apply Merge_iff in H as (Hf & ? & ? & ? & ? & ->); [|done..].
    pose proof (account_of_typed m o (mi_accts m Hinv)) as ([? ?] & [? ?] & [? ?]).
    destruct (open_positions_le m o Hinv Hf), (mi_payout m Hinv) as [? _], (mi_sets m Hinv).
    destruct (converted_sound m Hinv Hf o (- q)) as (_ & ? & ->); try (red; nia); try nia. split; [done|lia].
  - apply bind_Ok in H as ([m1 am] & H & [= <-]). destruct Hty as (? & ? & [? ?]).
    assert (forall o, o ∈ [l; r] -> order_typed o) as Ho
      by (intros o [->|[->|[]%elem_of_nil]%elem_of_cons]%elem_of_cons; done).
    apply Match_iff in H as (maker & taker & ? & ? & _ & ?); [|done..].
    destruct (match_applies m Hinv l r maker taker q am m1) as (_ & _ & ? & _ & -> & _); try done. split; [done|lia].
  - apply Finalize_iff in H as (Hf & ? & ->); [|done|lia].
    destruct (finalized_sound m Hinv outcome Hf) as (_ & ? & ->); lia || (split; [done|lia]).
  - apply bind_Ok in H as ([m1 p] & H & [= <-]).
    destruct (Finalized m) eqn:Hf; [|by unfold Claim in H; rewrite Hf in H].
    apply Claim_iff in H as (a & E & _ & ? & ->); [|done..].
    destruct (claimed_sound m Hinv Hf o a) as (_ & ? & ->); try done. split; [done|lia].
Qed.

Lemma run_sound ops s :
  model_inv s.1 -> Forall operation_typed ops -> total_backing s.1 = s.2 ->
  model_inv (foldl history_step s ops).1 /\ total_backing (foldl history_step s ops).1 = (foldl history_step s ops).2.
Proof.
  intros Hi Hops. revert s Hi. induction Hops as [|op ops Hop Hops IH]; intros s Hi Hb; [done|].
  cbn [foldl]. apply IH; unfold history_step; destruct (exec s.1 op) eqn:E; try done; cbn;
    destruct (exec_sound s.1 op a Hi Hop E) as [? ?]; [done|lia].
Qed.

(** [Claim] for a sequence of owners. *)
Definition claimAll (m : ReferenceModel) (owners : list string) : result string (ReferenceModel * Z) :=
  foldM (fun '(m, paid) o => '(m', p) ← Claim m o; Ok (m', paid + p)) (m, 0) owners.
End Histories.

Section ReachableMarkets.
Context `{AL : AddressLib}.

(** [m] is the state of some market after some history, [d] the collateral deposited in it. *)
Definition market_reachable (m : ReferenceModel) (d : Z) : Prop :=
  exists p m0 ops, u64 p /\ NewReferenceModel p = Ok m0 /\ Forall operation_typed ops /\ run m0 ops = (m, d).

Lemma reachable_inv m d : market_reachable m d -> model_inv m /\ total_backing m = d.
Proof.
  intros (p & m0 & ops & Hp & H0 & Hops & Hrun).
  destruct (NewReferenceModel_sound p m0 Hp H0) as (? & ? & _).
  pose proof (run_sound ops (m0, 0)) as H'. unfold run in Hrun. rewrite Hrun in H'. by apply H'.
Qed.

Lemma free_plus_owed_le m o a :
  model_inv m -> Finalized m = true -> Accounts m !! o = Some a -> Free a + owed m a <= total_backing m.
Proof.
  intros Hinv Hf E. unfold total_backing. rewrite Hf. pose proof (owed_le m Hinv Hf o a E).
  enough (Free a <= acct_sum Free (Accounts m)) by lia.
  eapply map_sum_ge; [|done]. intros k b Hb. by destruct (mi_accts m Hinv k b Hb) as ([? _] & _).
Qed.

Lemma claimAll_sound owners m paid :
  model_inv m -> Finalized m = true -> total_backing m < two64 ->
  (forall o, o ∈ owners -> is_Some (Accounts m !! o)) ->
  exists m', foldM (fun '(m, paid) o => '(m', p) ← Claim m o; Ok (m', paid + p)) (m, paid) owners
      = Ok (m', paid + (RemainingPayoutLiability m - RemainingPayoutLiability m')) /\
    model_inv m' /\ Finalized m' = true /\ FinalBacking m' = FinalBacking m /\
    total_backing m' = total_backing m /\
    (forall o a', Accounts m' !! o = Some a' ->
      (o ∈ owners \/ exists a, Accounts m !! o = Some a /\ YesLots a = 0 /\ NoLots a = 0) ->
      YesLots a' = 0 /\ NoLots a' = 0) /\
    dom (Accounts m') = dom (Accounts m).
Proof.
  revert m paid. induction owners as [|o owners IH]; intros m paid Hinv Hf Hb Hdom.
  - exists m. cbn. split_and!; try done; [do 2 f_equal; lia|].
    intros o a' E [H|(a & E' & ?)]; [by apply elem_of_nil in H|]. congruence.
  - destruct (Hdom o) as [a E]; [by left|]. pose proof (free_plus_owed_le m o a Hinv Hf E).
    assert (Claim m o = Ok (claimed_by m o a, owed m a)) as Hc by (apply Claim_iff; [done..|exists a; split_and!; done || lia]).
    destruct (claimed_sound m Hinv Hf o a E) as (_ & Hinv' & Hb'); [lia|].
    destruct (IH (claimed_by m o a) (paid + owed m a)) as (m' & Hfold & ? & ? & ? & Hb'' & Hzero & Hdom').
    + done.
    + done.
    + lia.
    + intros o' Ho'. cbn. destruct (decide (o = o')) as [->|]; [rewrite lookup_insert_eq; eauto|].
      rewrite lookup_insert_ne by done. apply Hdom. by right.
    + exists m'. cbn [foldM]. rewrite Hc. cbn [mbind result_bind]. rewrite Hfold. cbn in *.
      split_and!; try done; [do 2 f_equal; lia|lia| |rewrite Hdom'; apply dom_insert_lookup_L; eauto].
      intros o' a' E' Ho'. apply (Hzero o' a' E').
      destruct (decide (o = o')) as [->|Hne]; [right; rewrite lookup_insert_eq; eauto|].
      rewrite lookup_insert_ne by done. destruct Ho' as [[->|]%elem_of_cons|]; auto; done.
Qed.
End ReachableMarkets.

(** ** The market's properties *)

Section MarketProperties.
Context `{AL : AddressLib}.

(** C6: After any sequence of deposits, splits, merges, matches, finalization and claims
    (rejected ones included), the market is sound -- open: the YES lots, the NO lots and
    the complete sets agree and the locked collateral backs each set; final: the
    outstanding liability is what the accounts are owed, and with the payouts made it
    adds up to the final backing -- and the collateral it holds (free balances plus
    backing) is exactly what was deposited: no operation creates or destroys collateral. *)
Theorem market_conservation p m0 ops :
  u64 p -> NewReferenceModel p = Ok m0 -> Forall operation_typed ops ->
  model_inv (run m0 ops).1 /\ total_backing (run m0 ops).1 = (run m0 ops).2.
Proof.
  intros Hp H0 Hops. destruct (NewReferenceModel_sound p m0 Hp H0) as (? & ? & _). by apply run_sound.
Qed.

(** In a finalized market whose deposits fit 64 bits, every account holder's claim
    succeeds and pays exactly what the outcome is worth to the positions held: the full
    payout per winning lot, half of it per lot of either side when the outcome is invalid.
    A second claim pays nothing. *)
Theorem claim_pays_owed m d o a :
  market_reachable m d -> d < two64 -> Finalized m = true -> Accounts m !! o = Some a ->
  exists m', Claim m o = Ok (m', owed m a) /\ Free (account_of m' o) = Free a + owed m a /\
    (forall o', o' <> o -> account_of m' o' = account_of m o') /\
    exists m'', Claim m' o = Ok (m'', 0).
Proof.
  intros [Hinv <-]%reachable_inv Hd Hf E. pose proof (free_plus_owed_le m o a Hinv Hf E).
  destruct (claimed_sound m Hinv Hf o a E) as (_ & Hinv' & Hb'); [lia|].
  exists (claimed_by m o a). split_and!.
  - apply Claim_iff; [done..|]. exists a. split_and!; done || lia.
  - unfold account_of. cbn. by rewrite lookup_insert_eq.
  - intros o' ?. unfold account_of. cbn. by rewrite lookup_insert_ne.
  - assert (forall f, owed (claimed_by m o a) {| Free := f; YesLots := 0; NoLots := 0 |} = 0) as Hz
      by (intros; unfold owed; repeat case_match; done).
    eexists. apply Claim_iff; [done..|]. eexists. split_and!; [apply lookup_insert_eq|by rewrite Hz|rewrite Hz; cbn; lia|done].
Qed.

(** Claim order cannot affect payouts: the claims of two owners commute, with the same
    payouts and the same final model. *)
Theorem claims_commute m d o1 o2 m1 m12 p1 p2 :
  market_reachable m d -> o1 <> o2 -> Claim m o1 = Ok (m1, p1) -> Claim m1 o2 = Ok (m12, p2) ->
  exists m2, Claim m o2 = Ok (m2, p2) /\ Claim m2 o1 = Ok (m12, p1).
Proof.
  intros [Hinv _]%reachable_inv Hne H1 H2.
  destruct (Finalized m) eqn:Hf; [|by unfold Claim in H1; rewrite Hf in H1].
  apply Claim_iff in H1 as (a1 & E1 & -> & F1 & ->); [|done..].
  destruct (claimed_sound m Hinv Hf o1 a1 E1 F1) as (_ & Hinv1 & _).
  apply Claim_iff in H2 as (a2 & E2 & -> & F2 & ->); [|done..].
  cbn in E2. rewrite lookup_insert_ne in E2 by done.
  change (owed (claimed_by m o1 a1) a2) with (owed m a2) in *.
  destruct (claimed_sound m Hinv Hf o2 a2 E2 F2) as (_ & Hinv2 & _).
  exists (claimed_by m o2 a2). split; apply Claim_iff; try done.
  - exists a2. done.
  - exists a1. cbn. rewrite lookup_insert_ne by done. split_and!; try done.
    unfold claimed_by. cbn [LotPayout CompleteSets LockedCollateral Finalized FinalOutcome FinalBacking
      RemainingPayoutLiability CumulativeClaimedPayout Accounts].
    change (owed _ a2) with (owed m a2). change (owed _ a1) with (owed m a1).
    f_equal; [lia|lia|by rewrite insert_insert_ne].
Qed.

(** C38: In a finalized market whose deposits add up to less than 2^64, claiming every
    account, in any order, succeeds, pays out the whole remaining liability and leaves
    nothing owed: the payouts add up to the final backing.  (With larger deposits a claim
    can fail, because the balance of an account no longer fits in 64 bits.) *)
Theorem claims_drain m d owners :
  market_reachable m d -> d < two64 -> Finalized m = true ->
  (forall o, o ∈ owners <-> o ∈ dom (Accounts m)) ->
  exists m', claimAll m owners = Ok (m', RemainingPayoutLiability m) /\
    RemainingPayoutLiability m' = 0 /\ CumulativeClaimedPayout m' = FinalBacking m /\ total_backing m' = d.
Proof.
  intros [Hinv <-]%reachable_inv Hd Hf Hown.
  destruct (claimAll_sound owners m 0) as (m' & Hc & Hinv' & Hf' & Hfb & Hb & Hz & Hdom); try done.
  { intros o Ho. by apply elem_of_dom, Hown. }
  destruct (mi_final m' Hinv' Hf') as (_ & _ & _ & _ & Hr & Hsum).
  assert (RemainingPayoutLiability m' = 0) as H0.
  { rewrite Hr, map_sum_list. enough (Forall (eq 0) (owed m' <$> (map_to_list (Accounts m')).*2)) as HF
      by (induction HF as [|? ? <-]; [done|]; rewrite zsum_cons; lia).
    apply Forall_fmap, Forall_forall. intros a ([k b] & -> & Hin%elem_of_map_to_list)%list_elem_of_fmap.
    destruct (Hz k b Hin) as [Y N]; [left; apply Hown; rewrite <-Hdom; by eapply elem_of_dom_2|].
    unfold compose, owed. cbn. rewrite Y, N. repeat case_match; done. }
  exists m'. split_and!; [|done|lia|done]. unfold claimAll. rewrite Hc. do 2 f_equal. lia.
Qed.

(** C22: A match settles exactly: it executes at the maker's price, which satisfies the taker's
    limit; the YES and NO values are the exact shares of the notional at that price and add
    up to it (no rounding); the two parties' accounts move by the settlement of their own
    order (a buyer pays the value and gains the lots, a seller the converse); every other
    account is untouched; and the collateral of the market is conserved. *)
Theorem match_settles_exactly m d l r q m' am :
  market_reachable m d -> order_typed l -> order_typed r -> u64 q -> Match m l r q = Ok (m', am) ->
  exists maker taker, matchRoles l r = Ok (maker, taker) /\
    YesPrice am = (if Outcome maker =? OutcomeNo then PriceScale - LimitPriceTick maker else LimitPriceTick maker) /\
    orderAcceptsPrice taker (YesPrice am) (PriceScale - YesPrice am) = true /\
    Notional am = q * LotPayout m /\ YesValue am * PriceScale = Notional am * YesPrice am /\
    YesValue am + NoValue am = Notional am /\
    account_of m' (OwnerAddress maker) = settled am q maker (account_of m (OwnerAddress maker)) /\
    account_of m' (OwnerAddress taker) = settled am q taker (account_of m (OwnerAddress taker)) /\
    (forall o, o <> OwnerAddress maker -> o <> OwnerAddress taker -> account_of m' o = account_of m o) /\
    total_backing m' = total_backing m.
Proof.
  intros [Hinv _]%reachable_inv Hl Hr [Hq _] H.
  assert (forall o, o ∈ [l; r] -> order_typed o) as Ho
    by (intros o [->|[->|[]%elem_of_nil]%elem_of_cons]%elem_of_cons; done).
  apply Match_iff in H as (maker & taker & Hadm & Ha & _ & Hm'); [|done..].
  destruct (match_applies m Hinv l r maker taker q am m') as (_ & _ & _ & _ & Hb & Hacc); try done.
  destruct Hadm as (_ & Hq0 & Hne & Hroles & [r1 Hv1] & _).
  pose proof (owners_differ _ _ _ _ Hroles Hne) as Hne'.
  assert (order_typed maker) as Htm by (apply matchRoles_Ok in Hroles as [[[-> ->]|[-> ->]] _]; done).
  destruct (mi_payout m Hinv) as [? ?].
  eapply matchAmounts_exact in Ha as ([] & _ & ? & ?); eauto; [|lia].
  exists maker, taker. unfold account_of. rewrite Hacc. split_and!; try done.
  - by rewrite lookup_insert_ne, lookup_insert_eq.
  - by rewrite lookup_insert_eq.
  - intros o ? ?. by rewrite !lookup_insert_ne.
Qed.

(** On a reachable market the operations succeed exactly when their economic conditions
    hold, with exactly the stated effect: the overflow guards and the final self-check
    reject nothing else.  A deposit needs a canonical owner and room in the free balance;
    a split needs the collateral and room for the backing; a merge needs both positions
    and room in the free balance; a finalization needs an open market and a known outcome. *)
Theorem ledger_operations_exact m d o n :
  market_reachable m d -> u64 n ->
  (forall m', Deposit m o n = Ok m' <->
    is_ok (parseCanonicalAddress o) = true /\ Finalized m = false /\ n <> 0 /\
    Free (account_of m o) + n < two64 /\ m' = deposited m o n) /\
  (forall m', Split m o n = Ok m' <->
    Finalized m = false /\ n <> 0 /\ n * LotPayout m <= Free (account_of m o) /\
    (CompleteSets m + n) * LotPayout m < two64 /\ m' = converted m o n) /\
  (forall m', Merge m o n = Ok m' <->
    Finalized m = false /\ n <> 0 /\ n <= YesLots (account_of m o) /\ n <= NoLots (account_of m o) /\
    Free (account_of m o) + n * LotPayout m < two64 /\ m' = converted m o (- n)) /\
  (forall m', Finalize m n = Ok m' <->
    Finalized m = false /\ n <= OutcomeInvalid /\ m' = finalized_as m n).
Proof.
  intros [Hinv _]%reachable_inv [Hn _]. split_and!; intros m'.
  - rewrite Deposit_iff by done. destruct (parseCanonicalAddress o); cbn; naive_solver.
  - by apply Split_iff.
  - by apply Merge_iff.
  - by apply Finalize_iff.
Qed.

(** Merging what was just split gives back the very same market. *)
Theorem split_merge_roundtrip m d o q m' :
  market_reachable m d -> u64 q -> Split m o q = Ok m' -> Merge m' o q = Ok m.
Proof.
  intros [Hinv _]%reachable_inv [Hq Hq'] H. apply Split_iff in H as (Hf & Hq0 & Hfree & Hfit & ->); [|done..].
  pose proof (account_of_typed m o (mi_accts m Hinv)) as ([? ?] & [? ?] & [? ?]).
  destruct (open_positions_le m o Hinv Hf), (mi_payout m Hinv) as [? _], (mi_sets m Hinv).
  destruct (converted_sound m Hinv Hf o q) as (_ & Hinv' & _); try (red; nia); try nia.
  assert (account_of (converted m o q) o = {| Free := Free (account_of m o) - q * LotPayout m;
    YesLots := YesLots (account_of m o) + q; NoLots := NoLots (account_of m o) + q |}) as Ha
    by (unfold account_of at 1; cbn; by rewrite lookup_insert_eq).
  apply Merge_iff; [done..|]. rewrite Ha. cbn. split_and!; try done; try lia.
  assert (exists a, Accounts m !! o = Some a) as [a E].
  { unfold account_of in *. destruct (Accounts m !! o); [eauto|cbn in *; nia]. }
  unfold converted at 1. rewrite Ha. unfold converted, set_sets, set_account. cbn.
  replace (account_of m o) with a by (unfold account_of; by rewrite E).
  rewrite insert_insert_eq. destruct m as [P S L F O B R C A]. cbn in *. f_equal; try lia.
  etransitivity; [symmetry; apply (insert_id _ _ a E)|]. f_equal. destruct a. cbn. f_equal; lia.
Qed.

(** The self-check's verdict does not depend on Go's unspecified map iteration order,
    neither on a reachable market nor on any well-typed one. *)
Theorem self_checks_order_independent m l :
  accts_typed m -> u64 (CompleteSets m) -> u64 (LotPayout m) -> u64 (LockedCollateral m) ->
  u64 (RemainingPayoutLiability m) -> l ≡ₚ map_order m ->
  is_ok (CheckInvariants_in l m) = is_ok (CheckInvariants m) /\
  forall t, TotalBacking_in l m = Ok t <-> TotalBacking m = Ok t.
Proof.
  intros Ht Hs [Hp _] Hk Hr Hl. split.
  - destruct (Finalized m) eqn:Hf; [unfold CheckInvariants, CheckInvariants_in; by rewrite Hf|].
    unfold CheckInvariants. apply eq_bool_prop_intro.
    assert (forall r : result string unit, is_ok r <-> r = Ok tt) as Hok by (by intros [[]| |]; cbn; naive_solver).
    rewrite !Hok, !CheckInvariants_in_open by done. done.
  - intros t. unfold TotalBacking.
    rewrite !TotalBacking_in_iff by (done || destruct (Finalized m); assumption). done.
Qed.
End MarketProperties.

(** ** Order fills *)

Section Fills.
Context `{AL : AddressLib}.

Lemma ValidateOrderFill_iff o filled q mn now close :
  ValidateOrderFill o filled q mn now close = Ok tt <->
    is_ok (validateOrder o) = true /\ q <> 0 /\ filled <= QuantityLots o /\ q <= QuantityLots o - filled /\
    ValidAfter o <= now < ValidUntil o /\ ValidUntil o <= close /\
    (q = QuantityLots o - filled \/
     AllowPartial o = true /\ Z.max mn (MinFillLots o) <= q /\
     Z.max mn (MinFillLots o) <= QuantityLots o - filled - q).
Proof.
  unfold ValidateOrderFill. destruct (validateOrder o); cbn [is_ok mbind result_bind]; [|naive_solver..].
  replace (if mn <? MinFillLots o then MinFillLots o else mn) with (Z.max mn (MinFillLots o))
    by (destruct (Z.ltb_spec mn (MinFillLots o)); lia).
  split.
  - intros H. inv_ok. bounds. destruct (AllowPartial o); cbn [negb] in *; inv_ok;
      [|bounds; split_and!; done || lia || (left; done)].
    destruct (Z.eqb_spec q (QuantityLots o - filled)); cbn [negb andb] in *; bounds;
      split_and!; done || lia || (left; done) || (right; done).
  - intros (_ & ? & ? & ? & ? & ? & Hlast).
    assert (((q =? 0) || (QuantityLots o <? filled) || (QuantityLots o - filled <? q)) = false) as -> by lia.
    assert (((now <? ValidAfter o) || (ValidUntil o <=? now) || (close <? ValidUntil o)) = false) as -> by lia.
    cbn [orb fail_if mbind result_bind].
    destruct Hlast as [->|(-> & ? & ?)]; [rewrite Z.eqb_refl; by destruct (AllowPartial o)|].
    rewrite !(proj2 (Z.ltb_ge _ _)) by lia. cbn. by rewrite andb_false_r.
Qed.

(** Successive fills of one order, each a quantity at a time. *)
Definition fillAll (o : PredictionOrderV1) (mn close filled : Z) (fills : list (Z * Z)) : result string Z :=
  foldM (fun filled '(q, now) => ValidateOrderFill o filled q mn now close;; Ok (wrap64 (filled + q))) filled fills.

Lemma fillAll_sound o mn close filled fills filled' :
  order_typed o -> u64 filled -> Forall (fun f => u64 f.1) fills -> filled <= QuantityLots o ->
  fillAll o mn close filled fills = Ok filled' ->
  filled' = filled + zsum fills.*1 /\ filled' <= QuantityLots o /\
  (fills <> [] -> filled' = QuantityLots o \/
    AllowPartial o = true /\ Z.max mn (MinFillLots o) <= QuantityLots o - filled').
Proof.
  intros (_ & [? ?] & _) Hf Hfills. revert filled Hf. unfold fillAll.
  induction Hfills as [|[q now] fills [Hq0 Hq1] Hfills IH]; intros filled [? ?] Hle H'; cbn [foldM fmap list_fmap] in H'.
  - injection H' as <-. cbn. split_and!; try lia. done.
  - cbn in Hq0, Hq1. apply bind_Ok in H' as (f1 & ([] & (_ & ? & ? & ? & ? & ? & Hlast)%ValidateOrderFill_iff & [= <-])%bind_Ok & Hrest).
    rewrite wrap64_small in Hrest by (red; lia).
    destruct (IH (filled + q)) as (-> & ? & Hl); [red; lia|lia|done|]. cbn [fst fmap list_fmap]. rewrite zsum_cons.
    split_and!; [lia|lia|]. intros _. destruct fills as [|f fills]; [|by apply Hl].
    cbn. destruct Hlast as [?|(? & ? & ?)]; [left; lia|right; split; [done|lia]].
Qed.

(** However an order is filled, one accepted fill after the other, it is never overfilled,
    and after each accepted sequence either the order is completely filled or it allows
    partial fills and what is left is at least the effective minimum, so no dust remains. *)
Theorem fills_never_overfill o mn close fills filled :
  order_typed o -> Forall (fun f => u64 f.1) fills -> fills <> [] ->
  fillAll o mn close 0 fills = Ok filled ->
  filled = zsum fills.*1 /\ filled <= QuantityLots o /\
  (filled = QuantityLots o \/ AllowPartial o = true /\ Z.max mn (MinFillLots o) <= QuantityLots o - filled).
Proof.
  intros Ho Hf Hne H. pose proof Ho as (_ & [? ?] & _).
  eapply fillAll_sound in H as (-> & ? & ?); eauto; red; lia || done.
Qed.
End Fills.

(** ** The properties at a concrete market

    Two owners deposit, a buy of YES at 0.6 meets a buy of NO at 0.5, the taker then sells
    part of its NO lots back; the market is finalized as NO. *)
Module Sample.
#[local] Existing Instance sampleAddressLib.

Definition alice : string := "1".
Definition bob : string := "2".

Definition sample_order (owner : string) (nonce action outcome role quantity tick : Z) : PredictionOrderV1 :=
  {| GlobalID := -3; WorkchainID := 0; MarketAddress := "9";
     MarketConfigHash := sample_hash 7; OwnerAddress := owner; KeyEpoch := 1; Nonce := nonce;
     Salt := sample_hash 8; Action := action; Outcome := outcome; LiquidityRole := role;
     QuantityLots := quantity; MinFillLots := 1; AllowPartial := true; LimitPriceTick := tick;
     ValidAfter := 100; ValidUntil := 200; OptionalCounterparty := None |}.

Definition buy_yes := sample_order alice 1 ActionBuy OutcomeYes RoleMaker 5 6000.
Definition buy_no := sample_order bob 2 ActionBuy OutcomeNo RoleTaker 5 5000.

Definition opening : list operation :=
  [OpDeposit alice 100000; OpDeposit bob 70000; OpMatch buy_yes buy_no 4; OpSplit alice 2; OpMerge bob 9].
Definition closing : list operation := opening ++ [OpFinalize OutcomeNo; OpDeposit bob 5].

Definition fresh : ReferenceModel :=
  {| LotPayout := 10000; CompleteSets := 0; LockedCollateral := 0; Finalized := false;
     FinalOutcome := 0; FinalBacking := 0; RemainingPayoutLiability := 0;
     CumulativeClaimedPayout := 0; Accounts := ∅ |}.
Definition balances : gmap string AccountBalance :=
  <[alice := {| Free := 56000; YesLots := 6; NoLots := 2 |}]>
  (<[bob := {| Free := 54000; YesLots := 0; NoLots := 4 |}]> ∅).
Definition open_market : ReferenceModel :=
  {| LotPayout := 10000; CompleteSets := 6; LockedCollateral := 60000; Finalized := false;
     FinalOutcome := 0; FinalBacking := 0; RemainingPayoutLiability := 0;
     CumulativeClaimedPayout := 0; Accounts := balances |}.
Definition closed_market : ReferenceModel :=
  {| LotPayout := 10000; CompleteSets := 6; LockedCollateral := 0; Finalized := true;
     FinalOutcome := OutcomeNo; FinalBacking := 60000; RemainingPayoutLiability := 60000;
     CumulativeClaimedPayout := 0; Accounts := balances |}.

Lemma order_typed_sample o : o = buy_yes \/ o = buy_no -> order_typed o.
Proof. intros [-> | ->]; repeat split; vm_compute; done. Qed.

Lemma opening_typed : Forall operation_typed opening.
Proof. repeat constructor; vm_compute; done. Qed.

Lemma closing_typed : Forall operation_typed closing.
Proof. apply Forall_app. split; [apply opening_typed|]. repeat constructor; vm_compute; done. Qed.

Lemma open_reachable : market_reachable open_market 170000.
Proof. exists 10000, fresh, opening. split_and!; [vm_compute; done|done|apply opening_typed|vm_compute; done]. Qed.

Lemma closed_reachable : market_reachable closed_market 170000.
Proof. exists 10000, fresh, closing. split_and!; [vm_compute; done|done|apply closing_typed|vm_compute; done]. Qed.

Lemma market_conservation_witness : total_backing (run fresh closing).1 = 170000.
Proof.
  destruct (market_conservation 10000 fresh closing) as [_ ->]; [vm_compute; done|done|apply closing_typed|].
  vm_compute. reflexivity.
Defined.

(** Bob holds four NO lots. *)
Lemma claim_pays_owed_witness : exists m', Claim closed_market bob = Ok (m', 40000).
Proof.
  destruct (claim_pays_owed closed_market 170000 bob {| Free := 54000; YesLots := 0; NoLots := 4 |})
    as (m' & Hc & _); [apply closed_reachable|done|vm_compute; done|vm_compute; done|].
  exists m'. exact Hc.
Defined.

Lemma claims_commute_witness : exists m1 m12 m2,
  Claim closed_market alice = Ok (m1, 20000) /\ Claim m1 bob = Ok (m12, 40000) /\
  Claim closed_market bob = Ok (m2, 40000) /\ Claim m2 alice = Ok (m12, 20000).
Proof.
  destruct (Claim closed_market alice) as [[m1 p1]| |] eqn:E1; [|vm_compute in E1; discriminate E1..].
  destruct (Claim m1 bob) as [[m12 p2]| |] eqn:E2;
    [|vm_compute in E1; injection E1 as <- _; vm_compute in E2; discriminate E2..].
  assert (alice <> bob) as Hne by (vm_compute; discriminate).
  destruct (claims_commute closed_market 170000 alice bob m1 m12 p1 p2 closed_reachable Hne E1 E2) as (m2 & H1 & H2).
  assert (p1 = 20000) as -> by (vm_compute in E1; by injection E1).
  assert (p2 = 40000) as -> by (vm_compute in H1; by injection H1).
  exists m1, m12, m2. exact (conj eq_refl (conj E2 (conj H1 H2))).
Defined.

Lemma claims_drain_witness : exists m', claimAll closed_market [bob; alice] = Ok (m', 60000).
Proof.
  destruct (claims_drain closed_market 170000 [bob; alice]) as (m' & Hc & _);
    [apply closed_reachable|done|vm_compute; done| |].
  - intros o. cbn [Accounts closed_market]. unfold balances. rewrite !dom_insert_L, dom_empty_L.
    rewrite !elem_of_cons, elem_of_nil, !elem_of_union, !elem_of_singleton, elem_of_empty. tauto.
  - exists m'. exact Hc.
Defined.

Lemma match_settles_exactly_witness : exists m' am,
  Match open_market buy_yes buy_no 1 = Ok (m', am) /\ Notional am = 10000 /\
  YesValue am * PriceScale = 10000 * YesPrice am /\ total_backing m' = total_backing open_market.
Proof.
  destruct (Match open_market buy_yes buy_no 1) as [[m' am]| |] eqn:E; [|vm_compute in E; discriminate E..].
  destruct (match_settles_exactly open_market 170000 buy_yes buy_no 1 m' am open_reachable
    (order_typed_sample _ (or_introl eq_refl)) (order_typed_sample _ (or_intror eq_refl)) (u64_lit 1 eq_refl) E)
    as (maker & taker & _ & _ & _ & Hn & Hy & _ & _ & _ & _ & Hb).
  rewrite Hn in Hy. exists m', am. exact (conj eq_refl (conj Hn (conj Hy Hb))).
Defined.

Lemma ledger_operations_exact_witness : Merge open_market alice 2 = Ok (converted open_market alice (-2)).
Proof.
  destruct (ledger_operations_exact open_market 170000 alice 2) as (_ & _ & Hm & _);
    [apply open_reachable|vm_compute; done|].
  apply Hm. vm_compute. done.
Defined.

Lemma split_merge_roundtrip_witness : exists m', Split open_market bob 3 = Ok m' /\ Merge m' bob 3 = Ok open_market.
Proof.
  destruct (Split open_market bob 3) as [m'| |] eqn:E; [|vm_compute in E; discriminate E..].
  exists m'. split; [reflexivity|].
  exact (split_merge_roundtrip open_market 170000 bob 3 m' open_reachable (u64_lit 3 eq_refl) E).
Defined.

Lemma self_checks_order_independent_witness :
  is_ok (CheckInvariants_in (reverse (map_order open_market)) open_market) = true.
Proof.
  destruct (self_checks_order_independent open_market (reverse (map_order open_market))) as [-> _];
    [|vm_compute; done..| |vm_compute; done].
  - apply (reachable_inv open_market 170000 open_reachable).
  - apply reverse_Permutation.
Defined.

Lemma fills_never_overfill_witness : fillAll buy_yes 2 300 0 [(2, 150); (3, 160)] = Ok 5 /\ 5 <= QuantityLots buy_yes.
Proof.
  split; [vm_compute; done|].
  apply (fills_never_overfill buy_yes 2 300 [(2, 150); (3, 160)] 5);
    [exact (order_typed_sample _ (or_introl eq_refl))|repeat constructor; vm_compute; done|done|vm_compute; done].
Defined.
End Sample.
