(* ===== verification/Sha256.v ===== *)
(** * SHA-256 (Go's crypto/sha256, with encoding/hex and encoding/binary)

    The standard library's hash as an executable function on byte strings
    (FIPS 180-4: padding, message schedule, 64 rounds per block).  Nothing
    assumes that it has no collisions: a result that needs two particular hashes
    to differ names them in its hypotheses. *)

From S2P Require Import Prelude.

Definition bytes_of (s : string) : list Z := byte_val <$> String.list_ascii_of_string s.
Definition of_bytes (l : list Z) : string :=
  String.string_of_list_ascii ((fun z => ascii_of_N (Z.to_N z)) <$> l).

(** Big-endian encodings ([binary.BigEndian.PutUint32] and the like). *)
Fixpoint be_bytes (n : nat) (z : Z) : list Z :=
  match n with O => [] | S n => be_bytes n (z / 256) ++ [z mod 256] end.
Definition be_value (l : list Z) : Z := foldl (fun acc b => acc * 256 + b) 0 l.
Definition PutUint16 (z : Z) : string := of_bytes (be_bytes 2 z).
Definition PutUint32 (z : Z) : string := of_bytes (be_bytes 4 z).
Definition PutUint64 (z : Z) : string := of_bytes (be_bytes 8 z).

(** The low 32 bits, as the uint32 arithmetic keeps them. *)
Definition low32 (z : Z) : Z := Z.land z 0xffffffff.
Definition rotr (x n : Z) : Z := Z.lor (Z.shiftr x n) (low32 (Z.shiftl x (32 - n))).
Definition sha_ch (x y z : Z) : Z := Z.lxor (Z.land x y) (Z.land (Z.lxor x 0xffffffff) z).
Definition sha_maj (x y z : Z) : Z := Z.lxor (Z.lxor (Z.land x y) (Z.land x z)) (Z.land y z).
Definition sha_S0 (x : Z) : Z := Z.lxor (Z.lxor (rotr x 2) (rotr x 13)) (rotr x 22).
Definition sha_S1 (x : Z) : Z := Z.lxor (Z.lxor (rotr x 6) (rotr x 11)) (rotr x 25).
Definition sha_s0 (x : Z) : Z := Z.lxor (Z.lxor (rotr x 7) (rotr x 18)) (Z.shiftr x 3).
Definition sha_s1 (x : Z) : Z := Z.lxor (Z.lxor (rotr x 17) (rotr x 19)) (Z.shiftr x 10).

(** The round constants are the first 32 bits of the fractional parts of the cube
    roots of the first 64 primes, the initial state those of the square roots of
    the first eight. *)
Definition is_prime (n : nat) : bool :=
  forallb (fun d => negb (n mod d =? 0)%nat) (seq 2 (n - 2)).
Definition primes (n : nat) : list Z := Z.of_nat <$> filter (fun k => is_prime k = true) (seq 2 n).

(** The largest [r < 2 ^ bits] with [r ^ k <= n], one bit at a time. *)
Fixpoint root_below (bits : nat) (k n r : Z) : Z :=
  match bits with
  | O => r
  | S b => let r' := r + 2 ^ Z.of_nat b in root_below b k n (if r' ^ k <=? n then r' else r)
  end.
Definition root_fraction (k p : Z) : Z := wrap32 (root_below 40 k (p * 2 ^ (32 * k)) 0).

Definition sha_K : list Z := Eval vm_compute in root_fraction 3 <$> primes 310.
Definition sha_init : list Z := Eval vm_compute in root_fraction 2 <$> primes 18.

(** The message schedule, built newest word first. *)
Fixpoint sha_extend (n : nat) (rev_w : list Z) : list Z :=
  match n with
  | O => rev_w
  | S n =>
      let at_ i := default 0 (rev_w !! i) in
      sha_extend n (low32 (sha_s1 (at_ 1%nat) + at_ 6%nat + sha_s0 (at_ 14%nat) + at_ 15%nat) :: rev_w)
  end.

Fixpoint sha_words (l : list Z) : list Z :=
  match l with
  | a :: b :: c :: d :: l' => be_value [a; b; c; d] :: sha_words l'
  | _ => []
  end.

Definition sha_round (st : list Z) (kw : Z * Z) : list Z :=
  match st with
  | [a; b; c; d; e; f; g; h] =>
      let t1 := h + sha_S1 e + sha_ch e f g + kw.1 + kw.2 in
      let t2 := sha_S0 a + sha_maj a b c in
      [low32 (t1 + t2); a; b; c; low32 (d + t1); e; f; g]
  | _ => st
  end.

Definition sha_block (st : list Z) (block : list Z) : list Z :=
  let w := reverse (sha_extend 48 (reverse (sha_words block))) in
  zip_with (fun x y => low32 (x + y)) st (foldl sha_round st (zip sha_K w)).

Definition sha_pad (l : list Z) : list Z :=
  let n := Z.of_nat (length l) in
  l ++ 0x80 :: replicate (Z.to_nat ((55 - n) mod 64)) 0 ++ be_bytes 8 (8 * n).

Fixpoint sha_blocks (fuel : nat) (st l : list Z) : list Z :=
  match fuel, l with
  | S fuel, _ :: _ => sha_blocks fuel (sha_block st (take 64 l)) (drop 64 l)
  | _, _ => st
  end.

(** [sha256.Sum256] *)
Definition Sum256 (s : string) : string :=
  let padded := sha_pad (bytes_of s) in
  of_bytes (sha_blocks (length padded) sha_init padded ≫= be_bytes 4).

Definition sha256_hex (s : string) : string := hex_EncodeToString (Sum256 s).

Example sha256_empty :
  sha256_hex "" = "e3b0c44298fc1c149afbf4c8996fb92427ae41e4649b934ca495991b7852b855"%string.
Proof. vm_compute. reflexivity. Qed.

Example sha256_two_blocks :
  sha256_hex "abcdbcdecdefdefgefghfghighijhijkijkljklmklmnlmnomnopnopq"
  = "248d6a61d20638b8e5c026930c3e6039a33ce45964ff2167f6ecedd419db06c1"%string.
Proof. vm_compute. reflexivity. Qed.

Lemma be_bytes_length n z : length (be_bytes n z) = n.
Proof. revert z. induction n as [|n IH]; intros z; [done|]. cbn. rewrite length_app, IH. cbn. lia. Qed.

Lemma be_bytes_range n z : Forall (fun b => 0 <= b < 256) (be_bytes n z).
Proof.
  revert z. induction n as [|n IH]; intros z; cbn; [done|].
  apply Forall_app. split; [done|]. constructor; [|done]. apply Z.mod_pos_bound. lia.
Qed.

Lemma be_value_bytes n z : 0 <= z < 256 ^ Z.of_nat n -> be_value (be_bytes n z) = z.
Proof.
  unfold be_value. revert z. induction n as [|n IH]; intros z Hz; [cbn in *; lia|].
  cbn [be_bytes]. rewrite foldl_app. cbn [foldl]. rewrite IH.
  - rewrite (Z.div_mod z 256) at 3 by lia. lia.
  - rewrite Nat2Z.inj_succ, Z.pow_succ_r in Hz by lia. split; [apply Z.div_pos; lia|].
    apply Z.div_lt_upper_bound; lia.
Qed.

Lemma of_bytes_length l : slen (of_bytes l) = Z.of_nat (length l).
Proof. unfold slen, of_bytes. induction l as [|a l IH]; [done|]. cbn -[Z.of_nat] in *. lia. Qed.

Lemma bytes_of_length s : length (bytes_of s) = String.length s.
Proof. unfold bytes_of. rewrite length_fmap. induction s as [|c s IH]; [done|]. cbn. by rewrite IH. Qed.

Lemma bytes_of_of_bytes l : Forall (fun b => 0 <= b < 256) l -> bytes_of (of_bytes l) = l.
Proof.
  unfold bytes_of, of_bytes. rewrite String.list_ascii_of_string_of_list_ascii.
  induction 1 as [|b l Hb Hl IH]; [done|]. cbn. f_equal; [|done].
  unfold byte_val. rewrite N_ascii_embedding by lia. lia.
Qed.

Lemma of_bytes_bytes_of s : of_bytes (bytes_of s) = s.
Proof.
  unfold bytes_of, of_bytes. rewrite <-list_fmap_compose.
  etransitivity; [|apply String.string_of_list_ascii_of_string].
  f_equal. etransitivity; [|apply list_fmap_id]. apply list_fmap_ext. intros i c _. cbn.
  unfold byte_val. by rewrite N2Z.id, ascii_N_embedding.
Qed.

Lemma of_bytes_app a b : of_bytes (a ++ b) = of_bytes a +:+ of_bytes b.
Proof.
  unfold of_bytes. rewrite fmap_app. induction (_ <$> a) as [|c l IH]; [done|]. cbn. by rewrite IH.
Qed.

Lemma bytes_of_app a b : bytes_of (a +:+ b) = bytes_of a ++ bytes_of b.
Proof. unfold bytes_of. induction a as [|c a IH]; [done|]. rewrite app_cons_str. cbn. by rewrite IH. Qed.

Lemma bytes_of_inj a b : bytes_of a = bytes_of b -> a = b.
Proof. intros H. by rewrite <-(of_bytes_bytes_of a), H, of_bytes_bytes_of. Qed.

Lemma be_bytes_value l : Forall (fun b => 0 <= b < 256) l -> be_bytes (length l) (be_value l) = l.
Proof.
  unfold be_value. induction l as [|b l IH] using rev_ind; intros H; [done|]. apply Forall_app in H as [Hl Hb].
  inversion_clear Hb as [|? ? Hb' _]. rewrite foldl_app, length_app, Nat.add_comm. cbn [length plus foldl be_bytes].
  rewrite Z.div_add_l, (Z.div_small b), Z.add_0_r, IH by (done || lia). f_equal.
  by rewrite Z.add_comm, Z.mod_add, Z.mod_small by lia.
Qed.

Lemma be_value_range l : Forall (fun b => 0 <= b < 256) l -> 0 <= be_value l < 256 ^ Z.of_nat (length l).
Proof.
  unfold be_value. induction l as [|b l IH] using rev_ind; intros H; [done|]. apply Forall_app in H as [Hl Hb].
  inversion_clear Hb as [|? ? Hb' _]. specialize (IH Hl). rewrite foldl_app, length_app, Nat.add_comm. cbn [length plus foldl].
  rewrite Nat2Z.inj_succ, Z.pow_succ_r by lia. lia.
Qed.

Lemma bytes_of_range s : Forall (fun b => 0 <= b < 256) (bytes_of s).
Proof.
  apply Forall_fmap, Forall_true. intros c. unfold compose, byte_val. pose proof (N_ascii_bounded c). lia.
Qed.

Lemma put_length n z : slen (of_bytes (be_bytes n z)) = Z.of_nat n.
Proof. by rewrite of_bytes_length, be_bytes_length. Qed.

Lemma put_same_length n x y : String.length (of_bytes (be_bytes n x)) = String.length (of_bytes (be_bytes n y)).
Proof. pose proof (put_length n x). pose proof (put_length n y). unfold slen in *. lia. Qed.

Lemma put_inj n x y : 0 <= x < 256 ^ Z.of_nat n -> 0 <= y < 256 ^ Z.of_nat n ->
  of_bytes (be_bytes n x) = of_bytes (be_bytes n y) -> x = y.
Proof.
  intros Hx Hy H. apply (f_equal bytes_of) in H. rewrite !bytes_of_of_bytes in H by apply be_bytes_range.
  rewrite <-(be_value_bytes n x), <-(be_value_bytes n y) by done. by f_equal.
Qed.

Lemma PutUint32_length z : slen (PutUint32 z) = 4.
Proof. exact (put_length 4 z). Qed.

Lemma PutUint32_inj x y : 0 <= x < two32 -> 0 <= y < two32 -> PutUint32 x = PutUint32 y -> x = y.
Proof. exact (put_inj 4 x y). Qed.

(** *** Length-prefixed texts *)

Definition framed (n : nat) (s : string) : string := of_bytes (be_bytes n (slen s)) +:+ s.

Lemma framed_inj n a b x y : slen a < 256 ^ Z.of_nat n -> slen b < 256 ^ Z.of_nat n ->
  framed n a +:+ x = framed n b +:+ y -> a = b /\ x = y.
Proof.
  unfold framed. rewrite !app_assoc_str. intros Ha Hb H.
  apply app_inj_len in H as [Hp H]; [|apply put_same_length].
  apply put_inj in Hp; [|pose proof (slen_nonneg a); lia|pose proof (slen_nonneg b); lia].
  apply app_inj_len in H; [done|]. unfold slen in Hp. lia.
Qed.

(** Two given texts that differ and have one hash.  Such texts exist, so the theorems
    that depend on the hash name the texts that the code hashed. *)
Definition collides (a b : string) : Prop := a <> b /\ Sum256 a = Sum256 b.

(** One side hashed a text of [A], the other a text of [B], and the two collide. *)
Definition collision_between (A B : list string) : Prop := exists a b, a ∈ A /\ b ∈ B /\ collides a b.

Lemma Sum256_inj a b : Sum256 a = Sum256 b -> a = b \/ collides a b.
Proof. intros H. destruct (decide (a = b)); [by left|right; by split]. Qed.

Lemma texts_between A B n a b : A !! n = Some a -> B !! n = Some b -> collides a b -> collision_between A B.
Proof. intros H1%list_elem_of_lookup_2 H2%list_elem_of_lookup_2 H. exists a, b. exact (conj H1 (conj H2 H)). Qed.

(** *** The digest has 32 bytes *)

Lemma sha_round_length st kw : length st = 8%nat -> length (sha_round st kw) = 8%nat.
Proof. intros H. do 9 (destruct st as [|? st]; try done). Qed.

Lemma sha_block_length st b : length st = 8%nat -> length (sha_block st b) = 8%nat.
Proof.
  intros H. unfold sha_block. rewrite length_zip_with.
  enough (length (foldl sha_round st (zip sha_K (reverse (sha_extend 48 (reverse (sha_words b)))))) = 8%nat) by lia.
  generalize (zip sha_K (reverse (sha_extend 48 (reverse (sha_words b))))). intros l. revert st H.
  induction l as [|kw l IH]; intros st H; [done|]. cbn. by apply IH, sha_round_length.
Qed.

Lemma Sum256_length s : slen (Sum256 s) = 32.
Proof.
  unfold Sum256. rewrite of_bytes_length. set (p := sha_pad _).
  assert (forall fuel st l, length st = 8%nat -> length (sha_blocks fuel st l) = 8%nat) as H.
  { induction fuel as [|fuel IH]; intros st l Hst; [done|]. destruct l; cbn; [done|]. by apply IH, sha_block_length. }
  specialize (H (length p) sha_init p eq_refl). generalize dependent (sha_blocks (length p) sha_init p).
  intros l Hl. do 9 (destruct l as [|? l]; try done).
Qed.
