(* ===== verification/Text.v ===== *)
(** * Go's texts: UTF-8 and JSON strings (unicode/utf8, encoding/json)

    Which byte strings are valid UTF-8, what the JSON encoder makes of a string,
    and the text of a JSON object. *)

From S2P Require Import Prelude.

(** ** Text through encoding/json

    Marshalling replaces each byte that is not part of a valid UTF-8 sequence by
    U+FFFD; unmarshalling gives back every other text unchanged. *)

Definition between (lo hi : Z) (c : ascii) : bool := (lo <=? byte_val c) && (byte_val c <=? hi).
Definition continuation : ascii -> bool := between 0x80 0xbf.

Definition size_if (b : bool) (n : nat) : nat := if b then n else O.

(** Go's [utf8.DecodeRuneInString]: the length of the valid sequence at the
    head of [String c s], or 0. *)
Definition rune_size (c : ascii) (s : string) : nat :=
  if between 0 0x7f c then 1%nat
  else match s with
  | String c1 s1 =>
      if between 0xc2 0xdf c then size_if (continuation c1) 2
      else match s1 with
      | String c2 s2 =>
          let second lo hi := between lo hi c1 && continuation c2 in
          if between 0xe0 0xe0 c then size_if (second 0xa0 0xbf) 3
          else if between 0xed 0xed c then size_if (second 0x80 0x9f) 3
          else if between 0xe1 0xef c then size_if (second 0x80 0xbf) 3
          else match s2 with
          | String c3 _ =>
              let third lo hi := second lo hi && continuation c3 in
              if between 0xf0 0xf0 c then size_if (third 0x90 0xbf) 4
              else if between 0xf1 0xf3 c then size_if (third 0x80 0xbf) 4
              else if between 0xf4 0xf4 c then size_if (third 0x80 0x8f) 4
              else 0%nat
          | EmptyString => 0%nat
          end
      | EmptyString => 0%nat
      end
  | EmptyString => 0%nat
  end.

Definition replacement_char (rest : string) : string :=
  String (ascii_of_N 0xef) (String (ascii_of_N 0xbf) (String (ascii_of_N 0xbd) rest)).

Fixpoint json_text (s : string) : string :=
  match s with
  | EmptyString => EmptyString
  | String c s0 =>
      match rune_size c s0, s0 with
      | 1%nat, _ => String c (json_text s0)
      | 2%nat, String c1 s1 => String c (String c1 (json_text s1))
      | 3%nat, String c1 (String c2 s2) => String c (String c1 (String c2 (json_text s2)))
      | 4%nat, String c1 (String c2 (String c3 s3)) =>
          String c (String c1 (String c2 (String c3 (json_text s3))))
      | _, _ => replacement_char (json_text s0)
      end
  end.

Definition utf8_ok (s : string) : bool := bool_decide (json_text s = s).

(** The quoted text [json.Marshal] writes (with its HTML-safe escapes), for the
    limits on file sizes. *)
Definition hex_escape (n : N) : string :=
  "\u00" +:+ hex_EncodeToString (String (ascii_of_N n) EmptyString).

Definition json_escape (c : ascii) : string :=
  let b := byte_val c in
  if b =? 0x22 then String "\" (String c EmptyString)
  else if b =? 0x5c then "\\"
  else if b =? 0x08 then "\b"
  else if b =? 0x0c then "\f"
  else if b =? 0x0a then "\n"
  else if b =? 0x0d then "\r"
  else if b =? 0x09 then "\t"
  else if (b <? 0x20) || (b =? 0x3c) || (b =? 0x3e) || (b =? 0x26) then hex_escape (N_of_ascii c)
  else String c EmptyString.

Fixpoint json_body (s : string) : string :=
  match s with
  | EmptyString => EmptyString
  | String c s0 =>
      match rune_size c s0, s0 with
      | 1%nat, _ => json_escape c +:+ json_body s0
      | 2%nat, String c1 s1 => String c (String c1 (json_body s1))
      | 3%nat, String c1 (String c2 s2) =>
          if (byte_val c =? 0xe2) && (byte_val c1 =? 0x80) && ((byte_val c2 =? 0xa8) || (byte_val c2 =? 0xa9))
          then (if byte_val c2 =? 0xa8 then "\u2028" else "\u2029") +:+ json_body s2
          else String c (String c1 (String c2 (json_body s2)))
      | 4%nat, String c1 (String c2 (String c3 s3)) =>
          String c (String c1 (String c2 (String c3 (json_body s3))))
      | _, _ => "\ufffd" +:+ json_body s0
      end
  end.

Definition quote : string := String (ascii_of_N 34) EmptyString.
Definition json_quote (s : string) : string := quote +:+ json_body s +:+ quote.

(** An object with the given members, in order. *)
Definition json_object (members : list (string * string)) : string :=
  "{" +:+ join_strings "," ((fun m => quote +:+ m.1 +:+ quote +:+ ":" +:+ m.2) <$> members) +:+ "}".

(** [utf8.ValidString]: replacing invalid bytes changes the text exactly when there are some. *)
Abbreviation ValidString := utf8_ok.

Definition nonempty (s : string) : bool := negb (bool_decide (s = ""%string)).

Lemma json_text_ascii s : all_bytes (between 0 0x7f) s = true -> json_text s = s.
Proof.
  induction s as [|c s IH]; [done|]. cbn [all_bytes]. intros [Hc Hs]%andb_true_iff. cbn [json_text].
  unfold rune_size. rewrite Hc. by rewrite IH.
Qed.

Lemma all_bytes_impl (p q : ascii -> bool) s :
  (forall c, p c = true -> q c = true) -> all_bytes p s = true -> all_bytes q s = true.
Proof. intros H. induction s as [|c s IH]; [done|]. cbn. rewrite !andb_true_iff. naive_solver. Qed.

Lemma utf8_ok_text s : utf8_ok s = true -> json_text s = s.
Proof. apply bool_decide_eq_true_1. Qed.

(** ** Comparing texts *)

Definition streq (a b : string) : bool := bool_decide (a = b).
Definition one_of (a : string) (l : list string) : bool := existsb (streq a) l.

Lemma streq_true a b : streq a b = true <-> a = b.
Proof. apply bool_decide_eq_true. Qed.

Lemma one_of_true a l : one_of a l = true <-> a ∈ l.
Proof.
  unfold one_of. rewrite existsb_exists. setoid_rewrite streq_true. setoid_rewrite <- list_elem_of_In.
  split; [by intros (x & Hx & <-)|eauto].
Qed.

(** ** Texts of identifiers and sorted lists *)

Definition bytes (l : list N) : string := foldr (fun n s => String (ascii_of_N n) s) "" l.

(** The encodings of the characters [strings.TrimSpace] removes. *)
Definition space_encodings : list string :=
  bytes <$> [[0x09]; [0x0a]; [0x0b]; [0x0c]; [0x0d]; [0x20]; [0xc2; 0x85]; [0xc2; 0xa0]; [0xe1; 0x9a; 0x80];
             [0xe2; 0x80; 0x80]; [0xe2; 0x80; 0x81]; [0xe2; 0x80; 0x82]; [0xe2; 0x80; 0x83]; [0xe2; 0x80; 0x84];
             [0xe2; 0x80; 0x85]; [0xe2; 0x80; 0x86]; [0xe2; 0x80; 0x87]; [0xe2; 0x80; 0x88]; [0xe2; 0x80; 0x89];
             [0xe2; 0x80; 0x8a]; [0xe2; 0x80; 0xa8]; [0xe2; 0x80; 0xa9]; [0xe2; 0x80; 0xaf]; [0xe2; 0x81; 0x9f];
             [0xe3; 0x80; 0x80]]%N.

(** [strings.TrimSpace(value) == value], for valid UTF-8. *)
Definition trimmed (value : string) : bool :=
  negb (existsb (HasPrefix value) space_encodings) && negb (existsb (HasSuffix value) space_encodings).

Definition zlen {A} (l : list A) : Z := Z.of_nat (length l).

(** Texts in strictly increasing order, the first above the empty text. *)
Fixpoint ascending (previous : string) (l : list string) : bool :=
  match l with
  | [] => true
  | value :: l => bool_decide (bytes_lt previous value) && ascending value l
  end.

(** Texts in strictly increasing order, with no bound on the first. *)
Definition ascending_list (l : list string) : bool :=
  match l with [] => true | value :: l => ascending value l end.
