(* ===== verification/Base64.v ===== *)
(** * encoding/base64: [RawURLEncoding], and the texts of keys and signatures

    The unpadded URL-safe alphabet, on byte strings, and the ["ed25519:"] texts that
    several packages read: a hexadecimal key, a base64 signature, and nothing that is
    not the encoding of what it decodes to. *)

From S2P Require Import Prelude Sha256 Text.

Definition b64_char (n : Z) : Z :=
  if n <? 26 then 65 + n else if n <? 52 then 71 + n else if n <? 62 then n - 4 else if n =? 62 then 45 else 95.

Definition b64_value (c : Z) : option Z :=
  if (65 <=? c) && (c <=? 90) then Some (c - 65)
  else if (97 <=? c) && (c <=? 122) then Some (c - 71)
  else if (48 <=? c) && (c <=? 57) then Some (c + 4)
  else if c =? 45 then Some 62
  else if c =? 95 then Some 63
  else None.

(** Groups of six bits. *)
Fixpoint sextets (l : list Z) : list Z :=
  match l with
  | a :: b :: c :: l => a / 4 :: a mod 4 * 16 + b / 16 :: b mod 16 * 4 + c / 64 :: c mod 64 :: sextets l
  | [a; b] => [a / 4; a mod 4 * 16 + b / 16; b mod 16 * 4]
  | [a] => [a / 4; a mod 4 * 16]
  | [] => []
  end.

(** Bits left over at the end are dropped. *)
Fixpoint octets (l : list Z) : option (list Z) :=
  match l with
  | a :: b :: c :: d :: l =>
      (fun r => a * 4 + b / 16 :: b mod 16 * 16 + c / 4 :: c mod 4 * 64 + d :: r) <$> octets l
  | [a; b; c] => Some [a * 4 + b / 16; b mod 16 * 16 + c / 4]
  | [a; b] => Some [a * 4 + b / 16]
  | [a] => None
  | [] => Some []
  end.

Definition base64_EncodeToString (s : string) : string := of_bytes (b64_char <$> sextets (bytes_of s)).

(** A line break is skipped by Go's decoder and refused here; no encoding has one. *)
Definition base64_DecodeString (s : string) : option string :=
  of_bytes <$> (mapM b64_value (bytes_of s) ≫= octets).

Example base64_example : base64_EncodeToString "any carnal pleas~?" = "YW55IGNhcm5hbCBwbGVhc34_"%string.
Proof. vm_compute. reflexivity. Qed.

Definition octet (b : Z) : Prop := 0 <= b < 256.
Definition sextet (b : Z) : Prop := 0 <= b < 64.

(** Induction by threes. *)
Lemma list_ind3 {A} (P : list A -> Prop) :
  P [] -> (forall a, P [a]) -> (forall a b, P [a; b]) -> (forall a b c l, P l -> P (a :: b :: c :: l)) -> forall l, P l.
Proof. intros H0 H1 H2 H3. fix IH 1. intros [|a [|b [|c l]]]; [exact H0|apply H1|apply H2|]. apply H3, IH. Qed.

Lemma sextets_range l : Forall octet l -> Forall sextet (sextets l).
Proof.
  unfold octet, sextet. induction l as [|a|a b|a b c l IH] using list_ind3; cbn [sextets]; rewrite ?Forall_cons; intros; destruct_and?;
    repeat split; try dlia; auto.
Qed.

Lemma octets_sextets l : Forall octet l -> octets (sextets l) = Some l.
Proof.
  unfold octet. induction l as [|a|a b|a b c l IH] using list_ind3; cbn [sextets octets]; rewrite ?Forall_cons; intros; destruct_and?.
  - done.
  - do 2 f_equal. dlia.
  - do 2 f_equal; [dlia|]. f_equal. dlia.
  - rewrite IH by done. cbn. f_equal. f_equal; [dlia|]. f_equal; [dlia|]. f_equal. dlia.
Qed.

Lemma b64_roundtrip n : sextet n -> b64_value (b64_char n) = Some n.
Proof.
  intros Hn. unfold sextet in Hn. assert (n ∈ seqZ 0 64) as Hin by (apply elem_of_seqZ; lia).
  assert (Forall (fun n => b64_value (b64_char n) = Some n) (seqZ 0 64)) as Hall by (vm_compute; repeat constructor).
  rewrite Forall_forall in Hall. by apply Hall.
Qed.

Lemma b64_char_octet n : sextet n -> octet (b64_char n).
Proof. unfold sextet, octet, b64_char. intros. repeat case_match; lia. Qed.

Lemma octets_of_text s : Forall octet (bytes_of s).
Proof.
  unfold bytes_of. apply Forall_fmap, Forall_forall. intros c _. unfold octet, compose, byte_val.
  pose proof (N_ascii_bounded c). lia.
Qed.

Lemma base64_decode_encode s : base64_DecodeString (base64_EncodeToString s) = Some s.
Proof.
  unfold base64_DecodeString, base64_EncodeToString.
  assert (Forall octet (bytes_of s)) as Hs by apply octets_of_text.
  pose proof (sextets_range _ Hs) as Hx.
  rewrite bytes_of_of_bytes.
  - assert (mapM b64_value (b64_char <$> sextets (bytes_of s)) = Some (sextets (bytes_of s))) as ->.
    { apply mapM_Some. induction Hx; cbn; constructor; [by apply b64_roundtrip|done]. }
    cbn. rewrite octets_sextets by done. cbn. by rewrite of_bytes_bytes_of.
  - apply Forall_fmap. eapply Forall_impl; [exact Hx|]. intros x. apply b64_char_octet.
Qed.

(** ** Keys and signatures *)

Definition PublicKeySize : Z := 32.
Definition SignatureSize : Z := 64.

(** The shared body of the functions that parse a public key or a signature. *)
Definition parse_ed25519 (decode : string -> option string) (encode : string -> string) (size : Z)
    (schemeError error value : string) : result string string :=
  if negb (HasPrefix value "ed25519:") then Err schemeError
  else
    let encoded := TrimPrefix value "ed25519:" in
    match decode encoded with
    | Some decoded => if (slen decoded =? size) && streq (encode decoded) encoded then Ok decoded else Err error
    | None => Err error
    end.

Definition parse_key : string -> string -> string -> result string string :=
  parse_ed25519 hex_DecodeString hex_EncodeToString PublicKeySize.
Definition parse_signature : string -> string -> string -> result string string :=
  parse_ed25519 base64_DecodeString base64_EncodeToString SignatureSize.

Definition key_text (public : string) : string := "ed25519:" +:+ hex_EncodeToString public.
Definition signature_text (signature : string) : string := "ed25519:" +:+ base64_EncodeToString signature.

Lemma key_text_inj a b : key_text a = key_text b -> a = b.
Proof. unfold key_text. intros H. apply app_inj_len in H as [_ H]; [|done]. by apply hex_encode_inj. Qed.

Lemma parse_format decode encode size e1 e2 raw : (forall s, decode (encode s) = Some s) -> slen raw = size ->
  parse_ed25519 decode encode size e1 e2 ("ed25519:" +:+ encode raw) = Ok raw.
Proof.
  intros Hd Hl. unfold parse_ed25519, HasPrefix. rewrite prefix_app. cbn [negb]. rewrite TrimPrefix_app, Hd, Hl, Z.eqb_refl.
  assert (streq (encode raw) (encode raw) = true) as -> by by apply streq_true. done.
Qed.

Lemma parse_key_text e1 e2 public : slen public = PublicKeySize -> parse_key e1 e2 (key_text public) = Ok public.
Proof. apply parse_format, hex_decode_encode. Qed.

Lemma parse_signature_text e1 e2 signature : slen signature = SignatureSize ->
  parse_signature e1 e2 (signature_text signature) = Ok signature.
Proof. apply parse_format, base64_decode_encode. Qed.

(** Only the text of a key parses. *)
Lemma parse_key_exact e1 e2 value public : parse_key e1 e2 value = Ok public -> value = key_text public /\ slen public = PublicKeySize.
Proof.
  unfold parse_key, parse_ed25519, HasPrefix. destruct (String.prefix _ _) eqn:Hp; [|done]. apply prefix_split in Hp as [r ->].
  rewrite TrimPrefix_app. cbn [negb]. destruct (hex_DecodeString r) as [d|]; [|done]. destruct (_ && _) eqn:Hok; [|done].
  intros [= <-]. apply andb_true_iff in Hok as [Hl%Z.eqb_eq He%streq_true]. unfold key_text. by rewrite He.
Qed.

Lemma parse_ed25519_total decode encode size e1 e2 value : no_panic (parse_ed25519 decode encode size e1 e2 value).
Proof. unfold parse_ed25519. solve_total. Qed.
Lemma parse_key_total e1 e2 value : no_panic (parse_key e1 e2 value).
Proof. apply parse_ed25519_total. Qed.
Lemma parse_signature_total e1 e2 value : no_panic (parse_signature e1 e2 value).
Proof. apply parse_ed25519_total. Qed.

#[export] Hint Resolve parse_key_total parse_signature_total : no_panic.
