(* ===== verification/Codec.v ===== *)
(** * Digests of canonical values (src/pkg/codec/canonical.go)

    A document is marshalled to canonical CBOR by an external library and hashed with
    the length-prefixed label of its domain.  The marshalled text is an argument
    here; the label check and the hash are the code's. *)

From S2P Require Import Prelude Text Sha256.

Definition label_byte (c : ascii) : bool :=
  between 97 122 c || between 48 57 c || (byte_val c =? 46) || (byte_val c =? 45).

Definition validateDomain (domain : string) : result string unit :=
  fail_if ((slen domain <? 3) || (128 <? slen domain) || negb (HasPrefix domain "tos."))
    "canonical digest domain must be a bounded tos.* label"%string;;
  fail_if (negb (all_bytes label_byte domain)) "canonical digest domain contains an invalid character"%string.

Definition digestPreimage (domain encoded : string) : string :=
  "TOS-PROTOCOL-CBOR" +:+ bytes [0%N] +:+ framed 2 domain +:+ encoded.

(** [marshalled] is the result of [Marshal(value)]. *)
Definition Digest (domain : string) (marshalled : option string) : result string string :=
  validateDomain domain;;
  encoded ← opt_err marshalled "canonical encoding failed"%string;
  Ok ("sha256:" +:+ hex_EncodeToString (Sum256 (digestPreimage domain encoded))).

(** [canonical] tells whether [Unmarshal] accepts the bytes: the exact deterministic
    encoding of some value. *)
Definition DigestCanonical (canonical : string -> bool) (domain encoded : string) : result string string :=
  validateDomain domain;;
  fail_if (negb (canonical encoded)) "CBOR value is not in canonical form"%string;;
  Ok ("sha256:" +:+ hex_EncodeToString (Sum256 (digestPreimage domain encoded))).

Lemma domain_length domain u : validateDomain domain = Ok u -> slen domain <= 128.
Proof.
  unfold validateDomain. intros H. apply bind_Ok in H as (? & H & _). apply fail_if_Ok in H.
  rewrite !orb_false_iff, Z.ltb_ge in H. destruct H as [[_ H] _]. by apply Z.ltb_ge.
Qed.

(** Two digests are equal only for one domain and one encoding, unless the two
    preimages collide. *)
Lemma digest_inj d1 d2 m1 m2 digest : Digest d1 m1 = Ok digest -> Digest d2 m2 = Ok digest ->
  (d1 = d2 /\ m1 = m2) \/ collides (digestPreimage d1 (default ""%string m1)) (digestPreimage d2 (default ""%string m2)).
Proof.
  unfold Digest. intros H1 H2. apply bind_Ok in H1 as (? & V1 & H1). apply bind_Ok in H2 as (? & V2 & H2).
  apply bind_Ok in H1 as (e1 & ->%opt_err_Ok & H1). apply bind_Ok in H2 as (e2 & ->%opt_err_Ok & H2). rewrite <-H2 in H1.
  apply (f_equal (fun r => match r with Ok s => drop_bytes 7 s | _ => "" end)) in H1. cbn in H1. apply hex_encode_inj in H1.
  destruct (Sum256_inj _ _ H1) as [H|]; [left|by right]. apply domain_length in V1, V2. unfold digestPreimage in H.
  do 2 (apply app_inj_len in H as [_ H]; [|done]). apply framed_inj in H as [-> ->]; [done|lia..].
Qed.

Lemma digest_total domain marshalled : no_panic (Digest domain marshalled).
Proof. unfold Digest, validateDomain. solve_total. Qed.

Lemma digest_canonical_total canonical domain encoded : no_panic (DigestCanonical canonical domain encoded).
Proof. unfold DigestCanonical, validateDomain. solve_total. Qed.

(** A digest is canonical digest text. *)
Lemma digest_pattern s : prefixed_hex64 "sha256:" ("sha256:" +:+ hex_EncodeToString (Sum256 s)) = true.
Proof.
  unfold prefixed_hex64, HasPrefix. rewrite prefix_app, drop_bytes_app, hex_encode_length, Sum256_length, hex_encode_lower. done.
Qed.

#[export] Hint Resolve digest_total digest_canonical_total : no_panic.
