(* ===== verification/Semantic.v ===== *)
(** * Semantic actions (src/pkg/agentcommerce/semantic_action.go)

    Every external action of an agent has a kind from a released registry and typed
    semantic fields; its stable identity is the hash of a canonical preimage of both.
    This file models the registry, the preimage and the transport form of the fields,
    and proves that an identity determines the action up to hash collisions. *)

From S2P Require Import Prelude Text Sha256 Codec.

(** ** Data *)

Definition SemanticActionRegistryVersion : Z := 1.
Definition SemanticActionEntryVersion : Z := 1.
Definition MaxSemanticFieldBytes : Z := 2 ^ 20.
Definition MaxActionRequestBytes : Z := 2 ^ 22.

Definition canonicalDigestPattern : string -> bool := prefixed_hex64 "sha256:".

Inductive SemanticFieldType :=
  | SemanticID | SemanticDigest32 | SemanticU64 | SemanticKind | SemanticState | SemanticTypeOther (s : string).
#[global] Instance SemanticFieldType_eq_dec : EqDecision SemanticFieldType.
Proof. solve_decision. Defined.

Inductive SuccessorPolicy := SuccessorNone | SuccessorTerminal | SuccessorAuthorityInstance.

Record SemanticFieldDefinition := { sf_Name : string; sf_Type : SemanticFieldType }.

Record SemanticActionEntry := {
  RegistryVersion : Z; EntryVersion : Z; se_ActionKind : string; DomainTag : string;
  Fields : list SemanticFieldDefinition; se_SuccessorPolicy : SuccessorPolicy }.

Record SemanticValue := { typeOf : SemanticFieldType; value_bytes : string }.
#[global] Instance SemanticValue_eq_dec : EqDecision SemanticValue.
Proof. solve_decision. Defined.

(** The transport form; [Number] is a pointer. *)
Record SemanticFieldValue := { Name : string; FieldType : SemanticFieldType; FieldText : string; Number : option Z }.

Abbreviation SemanticValues := (gmap string SemanticValue).

Definition semanticText (kind : SemanticFieldType) (value : string) : SemanticValue :=
  {| typeOf := kind; value_bytes := value |}.
Definition ID (value : string) : SemanticValue := semanticText SemanticID value.
Definition KindOf (value : string) : SemanticValue := semanticText SemanticKind value.
Definition StateOf (value : string) : SemanticValue := semanticText SemanticState value.
Definition Digest32 (value : string) : SemanticValue := semanticText SemanticDigest32 value.
Definition U64 (value : Z) : SemanticValue := {| typeOf := SemanticU64; value_bytes := PutUint64 value |}.

(** ** The registry *)

Definition f (name : string) (kind : SemanticFieldType) : SemanticFieldDefinition := {| sf_Name := name; sf_Type := kind |}.

Definition predictionFields (specific : list SemanticFieldDefinition) : list SemanticFieldDefinition :=
  [f "owner_id" SemanticID; f "agent_id" SemanticID; f "network_domain_digest" SemanticDigest32;
   f "market_id" SemanticDigest32] ++ specific.

Definition entry (kind : string) (successor : SuccessorPolicy) (fields : list SemanticFieldDefinition) : SemanticActionEntry :=
  {| RegistryVersion := SemanticActionRegistryVersion; EntryVersion := SemanticActionEntryVersion; se_ActionKind := kind;
     DomainTag := "tos.semantic-action." +:+ kind +:+ ".v1"; Fields := fields; se_SuccessorPolicy := successor |}.

Definition entries : list SemanticActionEntry := [
    entry "operation.journal.append" SuccessorNone [f "owner_id" SemanticID; f "agent_id" SemanticID;
      f "ordering_domain" SemanticDigest32; f "epoch" SemanticU64; f "sequence" SemanticU64; f "event_content_id"
      SemanticDigest32];
    entry "operation.publish" SuccessorNone [f "owner_id" SemanticID; f "agent_id" SemanticID; f "carrier_id"
      SemanticID; f "operation_id" SemanticDigest32; f "operation_envelope_digest" SemanticDigest32;
      f "audience_policy_digest" SemanticDigest32; f "carrier_profile_digest" SemanticDigest32];
    entry "operation.private-send" SuccessorNone [f "owner_id" SemanticID; f "agent_id" SemanticID;
      f "recipient_set_digest" SemanticDigest32; f "membership_epoch" SemanticU64; f "audience_policy_digest"
      SemanticDigest32; f "operation_id" SemanticDigest32; f "operation_envelope_digest" SemanticDigest32;
      f "conversation_scope_digest" SemanticDigest32; f "transport_profile_digest" SemanticDigest32];
    entry "publication.publish" SuccessorNone [f "owner_id" SemanticID; f "agent_id" SemanticID; f "carrier_id"
      SemanticID; f "intent_object_id" SemanticID; f "revision" SemanticU64; f "operation_digest" SemanticDigest32];
    entry "authority.instance" SuccessorNone [f "owner_id" SemanticID; f "agent_id" SemanticID; f "purpose_kind"
      SemanticKind; f "mandate_digest" SemanticDigest32; f "allocation_request_digest" SemanticDigest32;
      f "authority_allocation_sequence" SemanticU64];
    entry "publication.reply" SuccessorAuthorityInstance [f "owner_id" SemanticID; f "agent_id" SemanticID;
      f "carrier_id" SemanticID; f "parent_operation_digest" SemanticDigest32; f "authority_instance_id"
      SemanticDigest32];
    entry "publication.withdraw" SuccessorNone [f "owner_id" SemanticID; f "agent_id" SemanticID; f "carrier_id"
      SemanticID; f "intent_object_id" SemanticID; f "withdrawn_revision" SemanticU64; f "withdrawal_operation_digest"
      SemanticDigest32];
    entry "messenger.contact" SuccessorAuthorityInstance [f "owner_id" SemanticID; f "agent_id" SemanticID;
      f "recipient_agent_id" SemanticID; f "intent_reference_digest" SemanticDigest32; f "authority_instance_id"
      SemanticDigest32];
    entry "messenger.send" SuccessorAuthorityInstance [f "owner_id" SemanticID; f "agent_id" SemanticID;
      f "recipient_set_digest" SemanticDigest32; f "conversation_scope_digest" SemanticDigest32;
      f "authority_instance_id" SemanticDigest32];
    entry "agreement.propose" SuccessorNone [f "owner_id" SemanticID; f "agent_id" SemanticID;
      f "agreement_body_digest" SemanticDigest32; f "recipient_set_digest" SemanticDigest32];
    entry "agreement.authorize" SuccessorNone [f "owner_id" SemanticID; f "agent_id" SemanticID;
      f "agreement_body_digest" SemanticDigest32; f "authority_subject_digest" SemanticDigest32;
      f "predicate_set_digest" SemanticDigest32; f "evidence_profile_digest" SemanticDigest32];
    entry "agreement.withdraw" SuccessorNone [f "owner_id" SemanticID; f "agent_id" SemanticID;
      f "agreement_body_digest" SemanticDigest32; f "proposal_action_id" SemanticDigest32];
    entry "provider.offer" SuccessorNone [f "owner_id" SemanticID; f "agent_id" SemanticID; f "agreement_body_digest"
      SemanticDigest32; f "demand_mutation_digest" SemanticDigest32; f "buyer_agent_id" SemanticID;
      f "provider_offer_id" SemanticID; f "binding_digest" SemanticDigest32];
    entry "portfolio.reserve" SuccessorTerminal [f "owner_id" SemanticID; f "agent_id" SemanticID;
      f "agreement_body_digest" SemanticDigest32; f "reservation_scope_digest" SemanticDigest32; f "target_revision"
      SemanticU64];
    entry "portfolio.release" SuccessorTerminal [f "owner_id" SemanticID; f "agent_id" SemanticID; f "reservation_id"
      SemanticDigest32; f "target_revision" SemanticU64; f "terminal_evidence_set_digest" SemanticDigest32];
    entry "schedule.entry.transition" SuccessorTerminal [f "owner_id" SemanticID; f "agent_id" SemanticID;
      f "schedule_entry_id" SemanticID; f "agreement_body_digest" SemanticDigest32; f "execution_id" SemanticDigest32;
      f "expected_state_revision" SemanticU64; f "target_state" SemanticState; f "target_dispatch_generation"
      SemanticU64];
    entry "schedule.dependency.transition" SuccessorTerminal [f "owner_id" SemanticID; f "agent_id" SemanticID;
      f "upstream_agreement_digest" SemanticDigest32; f "upstream_obligation_id" SemanticID;
      f "downstream_agreement_digest" SemanticDigest32; f "downstream_obligation_id" SemanticID; f "dependency_type"
      SemanticKind; f "dependency_class" SemanticKind; f "transition_kind" SemanticKind; f "graph_base_revision"
      SemanticU64];
    entry "execution.slot" SuccessorTerminal [f "owner_id" SemanticID; f "agent_id" SemanticID;
      f "agreement_body_digest" SemanticDigest32; f "execution_obligation_id" SemanticID; f "canonical_plan_digest"
      SemanticDigest32; f "accepted_input_manifest_digest" SemanticDigest32; f "attempt_index" SemanticU64;
      f "predecessor_terminal_resolution_digest" SemanticDigest32];
    entry "execution.prepare" SuccessorNone [f "owner_id" SemanticID; f "agent_id" SemanticID; f "execution_id"
      SemanticDigest32];
    entry "execution.start" SuccessorNone [f "owner_id" SemanticID; f "agent_id" SemanticID; f "execution_id"
      SemanticDigest32];
    entry "executor.effect" SuccessorNone [f "owner_id" SemanticID; f "agent_id" SemanticID; f "agreement_body_digest"
      SemanticDigest32; f "obligation_id" SemanticID; f "execution_id" SemanticDigest32; f "plan_effect_id"
      SemanticID; f "effect_profile_digest" SemanticDigest32; f "target_digest" SemanticDigest32; f "operation_kind"
      SemanticKind; f "effect_semantic_key_digest" SemanticDigest32];
    entry "credential.issue" SuccessorNone [f "owner_id" SemanticID; f "agent_id" SemanticID;
      f "agreement_body_digest" SemanticDigest32; f "obligation_id" SemanticID; f "execution_id" SemanticDigest32;
      f "recipient_id" SemanticID; f "capability_descriptor_digest" SemanticDigest32];
    entry "disclosure.release" SuccessorNone [f "owner_id" SemanticID; f "agent_id" SemanticID;
      f "agreement_body_digest" SemanticDigest32; f "obligation_id" SemanticID; f "recipient_id" SemanticID;
      f "content_digest" SemanticDigest32; f "purpose_digest" SemanticDigest32];
    entry "content.upload" SuccessorNone [f "owner_id" SemanticID; f "agent_id" SemanticID; f "agreement_body_digest"
      SemanticDigest32; f "obligation_id" SemanticID; f "handoff_id" SemanticID; f "sender_id" SemanticID;
      f "receiver_id" SemanticID; f "content_manifest_digest" SemanticDigest32];
    entry "content.delete" SuccessorNone [f "owner_id" SemanticID; f "agent_id" SemanticID; f "agreement_body_digest"
      SemanticDigest32; f "obligation_id" SemanticID; f "handoff_id" SemanticID; f "content_manifest_digest"
      SemanticDigest32; f "retention_policy_digest" SemanticDigest32];
    entry "delivery.release" SuccessorNone [f "owner_id" SemanticID; f "agent_id" SemanticID;
      f "agreement_body_digest" SemanticDigest32; f "obligation_id" SemanticID; f "recipient_id" SemanticID;
      f "deliverable_manifest_digest" SemanticDigest32];
    entry "gift.send" SuccessorAuthorityInstance [f "owner_id" SemanticID; f "agent_id" SemanticID;
      f "authority_instance_id" SemanticDigest32; f "recipient_id" SemanticID; f "network_id" SemanticID;
      f "asset_digest" SemanticDigest32; f "amount_atomic" SemanticID; f "destination_digest" SemanticDigest32];
    entry "payment.direct" SuccessorNone [f "owner_id" SemanticID; f "agent_id" SemanticID; f "agreement_body_digest"
      SemanticDigest32; f "obligation_instance_id" SemanticDigest32; f "payer_id" SemanticID; f "payee_id" SemanticID;
      f "network_id" SemanticID; f "asset_digest" SemanticDigest32; f "amount_atomic" SemanticID;
      f "destination_digest" SemanticDigest32];
    entry "payment.domain-bound" SuccessorNone [f "owner_id" SemanticID; f "agent_id" SemanticID;
      f "agreement_body_digest" SemanticDigest32; f "obligation_instance_id" SemanticDigest32; f "payer_id"
      SemanticID; f "payee_id" SemanticID; f "network_domain_digest" SemanticDigest32; f "asset_digest"
      SemanticDigest32; f "amount_atomic" SemanticID; f "destination_digest" SemanticDigest32];
    entry "settlement.external" SuccessorNone [f "owner_id" SemanticID; f "agent_id" SemanticID;
      f "agreement_body_digest" SemanticDigest32; f "obligation_instance_id" SemanticDigest32;
      f "adapter_profile_digest" SemanticDigest32; f "payer_id" SemanticID; f "payee_id" SemanticID; f "system_id"
      SemanticID; f "asset_digest" SemanticDigest32; f "amount_digest" SemanticDigest32; f "destination_digest"
      SemanticDigest32];
    entry "escrow.transition" SuccessorTerminal [f "owner_id" SemanticID; f "agent_id" SemanticID;
      f "quote_commitment" SemanticDigest32; f "escrow_account_id" SemanticID; f "transition_kind" SemanticKind;
      f "expected_state_digest" SemanticDigest32];
    entry "billing.materialize" SuccessorNone [f "owner_id" SemanticID; f "agent_id" SemanticID;
      f "agreement_body_digest" SemanticDigest32; f "agreement_obligation_id" SemanticID; f "sequence" SemanticU64];
    entry "billing.resolve" SuccessorTerminal [f "owner_id" SemanticID; f "agent_id" SemanticID;
      f "obligation_instance_id" SemanticDigest32; f "target_state" SemanticState; f "evidence_set_digest"
      SemanticDigest32];
    entry "accounting.record" SuccessorNone [f "owner_id" SemanticID; f "agent_id" SemanticID; f "entry_id"
      SemanticDigest32; f "classification" SemanticKind; f "evidence_set_digest" SemanticDigest32];
    entry "reconcile.apply" SuccessorTerminal [f "owner_id" SemanticID; f "agent_id" SemanticID; f "scope_digest"
      SemanticDigest32; f "base_revision" SemanticU64; f "evidence_cut_digest" SemanticDigest32];
    entry "commercial.quote.issue" SuccessorNone [f "owner_id" SemanticID; f "agent_id" SemanticID;
      f "agreement_body_digest" SemanticDigest32; f "quote_request_digest" SemanticDigest32; f "recipient_set_digest"
      SemanticDigest32; f "authority_instance_id" SemanticDigest32; f "offer_terms_digest" SemanticDigest32];
    entry "commercial.quote.close" SuccessorNone [f "owner_id" SemanticID; f "agent_id" SemanticID;
      f "agreement_body_digest" SemanticDigest32; f "authority_instance_id" SemanticDigest32; f "reservation_id"
      SemanticDigest32; f "expected_offer_state_revision" SemanticU64; f "target_state" SemanticState];
    entry "conditional.claim.ingress" SuccessorNone [f "owner_id" SemanticID; f "agent_id" SemanticID;
      f "agreement_body_digest" SemanticDigest32; f "obligation_id" SemanticID; f "claim_id" SemanticID;
      f "claim_revision" SemanticU64];
    entry "conditional.claim.submit" SuccessorAuthorityInstance [f "owner_id" SemanticID; f "agent_id" SemanticID;
      f "agreement_body_digest" SemanticDigest32; f "obligation_id" SemanticID; f "authority_instance_id"
      SemanticDigest32; f "claim_body_digest" SemanticDigest32];
    entry "conditional.claim-filing.close" SuccessorTerminal [f "owner_id" SemanticID; f "agent_id" SemanticID;
      f "agreement_body_digest" SemanticDigest32; f "obligation_id" SemanticID; f "claim_admission_log_id" SemanticID;
      f "expected_coverage_revision" SemanticU64; f "expected_claim_filing_state_revision" SemanticU64;
      f "filing_cutoff_unix" SemanticU64; f "target_state" SemanticState];
    entry "conditional.claim-decision.admit" SuccessorNone [f "owner_id" SemanticID; f "agent_id" SemanticID;
      f "agreement_body_digest" SemanticDigest32; f "obligation_id" SemanticID; f "claim_id" SemanticID;
      f "admission_mode" SemanticKind; f "source_claim_revision" SemanticU64; f "source_claim_state_revision"
      SemanticU64; f "source_head_digest" SemanticDigest32; f "decision_sequence" SemanticU64;
      f "mode_specific_identity_digest" SemanticDigest32];
    entry "conditional.claim.decide" SuccessorTerminal [f "owner_id" SemanticID; f "agent_id" SemanticID;
      f "agreement_body_digest" SemanticDigest32; f "obligation_id" SemanticID; f "authorized_claim_envelope_digest"
      SemanticDigest32; f "decision_application_token_id" SemanticDigest32; f "expected_coverage_revision"
      SemanticU64; f "expected_claim_revision" SemanticU64; f "expected_claim_state_revision" SemanticU64;
      f "decision_sequence" SemanticU64; f "decision_revision" SemanticU64; f "target_state" SemanticState];
    entry "conditional.claim.transition" SuccessorTerminal [f "owner_id" SemanticID; f "agent_id" SemanticID;
      f "agreement_body_digest" SemanticDigest32; f "obligation_id" SemanticID; f "claim_id" SemanticID;
      f "expected_claim_state_revision" SemanticU64; f "transition_kind" SemanticKind; f "target_state" SemanticState;
      f "evidence_set_digest" SemanticDigest32];
    entry "conditional.obligation.transition" SuccessorTerminal [f "owner_id" SemanticID; f "agent_id" SemanticID;
      f "agreement_body_digest" SemanticDigest32; f "obligation_id" SemanticID; f "expected_state_revision"
      SemanticU64; f "target_state" SemanticState; f "evidence_set_digest" SemanticDigest32];
    entry "collateral.transition" SuccessorTerminal [f "owner_id" SemanticID; f "agent_id" SemanticID;
      f "agreement_body_digest" SemanticDigest32; f "obligation_id" SemanticID; f "collateral_position_id" SemanticID;
      f "transition_binding_digest" SemanticDigest32; f "expected_state_revision" SemanticU64; f "transition_kind"
      SemanticKind];
    entry "capability.install" SuccessorNone [f "owner_id" SemanticID; f "agent_id" SemanticID;
      f "artifact_version_digest" SemanticDigest32; f "installation_id" SemanticID; f "target_store_digest"
      SemanticDigest32; f "expected_inventory_revision" SemanticU64];
    entry "capability.update" SuccessorNone [f "owner_id" SemanticID; f "agent_id" SemanticID;
      f "predecessor_artifact_digest" SemanticDigest32; f "artifact_version_digest" SemanticDigest32;
      f "installation_id" SemanticID; f "expected_inventory_revision" SemanticU64];
    entry "capability.rollback" SuccessorTerminal [f "owner_id" SemanticID; f "agent_id" SemanticID;
      f "current_artifact_digest" SemanticDigest32; f "rollback_artifact_digest" SemanticDigest32; f "installation_id"
      SemanticID; f "expected_inventory_revision" SemanticU64];
    entry "capability.remove" SuccessorTerminal [f "owner_id" SemanticID; f "agent_id" SemanticID;
      f "artifact_version_digest" SemanticDigest32; f "installation_id" SemanticID; f "expected_inventory_revision"
      SemanticU64; f "deletion_generation" SemanticU64];
    entry "capability.gc" SuccessorTerminal [f "owner_id" SemanticID; f "agent_id" SemanticID;
      f "artifact_version_digest" SemanticDigest32; f "tombstone_digest" SemanticDigest32; f "reference_scan_root"
      SemanticDigest32; f "deletion_generation" SemanticU64];
    entry "capability.admit" SuccessorNone [f "owner_id" SemanticID; f "agent_id" SemanticID; f "admission_id"
      SemanticID; f "artifact_version_digest" SemanticDigest32; f "admission_body_digest" SemanticDigest32];
    entry "capability.suspend" SuccessorTerminal [f "owner_id" SemanticID; f "agent_id" SemanticID; f "admission_id"
      SemanticID; f "expected_admission_revision" SemanticU64; f "revocation_generation" SemanticU64];
    entry "capability.resume" SuccessorTerminal [f "owner_id" SemanticID; f "agent_id" SemanticID; f "admission_id"
      SemanticID; f "expected_admission_revision" SemanticU64; f "revocation_generation" SemanticU64];
    entry "capability.revoke" SuccessorTerminal [f "owner_id" SemanticID; f "agent_id" SemanticID; f "admission_id"
      SemanticID; f "expected_admission_revision" SemanticU64; f "revocation_generation" SemanticU64];
    entry "capability.promotion.activate" SuccessorNone [f "owner_id" SemanticID; f "agent_id" SemanticID;
      f "promotion_id" SemanticID; f "artifact_version_digest" SemanticDigest32; f "promotion_body_digest"
      SemanticDigest32];
    entry "capability.promotion.revoke" SuccessorTerminal [f "owner_id" SemanticID; f "agent_id" SemanticID;
      f "promotion_id" SemanticID; f "expected_promotion_revision" SemanticU64; f "revocation_generation" SemanticU64];
    entry "capability.source-search.record" SuccessorNone [f "owner_id" SemanticID; f "agent_id" SemanticID;
      f "requirement_digest" SemanticDigest32; f "source_policy_digest" SemanticDigest32;
      f "source_attempt_set_digest" SemanticDigest32];
    entry "capability.local-draft.create" SuccessorNone [f "owner_id" SemanticID; f "agent_id" SemanticID;
      f "requirement_digest" SemanticDigest32; f "sourcing_decision_digest" SemanticDigest32;
      f "draft_artifact_digest" SemanticDigest32];
    entry "owner.command.submit" SuccessorNone [f "owner_id" SemanticID; f "agent_id" SemanticID;
      f "resolution_namespace" SemanticDigest32; f "command_kind" SemanticKind; f "target_object_kind" SemanticKind;
      f "target_object_id" SemanticID; f "exact_parameter_digest" SemanticDigest32; f "governing_policy_digest"
      SemanticDigest32; f "expected_target_revision" SemanticU64; f "command_instance_id" SemanticID];
    entry "owner.command.resolve" SuccessorTerminal [f "owner_id" SemanticID; f "agent_id" SemanticID;
      f "resolution_namespace" SemanticDigest32; f "command_effect_digest" SemanticDigest32;
      f "target_resolution_state" SemanticState];
    entry "report.generate" SuccessorNone [f "owner_id" SemanticID; f "agent_id" SemanticID; f "report_series_id"
      SemanticDigest32; f "source_snapshot_digest" SemanticDigest32; f "correction_revision" SemanticU64];
    entry "report.correct" SuccessorTerminal [f "owner_id" SemanticID; f "agent_id" SemanticID; f "report_series_id"
      SemanticDigest32; f "prior_report_digest" SemanticDigest32; f "correction_revision" SemanticU64;
      f "correction_delta_digest" SemanticDigest32];
    entry "owner.projection.checkpoint" SuccessorNone [f "owner_id" SemanticID; f "agent_id" SemanticID;
      f "projection_source_set_digest" SemanticDigest32; f "event_set_root" SemanticDigest32; f "snapshot_revision"
      SemanticU64];
    entry "owner.device-session.revoke" SuccessorTerminal [f "owner_id" SemanticID; f "agent_id" SemanticID;
      f "session_id" SemanticID; f "session_generation" SemanticU64; f "session_revocation_generation" SemanticU64];
    entry "prediction.market.deploy" SuccessorNone (predictionFields [f "market_config_hash" SemanticDigest32;
      f "deployment_salt" SemanticDigest32; f "contract_code_hash" SemanticDigest32]);
    entry "prediction.collateral.deposit" SuccessorAuthorityInstance (predictionFields [f "account_binding_digest"
      SemanticDigest32; f "amount_atomic" SemanticID; f "authority_instance_id" SemanticDigest32]);
    entry "prediction.reserve.top-up" SuccessorAuthorityInstance (predictionFields [f "amount_atomic" SemanticID;
      f "authority_instance_id" SemanticDigest32]);
    entry "prediction.trading-key.rotate" SuccessorNone (predictionFields [f "account_binding_digest"
      SemanticDigest32; f "expected_key_epoch" SemanticU64; f "trading_public_key_digest" SemanticDigest32]);
    entry "prediction.order.authorize" SuccessorNone (predictionFields [f "order_digest" SemanticDigest32;
      f "valid_until" SemanticU64; f "worst_case_risk_digest" SemanticDigest32]);
    entry "prediction.order.publish" SuccessorNone (predictionFields [f "order_digest" SemanticDigest32;
      f "signed_order_cell_hash" SemanticDigest32; f "carrier_id" SemanticID]);
    entry "prediction.order.cancel-exact" SuccessorNone (predictionFields [f "order_digest" SemanticDigest32;
      f "order_cell_hash" SemanticDigest32]);
    entry "prediction.order.nonce-floor.raise" SuccessorNone (predictionFields [f "account_binding_digest"
      SemanticDigest32; f "expected_key_epoch" SemanticU64; f "new_nonce_floor" SemanticU64]);
    entry "prediction.match.submit" SuccessorAuthorityInstance (predictionFields [f "maker_order_digest"
      SemanticDigest32; f "taker_order_digest" SemanticDigest32; f "quantity_lots" SemanticU64;
      f "authority_instance_id" SemanticDigest32]);
    entry "prediction.position.split" SuccessorAuthorityInstance (predictionFields [f "account_binding_digest"
      SemanticDigest32; f "quantity_lots" SemanticU64; f "authority_instance_id" SemanticDigest32]);
    entry "prediction.position.merge" SuccessorAuthorityInstance (predictionFields [f "account_binding_digest"
      SemanticDigest32; f "quantity_lots" SemanticU64; f "authority_instance_id" SemanticDigest32]);
    entry "prediction.position.claim" SuccessorNone (predictionFields [f "beneficiary_account_digest"
      SemanticDigest32; f "final_outcome" SemanticKind]);
    entry "prediction.collateral.withdraw" SuccessorAuthorityInstance (predictionFields [f "account_binding_digest"
      SemanticDigest32; f "amount_atomic" SemanticID; f "authority_instance_id" SemanticDigest32]);
    entry "prediction.resolution.report" SuccessorNone (predictionFields [f "reporter_account_digest"
      SemanticDigest32; f "round" SemanticKind; f "round_context_hash" SemanticDigest32; f "vote_statement_hash"
      SemanticDigest32]);
    entry "prediction.resolution.challenge" SuccessorNone (predictionFields [f "challenger_account_digest"
      SemanticDigest32; f "proposed_statement_hash" SemanticDigest32; f "counter_outcome" SemanticKind;
      f "counter_evidence_root" SemanticDigest32]);
    entry "prediction.resolution.finalize" SuccessorNone (predictionFields [f "finalization_kind" SemanticKind;
      f "expected_context_hash" SemanticDigest32; f "expected_statement_hash_or_zero" SemanticDigest32]);
    entry "prediction.challenge-bond.withdraw" SuccessorNone (predictionFields [f "challenger_account_digest"
      SemanticDigest32; f "challenge_record_digest" SemanticDigest32]);
    entry "prediction.market.advance-phase" SuccessorAuthorityInstance (predictionFields
      [f "expected_phase_state_digest" SemanticDigest32; f "authority_instance_id" SemanticDigest32]);
    entry "prediction.market.compact" SuccessorTerminal (predictionFields [f "expected_terminal_state_digest"
      SemanticDigest32]);
    entry "prediction.terminal-surplus.withdraw" SuccessorAuthorityInstance (predictionFields [f "amount_atomic"
      SemanticID; f "reserve_recipient_digest" SemanticDigest32; f "authority_instance_id" SemanticDigest32])].

(** A duplicate kind stops the program when it starts. *)
Definition register (registry : gmap string SemanticActionEntry) (candidate : SemanticActionEntry)
  : result string (gmap string SemanticActionEntry) :=
  match registry !! se_ActionKind candidate with
  | Some _ => Panic ("duplicate semantic action registry entry: " +:+ se_ActionKind candidate)
  | None => Ok (<[se_ActionKind candidate := candidate]> registry)
  end.

Definition buildSemanticActionRegistry : result string (gmap string SemanticActionEntry) := foldM register ∅ entries.

Definition semanticActionRegistry : gmap string SemanticActionEntry :=
  match buildSemanticActionRegistry with Ok registry => registry | _ => ∅ end.

(** ** Canonical values *)

Definition token_byte (first : bool) (c : ascii) : bool :=
  between 97 122 c || (negb first && (between 48 57 c || between 45 46 c || (byte_val c =? 95))).

Definition canonicalLowerToken (value : string) : bool :=
  (slen value <=? 128) &&
  match value with
  | EmptyString => false
  | String c rest => token_byte true c && all_bytes (token_byte false) rest
  end.

Definition canonicalUnsignedDecimal (value : string) : bool :=
  streq value "0" ||
  ((slen value <=? 78) &&
   match value with
   | EmptyString => false
   | String c _ => negb (byte_val c =? 48) && all_bytes is_digit value
   end).

Definition canonicalSemanticValue (definition : SemanticFieldDefinition) (value : SemanticValue) : result string string :=
  let raw := value_bytes value in
  fail_if ((slen raw =? 0) || (MaxSemanticFieldBytes <? slen raw)) "value length is invalid"%string;;
  match sf_Type definition with
  | SemanticID =>
      fail_if ((4096 <? slen raw) || negb (utf8_ok raw) || negb (all_bytes (fun c => negb (byte_val c =? 0)) raw))
        "identifier is not canonical UTF-8"%string;;
      fail_if (streq (sf_Name definition) "amount_atomic" && negb (canonicalUnsignedDecimal raw))
        "atomic amount is not a canonical unsigned integer"%string;;
      Ok raw
  | SemanticDigest32 =>
      fail_if (negb (canonicalDigestPattern raw)) "digest is not canonical sha256 text"%string;;
      decoded ← opt_err (hex_DecodeString (TrimPrefix raw "sha256:")) "digest is invalid"%string;
      fail_if (negb (slen decoded =? 32)) "digest is invalid"%string;;
      Ok decoded
  | SemanticU64 => fail_if (negb (slen raw =? 8)) "u64 is not eight bytes"%string;; Ok raw
  | SemanticKind | SemanticState =>
      fail_if (negb (canonicalLowerToken raw)) "token is not canonical lower-case ASCII"%string;; Ok raw
  | SemanticTypeOther _ => Err "unknown semantic field type"%string
  end.

(** ** The preimage *)

Definition writeU16 (output : string) (value : Z) : string := output +:+ PutUint16 value.
Definition writeLP16 (output value : string) : result string string :=
  fail_if (2 ^ 16 - 1 <? slen value) "lp16 value is too large"%string;;
  Ok (writeU16 output (slen value) +:+ value).
Definition writeLP32 (output value : string) : result string string :=
  fail_if (2 ^ 32 - 1 <? slen value) "lp32 value is too large"%string;;
  Ok (output +:+ PutUint32 (slen value) +:+ value).

Definition quoted (s : string) : string := quote +:+ s +:+ quote.

(** [fmt.Errorf("semantic action field %q: %w", name, err)] *)
Definition fieldErr {A} (name : string) (m : result string A) : result string A :=
  match m with
  | Ok a => Ok a
  | Err e => Err ("semantic action field " +:+ quoted name +:+ ": " +:+ e)
  | Panic w => Panic w
  end.

(** One field of the preimage. *)
Definition writeField (values : SemanticValues) (output : string) (definition : SemanticFieldDefinition) : result string string :=
  let missing := "semantic action field " +:+ quoted (sf_Name definition) +:+ " is missing or has the wrong type" in
  value ← opt_err (values !! sf_Name definition) missing;
  fail_if (negb (bool_decide (typeOf value = sf_Type definition))) missing;;
  canonical ← fieldErr (sf_Name definition) (canonicalSemanticValue definition value);
  output ← writeLP16 output (sf_Name definition);
  writeLP32 output canonical.

Definition preimageMagic : string := "TOS-SAI" +:+ bytes [0%N].

(** ["sha256:" + hex.EncodeToString(digest)] *)
Definition digestText (preimage : string) : string := "sha256:" +:+ hex_EncodeToString (Sum256 preimage).

Definition DeriveStableActionID (actionKind : string) (values : SemanticValues) : result string (string * string) :=
  candidate ← opt_err (semanticActionRegistry !! actionKind) "unknown semantic action kind"%string;
  fail_if (negb (Z.of_nat (size values) =? zlen (Fields candidate)))
    "semantic action field set is incomplete or contains extras"%string;;
  let preimage := writeU16 (writeU16 preimageMagic (RegistryVersion candidate)) (EntryVersion candidate) in
  preimage ← writeLP16 preimage (DomainTag candidate);
  preimage ← writeLP16 preimage (se_ActionKind candidate);
  encoded ← foldM (writeField values) (writeU16 preimage (zlen (Fields candidate) mod two16)) (Fields candidate);
  Ok (digestText encoded, encoded).

(** The hash of a domain, a length and a text (agreement.go). *)
Definition framedSHA256 (domain canonical : string) : string :=
  Sum256 (domain +:+ PutUint32 (wrap32 (slen canonical)) +:+ canonical).

(** The identity of an action's exact request. *)
Definition ExactRequestDigest (canonicalActionRequestBody : string) : result string string :=
  fail_if ((slen canonicalActionRequestBody =? 0) || (MaxActionRequestBytes <? slen canonicalActionRequestBody))
    "canonical action request body has invalid size"%string;;
  Ok ("sha256:" +:+ hex_EncodeToString (framedSHA256 ("tos.action-request.v1" +:+ bytes [0%N]) canonicalActionRequestBody)).

(** ** The transport form *)

(** [binary.BigEndian.Uint64] indexes the first eight bytes. *)
Definition Uint64 (b : string) : result string Z :=
  if slen b <? 8 then Panic "index out of range" else Ok (be_value (take 8 (bytes_of b))).

(** A missing key reads as the zero value. *)
Definition zeroValue : SemanticValue := {| typeOf := SemanticTypeOther ""; value_bytes := "" |}.

Definition exportField (values : SemanticValues) (definition : SemanticFieldDefinition) : result string SemanticFieldValue :=
  let value := default zeroValue (values !! sf_Name definition) in
  if bool_decide (sf_Type definition = SemanticU64) then
    number ← Uint64 (value_bytes value);
    Ok {| Name := sf_Name definition; FieldType := sf_Type definition; FieldText := ""; Number := Some number |}
  else Ok {| Name := sf_Name definition; FieldType := sf_Type definition; FieldText := value_bytes value; Number := None |}.

Definition ExportSemanticFields (actionKind : string) (values : SemanticValues) : result string (list SemanticFieldValue) :=
  entry ← opt_err (semanticActionRegistry !! actionKind) "semantic action field set is invalid"%string;
  fail_if (negb (Z.of_nat (size values) =? zlen (Fields entry))) "semantic action field set is invalid"%string;;
  DeriveStableActionID actionKind values;;
  mapE (exportField values) (Fields entry).

Definition importField (values : SemanticValues) (pair : SemanticFieldDefinition * SemanticFieldValue) : result string SemanticValues :=
  let '(definition, wire) := pair in
  fail_if (negb (streq (Name wire) (sf_Name definition)) || negb (bool_decide (FieldType wire = sf_Type definition)))
    "semantic action fields are not in canonical registry order"%string;;
  if bool_decide (sf_Type definition = SemanticU64) then
    match Number wire with
    | Some number =>
        fail_if (nonempty (FieldText wire)) "u64 semantic field has an ambiguous encoding"%string;;
        Ok (<[Name wire := U64 number]> values)
    | None => Err "u64 semantic field has an ambiguous encoding"%string
    end
  else
    match Number wire with
    | Some _ => Err "text semantic field has an ambiguous encoding"%string
    | None =>
        fail_if (negb (nonempty (FieldText wire))) "text semantic field has an ambiguous encoding"%string;;
        Ok (<[Name wire := semanticText (FieldType wire) (FieldText wire)]> values)
    end.

Definition ImportSemanticFields (actionKind : string) (fields : list SemanticFieldValue) : result string SemanticValues :=
  entry ← opt_err (semanticActionRegistry !! actionKind) "semantic action field set is invalid"%string;
  fail_if (negb (zlen fields =? zlen (Fields entry))) "semantic action field set is invalid"%string;;
  values ← foldM importField ∅ (zip (Fields entry) fields);
  DeriveStableActionID actionKind values;;
  Ok values.

(** ** The registry is well formed *)

Definition known_type (t : SemanticFieldType) : bool := match t with SemanticTypeOther _ => false | _ => true end.

Definition entry_ok (e : SemanticActionEntry) : bool :=
  bool_decide (NoDup (sf_Name <$> Fields e)) && forallb (fun d => slen (sf_Name d) <? 2 ^ 16) (Fields e) &&
  forallb (known_type ∘ sf_Type) (Fields e) && (slen (se_ActionKind e) <? 2 ^ 16) && (slen (DomainTag e) <? 2 ^ 16) &&
  match Fields e with
  | owner :: agent :: _ =>
      streq (sf_Name owner) "owner_id" && bool_decide (sf_Type owner = SemanticID) &&
      streq (sf_Name agent) "agent_id" && bool_decide (sf_Type agent = SemanticID)
  | _ => false
  end.

Lemma entries_ok : forallb entry_ok entries = true.
Proof. vm_compute. reflexivity. Qed.

Lemma register_inv registry l registry' : foldM register registry l = Ok registry' ->
  forall k e, registry' !! k = Some e -> registry !! k = Some e \/ (e ∈ l /\ se_ActionKind e = k).
Proof.
  revert registry. induction l as [|e0 l IH]; intros registry H k e He; cbn in H; [injection H as <-; by left|].
  apply bind_Ok in H as (r & Hr & H). unfold register in Hr. destruct (registry !! se_ActionKind e0); [done|]. injection Hr as <-.
  destruct (IH _ H k e He) as [Hk|[Hin Hk]]; [|right; split; [by right|done]].
  apply lookup_insert_Some in Hk as [[<- <-]|[_ Hk]]; [right; split; [by left|done]|by left].
Qed.

(** The program starts: no kind is registered twice. *)
Lemma registry_built : buildSemanticActionRegistry = Ok semanticActionRegistry.
Proof.
  assert (is_ok buildSemanticActionRegistry = true) as H by (vm_compute; reflexivity). unfold semanticActionRegistry.
  by destruct buildSemanticActionRegistry.
Qed.

Lemma registry_entry k e : semanticActionRegistry !! k = Some e -> se_ActionKind e = k /\ entry_ok e = true.
Proof.
  intros H. destruct (register_inv _ _ _ registry_built k e H) as [[]%lookup_empty_Some|[Hin Hk]]. split; [done|].
  pose proof entries_ok as Hall. rewrite forallb_forall in Hall. apply Hall. by apply list_elem_of_In.
Qed.

#[global] Opaque semanticActionRegistry.

(** ** Canonical values determine values *)

Lemma digest_text_hex s decoded : canonicalDigestPattern s = true -> hex_DecodeString (TrimPrefix s "sha256:") = Some decoded ->
  s = ("sha256:" +:+ hex_EncodeToString decoded)%string.
Proof.
  unfold canonicalDigestPattern, prefixed_hex64, HasPrefix. rewrite !andb_true_iff. intros [(r & ->)%prefix_split [_ Hl]] Hd.
  rewrite drop_bytes_app in Hl. rewrite TrimPrefix_app in Hd. by rewrite (hex_encode_decode _ _ Hl Hd).
Qed.

Lemma canonical_value_bytes d v1 v2 c :
  canonicalSemanticValue d v1 = Ok c -> canonicalSemanticValue d v2 = Ok c -> value_bytes v1 = value_bytes v2.
Proof.
  unfold canonicalSemanticValue. intros H1 H2. apply bind_Ok in H1 as (? & _ & H1). apply bind_Ok in H2 as (? & _ & H2).
  destruct (sf_Type d); [..|discriminate H1]; inv_ok; try congruence.
  repeat match goal with H : negb _ = false |- _ => apply negb_false_iff in H end.
  erewrite (digest_text_hex (value_bytes v1)), (digest_text_hex (value_bytes v2)) by done. done.
Qed.

(** A field's value in the map, with its canonical bytes. *)
Definition field_has (values : SemanticValues) (d : SemanticFieldDefinition) (canonical : string) : Prop :=
  exists value, values !! sf_Name d = Some value /\ typeOf value = sf_Type d /\
    canonicalSemanticValue d value = Ok canonical /\ slen canonical < 2 ^ 32.

Definition field_text (d : SemanticFieldDefinition) (canonical : string) : string :=
  framed 2 (sf_Name d) +:+ framed 4 canonical.

Fixpoint fields_text (ds : list SemanticFieldDefinition) (cs : list string) : string :=
  match ds, cs with
  | d :: ds, c :: cs => field_text d c +:+ fields_text ds cs
  | _, _ => ""
  end.

Lemma fieldErr_Ok {A} name (m : result string A) a : fieldErr name m = Ok a -> m = Ok a.
Proof. by destruct m. Qed.

Lemma writeLP16_Ok output value o : writeLP16 output value = Ok o -> o = (output +:+ framed 2 value)%string.
Proof. unfold writeLP16, writeU16, framed. intros H. inv_ok. by rewrite app_assoc_str. Qed.

Lemma writeField_Ok values output d o : writeField values output d = Ok o ->
  exists c, field_has values d c /\ o = (output +:+ field_text d c)%string.
Proof.
  unfold writeField. intros H. apply bind_Ok in H as (value & Hv & H). apply bind_Ok in H as ([] & Ht & H).
  apply bind_Ok in H as (c & Hc & H). apply bind_Ok in H as (o1 & Ho1 & H). apply opt_err_Ok in Hv. apply fail_if_Ok in Ht.
  apply negb_false_iff, bool_decide_eq_true in Ht. apply fieldErr_Ok in Hc. apply writeLP16_Ok in Ho1 as ->.
  unfold writeLP32 in H. apply bind_Ok in H as (? & Hl & H). apply fail_if_Ok, Z.ltb_ge in Hl. injection H as <-.
  exists c. split; [exists value; repeat split; [done..|lia]|]. unfold field_text, framed, PutUint32. by rewrite !app_assoc_str.
Qed.

Lemma writeFields_Ok values ds output o : foldM (writeField values) output ds = Ok o ->
  exists cs, Forall2 (field_has values) ds cs /\ o = (output +:+ fields_text ds cs)%string.
Proof.
  revert output. induction ds as [|d ds IH]; intros output H; cbn in H.
  - injection H as <-. exists []. split; [constructor|]. by rewrite app_nil_r_str.
  - apply bind_Ok in H as (o1 & Ho1 & H). apply writeField_Ok in Ho1 as (c & Hc & ->).
    apply IH in H as (cs & Hcs & ->). exists (c :: cs). split; [by constructor|]. cbn. by rewrite app_assoc_str.
Qed.

Lemma fields_text_inj v1 v2 ds cs1 cs2 : forallb (fun d => slen (sf_Name d) <? 2 ^ 16) ds = true ->
  Forall2 (field_has v1) ds cs1 -> Forall2 (field_has v2) ds cs2 -> fields_text ds cs1 = fields_text ds cs2 -> cs1 = cs2.
Proof.
  intros Hn H1. revert cs2. induction H1 as [|d c1 ds cs1 Hc1 H1 IH]; intros cs2 H2 Ht.
  - by inversion H2.
  - inversion H2 as [|? c2 ? cs2' Hc2 H2']; subst. cbn in Hn. apply andb_true_iff in Hn as [Hd%Z.ltb_lt Hn].
    destruct Hc1 as (? & _ & _ & _ & L1). destruct Hc2 as (? & _ & _ & _ & L2). cbn in Ht. unfold field_text in Ht.
    rewrite !app_assoc_str in Ht. apply framed_inj in Ht as [_ Ht]; [|done..]. apply framed_inj in Ht as [-> Ht]; [|done..].
    f_equal. by apply IH.
Qed.

(** ** An identity determines its action *)

Lemma values_exact (m : SemanticValues) (names : list string) : NoDup names -> (forall n, n ∈ names -> is_Some (m !! n)) ->
  size m = length names -> dom m =@{gset string} list_to_set names.
Proof.
  intros Hnd Hin Hsize. symmetry. apply set_subseteq_size_eq.
  - intros n Hn%elem_of_list_to_set. by apply elem_of_dom, Hin.
  - rewrite size_dom, Hsize, size_list_to_set; done.
Qed.

Lemma field_names values ds cs : Forall2 (field_has values) ds cs -> forall n, n ∈ sf_Name <$> ds -> is_Some (values !! n).
Proof.
  intros H n (d & -> & Hd)%list_elem_of_fmap. apply list_elem_of_lookup in Hd as [i Hi].
  destruct (Forall2_lookup_l _ _ _ _ _ H Hi) as (c & _ & v & Hv & _). by exists v.
Qed.

Lemma fields_agree v1 v2 ds cs : Forall2 (field_has v1) ds cs -> Forall2 (field_has v2) ds cs ->
  forall n, n ∈ sf_Name <$> ds -> v1 !! n = v2 !! n.
Proof.
  intros H1 H2 n (d & -> & Hd)%list_elem_of_fmap. apply list_elem_of_lookup in Hd as [i Hi].
  destruct (Forall2_lookup_l _ _ _ _ _ H1 Hi) as (c & Hc & [t1 b1] & E1 & T1 & C1 & _).
  destruct (Forall2_lookup_l _ _ _ _ _ H2 Hi) as (c' & Hc' & [t2 b2] & E2 & T2 & C2 & _).
  rewrite Hc in Hc'. injection Hc' as <-. pose proof (canonical_value_bytes _ _ _ _ C1 C2) as Hb. cbn in *. congruence.
Qed.

(** What a derived identity is made of. *)
Lemma derive_Ok kind values id encoded : DeriveStableActionID kind values = Ok (id, encoded) ->
  exists e cs, semanticActionRegistry !! kind = Some e /\ size values = length (Fields e) /\
    Forall2 (field_has values) (Fields e) cs /\ id = digestText encoded /\
    encoded = (preimageMagic +:+ PutUint16 (RegistryVersion e) +:+ PutUint16 (EntryVersion e) +:+ framed 2 (DomainTag e) +:+
               framed 2 kind +:+ PutUint16 (zlen (Fields e) mod two16) +:+ fields_text (Fields e) cs)%string.
Proof.
  unfold DeriveStableActionID. intros H. apply bind_Ok in H as (e & He & H). apply bind_Ok in H as ([] & Hs & H).
  apply bind_Ok in H as (o1 & Ho1 & H). apply bind_Ok in H as (o2 & Ho2 & H). apply bind_Ok in H as (o3 & Ho3 & H).
  injection H as <- <-. apply opt_err_Ok in He. apply fail_if_Ok, negb_false_iff, Z.eqb_eq in Hs. unfold zlen in Hs.
  apply writeLP16_Ok in Ho1 as ->. apply writeLP16_Ok in Ho2 as ->. apply writeFields_Ok in Ho3 as (cs & Hcs & ->).
  destruct (registry_entry _ _ He) as [<- _]. exists e, cs. split; [done|]. split; [lia|]. split; [done|]. split; [done|].
  unfold writeU16. by rewrite !app_assoc_str.
Qed.

Lemma derived_domain kind values id encoded : DeriveStableActionID kind values = Ok (id, encoded) ->
  exists e, semanticActionRegistry !! kind = Some e /\ dom values =@{gset string} list_to_set (sf_Name <$> Fields e).
Proof.
  intros (e & cs & He & Hs & Hf & _)%derive_Ok. exists e. split; [done|]. destruct (registry_entry _ _ He) as [_ Hok].
  unfold entry_ok in Hok. rewrite !andb_true_iff in Hok. destruct_and?. apply values_exact; [by eapply bool_decide_eq_true|by eapply field_names|].
  by rewrite length_fmap.
Qed.

(** A value of a derived identity has the canonical form of its type. *)
Lemma derived_digest kind values id encoded n v : DeriveStableActionID kind values = Ok (id, encoded) ->
  values !! n = Some (Digest32 v) -> canonicalDigestPattern v = true.
Proof.
  intros H Hn. destruct (derived_domain _ _ _ _ H) as (e' & He' & D). apply derive_Ok in H as (e & cs & He & _ & F & _).
  rewrite He in He'. injection He' as <-. assert (n ∈ sf_Name <$> Fields e) as (d & -> & [i Hi]%list_elem_of_lookup)%list_elem_of_fmap.
  { apply (elem_of_list_to_set (C:=gset string)). rewrite <-D. apply elem_of_dom. by eexists. }
  destruct (Forall2_lookup_l _ _ _ _ _ F Hi) as (c & _ & w & Hw & Ht & Hc & _). rewrite Hn in Hw. injection Hw as <-.
  unfold canonicalSemanticValue in Hc. apply bind_Ok in Hc as (? & _ & Hc). rewrite <-Ht in Hc. cbn in Hc.
  apply bind_Ok in Hc as (? & Hp & _). by apply fail_if_Ok, negb_false_iff in Hp.
Qed.

Lemma preimage_inj k1 k2 v1 v2 id1 id2 encoded :
  DeriveStableActionID k1 v1 = Ok (id1, encoded) -> DeriveStableActionID k2 v2 = Ok (id2, encoded) -> k1 = k2 /\ v1 = v2.
Proof.
  intros H1 H2. destruct (derived_domain _ _ _ _ H1) as (e1' & He1' & D1). destruct (derived_domain _ _ _ _ H2) as (e2' & He2' & D2).
  apply derive_Ok in H1 as (e1 & cs1 & He1 & _ & F1 & _ & E1). apply derive_Ok in H2 as (e2 & cs2 & He2 & _ & F2 & _ & E2).
  rewrite He1 in He1'. rewrite He2 in He2'. injection He1' as <-. injection He2' as <-. rewrite E1 in E2. clear E1. destruct (registry_entry _ _ He1) as [K1 O1]. destruct (registry_entry _ _ He2) as [K2 O2].
  unfold entry_ok in O1, O2. rewrite !andb_true_iff in O1. rewrite !andb_true_iff in O2. destruct_and?.
  repeat match goal with H : (_ <? _) = true |- _ => apply Z.ltb_lt in H end.
  apply app_inj_len in E2 as [_ E2]; [|done]. do 2 (apply app_inj_len in E2 as [_ E2]; [|apply put_same_length]).
  apply framed_inj in E2 as [_ E2]; [|done..]. apply framed_inj in E2 as [-> E2]; [|by rewrite <-K1|by rewrite <-K2]. split; [done|].
  rewrite He1 in He2. injection He2 as <-.
  apply app_inj_len in E2 as [_ E2]; [|done]. apply (fields_text_inj v1 v2) in E2; [|done..]. subst cs2.
  apply map_eq. intros n. destruct (decide (n ∈ sf_Name <$> Fields e1)) as [Hn|Hn]; [by eapply fields_agree|].
  assert (forall v : SemanticValues, dom v =@{gset string} list_to_set (sf_Name <$> Fields e1) -> v !! n = None) as Hout.
  { intros v Hv. apply not_elem_of_dom. rewrite Hv. by rewrite elem_of_list_to_set. }
  by rewrite (Hout v1), (Hout v2).
Qed.

Lemma digestText_inj a b : digestText a = digestText b -> a = b \/ collides a b.
Proof. unfold digestText. intros H. apply Sum256_inj, hex_encode_inj. by apply app_inj_len in H as [_ H]. Qed.

Lemma stable_id_inj k1 k2 v1 v2 id encoded1 encoded2 :
  DeriveStableActionID k1 v1 = Ok (id, encoded1) -> DeriveStableActionID k2 v2 = Ok (id, encoded2) ->
  (k1 = k2 /\ v1 = v2 /\ encoded1 = encoded2) \/ collides encoded1 encoded2.
Proof.
  intros H1 H2. pose proof (derive_Ok _ _ _ _ H1) as (_ & _ & _ & _ & _ & I1 & _).
  pose proof (derive_Ok _ _ _ _ H2) as (_ & _ & _ & _ & _ & I2 & _). rewrite I1 in I2.
  destruct (digestText_inj _ _ I2) as [<-|]; [left|by right].
  destruct (preimage_inj _ _ _ _ _ _ _ H1 H2) as [Hk Hv]. exact (conj Hk (conj Hv eq_refl)).
Qed.

(** C12: a stable action identity names exactly one action.  Two derivations give the
    same identity if and only if they are of the same kind with the same field values
    (and then they hash the same text), unless the very two texts they hash, which
    both derivations return, differ and have the same SHA-256 hash. *)
Theorem stable_action_id_binds (k1 k2 : string) (v1 v2 : SemanticValues) (id1 id2 encoded1 encoded2 : string) :
  DeriveStableActionID k1 v1 = Ok (id1, encoded1) -> DeriveStableActionID k2 v2 = Ok (id2, encoded2) ->
  (id1 = id2 <-> (k1 = k2 /\ v1 = v2 /\ encoded1 = encoded2) \/ collides encoded1 encoded2).
Proof.
  intros H1 H2. split.
  - intros <-. exact (stable_id_inj _ _ _ _ _ _ _ H1 H2).
  - apply derive_Ok in H1 as (_ & _ & _ & _ & _ & -> & _). apply derive_Ok in H2 as (_ & _ & _ & _ & _ & -> & _).
    intros [(_ & _ & ->)|[_ H]]; [reflexivity|]. unfold digestText. by rewrite H.
Qed.

(** The text an action's identity is the hash of. *)
Definition action_text (kind : string) (values : SemanticValues) : string :=
  match DeriveStableActionID kind values with Ok (_, encoded) => encoded | _ => ""%string end.

Lemma stable_id_texts k1 k2 v1 v2 id encoded1 encoded2 :
  DeriveStableActionID k1 v1 = Ok (id, encoded1) -> DeriveStableActionID k2 v2 = Ok (id, encoded2) ->
  (k1 = k2 /\ v1 = v2) \/ collides (action_text k1 v1) (action_text k2 v2).
Proof.
  intros H1 H2. unfold action_text. rewrite H1, H2.
  destruct (stable_id_inj _ _ _ _ _ _ _ H1 H2) as [(Hk & Hv & _)|Hc]; [left; exact (conj Hk Hv)|right; exact Hc].
Qed.




(** The text that [framedSHA256] hashes. *)
Definition framed_text (domain canonical : string) : string := domain +:+ PutUint32 (wrap32 (slen canonical)) +:+ canonical.

Lemma framedSHA256_inj domain a b : framedSHA256 domain a = framedSHA256 domain b ->
  a = b \/ collides (framed_text domain a) (framed_text domain b).
Proof.
  intros [H|]%Sum256_inj; [left|by right]. apply app_inj_len in H as [_ H]; [|done].
  by apply app_inj_len in H as [_ H]; [|apply put_same_length].
Qed.

(** The text a request's digest is the hash of. *)
Definition request_text (body : string) : string := framed_text ("tos.action-request.v1" +:+ bytes [0%N]) body.

(** Equal digests are of equal request bodies, unless the two hashed texts collide. *)
Lemma exact_request_binds (body1 body2 digest : string) :
  ExactRequestDigest body1 = Ok digest -> ExactRequestDigest body2 = Ok digest ->
  body1 = body2 \/ collides (request_text body1) (request_text body2).
Proof.
  unfold ExactRequestDigest. intros H1 H2. apply bind_Ok in H1 as (? & _ & H1). apply bind_Ok in H2 as (? & _ & H2).
  rewrite <-H2 in H1. apply (f_equal (fun r => match r with Ok s => drop_bytes 7 s | _ => "" end)) in H1.
  cbn in H1. apply hex_encode_inj in H1. by eapply framedSHA256_inj.
Qed.

(** ** The transport form and the values *)

(** The value a wire field stands for. *)
Definition wire_value (w : SemanticFieldValue) : SemanticValue :=
  match Number w with Some n => U64 n | None => semanticText (FieldType w) (FieldText w) end.

(** The wire field's encoding is the one of its definition. *)
Definition wire_ok (d : SemanticFieldDefinition) (w : SemanticFieldValue) : Prop :=
  Name w = sf_Name d /\ FieldType w = sf_Type d /\
  match Number w with
  | Some _ => sf_Type d = SemanticU64 /\ FieldText w = ""%string
  | None => sf_Type d <> SemanticU64 /\ FieldText w <> ""%string
  end.

Lemma nonempty_true s : nonempty s = true <-> s <> ""%string.
Proof. unfold nonempty. by rewrite negb_true_iff, bool_decide_eq_false. Qed.

Lemma import_step m d w m' : importField m (d, w) = Ok m' <-> wire_ok d w /\ m' = <[sf_Name d := wire_value w]> m.
Proof.
  unfold importField, wire_ok, wire_value. rewrite bind_Ok. split.
  - intros (? & Hg & H). apply fail_if_Ok, orb_false_iff in Hg as [Hn Ht]. apply negb_false_iff, streq_true in Hn.
    apply negb_false_iff, bool_decide_eq_true in Ht. rewrite <-Hn. case_bool_decide as Hu; destruct (Number w); inv_ok.
    + apply not_true_iff_false in H. rewrite nonempty_true in H. repeat split; try done. by apply dec_stable.
    + apply negb_false_iff, nonempty_true in H. done.
  - intros [(Hn & Ht & Hw) ->]. exists tt. rewrite <-Hn, <-Ht in *. rewrite fail_if_Ok. split.
    + apply orb_false_iff. split; apply negb_false_iff; [by apply streq_true|by apply bool_decide_eq_true].
    + destruct (Number w); destruct Hw as [Hu Hx].
      * rewrite bool_decide_eq_true_2 by done. by rewrite Hx.
      * rewrite bool_decide_eq_false_2 by done. apply nonempty_true in Hx. by rewrite Hx.
Qed.

(** Importing sets exactly the listed names. *)
Lemma import_fold m ds ws m' : length ds = length ws -> NoDup (sf_Name <$> ds) ->
  foldM importField m (zip ds ws) = Ok m' <->
  Forall2 wire_ok ds ws /\ Forall2 (fun d w => m' !! sf_Name d = Some (wire_value w)) ds ws /\
  forall n, n ∉ sf_Name <$> ds -> m' !! n = m !! n.
Proof.
  revert m ws. induction ds as [|d ds IH]; intros m [|w ws] Hl Hnd; try discriminate Hl; cbn.
  - split; [intros [= <-]; by repeat constructor|]. intros (_ & _ & H). f_equal. apply map_eq. intros n. symmetry. apply H. set_solver.
  - rewrite fmap_cons in *. apply NoDup_cons in Hnd as [Hd Hnd]. injection Hl as Hl. rewrite bind_Ok. split.
    + intros (m1 & [Hok ->]%import_step & (H1 & H2 & H3)%IH); [|done..]. split; [by constructor|]. split.
      * constructor; [|done]. by rewrite H3, lookup_insert_eq.
      * intros n Hn. rewrite H3, lookup_insert_ne; set_solver.
    + intros (Hok & Hval & Hout). inversion_clear Hok. inversion_clear Hval as [|? ? ? ? Hv Hvs].
      exists (<[sf_Name d := wire_value w]> m). split; [by apply import_step|]. apply IH; [done..|]. split; [done|]. split; [done|].
      intros n Hn. destruct (decide (n = sf_Name d)) as [->|Hne]; [by rewrite lookup_insert_eq|].
      rewrite lookup_insert_ne by done. apply Hout. set_solver.
Qed.

Lemma uint64_roundtrip b : slen b = 8 -> exists n, Uint64 b = Ok n /\ PutUint64 n = b /\ u64 n.
Proof.
  intros Hb. assert (length (bytes_of b) = 8%nat) as Hl by (rewrite bytes_of_length; unfold slen in Hb; lia).
  unfold Uint64. rewrite Hb, take_ge by lia. eexists. split; [reflexivity|]. pose proof (bytes_of_range b) as Hr. split.
  - unfold PutUint64. pose proof (be_bytes_value _ Hr) as H. rewrite Hl in H. by rewrite H, of_bytes_bytes_of.
  - pose proof (be_value_range _ Hr) as H. by rewrite Hl in H.
Qed.

Lemma uint64_put n : u64 n -> Uint64 (PutUint64 n) = Ok n.
Proof.
  intros Hn. unfold Uint64, PutUint64. rewrite put_length. rewrite bytes_of_of_bytes by apply be_bytes_range.
  rewrite take_ge by by rewrite be_bytes_length. f_equal. by apply be_value_bytes.
Qed.

Lemma U64_inj x y : u64 x -> u64 y -> U64 x = U64 y -> x = y.
Proof. intros Hx Hy H. apply (f_equal value_bytes) in H. exact (put_inj 8 x y Hx Hy H). Qed.

(** A numeric wire field holds a uint64. *)
Definition wire_range (w : SemanticFieldValue) : Prop := match Number w with Some n => u64 n | None => True end.

Lemma export_step values d c : field_has values d c ->
  exists w, exportField values d = Ok w /\ wire_ok d w /\ values !! sf_Name d = Some (wire_value w) /\ wire_range w.
Proof.
  intros ([t b] & Hv & Ht & Hc & _). unfold exportField, canonicalSemanticValue in *. rewrite Hv. cbn in *.
  apply bind_Ok in Hc as (? & Hlen & Hc). apply fail_if_Ok, orb_false_iff in Hlen as [Hlen%Z.eqb_neq _].
  case_bool_decide as Hu.
  - rewrite Hu in Hc. apply bind_Ok in Hc as (? & H8 & _). apply fail_if_Ok, negb_false_iff, Z.eqb_eq in H8.
    destruct (uint64_roundtrip b H8) as (n & Hn & Hp & Hr). rewrite Hn. eexists. split; [reflexivity|]. unfold wire_ok, wire_value, U64, wire_range.
    cbn -[PutUint64]. rewrite Hp, Ht, Hu. repeat split; [exact (proj1 Hr)|exact (proj2 Hr)].
  - eexists. split; [reflexivity|]. unfold wire_ok, wire_value, semanticText. cbn. rewrite Ht. repeat split; [done|]. by intros ->.
Qed.

Lemma export_wire values d w : wire_ok d w -> wire_range w -> values !! sf_Name d = Some (wire_value w) -> exportField values d = Ok w.
Proof.
  destruct w as [wn wt wx wm]. unfold wire_ok, wire_range, wire_value, exportField. cbn -[PutUint64]. intros (-> & -> & Hw) Hr ->. cbn -[PutUint64 Uint64].
  destruct wm as [n|]; destruct Hw as [Hu Hx].
  - rewrite bool_decide_eq_true_2 by done. cbn -[PutUint64 Uint64]. rewrite uint64_put by done. cbn. by rewrite Hx.
  - by rewrite bool_decide_eq_false_2.
Qed.

Lemma export_all values ds cs : Forall2 (field_has values) ds cs ->
  exists ws, mapE (exportField values) ds = Ok ws /\ Forall2 wire_ok ds ws /\
    Forall2 (fun d w => values !! sf_Name d = Some (wire_value w)) ds ws /\ Forall wire_range ws.
Proof.
  induction 1 as [|d c ds cs Hc _ (ws & E & H1 & H2 & H3)]; [exists []; by repeat constructor|].
  destruct (export_step _ _ _ Hc) as (w & Ew & Hok & Hv & Hr). exists (w :: ws). cbn. rewrite Ew. cbn. rewrite E.
  split; [done|]. split; [by constructor|]. split; by constructor.
Qed.

Lemma derived_fields kind values id encoded : DeriveStableActionID kind values = Ok (id, encoded) ->
  exists e cs, semanticActionRegistry !! kind = Some e /\ NoDup (sf_Name <$> Fields e) /\ size values = length (Fields e) /\
    Forall2 (field_has values) (Fields e) cs /\ forall n, n ∉ sf_Name <$> Fields e -> values !! n = None.
Proof.
  intros H. destruct (derived_domain _ _ _ _ H) as (e' & He' & Hd). apply derive_Ok in H as (e & cs & He & Hs & Hf & _).
  rewrite He in He'. injection He' as <-. exists e, cs. destruct (registry_entry _ _ He) as [_ Hok]. unfold entry_ok in Hok.
  rewrite !andb_true_iff in Hok. destruct_and?. split; [done|]. split; [by eapply bool_decide_eq_true|]. split; [done|]. split; [done|].
  intros n Hn. apply not_elem_of_dom. by rewrite Hd, elem_of_list_to_set.
Qed.

(** Exporting and importing semantic fields are inverse to each other: for every
    action kind, the values export to a wire list exactly when that list imports to
    the values.  Neither fails on what the other produced, so a broker that imports
    an exported list derives the same identity as the exporter. *)
Theorem semantic_fields_roundtrip (kind : string) (values : SemanticValues) (fields : list SemanticFieldValue) :
  Forall wire_range fields ->
  ExportSemanticFields kind values = Ok fields <-> ImportSemanticFields kind fields = Ok values.
Proof.
  intros Hrange. unfold ExportSemanticFields, ImportSemanticFields. split; intros H.
  - apply bind_Ok in H as (e & He & H). apply bind_Ok in H as (? & _ & H). apply bind_Ok in H as ([id encoded] & Hd & Hm).
    rewrite He. cbn [mbind result_bind]. destruct (derived_fields _ _ _ _ Hd) as (e' & cs & He' & Hnd & Hs & Hf & Hout).
    apply opt_err_Ok in He. rewrite He in He'. injection He' as <-. destruct (export_all _ _ _ Hf) as (ws & Ew & H1 & H2 & _).
    rewrite Ew in Hm. injection Hm as <-. pose proof (Forall2_length _ _ _ H1) as Hl. unfold zlen. rewrite Hl, Z.eqb_refl. cbn [negb fail_if mbind result_bind].
    assert (foldM importField ∅ (zip (Fields e) ws) = Ok values) as ->.
    { apply import_fold; [done..|]. split; [done|]. split; [done|]. intros n Hn. by rewrite (Hout n Hn). }
    cbn [mbind result_bind]. rewrite Hd. reflexivity.
  - apply bind_Ok in H as (e & He & H). apply bind_Ok in H as (? & Hl & H). apply bind_Ok in H as (m & Hm & H).
    apply bind_Ok in H as ([id encoded] & Hd & H). injection H as ->. apply fail_if_Ok, negb_false_iff, Z.eqb_eq in Hl. unfold zlen in Hl.
    rewrite He. cbn [mbind result_bind]. destruct (derived_fields _ _ _ _ Hd) as (e' & cs & He' & Hnd & Hs & Hf & Hout).
    apply opt_err_Ok in He. rewrite He in He'. injection He' as <-. unfold zlen. rewrite Hs, Z.eqb_refl. cbn [negb fail_if mbind result_bind].
    rewrite Hd. cbn [mbind result_bind]. apply import_fold in Hm as (H1 & H2 & _); [|lia|done]. apply mapE_Ok.
    apply Forall2_same_length_lookup_2; [by eapply Forall2_length|]. intros i d w Hdi Hwi.
    apply export_wire; [by eapply Forall2_lookup_lr|by eapply Forall_lookup_1|]. by eapply (Forall2_lookup_lr (fun d w => values !! sf_Name d = Some (wire_value w))).
Qed.

(** ** The calls return *)

Lemma canonical_total d v : no_panic (canonicalSemanticValue d v).
Proof. unfold canonicalSemanticValue. solve_total. Qed.

Lemma write_field_total values output d : no_panic (writeField values output d).
Proof.
  unfold writeField, writeLP16, writeLP32. pose proof (canonical_total d) as H.
  assert (forall A n (m : result string A), no_panic m -> no_panic (fieldErr n m)) by by intros ? ? []. solve_total.
Qed.

Lemma derive_total kind values : no_panic (DeriveStableActionID kind values).
Proof.
  unfold DeriveStableActionID, writeLP16. pose proof (write_field_total values) as H.
  assert (forall o l, no_panic (foldM (writeField values) o l)) by (intros; by apply foldM_no_panic). solve_total.
Qed.

Lemma export_total kind values : no_panic (ExportSemanticFields kind values).
Proof.
  unfold ExportSemanticFields. destruct (semanticActionRegistry !! kind) as [e|] eqn:He; [|done]. cbn [opt_err mbind result_bind].
  apply bind_no_panic; [apply fail_if_no_panic|]. intros _ _. apply bind_no_panic; [apply derive_total|]. intros [id encoded] Hd.
  destruct (derived_fields _ _ _ _ Hd) as (e' & cs & He' & _ & _ & Hf & _). rewrite He in He'. injection He' as <-.
  by destruct (export_all _ _ _ Hf) as (ws & -> & _).
Qed.

Lemma import_total kind fields : no_panic (ImportSemanticFields kind fields).
Proof.
  unfold ImportSemanticFields. pose proof derive_total as H.
  assert (forall m p, no_panic (importField m p)) as Hi by (intros m [d w]; unfold importField; solve_total).
  assert (forall m l, no_panic (foldM importField m l)) by (intros; by apply foldM_no_panic). solve_total.
Qed.

#[export] Hint Resolve derive_total export_total import_total : no_panic.

(** ** A sample action *)
Module Sample.

Definition dg (c : ascii) : string := "sha256:" +:+ repeat_byte c 64.

Definition prepare : SemanticValues :=
  <["owner_id"%string := ID "owner"]> (<["agent_id"%string := ID "agent"]> (<["execution_id"%string := Digest32 (dg "a")]> ∅)).

Definition prepare_other : SemanticValues := <["execution_id"%string := Digest32 (dg "b")]> prepare.

Definition journal : SemanticValues :=
  list_to_map [("owner_id", ID "owner"); ("agent_id", ID "agent"); ("ordering_domain", Digest32 (dg "1")); ("epoch", U64 7);
               ("sequence", U64 (2 ^ 63)); ("event_content_id", Digest32 (dg "2"))]%string.

Definition wire : list SemanticFieldValue :=
  match ExportSemanticFields "operation.journal.append" journal with Ok fields => fields | _ => [] end.

Example wire_numbers : Number <$> wire = [None; None; None; Some 7; Some (2 ^ 63); None].
Proof. vm_compute. reflexivity. Qed.

(** The kind is part of the identity. *)
Example kinds_differ :
  match DeriveStableActionID "execution.prepare" prepare, DeriveStableActionID "execution.start" prepare with
  | Ok (a, _), Ok (b, _) => negb (streq a b)
  | _, _ => false
  end = true.
Proof. vm_compute. reflexivity. Qed.

Lemma stable_action_id_binds_witness :
  match DeriveStableActionID "execution.prepare" prepare, DeriveStableActionID "execution.prepare" prepare_other,
        DeriveStableActionID "execution.start" prepare with
  | Ok (id, encoded), Ok (id_other, encoded_other), Ok (id_start, encoded_start) =>
      (id = id_other <-> collides encoded encoded_other) /\ (id = id_start <-> collides encoded encoded_start)
  | _, _, _ => False
  end.
Proof.
  assert (is_ok (DeriveStableActionID "execution.prepare" prepare) && is_ok (DeriveStableActionID "execution.prepare" prepare_other) &&
          is_ok (DeriveStableActionID "execution.start" prepare) = true) as Hok by (vm_compute; reflexivity).
  assert (prepare <> prepare_other) as Hne by (eapply bool_decide_eq_false; vm_compute; reflexivity).
  destruct (DeriveStableActionID "execution.prepare" prepare) as [[id encoded]| |] eqn:H1; [|discriminate Hok..].
  destruct (DeriveStableActionID "execution.prepare" prepare_other) as [[id_other encoded_other]| |] eqn:H2; [|discriminate Hok..].
  destruct (DeriveStableActionID "execution.start" prepare) as [[id_start encoded_start]| |] eqn:H3; [|discriminate Hok..].
  split.
  - rewrite (stable_action_id_binds _ _ _ _ _ _ _ _ H1 H2). split; [intros [(_ & H & _)|H]; [destruct (Hne H)|exact H]|intros H; right; exact H].
  - rewrite (stable_action_id_binds _ _ _ _ _ _ _ _ H1 H3). split; [intros [(H & _)|H]; [discriminate H|exact H]|intros H; right; exact H].
Defined.


Lemma semantic_fields_roundtrip_witness :
  ImportSemanticFields "operation.journal.append" wire = Ok journal.
Proof.
  assert (is_ok (ExportSemanticFields "operation.journal.append" journal) = true) as Hok by (vm_compute; reflexivity).
  assert (forallb (fun w => match Number w with Some n => (0 <=? n) && (n <? two64) | None => true end) wire = true) as Hr
    by (vm_compute; reflexivity).
  apply (semantic_fields_roundtrip "operation.journal.append" journal wire).
  - apply Forall_forall. intros w Hw. rewrite forallb_forall in Hr. specialize (Hr w (proj1 (list_elem_of_In _ _) Hw)).
    unfold wire_range. destruct (Number w); [by apply u64_lit|exact I].
  - unfold wire. destruct (ExportSemanticFields "operation.journal.append" journal); [reflexivity|discriminate Hok..].
Defined.
End Sample.
