(* ===== verification/Authority.v ===== *)
(** * Writer fences and authorized actions (src/pkg/agentcommerce/authority.go)

    An owner's authority leases the right to act to one writer at a time (a fence)
    and signs each action of that writer.  This file models the checks a sink makes
    before it carries an action out, and the issuing side. *)

From S2P Require Import Prelude Text Sha256 Base64 Codec Semantic.

(** ** Instants (package time)

    Seconds since the year 1 as an int64, and nanoseconds; the zone does not matter. *)

Record Time := { t_sec : Z; t_nsec : Z }.

Definition int64 (z : Z) : Z := (z + 2 ^ 63) mod two64 - 2 ^ 63.
Definition unixToInternal : Z := 62135596800.

(** [time.Unix(int64(seconds), 0)] *)
Definition UnixTime (seconds : Z) : Time := {| t_sec := int64 (int64 seconds + unixToInternal); t_nsec := 0 |}.

Definition Before (t u : Time) : bool := (t_sec t <? t_sec u) || ((t_sec t =? t_sec u) && (t_nsec t <? t_nsec u)).

(** [t.Add(-d)] for a whole number of seconds; the sum saturates. *)
Definition SubSeconds (t : Time) (d : Z) : Time :=
  let sum := int64 (t_sec t - d) in
  {| t_sec := (if Bool.eqb (t_sec t <? sum) (0 <? - d) then sum else - (2 ^ 63 - 1)); t_nsec := t_nsec t |}.

(** An instant after 1970 that an int64 of seconds can hold. *)
Definition after1970 (t : Time) : Prop := unixToInternal <= t_sec t < 2 ^ 63 /\ 0 <= t_nsec t.
Definition unixSeconds (t : Time) : Z := t_sec t - unixToInternal.

(** ** Data *)

Definition MaxIntentClockSkew : Z := 5 * 60.

Record WriterFenceBody := {
  wf_SchemaVersion : Z; wf_OwnerID : string; wf_AgentID : string; InstanceID : string; LeaseID : string;
  wf_WriterGeneration : Z; wf_IssuedAtUnix : Z; wf_ExpiresAtUnix : Z; wf_AuthorityID : string; Scope : list string }.

Record WriterFence := { wf_Body : WriterFenceBody; wf_PublicKey : string; Proof : string }.

Record AuthorizedAction := {
  ac_SchemaVersion : Z; ac_OwnerID : string; ac_AgentID : string; ActionKind : string; ac_StableActionID : string;
  ac_ExactRequestDigest : string; ac_WriterGeneration : Z; ac_WriterFenceDigest : string; ac_PolicyRevision : Z;
  ac_MandateDigest : string; ac_ApprovalDigest : string; ExpectedPriorState : string; ac_ExpiresAtUnix : Z;
  ac_AuthorityID : string; AuthorityPublicKey : string; AuthorizationProof : string }.

Record AuthorityInstanceAllocationRequest := {
  ia_OwnerID : string; ia_AgentID : string; PurposeKind : string; ia_MandateDigest : string; ApprovalDigestOrZero : string;
  EffectDescriptorDigest : string; PredecessorAuthorityInstanceID : string }.

Inductive ActionResolutionState :=
  | ActionPrepared | ActionSubmitted | ActionAccepted | ActionRejected | ActionConflict | ActionTerminal
  | ActionUnknown | ActionStateOther (s : string).
#[global] Instance ActionResolutionState_eq_dec : EqDecision ActionResolutionState.
Proof. solve_decision. Defined.

Record ActionResolution := {
  ar_StableActionID : string; ar_ExactRequestDigest : string; ar_State : ActionResolutionState; SinkReference : string;
  ar_EvidenceRefs : list string; ar_StateRevision : Z }.

(** ** The codec and the signature scheme *)

Class CommerceCodec := {
  (* codec.Marshal of each document *)
  marshal_fence_body : WriterFenceBody -> option string;
  marshal_fence : WriterFence -> option string;
  marshal_action : AuthorizedAction -> option string;
  marshal_allocation : AuthorityInstanceAllocationRequest -> option string;
  (* crypto/ed25519 *)
  ed25519_Verify : string -> string -> string -> bool }.

(** The check of a key against the authorities an owner trusts. *)
Definition FenceAuthorityResolver := string -> string -> Time -> result string unit.

(** ** Texts (intent.go, agreement.go) *)

Definition boundedUTF8 (value : string) (minimum maximum : Z) : bool :=
  (minimum <=? slen value) && (slen value <=? maximum) && utf8_ok value.

Definition boundedIdentifier (value : string) (maximum : Z) : bool :=
  boundedUTF8 value 1 maximum && trimmed value &&
  all_bytes (fun c => negb ((byte_val c =? 0) || (byte_val c =? 13) || (byte_val c =? 10))) value.

Definition validateSortedStrings (values : list string) (maximumItems maximumBytes : Z) : bool :=
  (zlen values <=? maximumItems) && forallb (fun v => boundedIdentifier v maximumBytes) values && ascending_list values.
Definition validateSortedDigests (values : list string) (maximum : Z) : bool :=
  (zlen values <=? maximum) && forallb canonicalDigestPattern values && ascending_list values.

(** The loop of [sort.SearchStrings]: the least index whose value is not below the target. *)
Fixpoint searchStrings (fuel : nat) (values : list string) (target : string) (i j : nat) : nat :=
  match fuel with
  | O => i
  | S fuel =>
      if (i <? j)%nat then
        let h := Nat.div2 (i + j) in
        match values !! h with
        | Some value => if bool_decide (bytes_lt value target) then searchStrings fuel values target (S h) j
                        else searchStrings fuel values target i h
        | None => i
        end
      else i
  end.
Definition SearchStrings (values : list string) (target : string) : nat :=
  searchStrings (S (length values)) values target 0 (length values).

Definition containsSorted (values : list string) (target : string) : bool :=
  match values !! SearchStrings values target with Some value => streq value target | None => false end.

Definition parseEd25519PublicKey (value : string) : result string string :=
  parse_key "public key scheme is invalid" "public key is invalid" value.
Definition parseEd25519Signature (value : string) : result string string :=
  parse_signature "signature scheme is invalid" "signature is invalid" value.

Definition canonicalDigestOrZero (value : string) : bool :=
  streq value ("sha256:" +:+ repeat_byte "0" 64) || canonicalDigestPattern value.

(** ** Shapes *)

Definition knownKind (kind : string) : bool := match semanticActionRegistry !! kind with Some _ => true | None => false end.

Definition validateWriterFenceBody (body : WriterFenceBody) : result string unit :=
  fail_if (negb (wf_SchemaVersion body =? 1) || negb (boundedIdentifier (wf_OwnerID body) 256) ||
           negb (boundedIdentifier (wf_AgentID body) 256) || negb (boundedIdentifier (InstanceID body) 256) ||
           negb (boundedIdentifier (LeaseID body) 256) || (wf_WriterGeneration body =? 0) || (wf_IssuedAtUnix body =? 0) ||
           (wf_ExpiresAtUnix body <=? wf_IssuedAtUnix body) ||
           (24 * 60 * 60 <? wf_ExpiresAtUnix body - wf_IssuedAtUnix body) ||
           negb (boundedIdentifier (wf_AuthorityID body) 256) || (zlen (Scope body) =? 0) ||
           negb (validateSortedStrings (Scope body) 64 128)) "writer fence body is invalid"%string;;
  foldM (fun _ kind => fail_if (negb (knownKind kind)) ("writer fence contains unknown action scope " +:+ quoted kind)%string) tt (Scope body).

Definition validateAuthorizedActionShape (action : AuthorizedAction) : result string unit :=
  fail_if (negb (ac_SchemaVersion action =? 1) || negb (boundedIdentifier (ac_OwnerID action) 256) ||
           negb (boundedIdentifier (ac_AgentID action) 256) || negb (knownKind (ActionKind action)) ||
           negb (canonicalDigestPattern (ac_StableActionID action)) || negb (canonicalDigestPattern (ac_ExactRequestDigest action)) ||
           (ac_WriterGeneration action =? 0) || negb (canonicalDigestPattern (ac_WriterFenceDigest action)) ||
           (ac_PolicyRevision action =? 0) || negb (canonicalDigestPattern (ac_MandateDigest action)) ||
           (negb (streq (ac_ApprovalDigest action) "") && negb (canonicalDigestPattern (ac_ApprovalDigest action))) ||
           negb (boundedIdentifier (ExpectedPriorState action) 128) || (ac_ExpiresAtUnix action =? 0) ||
           negb (boundedIdentifier (ac_AuthorityID action) 256) ||
           xorb (streq (AuthorityPublicKey action) "") (streq (AuthorizationProof action) "")) "authorized action is invalid"%string;;
  if streq (AuthorityPublicKey action) "" then Ok tt
  else
    or_err (parseEd25519PublicKey (AuthorityPublicKey action)) "authorized action authority key is invalid"%string;;
    or_err (parseEd25519Signature (AuthorizationProof action)) "authorized action proof encoding is invalid"%string;;
    Ok tt.

Definition validateSemanticActionPrincipals (ownerID agentID : string) (fields : SemanticValues) : result string unit :=
  let differ := "semantic action principals differ from the authorized action"%string in
  match fields !! "owner_id"%string, fields !! "agent_id"%string with
  | Some owner, Some agent =>
      fail_if (negb (bool_decide (typeOf owner = SemanticID)) || negb (bool_decide (typeOf agent = SemanticID)) ||
               negb (streq (value_bytes owner) ownerID) || negb (streq (value_bytes agent) agentID)) differ
  | _, _ => Err differ
  end.

Definition ValidateActionResolution (resolution : ActionResolution) : result string unit :=
  fail_if (negb (canonicalDigestPattern (ar_StableActionID resolution)) || negb (canonicalDigestPattern (ar_ExactRequestDigest resolution)) ||
           (ar_StateRevision resolution =? 0) || negb (validateSortedDigests (ar_EvidenceRefs resolution) 256) ||
           (1024 <? slen (SinkReference resolution))) "action resolution is invalid"%string;;
  match ar_State resolution with
  | ActionUnknown =>
      fail_if (negb (ar_StateRevision resolution =? 1) || negb (streq (SinkReference resolution) "") ||
               negb (zlen (ar_EvidenceRefs resolution) =? 0)) "unknown action carries sink state"%string
  | ActionStateOther _ => Err "action resolution state is unknown"%string
  | _ => Ok tt
  end.

(** ** Instants and Unix seconds *)

Lemma int64_small z : - 2 ^ 63 <= z < 2 ^ 63 -> int64 z = z.
Proof. intros H. unfold int64, two64. rewrite Z.mod_small; lia. Qed.

Lemma unix_wraps x : u64 x -> t_sec (UnixTime x) = (if x + unixToInternal <? 2 ^ 63 then x + unixToInternal else x + unixToInternal - two64).
Proof.
  unfold u64, UnixTime, int64, two64, unixToInternal. cbn [t_sec]. intros Hx. case_match eqn:E; [apply Z.ltb_lt in E|apply Z.ltb_ge in E];
    Z.to_euclidean_division_equations; lia.
Qed.

(** Before an expiry, in this era: the expiry is representable and later. *)
Lemma before_unix t x : after1970 t -> u64 x -> Before t (UnixTime x) = true -> unixSeconds t < x /\ x + unixToInternal < 2 ^ 63.
Proof.
  intros [Ht Hn] Hx. unfold Before, unixSeconds. rewrite (unix_wraps x Hx). cbn [t_nsec UnixTime].
  rewrite orb_true_iff, andb_true_iff, !Z.ltb_lt, Z.eqb_eq. unfold u64, two64 in *.
  case_match eqn:E; [apply Z.ltb_lt in E|apply Z.ltb_ge in E]; lia.
Qed.

Lemma not_before_skew t x : after1970 t -> u64 x -> x + unixToInternal < 2 ^ 63 ->
  Before t (SubSeconds (UnixTime x) MaxIntentClockSkew) = false -> x - MaxIntentClockSkew <= unixSeconds t.
Proof.
  intros [Ht Hn] Hx Hlt. unfold Before, SubSeconds, unixSeconds. rewrite (unix_wraps x Hx). cbn [t_sec t_nsec].
  apply Z.ltb_lt in Hlt as Hlt'. rewrite Hlt'. unfold u64, unixToInternal, MaxIntentClockSkew in *. rewrite int64_small by lia.
  assert ((x + 62135596800 <? x + 62135596800 - 5 * 60) = false) as -> by (apply Z.ltb_ge; lia). cbn [Bool.eqb].
  change (0 <? - (5 * 60)) with false. cbn [Bool.eqb]. rewrite orb_false_iff, andb_false_iff, !Z.ltb_ge, Z.eqb_neq. lia.
Qed.

(** Conversely, inside the window. *)
Lemma unix_before t x : after1970 t -> u64 x -> x + unixToInternal < 2 ^ 63 -> unixSeconds t < x -> Before t (UnixTime x) = true.
Proof.
  intros [Ht Hn] Hx Hlt Hs. unfold Before, unixSeconds in *. rewrite (unix_wraps x Hx). apply Z.ltb_lt in Hlt. rewrite Hlt.
  apply orb_true_iff. left. apply Z.ltb_lt. lia.
Qed.

Lemma unix_not_before_skew t x : after1970 t -> u64 x -> x + unixToInternal < 2 ^ 63 -> x - MaxIntentClockSkew <= unixSeconds t ->
  Before t (SubSeconds (UnixTime x) MaxIntentClockSkew) = false.
Proof.
  intros [Ht Hn] Hx Hlt Hs. unfold Before, SubSeconds, unixSeconds in *. rewrite (unix_wraps x Hx). cbn [t_sec t_nsec UnixTime].
  apply Z.ltb_lt in Hlt as Hlt'. rewrite Hlt'. unfold u64, unixToInternal, MaxIntentClockSkew in *. rewrite int64_small by lia.
  assert ((x + 62135596800 <? x + 62135596800 - 5 * 60) = false) as -> by (apply Z.ltb_ge; lia).
  change (0 <? - (5 * 60)) with false. cbn [Bool.eqb]. rewrite orb_false_iff, andb_false_iff, !Z.ltb_ge. lia.
Qed.

(** ** Binary search in a sorted scope *)

Definition sorted (values : list string) : Prop :=
  forall i j a b, (i < j)%nat -> values !! i = Some a -> values !! j = Some b -> bytes_lt a b.

Lemma bytes_lt_trans a b c : bytes_lt a b -> bytes_lt b c -> bytes_lt a c.
Proof. apply cmp_bytes_lt_trans. Qed.

Lemma ascending_above p l : ascending p l = true -> forall i a, l !! i = Some a -> bytes_lt p a.
Proof.
  revert p. induction l as [|v l IH]; intros p H i a Ha; [done|]. cbn in H. apply andb_true_iff in H as [Hv%bool_decide_eq_true H].
  destruct i as [|i]; [by injection Ha as <-|]. eapply bytes_lt_trans; [done|by eapply IH].
Qed.

Lemma ascending_sorted p l : ascending p l = true -> sorted l.
Proof.
  revert p. induction l as [|v l IH]; intros p H i j a b Hij Ha Hb; [done|]. cbn in H. apply andb_true_iff in H as [_ H].
  destruct j as [|j]; [lia|]. destruct i as [|i].
  - injection Ha as <-. by eapply ascending_above.
  - by apply (IH v H i j); [lia|..].
Qed.

Lemma ascending_list_sorted l : ascending_list l = true -> sorted l.
Proof.
  destruct l as [|v l]; [done|]. intros H i j a b Hij Ha Hb. destruct j as [|j]; [lia|]. destruct i as [|i].
  - injection Ha as <-. by eapply ascending_above.
  - by apply (ascending_sorted v l H i j); [lia|..].
Qed.

(** The loop ends at the first value not below the target. *)
Lemma search_spec values target fuel i j : sorted values -> (j - i < fuel)%nat -> (i <= j <= length values)%nat ->
  (forall k a, (k < i)%nat -> values !! k = Some a -> bytes_lt a target) ->
  (forall k a, (j <= k)%nat -> values !! k = Some a -> ~ bytes_lt a target) ->
  let r := searchStrings fuel values target i j in
  (forall k a, (k < r)%nat -> values !! k = Some a -> bytes_lt a target) /\
  (forall k a, (r <= k)%nat -> values !! k = Some a -> ~ bytes_lt a target).
Proof.
  intros Hsorted. revert i j. induction fuel as [|fuel IH]; intros i j Hf Hij Hlo Hhi; [lia|]. cbn [searchStrings].
  destruct (i <? j)%nat eqn:E; [apply Nat.ltb_lt in E|apply Nat.ltb_ge in E; assert (i = j) as <- by lia; done].
  pose proof (Nat.div2_div (i + j)) as Hd. pose proof (Nat.div_mod (i + j) 2 ltac:(lia)) as Hdm.
  pose proof (Nat.mod_upper_bound (i + j) 2 ltac:(lia)). set (h := Nat.div2 (i + j)) in *.
  destruct (lookup_lt_is_Some_2 values h) as [v Hv]; [lia|]. rewrite Hv. case_bool_decide as Hlt.
  - apply IH; [lia|lia| |done]. intros k a Hk Ha. destruct (decide (k = h)) as [->|]; [congruence|].
    eapply bytes_lt_trans; [|exact Hlt]. by eapply (Hsorted k h); [lia|..].
  - apply IH; [lia|lia|done|]. intros k a Hk Ha Hbad. destruct (decide (k = h)) as [->|]; [congruence|].
    apply Hlt. eapply bytes_lt_trans; [|exact Hbad]. by eapply (Hsorted h k); [lia|..].
Qed.

Lemma containsSorted_iff values target : sorted values -> containsSorted values target = true <-> target ∈ values.
Proof.
  intros Hs. unfold containsSorted, SearchStrings.
  destruct (search_spec values target (S (length values)) 0 (length values) Hs) as [Hlo Hhi];
    [lia|lia|intros ? ? ?; lia|intros k a Hk Ha; apply lookup_lt_Some in Ha; lia|].
  set (r := searchStrings _ _ _ _ _) in *. split.
  - destruct (values !! r) as [v|] eqn:Hr; [|done]. intros ->%streq_true. by apply list_elem_of_lookup_2 in Hr.
  - intros [k Hk]%list_elem_of_lookup. destruct (Nat.lt_ge_cases k r) as [Hkr|Hkr].
    + destruct (bytes_lt_irrefl target). by eapply Hlo.
    + destruct (decide (k = r)) as [->|Hne]; [rewrite Hk; by apply streq_true|].
      destruct (lookup_lt_is_Some_2 values r) as [v Hv]; [apply lookup_lt_Some in Hk; lia|].
      destruct (Hhi r v ltac:(lia) Hv). by eapply (Hs r k); [lia|..].
Qed.

Section Authority.
Context `{C : CommerceCodec}.

(** ** Writer fences *)

Definition fenceDomain : string := "tos.writer-fence.v1" +:+ bytes [0%N].

Definition codecErr : string := "canonical encoding failed".

(** [Sign] signs with the private key of [public]. *)
Definition SignWriterFence (Sign : string -> string) (public : string) (body : WriterFenceBody) : result string WriterFence :=
  validateWriterFenceBody body;;
  canonical ← opt_err (marshal_fence_body body) codecErr;
  Ok {| wf_Body := body; wf_PublicKey := key_text public; Proof := signature_text (Sign (framedSHA256 fenceDomain canonical)) |}.

Definition WriterFenceDigest (fence : WriterFence) : result string string :=
  validateWriterFenceBody (wf_Body fence);;
  or_err (parseEd25519PublicKey (wf_PublicKey fence)) "writer fence public key encoding is invalid"%string;;
  or_err (parseEd25519Signature (Proof fence)) "writer fence proof encoding is invalid"%string;;
  Digest "tos.writer-fence-envelope.v1" (marshal_fence fence).

Definition verifyWriterFenceAtAuthorityTime (fence : WriterFence) (resolver : option FenceAuthorityResolver)
    (validityAt authorityAt : Time) (actionKind : string) : result string unit :=
  validateWriterFenceBody (wf_Body fence);;
  let issuedAt := UnixTime (wf_IssuedAtUnix (wf_Body fence)) in
  let expiresAt := UnixTime (wf_ExpiresAtUnix (wf_Body fence)) in
  let invalid := "writer fence is expired, premature, or out of scope"%string in
  authorize ← opt_err resolver invalid;
  fail_if (negb (Before validityAt expiresAt) || Before validityAt (SubSeconds issuedAt MaxIntentClockSkew) ||
           Before authorityAt (SubSeconds issuedAt MaxIntentClockSkew) || negb (Before authorityAt expiresAt) ||
           negb (containsSorted (Scope (wf_Body fence)) actionKind)) invalid;;
  publicKey ← parseEd25519PublicKey (wf_PublicKey fence);
  authorize (wf_AuthorityID (wf_Body fence)) publicKey authorityAt;;
  proof ← parseEd25519Signature (Proof fence);
  canonical ← opt_err (marshal_fence_body (wf_Body fence)) codecErr;
  fail_if (negb (ed25519_Verify publicKey (framedSHA256 fenceDomain canonical) proof)) "writer fence proof is invalid"%string.

Definition VerifyWriterFence (fence : WriterFence) (resolver : option FenceAuthorityResolver) (now : Time) (actionKind : string)
  : result string unit := verifyWriterFenceAtAuthorityTime fence resolver now now actionKind.

(** [confirm] is the live lease check of the writer authority, when one is configured. *)
Definition ConfirmCurrentWriterFence (fence : WriterFence) (confirm : option (WriterFence -> Time -> result string unit)) (at_ : Time)
  : result string unit :=
  confirm ← opt_err confirm "current writer fence resolver is unavailable"%string;
  fail_if (negb (Before at_ (UnixTime (wf_ExpiresAtUnix (wf_Body fence))))) "current writer fence is expired"%string;;
  match confirm fence at_ with
  | Err e => Err ("writer fence is not current: " +:+ e)%string
  | other => other
  end.

(** ** Authorized actions *)

Definition AuthorizedActionDigest (action : AuthorizedAction) : result string string :=
  let invalid := "authorized action envelope is invalid"%string in
  or_err (validateAuthorizedActionShape action) invalid;;
  fail_if (streq (AuthorityPublicKey action) "") invalid;;
  Digest "tos.authorized-action-envelope.v1" (marshal_action action).

Definition with_proof (action : AuthorizedAction) (key proof : string) : AuthorizedAction :=
  {| ac_SchemaVersion := ac_SchemaVersion action; ac_OwnerID := ac_OwnerID action; ac_AgentID := ac_AgentID action;
     ActionKind := ActionKind action; ac_StableActionID := ac_StableActionID action;
     ac_ExactRequestDigest := ac_ExactRequestDigest action; ac_WriterGeneration := ac_WriterGeneration action;
     ac_WriterFenceDigest := ac_WriterFenceDigest action; ac_PolicyRevision := ac_PolicyRevision action;
     ac_MandateDigest := ac_MandateDigest action; ac_ApprovalDigest := ac_ApprovalDigest action;
     ExpectedPriorState := ExpectedPriorState action; ac_ExpiresAtUnix := ac_ExpiresAtUnix action;
     ac_AuthorityID := ac_AuthorityID action; AuthorityPublicKey := key; AuthorizationProof := proof |}.

Definition actionDomain : string := "tos.authorized-action-proof.v1" +:+ bytes [0%N].

Definition authorizedActionSignatureMessage (action : AuthorizedAction) : result string string :=
  canonical ← opt_err (marshal_action (with_proof action (AuthorityPublicKey action) "")) codecErr;
  Ok (framedSHA256 actionDomain canonical).

Definition BuildAuthorizedAction (ownerID agentID actionKind : string) (semanticFields : SemanticValues) (canonicalRequest : string)
    (fence : WriterFence) (policyRevision : Z) (mandateDigest approvalDigest expectedPriorState : string) (expiresAt : Z)
  : result string AuthorizedAction :=
  validateSemanticActionPrincipals ownerID agentID semanticFields;;
  stable ← DeriveStableActionID actionKind semanticFields;
  requestDigest ← ExactRequestDigest canonicalRequest;
  fenceDigest ← WriterFenceDigest fence;
  let action :=
    {| ac_SchemaVersion := 1; ac_OwnerID := ownerID; ac_AgentID := agentID; ActionKind := actionKind;
       ac_StableActionID := stable.1; ac_ExactRequestDigest := requestDigest;
       ac_WriterGeneration := wf_WriterGeneration (wf_Body fence); ac_WriterFenceDigest := fenceDigest;
       ac_PolicyRevision := policyRevision; ac_MandateDigest := mandateDigest; ac_ApprovalDigest := approvalDigest;
       ExpectedPriorState := expectedPriorState; ac_ExpiresAtUnix := expiresAt;
       ac_AuthorityID := wf_AuthorityID (wf_Body fence); AuthorityPublicKey := ""; AuthorizationProof := "" |} in
  validateAuthorizedActionShape action;;
  Ok action.

Definition SignAuthorizedAction (Sign : string -> string) (public : string) (action : AuthorizedAction) : result string AuthorizedAction :=
  fail_if (negb (streq (AuthorityPublicKey action) "") || negb (streq (AuthorizationProof action) ""))
    "authorized action signing request is invalid"%string;;
  validateAuthorizedActionShape action;;
  let keyed := with_proof action (key_text public) "" in
  message ← authorizedActionSignatureMessage keyed;
  Ok (with_proof action (key_text public) (signature_text (Sign message))).

Definition VerifyAuthorizedActionAtAuthorityTime (action : AuthorizedAction) (semanticFields : SemanticValues)
    (canonicalRequest : string) (fence : WriterFence) (resolver : option FenceAuthorityResolver) (validityAt authorityAt : Time)
  : result string unit :=
  validateAuthorizedActionShape action;;
  validateSemanticActionPrincipals (ac_OwnerID action) (ac_AgentID action) semanticFields;;
  let body := wf_Body fence in
  fail_if (negb (streq (ac_OwnerID action) (wf_OwnerID body)) || negb (streq (ac_AgentID action) (wf_AgentID body)) ||
           negb (ac_WriterGeneration action =? wf_WriterGeneration body) || (wf_ExpiresAtUnix body <? ac_ExpiresAtUnix action) ||
           negb (Before validityAt (UnixTime (ac_ExpiresAtUnix action))))
    "authorized action does not match the current writer fence"%string;;
  verifyWriterFenceAtAuthorityTime fence resolver validityAt authorityAt (ActionKind action);;
  fail_if (negb (streq (ac_AuthorityID action) (wf_AuthorityID body)) || negb (streq (AuthorityPublicKey action) (wf_PublicKey fence)))
    "authorized action authority differs from the writer fence"%string;;
  let unauthorized := "authorized action authority key is not authorized"%string in
  authorityKey ← or_err (parseEd25519PublicKey (AuthorityPublicKey action)) unauthorized;
  authorize ← opt_err resolver unauthorized;
  or_err (authorize (ac_AuthorityID action) authorityKey authorityAt) unauthorized;;
  let invalid := "authorized action proof is invalid"%string in
  proof ← or_err (parseEd25519Signature (AuthorizationProof action)) invalid;
  message ← or_err (authorizedActionSignatureMessage action) invalid;
  fail_if (negb (ed25519_Verify authorityKey message proof)) invalid;;
  let mismatch := "authorized action fence digest mismatch"%string in
  fenceDigest ← or_err (WriterFenceDigest fence) mismatch;
  fail_if (negb (streq fenceDigest (ac_WriterFenceDigest action))) mismatch;;
  let mismatch := "authorized action semantic identity mismatch"%string in
  stable ← or_err (DeriveStableActionID (ActionKind action) semanticFields) mismatch;
  fail_if (negb (streq stable.1 (ac_StableActionID action))) mismatch;;
  let mismatch := "authorized action request digest mismatch"%string in
  requestDigest ← or_err (ExactRequestDigest canonicalRequest) mismatch;
  fail_if (negb (streq requestDigest (ac_ExactRequestDigest action))) mismatch.

Definition VerifyAuthorizedAction (action : AuthorizedAction) (semanticFields : SemanticValues) (canonicalRequest : string)
    (fence : WriterFence) (resolver : option FenceAuthorityResolver) (now : Time) : result string unit :=
  VerifyAuthorizedActionAtAuthorityTime action semanticFields canonicalRequest fence resolver now now.

(** ** Authority instances *)

Definition DownstreamEffectDescriptorDigest (canonicalEffectBody : string) : result string string :=
  fail_if ((slen canonicalEffectBody =? 0) || (MaxActionRequestBytes <? slen canonicalEffectBody))
    "canonical effect body has invalid size"%string;;
  Ok ("sha256:" +:+ hex_EncodeToString (framedSHA256 ("tos.authority-instance-effect.v1" +:+ bytes [0%N]) canonicalEffectBody)).

Definition AuthorityInstanceAllocationRequestDigest (request : AuthorityInstanceAllocationRequest) : result string string :=
  fail_if (negb (boundedIdentifier (ia_OwnerID request) 256) || negb (boundedIdentifier (ia_AgentID request) 256) ||
           negb (canonicalLowerToken (PurposeKind request)) || negb (canonicalDigestPattern (ia_MandateDigest request)) ||
           negb (canonicalDigestOrZero (ApprovalDigestOrZero request)) ||
           negb (canonicalDigestPattern (EffectDescriptorDigest request)) ||
           negb (canonicalDigestOrZero (PredecessorAuthorityInstanceID request)))
    "authority instance allocation request is invalid"%string;;
  canonical ← opt_err (marshal_allocation request) codecErr;
  Ok ("sha256:" +:+ hex_EncodeToString (framedSHA256 ("tos.authority-instance-allocation.v1" +:+ bytes [0%N]) canonical)).

Definition DeriveAuthorityInstanceID (request : AuthorityInstanceAllocationRequest) (sequence : Z) : result string string :=
  let invalid := "authority instance allocation sequence is invalid"%string in
  requestDigest ← or_err (AuthorityInstanceAllocationRequestDigest request) invalid;
  fail_if (sequence =? 0) invalid;;
  stable ← DeriveStableActionID "authority.instance"
    (list_to_map [("owner_id", ID (ia_OwnerID request)); ("agent_id", ID (ia_AgentID request));
                  ("purpose_kind", KindOf (PurposeKind request)); ("mandate_digest", Digest32 (ia_MandateDigest request));
                  ("allocation_request_digest", Digest32 requestDigest);
                  ("authority_allocation_sequence", U64 sequence)]%string);
  Ok stable.1.
(** ** What verification guarantees *)

(** The machine ranges of a fence's and an action's times. *)
Definition fence_range (body : WriterFenceBody) : Prop := u64 (wf_IssuedAtUnix body) /\ u64 (wf_ExpiresAtUnix body).

Lemma fence_body_shape body u : validateWriterFenceBody body = Ok u ->
  wf_IssuedAtUnix body < wf_ExpiresAtUnix body <= wf_IssuedAtUnix body + 24 * 60 * 60 /\ sorted (Scope body).
Proof.
  unfold validateWriterFenceBody. intros H. apply bind_Ok in H as (? & H & _). apply fail_if_Ok in H.
  rewrite !orb_false_iff, !negb_false_iff in H. destruct_and?.
  repeat match goal with H : (_ <=? _) = false |- _ => apply Z.leb_gt in H | H : (_ <? _) = false |- _ => apply Z.ltb_ge in H end.
  unfold validateSortedStrings in *. rewrite !andb_true_iff in *. destruct_and?. split; [lia|by apply ascending_list_sorted].
Qed.

(** A verified fence: leased now, in scope, by a key the resolver trusts for the authority. *)
Record fence_verified (fence : WriterFence) (resolver : option FenceAuthorityResolver) (validityAt authorityAt : Time)
    (kind public : string) : Prop := {
  fv_key : wf_PublicKey fence = key_text public /\ slen public = PublicKeySize;
  fv_authority : exists authorize, resolver = Some authorize /\ authorize (wf_AuthorityID (wf_Body fence)) public authorityAt = Ok tt;
  fv_scope : kind ∈ Scope (wf_Body fence);
  fv_window : Before validityAt (UnixTime (wf_ExpiresAtUnix (wf_Body fence))) = true /\
    Before authorityAt (UnixTime (wf_ExpiresAtUnix (wf_Body fence))) = true /\
    Before validityAt (SubSeconds (UnixTime (wf_IssuedAtUnix (wf_Body fence))) MaxIntentClockSkew) = false /\
    Before authorityAt (SubSeconds (UnixTime (wf_IssuedAtUnix (wf_Body fence))) MaxIntentClockSkew) = false;
  fv_proof : exists canonical proof, marshal_fence_body (wf_Body fence) = Some canonical /\
    parseEd25519Signature (Proof fence) = Ok proof /\ ed25519_Verify public (framedSHA256 fenceDomain canonical) proof = true }.

Lemma fence_verified_iff fence resolver validityAt authorityAt kind :
  verifyWriterFenceAtAuthorityTime fence resolver validityAt authorityAt kind = Ok tt <->
  validateWriterFenceBody (wf_Body fence) = Ok tt /\ exists public, fence_verified fence resolver validityAt authorityAt kind public.
Proof.
  unfold verifyWriterFenceAtAuthorityTime. split.
  - intros H. apply bind_Ok in H as ([] & Hb & H). split; [done|]. apply bind_Ok in H as (authorize & Hr & H).
    apply bind_Ok in H as (? & Hw & H). apply bind_Ok in H as (public & Hk & H). apply bind_Ok in H as ([] & Ha & H).
    apply bind_Ok in H as (proof & Hp & H). apply bind_Ok in H as (canonical & Hc & H). apply opt_err_Ok in Hr, Hc.
    apply fail_if_Ok in Hw, H. rewrite !orb_false_iff, !negb_false_iff in Hw. destruct_and?. apply negb_false_iff in H.
    exists public. split; [by eapply parse_key_exact|by exists authorize| |done|by exists canonical, proof].
    apply containsSorted_iff; [by eapply fence_body_shape|done].
  - intros [Hb (public & [[Hk Hl] (authorize & -> & Ha) Hs (W1 & W2 & W3 & W4) (canonical & proof & Hc & Hp & Hv)])].
    rewrite Hb. cbn [mbind result_bind opt_err]. rewrite W1, W2, W3, W4.
    rewrite (proj2 (containsSorted_iff _ _ (proj2 (fence_body_shape _ _ Hb))) Hs). cbn [negb orb fail_if mbind result_bind].
    unfold parseEd25519PublicKey. rewrite Hk, parse_key_text by done. cbn [mbind result_bind]. rewrite Ha. cbn [mbind result_bind].
    rewrite Hp. cbn [mbind result_bind]. rewrite Hc. cbn [opt_err mbind result_bind]. by rewrite Hv.
Qed.

Lemma principals_Ok owner agent fields u : validateSemanticActionPrincipals owner agent fields = Ok u ->
  fields !! "owner_id"%string = Some (ID owner) /\ fields !! "agent_id"%string = Some (ID agent).
Proof.
  unfold validateSemanticActionPrincipals, ID, semanticText. intros H. destruct (fields !! "owner_id"%string) as [[t1 b1]|]; [|done].
  destruct (fields !! "agent_id"%string) as [[t2 b2]|]; [|done]. apply fail_if_Ok in H. cbn in H.
  rewrite !orb_false_iff, !negb_false_iff in H. destruct_and?.
  repeat match goal with
  | H : bool_decide _ = true |- _ => apply bool_decide_eq_true in H
  | H : streq _ _ = true |- _ => apply streq_true in H
  end. by subst.
Qed.

(** A verified action, as the steps of its verification. *)
Record action_verified (action : AuthorizedAction) (fields : SemanticValues) (request : string) (fence : WriterFence)
    (resolver : option FenceAuthorityResolver) (validityAt authorityAt : Time) : Prop := {
  av_fields : fields !! "owner_id"%string = Some (ID (ac_OwnerID action)) /\ fields !! "agent_id"%string = Some (ID (ac_AgentID action));
  av_writer : ac_OwnerID action = wf_OwnerID (wf_Body fence) /\ ac_AgentID action = wf_AgentID (wf_Body fence) /\
    ac_WriterGeneration action = wf_WriterGeneration (wf_Body fence) /\ ac_AuthorityID action = wf_AuthorityID (wf_Body fence);
  av_window : ac_ExpiresAtUnix action <= wf_ExpiresAtUnix (wf_Body fence) /\
    Before validityAt (UnixTime (ac_ExpiresAtUnix action)) = true;
  av_fence : verifyWriterFenceAtAuthorityTime fence resolver validityAt authorityAt (ActionKind action) = Ok tt;
  av_key : AuthorityPublicKey action = wf_PublicKey fence;
  av_proof : exists public message proof, wf_PublicKey fence = key_text public /\ authorizedActionSignatureMessage action = Ok message /\
    parseEd25519Signature (AuthorizationProof action) = Ok proof /\ ed25519_Verify public message proof = true;
  av_fence_digest : WriterFenceDigest fence = Ok (ac_WriterFenceDigest action);
  av_identity : exists encoded, DeriveStableActionID (ActionKind action) fields = Ok (ac_StableActionID action, encoded);
  av_request : ExactRequestDigest request = Ok (ac_ExactRequestDigest action) }.

Lemma action_verified_of action fields request fence resolver validityAt authorityAt :
  VerifyAuthorizedActionAtAuthorityTime action fields request fence resolver validityAt authorityAt = Ok tt ->
  action_verified action fields request fence resolver validityAt authorityAt.
Proof.
  unfold VerifyAuthorizedActionAtAuthorityTime. intros H. apply bind_Ok in H as (? & Hshape & H). apply bind_Ok in H as (? & Hp & H).
  apply bind_Ok in H as (? & Hm & H). apply bind_Ok in H as ([] & Hf & H). apply bind_Ok in H as (? & Hd & H).
  apply bind_Ok in H as (public & Hk & H). apply bind_Ok in H as (? & _ & H). apply bind_Ok in H as (? & _ & H).
  apply bind_Ok in H as (proof & Hpr & H). apply bind_Ok in H as (message & Hmsg & H). apply bind_Ok in H as (? & Hv & H).
  apply bind_Ok in H as (fd & Hfd & H). apply bind_Ok in H as (? & Hfe & H). apply bind_Ok in H as ([id encoded] & Hid & H).
  apply bind_Ok in H as (? & Hie & H). apply bind_Ok in H as (rd & Hrd & Hre). apply or_err_Ok in Hk, Hpr, Hmsg, Hfd, Hid, Hrd.
  apply fail_if_Ok in Hm, Hd, Hv, Hfe, Hie, Hre. apply negb_false_iff in Hv. apply negb_false_iff, streq_true in Hfe, Hie, Hre.
  rewrite !orb_false_iff, !negb_false_iff, Z.ltb_ge in Hm. rewrite orb_false_iff, !negb_false_iff, !streq_true in Hd.
  destruct Hd as [Ha Hkey]. destruct Hm as [[[[Ho Hag] Hg] He] Hb]. apply streq_true in Ho, Hag. apply Z.eqb_eq in Hg.
  cbn [fst] in Hie. rewrite Hie in Hid. rewrite Hfe in Hfd. rewrite Hre in Hrd. rewrite Hkey in Hk.
  exact {| av_fields := principals_Ok _ _ _ _ Hp; av_writer := conj Ho (conj Hag (conj Hg Ha)); av_window := conj He Hb;
           av_fence := Hf; av_key := Hkey;
           av_proof := ex_intro _ public (ex_intro _ message (ex_intro _ proof
             (conj (proj1 (parse_key_exact _ _ _ _ Hk)) (conj Hmsg (conj Hpr Hv)))));
           av_fence_digest := Hfd; av_identity := ex_intro _ encoded Hid; av_request := Hrd |}.
Qed.

Lemma verified_of_steps action fields request fence authorize validityAt authorityAt :
  validateAuthorizedActionShape action = Ok tt ->
  validateSemanticActionPrincipals (ac_OwnerID action) (ac_AgentID action) fields = Ok tt ->
  (exists public, wf_PublicKey fence = key_text public /\ slen public = PublicKeySize /\
     authorize (wf_AuthorityID (wf_Body fence)) public authorityAt = Ok tt) ->
  action_verified action fields request fence (Some authorize) validityAt authorityAt ->
  VerifyAuthorizedActionAtAuthorityTime action fields request fence (Some authorize) validityAt authorityAt = Ok tt.
Proof.
  intros Hshape Hp (public & Hk & Hl & Ha) [_ (Eo & Ea & Eg & Eau) [Hexp Hb] Hfence Hkey (pub' & message & proof & Hk' & Hmsg & Hpr & Hv)
    Hfd (encoded & Hid) Hrd].
  assert (forall s, streq s s = true) as E by (intros s; by apply streq_true).
  rewrite Hk in Hk'. apply key_text_inj in Hk' as <-. unfold VerifyAuthorizedActionAtAuthorityTime.
  rewrite Hshape. cbn [mbind result_bind]. rewrite Hp. cbn [mbind result_bind]. rewrite Eo, Ea, Eg, !E, Z.eqb_refl, Hb.
  rewrite (proj2 (Z.ltb_ge _ _) Hexp). cbn [negb orb fail_if mbind result_bind]. rewrite Hfence. cbn [mbind result_bind].
  rewrite Eau, Hkey, !E. cbn [negb orb fail_if mbind result_bind]. unfold parseEd25519PublicKey. rewrite Hk, parse_key_text by done.
  cbn [or_err opt_err mbind result_bind]. rewrite Ha. cbn [or_err mbind result_bind]. rewrite Hpr. cbn [or_err mbind result_bind].
  rewrite Hmsg. cbn [or_err mbind result_bind]. rewrite Hv. cbn [negb fail_if mbind result_bind]. rewrite Hfd. cbn [or_err mbind result_bind].
  rewrite E. cbn [negb fail_if mbind result_bind]. rewrite Hid. cbn [or_err mbind result_bind fst]. rewrite E.
  cbn [negb fail_if mbind result_bind]. rewrite Hrd. cbn [or_err mbind result_bind]. by rewrite E.
Qed.

(** C11: an action that verifies is the owner's, at that time, and nothing else.  The
    lease is of the action's owner, agent, writer generation and authority.  The
    action's kind is in the lease's scope, and at the instant of verification (any
    instant after 1970) the lease, of at most a day, is open, with five minutes of
    skew at its start, and outlives the action, which has not expired.  The proof
    carried by the lease and the proof carried by the action are Ed25519 signatures
    of the lease's body and of the action's message under one key, the one both name,
    which the resolver trusts for their authority.  The action names the digest of
    that lease, the identity of exactly these semantic fields, whose owner and agent
    are the action's, and the digest of exactly this request. *)
Theorem authorized_action_sound (action : AuthorizedAction) (fields : SemanticValues) (request : string) (fence : WriterFence)
    (resolver : option FenceAuthorityResolver) (validityAt authorityAt : Time) :
  fence_range (wf_Body fence) -> u64 (ac_ExpiresAtUnix action) -> after1970 validityAt ->
  VerifyAuthorizedActionAtAuthorityTime action fields request fence resolver validityAt authorityAt = Ok tt ->
  (ac_OwnerID action = wf_OwnerID (wf_Body fence) /\ ac_AgentID action = wf_AgentID (wf_Body fence) /\
   ac_WriterGeneration action = wf_WriterGeneration (wf_Body fence) /\ ac_AuthorityID action = wf_AuthorityID (wf_Body fence)) /\
  (ActionKind action ∈ Scope (wf_Body fence) /\
   wf_IssuedAtUnix (wf_Body fence) - MaxIntentClockSkew <= unixSeconds validityAt < ac_ExpiresAtUnix action /\
   ac_ExpiresAtUnix action <= wf_ExpiresAtUnix (wf_Body fence) <= wf_IssuedAtUnix (wf_Body fence) + 24 * 60 * 60) /\
  (exists public authorize canonical message proof1 proof2,
     wf_PublicKey fence = key_text public /\ AuthorityPublicKey action = key_text public /\ resolver = Some authorize /\
     authorize (ac_AuthorityID action) public authorityAt = Ok tt /\
     (marshal_fence_body (wf_Body fence) = Some canonical /\ parseEd25519Signature (Proof fence) = Ok proof1 /\
      ed25519_Verify public (framedSHA256 fenceDomain canonical) proof1 = true) /\
     (authorizedActionSignatureMessage action = Ok message /\ parseEd25519Signature (AuthorizationProof action) = Ok proof2 /\
      ed25519_Verify public message proof2 = true)) /\
  (WriterFenceDigest fence = Ok (ac_WriterFenceDigest action) /\
   (exists encoded, DeriveStableActionID (ActionKind action) fields = Ok (ac_StableActionID action, encoded)) /\
   fields !! "owner_id"%string = Some (ID (ac_OwnerID action)) /\ fields !! "agent_id"%string = Some (ID (ac_AgentID action)) /\
   ExactRequestDigest request = Ok (ac_ExactRequestDigest action)).
Proof.
  intros [Hri Hre] Hrx Hnow [[Hf1 Hf2] Hwriter [Hx Hb] Hfence Hkey (pub' & message & proof2 & Hk' & Hmsg & Hp2 & Hv2)
    Hfd Hid Hrd]%action_verified_of.
  apply fence_verified_iff in Hfence as [Hbody (public & [[Hk Hl] (authorize & -> & Ha) Hs (W1 & _ & W3 & _) (canonical & proof1 & Hc & Hp1 & Hv1)])].
  apply fence_body_shape in Hbody as [Hlease _]. destruct (before_unix _ _ Hnow Hrx Hb) as [Hlt _].
  destruct (before_unix _ _ Hnow Hre W1) as [_ Hwrap].
  rewrite Hk in Hk'. apply key_text_inj in Hk' as <-.
  split; [exact Hwriter|]. split; [|split; [|exact (conj Hfd (conj Hid (conj Hf1 (conj Hf2 Hrd))))]].
  - split; [exact Hs|]. split; [|lia]. split; [|lia]. apply not_before_skew; [exact Hnow|exact Hri|lia|exact W3].
  - exists public, authorize, canonical, message, proof1, proof2. destruct Hwriter as (_ & _ & _ & Hauth). rewrite Hauth, Hkey.
    exact (conj Hk (conj Hk (conj eq_refl (conj Ha (conj (conj Hc (conj Hp1 Hv1)) (conj Hmsg (conj Hp2 Hv2))))))).
Qed.

(** Two verified actions with one stable identity and one request digest are the
    same action: same kind, same semantic fields, same request bytes (unless the two
    action texts or the two request texts collide under SHA-256), whatever their
    fences, resolvers and times. *)
Theorem verified_actions_agree (a1 a2 : AuthorizedAction) (fields1 fields2 : SemanticValues) (request1 request2 : string)
    (fence1 fence2 : WriterFence) (resolver1 resolver2 : option FenceAuthorityResolver) (v1 v2 t1 t2 : Time) :
  VerifyAuthorizedActionAtAuthorityTime a1 fields1 request1 fence1 resolver1 v1 t1 = Ok tt ->
  VerifyAuthorizedActionAtAuthorityTime a2 fields2 request2 fence2 resolver2 v2 t2 = Ok tt ->
  ac_StableActionID a1 = ac_StableActionID a2 -> ac_ExactRequestDigest a1 = ac_ExactRequestDigest a2 ->
  (ActionKind a1 = ActionKind a2 /\ fields1 = fields2 /\ request1 = request2) \/
  collides (action_text (ActionKind a1) fields1) (action_text (ActionKind a2) fields2) \/
  collides (request_text request1) (request_text request2).
Proof.
  intros [_ _ _ _ _ _ _ (e1 & I1) R1]%action_verified_of [_ _ _ _ _ _ _ (e2 & I2) R2]%action_verified_of Hid Hrd.
  rewrite Hid in I1. rewrite Hrd in R1. destruct (stable_id_texts _ _ _ _ _ _ _ I1 I2) as [(Hk & Hf)|]; [|by right; left].
  destruct (exact_request_binds _ _ _ R1 R2) as [Hr|]; [left|by right; right]. exact (conj Hk (conj Hf Hr)).
Qed.

(** ** Issuing and verifying *)

Section Issuing.
Variables (Sign : string -> string) (public : string).
Hypothesis Hpublic : slen public = PublicKeySize.
Hypothesis Hsign : forall m, slen (Sign m) = SignatureSize.
Hypothesis Hverify : forall m, ed25519_Verify public m (Sign m) = true.

Lemma signed_fence body fence : SignWriterFence Sign public body = Ok fence ->
  validateWriterFenceBody body = Ok tt /\ wf_Body fence = body /\ wf_PublicKey fence = key_text public /\
  exists canonical proof, marshal_fence_body body = Some canonical /\ parseEd25519Signature (Proof fence) = Ok proof /\
    ed25519_Verify public (framedSHA256 fenceDomain canonical) proof = true.
Proof using Hsign Hverify.
  unfold SignWriterFence. intros H. apply bind_Ok in H as ([] & Hb & H). apply bind_Ok in H as (canonical & Hc & H).
  injection H as <-. apply opt_err_Ok in Hc. split; [done|]. split; [done|]. split; [done|].
  exists canonical, (Sign (framedSHA256 fenceDomain canonical)). split; [done|]. split; [by apply parse_signature_text|done].
Qed.

Lemma signed_message action proof canonical : marshal_action (with_proof action (key_text public) "") = Some canonical ->
  authorizedActionSignatureMessage (with_proof action (key_text public) proof) = Ok (framedSHA256 actionDomain canonical).
Proof. intros H. unfold authorizedActionSignatureMessage. unfold with_proof in *. cbn in *. by rewrite H. Qed.

(** The shape of a signed action is that of the unsigned one. *)
Lemma shape_signed action message : validateAuthorizedActionShape action = Ok tt -> AuthorityPublicKey action = ""%string ->
  AuthorizationProof action = ""%string ->
  validateAuthorizedActionShape (with_proof action (key_text public) (signature_text (Sign message))) = Ok tt.
Proof using Hpublic Hsign.
  unfold validateAuthorizedActionShape, with_proof. cbn -[key_text signature_text quoted]. intros H Hk Hp. rewrite Hk, Hp in H.
  apply bind_Ok in H as (? & H & _). apply fail_if_Ok in H.
  assert (streq (key_text public) "" = false) as -> by (apply bool_decide_eq_false; discriminate).
  assert (streq (signature_text (Sign message)) "" = false) as -> by (apply bool_decide_eq_false; discriminate).
  change (xorb (streq "" "") (streq "" "")) with (xorb false false) in H. rewrite H. cbn [fail_if mbind result_bind].
  unfold parseEd25519PublicKey, parseEd25519Signature. by rewrite parse_key_text, parse_signature_text.
Qed.

(** What building an action produced. *)
Lemma built_action ownerID agentID kind fields request fence policy mandate approval prior expires action :
  BuildAuthorizedAction ownerID agentID kind fields request fence policy mandate approval prior expires = Ok action ->
  validateSemanticActionPrincipals ownerID agentID fields = Ok tt /\ validateAuthorizedActionShape action = Ok tt /\
  (ac_OwnerID action = ownerID /\ ac_AgentID action = agentID /\ ActionKind action = kind /\ ac_ExpiresAtUnix action = expires /\
   ac_WriterGeneration action = wf_WriterGeneration (wf_Body fence) /\ ac_AuthorityID action = wf_AuthorityID (wf_Body fence) /\
   AuthorityPublicKey action = ""%string /\ AuthorizationProof action = ""%string) /\
  WriterFenceDigest fence = Ok (ac_WriterFenceDigest action) /\
  (exists encoded, DeriveStableActionID kind fields = Ok (ac_StableActionID action, encoded)) /\
  ExactRequestDigest request = Ok (ac_ExactRequestDigest action).
Proof.
  unfold BuildAuthorizedAction. intros H. apply bind_Ok in H as ([] & Hp & H). apply bind_Ok in H as ([id encoded] & Hid & H).
  apply bind_Ok in H as (rd & Hrd & H). apply bind_Ok in H as (fd & Hfd & H). apply bind_Ok in H as ([] & Hs & H). injection H as <-.
  cbn [ac_OwnerID ac_AgentID ActionKind ac_ExpiresAtUnix ac_WriterGeneration ac_AuthorityID AuthorityPublicKey AuthorizationProof
       ac_WriterFenceDigest ac_StableActionID ac_ExactRequestDigest fst] in *.
  split; [exact Hp|]. split; [exact Hs|]. split; [by repeat split|]. exact (conj Hfd (conj (ex_intro _ encoded Hid) Hrd)).
Qed.

(** C40: an authority that follows the protocol issues actions that verify.  With a key
    whose signatures have the Ed25519 size and verify, a fence it signed and an action
    it built under that fence, of a kind in the fence's scope and expiring no later
    than it, can be signed, and the signed action passes verification against every
    resolver that trusts the key for the authority, at every instant after 1970 from
    five minutes before the lease's issue until the action's expiry, as long as the
    action's document can be encoded and the lease's expiry is a date that the time
    library represents. *)
Theorem authorization_roundtrip (body : WriterFenceBody) (fence : WriterFence) (action : AuthorizedAction) (kind : string)
    (fields : SemanticValues) (request mandate approval prior canonical : string) (policy expires : Z)
    (authorize : FenceAuthorityResolver) (now : Time) :
  SignWriterFence Sign public body = Ok fence ->
  BuildAuthorizedAction (wf_OwnerID body) (wf_AgentID body) kind fields request fence policy mandate approval prior expires = Ok action ->
  marshal_action (with_proof action (key_text public) "") = Some canonical ->
  kind ∈ Scope body -> expires <= wf_ExpiresAtUnix body -> authorize (wf_AuthorityID body) public now = Ok tt ->
  fence_range body -> u64 expires -> after1970 now -> wf_ExpiresAtUnix body + unixToInternal < 2 ^ 63 ->
  wf_IssuedAtUnix body - MaxIntentClockSkew <= unixSeconds now < expires ->
  exists signed, SignAuthorizedAction Sign public action = Ok signed /\
    VerifyAuthorizedAction signed fields request fence (Some authorize) now = Ok tt.
Proof using Hpublic Hsign Hverify.
  intros Hfence Hbuild Hcan Hscope Hexp Hauth [Hri Hre] Hrx Hnow Hrep [Hlo Hhi].
  apply signed_fence in Hfence as (Hbody & Hfb & Hfk & Hproof).
  apply built_action in Hbuild as (Hp & Hshape & (Eo & Ea & Ek & Ee & Eg & Eau & Epk & Epr) & Hfd & (encoded & Hid) & Hrd).
  pose proof (signed_message action "" canonical Hcan) as Hmsg. set (message := framedSHA256 actionDomain canonical) in *.
  exists (with_proof action (key_text public) (signature_text (Sign message))). split.
  - unfold SignAuthorizedAction. rewrite Epk, Epr, (proj2 (streq_true "" "") eq_refl). cbn [negb orb fail_if mbind result_bind].
    rewrite Hshape. cbn [mbind result_bind]. by rewrite Hmsg.
  - apply verified_of_steps;
      [exact (shape_signed _ _ Hshape Epk Epr)|cbn [with_proof ac_OwnerID ac_AgentID]; rewrite Eo, Ea; exact Hp
      |exists public; rewrite Hfb; exact (conj Hfk (conj Hpublic Hauth))|].
    split; cbn [with_proof ac_OwnerID ac_AgentID ac_WriterGeneration ac_ExpiresAtUnix ac_AuthorityID AuthorityPublicKey ActionKind
         AuthorizationProof ac_WriterFenceDigest ac_StableActionID ac_ExactRequestDigest]; rewrite ?Hfb, ?Eo, ?Ea, ?Ek, ?Ee, ?Hfk.
    + exact (principals_Ok _ _ _ _ Hp).
    + rewrite Eg, Eau, Hfb. by repeat split.
    + split; [exact Hexp|]. apply unix_before; [exact Hnow|exact Hrx|lia|exact Hhi].
    + apply fence_verified_iff. rewrite Hfb. split; [exact Hbody|]. exists public. pose proof (fence_body_shape _ _ Hbody) as [Hlease _].
      assert (Before now (UnixTime (wf_ExpiresAtUnix body)) = true) as W by (apply unix_before; [exact Hnow|exact Hre|exact Hrep|lia]).
      assert (Before now (SubSeconds (UnixTime (wf_IssuedAtUnix body)) MaxIntentClockSkew) = false) as W'
        by (apply unix_not_before_skew; [exact Hnow|exact Hri|lia|lia]).
      split; rewrite ?Hfb; [exact (conj Hfk Hpublic)|exists authorize; exact (conj eq_refl Hauth)|exact Hscope
        |exact (conj W (conj W (conj W' W')))|exact Hproof].
    + reflexivity.
    + exists public, message, (Sign message). split; [reflexivity|]. split; [exact (signed_message _ _ _ Hcan)|].
      split; [exact (parse_signature_text _ _ _ (Hsign _))|exact (Hverify _)].
    + exact Hfd.
    + exists encoded. exact Hid.
    + exact Hrd.
Qed.
End Issuing.
End Authority.

(** ** The calls return *)

Section Totality.
Context `{C : CommerceCodec}.

Lemma fence_body_total body : no_panic (validateWriterFenceBody body).
Proof.
  unfold validateWriterFenceBody.
  assert (forall l, no_panic (foldM (fun (_ : unit) kind =>
    fail_if (negb (knownKind kind)) ("writer fence contains unknown action scope " +:+ quoted kind)%string) tt l)).
  { intros l. apply foldM_no_panic. intros. apply fail_if_no_panic. }
  solve_total.
Qed.

Lemma fence_digest_total fence : no_panic (WriterFenceDigest fence).
Proof.
  unfold WriterFenceDigest, parseEd25519PublicKey, parseEd25519Signature. pose proof fence_body_total. solve_total.
Qed.

Lemma action_shape_total action : no_panic (validateAuthorizedActionShape action).
Proof. unfold validateAuthorizedActionShape, parseEd25519PublicKey, parseEd25519Signature. solve_total. Qed.

Lemma action_digest_total action : no_panic (AuthorizedActionDigest action).
Proof. unfold AuthorizedActionDigest. pose proof action_shape_total. solve_total. Qed.

Lemma exact_digest_total body : no_panic (ExactRequestDigest body).
Proof. unfold ExactRequestDigest. solve_total. Qed.
End Totality.

#[export] Hint Resolve fence_digest_total action_digest_total exact_digest_total : no_panic.

(** ** Sample documents *)
Module Sample.

Definition dg (c : ascii) : string := "sha256:" +:+ repeat_byte c 64.
Definition public : string := repeat_byte "000" 32.
Definition Sign (_ : string) : string := repeat_byte "000" 64.

Definition codec : CommerceCodec :=
  {| marshal_fence_body := fun b => Some (wf_OwnerID b +:+ LeaseID b); marshal_fence := fun f => Some (LeaseID (wf_Body f));
     marshal_action := fun a => Some (ac_StableActionID a); marshal_allocation := fun r => Some (ia_OwnerID r);
     ed25519_Verify := fun _ _ _ => true |}.
#[local] Existing Instance codec.

Definition body : WriterFenceBody :=
  {| wf_SchemaVersion := 1; wf_OwnerID := "owner"; wf_AgentID := "agent"; InstanceID := "instance"; LeaseID := "lease";
     wf_WriterGeneration := 1; wf_IssuedAtUnix := 1700000000; wf_ExpiresAtUnix := 1700003600; wf_AuthorityID := "authority";
     Scope := ["execution.prepare"%string; "execution.start"%string] |}.

Definition fields : SemanticValues :=
  list_to_map [("owner_id", ID "owner"); ("agent_id", ID "agent"); ("execution_id", Digest32 (dg "a"))]%string.

Definition now : Time := {| t_sec := 1700000100 + unixToInternal; t_nsec := 5 |}.
Definition authorize : FenceAuthorityResolver := fun _ _ _ => Ok tt.

Definition fence : WriterFence :=
  match SignWriterFence Sign public body with Ok fence => fence | _ => {| wf_Body := body; wf_PublicKey := ""; Proof := "" |} end.

Definition built : result string AuthorizedAction :=
  BuildAuthorizedAction "owner" "agent" "execution.prepare" fields "request" fence 1 (dg "0") "" "idle" 1700001000.

Definition signed : result string AuthorizedAction := action ← built; SignAuthorizedAction Sign public action.

Lemma now_ok : after1970 now.
Proof. unfold after1970, now, unixToInternal. cbn. lia. Qed.

Lemma authorization_roundtrip_witness :
  match built with
  | Ok action => exists signed, SignAuthorizedAction Sign public action = Ok signed /\
      VerifyAuthorizedAction signed fields "request" fence (Some authorize) now = Ok tt
  | _ => False
  end.
Proof.
  assert (is_ok built = true) as Hok by (vm_compute; reflexivity). destruct built as [action| |] eqn:Hb; [|discriminate Hok..].
  apply (authorization_roundtrip (C := codec) Sign public eq_refl (fun _ => eq_refl) (fun _ => eq_refl) body fence action "execution.prepare" fields
           "request" (dg "0") "" "idle" (ac_StableActionID action) 1 1700001000 authorize now).
  - vm_compute. reflexivity.
  - exact Hb.
  - reflexivity.
  - left.
  - cbn. lia.
  - reflexivity.
  - split; by apply u64_lit.
  - by apply u64_lit.
  - apply now_ok.
  - vm_compute. reflexivity.
  - unfold unixSeconds, now, MaxIntentClockSkew. cbn. lia.
Defined.

Lemma signed_action_verifies : match signed with
  | Ok action => VerifyAuthorizedActionAtAuthorityTime action fields "request" fence (Some authorize) now now = Ok tt
  | _ => False end.
Proof. vm_compute. reflexivity. Qed.

Lemma authorized_action_sound_witness :
  match signed with
  | Ok action => ac_WriterGeneration action = 1 /\ ActionKind action ∈ Scope (wf_Body fence) /\
      (exists message proof, authorizedActionSignatureMessage action = Ok message /\
         parseEd25519Signature (AuthorizationProof action) = Ok proof /\ ed25519_Verify public message proof = true) /\
      ExactRequestDigest "request" = Ok (ac_ExactRequestDigest action)
  | _ => False
  end.
Proof.
  pose proof signed_action_verifies as H. assert (match signed with Ok a => ac_ExpiresAtUnix a = 1700001000 | _ => False end) as He by (vm_compute; reflexivity).
  destruct signed as [action| |]; [|destruct H..].
  destruct (authorized_action_sound action fields "request" fence (Some authorize) now now) 
    as ((_ & _ & Hg & _) & [Hs _] & (key & _ & _ & message & _ & proof & Hk & _ & _ & _ & _ & Hp) & (_ & _ & _ & _ & Hr)).
  - split; by apply u64_lit.
  - rewrite He. by apply u64_lit.
  - apply now_ok.
  - exact H.
  - assert (public = key) as <- by (eapply key_text_inj; rewrite <-Hk; vm_compute; reflexivity).
    exact (conj Hg (conj Hs (conj (ex_intro _ message (ex_intro _ proof Hp)) Hr))).
Defined.

Lemma verified_actions_agree_witness :
  match signed with
  | Ok action => forall action' fields' request', ac_StableActionID action' = ac_StableActionID action ->
      ac_ExactRequestDigest action' = ac_ExactRequestDigest action ->
      VerifyAuthorizedActionAtAuthorityTime action' fields' request' fence (Some authorize) now now = Ok tt ->
      request' = "request"%string \/ collides (action_text (ActionKind action') fields') (action_text (ActionKind action) fields) \/
      collides (request_text request') (request_text "request")
  | _ => False
  end.
Proof.
  pose proof signed_action_verifies as H. destruct signed as [action| |]; [|destruct H..]. intros action' fields' request' Hid Hr H'.
  destruct (verified_actions_agree action' action fields' fields request' "request" fence fence _ _ now now now now H' H Hid Hr)
    as [(_ & _ & E)|E]; [left; exact E|right; exact E].
Defined.
End Sample.
