(* ===== verification/Amounts.v ===== *)
(** * Amounts of agreements (src/pkg/agentcommerce: agreement.go, intent.go, billing.go)

    An amount is an integer of atomic units or a canonical decimal text.  The code
    adds, subtracts and compares the texts through scaled integers; this file proves
    that arithmetic exact, in the rational numbers. *)

From S2P Require Import Prelude Text Semantic Authority.
From Stdlib Require Import QArith Qround Lqa DecimalString DecimalPos.
Open Scope Z_scope.

(** ** Data *)

Record AgreementAmount := {
  aa_AssetNamespace : string; aa_AssetIdentifier : string; aa_AmountAtomic : string; AmountDecimal : string; aa_Unit : string }.

(** ** Texts *)

(** [strings.Split(s, string(c))] *)
Fixpoint split_on (c : ascii) (s : string) : list string :=
  match s with
  | EmptyString => [""%string]
  | String a r =>
      if (a =? c)%char then ""%string :: split_on c r
      else match split_on c r with p :: ps => String a p :: ps | [] => [String a EmptyString] end
  end.

(** [strings.TrimRight(s, "0")] *)
Fixpoint trim_zeros (s : string) : string :=
  match s with
  | EmptyString => EmptyString
  | String c r =>
      match trim_zeros r with
      | EmptyString => if (c =? "0")%char then EmptyString else String c EmptyString
      | t => String c t
      end
  end.

Fixpoint take_bytes (n : nat) (s : string) : string :=
  match n, s with S n, String c r => String c (take_bytes n r) | _, _ => EmptyString end.

(** [strings.TrimSuffix(s, ".")] *)
Definition trim_dot (s : string) : string := if HasSuffix s "." then take_bytes (String.length s - 1) s else s.

Definition canonicalDecimal (value : string) : bool :=
  negb ((slen value =? 0) || (96 <? slen value) || HasPrefix value "+" || HasPrefix value "-" ||
        negb (all_bytes (fun c => negb ((byte_val c =? 101) || (byte_val c =? 69))) value)) &&
  match split_on "." value with
  | [whole] => canonicalUnsignedDecimal whole
  | [whole; fraction] =>
      canonicalUnsignedDecimal whole && negb (slen fraction =? 0) && negb (HasSuffix fraction "0") && all_bytes is_digit fraction
  | _ => false
  end.

Definition validateAgreementAmount (amount : AgreementAmount) : bool :=
  boundedIdentifier (aa_AssetNamespace amount) 128 && boundedIdentifier (aa_AssetIdentifier amount) 256 &&
  boundedIdentifier (aa_Unit amount) 128 && xorb (nonempty (aa_AmountAtomic amount)) (nonempty (AmountDecimal amount)) &&
  negb (nonempty (aa_AmountAtomic amount) && negb (canonicalUnsignedDecimal (aa_AmountAtomic amount)) ||
        nonempty (AmountDecimal amount) && negb (canonicalDecimal (AmountDecimal amount))).

(** ** Scaled integers *)

Definition decimalCoefficient (value : string) : option (Z * Z) :=
  if canonicalDecimal value then
    match split_on "." value with
    | [whole; fraction] => (fun c => (c, slen fraction)) <$> SetString10 (whole +:+ fraction)
    | whole :: _ => (fun c => (c, 0)) <$> SetString10 whole
    | [] => None
    end
  else None.

Definition alignDecimals (a scaleA b scaleB : Z) : Z * Z * Z :=
  if scaleA <? scaleB then (a * 10 ^ (scaleB - scaleA), b, scaleB)
  else if scaleB <? scaleA then (a, b * 10 ^ (scaleA - scaleB), scaleA)
  else (a, b, scaleA).

Definition formatDecimal (coefficient scale : Z) : string :=
  if coefficient =? 0 then "0"
  else
    let digits := FormatZ coefficient in
    if scale =? 0 then digits
    else
      let digits := if slen digits <=? scale then repeat_byte "0" (Z.to_nat (scale - slen digits + 1)) +:+ digits else digits in
      let cut := Z.to_nat (slen digits - scale) in
      trim_dot (trim_zeros (take_bytes cut digits +:+ "." +:+ drop_bytes cut digits)).

Definition amountCoefficient (amount : AgreementAmount) : option (Z * Z) :=
  if nonempty (aa_AmountAtomic amount) then (fun c => (c, 0)) <$> SetString10 (aa_AmountAtomic amount)
  else decimalCoefficient (AmountDecimal amount).

(** ** Arithmetic *)

Definition sameProfile (first second : AgreementAmount) : bool :=
  streq (aa_AssetNamespace first) (aa_AssetNamespace second) && streq (aa_AssetIdentifier first) (aa_AssetIdentifier second) &&
  streq (aa_Unit first) (aa_Unit second) && Bool.eqb (nonempty (aa_AmountAtomic first)) (nonempty (aa_AmountAtomic second)).

Definition with_atomic (amount : AgreementAmount) (text : string) : AgreementAmount :=
  {| aa_AssetNamespace := aa_AssetNamespace amount; aa_AssetIdentifier := aa_AssetIdentifier amount; aa_AmountAtomic := text;
     AmountDecimal := AmountDecimal amount; aa_Unit := aa_Unit amount |}.
Definition with_decimal (amount : AgreementAmount) (text : string) : AgreementAmount :=
  {| aa_AssetNamespace := aa_AssetNamespace amount; aa_AssetIdentifier := aa_AssetIdentifier amount;
     aa_AmountAtomic := aa_AmountAtomic amount; AmountDecimal := text; aa_Unit := aa_Unit amount |}.

(** Arithmetic on a nil integer panics. *)
Definition bigInt (text : string) : result string Z :=
  match SetString10 text with Some n => Ok n | None => Panic "nil big.Int" end.

Definition amountOp (op : Z -> Z -> Z) (first second : AgreementAmount) : result string AgreementAmount :=
  if nonempty (aa_AmountAtomic first) then
    a ← bigInt (aa_AmountAtomic first);
    b ← bigInt (aa_AmountAtomic second);
    Ok (with_atomic first (FormatZ (op a b)))
  else
    match decimalCoefficient (AmountDecimal first), decimalCoefficient (AmountDecimal second) with
    | Some (a, scaleA), Some (b, scaleB) =>
        let '(a, b, scale) := alignDecimals a scaleA b scaleB in
        Ok (with_decimal first (formatDecimal (op a b) scale))
    | _, _ => Err "decimal amount is invalid"%string
    end.

Definition addAmounts (first second : AgreementAmount) : result string AgreementAmount :=
  fail_if (negb (sameProfile first second)) "payment arithmetic requires matching amount profiles"%string;;
  amountOp Z.add first second.

Definition compare_sign (c : comparison) : Z := match c with Lt => -1 | Eq => 0 | Gt => 1 end.

Definition compareAmounts (first second : AgreementAmount) : Z :=
  if negb (sameProfile first second) then 2
  else if nonempty (aa_AmountAtomic first) then
    match SetString10 (aa_AmountAtomic first), SetString10 (aa_AmountAtomic second) with
    | Some a, Some b => compare_sign (a ?= b)
    | _, _ => 2
    end
  else
    match decimalCoefficient (AmountDecimal first), decimalCoefficient (AmountDecimal second) with
    | Some (a, scaleA), Some (b, scaleB) => let '(a, b, _) := alignDecimals a scaleA b scaleB in compare_sign (a ?= b)
    | _, _ => 2
    end.

Definition subtractAmounts (first second : AgreementAmount) : result string AgreementAmount :=
  fail_if ((compareAmounts first second <? 0) || negb (Bool.eqb (nonempty (aa_AmountAtomic first)) (nonempty (aa_AmountAtomic second))))
    "invalid amount subtraction"%string;;
  amountOp Z.sub first second.

Definition amountIsZero (amount : AgreementAmount) : bool := streq (aa_AmountAtomic amount) "0" || streq (AmountDecimal amount) "0".

(** [count] times the amount is above the maximum. *)
Definition exceedsAggregate (amount : AgreementAmount) (count : Z) (maximum : AgreementAmount) : bool :=
  if negb (sameProfile amount maximum) then true
  else
    match amountCoefficient amount, amountCoefficient maximum with
    | Some (per, perScale), Some (capValue, capScale) =>
        let '(per, capValue, _) := alignDecimals per perScale capValue capScale in
        match per * count ?= capValue with Gt => true | _ => false end
    | _, _ => true
    end.

Example decimal_sum : formatDecimal (1005 + 95) 3 = "1.1"%string /\ decimalCoefficient "0.05" = Some (5, 2).
Proof. split; reflexivity. Qed.
Example decimal_small : formatDecimal 5 3 = "0.005"%string /\ formatDecimal 2000 3 = "2"%string.
Proof. split; reflexivity. Qed.

(** ** Positional value of digits *)

Fixpoint dval (s : string) : Z :=
  match s with EmptyString => 0 | String c r => (byte_val c - 48) * 10 ^ slen r + dval r end.

Lemma dval_app a b : dval (a +:+ b) = dval a * 10 ^ slen b + dval b.
Proof.
  induction a as [|c a IH]; [done|]. rewrite app_cons_str. cbn [dval]. rewrite IH, slen_app, Z.pow_add_r by apply slen_nonneg. ring.
Qed.

Lemma dval_zeros n : dval (repeat_byte "0" n) = 0.
Proof. induction n as [|n IH]; [done|]. cbn [repeat_byte dval]. rewrite IH. reflexivity. Qed.

Lemma digit_range c : is_digit c = true -> 0 <= byte_val c - 48 <= 9.
Proof. unfold is_digit. rewrite andb_true_iff, !Z.leb_le. lia. Qed.

Lemma dval_range s : all_bytes is_digit s = true -> 0 <= dval s < 10 ^ slen s.
Proof.
  induction s as [|c s IH]; [done|]. cbn [all_bytes dval]. rewrite andb_true_iff. intros [Hc%digit_range Hs%IH].
  assert (slen (String c s) = 1 + slen s) as -> by (unfold slen; cbn [String.length]; lia).
  rewrite Z.pow_add_r by (pose proof (slen_nonneg s); lia). nia.
Qed.

Lemma uint_value s d : all_bytes is_digit s = true -> NilEmpty.uint_of_string s = Some d ->
  Z.of_N (Pos.of_uint d) = dval s /\ Z.of_N (DecimalPos.Unsigned.usize d) = slen s.
Proof.
  revert d. induction s as [|c s IH]; intros d Hs Hd; [by injection Hd as <-|]. cbn [all_bytes] in Hs. apply andb_true_iff in Hs as [Hc Hs].
  cbn [NilEmpty.uint_of_string] in Hd. destruct (NilEmpty.uint_of_string s) as [e|] eqn:He; [|by destruct c as [[] [] [] [] [] [] [] []]].
  destruct (IH e Hs eq_refl) as [IHv IHs]. rewrite DecimalPos.Unsigned.of_uint_alt in *.
  assert (slen (String c s) = 1 + slen s) as -> by (unfold slen; cbn [String.length]; lia). cbn [dval].
  destruct c as [[] [] [] [] [] [] [] []]; vm_compute in Hc; try discriminate Hc; injection Hd as <-;
    unfold Decimal.rev; cbn [Decimal.revapp DecimalPos.Unsigned.usize]; rewrite DecimalPos.Unsigned.of_lu_revapp;
    cbn [DecimalPos.Unsigned.of_lu]; rewrite N2Z.inj_add, N2Z.inj_mul, N2Z.inj_pow, IHv, IHs, N2Z.inj_succ, IHs;
    (split; [|lia]; change (Z.of_N 10) with 10;
     repeat match goal with
     | |- context [byte_val ?a] => let v := eval vm_compute in (byte_val a) in change (byte_val a) with v
     | |- context [Z.of_N ?a] => let v := eval vm_compute in (Z.of_N a) in change (Z.of_N a) with v
     end; ring).
Qed.

Lemma digits_value_dval s : all_bytes is_digit s = true -> s <> ""%string -> digits_value s = Some (Z.to_N (dval s)).
Proof.
  intros Hs Hne. unfold digits_value, NilZero.uint_of_string. destruct s as [|c s]; [done|].
  destruct (digits_parse _ Hs) as [d Hd]. rewrite Hd. cbn. f_equal. destruct (uint_value _ _ Hs Hd) as [Hv _].
  apply N2Z.inj. rewrite Z2N.id; [exact Hv|]. exact (proj1 (dval_range _ Hs)).
Qed.

Lemma SetString10_dval s : all_bytes is_digit s = true -> s <> ""%string -> SetString10 s = Some (dval s).
Proof.
  intros Hs Hne. pose proof (dval_range s Hs) as Hr. pose proof (digits_value_dval s Hs Hne) as H.
  assert (SetString10 s = Z.of_N <$> digits_value s) as ->.
  { destruct s as [|c s]; [done|]. cbn [all_bytes] in Hs. apply andb_true_iff in Hs as [Hc _].
    destruct c as [[] [] [] [] [] [] [] []]; vm_compute in Hc; try discriminate Hc; reflexivity. }
  rewrite H. cbn. by rewrite Z2N.id by lia.
Qed.

Lemma FormatZ_digits z : 0 <= z -> all_bytes is_digit (FormatZ z) = true /\ FormatZ z <> ""%string /\ dval (FormatZ z) = z.
Proof.
  intros Hz. assert (FormatZ z = FormatN (Z.to_N z)) as E by (rewrite <-FormatZ_of_N; f_equal; lia). rewrite E.
  pose proof (FormatN_digits (Z.to_N z)) as Hd. assert (FormatN (Z.to_N z) <> ""%string) as Hne.
  { pose proof (FormatN_canonical (Z.to_N z)) as H. by destruct (FormatN (Z.to_N z)). }
  split; [done|]. split; [done|]. pose proof (digits_value_dval _ Hd Hne) as H. rewrite digits_value_FormatN in H.
  injection H as H. pose proof (dval_range _ Hd). lia.
Qed.

Lemma FormatZ_canonical z : 0 <= z -> canonical_decimal (FormatZ z) = true.
Proof. intros Hz. replace z with (Z.of_N (Z.to_N z)) by lia. rewrite FormatZ_of_N. apply FormatN_canonical. Qed.

(** ** Rational values *)

(** [c] at [s] decimal places. *)
Definition dec (c s : Z) : Q := Qmake c (Z.to_pos (10 ^ s)).

Lemma dec_eq c1 s1 c2 s2 : 0 <= s1 -> 0 <= s2 -> (dec c1 s1 == dec c2 s2)%Q <-> c1 * 10 ^ s2 = c2 * 10 ^ s1.
Proof. intros H1 H2. unfold dec, Qeq. cbn. rewrite !Z2Pos.id by (apply Z.pow_pos_nonneg; lia). done. Qed.

Lemma dec_shift c s k : 0 <= s -> 0 <= k -> (dec (c * 10 ^ k) (s + k) == dec c s)%Q.
Proof. intros Hs Hk. apply dec_eq; [lia|lia|]. rewrite Z.pow_add_r by lia. ring. Qed.

Lemma dec_add a b s : (dec a s + dec b s == dec (a + b) s)%Q.
Proof. unfold dec, Qeq, Qplus. cbn. rewrite !Pos2Z.inj_mul. ring. Qed.
Lemma dec_sub a b s : (dec a s - dec b s == dec (a - b) s)%Q.
Proof. unfold dec, Qeq, Qminus, Qplus, Qopp. cbn. rewrite !Pos2Z.inj_mul. ring. Qed.
Lemma dec_compare a b s : (dec a s ?= dec b s)%Q = (a ?= b).
Proof. unfold dec, Qcompare. cbn. by rewrite <-Zmult_compare_compat_r by lia. Qed.
Lemma dec_mul_int c n s : (dec (c * n) s == dec c s * inject_Z n)%Q.
Proof. unfold dec, Qeq, Qmult, inject_Z. cbn. rewrite Pos.mul_1_r. done. Qed.
Lemma dec_int n : (dec n 0 == inject_Z n)%Q.
Proof. done. Qed.
Lemma dec_nonneg c s : 0 <= c -> (0 <= dec c s)%Q.
Proof. unfold dec, Qle. cbn. lia. Qed.

Lemma align_exact a sa b sb a' b' s : 0 <= sa -> 0 <= sb -> alignDecimals a sa b sb = (a', b', s) ->
  0 <= s /\ (dec a' s == dec a sa)%Q /\ (dec b' s == dec b sb)%Q.
Proof.
  intros Ha Hb. unfold alignDecimals. destruct (sa <? sb) eqn:E1; [apply Z.ltb_lt in E1|apply Z.ltb_ge in E1].
  - intros [= <- <- <-]. split; [lia|]. split; [|done]. rewrite <-(dec_shift a sa (sb - sa)) by lia. by replace (sa + (sb - sa)) with sb by lia.
  - destruct (sb <? sa) eqn:E2; [apply Z.ltb_lt in E2|apply Z.ltb_ge in E2]; intros [= <- <- <-].
    + split; [lia|]. split; [done|]. rewrite <-(dec_shift b sb (sa - sb)) by lia. by replace (sb + (sa - sb)) with sa by lia.
    + split; [lia|]. by replace sb with sa by lia.
Qed.

(** The value of a decimal text, whatever its length. *)
Definition text_rat (s : string) : option (Z * Z) :=
  match split_on "." s with
  | [whole] => Some (dval whole, 0)
  | [whole; fraction] => Some (dval (whole +:+ fraction), slen fraction)
  | _ => None
  end.
Definition text_value (s : string) : Q := match text_rat s with Some (c, k) => dec c k | None => 0%Q end.

(** ** Formatting is exact *)

Lemma split_digits a : all_bytes is_digit a = true -> split_on "." a = [a].
Proof.
  induction a as [|c a IH]; [done|]. cbn [all_bytes split_on]. rewrite andb_true_iff. intros [Hc Ha]. rewrite IH by done.
  destruct (c =? ".")%char eqn:E; [|done]. apply Ascii.eqb_eq in E as ->. by vm_compute in Hc.
Qed.

Lemma split_dot a b : all_bytes is_digit a = true -> split_on "." (a +:+ String "." b) = a :: split_on "." b.
Proof.
  induction a as [|c a IH]; [done|]. cbn [all_bytes]. rewrite andb_true_iff. intros [Hc Ha]. rewrite app_cons_str. cbn [split_on].
  rewrite IH by done. destruct (c =? ".")%char eqn:E; [|done]. apply Ascii.eqb_eq in E as ->. by vm_compute in Hc.
Qed.

Lemma trim_zeros_dot a b : trim_zeros (a +:+ String "." b) = a +:+ String "." (trim_zeros b).
Proof.
  induction a as [|c a IH].
  - change (trim_zeros (String "." b) = String "." (trim_zeros b)). cbn [trim_zeros]. destruct (trim_zeros b); reflexivity.
  - rewrite !app_cons_str. cbn [trim_zeros]. rewrite IH. by destruct a.
Qed.

Lemma trim_zeros_split b : exists k, b = trim_zeros b +:+ repeat_byte "0" k.
Proof.
  induction b as [|c b [k IH]]; [by exists O|]. cbn [trim_zeros]. destruct (trim_zeros b) as [|x t] eqn:E.
  - destruct (c =? "0")%char eqn:Ec.
    + apply Ascii.eqb_eq in Ec as ->. exists (S k). cbn in *. by rewrite IH at 1.
    + exists k. rewrite app_cons_str. cbn in *. by rewrite IH at 1.
  - exists k. rewrite app_cons_str. by rewrite IH at 1.
Qed.

Lemma repeat_byte_length c n : slen (repeat_byte c n) = Z.of_nat n.
Proof. unfold slen. induction n as [|n IH]; cbn [repeat_byte String.length]; lia. Qed.

Lemma take_drop_bytes n s : take_bytes n s +:+ drop_bytes n s = s.
Proof. revert s. induction n as [|n IH]; intros [|c s]; try done. cbn [take_bytes drop_bytes]. rewrite app_cons_str. by rewrite IH. Qed.

Lemma drop_bytes_slen n s : (n <= String.length s)%nat -> slen (drop_bytes n s) = slen s - Z.of_nat n.
Proof. unfold slen. revert s. induction n as [|n IH]; intros [|c s] H; cbn [drop_bytes String.length] in *; try lia. rewrite IH; lia. Qed.

Lemma take_all a b : take_bytes (String.length a) (a +:+ b) = a.
Proof. induction a as [|c a IH]; [by destruct b|]. rewrite app_cons_str. cbn [String.length take_bytes]. by rewrite IH. Qed.

Lemma trim_dot_end a : trim_dot (a +:+ ".") = a.
Proof.
  unfold trim_dot. rewrite HasSuffix_app, length_app_str. cbn [String.length].
  replace (String.length a + 1 - 1)%nat with (String.length a) by lia. apply take_all.
Qed.

Lemma last_byte b : b <> ""%string -> exists b0 d, b = b0 +:+ String d EmptyString.
Proof.
  induction b as [|c b IH]; [done|]. intros _. destruct b as [|c' b]; [by exists ""%string, c|].
  destruct IH as (b0 & d & ->); [done|]. exists (String c b0), d. by rewrite app_cons_str.
Qed.

Lemma no_dot_suffix a b : all_bytes is_digit b = true -> b <> ""%string -> HasSuffix (a +:+ b) "." = false.
Proof.
  intros Hb Hne. destruct (HasSuffix (a +:+ b) ".") eqn:E; [|done]. exfalso. unfold HasSuffix in E.
  apply andb_true_iff in E as [_ E%bool_decide_eq_true]. destruct (last_byte b Hne) as (b0 & d & ->).
  rewrite all_bytes_app in Hb. apply andb_true_iff in Hb as [_ Hd]. cbn [all_bytes] in Hd.
  pose proof (take_drop_bytes (String.length (a +:+ b0 +:+ String d "") - String.length ".") (a +:+ b0 +:+ String d "")) as H.
  rewrite E, <-app_assoc_str in H. apply app_inj_len_r in H as [_ H]; [|done]. injection H as <-. by vm_compute in Hd.
Qed.

Lemma all_bytes_trim p b : all_bytes p b = true -> all_bytes p (trim_zeros b) = true.
Proof. destruct (trim_zeros_split b) as [k H]. rewrite H at 1. rewrite all_bytes_app, andb_true_iff. by intros [? _]. Qed.

Lemma text_value_int w : all_bytes is_digit w = true -> text_value w = dec (dval w) 0.
Proof. intros H. unfold text_value, text_rat. by rewrite split_digits. Qed.

Lemma text_value_frac w t : all_bytes is_digit w = true -> all_bytes is_digit t = true ->
  text_value (w +:+ String "." t) = dec (dval (w +:+ t)) (slen t).
Proof. intros Hw Ht. unfold text_value, text_rat. by rewrite split_dot, split_digits. Qed.

(** A whole part and a fraction, with the trailing zeros and the dot trimmed. *)
Lemma trimmed_value w f : all_bytes is_digit w = true -> all_bytes is_digit f = true ->
  (text_value (trim_dot (trim_zeros (w +:+ String "." f))) == dec (dval (w +:+ f)) (slen f))%Q.
Proof.
  intros Hw Hf. rewrite trim_zeros_dot. pose proof (all_bytes_trim _ _ Hf) as Ht. destruct (trim_zeros_split f) as [k Hk].
  set (t := trim_zeros f) in *. assert (slen f = slen t + Z.of_nat k) as Hl by (rewrite Hk, slen_app, repeat_byte_length; done).
  assert (dval (w +:+ f) = dval (w +:+ t) * 10 ^ Z.of_nat k) as Hv.
  { rewrite Hk, <-app_assoc_str, (dval_app (w +:+ t)), dval_zeros, repeat_byte_length. ring. }
  rewrite Hv, Hl, dec_shift by (pose proof (slen_nonneg t); lia). destruct (decide (t = ""%string)) as [->|Hne].
  - rewrite trim_dot_end, app_nil_r_str. by rewrite text_value_int.
  - unfold trim_dot. replace (w +:+ String "." t) with ((w +:+ ".") +:+ t) by by rewrite app_assoc_str.
    rewrite no_dot_suffix by done. rewrite app_assoc_str. cbn [String.append]. by rewrite <-text_value_frac.
Qed.

(** The formatted text has exactly the value of the scaled integer. *)
Lemma format_exact c s : 0 <= c -> 0 <= s -> (text_value (formatDecimal c s) == dec c s)%Q.
Proof.
  intros Hc Hs. unfold formatDecimal. destruct (c =? 0) eqn:E0; [apply Z.eqb_eq in E0 as ->; by apply dec_eq|].
  destruct (FormatZ_digits c Hc) as (Hd & Hne & Hv). destruct (s =? 0) eqn:E1.
  { apply Z.eqb_eq in E1 as ->. rewrite text_value_int by done. by rewrite Hv. }
  apply Z.eqb_neq in E1. set (digits := if slen (FormatZ c) <=? s then _ else _).
  assert (all_bytes is_digit digits = true /\ dval digits = c /\ s < slen digits) as (HD & HV & HL).
  { unfold digits. destruct (slen (FormatZ c) <=? s) eqn:E2; [apply Z.leb_le in E2|apply Z.leb_gt in E2; done].
    rewrite all_bytes_app, dval_app, dval_zeros, slen_app, repeat_byte_length, Hd, Hv, andb_true_r.
    split; [|lia]. generalize (Z.to_nat (s - slen (FormatZ c) + 1)). intros n. by induction n. }
  clearbody digits. set (cut := Z.to_nat (slen digits - s)).
  assert (slen (drop_bytes cut digits) = s) as Hf by (rewrite drop_bytes_slen by (unfold cut, slen in *; lia); unfold cut; lia).
  pose proof (take_drop_bytes cut digits) as Htd. rewrite <-Htd, all_bytes_app, andb_true_iff in HD. destruct HD as [HW HF].
  change ("." +:+ drop_bytes cut digits) with (String "." (drop_bytes cut digits)). rewrite trimmed_value by done.
  by rewrite Htd, HV, Hf.
Qed.

(** ** Reading amounts *)

Lemma unsigned_decimal_digits s : canonicalUnsignedDecimal s = true -> all_bytes is_digit s = true /\ s <> ""%string.
Proof.
  unfold canonicalUnsignedDecimal. rewrite orb_true_iff, andb_true_iff. intros [->%streq_true|[_ H]]; [done|].
  destruct s as [|c s]; [done|]. apply andb_true_iff in H as [_ H]. done.
Qed.

(** The coefficient the code reads is the text's value. *)
Lemma coefficient_value v c s : decimalCoefficient v = Some (c, s) -> text_value v = dec c s /\ 0 <= c /\ 0 <= s.
Proof.
  unfold decimalCoefficient, text_value, text_rat, canonicalDecimal. destruct (_ && _) eqn:Hc; [|done]. apply andb_true_iff in Hc as [_ Hc].
  destruct (split_on "." v) as [|w [|f [|? ?]]]; try done.
  - apply unsigned_decimal_digits in Hc as [Hd Hne]. rewrite SetString10_dval by done. intros [= <- <-].
    pose proof (dval_range _ Hd). split; [done|lia].
  - rewrite !andb_true_iff in Hc. destruct Hc as [[[[Hw Hne]%unsigned_decimal_digits _] _] Hf].
    assert (all_bytes is_digit (w +:+ f) = true) as Hd by by rewrite all_bytes_app, Hw, Hf.
    rewrite SetString10_dval by (done || by destruct w). intros [= <- <-]. pose proof (dval_range _ Hd). pose proof (slen_nonneg f).
    split; [done|lia].
Qed.

Lemma canonical_coefficient v : canonicalDecimal v = true -> is_Some (decimalCoefficient v).
Proof.
  unfold decimalCoefficient. intros Hv. rewrite Hv. unfold canonicalDecimal in Hv. apply andb_true_iff in Hv as [_ Hc].
  destruct (split_on "." v) as [|w [|f [|? ?]]]; try done.
  - apply unsigned_decimal_digits in Hc as [Hd Hne]. rewrite SetString10_dval by done. by eexists.
  - rewrite !andb_true_iff in Hc. destruct Hc as [[[[Hw Hne]%unsigned_decimal_digits _] _] Hf].
    rewrite SetString10_dval; [by eexists|by rewrite all_bytes_app, Hw, Hf|by destruct w].
Qed.

(** An amount whose text the arithmetic reads: atomic digits, or a canonical decimal. *)
Definition readable (a : AgreementAmount) : Prop :=
  if nonempty (aa_AmountAtomic a) then all_bytes is_digit (aa_AmountAtomic a) = true else canonicalDecimal (AmountDecimal a) = true.

Definition amount_value (a : AgreementAmount) : Q :=
  if nonempty (aa_AmountAtomic a) then inject_Z (dval (aa_AmountAtomic a)) else text_value (AmountDecimal a).

Lemma valid_readable a : validateAgreementAmount a = true -> readable a.
Proof.
  unfold validateAgreementAmount, readable. rewrite !andb_true_iff, negb_true_iff, orb_false_iff. intros [[_ Hx] [Ha Hd]].
  destruct (nonempty (aa_AmountAtomic a)).
  - by apply negb_false_iff, unsigned_decimal_digits in Ha as [Ha _].
  - destruct (nonempty (AmountDecimal a)); [|done]. by apply negb_false_iff in Hd.
Qed.

Lemma amount_nonneg a : readable a -> (0 <= amount_value a)%Q.
Proof.
  unfold readable, amount_value. destruct (nonempty (aa_AmountAtomic a)); intros H.
  - apply dval_range in H. unfold Qle, inject_Z. cbn. lia.
  - destruct (canonical_coefficient _ H) as [[c s] Hc]. destruct (coefficient_value _ _ _ Hc) as (-> & Hn & _). by apply dec_nonneg.
Qed.

Lemma nonempty_ne s : nonempty s = true -> s <> ""%string.
Proof. apply nonempty_true. Qed.

Lemma same_profile_kind a b : sameProfile a b = true -> nonempty (aa_AmountAtomic b) = nonempty (aa_AmountAtomic a).
Proof. unfold sameProfile. rewrite !andb_true_iff. intros [_ H]. by apply eqb_prop in H. Qed.

(** The comparison of readable amounts is the comparison of their values. *)
Lemma compare_exact a b : readable a -> readable b -> sameProfile a b = true ->
  compareAmounts a b = compare_sign (amount_value a ?= amount_value b)%Q.
Proof.
  intros Ha Hb Hp. pose proof (same_profile_kind _ _ Hp) as Hk. unfold compareAmounts, readable, amount_value in *. rewrite Hp, Hk in *. cbn [negb].
  destruct (nonempty (aa_AmountAtomic a)) eqn:Hn.
  - rewrite !SetString10_dval by (done || by apply nonempty_ne). unfold Qcompare, inject_Z. cbn. by rewrite !Z.mul_1_r.
  - destruct (canonical_coefficient _ Ha) as [[ca sa] Ea]. destruct (canonical_coefficient _ Hb) as [[cb sb] Eb]. rewrite Ea, Eb.
    destruct (coefficient_value _ _ _ Ea) as (-> & Na & Sa). destruct (coefficient_value _ _ _ Eb) as (-> & Nb & Sb).
    destruct (alignDecimals ca sa cb sb) as [[a' b'] s] eqn:E. destruct (align_exact _ _ _ _ _ _ _ Sa Sb E) as (Hs & E1 & E2).
    rewrite <-E1, <-E2. by rewrite dec_compare.
Qed.

(** One of the two texts is empty. *)
Definition exclusive (a : AgreementAmount) : Prop :=
  if nonempty (aa_AmountAtomic a) then AmountDecimal a = ""%string else aa_AmountAtomic a = ""%string.

Lemma valid_exclusive a : validateAgreementAmount a = true -> exclusive a.
Proof.
  unfold validateAgreementAmount, exclusive. rewrite !andb_true_iff. intros [[_ Hx] _]. unfold nonempty in *.
  do 2 case_bool_decide; naive_solver.
Qed.

Lemma FormatZ_zero z : 0 <= z -> FormatZ z = "0"%string <-> z = 0.
Proof.
  intros Hz. split; [|by intros ->]. intros H. destruct (FormatZ_digits z Hz) as (_ & _ & <-). by rewrite H.
Qed.

Lemma formatDecimal_zero c s : 0 <= c -> 0 <= s -> formatDecimal c s = "0"%string <-> c = 0.
Proof.
  intros Hc Hs. split; [|by intros ->]. intros H. pose proof (format_exact c s Hc Hs) as E. rewrite H in E.
  assert (dec 0 0 == dec c s)%Q as E' by (rewrite <-E; done). apply dec_eq in E'; [|done|done]. change (10 ^ 0) with 1 in E'. lia.
Qed.

Lemma dec_zero c s : (dec c s == 0)%Q <-> c = 0.
Proof. unfold dec, Qeq. cbn. lia. Qed.

(** Addition and subtraction, when the result is not negative. *)
Lemma amountOp_exact (op : Z -> Z -> Z) (qop : Q -> Q -> Q) a b : readable a -> readable b -> sameProfile a b = true ->
  Proper (Qeq ==> Qeq ==> Qeq) qop -> (forall x y s, (qop (dec x s) (dec y s) == dec (op x y) s)%Q) ->
  (0 <= qop (amount_value a) (amount_value b))%Q ->
  exists r, amountOp op a b = Ok r /\ (amount_value r == qop (amount_value a) (amount_value b))%Q /\ sameProfile r a = true /\
    (nonempty (aa_AmountAtomic a) = true -> readable r) /\
    (exclusive a -> exclusive r /\ (amountIsZero r = true <-> (amount_value r == 0)%Q)).
Proof.
  intros Ha Hb Hp Hproper Hop Hnn. pose proof (same_profile_kind _ _ Hp) as Hk. unfold amountOp, readable, amount_value, sameProfile in *.
  rewrite Hk in *. assert (forall s, streq s s = true) as E by (intros s; by apply streq_true).
  destruct (nonempty (aa_AmountAtomic a)) eqn:Hn.
  - unfold bigInt. rewrite !SetString10_dval by (done || by apply nonempty_ne). cbn [mbind result_bind].
    set (x := dval (aa_AmountAtomic a)) in *. set (y := dval (aa_AmountAtomic b)) in *. pose proof (Hop x y 0) as H0.
    rewrite !dec_int in H0. rewrite H0 in Hnn. assert (0 <= op x y) as Hpos by (unfold Qle, inject_Z in Hnn; cbn in Hnn; lia).
    destruct (FormatZ_digits _ Hpos) as (Hd & Hne & Hv). apply nonempty_true in Hne. eexists. split; [reflexivity|].
    cbn [with_atomic aa_AmountAtomic AmountDecimal aa_AssetNamespace aa_AssetIdentifier aa_Unit]. rewrite Hne, !E, Hv, Hd.
    split; [by rewrite H0|]. split; [done|]. split; [done|]. unfold exclusive, amountIsZero. rewrite Hn.
    cbn [with_atomic aa_AmountAtomic AmountDecimal]. rewrite Hne. intros ->. split; [done|]. rewrite orb_false_r, streq_true, FormatZ_zero by done.
    unfold Qeq, inject_Z. cbn. lia.
  - destruct (canonical_coefficient _ Ha) as [[ca sa] Ea]. destruct (canonical_coefficient _ Hb) as [[cb sb] Eb]. rewrite Ea, Eb.
    destruct (coefficient_value _ _ _ Ea) as (Va & Na & Sa). destruct (coefficient_value _ _ _ Eb) as (Vb & Nb & Sb). rewrite Va, Vb in *.
    destruct (alignDecimals ca sa cb sb) as [[a' b'] s] eqn:EA. destruct (align_exact _ _ _ _ _ _ _ Sa Sb EA) as (Hs & E1 & E2).
    rewrite <-E1, <-E2, Hop in *. assert (0 <= op a' b') as Hpos by (unfold Qle, dec in Hnn; cbn in Hnn; lia).
    eexists. split; [reflexivity|]. cbn [with_decimal aa_AmountAtomic AmountDecimal aa_AssetNamespace aa_AssetIdentifier aa_Unit].
    rewrite Hn, !E. split; [rewrite format_exact by done; by rewrite <-E1, <-E2, Hop|]. split; [done|]. split; [done|].
    unfold exclusive, amountIsZero. rewrite Hn. cbn [with_decimal aa_AmountAtomic AmountDecimal]. rewrite Hn. intros Hx. split; [done|].
    rewrite Hx. cbn [orb]. change (streq "" "0") with false. cbn [orb]. rewrite streq_true, formatDecimal_zero, format_exact, dec_zero by done. done.
Qed.

Lemma add_exact a b : readable a -> readable b -> sameProfile a b = true ->
  exists r, addAmounts a b = Ok r /\ (amount_value r == amount_value a + amount_value b)%Q /\ sameProfile r a = true /\
    (nonempty (aa_AmountAtomic a) = true -> readable r) /\
    (exclusive a -> exclusive r /\ (amountIsZero r = true <-> (amount_value r == 0)%Q)).
Proof.
  intros Ha Hb Hp. unfold addAmounts. rewrite Hp. cbn [negb fail_if mbind result_bind].
  apply (amountOp_exact Z.add Qplus); [done..|apply _|intros; apply dec_add|].
  pose proof (amount_nonneg _ Ha). pose proof (amount_nonneg _ Hb). lra.
Qed.

Lemma compare_sign_le c : (compare_sign c <? 0) = false <-> c <> Lt.
Proof. by destruct c. Qed.

Lemma subtract_exact a b : readable a -> readable b -> sameProfile a b = true -> (amount_value b <= amount_value a)%Q ->
  exists r, subtractAmounts a b = Ok r /\ (amount_value r == amount_value a - amount_value b)%Q /\ sameProfile r a = true /\
    (exclusive a -> exclusive r /\ (amountIsZero r = true <-> (amount_value r == 0)%Q)).
Proof.
  intros Ha Hb Hp Hle. unfold subtractAmounts. rewrite (compare_exact _ _ Ha Hb Hp).
  rewrite (same_profile_kind _ _ Hp), eqb_reflx. cbn [negb]. rewrite orb_false_r.
  assert ((compare_sign (amount_value a ?= amount_value b)%Q <? 0) = false) as ->.
  { apply compare_sign_le. rewrite <-Qlt_alt. lra. }
  cbn [fail_if mbind result_bind].
  destruct (amountOp_exact Z.sub Qminus a b) as (r & Hr & Hv & Hs & _ & Hz); [done..|apply _|intros; apply dec_sub|lra|by exists r].
Qed.

Lemma exceeds_exact a n m : readable a -> readable m -> sameProfile a m = true ->
  exceedsAggregate a n m = true <-> (amount_value m < amount_value a * inject_Z n)%Q.
Proof.
  intros Ha Hm Hp. unfold exceedsAggregate. rewrite Hp. cbn [negb]. pose proof (same_profile_kind _ _ Hp) as Hk.
  assert (exists ca sa cm sm, amountCoefficient a = Some (ca, sa) /\ amountCoefficient m = Some (cm, sm) /\ 0 <= sa /\ 0 <= sm /\
            (amount_value a == dec ca sa)%Q /\ (amount_value m == dec cm sm)%Q) as (ca & sa & cm & sm & -> & -> & Sa & Sm & -> & ->).
  { unfold amountCoefficient, readable, amount_value in *. rewrite Hk in *. destruct (nonempty (aa_AmountAtomic a)) eqn:Hn.
    - rewrite !SetString10_dval by (done || by apply nonempty_ne). cbn [fmap option_fmap option_map]. by do 4 eexists.
    - destruct (canonical_coefficient _ Ha) as [[ca sa] Ea]. destruct (canonical_coefficient _ Hm) as [[cm sm] Em].
      destruct (coefficient_value _ _ _ Ea) as (-> & _ & ?). destruct (coefficient_value _ _ _ Em) as (-> & _ & ?).
      exists ca, sa, cm, sm. by rewrite Ea, Em. }
  destruct (alignDecimals ca sa cm sm) as [[a' m'] s] eqn:E. destruct (align_exact _ _ _ _ _ _ _ Sa Sm E) as (_ & <- & <-).
  rewrite <-dec_mul_int, Qlt_alt, dec_compare. rewrite (Z.compare_antisym m'). by destruct (m' ?= a' * n).
Qed.

(** C33: the arithmetic of amounts is exact.  For two valid amounts of one asset, unit and
    encoding, the text the code computes for their sum has exactly the sum of their
    values, the comparison is the comparison of their values, the difference is exact
    when it is not negative and refused otherwise, and the aggregate check is exact
    for every count. *)
Theorem amount_arithmetic_exact (a b : AgreementAmount) (count : Z) :
  validateAgreementAmount a = true -> validateAgreementAmount b = true -> sameProfile a b = true ->
  (exists r, addAmounts a b = Ok r /\ (amount_value r == amount_value a + amount_value b)%Q) /\
  compareAmounts a b = compare_sign (amount_value a ?= amount_value b)%Q /\
  ((amount_value b <= amount_value a)%Q ->
     exists r, subtractAmounts a b = Ok r /\ (amount_value r == amount_value a - amount_value b)%Q) /\
  ((amount_value a < amount_value b)%Q -> subtractAmounts a b = Err "invalid amount subtraction"%string) /\
  (exceedsAggregate a count b = true <-> (amount_value b < amount_value a * inject_Z count)%Q).
Proof.
  intros Ha%valid_readable Hb%valid_readable Hp. pose proof (compare_exact _ _ Ha Hb Hp) as Hc. split; [|split; [done|split; [|split]]].
  - destruct (add_exact a b) as (r & Hr & Hv & _); [done..|by exists r].
  - intros Hle. destruct (subtract_exact a b) as (r & Hr & Hv & _); [done..|by exists r].
  - intros Hlt. rewrite Qlt_alt in Hlt. unfold subtractAmounts. by rewrite Hc, Hlt.
  - by apply exceeds_exact.
Qed.

(** A comparison that finds no excess has read both amounts. *)
Lemma compare_readable a b : sameProfile a b = true -> (nonempty (aa_AmountAtomic a) = true -> readable a) ->
  (0 <? compareAmounts a b) = false -> readable a.
Proof.
  intros Hp Hat H. destruct (nonempty (aa_AmountAtomic a)) eqn:Hn; [by apply Hat|]. unfold compareAmounts in H. rewrite Hp, Hn in H.
  cbn [negb] in H. unfold readable. rewrite Hn. unfold decimalCoefficient in H at 1. by destruct (canonicalDecimal (AmountDecimal a)).
Qed.

(** ** Sample amounts *)
Module Sample.

Definition decimal (text : string) : AgreementAmount :=
  {| aa_AssetNamespace := "fiat"; aa_AssetIdentifier := "usd"; aa_AmountAtomic := ""; AmountDecimal := text; aa_Unit := "dollar" |}.

Lemma amount_arithmetic_exact_witness :
  (exists r, addAmounts (decimal "1.05") (decimal "0.95") = Ok r /\
     (amount_value r == amount_value (decimal "1.05") + amount_value (decimal "0.95"))%Q) /\
  compareAmounts (decimal "1.05") (decimal "0.95") = 1.
Proof.
  destruct (amount_arithmetic_exact (decimal "1.05") (decimal "0.95") 3) as (H1 & H2 & _);
    [vm_compute; reflexivity|vm_compute; reflexivity|vm_compute; reflexivity|]. split; [exact H1|]. rewrite H2. vm_compute. reflexivity.
Defined.
End Sample.
