(* ===== verification/Billing.v ===== *)
(** * Settlement obligations (src/pkg/agentcommerce/billing.go)

    The billing terms of an agreement become a bounded series of settlement
    obligations; each obligation has a ledger state that payments and resolutions
    move.  This file proves the ledger conserved and its final states final. *)

From S2P Require Import Prelude Text Sha256 Codec Semantic Authority Amounts.
From Stdlib Require Import QArith Lqa.
Open Scope Z_scope.

(** ** Data *)

Record BillingTerms := {
  BillingKind : string; FirstSequence : Z; RecurrenceStartUnix : Z; RecurrenceEndUnix : Z; RecurrenceCount : Z;
  RecurrenceIntervalSecs : Z; bt_MaximumAggregateAmount : AgreementAmount; CancellationCutoffPolicy : string }.

Record AgreementObligation := {
  ObligationID : string; ob_Kind : string; ObligorAgentID : string; BeneficiaryAgentID : string;
  DependsOnObligationIDs : list string; SubjectContentType : string; Subject : string; AttachmentDigests : list string;
  ob_Amount : option AgreementAmount; ob_NotBeforeUnix : Z; ob_DueAtUnix : Z; ob_ExpiresAtUnix : Z;
  AcceptanceEvidenceRequirements : list string; ConfidentialityPolicy : string; CancellationPolicy : string;
  DisputePolicy : string; ob_BillingTerms : option BillingTerms; ob_SettlementAdapterURI : string;
  SettlementParameters : string; AuthorizationPredicateIDs : list string; ob_RequiredExtensions : list string;
  ob_OptionalExtensions : list string }.

Record SettlementObligation := {
  so_AgreementBodyDigest : string; so_AgreementObligationID : string; so_ObligationInstanceID : string; Sequence : Z;
  PredecessorInstanceID : string; so_PayerAgentID : string; so_PayeeAgentID : string; so_Amount : AgreementAmount;
  so_NotBeforeUnix : Z; so_DueAtUnix : Z; so_ExpiresAtUnix : Z; so_MaximumAggregateAmount : AgreementAmount;
  so_SettlementAdapterURI : string; SettlementParametersDigest : string; so_MandateDigest : string; so_StableActionID : string }.

Inductive SettlementState :=
  | SettlementPending | SettlementPartiallyPaid | SettlementPaid | SettlementOverdue | SettlementCancelled
  | SettlementDisputed | SettlementWrittenOff | SettlementOther (s : string).
#[global] Instance SettlementState_eq_dec : EqDecision SettlementState.
Proof. solve_decision. Defined.

Record SettlementObligationState := {
  ObligationDigest : string; st_State : SettlementState; AppliedPaymentEvidence : list string; PaidToDate : AgreementAmount;
  OutstandingAmount : AgreementAmount; st_StateRevision : Z; st_EvidenceRefs : list string }.

(** The part of an obligation that names its instance. *)
Record InstanceProjection := {
  ip_AgreementBodyDigest : string; ip_AgreementObligationID : string; ip_Sequence : Z; ip_PredecessorInstanceID : string }.

(** codec.Marshal of the documents of this file *)
Class BillingCodec := {
  marshal_settlement : SettlementObligation -> option string;
  marshal_instance : InstanceProjection -> option string;
  marshal_parameters : string -> option string }.

(** ** Checks *)

Definition validateBillingTerms (terms : BillingTerms) (amount : AgreementAmount) : result string unit :=
  (if one_of (BillingKind terms) ["one_time"; "deposit"; "milestone"; "installment"; "accumulated"]%string then
     fail_if (negb (RecurrenceStartUnix terms =? 0) || negb (RecurrenceEndUnix terms =? 0) || negb (RecurrenceCount terms =? 0) ||
              negb (RecurrenceIntervalSecs terms =? 0)) "non-periodic billing carries recurrence fields"%string
   else if streq (BillingKind terms) "periodic" then
     fail_if ((RecurrenceStartUnix terms =? 0) || (RecurrenceEndUnix terms <=? RecurrenceStartUnix terms) ||
              (RecurrenceCount terms =? 0) || (10000 <? RecurrenceCount terms) || (RecurrenceIntervalSecs terms =? 0))
       "periodic billing is unbounded"%string
   else Err "billing kind is invalid"%string);;
  let maximum := bt_MaximumAggregateAmount terms in
  fail_if ((FirstSequence terms =? 0) || negb (boundedIdentifier (CancellationCutoffPolicy terms) 256) ||
           negb (validateAgreementAmount maximum) || negb (streq (aa_AssetNamespace maximum) (aa_AssetNamespace amount)) ||
           negb (streq (aa_AssetIdentifier maximum) (aa_AssetIdentifier amount)) || negb (streq (aa_Unit maximum) (aa_Unit amount)))
    "billing aggregate cap is invalid"%string.

Definition ValidateSettlementObligation (obligation : SettlementObligation) : result string unit :=
  fail_if (negb (canonicalDigestPattern (so_AgreementBodyDigest obligation)) ||
           negb (boundedIdentifier (so_AgreementObligationID obligation) 128) ||
           negb (canonicalDigestPattern (so_ObligationInstanceID obligation)) || (Sequence obligation =? 0) ||
           (nonempty (PredecessorInstanceID obligation) && negb (canonicalDigestPattern (PredecessorInstanceID obligation))) ||
           negb (boundedIdentifier (so_PayerAgentID obligation) 256) || negb (boundedIdentifier (so_PayeeAgentID obligation) 256) ||
           negb (validateAgreementAmount (so_Amount obligation)) ||
           negb (validateAgreementAmount (so_MaximumAggregateAmount obligation)) ||
           negb (boundedIdentifier (so_SettlementAdapterURI obligation) 256) ||
           negb (canonicalDigestPattern (SettlementParametersDigest obligation)) ||
           (nonempty (so_MandateDigest obligation) && negb (canonicalDigestPattern (so_MandateDigest obligation))) ||
           negb (canonicalDigestPattern (so_StableActionID obligation))) "settlement obligation is invalid"%string;;
  fail_if ((negb (so_NotBeforeUnix obligation =? 0) && negb (so_ExpiresAtUnix obligation =? 0) &&
            (so_ExpiresAtUnix obligation <=? so_NotBeforeUnix obligation)) ||
           (negb (so_DueAtUnix obligation =? 0) && negb (so_ExpiresAtUnix obligation =? 0) &&
            (so_ExpiresAtUnix obligation <? so_DueAtUnix obligation))) "settlement obligation time bounds are invalid"%string.

Definition ValidateSettlementState (state : SettlementObligationState) : result string unit :=
  fail_if (negb (canonicalDigestPattern (ObligationDigest state)) || (st_StateRevision state =? 0) ||
           negb (validateSortedDigests (AppliedPaymentEvidence state) 10000) || negb (validateSortedDigests (st_EvidenceRefs state) 10000) ||
           negb (validateAgreementAmount (PaidToDate state)) || negb (validateAgreementAmount (OutstandingAmount state)))
    "settlement obligation state is invalid"%string;;
  match st_State state with
  | SettlementOther s => Err ("unknown settlement state " +:+ quoted s)%string
  | _ => Ok tt
  end.

Section Billing.
Context `{B : BillingCodec}.

(** ** Materializing obligations *)

(** The schedule of the instance at [offset]; the arithmetic wraps. *)
Definition instanceWindow (obligation : AgreementObligation) (offset : Z) : result string (Z * Z * Z) :=
  let notBefore := ob_NotBeforeUnix obligation in
  let due := ob_DueAtUnix obligation in
  let expires := ob_ExpiresAtUnix obligation in
  match ob_BillingTerms obligation with
  | Some terms =>
      if streq (BillingKind terms) "periodic" then
        let increment := wrap64 (offset * RecurrenceIntervalSecs terms) in
        let notBefore := wrap64 (RecurrenceStartUnix terms + increment) in
        let due := if (due =? 0) || (due <? notBefore) then notBefore else due in
        let expires := if (expires =? 0) || (RecurrenceEndUnix terms <? expires) then RecurrenceEndUnix terms else expires in
        fail_if (expires <=? notBefore) "periodic billing instance falls outside recurrence bounds"%string;;
        Ok (notBefore, due, expires)
      else Ok (notBefore, due, expires)
  | None => Ok (notBefore, due, expires)
  end.

(** The inputs the loop shares. *)
Record Materialization := {
  mz_ownerID : string; mz_agentID : string; mz_agreementDigest : string; mz_obligationID : string; mz_mandateDigest : string;
  mz_amount : AgreementAmount; mz_maximum : AgreementAmount; mz_parameterDigest : string; mz_firstSequence : Z }.

Definition materializeOne (m : Materialization) (obligation : AgreementObligation) (offset : Z) (predecessor : string)
  : result string SettlementObligation :=
  let sequence := wrap64 (mz_firstSequence m + offset) in
  window ← instanceWindow obligation offset;
  let '(notBefore, due, expires) := window in
  instanceID ← Digest "tos.settlement-obligation-instance.v1"
    (marshal_instance {| ip_AgreementBodyDigest := mz_agreementDigest m; ip_AgreementObligationID := mz_obligationID m;
                         ip_Sequence := sequence; ip_PredecessorInstanceID := predecessor |});
  action ← DeriveStableActionID "billing.materialize"
    (list_to_map [("owner_id", ID (mz_ownerID m)); ("agent_id", ID (mz_agentID m));
                  ("agreement_body_digest", Digest32 (mz_agreementDigest m));
                  ("agreement_obligation_id", ID (mz_obligationID m)); ("sequence", U64 sequence)]%string);
  Ok {| so_AgreementBodyDigest := mz_agreementDigest m; so_AgreementObligationID := mz_obligationID m;
        so_ObligationInstanceID := instanceID; Sequence := sequence; PredecessorInstanceID := predecessor;
        so_PayerAgentID := ObligorAgentID obligation; so_PayeeAgentID := BeneficiaryAgentID obligation; so_Amount := mz_amount m;
        so_NotBeforeUnix := notBefore; so_DueAtUnix := due; so_ExpiresAtUnix := expires; so_MaximumAggregateAmount := mz_maximum m;
        so_SettlementAdapterURI := ob_SettlementAdapterURI obligation; SettlementParametersDigest := mz_parameterDigest m;
        so_MandateDigest := mz_mandateDigest m; so_StableActionID := action.1 |}.

(** The loop, from [offset], with [count] instances to go. *)
Fixpoint materializeFrom (m : Materialization) (obligation : AgreementObligation) (count : nat) (offset : Z) (predecessor : string)
  : result string (list SettlementObligation) :=
  match count with
  | O => Ok []
  | S count =>
      instance ← materializeOne m obligation offset predecessor;
      rest ← materializeFrom m obligation count (offset + 1) (so_ObligationInstanceID instance);
      Ok (instance :: rest)
  end.

(** The number of instances, the first sequence and the cap. *)
Definition billingPlan (obligation : AgreementObligation) (amount : AgreementAmount) : result string (Z * Z * AgreementAmount) :=
  match ob_BillingTerms obligation with
  | None => Ok (1, 1, amount)
  | Some terms =>
      validateBillingTerms terms amount;;
      Ok ((if streq (BillingKind terms) "periodic" then RecurrenceCount terms else 1), FirstSequence terms,
          bt_MaximumAggregateAmount terms)
  end.

Definition MaterializeSettlementObligations (ownerID agentID agreementDigest obligationID mandateDigest : string)
    (obligation : AgreementObligation) : result string (list SettlementObligation) :=
  let invalid := "settlement materialization input is invalid"%string in
  fail_if (negb (boundedIdentifier ownerID 256) || negb (boundedIdentifier agentID 256) ||
           negb (canonicalDigestPattern agreementDigest) || negb (boundedIdentifier obligationID 128) ||
           negb (streq (ObligationID obligation) obligationID)) invalid;;
  amount ← opt_err (ob_Amount obligation) invalid;
  fail_if (negb (canonicalDigestPattern mandateDigest) || negb (validateAgreementAmount amount) ||
           negb (boundedIdentifier (BeneficiaryAgentID obligation) 256) ||
           negb (boundedIdentifier (ob_SettlementAdapterURI obligation) 256) || (slen (SettlementParameters obligation) =? 0)) invalid;;
  plan ← billingPlan obligation amount;
  let '(count, firstSequence, maximum) := plan in
  fail_if (exceedsAggregate amount count maximum) "billing instances exceed the maximum aggregate amount"%string;;
  parameterDigest ← Digest "tos.settlement-adapter-parameters.v1" (marshal_parameters (SettlementParameters obligation));
  materializeFrom
    {| mz_ownerID := ownerID; mz_agentID := agentID; mz_agreementDigest := agreementDigest; mz_obligationID := obligationID;
       mz_mandateDigest := mandateDigest; mz_amount := amount; mz_maximum := maximum; mz_parameterDigest := parameterDigest;
       mz_firstSequence := firstSequence |} obligation (Z.to_nat count) 0 "".

(** ** The ledger of one obligation *)

Definition obligationDigest (obligation : SettlementObligation) : result string string :=
  Digest "tos.settlement-obligation.v1" (marshal_settlement obligation).

Definition zeroAmount (amount : AgreementAmount) : AgreementAmount :=
  if nonempty (aa_AmountAtomic amount) then with_atomic (with_decimal amount "") "0"
  else with_decimal (with_atomic amount "") "0".

Definition NewSettlementState (obligation : SettlementObligation) : result string SettlementObligationState :=
  ValidateSettlementObligation obligation;;
  digest ← obligationDigest obligation;
  let amount := so_Amount obligation in
  Ok {| ObligationDigest := digest; st_State := SettlementPending; AppliedPaymentEvidence := []; PaidToDate := zeroAmount amount;
        OutstandingAmount := amount; st_StateRevision := 1; st_EvidenceRefs := [] |}.

Definition ApplyPayment (state : SettlementObligationState) (obligation : SettlementObligation) (evidenceDigest : string)
    (paid : AgreementAmount) (at_ : Time) : result string SettlementObligationState :=
  let invalid := "payment evidence is invalid"%string in
  or_err (ValidateSettlementObligation obligation) invalid;;
  let amount := so_Amount obligation in
  fail_if (negb (canonicalDigestPattern evidenceDigest) || negb (validateAgreementAmount paid) ||
           negb (streq (aa_AssetNamespace paid) (aa_AssetNamespace amount)) ||
           negb (streq (aa_AssetIdentifier paid) (aa_AssetIdentifier amount)) || negb (streq (aa_Unit paid) (aa_Unit amount))) invalid;;
  let mismatch := "settlement state does not match obligation"%string in
  wantDigest ← or_err (obligationDigest obligation) mismatch;
  fail_if (negb (streq (ObligationDigest state) wantDigest) || (st_StateRevision state =? 0)) mismatch;;
  if one_of evidenceDigest (AppliedPaymentEvidence state) then Ok state
  else
    fail_if (bool_decide (st_State state = SettlementPaid) || bool_decide (st_State state = SettlementCancelled) ||
             bool_decide (st_State state = SettlementWrittenOff)) "terminal settlement state cannot accept payment"%string;;
    fail_if (negb (so_ExpiresAtUnix obligation =? 0) && negb (Before at_ (UnixTime (so_ExpiresAtUnix obligation))))
      "payment evidence arrived after obligation expiry"%string;;
    let exceeds := "payment exceeds obligation amount"%string in
    total ← or_err (addAmounts (PaidToDate state) paid) exceeds;
    fail_if (0 <? compareAmounts total amount) exceeds;;
    outstanding ← subtractAmounts amount total;
    Ok {| ObligationDigest := ObligationDigest state;
          st_State := (if amountIsZero outstanding then SettlementPaid else SettlementPartiallyPaid);
          AppliedPaymentEvidence := sort_strings (AppliedPaymentEvidence state ++ [evidenceDigest]);
          PaidToDate := total; OutstandingAmount := outstanding; st_StateRevision := wrap64 (st_StateRevision state + 1);
          st_EvidenceRefs := sort_strings (st_EvidenceRefs state ++ [evidenceDigest]) |}.

(** The transitions that are not payments. *)
Definition resolutionAllowed (state : SettlementState) (obligation : SettlementObligation) (target : SettlementState) (at_ : Time)
  : result string bool :=
  let from s := bool_decide (state = s) in
  match target with
  | SettlementOverdue =>
      Ok ((from SettlementPending || from SettlementPartiallyPaid) && negb (so_DueAtUnix obligation =? 0) &&
          negb (Before at_ (UnixTime (so_DueAtUnix obligation))))
  | SettlementCancelled => Ok (from SettlementPending || from SettlementPartiallyPaid || from SettlementOverdue || from SettlementDisputed)
  | SettlementDisputed => Ok (from SettlementPending || from SettlementPartiallyPaid || from SettlementOverdue)
  | SettlementWrittenOff => Ok (from SettlementOverdue || from SettlementDisputed)
  | _ => Err "settlement target requires another evidence profile"%string
  end.

(** Neighbours of a sorted list that are equal. *)
Fixpoint repeats (l : list string) : bool :=
  match l with a :: (b :: _) as l => streq a b || repeats l | _ => false end.

Definition ResolveSettlementState (state : SettlementObligationState) (obligation : SettlementObligation) (target : SettlementState)
    (evidenceDigest : string) (at_ : Time) : result string SettlementObligationState :=
  let invalid := "settlement state transition evidence is invalid"%string in
  or_err (ValidateSettlementObligation obligation) invalid;;
  fail_if (negb (canonicalDigestPattern evidenceDigest) || (st_StateRevision state =? 0)) invalid;;
  let mismatch := "settlement state does not match obligation"%string in
  wantDigest ← or_err (obligationDigest obligation) mismatch;
  fail_if (negb (streq (ObligationDigest state) wantDigest)) mismatch;;
  if one_of evidenceDigest (st_EvidenceRefs state) && bool_decide (st_State state = target) then Ok state
  else
    allowed ← resolutionAllowed (st_State state) obligation target at_;
    fail_if (negb allowed) "settlement state transition is not permitted"%string;;
    let refs := sort_strings (st_EvidenceRefs state ++ [evidenceDigest]) in
    fail_if (repeats refs) "settlement evidence conflicts with prior transition"%string;;
    Ok {| ObligationDigest := ObligationDigest state; st_State := target; AppliedPaymentEvidence := AppliedPaymentEvidence state;
          PaidToDate := PaidToDate state; OutstandingAmount := OutstandingAmount state;
          st_StateRevision := wrap64 (st_StateRevision state + 1); st_EvidenceRefs := refs |}.
(** ** Sequences of operations *)

Inductive LedgerOp :=
  | OpPay (evidenceDigest : string) (paid : AgreementAmount) (at_ : Time)
  | OpResolve (target : SettlementState) (evidenceDigest : string) (at_ : Time).

Definition attempt (obligation : SettlementObligation) (state : SettlementObligationState) (op : LedgerOp)
  : result string SettlementObligationState :=
  match op with
  | OpPay evidenceDigest paid at_ => ApplyPayment state obligation evidenceDigest paid at_
  | OpResolve target evidenceDigest at_ => ResolveSettlementState state obligation target evidenceDigest at_
  end.

(** An error leaves the stored state. *)
Definition exec (obligation : SettlementObligation) (state : SettlementObligationState) (op : LedgerOp) : SettlementObligationState :=
  match attempt obligation state op with Ok state' => state' | _ => state end.

Definition run (obligation : SettlementObligation) (state : SettlementObligationState) (ops : list LedgerOp) : SettlementObligationState :=
  foldl (exec obligation) state ops.

(** The payment that an operation adds to the ledger: its evidence was not applied before. *)
Definition added (obligation : SettlementObligation) (state : SettlementObligationState) (op : LedgerOp) : list (string * AgreementAmount) :=
  match op with
  | OpPay evidenceDigest paid at_ =>
      if is_ok (ApplyPayment state obligation evidenceDigest paid at_) && negb (one_of evidenceDigest (AppliedPaymentEvidence state))
      then [(evidenceDigest, paid)] else []
  | OpResolve _ _ _ => []
  end.

Fixpoint payments (obligation : SettlementObligation) (state : SettlementObligationState) (ops : list LedgerOp)
  : list (string * AgreementAmount) :=
  match ops with
  | [] => []
  | op :: ops => added obligation state op ++ payments obligation (exec obligation state op) ops
  end.

Definition total_value (l : list (string * AgreementAmount)) : Q := foldr (fun p acc => amount_value p.2 + acc)%Q 0%Q l.

Lemma total_value_app a b : (total_value (a ++ b) == total_value a + total_value b)%Q.
Proof.
  induction a as [|p a IH]; [symmetry; apply Qplus_0_l|].
  change (amount_value p.2 + total_value (a ++ b) == (amount_value p.2 + total_value a) + total_value b)%Q. rewrite IH. ring.
Qed.

(** ** Conservation *)

Record ledger_inv (obligation : SettlementObligation) (state : SettlementObligationState) (l : list (string * AgreementAmount)) : Prop := {
  li_paid : readable (PaidToDate state);
  li_profile : sameProfile (PaidToDate state) (so_Amount obligation) = true;
  li_sum : (amount_value (PaidToDate state) + amount_value (OutstandingAmount state) == amount_value (so_Amount obligation))%Q;
  li_outstanding : (0 <= amount_value (OutstandingAmount state))%Q;
  li_total : (amount_value (PaidToDate state) == total_value l)%Q;
  li_evidence : AppliedPaymentEvidence state ≡ₚ l.*1;
  li_unique : NoDup l.*1;
  li_closed : st_State state = SettlementPaid -> (amount_value (OutstandingAmount state) == 0)%Q }.

Lemma obligation_amount obligation u : ValidateSettlementObligation obligation = Ok u -> validateAgreementAmount (so_Amount obligation) = true.
Proof.
  unfold ValidateSettlementObligation. intros H. apply bind_Ok in H as (? & H & _). apply fail_if_Ok in H.
  rewrite !orb_false_iff, !negb_false_iff in H. by destruct_and?.
Qed.

Lemma same_profile_refl a : sameProfile a a = true.
Proof. unfold sameProfile. rewrite !(proj2 (streq_true _ _) eq_refl), eqb_reflx. done. Qed.

Lemma same_profile_trans a b c : sameProfile a b = true -> sameProfile b c = true -> sameProfile a c = true.
Proof.
  unfold sameProfile. rewrite !andb_true_iff, !streq_true, !eqb_true_iff. intros [[[-> ->] ->] ->] [[[-> ->] ->] ->]. done.
Qed.

Lemma same_profile_sym a b : sameProfile a b = true -> sameProfile b a = true.
Proof. unfold sameProfile. rewrite !andb_true_iff, !streq_true, !eqb_true_iff. intros [[[-> ->] ->] ->]. done. Qed.

Lemma zero_amount a : readable (zeroAmount a) /\ sameProfile (zeroAmount a) a = true /\ (amount_value (zeroAmount a) == 0)%Q.
Proof.
  unfold readable, sameProfile, amount_value, zeroAmount. destruct (nonempty (aa_AmountAtomic a)) eqn:Hk; cbn;
    rewrite !(proj2 (streq_true _ _) eq_refl), ?Hk; done.
Qed.

Lemma new_inv obligation state : NewSettlementState obligation = Ok state -> ledger_inv obligation state [].
Proof.
  unfold NewSettlementState. intros H. apply bind_Ok in H as (? & Hv & H). apply bind_Ok in H as (d & _ & H). injection H as <-.
  apply obligation_amount, valid_readable, amount_nonneg in Hv. destruct (zero_amount (so_Amount obligation)) as (Hr & Hp & Hz).
  split; cbn [PaidToDate OutstandingAmount AppliedPaymentEvidence st_State]; [done|done|rewrite Hz; lra|done|done|done|constructor|done].
Qed.

(** What an accepted, new payment did. *)
Lemma apply_payment_Ok state obligation e paid at_ state' :
  ApplyPayment state obligation e paid at_ = Ok state' -> one_of e (AppliedPaymentEvidence state) = false ->
  validateAgreementAmount (so_Amount obligation) = true /\ validateAgreementAmount paid = true /\
  exists total outstanding, addAmounts (PaidToDate state) paid = Ok total /\ (0 <? compareAmounts total (so_Amount obligation)) = false /\
    subtractAmounts (so_Amount obligation) total = Ok outstanding /\ PaidToDate state' = total /\ OutstandingAmount state' = outstanding /\
    AppliedPaymentEvidence state' = sort_strings (AppliedPaymentEvidence state ++ [e]) /\
    st_State state' = (if amountIsZero outstanding then SettlementPaid else SettlementPartiallyPaid).
Proof.
  unfold ApplyPayment. intros H Hne. apply bind_Ok in H as (? & Hv & H). apply or_err_Ok, obligation_amount in Hv.
  apply bind_Ok in H as (? & Hp & H). apply fail_if_Ok in Hp. rewrite !orb_false_iff, !negb_false_iff in Hp.
  apply bind_Ok in H as (? & _ & H). apply bind_Ok in H as (? & _ & H). rewrite Hne in H. apply bind_Ok in H as (? & _ & H).
  apply bind_Ok in H as (? & _ & H). apply bind_Ok in H as (total & Ht & H). apply bind_Ok in H as (? & Hc & H).
  apply bind_Ok in H as (outstanding & Ho & H). injection H as <-. apply or_err_Ok in Ht. apply fail_if_Ok in Hc.
  split; [done|]. split; [by destruct_and?|]. by exists total, outstanding.
Qed.

Lemma pay_inv obligation state l e paid at_ state' : ledger_inv obligation state l ->
  ApplyPayment state obligation e paid at_ = Ok state' ->
  ledger_inv obligation state' (l ++ if negb (one_of e (AppliedPaymentEvidence state)) then [(e, paid)] else []).
Proof.
  intros [Hr Hp Hs Ho Ht He Hu Hc] H. destruct (one_of e (AppliedPaymentEvidence state)) eqn:Hone; cbn [negb].
  { unfold ApplyPayment in H. do 4 (apply bind_Ok in H as (? & _ & H)). rewrite Hone in H. injection H as <-. rewrite app_nil_r. by split. }
  destruct (apply_payment_Ok _ _ _ _ _ _ H Hone) as (Hva & Hvp & total & outstanding & Hadd & Hcmp & Hsub & <- & <- & Hev & Hst).
  pose proof (valid_readable _ Hva) as Ra. pose proof (valid_readable _ Hvp) as Rp.
  assert (sameProfile (PaidToDate state) paid = true) as Hpp.
  { unfold addAmounts in Hadd. apply bind_Ok in Hadd as (? & Hg & _). by apply fail_if_Ok, negb_false_iff in Hg. }
  destruct (add_exact _ _ Hr Rp Hpp) as (r & Hadd' & Vr & Pr & Rat & _). rewrite Hadd in Hadd'. injection Hadd' as <-.
  pose proof (same_profile_trans _ _ _ Pr Hp) as Pt.
  assert (readable (PaidToDate state')) as Rt.
  { apply (compare_readable _ _ Pt); [|done]. intros Hn. apply Rat. by rewrite <-(same_profile_kind _ _ Pr) in Hn. }
  rewrite (compare_exact _ _ Rt Ra Pt) in Hcmp.
  assert (amount_value (PaidToDate state') <= amount_value (so_Amount obligation))%Q as Hle.
  { rewrite Qle_alt. by destruct (Qcompare (amount_value (PaidToDate state')) (amount_value (so_Amount obligation))). }
  destruct (subtract_exact _ _ Ra Rt (same_profile_sym _ _ Pt) Hle) as (o & Hsub' & Vo & _ & Hz). rewrite Hsub in Hsub'. injection Hsub' as <-.
  split; [done|done|rewrite Vo; lra|rewrite Vo; lra| | | |].
  - rewrite Vr, total_value_app, Ht. cbn. lra.
  - rewrite Hev, sort_strings_Permutation, fmap_app, He. done.
  - rewrite fmap_app. cbn. apply NoDup_app. split; [done|]. split; [|apply NoDup_singleton]. intros x Hx ->%list_elem_of_singleton.
    apply not_true_iff_false in Hone. apply Hone, one_of_true. by rewrite He.
  - rewrite Hst. intros Hpaid. apply (Hz (valid_exclusive _ Hva)). by destruct (amountIsZero (OutstandingAmount state')).
Qed.

Lemma resolve_keeps state obligation target e at_ state' : ResolveSettlementState state obligation target e at_ = Ok state' ->
  PaidToDate state' = PaidToDate state /\ OutstandingAmount state' = OutstandingAmount state /\
  AppliedPaymentEvidence state' = AppliedPaymentEvidence state /\ (st_State state' = SettlementPaid -> st_State state = SettlementPaid).
Proof.
  unfold ResolveSettlementState. intros H. do 4 (apply bind_Ok in H as (? & _ & H)). destruct (_ && _); [by injection H as <-|].
  apply bind_Ok in H as (allowed & Ha & H). apply bind_Ok in H as (? & _ & H). apply bind_Ok in H as (? & _ & H). injection H as <-.
  cbn. split; [done|]. split; [done|]. split; [done|]. intros ->. done.
Qed.

Lemma exec_inv obligation state l op : ledger_inv obligation state l ->
  ledger_inv obligation (exec obligation state op) (l ++ added obligation state op).
Proof.
  intros I. unfold exec, added. destruct op as [e paid at_|target e at_]; cbn [attempt].
  - destruct (ApplyPayment state obligation e paid at_) as [state'| |] eqn:H; cbn [is_ok andb]; [by apply (pay_inv _ _ _ _ _ at_)|..]; by rewrite app_nil_r.
  - rewrite app_nil_r. destruct (ResolveSettlementState state obligation target e at_) as [state'| |] eqn:H; [|done..].
    apply resolve_keeps in H as (Hp & Ho & Ha & Hst). destruct I. split; rewrite ?Hp, ?Ho, ?Ha; auto.
Qed.

Lemma ledger_run_inv obligation state l ops : ledger_inv obligation state l ->
  ledger_inv obligation (run obligation state ops) (l ++ payments obligation state ops).
Proof.
  revert state l. induction ops as [|op ops IH]; intros state l I; cbn; [by rewrite app_nil_r|].
  rewrite app_assoc. by apply IH, exec_inv.
Qed.

(** C13: the ledger of an obligation is conserved.  After any sequence of payments and
    resolutions, what is paid and what is outstanding add up exactly to the
    obligation's amount and neither is negative; what is paid is the sum of the
    payments that were accepted, each with its own evidence, however often a payment
    is replayed; and a settlement that is paid has nothing outstanding. *)
Theorem ledger_conserved (obligation : SettlementObligation) (state : SettlementObligationState) (ops : list LedgerOp) :
  NewSettlementState obligation = Ok state ->
  let s := run obligation state ops in
  let accepted := payments obligation state ops in
  (amount_value (PaidToDate s) + amount_value (OutstandingAmount s) == amount_value (so_Amount obligation))%Q /\
  (0 <= amount_value (PaidToDate s))%Q /\ (0 <= amount_value (OutstandingAmount s))%Q /\
  (amount_value (PaidToDate s) == total_value accepted)%Q /\
  AppliedPaymentEvidence s ≡ₚ accepted.*1 /\ NoDup accepted.*1 /\
  (st_State s = SettlementPaid -> (amount_value (OutstandingAmount s) == 0)%Q).
Proof.
  intros H%new_inv. destruct (ledger_run_inv _ _ _ ops H) as [Hr _ Hs Ho Ht He Hu Hc]. cbn [app] in *.
  pose proof (amount_nonneg _ Hr). by repeat split.
Qed.

(** ** Final states *)

Definition final_state (s : SettlementState) : bool :=
  match s with SettlementPaid | SettlementCancelled | SettlementWrittenOff => true | _ => false end.

Lemma final_exec obligation state op : final_state (st_State state) = true -> exec obligation state op = state.
Proof.
  intros Hf. unfold exec. destruct op as [e paid at_|target e at_]; cbn [attempt].
  - destruct (ApplyPayment state obligation e paid at_) as [state'| |] eqn:H; [|done..]. unfold ApplyPayment in H.
    do 4 (apply bind_Ok in H as (? & _ & H)). destruct (one_of e (AppliedPaymentEvidence state)); [by injection H as <-|].
    apply bind_Ok in H as (? & Hst & _). apply fail_if_Ok in Hst. by destruct (st_State state).
  - destruct (ResolveSettlementState state obligation target e at_) as [state'| |] eqn:H; [|done..]. unfold ResolveSettlementState in H.
    do 4 (apply bind_Ok in H as (? & _ & H)). destruct (_ && _); [by injection H as <-|].
    apply bind_Ok in H as (allowed & Ha & H). apply bind_Ok in H as (? & Hg & _). apply fail_if_Ok, negb_false_iff in Hg. subst allowed.
    unfold resolutionAllowed in Ha. by destruct (st_State state), target.
Qed.

(** A paid, cancelled or written-off settlement is final: no sequence of payments and
    resolutions changes anything in it. *)
Theorem ledger_final (obligation : SettlementObligation) (state : SettlementObligationState) (ops : list LedgerOp) :
  final_state (st_State state) = true -> run obligation state ops = state.
Proof.
  intros Hf. induction ops as [|op ops IH]; [done|]. cbn. by rewrite final_exec.
Qed.
(** ** The operations return *)

Lemma readable_big a b : readable a -> readable b -> sameProfile a b = true -> no_panic (addAmounts a b).
Proof. intros Ha Hb Hp. by destruct (add_exact _ _ Ha Hb Hp) as (r & -> & _). Qed.

Lemma add_total a b : readable a -> readable b -> no_panic (addAmounts a b).
Proof.
  intros Ha Hb. unfold addAmounts. destruct (sameProfile a b) eqn:Hp; [|done]. pose proof (readable_big a b Ha Hb Hp) as H.
  unfold addAmounts in H. by rewrite Hp in H.
Qed.

Lemma validate_obligation_total obligation : no_panic (ValidateSettlementObligation obligation).
Proof. unfold ValidateSettlementObligation. solve_total. Qed.

Lemma pay_total obligation state l e paid at_ : ledger_inv obligation state l -> no_panic (ApplyPayment state obligation e paid at_).
Proof.
  intros [Hr Hp _ _ _ _ _ _]. unfold ApplyPayment. pose proof (validate_obligation_total obligation).
  apply bind_no_panic; [by apply or_err_no_panic|]. intros ? Hv. apply bind_no_panic; [apply fail_if_no_panic|]. intros ? Hg.
  apply bind_no_panic; [apply or_err_no_panic, digest_total|]. intros ? _. apply bind_no_panic; [apply fail_if_no_panic|]. intros _ _.
  destruct (one_of e (AppliedPaymentEvidence state)); [done|]. apply bind_no_panic; [apply fail_if_no_panic|]. intros _ _.
  apply bind_no_panic; [apply fail_if_no_panic|]. intros _ _. apply fail_if_Ok in Hg. rewrite !orb_false_iff, !negb_false_iff in Hg.
  assert (readable paid) as Rp by (apply valid_readable; by destruct_and?). apply or_err_Ok, obligation_amount, valid_readable in Hv.
  apply bind_no_panic; [by apply or_err_no_panic, add_total|]. intros total Ht. apply or_err_Ok in Ht.
  apply bind_no_panic; [apply fail_if_no_panic|]. intros ? Hc. apply fail_if_Ok in Hc.
  assert (sameProfile (PaidToDate state) paid = true) as Hpp.
  { unfold addAmounts in Ht. apply bind_Ok in Ht as (? & Hg' & _). by apply fail_if_Ok, negb_false_iff in Hg'. }
  destruct (add_exact _ _ Hr Rp Hpp) as (r & Hadd & _ & Pr & Rat & _). rewrite Ht in Hadd. injection Hadd as <-.
  pose proof (same_profile_trans _ _ _ Pr Hp) as Pt.
  assert (readable total) as Rt.
  { apply (compare_readable _ _ Pt); [|done]. intros Hn. apply Rat. by rewrite <-(same_profile_kind _ _ Pr) in Hn. }
  rewrite (compare_exact _ _ Rt Hv Pt) in Hc.
  destruct (subtract_exact _ _ Hv Rt (same_profile_sym _ _ Pt)) as (o & -> & _); [|done]. rewrite Qle_alt. intros Hgt. by rewrite Hgt in Hc.
Qed.

(** ** Materialized series *)

(** The semantic fields of the action that materializes an instance. *)
Definition billing_values (ownerID agentID : string) (x : SettlementObligation) : SemanticValues :=
  list_to_map [("owner_id", ID ownerID); ("agent_id", ID agentID); ("agreement_body_digest", Digest32 (so_AgreementBodyDigest x));
               ("agreement_obligation_id", ID (so_AgreementObligationID x)); ("sequence", U64 (Sequence x))]%string.

Lemma billing_sequence ownerID agentID x : billing_values ownerID agentID x !! "sequence"%string = Some (U64 (Sequence x)).
Proof. reflexivity. Qed.

Lemma materializeOne_Ok m obligation offset predecessor instance : materializeOne m obligation offset predecessor = Ok instance ->
  so_Amount instance = mz_amount m /\ so_MaximumAggregateAmount instance = mz_maximum m /\
  Sequence instance = wrap64 (mz_firstSequence m + offset) /\ PredecessorInstanceID instance = predecessor /\
  exists encoded, DeriveStableActionID "billing.materialize" (billing_values (mz_ownerID m) (mz_agentID m) instance) =
    Ok (so_StableActionID instance, encoded).
Proof.
  unfold materializeOne. intros H. apply bind_Ok in H as ([[nb due] expires] & _ & H). apply bind_Ok in H as (d & _ & H).
  apply bind_Ok in H as ([id encoded] & Hid & H). injection H as <-.
  cbn [so_Amount so_MaximumAggregateAmount Sequence PredecessorInstanceID so_StableActionID fst].
  split; [reflexivity|]. split; [reflexivity|]. split; [reflexivity|]. split; [reflexivity|].
  exists encoded. exact Hid.
Qed.

Lemma materializeFrom_Ok m obligation count offset predecessor l : materializeFrom m obligation count offset predecessor = Ok l ->
  length l = count /\
  (forall i x, l !! i = Some x -> exists p, materializeOne m obligation (offset + Z.of_nat i) p = Ok x /\
     (i = O -> p = predecessor) /\ forall j y, i = S j -> l !! j = Some y -> p = so_ObligationInstanceID y).
Proof.
  revert offset predecessor l. induction count as [|count IH]; intros offset predecessor l H; cbn in H.
  - injection H as <-. split; [reflexivity|]. intros i x Hx. rewrite lookup_nil in Hx. discriminate Hx.
  - apply bind_Ok in H as (x0 & H0 & H). apply bind_Ok in H as (rest & Hr & H). injection H as <-. destruct (IH _ _ _ Hr) as [Hl Hrest].
    split; [cbn; by rewrite Hl|]. intros [|i] x Hx.
    + injection Hx as <-. exists predecessor. rewrite Z.add_0_r. split; [exact H0|]. split; [reflexivity|]. intros j y Hj. discriminate Hj.
    + destruct (Hrest i x Hx) as (p & Hp & Hp0 & Hps). exists p. replace (offset + Z.of_nat (S i)) with (offset + 1 + Z.of_nat i) by lia.
      split; [exact Hp|]. split; [intros Hi; discriminate Hi|]. intros j y [= <-] Hy. destruct i as [|i]; [injection Hy as <-; by apply Hp0|].
      apply (Hps i y); [reflexivity|exact Hy].
Qed.

Lemma plan_bounds obligation amount count first maximum : billingPlan obligation amount = Ok (count, first, maximum) ->
  0 <= match ob_BillingTerms obligation with Some t => RecurrenceCount t | None => 0 end ->
  1 <= count <= 10000 /\ (validateAgreementAmount amount = true -> validateAgreementAmount maximum = true).
Proof.
  unfold billingPlan. destruct (ob_BillingTerms obligation) as [terms|]; [|intros [= <- <- <-] _; by split].
  intros H Hpos. apply bind_Ok in H as (? & Hv & H). injection H as <- <- <-. unfold validateBillingTerms in Hv.
  apply bind_Ok in Hv as (? & Hk & Hm). apply fail_if_Ok in Hm. rewrite !orb_false_iff, !negb_false_iff in Hm. split; [|by destruct_and?].
  destruct (streq (BillingKind terms) "periodic") eqn:Ep; [|lia]. apply streq_true in Ep. rewrite Ep in Hk. cbn in Hk.
  apply fail_if_Ok in Hk. rewrite !orb_false_iff, Z.eqb_neq, Z.ltb_ge in Hk. destruct_and?. lia.
Qed.

(** A materialized series stays within its terms.  Every instance has the agreed
    amount; together the instances never exceed the maximum aggregate amount; each
    names the instance before it; sequences count up from the first one; and two
    different instances never share an action identity, unless the texts of their
    two actions collide under SHA-256. *)
Theorem materialized_within_cap (ownerID agentID agreementDigest obligationID mandateDigest : string)
    (obligation : AgreementObligation) (l : list SettlementObligation) :
  0 <= match ob_BillingTerms obligation with Some t => RecurrenceCount t | None => 0 end ->
  MaterializeSettlementObligations ownerID agentID agreementDigest obligationID mandateDigest obligation = Ok l ->
  exists amount maximum first, ob_Amount obligation = Some amount /\
    1 <= zlen l <= 10000 /\ (amount_value amount * inject_Z (Z.of_nat (length l)) <= amount_value maximum)%Q /\
    (forall i x, l !! i = Some x -> so_Amount x = amount /\ so_MaximumAggregateAmount x = maximum /\
       Sequence x = wrap64 (first + Z.of_nat i) /\
       (forall y, l !! S i = Some y -> PredecessorInstanceID y = so_ObligationInstanceID x)) /\
    (forall i j x y, l !! i = Some x -> l !! j = Some y -> so_StableActionID x = so_StableActionID y ->
       i = j \/ collides (action_text "billing.materialize" (billing_values ownerID agentID x))
                        (action_text "billing.materialize" (billing_values ownerID agentID y))).
Proof.
  intros Hpos. unfold MaterializeSettlementObligations. intros H. apply bind_Ok in H as ([] & _ & H). apply bind_Ok in H as (amount & Ha & H).
  apply bind_Ok in H as ([] & Hg & H). apply bind_Ok in H as ([[count first] maximum] & Hplan & H). apply bind_Ok in H as ([] & Hcap & H).
  apply bind_Ok in H as (parameterDigest & _ & H). apply opt_err_Ok in Ha. apply fail_if_Ok in Hg, Hcap.
  rewrite !orb_false_iff, !negb_false_iff in Hg. destruct (plan_bounds _ _ _ _ _ Hplan Hpos) as [Hcount Hmax].
  destruct (materializeFrom_Ok _ _ _ _ _ _ H) as [Hlen Hall]. exists amount, maximum, first. split; [exact Ha|]. split; [unfold zlen; rewrite Hlen; lia|].
  split; [|split].
  - assert (validateAgreementAmount amount = true) as Hva by by destruct_and?. pose proof (valid_readable _ (Hmax Hva)) as Rm.
    apply valid_readable in Hva. rewrite Hlen, Z2Nat.id by lia. apply Qnot_lt_le. intros Hlt.
    assert (sameProfile amount maximum = true) as Hp.
    { unfold exceedsAggregate in Hcap. by destruct (sameProfile amount maximum). }
    apply (exceeds_exact _ _ _ Hva Rm Hp) in Hlt. by rewrite Hlt in Hcap.
  - intros i x Hx. destruct (Hall i x Hx) as (p & Hone & _ & _).
    apply materializeOne_Ok in Hone as (E1 & E2 & E3 & _). split; [exact E1|]. split; [exact E2|]. split; [exact E3|].
    intros y Hy. destruct (Hall (S i) y Hy) as (p' & Hone' & _ & Hp'). apply materializeOne_Ok in Hone' as (_ & _ & _ & E4 & _).
    rewrite E4. apply (Hp' i x); [reflexivity|exact Hx].
  - intros i j x y Hx Hy Hid. destruct (Hall i x Hx) as (p & Hone & _). destruct (Hall j y Hy) as (p' & Hone' & _).
    apply materializeOne_Ok in Hone as (_ & _ & S1 & _ & e1 & D1). apply materializeOne_Ok in Hone' as (_ & _ & S2 & _ & e2 & D2).
    rewrite Hid in D1. cbn [mz_ownerID mz_agentID] in D1, D2. destruct (stable_id_texts _ _ _ _ _ _ _ D1 D2) as [(_ & Hv)|]; [left|by right].
    assert (U64 (Sequence y) = U64 (Sequence x)) as F.
    { pose proof (billing_sequence ownerID agentID x) as F1. rewrite Hv, billing_sequence in F1. congruence. } apply lookup_lt_Some in Hx, Hy. rewrite Hlen in Hx, Hy. cbn [mz_firstSequence] in *.
    assert (wrap64 (first + (0 + Z.of_nat j)) = wrap64 (first + (0 + Z.of_nat i))) as Hw.
    { rewrite <-S1, <-S2. apply U64_inj; [rewrite S2; apply wrap64_range|rewrite S1; apply wrap64_range|exact F]. }
    unfold wrap64, two64 in Hw. apply Nat2Z.inj. Z.to_euclidean_division_equations. lia.
Qed.
End Billing.

#[export] Hint Resolve validate_obligation_total : no_panic.

(** ** Sample obligations *)
Module Sample.
Import Amounts.Sample.

Definition dg (c : ascii) : string := "sha256:" +:+ repeat_byte c 64.

Definition codec : BillingCodec :=
  {| marshal_settlement := fun o => Some (so_ObligationInstanceID o); marshal_instance := fun p => Some (FormatZ (ip_Sequence p));
     marshal_parameters := Some |}.
#[local] Existing Instance codec.

Definition obligation (text : string) : SettlementObligation :=
  {| so_AgreementBodyDigest := dg "0"; so_AgreementObligationID := "fee"; so_ObligationInstanceID := dg "1"; Sequence := 1;
     PredecessorInstanceID := ""; so_PayerAgentID := "payer"; so_PayeeAgentID := "payee"; so_Amount := decimal text;
     so_NotBeforeUnix := 0; so_DueAtUnix := 1700000500; so_ExpiresAtUnix := 1700001000; so_MaximumAggregateAmount := decimal text;
     so_SettlementAdapterURI := "adapter"; SettlementParametersDigest := dg "2"; so_MandateDigest := ""; so_StableActionID := dg "3" |}.

Definition at_unix (n : Z) : Time := UnixTime n.

Definition opened (text : string) : SettlementObligationState :=
  match NewSettlementState (obligation text) with
  | Ok state => state
  | _ => {| ObligationDigest := ""; st_State := SettlementOther ""; AppliedPaymentEvidence := []; PaidToDate := decimal "0";
            OutstandingAmount := decimal "0"; st_StateRevision := 0; st_EvidenceRefs := [] |}
  end.

(** Two payments, the first sent twice, one too large, and a dispute in between. *)
Definition history : list LedgerOp :=
  [ OpPay (dg "a") (decimal "1.25") (at_unix 1700000100); OpPay (dg "a") (decimal "1.25") (at_unix 1700000200);
    OpPay (dg "b") (decimal "0.76") (at_unix 1700000300); OpResolve SettlementDisputed (dg "c") (at_unix 1700000400);
    OpPay (dg "d") (decimal "0.75") (at_unix 1700000600); OpResolve SettlementCancelled (dg "e") (at_unix 1700000700) ].

Example history_paid :
  (st_State (run (obligation "2") (opened "2") history), AmountDecimal (PaidToDate (run (obligation "2") (opened "2") history)),
   st_StateRevision (run (obligation "2") (opened "2") history)) = (SettlementPaid, "2"%string, 4).
Proof. vm_compute. reflexivity. Qed.

Lemma opened_new text : is_ok (NewSettlementState (obligation text)) = true -> NewSettlementState (obligation text) = Ok (opened text).
Proof. unfold opened. by destruct (NewSettlementState (obligation text)). Qed.

Lemma ledger_conserved_witness :
  let s := run (obligation "2") (opened "2") history in
  (amount_value (PaidToDate s) + amount_value (OutstandingAmount s) == amount_value (decimal "2"))%Q.
Proof.
  assert (NewSettlementState (obligation "2") = Ok (opened "2")) as H by (apply opened_new; vm_compute; reflexivity).
  exact (proj1 (ledger_conserved (obligation "2") (opened "2") history H)).
Defined.

Lemma ledger_final_witness :
  let s := run (obligation "2") (opened "2") history in run (obligation "2") s history = s.
Proof. apply ledger_final. vm_compute. reflexivity. Defined.

Definition terms : BillingTerms :=
  {| BillingKind := "periodic"; FirstSequence := 5; RecurrenceStartUnix := 1700000000; RecurrenceEndUnix := 1700400000;
     RecurrenceCount := 3; RecurrenceIntervalSecs := 86400; bt_MaximumAggregateAmount := decimal "6.5";
     CancellationCutoffPolicy := "none" |}.

Definition agreed (t : BillingTerms) : AgreementObligation :=
  {| ObligationID := "fee"; ob_Kind := "payment"; ObligorAgentID := "payer"; BeneficiaryAgentID := "payee"; DependsOnObligationIDs := [];
     SubjectContentType := ""; Subject := ""; AttachmentDigests := []; ob_Amount := Some (decimal "2.1"); ob_NotBeforeUnix := 0;
     ob_DueAtUnix := 0; ob_ExpiresAtUnix := 0; AcceptanceEvidenceRequirements := []; ConfidentialityPolicy := "";
     CancellationPolicy := ""; DisputePolicy := ""; ob_BillingTerms := Some t; ob_SettlementAdapterURI := "adapter";
     SettlementParameters := "parameters"; AuthorizationPredicateIDs := []; ob_RequiredExtensions := []; ob_OptionalExtensions := [] |}.

Definition series (t : BillingTerms) : result string (list SettlementObligation) :=
  MaterializeSettlementObligations "owner" "agent" (dg "0") "fee" (dg "9") (agreed t).

Example series_sequences :
  match series terms with Ok l => (fun o => (Sequence o, so_NotBeforeUnix o)) <$> l | _ => [] end =
  [(5, 1700000000); (6, 1700086400); (7, 1700172800)].
Proof. vm_compute. reflexivity. Qed.

Lemma materialized_within_cap_witness :
  match series terms with
  | Ok l => exists amount maximum first, ob_Amount (agreed terms) = Some amount /\ 1 <= zlen l <= 10000 /\
      (amount_value amount * inject_Z (Z.of_nat (length l)) <= amount_value maximum)%Q /\
      (forall i x, l !! i = Some x -> Sequence x = wrap64 (first + Z.of_nat i))
  | _ => False
  end.
Proof.
  assert (is_ok (series terms) = true) as Hok by (vm_compute; reflexivity). destruct (series terms) as [l| |] eqn:Hs; [|discriminate Hok..].
  destruct (materialized_within_cap "owner" "agent" (dg "0") "fee" (dg "9") (agreed terms) l) as (amount & maximum & first & H1 & H2 & H3 & H4 & _);
    [cbn; lia|exact Hs|]. exists amount, maximum, first. split; [exact H1|]. split; [exact H2|]. split; [exact H3|].
  intros i x Hx. exact (proj1 (proj2 (proj2 (H4 i x Hx)))).
Defined.

(** ** Where the code departs from its intent *)

(** A decimal amount with many whole digits, and a payment with many decimals. *)
Definition large : string := "1" +:+ repeat_byte "0" 30.
Definition small : string := "0." +:+ repeat_byte "0" 80 +:+ "1".

(** An accepted operation can leave a ledger state that the state validator refuses.
    First, a payment with many decimals against a large decimal amount: the
    outstanding amount is exact but longer than a canonical amount may be.  Second, a
    payment whose evidence digest was already used by a dispute: the digest then
    appears twice in the evidence, which must be free of duplicates. *)
Theorem accepted_payment_invalid_state :
  (ValidateSettlementState (opened large) = Ok tt /\
   match ApplyPayment (opened large) (obligation large) (dg "a") (decimal small) (at_unix 1700000100) with
   | Ok s => ValidateSettlementState s = Err "settlement obligation state is invalid"%string
   | _ => False
   end) /\
  match ResolveSettlementState (opened "2") (obligation "2") SettlementDisputed (dg "a") (at_unix 1700000100) with
  | Ok disputed =>
      ValidateSettlementState disputed = Ok tt /\
      match ApplyPayment disputed (obligation "2") (dg "a") (decimal "1") (at_unix 1700000200) with
      | Ok s => st_EvidenceRefs s = [dg "a"; dg "a"] /\ ValidateSettlementState s = Err "settlement obligation state is invalid"%string
      | _ => False
      end
  | _ => False
  end.
Proof. split; [split|]; [vm_compute; reflexivity|vm_compute; reflexivity|vm_compute; split; [reflexivity|split; reflexivity]]. Qed.

(** An interval of half the uint64 range: the third instance wraps to the start. *)
Definition wrapping : BillingTerms :=
  {| BillingKind := "periodic"; FirstSequence := 1; RecurrenceStartUnix := 1; RecurrenceEndUnix := 2 ^ 64 - 1; RecurrenceCount := 3;
     RecurrenceIntervalSecs := 2 ^ 63; bt_MaximumAggregateAmount := decimal "6.5"; CancellationCutoffPolicy := "none" |}.

Example periodic_schedule_wraps :
  match series wrapping with Ok l => so_NotBeforeUnix <$> l | _ => [] end = [1; 2 ^ 63 + 1; 1].
Proof. vm_compute. reflexivity. Qed.
End Sample.
