(* ===== verification/Agreement.v ===== *)
(** * Agreements (src/pkg/agentcommerce/agreement.go)

    A bilateral or multilateral agreement lists obligations, their dependencies and the
    authorities that must accept them.  This file models the validation of a body, the
    targets that acceptances sign, the evidence set that authorizes an agreement, and
    the search for cycles among obligations. *)

From S2P Require Import Prelude Text Sha256 Base64 Codec Semantic Authority Amounts Billing.

Definition MaxAgreementParticipants : Z := 64.
Definition MaxAgreementObligations : Z := 256.
Definition MaxAgreementPredicates : Z := 512.
Definition MaxAgreementTermsBytes : Z := 256 * 1024.
Definition MaxAgreementEvidenceBytes : Z := 1024 * 1024.
Definition MaxInt64 : Z := 2 ^ 63 - 1.

Definition EvidenceProfileAgentSignature : string := "tos.agreement.evidence.agent-signature.v1".
Definition EvidenceProfileAuthoritySignature : string := "tos.agreement.evidence.authority-signature.v1".
Definition EvidenceProfilePaidDemandQuote : string := "tos.agreement.evidence.paid-demand-quote.v1".
Definition AgreementAcceptanceContentType : string := "application/vnd.tos.agreement-acceptance.v1+cbor".
Definition AuthorityAcceptanceContentType : string := "application/vnd.tos.agreement-authority-acceptance.v1+cbor".
Definition PaidDemandBuyerAcceptContentType : string := "application/vnd.tos.paid-demand-buyer-accept.v1+cbor".
Definition PaidDemandProviderOfferContentType : string := "application/vnd.tos.paid-demand-provider-offer.v1+cbor".

(** ** Data *)

Record AgreementParticipant := { pt_AgentID : string; Roles : list string }.

Record AgreementAuthoritySubject := {
  SubjectKind : string; SubjectNamespace : string; SubjectIdentifier : string; RepresentedAgentID : string }.
#[global] Instance AgreementAuthoritySubject_eq_dec : EqDecision AgreementAuthoritySubject.
Proof. solve_decision. Defined.

Record AgreementAuthorizationPredicate := {
  PredicateID : string; AuthoritySubject : AgreementAuthoritySubject; RoleScope : list string; ObligationIDs : list string;
  EvidenceProfileURI : string; EvidenceProfileVersion : Z; EvidenceProfileDigest : string;
  EvidenceTargetProjectionDigest : string; pr_ValidFromUnix : Z; pr_ExpiresAtUnix : Z;
  pr_RequiredExtensions : list string; pr_OptionalExtensions : list string }.

Record AgentAgreementBody := {
  ab_SchemaVersion : Z; AgreementID : string; Version : Z; PredecessorAgreementDigest : string; NetworkContext : string;
  Participants : list AgreementParticipant; ReferencedIntents : list string; TermsContentType : string; Terms : string;
  ab_AttachmentDigests : list string; Obligations : list AgreementObligation;
  AuthorizationPredicates : list AgreementAuthorizationPredicate; ab_RequiredExtensions : list string;
  ab_OptionalExtensions : gmap string string; ab_ValidFromUnix : Z; ab_ExpiresAtUnix : Z }.

Record AgreementAuthorizationEvidence := {
  ev_AgreementID : string; ev_AgreementVersion : Z; ev_AgreementBodyDigest : string;
  ev_AuthoritySubject : AgreementAuthoritySubject; ev_PredicateIDs : list string; ev_EvidenceProfileURI : string;
  ev_EvidenceProfileVersion : Z; ev_EvidenceProfileDigest : string; ev_EvidenceTargetProjectionDigests : list string;
  EvidenceContentType : string; ev_Evidence : string }.

Record AgentAgreement := { ag_Body : AgentAgreementBody; AuthorizationEvidence : list AgreementAuthorizationEvidence }.

Record AgreementAcceptanceBody := {
  acc_AgreementID : string; acc_AgreementVersion : Z; acc_AgreementBodyDigest : string;
  AcceptingSubject : AgreementAuthoritySubject; AcceptedRoles : list string; acc_PredicateIDs : list string;
  acc_EvidenceTargetProjectionDigests : list string; acc_ExpiresAtUnix : Z }.

Record SignedAgreementAcceptance := { acc_Body : AgreementAcceptanceBody; acc_PublicKey : string; acc_Signature : string }.

(** The parts of a body that an acceptance target commits to: everything but the
    predicates, and the predicates without their targets. *)
Record AgreementCore := {
  co_SchemaVersion : Z; co_AgreementID : string; co_Version : Z; co_PredecessorAgreementDigest : string;
  co_NetworkContext : string; co_Participants : list AgreementParticipant; co_ReferencedIntents : list string;
  co_TermsContentType : string; co_Terms : string; co_AttachmentDigests : list string;
  co_Obligations : list AgreementObligation; co_RequiredExtensions : list string;
  co_OptionalExtensions : gmap string string; co_ValidFromUnix : Z; co_ExpiresAtUnix : Z }.

Record predicateProjection := {
  pp_PredicateID : string; pp_AuthoritySubject : AgreementAuthoritySubject; pp_RoleScope : list string;
  pp_ObligationIDs : list string; pp_EvidenceProfileURI : string; pp_EvidenceProfileVersion : Z;
  pp_EvidenceProfileDigest : string; pp_ValidFromUnix : Z; pp_ExpiresAtUnix : Z; pp_RequiredExtensions : list string;
  pp_OptionalExtensions : list string }.

Record ProfileDescriptor := {
  pd_ProfileURI : string; pd_ProfileVersion : Z; AllowedSubjectKinds : list string; EvidenceContentTypes : list string;
  PredicateGroupingRule : string; TargetBindingRule : string; VerifierProfileURI : string; ValidityPolicy : string }.

(** codec.Marshal and codec.Unmarshal of the documents of this file *)
Class AgreementCodec := {
  marshal_core : AgreementCore -> option string;
  marshal_policy : list predicateProjection -> option string;
  marshal_agreement_body : AgentAgreementBody -> option string;
  marshal_acceptance_body : AgreementAcceptanceBody -> option string;
  marshal_acceptance : SignedAgreementAcceptance -> option string;
  unmarshal_acceptance : string -> option SignedAgreementAcceptance;
  marshal_descriptor : ProfileDescriptor -> option string }.

(** The interfaces [AgreementEvidenceVerifier] and [IntentAuthorityResolver]. *)
Definition AgreementEvidenceVerifier := AgreementAuthorizationEvidence -> Time -> result string unit.
Definition IntentAuthorityResolver := string -> string -> Time -> result string unit.

(** ** Small checks *)

Definition NUL : string := bytes [0%N].

Definition subject_key (s : AgreementAuthoritySubject) : string :=
  SubjectKind s +:+ NUL +:+ SubjectNamespace s +:+ NUL +:+ SubjectIdentifier s +:+ NUL +:+ RepresentedAgentID s.

(** The key of an evidence group: a subject under one profile. *)
Definition group_key (s : AgreementAuthoritySubject) (uri : string) (version : Z) (digest : string) : string :=
  subject_key s +:+ NUL +:+ uri +:+ (NUL +:+ FormatZ version +:+ NUL) +:+ digest.

Definition predicate_group (p : AgreementAuthorizationPredicate) : string :=
  group_key (AuthoritySubject p) (EvidenceProfileURI p) (EvidenceProfileVersion p) (EvidenceProfileDigest p).
Definition evidence_group (e : AgreementAuthorizationEvidence) : string :=
  group_key (ev_AuthoritySubject e) (ev_EvidenceProfileURI e) (ev_EvidenceProfileVersion e) (ev_EvidenceProfileDigest e).

Definition validAuthoritySubject (subject : AgreementAuthoritySubject) : bool :=
  one_of (SubjectKind subject) ["agent"; "wallet"; "custody_principal"; "key_owner"; "data_owner"; "capability_owner"]%string &&
  boundedIdentifier (SubjectNamespace subject) 128 && boundedIdentifier (SubjectIdentifier subject) 256 &&
  if streq (SubjectKind subject) "agent" then streq (RepresentedAgentID subject) ""
  else boundedIdentifier (RepresentedAgentID subject) 256.

(** [validateSortedDigests] with its two errors, under the caller's prefix. *)
Definition sortedDigestsUnder (label : string) (values : list string) (maximum : Z) : result string unit :=
  fail_if (maximum <? zlen values) (label +:+ "digest set is too large")%string;;
  fail_if (negb (validateSortedDigests values maximum)) (label +:+ "digests must be canonical, sorted, and unique")%string.

(** ** The search for a cycle among obligations *)

Inductive mark := visiting | visited.
#[global] Instance mark_eq_dec : EqDecision mark.
Proof. solve_decision. Defined.

Definition dependencies (obligations : gmap string AgreementObligation) (identifier : string) : list string :=
  match obligations !! identifier with Some o => DependsOnObligationIDs o | None => [] end.

(** [visit]: whether a cycle was found, and the marks; nothing when the fuel runs out. *)
Fixpoint visit (obligations : gmap string AgreementObligation) (fuel : nat) (state : gmap string mark) (identifier : string)
  : option (bool * gmap string mark) :=
  match fuel with
  | O => None
  | S fuel =>
      match state !! identifier with
      | Some visiting => Some (true, state)
      | Some visited => Some (false, state)
      | None =>
          let fix loop (state : gmap string mark) (dependencies : list string) : option (bool * gmap string mark) :=
            match dependencies with
            | [] => Some (false, <[identifier := visited]> state)
            | dependency :: rest =>
                match visit obligations fuel state dependency with
                | Some (true, state) => Some (true, state)
                | Some (false, state) => loop state rest
                | None => None
                end
            end in
          loop (<[identifier := visiting]> state) (dependencies obligations identifier)
      end
  end.

(** The loop over the obligations, in the order of [roots]. *)
Fixpoint visitAll (obligations : gmap string AgreementObligation) (fuel : nat) (state : gmap string mark) (roots : list string)
  : option bool :=
  match roots with
  | [] => Some false
  | root :: roots =>
      match visit obligations fuel state root with
      | Some (true, _) => Some true
      | Some (false, state) => visitAll obligations fuel state roots
      | None => None
      end
  end.

(** Every identifier a visit can reach. *)
Definition mentioned (obligations : gmap string AgreementObligation) : gset string :=
  dom obligations ∪ list_to_set (concat (DependsOnObligationIDs <$> (map_to_list obligations).*2)).

Definition cycleFuel (obligations : gmap string AgreementObligation) : nat := S (size (mentioned obligations)).

(** [range] over a map visits its keys in some order. *)
Definition agreementHasCycleIn (obligations : gmap string AgreementObligation) (roots : list string) : option bool :=
  visitAll obligations (cycleFuel obligations) ∅ roots.
Definition agreementHasCycle (obligations : gmap string AgreementObligation) : bool :=
  default false (agreementHasCycleIn obligations (map_to_list obligations).*1).

Section Agreement.
Context `{A : AgreementCodec}.

(** ** Evidence profiles *)

Definition ProfileDescriptorDigest (d : ProfileDescriptor) : result string string :=
  fail_if (negb (boundedIdentifier (pd_ProfileURI d) 256) || (pd_ProfileVersion d =? 0) ||
           negb (validateSortedStrings (AllowedSubjectKinds d) 16 64) ||
           negb (validateSortedStrings (EvidenceContentTypes d) 16 128) ||
           negb (boundedIdentifier (PredicateGroupingRule d) 256) || negb (boundedIdentifier (TargetBindingRule d) 256) ||
           negb (boundedIdentifier (VerifierProfileURI d) 256) || negb (boundedIdentifier (ValidityPolicy d) 256))
    "agreement acceptance profile is invalid"%string;;
  canonical ← opt_err (marshal_descriptor d) codecErr;
  Ok ("sha256:" +:+ hex_EncodeToString (framedSHA256 ("tos.agreement-acceptance-profile.v1" +:+ NUL) canonical)).

(** [if err != nil { panic(err) }] *)
Definition must (r : result string string) : result string string :=
  match r with Err e => Panic e | other => other end.

Definition agentDescriptor : ProfileDescriptor :=
  {| pd_ProfileURI := EvidenceProfileAgentSignature; pd_ProfileVersion := 1; AllowedSubjectKinds := ["agent"%string];
     EvidenceContentTypes := [AgreementAcceptanceContentType]; PredicateGroupingRule := "complete-subject-profile-group";
     TargetBindingRule := "agreement-predicate-target-v1"; VerifierProfileURI := "tos.verifier.agent-signature.v1";
     ValidityPolicy := "expires-before-agreement" |}.
Definition AgentSignatureProfileDigest : result string string := must (ProfileDescriptorDigest agentDescriptor).

Definition authorityDescriptor : ProfileDescriptor :=
  {| pd_ProfileURI := EvidenceProfileAuthoritySignature; pd_ProfileVersion := 1;
     AllowedSubjectKinds := ["capability_owner"; "custody_principal"; "data_owner"; "key_owner"; "wallet"]%string;
     EvidenceContentTypes := [AuthorityAcceptanceContentType]; PredicateGroupingRule := "complete-subject-profile-group";
     TargetBindingRule := "agreement-predicate-target-v1"; VerifierProfileURI := "tos.verifier.authority-signature.v1";
     ValidityPolicy := "expires-before-agreement" |}.
Definition AuthoritySignatureProfileDigest : result string string := must (ProfileDescriptorDigest authorityDescriptor).

Definition paidDemandDescriptor : ProfileDescriptor :=
  {| pd_ProfileURI := EvidenceProfilePaidDemandQuote; pd_ProfileVersion := 1; AllowedSubjectKinds := ["agent"; "wallet"]%string;
     EvidenceContentTypes := [PaidDemandBuyerAcceptContentType; PaidDemandProviderOfferContentType];
     PredicateGroupingRule := "complete-subject-profile-group"; TargetBindingRule := "agreement-predicate-target-v1";
     VerifierProfileURI := "tos.verifier.paid-demand-quote.v1"; ValidityPolicy := "finalized-before-agreement-expiry" |}.
Definition PaidDemandQuoteProfileDigest : result string string := must (ProfileDescriptorDigest paidDemandDescriptor).

(** A predicate under a built-in profile names that profile's version and descriptor. *)
Definition builtinProfile (p : AgreementAuthorizationPredicate) (uri : string) (digest : result string string)
    (subjectKind : bool) (error : string) : result string unit :=
  if streq (EvidenceProfileURI p) uri then
    fail_if (negb (EvidenceProfileVersion p =? 1)) error;;
    want ← digest;
    fail_if (negb (streq (EvidenceProfileDigest p) want) || negb subjectKind) error
  else Ok tt.

(** ** The body *)

Definition validParticipants (participants : list AgreementParticipant) : bool :=
  forallb (fun p => boundedIdentifier (pt_AgentID p) 256 && negb (zlen (Roles p) =? 0) && validateSortedStrings (Roles p) 32 128)
    participants && ascending "" (pt_AgentID <$> participants).

Definition participantMap (participants : list AgreementParticipant) : gmap string AgreementParticipant :=
  foldl (fun m p => <[pt_AgentID p := p]> m) ∅ participants.

(** [participants[id].AgentID != ""] *)
Definition isParticipant (participants : gmap string AgreementParticipant) (agent : string) : bool :=
  match participants !! agent with Some p => nonempty (pt_AgentID p) | None => false end.

Definition validatePredicate (requireTargets : bool) (previous : string) (p : AgreementAuthorizationPredicate) : result string string :=
  fail_if (negb (boundedIdentifier (PredicateID p) 128) || negb (bool_decide (bytes_lt previous (PredicateID p))) ||
           negb (validAuthoritySubject (AuthoritySubject p)) || negb (validateSortedStrings (RoleScope p) 32 128) ||
           negb (validateSortedStrings (ObligationIDs p) MaxAgreementObligations 128) || (zlen (ObligationIDs p) =? 0) ||
           negb (boundedIdentifier (EvidenceProfileURI p) 256) || (EvidenceProfileVersion p =? 0) ||
           negb (canonicalDigestPattern (EvidenceProfileDigest p)) || (MaxInt64 <? pr_ValidFromUnix p) ||
           (pr_ExpiresAtUnix p =? 0) || (MaxInt64 <? pr_ExpiresAtUnix p) || (pr_ExpiresAtUnix p <? pr_ValidFromUnix p) ||
           negb (validateSortedStrings (pr_RequiredExtensions p) 64 256) ||
           negb (validateSortedStrings (pr_OptionalExtensions p) 64 256)) "agreement authorization predicate is invalid"%string;;
  fail_if ((requireTargets && negb (canonicalDigestPattern (EvidenceTargetProjectionDigest p))) ||
           (negb requireTargets && negb (streq (EvidenceTargetProjectionDigest p) ""))) "agreement authorization target is invalid"%string;;
  let kind := SubjectKind (AuthoritySubject p) in
  builtinProfile p EvidenceProfileAgentSignature AgentSignatureProfileDigest (streq kind "agent")
    "built-in Agent-signature evidence profile descriptor mismatch";;
  builtinProfile p EvidenceProfileAuthoritySignature AuthoritySignatureProfileDigest (negb (streq kind "agent"))
    "built-in authority-signature evidence profile descriptor mismatch";;
  builtinProfile p EvidenceProfilePaidDemandQuote PaidDemandQuoteProfileDigest (streq kind "agent" || streq kind "wallet")
    "built-in Paid Demand Quote evidence profile descriptor mismatch";;
  Ok (PredicateID p).

Definition predicateMap (predicates : list AgreementAuthorizationPredicate) : gmap string AgreementAuthorizationPredicate :=
  foldl (fun m p => <[PredicateID p := p]> m) ∅ predicates.

Definition validateObligation (participants : gmap string AgreementParticipant) (obligations : gmap string AgreementObligation)
    (o : AgreementObligation) : result string (gmap string AgreementObligation) :=
  fail_if (bool_decide (is_Some (obligations !! ObligationID o)) || negb (boundedIdentifier (ObligationID o) 128) ||
           negb (boundedIdentifier (ob_Kind o) 64) || negb (isParticipant participants (ObligorAgentID o)) ||
           (negb (streq (BeneficiaryAgentID o) "") && negb (isParticipant participants (BeneficiaryAgentID o))) ||
           negb (boundedIdentifier (SubjectContentType o) 128) || (slen (Subject o) =? 0) ||
           (MaxAgreementTermsBytes <? slen (Subject o)) || negb (validateSortedDigests (AttachmentDigests o) 256) ||
           negb (validateSortedStrings (DependsOnObligationIDs o) MaxAgreementObligations 128) ||
           negb (validateSortedStrings (AcceptanceEvidenceRequirements o) 64 256) ||
           negb (validateSortedStrings (AuthorizationPredicateIDs o) MaxAgreementPredicates 128) ||
           (zlen (AuthorizationPredicateIDs o) =? 0) || negb (validateSortedStrings (ob_RequiredExtensions o) 64 256) ||
           negb (validateSortedStrings (ob_OptionalExtensions o) 64 256) ||
           negb (boundedIdentifier (ConfidentialityPolicy o) 256) || negb (boundedIdentifier (CancellationPolicy o) 256) ||
           negb (boundedIdentifier (DisputePolicy o) 256)) "agreement obligation is invalid"%string;;
  fail_if ((negb (ob_NotBeforeUnix o =? 0) && negb (ob_ExpiresAtUnix o =? 0) && (ob_ExpiresAtUnix o <=? ob_NotBeforeUnix o)) ||
           (negb (ob_DueAtUnix o =? 0) && negb (ob_ExpiresAtUnix o =? 0) && (ob_ExpiresAtUnix o <? ob_DueAtUnix o)))
    "agreement obligation time bounds are invalid"%string;;
  match ob_Amount o with
  | Some amount =>
      fail_if (negb (validateAgreementAmount amount) || negb (boundedIdentifier (ob_SettlementAdapterURI o) 256) ||
               (slen (SettlementParameters o) =? 0)) "value-bearing obligation lacks exact amount or settlement adapter"%string
  | None =>
      fail_if (negb (streq (ob_SettlementAdapterURI o) "") || negb (slen (SettlementParameters o) =? 0) ||
               match ob_BillingTerms o with Some _ => true | None => false end)
        "non-value obligation carries settlement terms"%string
  end;;
  match ob_BillingTerms o with
  | Some terms =>
      match ob_Amount o with Some amount => validateBillingTerms terms amount | None => Panic "nil pointer dereference" end
  | None => Ok tt
  end;;
  Ok (<[ObligationID o := o]> obligations).

(** The predicate speaks for the agent. *)
Definition speaksFor (p : AgreementAuthorizationPredicate) (agent : string) : bool :=
  let s := AuthoritySubject p in
  (streq (SubjectKind s) "agent" && streq (SubjectIdentifier s) agent) ||
  (negb (streq (SubjectKind s) "agent") && streq (RepresentedAgentID s) agent).

(** One turn of the loop over an obligation's predicates: whether its obligor is authorized so far. *)
Definition checkPredicateOf (predicates : gmap string AgreementAuthorizationPredicate) (o : AgreementObligation) (authorized : bool)
    (predicateID : string) : result string bool :=
  let unknown := "obligation references an unknown or out-of-scope predicate"%string in
  p ← opt_err (predicates !! predicateID) unknown;
  fail_if (negb (containsSorted (ObligationIDs p) (ObligationID o))) unknown;;
  Ok (speaksFor p (ObligorAgentID o) || authorized).

Definition checkObligation (predicates : gmap string AgreementAuthorizationPredicate) (obligations : gmap string AgreementObligation)
    (_ : unit) (o : AgreementObligation) : result string unit :=
  authorized ← foldM (checkPredicateOf predicates o) false (AuthorizationPredicateIDs o);
  fail_if (negb authorized) "obligation lacks its mandatory obligor predicate"%string;;
  fail_if (negb (forallb (fun d => bool_decide (is_Some (obligations !! d)) && negb (streq d (ObligationID o)))
                   (DependsOnObligationIDs o))) "obligation dependency is invalid"%string.

(** [validateAgreementBody] up to the recomputation of the targets. *)
Definition validateAgreementParts (body : AgentAgreementBody) (requireTargets : bool) : result string unit :=
  fail_if (negb (ab_SchemaVersion body =? 1) || negb (boundedIdentifier (AgreementID body) 256) || (Version body =? 0) ||
           negb (boundedIdentifier (NetworkContext body) 256) || (ab_ValidFromUnix body =? 0) ||
           (MaxInt64 <? ab_ValidFromUnix body) || (MaxInt64 <? ab_ExpiresAtUnix body) ||
           (ab_ExpiresAtUnix body <=? ab_ValidFromUnix body) || negb (boundedIdentifier (TermsContentType body) 128) ||
           (slen (Terms body) =? 0) || (MaxAgreementTermsBytes <? slen (Terms body))) "agreement envelope is invalid"%string;;
  fail_if (((Version body =? 1) && negb (streq (PredecessorAgreementDigest body) "")) ||
           ((1 <? Version body) && negb (canonicalDigestPattern (PredecessorAgreementDigest body))))
    "agreement predecessor is invalid"%string;;
  fail_if ((zlen (Participants body) <? 2) || (MaxAgreementParticipants <? zlen (Participants body)))
    "agreement participant count is invalid"%string;;
  fail_if (negb (validParticipants (Participants body))) "agreement participants must be sorted, unique, and valid"%string;;
  let participants := participantMap (Participants body) in
  sortedDigestsUnder "referenced intents: " (ReferencedIntents body) 128;;
  sortedDigestsUnder "agreement attachments: " (ab_AttachmentDigests body) 256;;
  fail_if (negb (validateSortedStrings (ab_RequiredExtensions body) 64 256) ||
           (64 <? Z.of_nat (size (ab_OptionalExtensions body)))) "agreement extensions are invalid"%string;;
  fail_if (negb (forallb (fun e => boundedIdentifier e.1 256 && (slen e.2 <=? MaxAgreementTermsBytes))
                   (map_to_list (ab_OptionalExtensions body)))) "agreement optional extension is invalid"%string;;
  fail_if ((zlen (AuthorizationPredicates body) =? 0) || (MaxAgreementPredicates <? zlen (AuthorizationPredicates body)))
    "agreement authorization predicate count is invalid"%string;;
  foldM (validatePredicate requireTargets) ""%string (AuthorizationPredicates body);;
  let predicates := predicateMap (AuthorizationPredicates body) in
  fail_if ((zlen (Obligations body) =? 0) || (MaxAgreementObligations <? zlen (Obligations body)))
    "agreement obligation count is invalid"%string;;
  obligations ← foldM (validateObligation participants) ∅ (Obligations body);
  fail_if (negb (forallb (fun p => forallb (fun id => bool_decide (is_Some (obligations !! id))) (ObligationIDs p))
                   (AuthorizationPredicates body))) "authorization predicate references an unknown obligation"%string;;
  foldM (checkObligation predicates obligations) tt (Obligations body);;
  fail_if (agreementHasCycle obligations) "agreement obligation graph contains a cycle"%string.

(** ** Targets *)

Definition agreementCore (body : AgentAgreementBody) : AgreementCore :=
  {| co_SchemaVersion := ab_SchemaVersion body; co_AgreementID := AgreementID body; co_Version := Version body;
     co_PredecessorAgreementDigest := PredecessorAgreementDigest body; co_NetworkContext := NetworkContext body;
     co_Participants := Participants body; co_ReferencedIntents := ReferencedIntents body;
     co_TermsContentType := TermsContentType body; co_Terms := Terms body; co_AttachmentDigests := ab_AttachmentDigests body;
     co_Obligations := Obligations body; co_RequiredExtensions := ab_RequiredExtensions body;
     co_OptionalExtensions := ab_OptionalExtensions body; co_ValidFromUnix := ab_ValidFromUnix body;
     co_ExpiresAtUnix := ab_ExpiresAtUnix body |}.
Definition agreementCoreBytes (body : AgentAgreementBody) : result string string :=
  opt_err (marshal_core (agreementCore body)) codecErr.

Definition project (p : AgreementAuthorizationPredicate) : predicateProjection :=
  {| pp_PredicateID := PredicateID p; pp_AuthoritySubject := AuthoritySubject p; pp_RoleScope := RoleScope p;
     pp_ObligationIDs := ObligationIDs p; pp_EvidenceProfileURI := EvidenceProfileURI p;
     pp_EvidenceProfileVersion := EvidenceProfileVersion p; pp_EvidenceProfileDigest := EvidenceProfileDigest p;
     pp_ValidFromUnix := pr_ValidFromUnix p; pp_ExpiresAtUnix := pr_ExpiresAtUnix p;
     pp_RequiredExtensions := pr_RequiredExtensions p; pp_OptionalExtensions := pr_OptionalExtensions p |}.
Definition agreementPolicyBytes (predicates : list AgreementAuthorizationPredicate) : result string string :=
  opt_err (marshal_policy (project <$> predicates)) codecErr.

Definition targetPreimage (coreDigest policyDigest predicateID : string) : string :=
  ("tos.agreement-authorization-target.v1" +:+ NUL) +:+ coreDigest +:+ policyDigest +:+ PutUint16 (slen predicateID mod two16) +:+ predicateID.
Definition targetDigest (coreDigest policyDigest predicateID : string) : string :=
  "sha256:" +:+ hex_EncodeToString (Sum256 (targetPreimage coreDigest policyDigest predicateID)).

Definition with_target (p : AgreementAuthorizationPredicate) (target : string) : AgreementAuthorizationPredicate :=
  {| PredicateID := PredicateID p; AuthoritySubject := AuthoritySubject p; RoleScope := RoleScope p;
     ObligationIDs := ObligationIDs p; EvidenceProfileURI := EvidenceProfileURI p;
     EvidenceProfileVersion := EvidenceProfileVersion p; EvidenceProfileDigest := EvidenceProfileDigest p;
     EvidenceTargetProjectionDigest := target; pr_ValidFromUnix := pr_ValidFromUnix p; pr_ExpiresAtUnix := pr_ExpiresAtUnix p;
     pr_RequiredExtensions := pr_RequiredExtensions p; pr_OptionalExtensions := pr_OptionalExtensions p |}.

Definition with_predicates (body : AgentAgreementBody) (predicates : list AgreementAuthorizationPredicate) : AgentAgreementBody :=
  {| ab_SchemaVersion := ab_SchemaVersion body; AgreementID := AgreementID body; Version := Version body;
     PredecessorAgreementDigest := PredecessorAgreementDigest body; NetworkContext := NetworkContext body;
     Participants := Participants body; ReferencedIntents := ReferencedIntents body;
     TermsContentType := TermsContentType body; Terms := Terms body; ab_AttachmentDigests := ab_AttachmentDigests body;
     Obligations := Obligations body; AuthorizationPredicates := predicates;
     ab_RequiredExtensions := ab_RequiredExtensions body; ab_OptionalExtensions := ab_OptionalExtensions body;
     ab_ValidFromUnix := ab_ValidFromUnix body; ab_ExpiresAtUnix := ab_ExpiresAtUnix body |}.

(** The first call is [validateAgreementBody(body, false)], which stops before targets. *)
Definition PrepareAgreementTargets (body : AgentAgreementBody) : result string AgentAgreementBody :=
  validateAgreementParts body false;;
  core ← agreementCoreBytes body;
  policy ← agreementPolicyBytes (AuthorizationPredicates body);
  let coreDigest := framedSHA256 ("tos.agreement-core.v1" +:+ NUL) core in
  let policyDigest := framedSHA256 ("tos.agreement-authorization-policy.v1" +:+ NUL) policy in
  Ok (with_predicates body
        ((fun p => with_target p (targetDigest coreDigest policyDigest (PredicateID p))) <$> AuthorizationPredicates body)).

Definition targets (body : AgentAgreementBody) : list string := EvidenceTargetProjectionDigest <$> AuthorizationPredicates body.

Definition validateAgreementBody (body : AgentAgreementBody) (requireTargets : bool) : result string unit :=
  validateAgreementParts body requireTargets;;
  if requireTargets then
    recomputed ← PrepareAgreementTargets
      (with_predicates body ((fun p => with_target p "") <$> AuthorizationPredicates body));
    fail_if (negb (bool_decide (targets body = targets recomputed))) "agreement authorization target digest mismatch"%string
  else Ok tt.

Definition ValidateAgreementBody (body : AgentAgreementBody) : result string unit := validateAgreementBody body true.

Definition AgreementBodyDigest (body : AgentAgreementBody) : result string string :=
  ValidateAgreementBody body;;
  Digest "tos.agent-agreement-body.v1" (marshal_agreement_body body).

(** [fmt.Errorf(label + "%w", err)] *)
Definition labelled {X} (label : string) (r : result string X) : result string X :=
  match r with Err e => Err (label +:+ e)%string | other => other end.

Definition ValidateAgreementSuccessor (predecessor successor : AgentAgreementBody) : result string unit :=
  labelled "agreement predecessor body: " (ValidateAgreementBody predecessor);;
  labelled "agreement successor body: " (ValidateAgreementBody successor);;
  fail_if (negb (streq (AgreementID successor) (AgreementID predecessor))) "agreement successor changes Agreement ID"%string;;
  fail_if ((Version predecessor =? maxUint64) || negb (Version successor =? Version predecessor + 1))
    "agreement successor version is not consecutive"%string;;
  digest ← AgreementBodyDigest predecessor;
  fail_if (negb (streq (PredecessorAgreementDigest successor) digest)) "agreement successor does not bind the exact predecessor"%string;;
  fail_if (negb (streq (NetworkContext successor) (NetworkContext predecessor))) "agreement successor changes network context"%string.

(** ** Authorization evidence *)

Definition IsZero (t : Time) : bool := (t_sec t =? 0) && (t_nsec t =? 0).

Definition predicateLive (now : Time) (p : AgreementAuthorizationPredicate) : bool :=
  negb ((negb (pr_ValidFromUnix p =? 0) && Before now (UnixTime (pr_ValidFromUnix p))) ||
        negb (Before now (UnixTime (pr_ExpiresAtUnix p)))).

(** [groups[key] = append(groups[key], predicate)] *)
Definition addToGroup (groups : gmap string (list AgreementAuthorizationPredicate)) (p : AgreementAuthorizationPredicate) :=
  <[predicate_group p := default [] (groups !! predicate_group p) ++ [p]]> groups.
Definition predicateGroups (predicates : list AgreementAuthorizationPredicate) : gmap string (list AgreementAuthorizationPredicate) :=
  foldl addToGroup ∅ predicates.

Definition DecodeSignedAgreementAcceptance (canonical : string) : result string SignedAgreementAcceptance :=
  opt_err (unmarshal_acceptance canonical) codecErr.
Definition EncodeSignedAgreementAcceptance (acceptance : SignedAgreementAcceptance) : result string string :=
  opt_err (marshal_acceptance acceptance) codecErr.

(** An acceptance under a signature profile ends with the body and with each predicate. *)
Definition checkAcceptanceExpiry (body : AgentAgreementBody) (predicates : list AgreementAuthorizationPredicate)
    (e : AgreementAuthorizationEvidence) : result string unit :=
  if streq (ev_EvidenceProfileURI e) EvidenceProfileAgentSignature || streq (ev_EvidenceProfileURI e) EvidenceProfileAuthoritySignature then
    let exceeds := "agreement acceptance exceeds the body validity window"%string in
    acceptance ← or_err (DecodeSignedAgreementAcceptance (ev_Evidence e)) exceeds;
    let expires := acc_ExpiresAtUnix (acc_Body acceptance) in
    fail_if (ab_ExpiresAtUnix body <? expires) exceeds;;
    fail_if (negb (forallb (fun p => expires <=? pr_ExpiresAtUnix p) predicates))
      "agreement acceptance exceeds its predicate validity window"%string
  else Ok tt.

Definition checkEvidence (body : AgentAgreementBody) (bodyDigest : string)
    (groups : gmap string (list AgreementAuthorizationPredicate)) (verify : AgreementEvidenceVerifier) (now : Time)
    (seen : gset string) (e : AgreementAuthorizationEvidence) : result string (gset string) :=
  fail_if (negb (streq (ev_AgreementID e) (AgreementID body)) || negb (ev_AgreementVersion e =? Version body) ||
           negb (streq (ev_AgreementBodyDigest e) bodyDigest) || negb (validAuthoritySubject (ev_AuthoritySubject e)) ||
           (zlen (ev_PredicateIDs e) =? 0) || negb (zlen (ev_PredicateIDs e) =? zlen (ev_EvidenceTargetProjectionDigests e)) ||
           negb (validateSortedStrings (ev_PredicateIDs e) MaxAgreementPredicates 128) ||
           negb (boundedIdentifier (ev_EvidenceProfileURI e) 256) || (ev_EvidenceProfileVersion e =? 0) ||
           negb (canonicalDigestPattern (ev_EvidenceProfileDigest e)) || negb (boundedIdentifier (EvidenceContentType e) 128) ||
           (slen (ev_Evidence e) =? 0) || (MaxAgreementEvidenceBytes <? slen (ev_Evidence e)))
    "agreement authorization evidence is invalid"%string;;
  let key := evidence_group e in
  fail_if (bool_decide (key ∈ seen)) "duplicate or partial agreement evidence group"%string;;
  let predicates := default [] (groups !! key) in
  fail_if (negb (zlen predicates =? zlen (ev_PredicateIDs e))) "agreement evidence does not cover its complete predicate group"%string;;
  fail_if (negb (bool_decide ((PredicateID <$> predicates) = ev_PredicateIDs e)) ||
           negb (bool_decide ((EvidenceTargetProjectionDigest <$> predicates) = ev_EvidenceTargetProjectionDigests e)))
    "agreement evidence predicate or target mismatch"%string;;
  checkAcceptanceExpiry body predicates e;;
  verify e now;;
  Ok ({[key]} ∪ seen).

Definition validateAgreementEvidenceSet (agreement : AgentAgreement) (verifier : option AgreementEvidenceVerifier) (now : Time)
    (requireComplete : bool) : result string unit :=
  let body := ag_Body agreement in
  ValidateAgreementBody body;;
  let required := "agreement evidence verifier is required"%string in
  verify ← opt_err verifier required;
  fail_if (IsZero now) required;;
  fail_if (Before now (UnixTime (ab_ValidFromUnix body)) || negb (Before now (UnixTime (ab_ExpiresAtUnix body))))
    "agreement body is outside its authorization validity window"%string;;
  bodyDigest ← AgreementBodyDigest body;
  fail_if (negb (forallb (predicateLive now) (AuthorizationPredicates body)))
    "agreement authorization predicate is outside its validity window"%string;;
  let groups := predicateGroups (AuthorizationPredicates body) in
  seen ← foldM (checkEvidence body bodyDigest groups verify now) ∅ (AuthorizationEvidence agreement);
  fail_if (requireComplete && negb (forallb (fun key => bool_decide (key ∈ seen)) (map_to_list groups).*1))
    "agreement authorization predicate is unsatisfied"%string.

Definition ValidateAgreementAuthorization (agreement : AgentAgreement) (verifier : option AgreementEvidenceVerifier) (now : Time)
  : result string unit := validateAgreementEvidenceSet agreement verifier now true.
Definition ValidatePartialAgreementAuthorization (agreement : AgentAgreement) (verifier : option AgreementEvidenceVerifier) (now : Time)
  : result string unit := validateAgreementEvidenceSet agreement verifier now false.

(** ** Signed acceptances *)

Context `{C : CommerceCodec}.

Definition acceptanceDomain : string := "tos.agreement-acceptance-signature.v1" +:+ NUL.

(** [Sign] signs with the private key of [public]. *)
Definition SignAgreementAcceptance (Sign : string -> string) (public : string) (body : AgreementAcceptanceBody)
  : result string SignedAgreementAcceptance :=
  fail_if (negb (validAuthoritySubject (AcceptingSubject body)) || negb (canonicalDigestPattern (acc_AgreementBodyDigest body)) ||
           (acc_AgreementVersion body =? 0) || (acc_ExpiresAtUnix body =? 0) || (zlen (acc_PredicateIDs body) =? 0) ||
           negb (zlen (acc_PredicateIDs body) =? zlen (acc_EvidenceTargetProjectionDigests body)) ||
           negb (validateSortedStrings (acc_PredicateIDs body) MaxAgreementPredicates 128) ||
           negb (validateSortedStrings (AcceptedRoles body) 32 128)) "agreement acceptance is invalid"%string;;
  fail_if (negb (forallb canonicalDigestPattern (acc_EvidenceTargetProjectionDigests body))) "agreement acceptance target is invalid"%string;;
  canonical ← opt_err (marshal_acceptance_body body) codecErr;
  Ok {| acc_Body := body; acc_PublicKey := key_text public;
        acc_Signature := signature_text (Sign (framedSHA256 acceptanceDomain canonical)) |}.

(** The predicates the subject accepts under the Agent-signature profile. *)
Definition acceptedPredicates (body : AgentAgreementBody) (subject : AgreementAuthoritySubject) : list AgreementAuthorizationPredicate :=
  filter (fun p => AuthoritySubject p = subject /\ EvidenceProfileURI p = EvidenceProfileAgentSignature) (AuthorizationPredicates body).

(** The loop over the group; the acceptance's lists are indexed, and the code does not
    compare the length of the list of targets. *)
Fixpoint matchGroup (version : Z) (digest : string) (predicates : list AgreementAuthorizationPredicate) (ids targets : list string)
  : result string unit :=
  match predicates with
  | [] => Ok tt
  | p :: predicates =>
      let inconsistent := "typed acceptance predicate group is inconsistent"%string in
      fail_if (negb (EvidenceProfileVersion p =? version) || negb (streq (EvidenceProfileDigest p) digest)) inconsistent;;
      match ids with
      | [] => Panic "index out of range"
      | id :: ids =>
          fail_if (negb (streq (PredicateID p) id)) inconsistent;;
          match targets with
          | [] => Panic "index out of range"
          | target :: targets =>
              fail_if (negb (streq (EvidenceTargetProjectionDigest p) target)) inconsistent;;
              matchGroup version digest predicates ids targets
          end
      end
  end.

Definition AgentSignatureEvidence (body : AgentAgreementBody) (acceptance : SignedAgreementAcceptance)
  : result string AgreementAuthorizationEvidence :=
  ValidateAgreementBody body;;
  let accepted := acc_Body acceptance in
  let target := "typed acceptance does not target this Agreement"%string in
  digest ← or_err (AgreementBodyDigest body) target;
  fail_if (negb (streq (acc_AgreementID accepted) (AgreementID body)) || negb (acc_AgreementVersion accepted =? Version body) ||
           negb (streq (acc_AgreementBodyDigest accepted) digest)) target;;
  let incomplete := "typed acceptance does not cover one complete Agent-signature predicate group"%string in
  match acceptedPredicates body (AcceptingSubject accepted) with
  | [] => Err incomplete
  | first :: rest =>
      fail_if (negb (zlen (first :: rest) =? zlen (acc_PredicateIDs accepted))) incomplete;;
      matchGroup (EvidenceProfileVersion first) (EvidenceProfileDigest first) (first :: rest) (acc_PredicateIDs accepted)
        (acc_EvidenceTargetProjectionDigests accepted);;
      canonical ← EncodeSignedAgreementAcceptance acceptance;
      Ok {| ev_AgreementID := AgreementID body; ev_AgreementVersion := Version body; ev_AgreementBodyDigest := digest;
            ev_AuthoritySubject := AcceptingSubject accepted; ev_PredicateIDs := acc_PredicateIDs accepted;
            ev_EvidenceProfileURI := EvidenceProfileAgentSignature; ev_EvidenceProfileVersion := EvidenceProfileVersion first;
            ev_EvidenceProfileDigest := EvidenceProfileDigest first;
            ev_EvidenceTargetProjectionDigests := acc_EvidenceTargetProjectionDigests accepted;
            EvidenceContentType := AgreementAcceptanceContentType; ev_Evidence := canonical |}
  end.

Definition VerifySignedAgreementAcceptance (acceptance : SignedAgreementAcceptance) (expected : AgreementAuthorizationEvidence)
    (resolver : option IntentAuthorityResolver) (now : Time) : result string unit :=
  let accepted := acc_Body acceptance in
  fail_if (negb (streq (acc_AgreementID accepted) (ev_AgreementID expected)) ||
           negb (acc_AgreementVersion accepted =? ev_AgreementVersion expected) ||
           negb (streq (acc_AgreementBodyDigest accepted) (ev_AgreementBodyDigest expected)) ||
           negb (bool_decide (AcceptingSubject accepted = ev_AuthoritySubject expected)) ||
           negb (bool_decide (acc_PredicateIDs accepted = ev_PredicateIDs expected)) ||
           negb (bool_decide (acc_EvidenceTargetProjectionDigests accepted = ev_EvidenceTargetProjectionDigests expected)) ||
           negb (Before now (UnixTime (acc_ExpiresAtUnix accepted)))) "agreement acceptance does not match evidence"%string;;
  let required := "agent acceptance requires an Agent authority resolver"%string in
  fail_if (negb (streq (SubjectKind (AcceptingSubject accepted)) "agent")) required;;
  authorize ← opt_err resolver required;
  publicKey ← parseEd25519PublicKey (acc_PublicKey acceptance);
  authorize (SubjectIdentifier (AcceptingSubject accepted)) publicKey now;;
  signature ← parseEd25519Signature (acc_Signature acceptance);
  canonical ← opt_err (marshal_acceptance_body accepted) codecErr;
  fail_if (negb (ed25519_Verify publicKey (framedSHA256 acceptanceDomain canonical) signature))
    "agreement acceptance signature is invalid"%string.

(** [AgentSignatureEvidenceVerifier.VerifyAgreementEvidence] *)
Definition VerifyAgreementEvidence (resolver : option IntentAuthorityResolver) (evidence : AgreementAuthorizationEvidence) (now : Time)
  : result string unit :=
  let unsupported := "unsupported Agreement evidence profile"%string in
  fail_if (negb (streq (ev_EvidenceProfileURI evidence) EvidenceProfileAgentSignature) ||
           negb (ev_EvidenceProfileVersion evidence =? 1)) unsupported;;
  profile ← AgentSignatureProfileDigest;
  fail_if (negb (streq (ev_EvidenceProfileDigest evidence) profile) ||
           negb (streq (EvidenceContentType evidence) AgreementAcceptanceContentType)) unsupported;;
  opt_err resolver unsupported;;
  acceptance ← DecodeSignedAgreementAcceptance (ev_Evidence evidence);
  VerifySignedAgreementAcceptance acceptance evidence resolver now.
End Agreement.

(** ** The search finds exactly the cycles *)

Section Cycles.
Variable obligations : gmap string AgreementObligation.

(** One obligation waits for another. *)
Definition depends (a b : string) : Prop := b ∈ dependencies obligations a.

(** No infinite chain of dependencies starts here. *)
Definition grounded (a : string) : Prop := Acc (flip depends) a.

(** Marks during a search: what is visited is grounded, what is being visited leads to [target]. *)
Record marks_ok (state : gmap string mark) (target : string) : Prop := {
  visited_grounded a : state !! a = Some visited -> grounded a;
  visiting_leads a : state !! a = Some visiting -> tc depends a target }.

(** The search leaves the identifiers it is inside of as they were. *)
Definition same_visiting (s t : gmap string mark) : Prop :=
  forall a, t !! a = Some visiting <-> s !! a = Some visiting.

Definition visit_ok (state : gmap string mark) (identifier : string) (r : option (bool * gmap string mark)) : Prop :=
  match r with
  | Some (true, _) => exists a, tc depends a a
  | Some (false, state') =>
      grounded identifier /\ same_visiting state state' /\
      (forall a, state' !! a = Some visited -> grounded a) /\ dom state ⊆ dom state'
  | None => True
  end.

(** The body of [visit] on an identifier not marked before. *)
Definition visitDependencies (fuel : nat) (identifier : string) : gmap string mark -> list string -> option (bool * gmap string mark) :=
  fix loop state dependencies :=
    match dependencies with
    | [] => Some (false, <[identifier := visited]> state)
    | dependency :: rest =>
        match visit obligations fuel state dependency with
        | Some (true, state) => Some (true, state)
        | Some (false, state) => loop state rest
        | None => None
        end
    end.

Lemma visit_unmarked fuel state identifier : state !! identifier = None ->
  visit obligations (S fuel) state identifier =
  visitDependencies fuel identifier (<[identifier := visiting]> state) (dependencies obligations identifier).
Proof. intros H. cbn [visit]. by rewrite H. Qed.

Lemma marks_step state identifier dependency : marks_ok state identifier -> state !! identifier = None ->
  depends identifier dependency -> marks_ok (<[identifier := visiting]> state) dependency.
Proof.
  intros [Hv Hg] Hnone Hd. split; intros a.
  - rewrite lookup_insert_Some. intros [[? [=]]|[? Ha]]. by apply Hv.
  - rewrite lookup_insert_Some. intros [[<- _]|[? Ha]]; [by apply tc_once|].
    eapply tc_r; [by apply Hg|done].
Qed.

Lemma marks_again state state' identifier : same_visiting state state' ->
  (forall a, state' !! a = Some visited -> grounded a) -> marks_ok state identifier -> marks_ok state' identifier.
Proof. intros Hs Hg [_ Hv]. split; [done|]. intros a Ha. by apply Hv, Hs. Qed.

(** The loop, from a state whose marks are right for every dependency left. *)
Lemma loop_ok fuel identifier : (forall state dependency, marks_ok state dependency ->
    visit_ok state dependency (visit obligations fuel state dependency)) ->
  forall rest state, state !! identifier = Some visiting ->
    (forall d, d ∈ rest -> marks_ok state d) -> (forall a, state !! a = Some visited -> grounded a) ->
    (forall d, depends identifier d -> d ∈ rest \/ grounded d) ->
    match visitDependencies fuel identifier state rest with
    | Some (true, _) => exists a, tc depends a a
    | Some (false, state') =>
        grounded identifier /\ (forall a, state' !! a = Some visiting <-> a <> identifier /\ state !! a = Some visiting) /\
        (forall a, state' !! a = Some visited -> grounded a) /\ dom state ⊆ dom state'
    | None => True
    end.
Proof.
  intros IH rest. induction rest as [|d rest IHrest]; intros state Hid Hmarks Hg Hdeps; cbn [visitDependencies].
  - assert (grounded identifier) as Hacc. { constructor. intros d Hd. destruct (Hdeps d Hd) as [[]%elem_of_nil|]; done. }
    split; [done|]. split; [|split].
    + intros a. rewrite lookup_insert_Some. split; [by intros [[? [=]]|[? ?]]|intros [? ?]; right; done].
    + intros a. rewrite lookup_insert_Some. intros [[<- _]|[_ Ha]]; [done|by apply Hg].
    + rewrite dom_insert. set_solver.
  - specialize (IH state d (Hmarks d ltac:(by left))). destruct (visit obligations fuel state d) as [[[] state']|]; [done| |done].
    destruct IH as (Hd & Hsame & Hg' & Hdom). fold (visitDependencies fuel identifier).
    specialize (IHrest state'). destruct (visitDependencies fuel identifier state' rest) as [[[] final]|]; [apply IHrest|..|done].
    + by apply Hsame.
    + intros x Hx. apply (marks_again state); [done|done|apply Hmarks; by right].
    + done.
    + intros x Hx. destruct (Hdeps x Hx) as [[->|?]%elem_of_cons|]; auto.
    + destruct IHrest as (Ha & Hs & Hv & Hdm).
      * by apply Hsame.
      * intros x Hx. apply (marks_again state); [done|done|apply Hmarks; by right].
      * done.
      * intros x Hx. destruct (Hdeps x Hx) as [[->|?]%elem_of_cons|]; auto.
      * split; [done|]. split; [|split; [done|set_solver]]. intros a. rewrite Hs. split; intros [? ?]; split; try done; by apply Hsame.
Qed.

Lemma visit_correct fuel : forall state identifier, marks_ok state identifier ->
  visit_ok state identifier (visit obligations fuel state identifier).
Proof.
  induction fuel as [|fuel IH]; intros state identifier Hm; [done|]. destruct (state !! identifier) as [[]|] eqn:E.
  - cbn [visit]. rewrite E. exists identifier. by apply (visiting_leads _ _ Hm).
  - cbn [visit]. rewrite E. split; [by apply (visited_grounded _ _ Hm)|]. split; [done|]. split; [apply (visited_grounded _ _ Hm)|done].
  - rewrite (visit_unmarked _ _ _ E).
    pose proof (loop_ok fuel identifier IH (dependencies obligations identifier) (<[identifier := visiting]> state)) as H.
    destruct (visitDependencies _ _ _ _) as [[[] state']|]; [..|done].
    + apply H; [by rewrite lookup_insert_eq|by intros; apply marks_step| |by left].
      intros a. rewrite lookup_insert_Some. intros [[? [=]]|[_ Ha]]. by apply (visited_grounded _ _ Hm).
    + destruct H as (Ha & Hs & Hv & Hd).
      * by rewrite lookup_insert_eq.
      * by intros; apply marks_step.
      * intros a. rewrite lookup_insert_Some. intros [[? [=]]|[_ Ha]]. by apply (visited_grounded _ _ Hm).
      * by left.
      * split; [done|]. split; [|split; [done|]].
        -- intros a. rewrite Hs, lookup_insert_Some. split; [naive_solver|]. intros Hx. split; [congruence|]. right. split; [congruence|done].
        -- rewrite dom_insert in Hd. set_solver.
Qed.

(** Every identifier a visit meets is mentioned, so the fuel is enough. *)
Lemma depends_mentioned a b : depends a b -> b ∈ mentioned obligations.
Proof.
  unfold depends, dependencies, mentioned. destruct (obligations !! a) as [o|] eqn:E; [|by intros []%elem_of_nil]. intros Hb.
  apply elem_of_union_r, elem_of_list_to_set, list_elem_of_In, in_concat. exists (DependsOnObligationIDs o). split; [|by apply list_elem_of_In].
  apply list_elem_of_In, list_elem_of_fmap. exists o. split; [done|]. apply list_elem_of_fmap. exists (a, o). split; [done|]. by apply elem_of_map_to_list.
Qed.

Lemma visit_grows fuel : forall state identifier found state',
  visit obligations fuel state identifier = Some (found, state') -> dom state ⊆ dom state'.
Proof.
  induction fuel as [|fuel IH]; intros state identifier found state'; [done|]. destruct (state !! identifier) as [[]|] eqn:E.
  1,2: cbn [visit]; rewrite E; by intros [= <- <-].
  rewrite (visit_unmarked _ _ _ E). enough (forall rest s, dom state ⊆ dom s ->
    visitDependencies fuel identifier s rest = Some (found, state') -> dom state ⊆ dom state') as H.
  { apply H. rewrite dom_insert. set_solver. }
  intros rest. induction rest as [|d rest IHrest]; intros s Hs; cbn [visitDependencies].
  - intros [= <- <-]. rewrite dom_insert. set_solver.
  - destruct (visit obligations fuel s d) as [[[] s']|] eqn:Ev; [| |done]; apply IH in Ev.
    + intros [= <- <-]. set_solver.
    + apply IHrest. set_solver.
Qed.

Definition unmarked (state : gmap string mark) : nat := size (mentioned obligations ∖ dom state).

Lemma visit_enough fuel : forall state identifier, identifier ∈ mentioned obligations -> (unmarked state < fuel)%nat ->
  is_Some (visit obligations fuel state identifier).
Proof.
  unfold unmarked. induction fuel as [|fuel IH]; intros state identifier Hid Hf; [lia|].
  destruct (state !! identifier) as [[]|] eqn:E. 1,2: cbn [visit]; rewrite E; by eexists.
  rewrite (visit_unmarked _ _ _ E).
  assert (size (mentioned obligations ∖ dom (<[identifier := visiting]> state)) < fuel)%nat as Hlt.
  { apply not_elem_of_dom in E. assert (identifier ∈ mentioned obligations ∖ dom state) as Hin by set_solver.
    enough (size (mentioned obligations ∖ dom (<[identifier := visiting]> state)) < size (mentioned obligations ∖ dom state))%nat by lia.
    apply subset_size. rewrite dom_insert. set_solver. }
  assert (forall d, d ∈ dependencies obligations identifier -> d ∈ mentioned obligations) as Hd by apply depends_mentioned.
  revert Hlt Hd. generalize (<[identifier := visiting]> state). induction (dependencies obligations identifier) as [|d rest IHrest];
    intros s Hlt Hd; cbn [visitDependencies]; [by eexists|].
  destruct (IH s d (Hd d ltac:(by left)) Hlt) as [[found s'] Hv]. rewrite Hv. destruct found; [by eexists|].
  apply IHrest; [|intros; apply Hd; by right]. apply visit_grows in Hv.
  eapply Nat.le_lt_trans; [|exact Hlt]. apply subseteq_size. set_solver.
Qed.

Lemma visitAll_correct fuel roots : forall state, (forall a, state !! a = Some visited -> grounded a) ->
  (forall a, state !! a <> Some visiting) -> (forall r, r ∈ roots -> r ∈ mentioned obligations) ->
  (size (mentioned obligations) < fuel)%nat ->
  match visitAll obligations fuel state roots with
  | Some true => exists a, tc depends a a
  | Some false => forall r, r ∈ roots -> grounded r
  | None => False
  end.
Proof.
  induction roots as [|r roots IH]; intros state Hg Hv Hin Hf; cbn [visitAll]; [by intros ? []%elem_of_nil|].
  destruct (visit_enough fuel state r (Hin r ltac:(by left))) as [[found state'] Hr].
  { unfold unmarked. eapply Nat.le_lt_trans; [|exact Hf]. apply subseteq_size. set_solver. }
  pose proof (visit_correct fuel state r) as Hc. rewrite Hr in *. specialize (Hc ltac:(split; [done|by intros a Ha; destruct (Hv a)])) as H.
  destruct found; [done|]. destruct H as (Hgr & Hs & Hg' & _).
  specialize (IH state' Hg'). destruct (visitAll obligations fuel state' roots) as [[]|].
  - apply IH; [|by intros; apply Hin; right|done]. intros a Ha%Hs. by destruct (Hv a).
  - intros x [->|Hx]%elem_of_cons; [done|]. apply IH; [|by intros; apply Hin; right|done|done]. intros a Ha%Hs. by destruct (Hv a).
  - apply IH; [|by intros; apply Hin; right|done]. intros a Ha%Hs. by destruct (Hv a).
Qed.

Lemma grounded_no_cycle a : grounded a -> ~ tc depends a a.
Proof.
  intros Hacc. induction Hacc as [x _ IH]. intros Hc.
  assert (exists c, depends x c /\ rtc depends c x) as (c & Hxc & Hcx).
  { inversion Hc as [? y H|? y z H Ht]; subst; [by exists x|]. exists y. split; [done|by apply tc_rtc]. }
  apply (IH c Hxc). eapply tc_rtc_l; [exact Hcx|by apply tc_once].
Qed.

Lemma mentioned_root a b : depends a b -> a ∈ (map_to_list obligations).*1.
Proof.
  unfold depends, dependencies. destruct (obligations !! a) as [o|] eqn:E; [|by intros []%elem_of_nil]. intros _.
  apply list_elem_of_fmap. exists (a, o). split; [done|]. by apply elem_of_map_to_list.
Qed.

Lemma tc_first a b : tc depends a b -> exists c, depends a c.
Proof. intros H. destruct H; eauto. Qed.
End Cycles.

(** In whatever order the obligations are visited, the search ends, and it answers
    whether some obligation waits, through others, for itself. *)
Lemma cycle_search_any_order obligations roots : roots ≡ₚ (map_to_list obligations).*1 ->
  exists found, agreementHasCycleIn obligations roots = Some found /\
    (found = true <-> exists a, tc (depends obligations) a a).
Proof.
  intros Hp. unfold agreementHasCycleIn.
  assert (forall r, r ∈ roots -> r ∈ mentioned obligations) as Hin.
  { intros r Hr. rewrite Hp in Hr. apply list_elem_of_fmap in Hr as ([k o] & -> & Hko%elem_of_map_to_list). cbn.
    apply elem_of_union_l, elem_of_dom. by eexists. }
  pose proof (visitAll_correct obligations (cycleFuel obligations) roots ∅) as H.
  destruct (visitAll _ _ _ _) as [found|];
    (specialize (H ltac:(by intros ? ?%lookup_empty_Some) ltac:(by intros ? ?%lookup_empty_Some) Hin ltac:(unfold cycleFuel; lia)));
    [|done].
  exists found. split; [done|]. destruct found; [done|]. split; [done|]. intros [a Ha]. destruct (tc_first _ _ _ Ha) as [b Hb].
  destruct (grounded_no_cycle obligations a); [|done]. apply H. rewrite Hp. by eapply mentioned_root.
Qed.

(** C20: the search for a cycle among an agreement's obligations is correct and ends:
    whatever the order in which Go's map iteration visits the obligations, the search
    returns, and it reports a cycle exactly when some obligation waits, directly or
    through others, for itself. *)
Theorem cycle_search_exact (obligations : gmap string AgreementObligation) (roots : list string) :
  roots ≡ₚ (map_to_list obligations).*1 ->
  agreementHasCycleIn obligations roots = Some (agreementHasCycle obligations) /\
  (agreementHasCycle obligations = true <-> exists a, tc (depends obligations) a a).
Proof.
  intros Hp. destruct (cycle_search_any_order obligations roots Hp) as (f & Hf & Hiff).
  destruct (cycle_search_any_order obligations _ (Permutation_refl _)) as (g & Hg & Hiff').
  unfold agreementHasCycle. rewrite Hf, Hg. cbn [default]. split; [|done]. f_equal. destruct f, g; naive_solver.
Qed.

(** ** Keys of evidence groups *)

Definition no_nul : string -> bool := all_bytes (fun c => negb (byte_val c =? 0)).

Lemma nul_split a b c d : no_nul a = true -> no_nul c = true -> a +:+ NUL +:+ b = c +:+ NUL +:+ d -> a = c /\ b = d.
Proof.
  revert c. induction a as [|x a IH]; intros [|y c] Ha Hc H; rewrite ?app_cons_str in H; cbn [no_nul all_bytes] in Ha, Hc.
  - change (NUL +:+ b = NUL +:+ d) in H. by apply app_inj_len in H as [_ ->].
  - change (String zero b = String y (c +:+ NUL +:+ d)) in H. injection H as Hy _. apply andb_true_iff in Hc as [Hc _]. by rewrite <-Hy in Hc.
  - change (String x (a +:+ NUL +:+ b) = String zero d) in H. injection H as Hx _. apply andb_true_iff in Ha as [Ha _]. by rewrite Hx in Ha.
  - injection H as -> H. apply andb_true_iff in Ha as [_ Ha]. apply andb_true_iff in Hc as [_ Hc].
    destruct (IH c Ha Hc H) as [-> ->]. done.
Qed.

Lemma bounded_no_nul value maximum : boundedIdentifier value maximum = true -> no_nul value = true.
Proof.
  unfold boundedIdentifier. intros [_ H]%andb_true_iff. eapply all_bytes_impl; [|exact H]. intros c. cbn.
  rewrite !negb_true_iff, !orb_false_iff. naive_solver.
Qed.

Lemma subject_no_nul s : validAuthoritySubject s = true ->
  no_nul (SubjectKind s) = true /\ no_nul (SubjectNamespace s) = true /\ no_nul (SubjectIdentifier s) = true /\
  no_nul (RepresentedAgentID s) = true.
Proof.
  unfold validAuthoritySubject. rewrite !andb_true_iff. intros [[[Hk Hn] Hi] Hr]. repeat split.
  - apply one_of_true in Hk. rewrite !elem_of_cons, elem_of_nil in Hk.
    repeat match goal with H : _ \/ _ |- _ => destruct H as [->|H]; [reflexivity|] end. done.
  - by eapply bounded_no_nul.
  - by eapply bounded_no_nul.
  - case_match; [apply streq_true in Hr as ->; reflexivity|by eapply bounded_no_nul].
Qed.

Lemma FormatN_no_nul n : no_nul (FormatN n) = true.
Proof.
  eapply all_bytes_impl; [|apply FormatN_digits]. intros c. unfold is_digit. rewrite negb_true_iff. lia.
Qed.

Lemma FormatZ_no_nul z : no_nul (FormatZ z) = true.
Proof. destruct z; cbn [FormatZ]; [done|apply FormatN_no_nul|]. rewrite app_cons_str. cbn [no_nul all_bytes]. apply FormatN_no_nul. Qed.

Lemma FormatZ_value z : SetString10 (FormatZ z) = Some z.
Proof.
  destruct z as [|p|p]; cbn [FormatZ]; [done|by rewrite SetString10_FormatN|].
  change (SetString10 ("-" +:+ FormatN (N.pos p))) with ((fun n => - Z.of_N n) <$> digits_value (FormatN (N.pos p))).
  by rewrite digits_value_FormatN.
Qed.

Lemma FormatZ_inj a b : FormatZ a = FormatZ b -> a = b.
Proof. intros H. apply (f_equal SetString10) in H. rewrite !FormatZ_value in H. by injection H. Qed.

(** Two valid subjects under two valid profiles share a key only when they are the same. *)
Lemma group_key_inj s1 s2 uri1 uri2 v1 v2 d1 d2 n1 n2 : validAuthoritySubject s1 = true -> validAuthoritySubject s2 = true ->
  boundedIdentifier uri1 n1 = true -> boundedIdentifier uri2 n2 = true ->
  group_key s1 uri1 v1 d1 = group_key s2 uri2 v2 d2 -> s1 = s2 /\ uri1 = uri2 /\ v1 = v2 /\ d1 = d2.
Proof.
  intros (K1 & N1 & I1 & R1)%subject_no_nul (K2 & N2 & I2 & R2)%subject_no_nul U1%bounded_no_nul U2%bounded_no_nul.
  unfold group_key, subject_key. rewrite !app_assoc_str. intros H.
  apply nul_split in H as [Hk H]; [|done..]. apply nul_split in H as [Hn H]; [|done..]. apply nul_split in H as [Hi H]; [|done..].
  apply nul_split in H as [Hr H]; [|done..]. apply nul_split in H as [-> H]; [|done..].
  apply nul_split in H as [Hv ->]; [|apply FormatZ_no_nul..]. apply FormatZ_inj in Hv.
  destruct s1, s2; cbn in *; subst. done.
Qed.

(** ** What validation establishes *)

Lemma foldM_each {E X Y} (P : X -> Prop) (f : Y -> X -> result E Y) y l y' :
  (forall y x z, f y x = Ok z -> P x) -> foldM f y l = Ok y' -> Forall P l.
Proof.
  intros Hf. revert y. induction l as [|x l IH]; intros y H; [constructor|]. cbn in H. apply bind_Ok in H as (z & Hz & H).
  constructor; [by eapply Hf|by eapply IH].
Qed.

Section Valid.
Context `{A : AgreementCodec}.

(** A predicate after its checks. *)
Record predicate_ok (p : AgreementAuthorizationPredicate) : Prop := {
  predicate_subject : validAuthoritySubject (AuthoritySubject p) = true;
  predicate_scope : sorted (ObligationIDs p);
  predicate_uri : boundedIdentifier (EvidenceProfileURI p) 256 = true;
  predicate_id : boundedIdentifier (PredicateID p) 128 = true;
  predicate_expiry : pr_ExpiresAtUnix p <= MaxInt64 }.

Lemma predicate_checked targets previous p id : validatePredicate targets previous p = Ok id -> predicate_ok p.
Proof.
  unfold validatePredicate. intros H. apply bind_Ok in H as (? & H & _). apply fail_if_Ok in H.
  rewrite !orb_false_iff, !negb_false_iff in H. destruct_and?. split; try done.
  - match goal with H : validateSortedStrings (ObligationIDs p) _ _ = true |- _ => unfold validateSortedStrings in H; rewrite !andb_true_iff in H end.
    destruct_and?. by apply ascending_list_sorted.
  - match goal with H : (MaxInt64 <? pr_ExpiresAtUnix p) = false |- _ => by apply Z.ltb_ge in H end.
Qed.

Lemma predicates_ascend targets previous predicates id : foldM (validatePredicate targets) previous predicates = Ok id ->
  ascending previous (PredicateID <$> predicates) = true.
Proof.
  revert previous. induction predicates as [|p predicates IH]; intros previous H; [done|]. cbn in H |- *.
  apply bind_Ok in H as (id' & Hp & H). apply andb_true_iff. unfold validatePredicate in Hp.
  apply bind_Ok in Hp as (? & Hc & Hp). do 4 (apply bind_Ok in Hp as (? & _ & Hp)). injection Hp as <-. split; [|by apply IH].
  apply fail_if_Ok in Hc. rewrite !orb_false_iff, !negb_false_iff in Hc. by destruct_and?.
Qed.

Lemma predicateMap_from predicates (m : gmap string AgreementAuthorizationPredicate) id p : foldl (fun m p => <[PredicateID p := p]> m) m predicates !! id = Some p ->
  m !! id = Some p \/ p ∈ predicates /\ PredicateID p = id.
Proof.
  revert m. induction predicates as [|q predicates IH]; intros m H; [by left|]. cbn in H.
  apply IH in H as [H|[? ?]]; [|right; split; [by right|done]].
  apply lookup_insert_Some in H as [[<- <-]|[_ ?]]; [right; split; [by left|done]|by left].
Qed.

Lemma predicateMap_in predicates id p : predicateMap predicates !! id = Some p -> p ∈ predicates /\ PredicateID p = id.
Proof. intros [[]%lookup_empty_Some|H]%predicateMap_from. done. Qed.

(** An obligation after its own checks. *)
Record obligation_ok (participants : gmap string AgreementParticipant) (o : AgreementObligation) : Prop := {
  obligation_id : boundedIdentifier (ObligationID o) 128 = true;
  obligation_obligor : isParticipant participants (ObligorAgentID o) = true;
  obligation_beneficiary : BeneficiaryAgentID o = ""%string \/ isParticipant participants (BeneficiaryAgentID o) = true;
  obligation_value amount : ob_Amount o = Some amount -> validateAgreementAmount amount = true }.

Lemma obligation_checked participants obligations o m : validateObligation participants obligations o = Ok m ->
  obligation_ok participants o /\ obligations !! ObligationID o = None /\ m = <[ObligationID o := o]> obligations.
Proof.
  unfold validateObligation. intros H. apply bind_Ok in H as (? & Hc & H). apply bind_Ok in H as (? & _ & H).
  apply bind_Ok in H as (? & Ha & H). apply bind_Ok in H as (? & _ & H). injection H as <-.
  apply fail_if_Ok in Hc. rewrite !orb_false_iff, !negb_false_iff in Hc. destruct_and?.
  match goal with H : bool_decide _ = false |- _ => apply bool_decide_eq_false, eq_None_not_Some in H end.
  split; [|done]. split; try done.
  - match goal with H : _ && _ = false |- _ => apply andb_false_iff in H as [Hb%negb_false_iff|Hb%negb_false_iff] end;
      [left; by apply streq_true|by right].
  - intros amount Ham. rewrite Ham in Ha. apply fail_if_Ok in Ha. rewrite !orb_false_iff, !negb_false_iff in Ha. by destruct_and?.
Qed.

Lemma obligations_fold participants m0 l m : foldM (validateObligation participants) m0 l = Ok m ->
  Forall (obligation_ok participants) l /\ NoDup (ObligationID <$> l) /\ (forall o, o ∈ l -> m0 !! ObligationID o = None) /\
  (forall id o, m !! id = Some o <-> m0 !! id = Some o \/ o ∈ l /\ ObligationID o = id).
Proof.
  revert m0. induction l as [|o l IH]; intros m0 H; cbn in H.
  { injection H as <-. split; [done|]. split; [constructor|]. split; [by intros ? []%elem_of_nil|].
    intros id o. split; [by left|]. intros [?|[[]%elem_of_nil _]]; done. }
  apply bind_Ok in H as (m1 & Ho & H). apply obligation_checked in Ho as (Hok & Hnone & ->).
  destruct (IH _ H) as (Hall & Hnd & Hnew & Hm). split; [by constructor|]. split; [|split].
  - constructor; [|done]. intros (o' & Heq & Ho')%list_elem_of_fmap. specialize (Hnew o' Ho'). by rewrite <-Heq, lookup_insert_eq in Hnew.
  - intros o' [->|Ho']%elem_of_cons; [done|]. specialize (Hnew o' Ho'). by apply lookup_insert_None in Hnew as [? _].
  - intros id o'. rewrite Hm, lookup_insert_Some. split.
    + intros [[[<- <-]|[_ ?]]|[? ?]]; [right; split; [by left|done]|by left|right; split; [by right|done]].
    + intros [H'|[[->|?]%elem_of_cons <-]]; [|by left; left|by right]. left. right. split; [|done]. intros <-. by rewrite Hnone in H'.
Qed.

(** The obligor's predicate, found by the loop over the predicates of an obligation. *)
Lemma authorized_by predicates o ids b : foldM (checkPredicateOf predicates o) b ids = Ok true ->
  b = true \/ exists id p, id ∈ ids /\ predicates !! id = Some p /\ containsSorted (ObligationIDs p) (ObligationID o) = true /\
    speaksFor p (ObligorAgentID o) = true.
Proof.
  revert b. induction ids as [|id ids IH]; intros b H; cbn in H; [injection H as ->; by left|].
  apply bind_Ok in H as (b' & Hc & H). unfold checkPredicateOf in Hc. apply bind_Ok in Hc as (p & Hp%opt_err_Ok & Hc).
  apply bind_Ok in Hc as (? & Hs & Hc). apply fail_if_Ok, negb_false_iff in Hs. injection Hc as <-.
  destruct (IH _ H) as [[Hsp| ->]%orb_true_iff|(id' & p' & Hin & Hrest)]; [right; exists id, p| by left|right; exists id', p'].
  - split; [by left|done].
  - split; [by right|done].
Qed.

(** What the checks of a body establish, targets apart. *)
Record body_ok (body : AgentAgreementBody) : Prop := {
  body_predicates : Forall predicate_ok (AuthorizationPredicates body);
  body_distinct : NoDup (ObligationID <$> Obligations body);
  body_obligations : Forall (obligation_ok (participantMap (Participants body))) (Obligations body);
  body_covered o : o ∈ Obligations body -> exists p, p ∈ AuthorizationPredicates body /\
    ObligationID o ∈ ObligationIDs p /\ speaksFor p (ObligorAgentID o) = true;
  body_dependencies o d : o ∈ Obligations body -> d ∈ DependsOnObligationIDs o ->
    exists o', o' ∈ Obligations body /\ ObligationID o' = d;
  body_scopes p id : p ∈ AuthorizationPredicates body -> id ∈ ObligationIDs p ->
    exists o, o ∈ Obligations body /\ ObligationID o = id;
  body_order : exists m : gmap string AgreementObligation,
    (forall id o, m !! id = Some o <-> o ∈ Obligations body /\ ObligationID o = id) /\ agreementHasCycle m = false }.

Lemma parts_ok body targets : validateAgreementParts body targets = Ok tt -> body_ok body.
Proof.
  unfold validateAgreementParts. intros H.
  do 9 (apply bind_Ok in H as (? & _ & H)). apply bind_Ok in H as (? & Hp & H). apply bind_Ok in H as (? & _ & H).
  apply bind_Ok in H as (m & Hm & H). apply bind_Ok in H as (? & Hs & H). apply bind_Ok in H as (? & Ho & Hc).
  apply fail_if_Ok in Hc. apply fail_if_Ok, negb_false_iff in Hs.
  pose proof (foldM_each predicate_ok _ _ _ _ (predicate_checked targets) Hp) as Hpred.
  apply obligations_fold in Hm as (Hall & Hnd & _ & Hm).
  assert (forall id o, m !! id = Some o <-> o ∈ Obligations body /\ ObligationID o = id) as Hm'.
  { intros id o. rewrite Hm. split; [by intros [[]%lookup_empty_Some|?]|by right]. }
  eapply (foldM_each (fun o => exists u u', checkObligation (predicateMap (AuthorizationPredicates body)) m u o = Ok u')) in Ho;
    [|by intros u o u' Hu; exists u, u'].
  rewrite Forall_forall in Ho.
  split; [done|done|done|..].
  - intros o Hin. destruct (Ho o Hin) as (? & ? & H). unfold checkObligation in H. apply bind_Ok in H as ([] & Hau & H).
    + apply authorized_by in Hau as [|(id & p & _ & [Hpin _]%predicateMap_in & Hcs & Hsp)]; [done|]. exists p. split; [done|]. split; [|done].
      apply containsSorted_iff; [|done]. rewrite Forall_forall in Hpred. by apply Hpred.
    + by apply bind_Ok in H as (? & [=]%fail_if_Ok & _).
  - intros o d Hin Hd. destruct (Ho o Hin) as (? & ? & H). unfold checkObligation in H. apply bind_Ok in H as (? & _ & H).
    apply bind_Ok in H as (? & _ & H). apply fail_if_Ok, negb_false_iff in H. rewrite forallb_forall in H.
    apply list_elem_of_In, H, andb_true_iff in Hd as [[o' Ho']%bool_decide_eq_true _]. exists o'. by apply Hm'.
  - intros p id Hpin Hid. rewrite forallb_forall in Hs. apply list_elem_of_In, Hs in Hpin. rewrite forallb_forall in Hpin.
    apply list_elem_of_In, Hpin, bool_decide_eq_true in Hid as [o Ho']. exists o. by apply Hm'.
  - by exists m.
Qed.
End Valid.

(** ** Targets commit to the body *)

Section Targets.
Context `{A : AgreementCodec}.

Lemma list_cons_eq_inv {X} (x y : X) l k : x :: l = y :: k -> x = y /\ l = k.
Proof. by intros [= -> ->]. Qed.

(** Setting targets as a function of the identifiers. *)
Definition retarget (target : string -> string) (p : AgreementAuthorizationPredicate) : AgreementAuthorizationPredicate :=
  with_target p (target (PredicateID p)).

Lemma foldM_fmap {E X Y Z'} (f : Y -> Z' -> result E Y) (g : X -> Z') y l : foldM f y (g <$> l) = foldM (fun y x => f y (g x)) y l.
Proof. revert y. induction l as [|x l IH]; intros y; cbn; [done|]. destruct (f y (g x)); cbn; [apply IH|done..]. Qed.

Lemma foldM_weaken {E X Y} (f g : Y -> X -> result E Y) y l z : (forall y x z, f y x = Ok z -> g y x = Ok z) ->
  foldM f y l = Ok z -> foldM g y l = Ok z.
Proof.
  intros Hfg. revert y. induction l as [|x l IH]; intros y H; [done|]. cbn in *. apply bind_Ok in H as (y' & Hy & H).
  rewrite (Hfg _ _ _ Hy). cbn. by apply IH.
Qed.

Lemma retarget_map target predicates (m : gmap string AgreementAuthorizationPredicate) :
  foldl (fun m p => <[PredicateID p := p]> m) (retarget target <$> m) (retarget target <$> predicates) =
  retarget target <$> foldl (fun m p => <[PredicateID p := p]> m) m predicates.
Proof.
  revert m. induction predicates as [|p predicates IH]; intros m; [done|]. cbn. rewrite <-IH. f_equal.
  by rewrite fmap_insert.
Qed.

Lemma predicateMap_retarget target predicates :
  predicateMap (retarget target <$> predicates) = retarget target <$> predicateMap predicates.
Proof. unfold predicateMap. rewrite <-retarget_map. by rewrite fmap_empty. Qed.

Lemma checkPredicateOf_retarget target m o b id :
  checkPredicateOf (retarget target <$> m) o b id = checkPredicateOf m o b id.
Proof. unfold checkPredicateOf. rewrite lookup_fmap. by destruct (m !! id). Qed.

Lemma foldM_ext {E X Y} (f g : Y -> X -> result E Y) y l : (forall y x, f y x = g y x) -> foldM f y l = foldM g y l.
Proof. intros H. revert y. induction l as [|x l IH]; intros y; cbn; [done|]. rewrite H. destruct (g y x); cbn; [apply IH|done..]. Qed.

Lemma checkObligation_retarget target m obligations u o :
  checkObligation (retarget target <$> m) obligations u o = checkObligation m obligations u o.
Proof. unfold checkObligation. by rewrite (foldM_ext _ (checkPredicateOf m o)) by apply checkPredicateOf_retarget. Qed.

(** Valid predicates without targets are valid with targets that are digests. *)
Lemma validatePredicate_retarget target previous p id : (forall i, canonicalDigestPattern (target i) = true) ->
  validatePredicate false previous p = Ok id -> validatePredicate true previous (retarget target p) = Ok id.
Proof.
  intros Ht. unfold validatePredicate. intros H. apply bind_Ok in H as (u & Hc & H). apply bind_Ok in H as (? & _ & H).
  change (PredicateID (retarget target p)) with (PredicateID p). change (AuthoritySubject (retarget target p)) with (AuthoritySubject p).
  change (RoleScope (retarget target p)) with (RoleScope p). change (ObligationIDs (retarget target p)) with (ObligationIDs p).
  cbn [retarget with_target EvidenceProfileURI EvidenceProfileVersion EvidenceProfileDigest EvidenceTargetProjectionDigest
       pr_ValidFromUnix pr_ExpiresAtUnix pr_RequiredExtensions pr_OptionalExtensions].
  rewrite Hc. cbn [mbind result_bind]. rewrite Ht. cbn [negb andb orb fail_if mbind result_bind]. exact H.
Qed.

Lemma parts_retarget target body : (forall i, canonicalDigestPattern (target i) = true) ->
  validateAgreementParts body false = Ok tt ->
  validateAgreementParts (with_predicates body (retarget target <$> AuthorizationPredicates body)) true = Ok tt.
Proof.
  intros Ht. unfold validateAgreementParts.
  cbn [with_predicates ab_SchemaVersion AgreementID Version NetworkContext ab_ValidFromUnix ab_ExpiresAtUnix TermsContentType Terms
       PredecessorAgreementDigest Participants ReferencedIntents ab_AttachmentDigests ab_RequiredExtensions ab_OptionalExtensions
       AuthorizationPredicates Obligations].
  intros H. do 8 (apply bind_Ok in H as ([] & Hc & H); rewrite Hc; clear Hc; cbn [mbind result_bind]).
  apply bind_Ok in H as (? & Hc & H). unfold zlen in *. rewrite length_fmap, Hc. clear Hc. cbn [mbind result_bind].
  apply bind_Ok in H as (id & Hp & H). rewrite foldM_fmap.
  rewrite (foldM_weaken _ _ _ _ _ (fun y x z => validatePredicate_retarget target y x z Ht) Hp). cbn [mbind result_bind].
  apply bind_Ok in H as (? & Hc & H). rewrite Hc. clear Hc. cbn [mbind result_bind].
  apply bind_Ok in H as (m & Hm & H). rewrite Hm. cbn [mbind result_bind]. apply bind_Ok in H as (? & Hs & H).
  assert (forallb (fun p => forallb (fun id => bool_decide (is_Some (m !! id))) (ObligationIDs p)) (retarget target <$> AuthorizationPredicates body) =
          forallb (fun p => forallb (fun id => bool_decide (is_Some (m !! id))) (ObligationIDs p)) (AuthorizationPredicates body)) as ->.
  { clear. induction (AuthorizationPredicates body) as [|p l IH]; [done|]. cbn. by f_equal. }
  rewrite Hs. cbn [mbind result_bind]. rewrite predicateMap_retarget.
  rewrite (foldM_ext _ (checkObligation (predicateMap (AuthorizationPredicates body)) m)) by apply checkObligation_retarget. exact H.
Qed.

Lemma parts_no_targets body : validateAgreementParts body false = Ok tt ->
  (fun p => with_target p "") <$> AuthorizationPredicates body = AuthorizationPredicates body.
Proof.
  unfold validateAgreementParts. intros H. do 9 (apply bind_Ok in H as (? & _ & H)). apply bind_Ok in H as (? & Hp & _).
  eapply (foldM_each (fun p => with_target p "" = p)) in Hp.
  - induction Hp as [|p l Hp _ IH]; [done|]. cbn. by rewrite Hp, IH.
  - intros previous p id Hv. unfold validatePredicate in Hv. apply bind_Ok in Hv as (? & _ & Hv). apply bind_Ok in Hv as (? & Ht & _).
    apply fail_if_Ok in Ht. cbn [negb andb orb] in Ht. apply negb_false_iff, streq_true in Ht. destruct p; cbn in *. by subst.
Qed.

(** The targets of a body, from its core and its policy. *)
Definition targetOf (core policy : string) : string -> string :=
  targetDigest (framedSHA256 ("tos.agreement-core.v1" +:+ NUL) core)
    (framedSHA256 ("tos.agreement-authorization-policy.v1" +:+ NUL) policy).

Lemma targetOf_digest core policy id : canonicalDigestPattern (targetOf core policy id) = true.
Proof. apply digest_pattern. Qed.

Lemma prepared_targets body prepared : PrepareAgreementTargets body = Ok prepared ->
  validateAgreementParts body false = Ok tt /\ exists core policy, marshal_core (agreementCore body) = Some core /\
    marshal_policy (project <$> AuthorizationPredicates body) = Some policy /\
    prepared = with_predicates body (retarget (targetOf core policy) <$> AuthorizationPredicates body).
Proof.
  unfold PrepareAgreementTargets. intros H. apply bind_Ok in H as ([] & Hv & H). apply bind_Ok in H as (core & Hc%opt_err_Ok & H).
  apply bind_Ok in H as (policy & Hp%opt_err_Ok & H). injection H as <-. split; [done|]. by exists core, policy.
Qed.

(** Preparing an agreement produces a valid agreement: the body with the targets
    that [PrepareAgreementTargets] computes passes [ValidateAgreementBody], which
    recomputes every target. *)
Theorem prepared_agreement_validates (body prepared : AgentAgreementBody) :
  PrepareAgreementTargets body = Ok prepared -> ValidateAgreementBody prepared = Ok tt.
Proof.
  intros Hprep. pose proof Hprep as (Hv & core & policy & Hc & Hp & ->)%prepared_targets.
  unfold ValidateAgreementBody, validateAgreementBody. rewrite (parts_retarget _ _ (targetOf_digest core policy) Hv). cbn [mbind result_bind].
  assert (with_predicates (with_predicates body (retarget (targetOf core policy) <$> AuthorizationPredicates body))
            ((fun p => with_target p "") <$> AuthorizationPredicates
               (with_predicates body (retarget (targetOf core policy) <$> AuthorizationPredicates body))) = body) as ->.
  { pose proof (parts_no_targets _ Hv) as Hn. destruct body. cbn in *. unfold with_predicates. cbn. f_equal. rewrite <-list_fmap_compose.
    etransitivity; [|exact Hn]. done. }
  rewrite Hprep. cbn [mbind result_bind]. by rewrite bool_decide_true.
Qed.

(** A valid body carries the targets of its own core and policy. *)
Lemma valid_targets body : ValidateAgreementBody body = Ok tt ->
  validateAgreementParts body true = Ok tt /\ exists core policy, marshal_core (agreementCore body) = Some core /\
    marshal_policy (project <$> AuthorizationPredicates body) = Some policy /\
    targets body = (fun p => targetOf core policy (PredicateID p)) <$> AuthorizationPredicates body.
Proof.
  unfold ValidateAgreementBody, validateAgreementBody. intros H. apply bind_Ok in H as ([] & Hv & H). split; [done|].
  apply bind_Ok in H as (r & (_ & core & policy & Hc & Hp & ->)%prepared_targets & H). apply fail_if_Ok, negb_false_iff, bool_decide_eq_true in H.
  exists core, policy. split; [done|]. split; [|rewrite H].
  - rewrite <-Hp. f_equal. cbn. by rewrite <-list_fmap_compose.
  - unfold targets. cbn. by rewrite <-!list_fmap_compose.
Qed.

(** What the theorem below needs of the codec: encodings determine documents. *)
Class AgreementCodecLaws : Prop := {
  core_inj c1 c2 t : marshal_core c1 = Some t -> marshal_core c2 = Some t -> c1 = c2;
  policy_inj l1 l2 t : marshal_policy l1 = Some t -> marshal_policy l2 = Some t -> l1 = l2;
  acceptance_decodes x t : marshal_acceptance x = Some t -> unmarshal_acceptance t = Some x }.

(** The texts that are hashed to make a target: the core, the policy and the target's
    own preimage. *)
Definition target_texts (core policy predicateID : string) : list string :=
  [framed_text ("tos.agreement-core.v1" +:+ NUL) core; framed_text ("tos.agreement-authorization-policy.v1" +:+ NUL) policy;
   targetPreimage (framedSHA256 ("tos.agreement-core.v1" +:+ NUL) core)
     (framedSHA256 ("tos.agreement-authorization-policy.v1" +:+ NUL) policy) predicateID].

(** All the texts hashed for the targets of a body. *)
Definition agreement_texts (body : AgentAgreementBody) : list string :=
  AuthorizationPredicates body ≫= fun p =>
    target_texts (default ""%string (marshal_core (agreementCore body)))
      (default ""%string (marshal_policy (project <$> AuthorizationPredicates body))) (PredicateID p).

Lemma target_inj c1 c2 p1 p2 i1 i2 : slen i1 <= 128 -> slen i2 <= 128 -> targetOf c1 p1 i1 = targetOf c2 p2 i2 ->
  (c1 = c2 /\ p1 = p2 /\ i1 = i2) \/ collision_between (target_texts c1 p1 i1) (target_texts c2 p2 i2).
Proof.
  intros Hl1 Hl2 H. unfold targetOf, targetDigest in H. apply app_inj_len in H as [_ H]; [|done]. apply hex_encode_inj in H.
  destruct (Sum256_inj _ _ H) as [Hp|C]; [|right; exact (texts_between (target_texts c1 p1 i1) (target_texts c2 p2 i2) 2 _ _ eq_refl eq_refl C)].
  unfold targetPreimage in Hp. apply app_inj_len in Hp as [_ Hp]; [|done].
  assert (forall a b c d : string, String.length (framedSHA256 a b) = String.length (framedSHA256 c d)) as Hlen.
  { intros. pose proof (Sum256_length (a +:+ PutUint32 (wrap32 (slen b)) +:+ b)) as E1.
    pose proof (Sum256_length (c +:+ PutUint32 (wrap32 (slen d)) +:+ d)) as E2. unfold framedSHA256, slen in *. lia. }
  apply app_inj_len in Hp as [Hc Hp]; [|apply Hlen]. apply app_inj_len in Hp as [Hpol Hp]; [|apply Hlen].
  apply framedSHA256_inj in Hc as [->|C]; [|right; exact (texts_between (target_texts c1 p1 i1) (target_texts c2 p2 i2) 0 _ _ eq_refl eq_refl C)].
  apply framedSHA256_inj in Hpol as [->|C]; [|right; exact (texts_between (target_texts c2 p1 i1) (target_texts c2 p2 i2) 1 _ _ eq_refl eq_refl C)].
  left.
  split; [done|]. split; [done|]. apply app_inj_len in Hp; [by destruct Hp|]. apply put_same_length.
Qed.

Lemma project_target p q : project p = project q -> EvidenceTargetProjectionDigest p = EvidenceTargetProjectionDigest q -> p = q.
Proof. destruct p, q; unfold project; cbn. intros [=] ?. by subst. Qed.

Lemma core_predicates b1 b2 : agreementCore b1 = agreementCore b2 -> AuthorizationPredicates b1 = AuthorizationPredicates b2 -> b1 = b2.
Proof. destruct b1, b2; unfold agreementCore; cbn. intros [=] ?. by subst. Qed.

Lemma valid_id_length body p : ValidateAgreementBody body = Ok tt -> p ∈ AuthorizationPredicates body -> slen (PredicateID p) <= 128.
Proof.
  intros [Hv _]%valid_targets Hp. apply parts_ok in Hv as [Hpred _ _ _ _ _ _]. rewrite Forall_forall in Hpred.
  destruct (Hpred p Hp) as [_ _ _ Hid _]. unfold boundedIdentifier, boundedUTF8 in Hid. rewrite !andb_true_iff, !Z.leb_le in Hid. naive_solver.
Qed.

(** An acceptance target determines the whole agreement: if one target digest
    occurs in two valid agreement bodies, the bodies are equal, unless a text hashed
    for the targets of the first and one hashed for the second collide.  So evidence for one agreement, which signs targets,
    cannot be carried over to a changed one. *)
Theorem target_determines_agreement `{!AgreementCodecLaws} (b1 b2 : AgentAgreementBody) (target : string) :
  ValidateAgreementBody b1 = Ok tt -> ValidateAgreementBody b2 = Ok tt ->
  target ∈ targets b1 -> target ∈ targets b2 -> b1 = b2 \/ collision_between (agreement_texts b1) (agreement_texts b2).
Proof.
  intros V1 V2 H1 H2. pose proof V1 as (_ & c1 & p1 & Hc1 & Hp1 & Ht1)%valid_targets.
  pose proof V2 as (_ & c2 & p2 & Hc2 & Hp2 & Ht2)%valid_targets. rewrite Ht1 in H1. rewrite Ht2 in H2.
  apply list_elem_of_fmap in H1 as (q1 & -> & Hq1). apply list_elem_of_fmap in H2 as (q2 & Heq & Hq2).
  apply target_inj in Heq as [(-> & -> & _)|(x & y & Hx & Hy & C)]; [| |by apply (valid_id_length b1)|by apply (valid_id_length b2)]; [left|right].
  2: { exists x, y. unfold agreement_texts. rewrite Hc1, Hc2, Hp1, Hp2.
       split; [|split; [|exact C]]; apply list_elem_of_bind; [exists q1|exists q2]; by split. }
  pose proof (core_inj _ _ _ Hc1 Hc2) as Hcore. pose proof (policy_inj _ _ _ Hp1 Hp2) as Hpol.
  apply core_predicates; [done|]. unfold targets in Ht1, Ht2. revert Hpol Ht1 Ht2. clear.
  generalize (AuthorizationPredicates b1), (AuthorizationPredicates b2). intros l1. induction l1 as [|p l1 IH]; intros [|q l2]; try done.
  rewrite !fmap_cons. intros Hpol H1 H2. apply list_cons_eq_inv in Hpol as [Hpq Hpol]. apply list_cons_eq_inv in H1 as [E1 H1]. apply list_cons_eq_inv in H2 as [E2 H2].
  assert (PredicateID p = PredicateID q) as Hid by exact (f_equal pp_PredicateID Hpq).
  rewrite (project_target p q Hpq) by (rewrite E1, E2, Hid; reflexivity). by rewrite (IH l2 Hpol H1 H2).
Qed.
End Targets.

(** ** What authorizes an agreement *)

Section Authorization.
Context `{A : AgreementCodec}.

Lemma groups_filter predicates m key : default [] (foldl addToGroup m predicates !! key) =
  default [] (m !! key) ++ filter (fun p => predicate_group p = key) predicates.
Proof.
  revert m. induction predicates as [|p predicates IH]; intros m; cbn [foldl]; [by rewrite app_nil_r|]. rewrite IH. unfold addToGroup.
  destruct (decide (predicate_group p = key)) as [<-|Hne].
  - rewrite lookup_insert_eq, filter_cons_True by done. unfold default, from_option, id. by rewrite <-app_assoc.
  - rewrite lookup_insert_ne, filter_cons_False by done. done.
Qed.

Lemma group_of predicates key : default [] (predicateGroups predicates !! key) = filter (fun p => predicate_group p = key) predicates.
Proof. unfold predicateGroups. by rewrite groups_filter, lookup_empty. Qed.

Lemma group_present predicates p : p ∈ predicates -> predicate_group p ∈ (map_to_list (predicateGroups predicates)).*1.
Proof.
  intros Hp. pose proof (group_of predicates (predicate_group p)) as H. destruct (predicateGroups predicates !! predicate_group p) as [g|] eqn:E.
  - apply list_elem_of_fmap. exists (predicate_group p, g). split; [done|]. by apply elem_of_map_to_list.
  - cbn in H. assert (p ∈ filter (fun q => predicate_group q = predicate_group p) predicates) as Hin by by apply list_elem_of_filter.
    rewrite <-H in Hin. by apply elem_of_nil in Hin.
Qed.

(** Evidence that passed its checks. *)
Record evidence_ok (body : AgentAgreementBody) (digest : string) (verify : AgreementEvidenceVerifier) (now : Time)
    (e : AgreementAuthorizationEvidence) : Prop := {
  evidence_agreement : ev_AgreementID e = AgreementID body /\ ev_AgreementVersion e = Version body /\ ev_AgreementBodyDigest e = digest;
  evidence_subject : validAuthoritySubject (ev_AuthoritySubject e) = true;
  evidence_uri : boundedIdentifier (ev_EvidenceProfileURI e) 256 = true;
  evidence_ids : ev_PredicateIDs e = PredicateID <$> filter (fun p => predicate_group p = evidence_group e) (AuthorizationPredicates body);
  evidence_targets : ev_EvidenceTargetProjectionDigests e =
    EvidenceTargetProjectionDigest <$> filter (fun p => predicate_group p = evidence_group e) (AuthorizationPredicates body);
  evidence_verified : verify e now = Ok tt }.

Lemma evidence_checked body digest verify now seen e seen' :
  checkEvidence body digest (predicateGroups (AuthorizationPredicates body)) verify now seen e = Ok seen' ->
  evidence_ok body digest verify now e /\ (evidence_group e ∉ seen) /\ seen' = ({[evidence_group e]} ∪ seen).
Proof.
  unfold checkEvidence. intros H. apply bind_Ok in H as (? & Hc & H). apply bind_Ok in H as (? & Hs & H).
  apply bind_Ok in H as (? & _ & H). apply bind_Ok in H as (? & Hg & H). apply bind_Ok in H as (? & _ & H).
  apply bind_Ok in H as ([] & Hv & H). injection H as <-. apply fail_if_Ok in Hc, Hs, Hg. apply bool_decide_eq_false in Hs.
  rewrite group_of, orb_false_iff, !negb_false_iff, !bool_decide_eq_true in Hg. destruct Hg as [Hids Htargets].
  rewrite !orb_false_iff, !negb_false_iff in Hc. destruct_and?.
  repeat match goal with H : streq _ _ = true |- _ => apply streq_true in H | H : (_ =? _) = true |- _ => apply Z.eqb_eq in H end.
  split; [|done]. by split.
Qed.

Lemma seen_checked body digest verify now seen evidence seen' :
  foldM (checkEvidence body digest (predicateGroups (AuthorizationPredicates body)) verify now) seen evidence = Ok seen' ->
  forall key, key ∈ seen' -> key ∈ seen \/ exists e, e ∈ evidence /\ evidence_group e = key /\ evidence_ok body digest verify now e.
Proof.
  revert seen. induction evidence as [|e evidence IH]; intros seen H key Hk; cbn in H; [injection H as <-; by left|].
  apply bind_Ok in H as (s & Hs & H). apply evidence_checked in Hs as (Hok & _ & ->).
  destruct (IH _ H key Hk) as [[->%elem_of_singleton|?]%elem_of_union|(e' & Hin & Hrest)];
    [right; exists e; split; [by left|done]|by left|right; exists e'; split; [by right|done]].
Qed.

(** What evidence says about a predicate it covers. *)
Record accepted (body : AgentAgreementBody) (p : AgreementAuthorizationPredicate) (verify : AgreementEvidenceVerifier) (now : Time)
    (e : AgreementAuthorizationEvidence) : Prop := {
  accepted_subject : ev_AuthoritySubject e = AuthoritySubject p;
  accepted_profile : ev_EvidenceProfileURI e = EvidenceProfileURI p /\ ev_EvidenceProfileVersion e = EvidenceProfileVersion p /\
    ev_EvidenceProfileDigest e = EvidenceProfileDigest p;
  accepted_body : AgreementBodyDigest body = Ok (ev_AgreementBodyDigest e);
  accepted_target : exists i, ev_PredicateIDs e !! i = Some (PredicateID p) /\
    ev_EvidenceTargetProjectionDigests e !! i = Some (EvidenceTargetProjectionDigest p);
  accepted_live : (pr_ValidFromUnix p <> 0 -> Before now (UnixTime (pr_ValidFromUnix p)) = false) /\
    Before now (UnixTime (pr_ExpiresAtUnix p)) = true;
  accepted_verified : verify e now = Ok tt }.

Lemma predicate_window now p : predicateLive now p = true ->
  (pr_ValidFromUnix p <> 0 -> Before now (UnixTime (pr_ValidFromUnix p)) = false) /\ Before now (UnixTime (pr_ExpiresAtUnix p)) = true.
Proof.
  unfold predicateLive. rewrite negb_true_iff, orb_false_iff, negb_false_iff. intros [H ->]. split; [|done].
  intros Hz%Z.eqb_neq. by rewrite Hz in H.
Qed.

Lemma authorized_steps agreement verify now : ValidateAgreementAuthorization agreement (Some verify) now = Ok tt ->
  let body := ag_Body agreement in
  ValidateAgreementBody body = Ok tt /\
  (Before now (UnixTime (ab_ValidFromUnix body)) = false /\ Before now (UnixTime (ab_ExpiresAtUnix body)) = true) /\
  forall p, p ∈ AuthorizationPredicates body -> exists e, e ∈ AuthorizationEvidence agreement /\ accepted body p verify now e.
Proof.
  unfold ValidateAgreementAuthorization, validateAgreementEvidenceSet. intros H. cbn zeta. apply bind_Ok in H as ([] & Hv & H).
  apply bind_Ok in H as (v & Hver & H). injection Hver as <-. apply bind_Ok in H as (? & _ & H). apply bind_Ok in H as (? & Ht & H).
  apply bind_Ok in H as (digest & Hd & H). apply bind_Ok in H as (? & Hl & H). apply bind_Ok in H as (seen & Hs & H).
  apply fail_if_Ok in Ht, Hl, H. apply orb_false_iff in Ht as [Ht1 Ht2%negb_false_iff]. split; [done|]. split; [done|].
  apply negb_false_iff in Hl. rewrite forallb_forall in Hl. cbn [andb] in H. apply negb_false_iff in H. rewrite forallb_forall in H.
  intros p Hp. pose proof (group_present _ _ Hp) as Hg. apply list_elem_of_In, H, bool_decide_eq_true in Hg.
  destruct (seen_checked _ _ _ _ _ _ _ Hs _ Hg) as [[]%not_elem_of_empty|(e & Hin & Hkey & [Ha Hsub Huri Hids Htg Hver])].
  exists e. split; [done|]. apply valid_targets in Hv as [Hparts _]. apply parts_ok in Hparts as [Hpred _ _ _ _ _ _].
  rewrite Forall_forall in Hpred. destruct (Hpred p Hp) as [Hps _ Hpu _ _].
  unfold evidence_group, predicate_group in Hkey. pose proof (group_key_inj _ _ _ _ _ _ _ _ _ _ Hsub Hps Huri Hpu Hkey) as (Es & Eu & Ev & Ed).
  split; [done|done| |..].
  - destruct Ha as (_ & _ & ->). exact Hd.
  - assert (p ∈ filter (fun q => predicate_group q = evidence_group e) (AuthorizationPredicates (ag_Body agreement))) as Hf by by apply list_elem_of_filter.
    apply list_elem_of_lookup in Hf as [i Hi]. exists i. rewrite Hids, Htg, !list_lookup_fmap, Hi. done.
  - apply predicate_window. by apply Hl, list_elem_of_In.
  - done.
Qed.

Lemma speaks_for p agent : speaksFor p agent = true ->
  (SubjectKind (AuthoritySubject p) = "agent"%string /\ SubjectIdentifier (AuthoritySubject p) = agent) \/
  (SubjectKind (AuthoritySubject p) <> "agent"%string /\ RepresentedAgentID (AuthoritySubject p) = agent).
Proof.
  unfold speaksFor. rewrite orb_true_iff, !andb_true_iff, !streq_true, negb_true_iff. intros [H|[Hk Ha]]; [by left|right].
  split; [|done]. intros E. apply streq_true in E. congruence.
Qed.

(** C15: no obligation of an authorized agreement lacks its obligor's consent.  When an
    agreement passes authorization, its body is in its validity window, and for each
    of its obligations there is a predicate, in its own window, that covers the
    obligation and whose subject is the obligor or represents it, and an evidence
    object for that predicate's exact subject, profile, body digest and target, which
    the evidence verifier accepted at this time. *)
Theorem authorized_obligations_accepted (agreement : AgentAgreement) (verify : AgreementEvidenceVerifier) (now : Time)
    (o : AgreementObligation) :
  ValidateAgreementAuthorization agreement (Some verify) now = Ok tt -> o ∈ Obligations (ag_Body agreement) ->
  (Before now (UnixTime (ab_ValidFromUnix (ag_Body agreement))) = false /\
   Before now (UnixTime (ab_ExpiresAtUnix (ag_Body agreement))) = true) /\
  exists p e, p ∈ AuthorizationPredicates (ag_Body agreement) /\ e ∈ AuthorizationEvidence agreement /\
    ObligationID o ∈ ObligationIDs p /\
    ((SubjectKind (AuthoritySubject p) = "agent"%string /\ SubjectIdentifier (AuthoritySubject p) = ObligorAgentID o) \/
     (SubjectKind (AuthoritySubject p) <> "agent"%string /\ RepresentedAgentID (AuthoritySubject p) = ObligorAgentID o)) /\
    accepted (ag_Body agreement) p verify now e.
Proof.
  intros (Hv & Hw & Hall)%authorized_steps Ho. split; [exact Hw|]. apply valid_targets in Hv as [Hparts _]. apply parts_ok in Hparts as [_ _ _ Hcov _ _ _].
  destruct (Hcov o Ho) as (p & Hp & Hid & Hsp). destruct (Hall p Hp) as (e & He & Hacc).
  exists p, e. exact (conj Hp (conj He (conj Hid (conj (speaks_for _ _ Hsp) Hacc)))).
Qed.

(** C19: the obligations of a valid agreement can be discharged one after the other:
    their identifiers are distinct, every dependency is another obligation of the body,
    every predicate speaks only about obligations of the body, and the dependencies
    are well-founded, so no obligation waits for itself. *)
Theorem valid_agreement_well_founded (body : AgentAgreementBody) :
  ValidateAgreementBody body = Ok tt ->
  NoDup (ObligationID <$> Obligations body) /\
  (forall o d, o ∈ Obligations body -> d ∈ DependsOnObligationIDs o ->
     exists o', o' ∈ Obligations body /\ ObligationID o' = d /\ o' <> o) /\
  (forall p id, p ∈ AuthorizationPredicates body -> id ∈ ObligationIDs p -> exists o, o ∈ Obligations body /\ ObligationID o = id) /\
  well_founded (fun d o => exists x, x ∈ Obligations body /\ ObligationID x = o /\ d ∈ DependsOnObligationIDs x).
Proof.
  intros [Hparts _]%valid_targets. apply parts_ok in Hparts as [_ Hnd _ _ Hdep Hsc (m & Hm & Hcyc)].
  destruct (cycle_search_any_order m _ (Permutation_refl _)) as (found & Hfound & Hiff).
  unfold agreementHasCycle in Hcyc. rewrite Hfound in Hcyc. cbn in Hcyc. subst found.
  assert (forall x, x ∈ Obligations body -> forall d, d ∈ DependsOnObligationIDs x -> depends m (ObligationID x) d) as Hdep'.
  { intros x Hx d Hd. unfold depends, dependencies. by rewrite (proj2 (Hm (ObligationID x) x) (conj Hx eq_refl)). }
  split; [done|]. split; [|split; [done|]].
  - intros o d Ho Hd. destruct (Hdep o d Ho Hd) as (o' & Ho' & Hid). exists o'. split; [done|]. split; [done|]. intros ->.
    destruct Hiff as [_ Hno]. enough (false = true) by done. apply Hno. exists (ObligationID o). apply tc_once, Hdep'; [done|]. by rewrite Hid.
  - assert (forall r, r ∈ (map_to_list m).*1 -> grounded m r) as Hroots.
    { pose proof (visitAll_correct m (cycleFuel m) (map_to_list m).*1 ∅) as H. unfold agreementHasCycleIn in Hfound. rewrite Hfound in H.
      apply H; [by intros ? ?%lookup_empty_Some|by intros ? ?%lookup_empty_Some| |unfold cycleFuel; lia].
      intros r ([k x] & -> & Hk%elem_of_map_to_list)%list_elem_of_fmap. apply elem_of_union_l, elem_of_dom. by eexists. }
    intros id. destruct (decide (id ∈ (map_to_list m).*1)) as [Hin|Hout].
    + specialize (Hroots id Hin). induction Hroots as [id _ IH]. constructor. intros d (x & Hx & <- & Hd).
      apply IH; [by apply Hdep'|]. destruct (Hdep x d Hx Hd) as (x' & Hx' & <-). apply list_elem_of_fmap.
      exists (ObligationID x', x'). split; [done|]. apply elem_of_map_to_list, Hm. done.
    + constructor. intros d (x & Hx & <- & Hd). destruct Hout. apply list_elem_of_fmap. exists (ObligationID x, x). split; [done|].
      by apply elem_of_map_to_list, Hm.
Qed.
End Authorization.

(** ** Acceptances *)

Section Acceptances.
Context `{A : AgreementCodec} `{C : CommerceCodec}.
Variables (Sign : string -> string) (public : string).
Hypothesis Hpublic : slen public = PublicKeySize.
Hypothesis Hsign : forall m, slen (Sign m) = SignatureSize.
Hypothesis Hverify : forall m, ed25519_Verify public m (Sign m) = true.

Lemma agent_profile targets previous p id : validatePredicate targets previous p = Ok id ->
  EvidenceProfileURI p = EvidenceProfileAgentSignature ->
  EvidenceProfileVersion p = 1 /\ AgentSignatureProfileDigest = Ok (EvidenceProfileDigest p) /\ SubjectKind (AuthoritySubject p) = "agent"%string.
Proof using A.
  unfold validatePredicate. intros H Huri. do 2 (apply bind_Ok in H as (? & _ & H)). apply bind_Ok in H as (? & H & _).
  unfold builtinProfile in H. rewrite Huri, (proj2 (streq_true _ _) eq_refl) in H. apply bind_Ok in H as (? & Hv & H).
  apply bind_Ok in H as (want & Hw & H). apply fail_if_Ok in Hv, H. apply negb_false_iff, Z.eqb_eq in Hv.
  rewrite orb_false_iff, !negb_false_iff, !streq_true in H. destruct H as [-> Hk]. done.
Qed.

Lemma body_agent_profile body p : ValidateAgreementBody body = Ok tt -> p ∈ AuthorizationPredicates body ->
  EvidenceProfileURI p = EvidenceProfileAgentSignature ->
  EvidenceProfileVersion p = 1 /\ AgentSignatureProfileDigest = Ok (EvidenceProfileDigest p) /\ SubjectKind (AuthoritySubject p) = "agent"%string.
Proof using A.
  intros [H _]%valid_targets Hp. unfold validateAgreementParts in H. do 9 (apply bind_Ok in H as (? & _ & H)).
  apply bind_Ok in H as (? & Hf & _). eapply (foldM_each (fun p => exists t y id, validatePredicate t y p = Ok id)) in Hf.
  - rewrite Forall_forall in Hf. destruct (Hf p Hp) as (t & y & id & Hv). by apply (agent_profile t y p id).
  - intros y q z Hv. by exists true, y, z.
Qed.

(** What evidence built from an acceptance says. *)
Lemma built_evidence body acceptance e : AgentSignatureEvidence body acceptance = Ok e ->
  exists first canonical, first ∈ AuthorizationPredicates body /\ AuthoritySubject first = AcceptingSubject (acc_Body acceptance) /\
    EvidenceProfileURI first = EvidenceProfileAgentSignature /\ ValidateAgreementBody body = Ok tt /\
    marshal_acceptance acceptance = Some canonical /\
    e = {| ev_AgreementID := acc_AgreementID (acc_Body acceptance); ev_AgreementVersion := acc_AgreementVersion (acc_Body acceptance);
           ev_AgreementBodyDigest := acc_AgreementBodyDigest (acc_Body acceptance);
           ev_AuthoritySubject := AcceptingSubject (acc_Body acceptance); ev_PredicateIDs := acc_PredicateIDs (acc_Body acceptance);
           ev_EvidenceProfileURI := EvidenceProfileAgentSignature; ev_EvidenceProfileVersion := EvidenceProfileVersion first;
           ev_EvidenceProfileDigest := EvidenceProfileDigest first;
           ev_EvidenceTargetProjectionDigests := acc_EvidenceTargetProjectionDigests (acc_Body acceptance);
           EvidenceContentType := AgreementAcceptanceContentType; ev_Evidence := canonical |}.
Proof using A.
  unfold AgentSignatureEvidence. intros H. apply bind_Ok in H as ([] & Hv & H). apply bind_Ok in H as (digest & _ & H).
  apply bind_Ok in H as (? & Hc & H). apply fail_if_Ok in Hc. rewrite !orb_false_iff, !negb_false_iff, !streq_true, Z.eqb_eq in Hc.
  destruct Hc as [[-> ->] ->]. destruct (acceptedPredicates body (AcceptingSubject (acc_Body acceptance))) as [|first rest] eqn:Hp; [done|].
  apply bind_Ok in H as (? & _ & H). apply bind_Ok in H as (? & _ & H). apply bind_Ok in H as (canonical & Hm%opt_err_Ok & H). injection H as <-.
  assert (first ∈ acceptedPredicates body (AcceptingSubject (acc_Body acceptance))) as Hin by (rewrite Hp; by left).
  apply list_elem_of_filter in Hin as [[Hs Hu] Hin]. by exists first, canonical.
Qed.

(** A signed acceptance becomes evidence that verifies.  If an agent signs an
    acceptance and [AgentSignatureEvidence] turns it into evidence for a body, the
    evidence verifier accepts that evidence, against any resolver that trusts the
    agent's key, until the acceptance expires. *)
Theorem acceptance_roundtrip `{!AgreementCodecLaws} (body : AgentAgreementBody) (accepted : AgreementAcceptanceBody)
    (acceptance : SignedAgreementAcceptance) (e : AgreementAuthorizationEvidence) (authorize : IntentAuthorityResolver) (now : Time) :
  SignAgreementAcceptance Sign public accepted = Ok acceptance -> AgentSignatureEvidence body acceptance = Ok e ->
  authorize (SubjectIdentifier (AcceptingSubject accepted)) public now = Ok tt ->
  Before now (UnixTime (acc_ExpiresAtUnix accepted)) = true ->
  VerifyAgreementEvidence (Some authorize) e now = Ok tt.
Proof using A C Hpublic Hsign Hverify.
  intros Hs He Hauth Hlive. apply built_evidence in He as (first & canonical & Hin & Hsub & Huri & Hvalid & Hm & ->).
  unfold SignAgreementAcceptance in Hs. do 2 (apply bind_Ok in Hs as (? & _ & Hs)). apply bind_Ok in Hs as (text & Htext%opt_err_Ok & Hs).
  injection Hs as <-. cbn [acc_Body] in *. destruct (body_agent_profile _ _ Hvalid Hin Huri) as (Hv & Hd & Hk).
  unfold VerifyAgreementEvidence. cbn [ev_EvidenceProfileURI ev_EvidenceProfileVersion ev_EvidenceProfileDigest EvidenceContentType ev_Evidence].
  rewrite Hv, Hd, !(proj2 (streq_true _ _) eq_refl). cbn [negb orb fail_if mbind result_bind Z.eqb opt_err].
  unfold DecodeSignedAgreementAcceptance. rewrite (acceptance_decodes _ _ Hm). cbn [Pos.eqb negb fail_if mbind result_bind opt_err].
  unfold VerifySignedAgreementAcceptance. cbn [acc_Body acc_PublicKey acc_Signature ev_AgreementID ev_AgreementVersion ev_AgreementBodyDigest
    ev_AuthoritySubject ev_PredicateIDs ev_EvidenceTargetProjectionDigests].
  rewrite !(proj2 (streq_true _ _) eq_refl), Z.eqb_refl, !bool_decide_true, Hlive by done. cbn [negb orb fail_if mbind result_bind].
  rewrite <-Hsub, Hk, Hsub. change (streq "agent" "agent") with true. cbn [negb fail_if mbind result_bind opt_err].
  unfold parseEd25519PublicKey, parseEd25519Signature. rewrite parse_key_text by done. cbn [mbind result_bind]. rewrite Hauth.
  cbn [mbind result_bind]. rewrite parse_signature_text by apply Hsign. cbn [mbind result_bind]. rewrite Htext. cbn [opt_err mbind result_bind].
  by rewrite Hverify.
Qed.
End Acceptances.

(** ** The calls return *)

Lemma billing_terms_total terms amount : no_panic (validateBillingTerms terms amount).
Proof. unfold validateBillingTerms. solve_total. Qed.

Section Totality.
Context `{A : AgreementCodec}.
Hypothesis Hdescriptor : forall d, is_Some (marshal_descriptor d).

Lemma profile_descriptor_total d : is_ok (fail_if (negb (boundedIdentifier (pd_ProfileURI d) 256) || (pd_ProfileVersion d =? 0) ||
           negb (validateSortedStrings (AllowedSubjectKinds d) 16 64) ||
           negb (validateSortedStrings (EvidenceContentTypes d) 16 128) ||
           negb (boundedIdentifier (PredicateGroupingRule d) 256) || negb (boundedIdentifier (TargetBindingRule d) 256) ||
           negb (boundedIdentifier (VerifierProfileURI d) 256) || negb (boundedIdentifier (ValidityPolicy d) 256))
    "agreement acceptance profile is invalid"%string) = true -> no_panic (must (ProfileDescriptorDigest d)).
Proof using A Hdescriptor.
  unfold ProfileDescriptorDigest. destruct (fail_if _ _) as [[]| |]; [|done..]. intros _. cbn [mbind result_bind].
  destruct (Hdescriptor d) as [t ->]. done.
Qed.

Lemma builtin_total p uri digest kind error : no_panic digest -> no_panic (builtinProfile p uri digest kind error).
Proof. intros H. unfold builtinProfile. solve_total. Qed.

Lemma predicate_total targets previous p : no_panic (validatePredicate targets previous p).
Proof using A Hdescriptor.
  unfold validatePredicate. do 2 (apply bind_no_panic; [apply fail_if_no_panic|intros _ _]).
  do 3 (apply bind_no_panic; [apply builtin_total, profile_descriptor_total; vm_compute; reflexivity|intros _ _]). done.
Qed.

Lemma obligation_total participants obligations o : no_panic (validateObligation participants obligations o).
Proof.
  unfold validateObligation. do 2 (apply bind_no_panic; [apply fail_if_no_panic|intros _ _]).
  apply bind_no_panic; [destruct (ob_Amount o); apply fail_if_no_panic|intros ? Ha].
  apply bind_no_panic; [|done]. destruct (ob_BillingTerms o); [|done]. destruct (ob_Amount o); [apply billing_terms_total|].
  apply fail_if_Ok in Ha. by rewrite orb_true_r in Ha.
Qed.

Lemma parts_total body targets : no_panic (validateAgreementParts body targets).
Proof using A Hdescriptor.
  unfold validateAgreementParts, sortedDigestsUnder, checkObligation, checkPredicateOf.
  pose proof predicate_total. pose proof obligation_total. solve_total.
Qed.

Lemma body_total body : no_panic (ValidateAgreementBody body).
Proof using A Hdescriptor.
  unfold ValidateAgreementBody, validateAgreementBody, PrepareAgreementTargets, agreementCoreBytes, agreementPolicyBytes.
  pose proof parts_total. solve_total.
Qed.

(** Validating an agreement's authorization always returns: with an evidence verifier that
    returns and a codec that encodes the built-in profile descriptors, neither the
    validation of a body nor that of its evidence panics, on any input. *)
Theorem agreement_validation_total (agreement : AgentAgreement) (verify : AgreementEvidenceVerifier) (now : Time) :
  (forall e t, no_panic (verify e t)) ->
  no_panic (ValidateAgreementBody (ag_Body agreement)) /\
  no_panic (ValidateAgreementAuthorization agreement (Some verify) now) /\
  no_panic (ValidatePartialAgreementAuthorization agreement (Some verify) now).
Proof using A Hdescriptor.
  intros Hverify. pose proof body_total. split; [done|].
  unfold ValidateAgreementAuthorization, ValidatePartialAgreementAuthorization, validateAgreementEvidenceSet, AgreementBodyDigest, checkEvidence,
    checkAcceptanceExpiry, DecodeSignedAgreementAcceptance.
  split; (apply bind_no_panic; [done|intros _ _]); cbn [opt_err mbind result_bind]; solve_total.
Qed.
End Totality.

(** ** An example: a delivery and the payment that waits for it *)

#[global] Instance AgreementAmount_eq_dec : EqDecision AgreementAmount.
Proof. solve_decision. Defined.
#[global] Instance BillingTerms_eq_dec : EqDecision BillingTerms.
Proof. solve_decision. Defined.
#[global] Instance AgreementObligation_eq_dec : EqDecision AgreementObligation.
Proof. solve_decision. Defined.
#[global] Instance AgreementParticipant_eq_dec : EqDecision AgreementParticipant.
Proof. solve_decision. Defined.
#[global] Instance AgreementCore_eq_dec : EqDecision AgreementCore.
Proof. solve_decision. Defined.
#[global] Instance predicateProjection_eq_dec : EqDecision predicateProjection.
Proof. solve_decision. Defined.
#[global] Instance AgreementAcceptanceBody_eq_dec : EqDecision AgreementAcceptanceBody.
Proof. solve_decision. Defined.
#[global] Instance SignedAgreementAcceptance_eq_dec : EqDecision SignedAgreementAcceptance.
Proof. solve_decision. Defined.

Module Sample.

Definition public : string := repeat_byte "000" 32.
Definition Sign (m : string) : string := Sum256 m +:+ Sum256 m.
Definition signatures : CommerceCodec :=
  {| marshal_fence_body := fun _ => None; marshal_fence := fun _ => None; marshal_action := fun _ => None;
     marshal_allocation := fun _ => None; ed25519_Verify := fun _ m s => streq s (Sign m) |}.

Definition agentDigest : string :=
  "sha256:" +:+ hex_EncodeToString (framedSHA256 ("tos.agreement-acceptance-profile.v1" +:+ NUL) EvidenceProfileAgentSignature).

Definition agent (name : string) : AgreementAuthoritySubject :=
  {| SubjectKind := "agent"; SubjectNamespace := "tos"; SubjectIdentifier := name; RepresentedAgentID := "" |}.

Definition predicate (id name obligation : string) : AgreementAuthorizationPredicate :=
  {| PredicateID := id; AuthoritySubject := agent name; RoleScope := []; ObligationIDs := [obligation];
     EvidenceProfileURI := EvidenceProfileAgentSignature; EvidenceProfileVersion := 1; EvidenceProfileDigest := agentDigest;
     EvidenceTargetProjectionDigest := ""; pr_ValidFromUnix := 0; pr_ExpiresAtUnix := 1700003600;
     pr_RequiredExtensions := []; pr_OptionalExtensions := [] |}.

Definition obligation (id kind obligor beneficiary predicate : string) (dependencies : list string) (amount : option AgreementAmount)
  : AgreementObligation :=
  {| ObligationID := id; ob_Kind := kind; ObligorAgentID := obligor; BeneficiaryAgentID := beneficiary;
     DependsOnObligationIDs := dependencies; SubjectContentType := "text/plain"; Subject := "subject"; AttachmentDigests := [];
     ob_Amount := amount; ob_NotBeforeUnix := 0; ob_DueAtUnix := 0; ob_ExpiresAtUnix := 0; AcceptanceEvidenceRequirements := [];
     ConfidentialityPolicy := "none"; CancellationPolicy := "none"; DisputePolicy := "none"; ob_BillingTerms := None;
     ob_SettlementAdapterURI := match amount with Some _ => "tos.settlement" | None => "" end;
     SettlementParameters := match amount with Some _ => "direct" | None => "" end;
     AuthorizationPredicateIDs := [predicate]; ob_RequiredExtensions := []; ob_OptionalExtensions := [] |}.

Definition delivery : AgreementObligation := obligation "delivery" "work" "alice" "bob" "pa" [] None.
Definition payment : AgreementObligation :=
  obligation "payment" "pay" "bob" "alice" "pb" ["delivery"%string]
    (Some {| aa_AssetNamespace := "tos"; aa_AssetIdentifier := "native"; aa_AmountAtomic := "100"; AmountDecimal := ""; aa_Unit := "nano" |}).

Definition body : AgentAgreementBody :=
  {| ab_SchemaVersion := 1; AgreementID := "agreement"; Version := 1; PredecessorAgreementDigest := ""; NetworkContext := "tos-main";
     Participants := [{| pt_AgentID := "alice"; Roles := ["seller"%string] |}; {| pt_AgentID := "bob"; Roles := ["buyer"%string] |}];
     ReferencedIntents := []; TermsContentType := "text/plain"; Terms := "terms"; ab_AttachmentDigests := [];
     Obligations := [delivery; payment];
     AuthorizationPredicates := [predicate "pa" "alice" "delivery"; predicate "pb" "bob" "payment"];
     ab_RequiredExtensions := []; ab_OptionalExtensions := ∅; ab_ValidFromUnix := 1700000000; ab_ExpiresAtUnix := 1700003600 |}.

(** Documents of the example, with the texts a codec might give them. *)
Definition targetA : string := Eval vm_compute in targetOf "core" "policy" "pa".
Definition targetB : string := Eval vm_compute in targetOf "core" "policy" "pb".
Definition bodyDigest : string := Eval vm_compute in
  "sha256:" +:+ hex_EncodeToString (Sum256 (digestPreimage "tos.agent-agreement-body.v1" "body")).

Definition acceptanceBody (name id target : string) : AgreementAcceptanceBody :=
  {| acc_AgreementID := "agreement"; acc_AgreementVersion := 1; acc_AgreementBodyDigest := bodyDigest; AcceptingSubject := agent name;
     AcceptedRoles := []; acc_PredicateIDs := [id]; acc_EvidenceTargetProjectionDigests := [target]; acc_ExpiresAtUnix := 1700003000 |}.
Definition acceptance (name id target : string) : SignedAgreementAcceptance :=
  {| acc_Body := acceptanceBody name id target; acc_PublicKey := key_text public;
     acc_Signature := signature_text (Sign (framedSHA256 acceptanceDomain name)) |}.
Definition fromAlice : SignedAgreementAcceptance := Eval vm_compute in acceptance "alice" "pa" targetA.
Definition fromBob : SignedAgreementAcceptance := Eval vm_compute in acceptance "bob" "pb" targetB.

(** A codec that encodes these documents. *)
Definition codec : AgreementCodec :=
  {| marshal_core := fun c => if bool_decide (c = agreementCore body) then Some "core"%string else None;
     marshal_policy := fun l => if bool_decide (l = project <$> AuthorizationPredicates body) then Some "policy"%string else None;
     marshal_agreement_body := fun _ => Some "body"%string;
     marshal_acceptance_body := fun a => Some (SubjectIdentifier (AcceptingSubject a));
     marshal_acceptance := fun a => if bool_decide (a = fromAlice) then Some "from-alice"%string
                                    else if bool_decide (a = fromBob) then Some "from-bob"%string else None;
     unmarshal_acceptance := fun s => if streq s "from-alice" then Some fromAlice else if streq s "from-bob" then Some fromBob else None;
     marshal_descriptor := fun d => Some (pd_ProfileURI d) |}.
#[local] Existing Instance codec.
#[local] Existing Instance signatures.

Instance codec_laws : AgreementCodecLaws.
Proof.
  split.
  - intros c1 c2 t. cbn. repeat case_bool_decide; congruence.
  - intros l1 l2 t. cbn. repeat case_bool_decide; congruence.
  - intros x t. cbn. repeat case_bool_decide; intros [= <-]; subst; done.
Qed.

Definition prepared : AgentAgreementBody :=
  with_predicates body ((fun p => with_target p (if streq (PredicateID p) "pa" then targetA else targetB)) <$> AuthorizationPredicates body).

Definition evidence (name id target text : string) : AgreementAuthorizationEvidence :=
  {| ev_AgreementID := "agreement"; ev_AgreementVersion := 1; ev_AgreementBodyDigest := bodyDigest; ev_AuthoritySubject := agent name;
     ev_PredicateIDs := [id]; ev_EvidenceProfileURI := EvidenceProfileAgentSignature; ev_EvidenceProfileVersion := 1;
     ev_EvidenceProfileDigest := agentDigest; ev_EvidenceTargetProjectionDigests := [target];
     EvidenceContentType := AgreementAcceptanceContentType; ev_Evidence := text |}.
Definition agreement : AgentAgreement :=
  {| ag_Body := prepared; AuthorizationEvidence := [evidence "bob" "pb" targetB "from-bob"; evidence "alice" "pa" targetA "from-alice"] |}.

Definition authorize : IntentAuthorityResolver := fun _ key _ => fail_if (negb (streq key public)) "untrusted key"%string.
Definition now : Time := UnixTime 1700001000.

Lemma sign_size m : slen (Sign m) = SignatureSize.
Proof. unfold Sign. by rewrite slen_app, Sum256_length. Qed.
Lemma sign_verifies m : ed25519_Verify public m (Sign m) = true.
Proof. exact (proj2 (streq_true (Sign m) (Sign m)) eq_refl). Qed.

Lemma prepare_sample : PrepareAgreementTargets body = Ok prepared.
Proof. vm_compute. reflexivity. Qed.
Lemma authorized_sample : ValidateAgreementAuthorization agreement (Some (VerifyAgreementEvidence (Some authorize))) now = Ok tt.
Proof. vm_compute. reflexivity. Qed.

(** With one evidence object missing the agreement is not authorized, and a cycle is refused. *)
Example partial_sample :
  ValidateAgreementAuthorization {| ag_Body := prepared; AuthorizationEvidence := [evidence "bob" "pb" targetB "from-bob"] |}
    (Some (VerifyAgreementEvidence (Some authorize))) now = Err "agreement authorization predicate is unsatisfied"%string /\
  agreementHasCycle (list_to_map [("delivery", obligation "delivery" "work" "alice" "bob" "pa" ["payment"] None); ("payment", payment)]%string) = true.
Proof. vm_compute. split; reflexivity. Qed.

(** An acceptance that lists no targets makes [AgentSignatureEvidence] index out of range. *)
Example short_acceptance_panics :
  AgentSignatureEvidence prepared
    {| acc_Body := {| acc_AgreementID := "agreement"; acc_AgreementVersion := 1; acc_AgreementBodyDigest := bodyDigest;
                      AcceptingSubject := agent "alice"; AcceptedRoles := []; acc_PredicateIDs := ["pa"%string];
                      acc_EvidenceTargetProjectionDigests := []; acc_ExpiresAtUnix := 1700003000 |};
       acc_PublicKey := ""; acc_Signature := "" |} = Panic "index out of range".
Proof. vm_compute. reflexivity. Qed.

Definition obligations : gmap string AgreementObligation := {["delivery"%string := delivery; "payment"%string := payment]}.

Lemma cycle_search_exact_witness :
  agreementHasCycleIn obligations ["payment"%string; "delivery"%string] = Some (agreementHasCycle obligations) /\
  agreementHasCycle obligations = false.
Proof.
  split; [|vm_compute; reflexivity].
  exact (proj1 (cycle_search_exact obligations ["payment"%string; "delivery"%string] ltac:(vm_compute; by constructor))).
Defined.

Lemma prepared_agreement_validates_witness : ValidateAgreementBody prepared = Ok tt.
Proof. exact (prepared_agreement_validates body prepared prepare_sample). Defined.

Lemma target_determines_agreement_witness : targetA ∈ targets prepared /\
  forall b, ValidateAgreementBody b = Ok tt -> targetA ∈ targets b -> b = prepared \/ collision_between (agreement_texts b) (agreement_texts prepared).
Proof.
  assert (targetA ∈ targets prepared) as H by (vm_compute; by left). split; [exact H|]. intros b Hb Ht.
  exact (target_determines_agreement b prepared targetA Hb (prepared_agreement_validates body prepared prepare_sample) Ht H).
Defined.

Lemma authorized_obligations_accepted_witness :
  (Before now (UnixTime (ab_ValidFromUnix prepared)) = false /\ Before now (UnixTime (ab_ExpiresAtUnix prepared)) = true) /\
  exists p e, p ∈ AuthorizationPredicates prepared /\ e ∈ AuthorizationEvidence agreement /\
    "payment"%string ∈ ObligationIDs p /\
    ((SubjectKind (AuthoritySubject p) = "agent"%string /\ SubjectIdentifier (AuthoritySubject p) = "bob"%string) \/
     (SubjectKind (AuthoritySubject p) <> "agent"%string /\ RepresentedAgentID (AuthoritySubject p) = "bob"%string)) /\
    accepted prepared p (VerifyAgreementEvidence (Some authorize)) now e.
Proof. exact (authorized_obligations_accepted agreement _ now payment authorized_sample ltac:(right; left)). Defined.

Lemma valid_agreement_well_founded_witness :
  well_founded (fun d o => exists x, x ∈ Obligations prepared /\ ObligationID x = o /\ d ∈ DependsOnObligationIDs x).
Proof.
  exact (proj2 (proj2 (proj2 (valid_agreement_well_founded prepared (prepared_agreement_validates body prepared prepare_sample))))).
Defined.

Lemma acceptance_roundtrip_witness :
  VerifyAgreementEvidence (Some authorize) (evidence "alice" "pa" targetA "from-alice") now = Ok tt.
Proof.
  apply (acceptance_roundtrip Sign public eq_refl sign_size sign_verifies prepared
           (acceptanceBody "alice" "pa" targetA) fromAlice _ authorize now); vm_compute; reflexivity.
Defined.

Lemma agreement_validation_total_witness :
  no_panic (ValidateAgreementBody prepared) /\
  no_panic (ValidateAgreementAuthorization agreement (Some (fun _ _ => Ok tt)) now) /\
  no_panic (ValidatePartialAgreementAuthorization agreement (Some (fun _ _ => Ok tt)) now).
Proof.
  exact (agreement_validation_total (fun d => mk_is_Some (marshal_descriptor d) (pd_ProfileURI d) eq_refl) agreement (fun _ _ => Ok tt) now (fun _ _ => I)).
Defined.
End Sample.
