(* ===== verification/Payment.v ===== *)
(** * Agreement payments (src/pkg/agentcommerce/payment.go)

    A payment request names one obligation instance, its exact amount and its
    destination, and carries the stable identity of the payment action.  This file
    models the builders, the validator and the material an authority re-derives, and
    proves that built requests validate and that an identity determines the payment. *)

From Stdlib Require Import QArith.
From S2P Require Import Prelude Text Sha256 Codec Semantic Authority Amounts Billing.
Open Scope Z_scope.

(** ** Data *)

Record AgreementPaymentRequest := {
  pay_SchemaVersion : Z; OwnerID : string; AgentID : string; pay_AgreementBodyDigest : string; AgreementObligationID : string;
  ObligationInstanceID : string; PayerAgentID : string; PayeeAgentID : string; pay_NetworkID : string;
  NetworkDomainDigest : string; pay_Amount : AgreementAmount; Destination : string; SettlementAdapterURI : string;
  SemanticActionKind : string; AdapterProfileDigest : string; ExternalSystemID : string; pay_StableActionID : string;
  pay_ExpiresAtUnix : Z }.

Record AgreementPaymentEvidence := {
  PaymentRequestDigest : string; pe_StableActionID : string; ExactTransferReference : string; AdapterEvidenceProfile : string;
  ResolvedState : string; ResolvedAtUnix : Z; FinalityReference : string; Evidence : string }.

(** The structures whose digests name the asset and the destination. *)
Record PaymentAsset := { as_Namespace : string; as_Identifier : string; as_Unit : string }.
Record PaymentDestination := {
  de_NetworkID : string; de_NetworkDomainDigest : option string; de_AdapterURI : string; de_Destination : string }.

(** codec.Marshal of the documents of this file *)
Class PaymentCodec := {
  marshal_asset : PaymentAsset -> option string;
  marshal_amount : AgreementAmount -> option string;
  marshal_destination : PaymentDestination -> option string;
  marshal_payment : AgreementPaymentRequest -> option string }.

Section Payment.
Context `{P : PaymentCodec}.

(** ** Component digests *)

Definition assetDigest (amount : AgreementAmount) : result string string :=
  Digest "tos.agreement-payment-asset.v1"
    (marshal_asset {| as_Namespace := aa_AssetNamespace amount; as_Identifier := aa_AssetIdentifier amount; as_Unit := aa_Unit amount |}).

Definition amountDigest (amount : AgreementAmount) : result string string :=
  Digest "tos.agreement-payment-amount.v1" (marshal_amount amount).

(** The released form has no domain; a domain-bound payment adds it. *)
Definition agreementPaymentDestinationDigest (networkID networkDomainDigest adapterURI destination : string) : result string string :=
  Digest "tos.agreement-payment-destination.v1"
    (marshal_destination {| de_NetworkID := networkID;
                            de_NetworkDomainDigest := (if streq networkDomainDigest "" then None else Some networkDomainDigest);
                            de_AdapterURI := adapterURI; de_Destination := destination |}).

Definition paymentComponentDigests (networkID adapterURI destination : string) (amount : AgreementAmount)
  : result string (string * string * string) :=
  asset ← assetDigest amount;
  amountD ← amountDigest amount;
  destinationD ← agreementPaymentDestinationDigest networkID "" adapterURI destination;
  Ok (asset, amountD, destinationD).

(** [digest, _ := ...]: an error leaves the empty text. *)
Definition or_empty (r : result string string) : string := match r with Ok s => s | _ => "" end.

(** ** The semantic fields of a request *)

Definition PaymentActionKind (request : AgreementPaymentRequest) : string :=
  if pay_SchemaVersion request =? 2 then "settlement.external"
  else if pay_SchemaVersion request =? 3 then "payment.domain-bound"
  else "payment.direct".

Definition commonFields (owner agent agreement instance payer payee asset destination : string) : list (string * SemanticValue) :=
  [("owner_id", ID owner); ("agent_id", ID agent); ("agreement_body_digest", Digest32 agreement);
   ("obligation_instance_id", Digest32 instance); ("payer_id", ID payer); ("payee_id", ID payee);
   ("asset_digest", Digest32 asset); ("destination_digest", Digest32 destination)]%string.

Definition directFields (common : list (string * SemanticValue)) (amountAtomic networkID networkDomainDigest : string) (bound : bool)
  : SemanticValues :=
  list_to_map (common ++
    [("amount_atomic"%string, ID amountAtomic);
     if bound then ("network_domain_digest"%string, Digest32 networkDomainDigest) else ("network_id"%string, ID networkID)]).

Definition externalFields (common : list (string * SemanticValue)) (profile system amountD : string) : SemanticValues :=
  list_to_map (common ++ [("adapter_profile_digest"%string, Digest32 profile); ("system_id"%string, ID system);
                          ("amount_digest"%string, Digest32 amountD)]).

Definition requestFields (request : AgreementPaymentRequest) : SemanticValues :=
  let common := commonFields (OwnerID request) (AgentID request) (pay_AgreementBodyDigest request) (ObligationInstanceID request)
    (PayerAgentID request) (PayeeAgentID request) (or_empty (assetDigest (pay_Amount request)))
    (or_empty (agreementPaymentDestinationDigest (pay_NetworkID request) (NetworkDomainDigest request)
                 (SettlementAdapterURI request) (Destination request))) in
  if (pay_SchemaVersion request =? 1) || (pay_SchemaVersion request =? 3) then
    directFields common (aa_AmountAtomic (pay_Amount request)) (pay_NetworkID request) (NetworkDomainDigest request)
      (negb (pay_SchemaVersion request =? 1))
  else externalFields common (AdapterProfileDigest request) (ExternalSystemID request) (or_empty (amountDigest (pay_Amount request))).

(** ** Validation *)

Definition ValidateAgreementPaymentRequest (request : AgreementPaymentRequest) : result string unit :=
  let version n := pay_SchemaVersion request =? n in
  fail_if ((negb (version 1) && negb (version 2) && negb (version 3)) ||
           negb (boundedIdentifier (OwnerID request) 256) || negb (boundedIdentifier (AgentID request) 256) ||
           negb (canonicalDigestPattern (pay_AgreementBodyDigest request)) ||
           negb (boundedIdentifier (AgreementObligationID request) 128) ||
           negb (canonicalDigestPattern (ObligationInstanceID request)) || negb (boundedIdentifier (PayerAgentID request) 256) ||
           negb (boundedIdentifier (PayeeAgentID request) 256) || negb (boundedIdentifier (pay_NetworkID request) 128) ||
           (negb (streq (NetworkDomainDigest request) "") && negb (canonicalDigestPattern (NetworkDomainDigest request))) ||
           negb (validateAgreementAmount (pay_Amount request)) || streq (aa_AmountAtomic (pay_Amount request)) "" ||
           (slen (Destination request) =? 0) || (65536 <? slen (Destination request)) ||
           negb (boundedIdentifier (SettlementAdapterURI request) 256) ||
           negb (canonicalDigestPattern (pay_StableActionID request)) || (pay_ExpiresAtUnix request =? 0))
    "Agreement payment request is invalid"%string;;
  let plain := streq (SemanticActionKind request) "" && streq (AdapterProfileDigest request) "" && streq (ExternalSystemID request) "" in
  fail_if ((version 1 && (negb (streq (NetworkDomainDigest request) "") || negb plain)) ||
           (version 2 && (negb (streq (SemanticActionKind request) "settlement.external") ||
                          negb (canonicalDigestPattern (AdapterProfileDigest request)) ||
                          negb (boundedIdentifier (ExternalSystemID request) 256) || negb (streq (NetworkDomainDigest request) ""))) ||
           (version 3 && (negb (canonicalDigestPattern (NetworkDomainDigest request)) || negb plain)))
    "Agreement payment action profile is invalid"%string;;
  let mismatch := "Agreement payment semantic identity mismatch"%string in
  let kind := if version 1 || version 3 then PaymentActionKind request else SemanticActionKind request in
  want ← or_err (DeriveStableActionID kind (requestFields request)) mismatch;
  fail_if (negb (streq want.1 (pay_StableActionID request))) mismatch.

Definition AgreementPaymentRequestDigest (request : AgreementPaymentRequest) : result string string :=
  ValidateAgreementPaymentRequest request;;
  Digest "tos.agreement-payment-request.v1" (marshal_payment request).

Definition PaymentAuthorizationMaterial (request : AgreementPaymentRequest) : result string (string * SemanticValues) :=
  ValidateAgreementPaymentRequest request;;
  canonical ← opt_err (marshal_payment request) codecErr;
  Ok (canonical, requestFields request).

(** ** Building *)

Definition buildAgreementPaymentRequestAmount (ownerID agentID networkID networkDomainDigest destination : string)
    (obligation : SettlementObligation) (requested : AgreementAmount) : result string AgreementPaymentRequest :=
  let invalid := "direct payment input is invalid"%string in
  or_err (ValidateSettlementObligation obligation) invalid;;
  let amount := so_Amount obligation in
  fail_if (negb (boundedIdentifier ownerID 256) || negb (boundedIdentifier agentID 256) || negb (boundedIdentifier networkID 128) ||
           (slen destination =? 0) || (65536 <? slen destination) || streq (aa_AmountAtomic amount) "" ||
           (negb (streq networkDomainDigest "") && negb (canonicalDigestPattern networkDomainDigest)) ||
           negb (validateAgreementAmount requested) || negb (streq (aa_AssetNamespace requested) (aa_AssetNamespace amount)) ||
           negb (streq (aa_AssetIdentifier requested) (aa_AssetIdentifier amount)) || negb (streq (aa_Unit requested) (aa_Unit amount)) ||
           streq (aa_AmountAtomic requested) "" || (0 <? compareAmounts requested amount) || amountIsZero requested) invalid;;
  asset ← assetDigest amount;
  destinationD ← agreementPaymentDestinationDigest networkID networkDomainDigest (so_SettlementAdapterURI obligation) destination;
  let bound := negb (streq networkDomainDigest "") in
  let fields := directFields (commonFields ownerID agentID (so_AgreementBodyDigest obligation) (so_ObligationInstanceID obligation)
                                (so_PayerAgentID obligation) (so_PayeeAgentID obligation) asset destinationD)
                  (aa_AmountAtomic requested) networkID networkDomainDigest bound in
  action ← DeriveStableActionID (if bound then "payment.domain-bound" else "payment.direct") fields;
  fail_if (so_ExpiresAtUnix obligation =? 0) "direct payment requires an exact expiry"%string;;
  Ok {| pay_SchemaVersion := (if bound then 3 else 1); OwnerID := ownerID; AgentID := agentID;
        pay_AgreementBodyDigest := so_AgreementBodyDigest obligation; AgreementObligationID := so_AgreementObligationID obligation;
        ObligationInstanceID := so_ObligationInstanceID obligation; PayerAgentID := so_PayerAgentID obligation;
        PayeeAgentID := so_PayeeAgentID obligation; pay_NetworkID := networkID; NetworkDomainDigest := networkDomainDigest;
        pay_Amount := requested; Destination := destination; SettlementAdapterURI := so_SettlementAdapterURI obligation;
        SemanticActionKind := ""; AdapterProfileDigest := ""; ExternalSystemID := ""; pay_StableActionID := action.1;
        pay_ExpiresAtUnix := so_ExpiresAtUnix obligation |}.

Definition BuildAgreementPaymentRequest (ownerID agentID networkID destination : string) (obligation : SettlementObligation)
  : result string AgreementPaymentRequest :=
  buildAgreementPaymentRequestAmount ownerID agentID networkID "" destination obligation (so_Amount obligation).

Definition BuildDomainBoundAgreementPaymentRequest (ownerID agentID networkID networkDomainDigest destination : string)
    (obligation : SettlementObligation) : result string AgreementPaymentRequest :=
  buildAgreementPaymentRequestAmount ownerID agentID networkID networkDomainDigest destination obligation (so_Amount obligation).

Definition BuildAgreementPaymentRequestAmount (ownerID agentID networkID destination : string) (obligation : SettlementObligation)
    (requested : AgreementAmount) : result string AgreementPaymentRequest :=
  buildAgreementPaymentRequestAmount ownerID agentID networkID "" destination obligation requested.

Definition BuildExternalAgreementPaymentRequestAmount (ownerID agentID networkID systemID adapterProfileDigest destination : string)
    (obligation : SettlementObligation) (requested : AgreementAmount) : result string AgreementPaymentRequest :=
  let invalid := "external payment input is invalid"%string in
  or_err (ValidateSettlementObligation obligation) invalid;;
  let amount := so_Amount obligation in
  fail_if (negb (boundedIdentifier ownerID 256) || negb (boundedIdentifier agentID 256) || negb (boundedIdentifier networkID 128) ||
           negb (boundedIdentifier systemID 256) || negb (canonicalDigestPattern adapterProfileDigest) ||
           (slen destination =? 0) || (65536 <? slen destination) ||
           negb (validateAgreementAmount requested) || negb (streq (aa_AssetNamespace requested) (aa_AssetNamespace amount)) ||
           negb (streq (aa_AssetIdentifier requested) (aa_AssetIdentifier amount)) || negb (streq (aa_Unit requested) (aa_Unit amount)) ||
           (0 <? compareAmounts requested amount) || amountIsZero requested) invalid;;
  digests ← paymentComponentDigests networkID (so_SettlementAdapterURI obligation) destination requested;
  let '(asset, amountD, destinationD) := digests in
  let fields := externalFields (commonFields ownerID agentID (so_AgreementBodyDigest obligation) (so_ObligationInstanceID obligation)
                                  (so_PayerAgentID obligation) (so_PayeeAgentID obligation) asset destinationD)
                  adapterProfileDigest systemID amountD in
  action ← DeriveStableActionID "settlement.external" fields;
  fail_if (so_ExpiresAtUnix obligation =? 0) "external payment requires an exact expiry"%string;;
  Ok {| pay_SchemaVersion := 2; OwnerID := ownerID; AgentID := agentID;
        pay_AgreementBodyDigest := so_AgreementBodyDigest obligation; AgreementObligationID := so_AgreementObligationID obligation;
        ObligationInstanceID := so_ObligationInstanceID obligation; PayerAgentID := so_PayerAgentID obligation;
        PayeeAgentID := so_PayeeAgentID obligation; pay_NetworkID := networkID; NetworkDomainDigest := "";
        pay_Amount := requested; Destination := destination; SettlementAdapterURI := so_SettlementAdapterURI obligation;
        SemanticActionKind := "settlement.external"; AdapterProfileDigest := adapterProfileDigest; ExternalSystemID := systemID;
        pay_StableActionID := action.1; pay_ExpiresAtUnix := so_ExpiresAtUnix obligation |}.

(** [verify] is the evidence verifier of the settlement adapter, when one is configured. *)
Definition VerifyAgreementPaymentEvidence (request : AgreementPaymentRequest) (evidence : AgreementPaymentEvidence)
    (verify : option (AgreementPaymentRequest -> AgreementPaymentEvidence -> Time -> result string unit)) (now : Time)
  : result string unit :=
  let context := "Agreement payment verification context is invalid or expired"%string in
  or_err (ValidateAgreementPaymentRequest request) context;;
  verify ← opt_err verify context;
  fail_if (negb (Before now (UnixTime (pay_ExpiresAtUnix request)))) context;;
  let unrelated := "Agreement payment evidence is invalid or unrelated"%string in
  digest ← or_err (AgreementPaymentRequestDigest request) unrelated;
  fail_if (negb (streq (PaymentRequestDigest evidence) digest) || negb (streq (pe_StableActionID evidence) (pay_StableActionID request)) ||
           negb (boundedIdentifier (ExactTransferReference evidence) 1024) ||
           negb (boundedIdentifier (AdapterEvidenceProfile evidence) 256) || negb (streq (ResolvedState evidence) "finalized") ||
           (ResolvedAtUnix evidence =? 0) || (wrap64 (unixSeconds now) <? ResolvedAtUnix evidence) ||
           negb (boundedIdentifier (FinalityReference evidence) 1024) || (slen (Evidence evidence) =? 0) ||
           (2 ^ 20 <? slen (Evidence evidence))) unrelated;;
  verify request evidence now.

(** ** A built request validates *)

#[local] Opaque DeriveStableActionID.

(** Projections of a request that is a record. *)
Ltac payment_cbn :=
  cbn [pay_SchemaVersion OwnerID AgentID pay_AgreementBodyDigest AgreementObligationID ObligationInstanceID PayerAgentID PayeeAgentID
       pay_NetworkID NetworkDomainDigest pay_Amount Destination SettlementAdapterURI SemanticActionKind AdapterProfileDigest
       ExternalSystemID pay_StableActionID pay_ExpiresAtUnix Z.eqb Pos.eqb andb orb negb fst snd].

Lemma derived_pattern kind values action : DeriveStableActionID kind values = Ok action -> canonicalDigestPattern action.1 = true.
Proof. destruct action as [id encoded]. intros (? & ? & _ & _ & _ & -> & _)%derive_Ok. apply digest_pattern. Qed.

(** What a valid settlement obligation gives a request. *)
Lemma obligation_facts obligation u : ValidateSettlementObligation obligation = Ok u ->
  canonicalDigestPattern (so_AgreementBodyDigest obligation) = true /\ boundedIdentifier (so_AgreementObligationID obligation) 128 = true /\
  canonicalDigestPattern (so_ObligationInstanceID obligation) = true /\ boundedIdentifier (so_PayerAgentID obligation) 256 = true /\
  boundedIdentifier (so_PayeeAgentID obligation) 256 = true /\ boundedIdentifier (so_SettlementAdapterURI obligation) 256 = true /\
  validateAgreementAmount (so_Amount obligation) = true.
Proof.
  unfold ValidateSettlementObligation. intros H. apply bind_Ok in H as (? & H & _). apply fail_if_Ok in H.
  rewrite !orb_false_iff, !negb_false_iff in H. by destruct_and?.
Qed.

Lemma requested_le requested amount : validateAgreementAmount requested = true -> validateAgreementAmount amount = true ->
  sameProfile requested amount = true -> (0 <? compareAmounts requested amount) = false -> (amount_value requested <= amount_value amount)%Q.
Proof.
  intros Hr%valid_readable Ha%valid_readable Hp Hc. rewrite (compare_exact _ _ Hr Ha Hp) in Hc.
  apply Qle_alt. intros E. rewrite E in Hc. discriminate Hc.
Qed.

(** The guards of a builder, with the equality tests as equations. *)
Ltac builder_facts H :=
  apply fail_if_Ok in H; rewrite !orb_false_iff, ?negb_false_iff in H; destruct_and?;
  repeat match goal with E : streq ?a ?b = true |- _ => apply streq_true in E end.

(** What the validator asks of a request, as propositions. *)
Record payment_shape (r : AgreementPaymentRequest) : Prop := {
  ps_version : pay_SchemaVersion r = 1 \/ pay_SchemaVersion r = 2 \/ pay_SchemaVersion r = 3;
  ps_owner : boundedIdentifier (OwnerID r) 256 = true;
  ps_agent : boundedIdentifier (AgentID r) 256 = true;
  ps_agreement : canonicalDigestPattern (pay_AgreementBodyDigest r) = true;
  ps_obligation : boundedIdentifier (AgreementObligationID r) 128 = true;
  ps_instance : canonicalDigestPattern (ObligationInstanceID r) = true;
  ps_payer : boundedIdentifier (PayerAgentID r) 256 = true;
  ps_payee : boundedIdentifier (PayeeAgentID r) 256 = true;
  ps_network : boundedIdentifier (pay_NetworkID r) 128 = true;
  ps_amount : validateAgreementAmount (pay_Amount r) = true;
  ps_atomic : aa_AmountAtomic (pay_Amount r) <> ""%string;
  ps_destination : 0 < slen (Destination r) <= 65536;
  ps_adapter : boundedIdentifier (SettlementAdapterURI r) 256 = true;
  ps_expiry : pay_ExpiresAtUnix r <> 0;
  ps_domain : if pay_SchemaVersion r =? 3 then canonicalDigestPattern (NetworkDomainDigest r) = true else NetworkDomainDigest r = ""%string;
  ps_profile :
    if pay_SchemaVersion r =? 2
    then SemanticActionKind r = "settlement.external"%string /\ canonicalDigestPattern (AdapterProfileDigest r) = true /\
         boundedIdentifier (ExternalSystemID r) 256 = true
    else SemanticActionKind r = ""%string /\ AdapterProfileDigest r = ""%string /\ ExternalSystemID r = ""%string }.

Definition payment_identity (r : AgreementPaymentRequest) : Prop :=
  exists encoded, DeriveStableActionID (PaymentActionKind r) (requestFields r) = Ok (pay_StableActionID r, encoded).

Lemma streq_refl a : streq a a = true.
Proof. by apply streq_true. Qed.

(** Guards as facts: the negated tests of a passed guard, as equations and bounds. *)
Ltac bool_facts :=
  repeat match goal with
  | H : _ && _ = true |- _ => apply andb_true_iff in H as [??]
  | H : _ || _ = false |- _ => apply orb_false_iff in H as [??]
  | H : negb _ = false |- _ => apply negb_false_iff in H
  | H : streq _ _ = true |- _ => apply streq_true in H
  | H : streq _ _ = false |- _ => apply bool_decide_eq_false in H
  | H : (_ =? _) = true |- _ => apply Z.eqb_eq in H
  | H : (_ =? _) = false |- _ => apply Z.eqb_neq in H
  | H : (_ <? _) = false |- _ => apply Z.ltb_ge in H
  end.

Lemma version_cases v : negb (v =? 1) && negb (v =? 2) && negb (v =? 3) = false -> v = 1 \/ v = 2 \/ v = 3.
Proof. lia. Qed.

Lemma payment_valid_shape r : ValidateAgreementPaymentRequest r = Ok tt -> payment_shape r /\ payment_identity r.
Proof.
  unfold ValidateAgreementPaymentRequest, payment_identity, PaymentActionKind.
  intros H. apply bind_Ok in H as (? & Hg & H). apply bind_Ok in H as (? & Hp & H). apply bind_Ok in H as ([id encoded] & Hd & H).
  apply or_err_Ok in Hd. apply fail_if_Ok, negb_false_iff, streq_true in H. cbn [fst] in H. subst id.
  apply fail_if_Ok in Hg. apply fail_if_Ok in Hp. rewrite !orb_false_iff in Hg. rewrite !orb_false_iff in Hp. destruct_and?.
  match goal with E : negb _ && negb _ && negb _ = false |- _ => pose proof (version_cases _ E) as V; clear E end.
  assert (0 <= slen (Destination r)) by apply slen_nonneg.
  destruct V as [V|[V|V]]; rewrite V in *; cbn [Z.eqb Pos.eqb andb orb negb] in *; bool_facts.
  - split; [|by exists encoded]. constructor; rewrite ?V; cbn [Z.eqb Pos.eqb]; auto; lia.
  - split; [constructor; rewrite ?V; cbn [Z.eqb Pos.eqb]; auto; lia|]. exists encoded.
    match goal with E : SemanticActionKind r = _ |- _ => rewrite E in Hd end. exact Hd.
  - split; [|by exists encoded]. constructor; rewrite ?V; cbn [Z.eqb Pos.eqb]; auto; lia.
Qed.

Lemma payment_shape_valid r : payment_shape r -> payment_identity r -> ValidateAgreementPaymentRequest r = Ok tt.
Proof.
  intros [V] [encoded Hd]. pose proof (derived_pattern _ _ _ Hd) as Hpat. cbn [fst] in Hpat. unfold ValidateAgreementPaymentRequest.
  assert (streq (aa_AmountAtomic (pay_Amount r)) "" = false) as -> by (by apply bool_decide_eq_false).
  assert ((slen (Destination r) =? 0) = false) as -> by lia. assert ((65536 <? slen (Destination r)) = false) as -> by lia.
  assert ((pay_ExpiresAtUnix r =? 0) = false) as -> by lia.
  repeat match goal with E : _ = true |- _ => rewrite E end. unfold PaymentActionKind in *.
  destruct V as [V|[V|V]]; rewrite V in *; cbn [Z.eqb Pos.eqb andb orb negb] in *; destruct_and?;
    repeat match goal with E : _ = true |- _ => rewrite E end;
    repeat match goal with E : ?f r = _%string |- context [?f r] => rewrite E end; cbn -[DeriveStableActionID requestFields];
    rewrite ?orb_false_r, ?andb_false_r; cbn -[DeriveStableActionID requestFields]; rewrite Hd; cbn; by rewrite streq_refl.
Qed.

Lemma or_empty_Ok r a : r = Ok a -> or_empty r = a.
Proof. by intros ->. Qed.

(** The asset digest reads the names of the amount only. *)
Lemma assetDigest_same a b : sameProfile a b = true -> assetDigest a = assetDigest b.
Proof. unfold sameProfile, assetDigest. intros H. bool_facts. congruence. Qed.

Lemma atomic_profile requested amount : aa_AssetNamespace requested = aa_AssetNamespace amount ->
  aa_AssetIdentifier requested = aa_AssetIdentifier amount -> aa_Unit requested = aa_Unit amount ->
  aa_AmountAtomic requested <> ""%string -> aa_AmountAtomic amount <> ""%string -> sameProfile requested amount = true.
Proof.
  unfold sameProfile. intros -> -> -> H1%nonempty_true H2%nonempty_true. by rewrite !streq_refl, H1, H2.
Qed.

Lemma built_direct owner agent network domain destination obligation requested r :
  buildAgreementPaymentRequestAmount owner agent network domain destination obligation requested = Ok r ->
  payment_shape r /\ payment_identity r /\ pay_Amount r = requested /\
  sameProfile requested (so_Amount obligation) = true /\ (0 <? compareAmounts requested (so_Amount obligation)) = false /\
  validateAgreementAmount (so_Amount obligation) = true.
Proof.
  unfold buildAgreementPaymentRequestAmount. intros H. apply bind_Ok in H as (? & Hob & H). apply or_err_Ok, obligation_facts in Hob.
  apply bind_Ok in H as (? & Hg & H). apply bind_Ok in H as (asset & Hasset & H). apply bind_Ok in H as (dest & Hdest & H).
  apply bind_Ok in H as ([id encoded] & Hact & H). apply bind_Ok in H as (? & Hexp & H). injection H as <-.
  apply fail_if_Ok in Hg. apply fail_if_Ok in Hexp. rewrite !orb_false_iff in Hg. destruct_and?.
  destruct (streq domain "") eqn:Hd; cbn [negb andb] in *; bool_facts; subst; assert (0 <= slen destination) by apply slen_nonneg;
    assert (sameProfile requested (so_Amount obligation) = true) as Hp by (apply atomic_profile; assumption);
    rewrite <-(assetDigest_same _ _ Hp) in Hasset;
    (split; [constructor; payment_cbn; auto; lia|]); (split; [|repeat split; rewrite ?Z.ltb_ge; assumption]); exists encoded; unfold requestFields, PaymentActionKind; payment_cbn;
    rewrite (or_empty_Ok _ _ Hasset), (or_empty_Ok _ _ Hdest); exact Hact.
Qed.

Lemma built_external owner agent network system profile destination obligation requested r :
  BuildExternalAgreementPaymentRequestAmount owner agent network system profile destination obligation requested = Ok r ->
  (aa_AmountAtomic requested <> ""%string -> payment_shape r) /\ payment_identity r /\ pay_Amount r = requested.
Proof.
  unfold BuildExternalAgreementPaymentRequestAmount, paymentComponentDigests. intros H. apply bind_Ok in H as (? & Hob & H).
  apply or_err_Ok, obligation_facts in Hob. apply bind_Ok in H as (? & Hg & H). apply bind_Ok in H as ([[asset amountD] dest] & Hds & H).
  apply bind_Ok in Hds as (asset' & Hasset & Hds). apply bind_Ok in Hds as (amountD' & Hamount & Hds).
  apply bind_Ok in Hds as (dest' & Hdest & Hds). injection Hds as <- <- <-.
  apply bind_Ok in H as ([id encoded] & Hact & H). apply bind_Ok in H as (? & Hexp & H). injection H as <-.
  apply fail_if_Ok in Hg. apply fail_if_Ok in Hexp. rewrite !orb_false_iff in Hg. destruct_and?. bool_facts.
  assert (0 <= slen destination) by apply slen_nonneg. split; [|split; [|reflexivity]].
  - intros Ha. constructor; payment_cbn; auto; lia.
  - exists encoded. unfold requestFields, PaymentActionKind. payment_cbn. rewrite (or_empty_Ok _ _ Hasset), (or_empty_Ok _ _ Hdest), (or_empty_Ok _ _ Hamount). exact Hact.
Qed.

Lemma built_direct_valid owner agent network domain destination obligation requested r :
  buildAgreementPaymentRequestAmount owner agent network domain destination obligation requested = Ok r ->
  ValidateAgreementPaymentRequest r = Ok tt.
Proof. intros (Hs & Hi & _)%built_direct. by apply payment_shape_valid. Qed.

(** A payment request the direct builders return validates, carries the requested
    amount, and never asks for more than its obligation.  A request of the external
    builder validates exactly when its amount is atomic: the builder accepts a decimal
    amount that the validator refuses. *)
Theorem built_payment_validates (owner agent network destination : string) (obligation : SettlementObligation) (requested : AgreementAmount)
    (r : AgreementPaymentRequest) :
  (forall domain, buildAgreementPaymentRequestAmount owner agent network domain destination obligation requested = Ok r ->
     ValidateAgreementPaymentRequest r = Ok tt /\ pay_Amount r = requested /\
     (amount_value (pay_Amount r) <= amount_value (so_Amount obligation))%Q) /\
  (forall system profile,
     BuildExternalAgreementPaymentRequestAmount owner agent network system profile destination obligation requested = Ok r ->
     ValidateAgreementPaymentRequest r = Ok tt <-> aa_AmountAtomic requested <> ""%string).
Proof.
  split.
  - intros domain (Hs & Hi & <- & Hp & Hc & Hv)%built_direct. split; [by apply payment_shape_valid|]. split; [done|].
    apply requested_le; [apply Hs|done..].
  - intros system profile (Hs & Hi & Ha)%built_external. split.
    + intros [V _]%payment_valid_shape. rewrite <-Ha. apply V.
    + intros H. apply payment_shape_valid; [by apply Hs|done].
Qed.

(** ** An identity determines its payment *)

(** Association lists with the same distinct keys are equal when their maps are. *)
Lemma list_to_map_keys_inj {A} (l1 l2 : list (string * A)) : NoDup l1.*1 -> l1.*1 = l2.*1 ->
  (list_to_map l1 : gmap string A) = list_to_map l2 -> l1 = l2.
Proof.
  revert l2. induction l1 as [|[k a] l1 IH]; intros [|[k' b] l2] Hnd Hk Hm; try discriminate; [done|].
  cbn in *. injection Hk as <- Hk. apply NoDup_cons in Hnd as [Hn Hnd].
  assert (a = b) as <-. { apply (f_equal (.!! k)) in Hm. rewrite !lookup_insert_eq in Hm. congruence. }
  f_equal. apply IH; [done..|]. apply (f_equal (delete k)) in Hm.
  rewrite !delete_insert_id in Hm; [done|by apply not_elem_of_list_to_map_1; rewrite <-?Hk..].
Qed.

(** The canonical encoding tells its documents apart. *)
Class PaymentCodecLaws : Prop := {
  marshal_asset_inj a b e : marshal_asset a = Some e -> marshal_asset b = Some e -> a = b;
  marshal_amount_inj a b e : marshal_amount a = Some e -> marshal_amount b = Some e -> a = b;
  marshal_destination_inj a b e : marshal_destination a = Some e -> marshal_destination b = Some e -> a = b }.

(** The text a document's digest is the hash of. *)
Definition document_text (domain : string) (marshalled : option string) : string := digestPreimage domain (default ""%string marshalled).

Lemma or_empty_inj {A} (marshal : A -> option string) (inj : forall a b e, marshal a = Some e -> marshal b = Some e -> a = b) domain a b :
  canonicalDigestPattern (or_empty (Digest domain (marshal a))) = true ->
  or_empty (Digest domain (marshal a)) = or_empty (Digest domain (marshal b)) ->
  a = b \/ collides (document_text domain (marshal a)) (document_text domain (marshal b)).
Proof.
  intros Hp He. destruct (Digest domain (marshal a)) as [d| |] eqn:Ha; [|discriminate Hp..].
  destruct (Digest domain (marshal b)) as [d'| |] eqn:Hb; cbn in He; subst; [|discriminate Hp..].
  destruct (digest_inj _ _ _ _ _ Ha Hb) as [[_ Hm]|]; [left|by right]. unfold Digest in Ha.
  apply bind_Ok in Ha as (? & _ & Ha). apply bind_Ok in Ha as (e & He%opt_err_Ok & _). eapply inj; [exact He|]. by rewrite <-Hm.
Qed.

Lemma kind_version r1 r2 : payment_shape r1 -> payment_shape r2 -> PaymentActionKind r1 = PaymentActionKind r2 ->
  pay_SchemaVersion r1 = pay_SchemaVersion r2.
Proof. intros [V1] [V2]. unfold PaymentActionKind. destruct V1 as [E1|[E1|E1]], V2 as [E2|[E2|E2]]; rewrite E1, E2; done. Qed.

(** The fields of a request, in one list. *)
Definition field_list (r : AgreementPaymentRequest) : list (string * SemanticValue) :=
  commonFields (OwnerID r) (AgentID r) (pay_AgreementBodyDigest r) (ObligationInstanceID r) (PayerAgentID r) (PayeeAgentID r)
    (or_empty (assetDigest (pay_Amount r)))
    (or_empty (agreementPaymentDestinationDigest (pay_NetworkID r) (NetworkDomainDigest r) (SettlementAdapterURI r) (Destination r))) ++
  (if (pay_SchemaVersion r =? 1) || (pay_SchemaVersion r =? 3) then
     [("amount_atomic"%string, ID (aa_AmountAtomic (pay_Amount r)));
      if negb (pay_SchemaVersion r =? 1) then ("network_domain_digest"%string, Digest32 (NetworkDomainDigest r))
      else ("network_id"%string, ID (pay_NetworkID r))]
   else [("adapter_profile_digest"%string, Digest32 (AdapterProfileDigest r)); ("system_id"%string, ID (ExternalSystemID r));
         ("amount_digest"%string, Digest32 (or_empty (amountDigest (pay_Amount r))))]).

Lemma request_fields_list r : requestFields r = list_to_map (field_list r).
Proof.
  unfold requestFields, field_list, directFields, externalFields. by destruct ((pay_SchemaVersion r =? 1) || (pay_SchemaVersion r =? 3)).
Qed.

Lemma field_list_keys r : NoDup (field_list r).*1.
Proof.
  unfold field_list, commonFields. rewrite fmap_app. generalize (or_empty (assetDigest (pay_Amount r))). intros a.
  generalize (or_empty (agreementPaymentDestinationDigest (pay_NetworkID r) (NetworkDomainDigest r) (SettlementAdapterURI r) (Destination r))).
  generalize (or_empty (amountDigest (pay_Amount r))). intros b c.
  destruct (pay_SchemaVersion r =? 1), (pay_SchemaVersion r =? 3); cbn [negb orb fmap list_fmap fst app];
    (eapply bool_decide_eq_true; vm_compute; reflexivity).
Qed.

Lemma listed_digest r n v : payment_identity r -> (n, Digest32 v) ∈ field_list r -> canonicalDigestPattern v = true.
Proof.
  intros [encoded Hd] Hin. eapply derived_digest; [exact Hd|]. rewrite request_fields_list.
  apply elem_of_list_to_map_1; [apply field_list_keys|exact Hin].
Qed.

Lemma listed_same r1 r2 : pay_SchemaVersion r1 = pay_SchemaVersion r2 -> requestFields r1 = requestFields r2 -> field_list r1 = field_list r2.
Proof.
  intros Hv. rewrite !request_fields_list. apply list_to_map_keys_inj; [apply field_list_keys|].
  unfold field_list. rewrite !fmap_app, Hv. f_equal. by destruct (pay_SchemaVersion r2 =? 1), (pay_SchemaVersion r2 =? 3).
Qed.

(** A request with another obligation name and expiry. *)
Definition with_terms (r : AgreementPaymentRequest) (obligationID : string) (expires : Z) : AgreementPaymentRequest :=
  {| pay_SchemaVersion := pay_SchemaVersion r; OwnerID := OwnerID r; AgentID := AgentID r; pay_AgreementBodyDigest := pay_AgreementBodyDigest r;
     AgreementObligationID := obligationID; ObligationInstanceID := ObligationInstanceID r; PayerAgentID := PayerAgentID r;
     PayeeAgentID := PayeeAgentID r; pay_NetworkID := pay_NetworkID r; NetworkDomainDigest := NetworkDomainDigest r;
     pay_Amount := pay_Amount r; Destination := Destination r; SettlementAdapterURI := SettlementAdapterURI r;
     SemanticActionKind := SemanticActionKind r; AdapterProfileDigest := AdapterProfileDigest r; ExternalSystemID := ExternalSystemID r;
     pay_StableActionID := pay_StableActionID r; pay_ExpiresAtUnix := expires |}.

(** The entry at a position of the list. *)
Lemma listed_at r n x : field_list r !! n = Some x -> x ∈ field_list r.
Proof. apply list_elem_of_lookup_2. Qed.

#[local] Opaque Digest.

Lemma digest_at `{L : !PaymentCodecLaws} {A} (marshal : A -> option string)
    (inj : forall a b e, marshal a = Some e -> marshal b = Some e -> a = b) r1 r2 n key domain a b :
  payment_identity r1 -> field_list r1 = field_list r2 ->
  field_list r1 !! n = Some (key, Digest32 (or_empty (Digest domain (marshal a)))) ->
  field_list r2 !! n = Some (key, Digest32 (or_empty (Digest domain (marshal b)))) ->
  a = b \/ collides (document_text domain (marshal a)) (document_text domain (marshal b)).
Proof.
  intros I1 Hf H1 H2. pose proof (listed_digest _ _ _ I1 (listed_at _ _ _ H1)) as Hp.
  rewrite Hf, H2 in H1. injection H1 as E. symmetry in E. exact (or_empty_inj marshal inj _ _ _ Hp E).
Qed.

(** An amount with an atomic text has no other. *)
Lemma atomic_amount a b : validateAgreementAmount a = true -> validateAgreementAmount b = true -> aa_AmountAtomic a <> ""%string ->
  aa_AssetNamespace a = aa_AssetNamespace b -> aa_AssetIdentifier a = aa_AssetIdentifier b -> aa_Unit a = aa_Unit b ->
  aa_AmountAtomic a = aa_AmountAtomic b -> a = b.
Proof.
  intros Xa%valid_exclusive Xb%valid_exclusive Ha. destruct a as [n i t d u], b as [n' i' t' d' u']. unfold exclusive in *. cbn in *.
  intros <- <- <- <-. apply nonempty_true in Ha. rewrite Ha in *. congruence.
Qed.

Lemma atomic_at r1 r2 : payment_shape r1 -> pay_SchemaVersion r1 = pay_SchemaVersion r2 -> field_list r1 = field_list r2 ->
  pay_SchemaVersion r1 <> 2 -> aa_AmountAtomic (pay_Amount r1) = aa_AmountAtomic (pay_Amount r2).
Proof.
  intros [V] Hv Hf H2. assert ((pay_SchemaVersion r1 =? 1) || (pay_SchemaVersion r1 =? 3) = true) as Hk by lia.
  apply (f_equal (.!! 8%nat)) in Hf. unfold field_list in Hf. rewrite <-Hv, Hk in Hf. cbn in Hf. by injection Hf.
Qed.

Lemma amount_at `{L : !PaymentCodecLaws} r1 r2 : payment_identity r1 -> pay_SchemaVersion r1 = pay_SchemaVersion r2 ->
  field_list r1 = field_list r2 -> pay_SchemaVersion r1 = 2 ->
  pay_Amount r1 = pay_Amount r2 \/
  collides (document_text "tos.agreement-payment-amount.v1" (marshal_amount (pay_Amount r1)))
           (document_text "tos.agreement-payment-amount.v1" (marshal_amount (pay_Amount r2))).
Proof.
  intros I1 Hv Hf H2. apply (digest_at marshal_amount marshal_amount_inj r1 r2 10 "amount_digest" "tos.agreement-payment-amount.v1" _ _ I1 Hf).
  - unfold field_list. by rewrite H2.
  - unfold field_list. by rewrite <-Hv, H2.
Qed.

Lemma domain_option a b : (if streq a "" then None else Some a) = (if streq b "" then None else Some b) -> a = b.
Proof.
  destruct (streq a "") eqn:Ea, (streq b "") eqn:Eb; intros H; try discriminate; [|congruence].
  apply streq_true in Ea, Eb. congruence.
Qed.

(** The texts that are hashed to make a request's identity: the action, its asset, its
    destination and, for an external settlement, its amount. *)
Definition payment_texts (r : AgreementPaymentRequest) : list string :=
  [action_text (PaymentActionKind r) (requestFields r);
   document_text "tos.agreement-payment-asset.v1"
     (marshal_asset {| as_Namespace := aa_AssetNamespace (pay_Amount r); as_Identifier := aa_AssetIdentifier (pay_Amount r);
                       as_Unit := aa_Unit (pay_Amount r) |});
   document_text "tos.agreement-payment-destination.v1"
     (marshal_destination {| de_NetworkID := pay_NetworkID r;
                             de_NetworkDomainDigest := (if streq (NetworkDomainDigest r) "" then None else Some (NetworkDomainDigest r));
                             de_AdapterURI := SettlementAdapterURI r; de_Destination := Destination r |})] ++
  (if pay_SchemaVersion r =? 2 then [document_text "tos.agreement-payment-amount.v1" (marshal_amount (pay_Amount r))] else []).

(** The documents behind the digests of two requests with the same fields. *)
Lemma fields_components `{L : !PaymentCodecLaws} r1 r2 : payment_shape r1 -> payment_shape r2 -> payment_identity r1 ->
  pay_SchemaVersion r1 = pay_SchemaVersion r2 -> field_list r1 = field_list r2 ->
  (pay_Amount r1 = pay_Amount r2 /\ pay_NetworkID r1 = pay_NetworkID r2 /\ NetworkDomainDigest r1 = NetworkDomainDigest r2 /\
   SettlementAdapterURI r1 = SettlementAdapterURI r2 /\ Destination r1 = Destination r2) \/
  collision_between (payment_texts r1) (payment_texts r2).
Proof.
  intros S1 S2 I1 Hv Hf.
  destruct (digest_at marshal_asset marshal_asset_inj r1 r2 6 _ _ _ _ I1 Hf eq_refl eq_refl) as [E1|C];
    [|right; exact (texts_between (payment_texts r1) (payment_texts r2) 1 _ _ eq_refl eq_refl C)].
  destruct (digest_at marshal_destination marshal_destination_inj r1 r2 7 _ _ _ _ I1 Hf eq_refl eq_refl) as [E2|C];
    [|right; exact (texts_between (payment_texts r1) (payment_texts r2) 2 _ _ eq_refl eq_refl C)].
  injection E1 as Ens Eid Eunit. injection E2 as Enet Edom%domain_option Eadapter Edest.
  assert (pay_Amount r1 = pay_Amount r2 \/ collision_between (payment_texts r1) (payment_texts r2)) as [Ea|];
    [|left; split_and!; assumption|right; assumption].
  destruct (Z.eq_dec (pay_SchemaVersion r1) 2) as [H2|H2].
  - destruct (amount_at r1 r2 I1 Hv Hf H2) as [E|C]; [left; exact E|right]. refine (texts_between (payment_texts r1) (payment_texts r2) 3 _ _ _ _ C);
      unfold payment_texts; [|rewrite <-Hv]; rewrite H2; reflexivity.
  - left. apply atomic_amount; [apply S1|apply S2|apply S1|assumption..|by apply atomic_at].
Qed.

(** The remaining fields of two requests with the same list. *)
Lemma fields_texts r1 r2 : payment_shape r1 -> payment_shape r2 -> pay_SchemaVersion r1 = pay_SchemaVersion r2 -> field_list r1 = field_list r2 ->
  (OwnerID r1 = OwnerID r2 /\ AgentID r1 = AgentID r2 /\ pay_AgreementBodyDigest r1 = pay_AgreementBodyDigest r2 /\
   ObligationInstanceID r1 = ObligationInstanceID r2 /\ PayerAgentID r1 = PayerAgentID r2 /\ PayeeAgentID r1 = PayeeAgentID r2) /\
  SemanticActionKind r1 = SemanticActionKind r2 /\ AdapterProfileDigest r1 = AdapterProfileDigest r2 /\ ExternalSystemID r1 = ExternalSystemID r2.
Proof.
  intros S1 S2 Hv Hf. split.
  - pose proof (fun n => f_equal (.!! n) Hf) as Hn.
    split_and!; [specialize (Hn 0%nat)|specialize (Hn 1%nat)|specialize (Hn 2%nat)|specialize (Hn 3%nat)|specialize (Hn 4%nat)|specialize (Hn 5%nat)];
      cbn in Hn; by injection Hn.
  - pose proof (ps_profile _ S1) as P1. pose proof (ps_profile _ S2) as P2. rewrite <-Hv in P2.
    destruct (Z.eqb_spec (pay_SchemaVersion r1) 2) as [H2|H2]; destruct P1 as (K1 & A1 & X1), P2 as (K2 & A2 & X2); [|by split_and!; congruence].
    pose proof (f_equal (.!! 8%nat) Hf) as H8. pose proof (f_equal (.!! 9%nat) Hf) as H9. unfold field_list in H8, H9. rewrite <-Hv, H2 in H8, H9.
    cbn in H8, H9. injection H8 as H8. injection H9 as H9. split_and!; congruence.
Qed.

(** C14: a stable payment identity is one payment.  Two valid requests with the same
    identity agree on everything but the obligation's name and the expiry: schema,
    owner, agent, agreement, instance, payer, payee, amount, network, destination and
    adapter -- unless a text hashed for the first request and one hashed for the
    second (the action's text, or the asset, destination or amount document) differ
    and have the same SHA-256 hash. *)
Theorem payment_identity_binds `{L : !PaymentCodecLaws} (r1 r2 : AgreementPaymentRequest) :
  ValidateAgreementPaymentRequest r1 = Ok tt -> ValidateAgreementPaymentRequest r2 = Ok tt ->
  pay_StableActionID r1 = pay_StableActionID r2 ->
  r1 = with_terms r2 (AgreementObligationID r1) (pay_ExpiresAtUnix r1) \/
  collision_between (payment_texts r1) (payment_texts r2).
Proof.
  intros [S1 I1]%payment_valid_shape [S2 [e2 H2]]%payment_valid_shape Hid. pose proof I1 as [e1 H1]. rewrite Hid in H1.
  destruct (stable_id_texts _ _ _ _ _ _ _ H1 H2) as [(Hk & Hf)|C]; [|right; exact (texts_between (payment_texts r1) (payment_texts r2) 0 _ _ eq_refl eq_refl C)].
  pose proof (kind_version _ _ S1 S2 Hk) as Hv. apply (listed_same _ _ Hv) in Hf.
  destruct (fields_components _ _ S1 S2 I1 Hv Hf) as [(?&?&?&?&?)|]; [left|right; assumption].
  destruct (fields_texts _ _ S1 S2 Hv Hf) as ((?&?&?&?&?&?) & ?&?&?). clear S1 S2 I1 e1 e2 H1 H2 Hk Hf.
  destruct r1, r2. unfold with_terms. cbn in *. subst. reflexivity.
Qed.
End Payment.

(** ** Sample payments *)
Module Sample.
Import Amounts.Sample Billing.Sample.

(** An encoding of the documents by their number. *)
Definition numbered {A} `{Countable A} (a : A) : string := FormatN (Npos (encode a)).

Lemma numbered_inj {A} `{Countable A} (a b : A) e : Some (numbered a) = Some e -> Some (numbered b) = Some e -> a = b.
Proof. intros H1 H2. rewrite <-H2 in H1. injection H1 as H1%FormatN_inj. injection H1 as H1. by apply encode_inj in H1. Qed.

Definition codec : PaymentCodec :=
  {| marshal_asset a := Some (numbered (as_Namespace a, as_Identifier a, as_Unit a));
     marshal_amount a := Some (numbered (aa_AssetNamespace a, aa_AssetIdentifier a, aa_AmountAtomic a, AmountDecimal a, aa_Unit a));
     marshal_destination d := Some (numbered (de_NetworkID d, de_NetworkDomainDigest d, de_AdapterURI d, de_Destination d));
     marshal_payment r := Some (pay_StableActionID r) |}.
#[local] Existing Instance codec.

#[local] Instance codec_laws : PaymentCodecLaws.
Proof.
  split; intros a b e Ha Hb; pose proof (numbered_inj _ _ _ Ha Hb) as H; destruct a, b; cbn in H; by simplify_eq.
Qed.

Definition atomic (text : string) : AgreementAmount :=
  {| aa_AssetNamespace := "tos"; aa_AssetIdentifier := "native"; aa_AmountAtomic := text; AmountDecimal := ""; aa_Unit := "nano" |}.

Definition owed : SettlementObligation :=
  {| so_AgreementBodyDigest := dg "0"; so_AgreementObligationID := "fee"; so_ObligationInstanceID := dg "1"; Sequence := 1;
     PredecessorInstanceID := ""; so_PayerAgentID := "payer"; so_PayeeAgentID := "payee"; so_Amount := atomic "500";
     so_NotBeforeUnix := 0; so_DueAtUnix := 1700000500; so_ExpiresAtUnix := 1700001000; so_MaximumAggregateAmount := atomic "500";
     so_SettlementAdapterURI := "adapter"; SettlementParametersDigest := dg "2"; so_MandateDigest := ""; so_StableActionID := dg "3" |}.

Definition rename (o : SettlementObligation) (name : string) (expires : Z) : SettlementObligation :=
  {| so_AgreementBodyDigest := so_AgreementBodyDigest o; so_AgreementObligationID := name;
     so_ObligationInstanceID := so_ObligationInstanceID o; Sequence := Sequence o;
     PredecessorInstanceID := PredecessorInstanceID o; so_PayerAgentID := so_PayerAgentID o; so_PayeeAgentID := so_PayeeAgentID o;
     so_Amount := so_Amount o; so_NotBeforeUnix := so_NotBeforeUnix o; so_DueAtUnix := so_DueAtUnix o; so_ExpiresAtUnix := expires;
     so_MaximumAggregateAmount := so_MaximumAggregateAmount o; so_SettlementAdapterURI := so_SettlementAdapterURI o;
     SettlementParametersDigest := SettlementParametersDigest o; so_MandateDigest := so_MandateDigest o;
     so_StableActionID := so_StableActionID o |}.

Definition direct : result string AgreementPaymentRequest :=
  buildAgreementPaymentRequestAmount "owner" "agent" "mainnet" (dg "d") "wallet" owed (atomic "120").
Definition external : result string AgreementPaymentRequest :=
  BuildExternalAgreementPaymentRequestAmount "owner" "agent" "mainnet" "bank" (dg "e") "account" (obligation "2") (decimal "1.5").

Lemma built_payment_validates_witness :
  (exists r, direct = Ok r /\ ValidateAgreementPaymentRequest r = Ok tt) /\
  (exists r, external = Ok r /\ ValidateAgreementPaymentRequest r <> Ok tt).
Proof.
  assert (is_ok direct = true) as Hd by (vm_compute; reflexivity). assert (is_ok external = true) as Hx by (vm_compute; reflexivity).
  split.
  - destruct direct as [r| |] eqn:E; [|discriminate Hd..]. exists r. split; [reflexivity|].
    exact (proj1 (proj1 (built_payment_validates _ _ _ _ _ _ r) _ E)).
  - destruct external as [r| |] eqn:E; [|discriminate Hx..]. exists r. split; [reflexivity|].
    intros H. apply (proj1 (proj2 (built_payment_validates _ _ _ _ _ _ r) _ _ E) H). reflexivity.
Defined.

(** The same payment under another obligation name and expiry, and a payment of
    another amount. *)
Definition renamed : result string AgreementPaymentRequest :=
  buildAgreementPaymentRequestAmount "owner" "agent" "mainnet" (dg "d") "wallet" (rename owed "renamed" 1700009999) (atomic "120").
Definition larger : result string AgreementPaymentRequest :=
  buildAgreementPaymentRequestAmount "owner" "agent" "mainnet" (dg "d") "wallet" owed (atomic "121").

Lemma payment_identity_binds_witness :
  match direct, renamed, larger with
  | Ok r, Ok r', Ok r'' =>
      AgreementObligationID r' <> AgreementObligationID r /\ pay_StableActionID r' = pay_StableActionID r /\
      (r' = with_terms r "renamed" 1700009999 \/ collision_between (payment_texts r') (payment_texts r)) /\
      (pay_StableActionID r'' = pay_StableActionID r -> collision_between (payment_texts r'') (payment_texts r))
  | _, _, _ => False
  end.
Proof.
  assert (match direct, renamed, larger with
          | Ok r, Ok r', Ok r'' => pay_StableActionID r' = pay_StableActionID r /\ AgreementObligationID r = "fee"%string /\ AgreementObligationID r' = "renamed"%string /\ pay_ExpiresAtUnix r' = 1700009999 /\
              aa_AmountAtomic (pay_Amount r) = "120"%string /\ aa_AmountAtomic (pay_Amount r'') = "121"%string
          | _, _, _ => False end) as Hok by (vm_compute; split_and!; reflexivity).
  destruct direct as [r| |] eqn:B, renamed as [r'| |] eqn:B', larger as [r''| |] eqn:B''; try solve [destruct Hok].
  pose proof (built_direct_valid _ _ _ _ _ _ _ _ B) as H. pose proof (built_direct_valid _ _ _ _ _ _ _ _ B') as H'.
  pose proof (built_direct_valid _ _ _ _ _ _ _ _ B'') as H''. clear B B' B''. destruct Hok as (Hid & E & E' & X' & A & A''). rewrite E, E'. split; [discriminate|]. split; [exact Hid|]. split.
  - pose proof (payment_identity_binds r' r H' H Hid) as Hr. rewrite E', X' in Hr. exact Hr.
  - intros Hid'. destruct (payment_identity_binds r'' r H'' H Hid') as [Hr|C]; [|exact C].
    apply (f_equal (fun x => aa_AmountAtomic (pay_Amount x))) in Hr. unfold with_terms in Hr. cbn in Hr. rewrite A, A'' in Hr. discriminate Hr.
Defined.
End Sample.
