(* ===== verification/FileStore.v ===== *)
(** * A private directory of small JSON records

    The two journals (src/pkg/nativecore/relay_journal.go and
    src/pkg/buyersdk/journal.go) keep their state as files of one directory,
    written through a temporary file that is linked or renamed into place.  The
    directory is a map from base names to documents, where a document is what
    the JSON decoder makes of the file; a temporary file, which no reader looks
    at, is not represented.  An operation runs under an exclusive lock, as a
    function from the directory to the directory and an outcome; an error keeps
    the changes made before it.  Which system call fails is decided by an oracle
    [io], so that a failure (or a crash, which leaves the same directory) at
    every point is covered. *)

From S2P Require Import Prelude Text.

(** ** Time

    A [time.Time] is its nanoseconds since 1970; [zeroTime] is the zero value. *)

Definition Second : Z := 1000000000.
Definition Minute : Z := 60 * Second.
Definition Hour : Z := 60 * Minute.
Definition zeroTime : Z := -62135596800 * Second.
Definition Unix (t : Z) : Z := t / Second.

(** ** The directory *)

Abbreviation dir := (gmap string).

Section Store.
Context {D : Type}.

Definition action (A : Type) : Type := dir D -> dir D * result string A.

Definition done_with {A} (r : result string A) : action A := fun d => (d, r).

#[global] Instance action_ret : MRet action := fun A a => done_with (Ok a).
#[global] Instance action_bind : MBind action := fun A B f m d =>
  match m d with
  | (d', Ok a) => f a d'
  | (d', Err e) => (d', Err e)
  | (d', Panic w) => (d', Panic w)
  end.

(** An error replaced by the caller's own. *)
Definition rewrap {A} (m : action A) (e : string) : action A := fun d => let '(d', r) := m d in (d', or_err r e).
Definition guard (cond : bool) (e : string) : action unit := done_with (fail_if cond e).

(** A computation that only reads the directory. *)
Definition inspect {A} (f : dir D -> result string A) : action A := fun d => (d, f d).

(** [os.ReadFile]: no file, a file, or a failure. *)
Definition readFile (fails : bool) (name : string) : action (option D) := fun d =>
  if fails then (d, Err "read failed"%string) else (d, Ok (d !! name)).

(** [os.ReadDir] gives the names in order. *)
Definition readDir (fails : bool) : action (list string) := fun d =>
  if fails then (d, Err "readdir failed"%string) else (d, Ok (sort_strings (elements (dom d)))).

(** Write a temporary file, link it to its name, sync the directory: [false]
    when the name exists already. *)
Definition atomicCreate (tempFails linkFails syncFails : bool) (name : string) (doc : D) : action bool := fun d =>
  if tempFails then (d, Err "temporary file failed"%string)
  else if linkFails then (d, Err "link failed"%string)
  else match d !! name with
  | Some _ => (d, Ok false)
  | None => (<[name := doc]> d, if syncFails then Err "sync failed"%string else Ok true)
  end.

(** Write a temporary file, rename it over its name, sync the directory. *)
Definition atomicReplace (tempFails renameFails syncFails : bool) (name : string) (doc : D) : action unit := fun d =>
  if tempFails then (d, Err "temporary file failed"%string)
  else if renameFails then (d, Err "rename failed"%string)
  else (<[name := doc]> d, if syncFails then Err "sync failed"%string else Ok tt).

(** ** What an action does to the directory *)

(** [R d d'] holds of the directories before and after every run of [m]. *)
Definition keeps {A} (R : dir D -> dir D -> Prop) (m : action A) : Prop := forall d, R d (m d).1.

Context (R : dir D -> dir D -> Prop) `{!PreOrder R}.

Lemma keeps_bind {A B} (m : action A) (f : A -> action B) :
  keeps R m -> (forall a, keeps R (f a)) -> keeps R (m ≫= f).
Proof using PreOrder0.
  intros Hm Hf d. unfold mbind, action_bind. specialize (Hm d). destruct (m d) as [d' [a|e|w]]; cbn in *; try done.
  etransitivity; [done|]. apply Hf.
Qed.

Lemma keeps_done {A} (r : result string A) : keeps R (done_with r).
Proof using PreOrder0. by intros d. Qed.

Lemma keeps_ret {A} (a : A) : keeps R (mret a).
Proof using PreOrder0. by intros d. Qed.

Lemma keeps_inspect {A} (f : dir D -> result string A) : keeps R (inspect f).
Proof using PreOrder0. by intros d. Qed.

Lemma keeps_guard b e : keeps R (guard b e).
Proof using PreOrder0. apply keeps_done. Qed.

Lemma keeps_rewrap {A} (m : action A) e : keeps R m -> keeps R (rewrap m e).
Proof using PreOrder0. intros H d. unfold rewrap. specialize (H d). by destruct (m d). Qed.

Lemma keeps_readFile b name : keeps R (readFile b name).
Proof using PreOrder0. intros d. unfold readFile. by destruct b. Qed.

Lemma keeps_readDir b : keeps R (readDir b).
Proof using PreOrder0. intros d. unfold readDir. by destruct b. Qed.

Lemma keeps_atomicCreate t l s name doc :
  (forall d, d !! name = None -> R d (<[name := doc]> d)) -> keeps R (atomicCreate t l s name doc).
Proof using PreOrder0.
  intros H d. unfold atomicCreate. destruct t, l; try done. destruct (d !! name) eqn:E; cbn; [done|]. by apply H.
Qed.
End Store.

Arguments action : clear implicits.

Lemma action_bind_Ok {D A B} (m : action D A) (f : A -> action D B) d d' b :
  (m ≫= f) d = (d', Ok b) <-> exists d1 a, m d = (d1, Ok a) /\ f a d1 = (d', Ok b).
Proof.
  unfold mbind, action_bind. destruct (m d) as [d1 [a|e|w]]; naive_solver.
Qed.

(** ** Actions that only read *)

Abbreviation reads := (keeps eq).

(** Running a reading step: it succeeds and the rest runs on the same directory,
    or the whole action stops without a change. *)
Lemma bind_read {D A B} (m : action D A) (f : A -> action D B) d :
  reads m ->
  (exists a, m d = (d, Ok a) /\ (m ≫= f) d = f a d) \/
  (exists r, (m ≫= f) d = (d, r) /\ is_ok r = false).
Proof.
  intros Hm. specialize (Hm d). unfold mbind, action_bind. destruct (m d) as [d' [a|e|w]] eqn:E; cbn in Hm; subst d'; eauto.
Qed.

Lemma guard_bind {D B} b e (f : unit -> action D B) d :
  (guard b e ≫= f) d = if b then (d, Err e) else f tt d.
Proof. by destruct b. Qed.

Lemma bind_run {D A B} (m : action D A) (f : A -> action D B) d d' r :
  m d = (d', r) ->
  (m ≫= f) d = match r with Ok a => f a d' | Err e => (d', Err e) | Panic w => (d', Panic w) end.
Proof. intros E. unfold mbind, action_bind. by rewrite E. Qed.

Create HintDb keeps discriminated.
#[export] Hint Resolve keeps_bind keeps_done keeps_ret keeps_inspect keeps_guard keeps_rewrap keeps_readFile
  keeps_readDir : keeps.

Ltac solve_keeps :=
  repeat match goal with
  | |- keeps _ (match ?x with _ => _ end) => destruct x
  | |- keeps _ (if ?x then _ else _) => destruct x
  | |- keeps _ (mbind _ _) => refine (keeps_bind _ _ _ _ _); [|intros ?]
  | |- keeps _ (let _ := _ in _) => cbv zeta
  | |- keeps _ (rewrap _ _) => refine (keeps_rewrap _ _ _ _)
  | |- keeps _ _ => solve [auto with keeps typeclass_instances]
  end.
