(* ===== verification/RelayJournal.v ===== *)
(** * The Native relay journal (src/pkg/nativecore/relay_journal.go)

    The journal that decides which signed intent may spend fees and be broadcast:
    request keys are retry aliases, state slots are fee-spend claims, and an
    action identity binds the exact intent that occupies a slot.  Its state is
    the directory of [FileStore]; the interface type [RelayJournal] of the source
    is the class at the end, which the relayer is verified against.

    Every function that takes the exclusive lock is one atomic step; [Lookup]
    reads without it.  Values the source returns next to a non-nil error are not
    represented: every caller drops them. *)

From S2P Require Import Prelude Text Sha256 FileStore.

(** ** Data *)


Record RelaySpendLimits := {
  LimitWindow : Z;
  MaxActionsPerTarget : Z;
  MaxFundingPerTargetNanoTOS : Z;
  MaxActionsPerWallet : Z;
  MaxFundingPerWalletNanoTOS : Z }.

Definition RelaySpendLimits_valid (l : RelaySpendLimits) : bool :=
  (Minute <=? LimitWindow l) && (LimitWindow l <=? 31 * 24 * Hour) &&
  (0 <? MaxActionsPerTarget l) && (0 <? MaxFundingPerTargetNanoTOS l) &&
  (0 <? MaxActionsPerWallet l) && (0 <? MaxFundingPerWalletNanoTOS l) &&
  (MaxActionsPerTarget l <=? MaxActionsPerWallet l) &&
  (MaxFundingPerTargetNanoTOS l <=? MaxFundingPerWalletNanoTOS l).

Definition permitsSingle (l : RelaySpendLimits) (funding : Z) : bool :=
  RelaySpendLimits_valid l && (funding <=? MaxFundingPerTargetNanoTOS l) &&
  (funding <=? MaxFundingPerWalletNanoTOS l).

Record RelayIntent := {
  ActionHash : string;
  Destination : string;
  QueryID : Z;
  BodyHash : string;
  StateInitHash : string;
  FundingNanoTOS : Z;
  IntentSlotIdentity : string;
  TargetObjectID : string }.

#[global] Instance RelayIntent_eq_dec : EqDecision RelayIntent.
Proof. solve_decision. Defined.

Definition RelayIntent_valid (i : RelayIntent) : bool :=
  nonempty (ActionHash i) && nonempty (Destination i) && negb (QueryID i =? 0) &&
  nonempty (BodyHash i) && nonempty (StateInitHash i) && negb (FundingNanoTOS i =? 0) &&
  nonempty (IntentSlotIdentity i) && nonempty (TargetObjectID i).

Record relayRequestRecord := { RequestKey : string; RequestAction : string }.

#[global] Instance relayRequestRecord_eq_dec : EqDecision relayRequestRecord.
Proof. solve_decision. Defined.

Inductive relaySlotPhase :=
  | relaySlotPrepared
  | relaySlotBroadcasting
  | relaySlotComplete
  | relaySlotOther (text : string).

#[global] Instance relaySlotPhase_eq_dec : EqDecision relaySlotPhase.
Proof. solve_decision. Defined.

Record relaySlotRecord := {
  SlotIdentity : string;
  SlotAction : string;
  SlotIntent : RelayIntent;
  Phase : relaySlotPhase;
  ClaimedUnix : Z }.

Definition known_phase (p : relaySlotPhase) : bool :=
  match p with relaySlotOther _ => false | _ => true end.

Definition relaySlotRecord_valid (r : relaySlotRecord) : bool :=
  nonempty (SlotIdentity r) && nonempty (SlotAction r) && RelayIntent_valid (SlotIntent r) &&
  bool_decide (SlotIdentity r = IntentSlotIdentity (SlotIntent r)) && (0 <? ClaimedUnix r) &&
  known_phase (Phase r).

Definition matches (r : relaySlotRecord) (actionIdentity : string) (intent : RelayIntent) : bool :=
  bool_decide (SlotAction r = actionIdentity) &&
  bool_decide (SlotIdentity r = IntentSlotIdentity intent) &&
  bool_decide (SlotIntent r = intent).

(** ** Files *)

(** A file of the directory: one the journal wrote, or one it did not, given by
    what the decoder makes of it. *)
Inductive file :=
  | SlotFile (r : relaySlotRecord)
  | RequestFile (r : relayRequestRecord)
  | ForeignFile (as_slot : option relaySlotRecord) (as_request : option relayRequestRecord).

Definition json_intent (i : RelayIntent) : RelayIntent :=
  {| ActionHash := json_text (ActionHash i); Destination := json_text (Destination i); QueryID := QueryID i;
     BodyHash := json_text (BodyHash i); StateInitHash := json_text (StateInitHash i);
     FundingNanoTOS := FundingNanoTOS i; IntentSlotIdentity := json_text (IntentSlotIdentity i);
     TargetObjectID := json_text (TargetObjectID i) |}.

Definition json_phase (p : relaySlotPhase) : relaySlotPhase :=
  match p with relaySlotOther t => relaySlotOther (json_text t) | p => p end.

Definition json_slot (r : relaySlotRecord) : relaySlotRecord :=
  {| SlotIdentity := json_text (SlotIdentity r); SlotAction := json_text (SlotAction r);
     SlotIntent := json_intent (SlotIntent r); Phase := json_phase (Phase r); ClaimedUnix := ClaimedUnix r |}.

Definition zeroIntent : RelayIntent :=
  {| ActionHash := ""; Destination := ""; QueryID := 0; BodyHash := ""; StateInitHash := "";
     FundingNanoTOS := 0; IntentSlotIdentity := ""; TargetObjectID := "" |}.

(** [json.Unmarshal] into a slot and into a request: unknown fields are skipped,
    absent ones keep their zero value, [action_identity] is common to both. *)
Definition Unmarshal_slot (f : file) : option relaySlotRecord :=
  match f with
  | SlotFile r => Some (json_slot r)
  | RequestFile r => Some {| SlotIdentity := ""; SlotAction := json_text (RequestAction r);
                             SlotIntent := zeroIntent; Phase := relaySlotOther ""; ClaimedUnix := 0 |}
  | ForeignFile s _ => s
  end.

Definition Unmarshal_request (f : file) : option relayRequestRecord :=
  match f with
  | SlotFile r => Some {| RequestKey := ""; RequestAction := json_text (SlotAction r) |}
  | RequestFile r => Some {| RequestKey := json_text (RequestKey r); RequestAction := json_text (RequestAction r) |}
  | ForeignFile _ r => r
  end.

Definition requestPath (key : string) : string := "request-" +:+ sha256_hex key +:+ ".json".
Definition slotPath (identity : string) : string := "slot-" +:+ sha256_hex identity +:+ ".json".

(** ** System calls

    The calls a journal operation makes, each at most once per run; the oracle
    says which fail. *)
Inductive syscall :=
  | LockFile
  | ReadRequest | ReadSlot | ReadDirectory | ReadEntry (name : string)
  | SlotTemp | SlotLink | SlotSync
  | RequestTemp | RequestLink | RequestSync | RereadRequest
  | ReplaceTemp | ReplaceRename | ReplaceSync.

Definition io := syscall -> bool.
Abbreviation jaction := (action file).

Definition withExclusiveLock {A} (fails : io) (fn : jaction A) : jaction A :=
  if fails LockFile then done_with (Err "lock failed"%string) else fn.

Definition readSlot (readFails : bool) (identity : string) : jaction (option relaySlotRecord) :=
  raw ← rewrap (readFile readFails (slotPath identity)) "invalid Native relay state-slot record";
  match raw with
  | None => mret None
  | Some f =>
      match Unmarshal_slot f with
      | Some record =>
          if relaySlotRecord_valid record && bool_decide (SlotIdentity record = identity)
          then mret (Some record)
          else done_with (Err "invalid Native relay state-slot record"%string)
      | None => done_with (Err "invalid Native relay state-slot record"%string)
      end
  end.

Definition readRequest (readFails : bool) (key : string) : jaction (option relayRequestRecord) :=
  raw ← rewrap (readFile readFails (requestPath key)) "invalid Native relay request record";
  match raw with
  | None => mret None
  | Some f =>
      match Unmarshal_request f with
      | Some record =>
          if bool_decide (RequestKey record = key) && nonempty (RequestAction record)
          then mret (Some record)
          else done_with (Err "invalid Native relay request record"%string)
      | None => done_with (Err "invalid Native relay request record"%string)
      end
  end.

(** ** Operations *)

Definition Lookup (fails : io) (requestKey actionIdentity : string) (intent : RelayIntent)
    : jaction (bool * bool * string) :=
  guard (negb (nonempty requestKey) || negb (nonempty actionIdentity) || negb (RelayIntent_valid intent))
    "empty Native relay journal identity";;
  request ← readRequest (fails ReadRequest) requestKey;
  guard (match request with Some r => negb (bool_decide (RequestAction r = actionIdentity)) | None => false end)
    "Native idempotency key was reused for a different action";;
  slot ← readSlot (fails ReadSlot) (IntentSlotIdentity intent);
  match slot with
  | None => mret (false, false, ""%string)
  | Some slot =>
      guard (negb (bool_decide (SlotAction slot = actionIdentity)))
        "Native state slot is already claimed by a different action";;
      guard (negb (matches slot actionIdentity intent))
        "Native state slot record does not match its outbound intent";;
      match Phase slot with
      | relaySlotPrepared => mret (false, false, ""%string)
      | relaySlotBroadcasting => mret (true, false, ActionHash (SlotIntent slot))
      | relaySlotComplete => mret (true, true, ActionHash (SlotIntent slot))
      | relaySlotOther _ => done_with (Err "invalid Native relay state-slot phase"%string)
      end
  end.

(** The running totals of [enforceSpendLimits]. *)
Record SpendTotals := { walletActions : Z; walletFunding : Z; targetActions : Z; targetFunding : Z }.

Definition is_slot_name (name : string) : bool := HasPrefix name "slot-" && HasSuffix name ".json".

Definition spendStep (intent : RelayIntent) (cutoff : Z) (t : SpendTotals) (slot : relaySlotRecord)
    : result string SpendTotals :=
  if ClaimedUnix slot <? cutoff then Ok t
  else
    fail_if ((walletActions t =? maxUint64) || (maxUint64 - FundingNanoTOS (SlotIntent slot) <? walletFunding t))
      "Native relay wallet budget counter overflow";;
    let wa := walletActions t + 1 in
    let wf := walletFunding t + FundingNanoTOS (SlotIntent slot) in
    if bool_decide (TargetObjectID (SlotIntent slot) = TargetObjectID intent) then
      fail_if ((targetActions t =? maxUint64) || (maxUint64 - FundingNanoTOS (SlotIntent slot) <? targetFunding t))
        "Native relay target budget counter overflow";;
      Ok {| walletActions := wa; walletFunding := wf; targetActions := targetActions t + 1;
            targetFunding := targetFunding t + FundingNanoTOS (SlotIntent slot) |}
    else Ok {| walletActions := wa; walletFunding := wf; targetActions := targetActions t;
               targetFunding := targetFunding t |}.

Definition spendEntry (fails : io) (d : dir file) (intent : RelayIntent) (cutoff : Z) (t : SpendTotals) (name : string)
    : result string SpendTotals :=
  if negb (is_slot_name name) then Ok t
  else
    fail_if (fails (ReadEntry name)) "read failed";;
    raw ← opt_err (d !! name) "read failed";
    slot ← opt_err (Unmarshal_slot raw) "invalid Native relay state-slot record";
    fail_if (negb (relaySlotRecord_valid slot)) "invalid Native relay state-slot record";;
    spendStep intent cutoff t slot.

Definition zeroTotals : SpendTotals :=
  {| walletActions := 0; walletFunding := 0; targetActions := 0; targetFunding := 0 |}.

Definition spendTotals (fails : io) (d : dir file) (intent : RelayIntent) (cutoff : Z) (names : list string)
    : result string SpendTotals :=
  foldM (spendEntry fails d intent cutoff) zeroTotals names.

Definition checkTotals (intent : RelayIntent) (limits : RelaySpendLimits) (t : SpendTotals) : result string unit :=
  fail_if ((MaxActionsPerWallet limits <=? walletActions t) ||
           (wrap64 (MaxFundingPerWalletNanoTOS limits - FundingNanoTOS intent) <? walletFunding t))
    "Native relay wallet spend limit exceeded";;
  fail_if ((MaxActionsPerTarget limits <=? targetActions t) ||
           (wrap64 (MaxFundingPerTargetNanoTOS limits - FundingNanoTOS intent) <? targetFunding t))
    "Native relay target spend limit exceeded".

Definition enforceSpendLimits (fails : io) (intent : RelayIntent) (limits : RelaySpendLimits) (now : Z) : jaction unit :=
  entries ← readDir (fails ReadDirectory);
  let cutoff := Unix (now - LimitWindow limits) in
  inspect (fun d => totals ← spendTotals fails d intent cutoff entries; checkTotals intent limits totals).

(** Claiming a free slot: the budget is checked and the prepared record created. *)
Definition claimSlot (fails : io) (actionIdentity : string) (intent : RelayIntent) (limits : RelaySpendLimits) (now : Z)
    : jaction relaySlotRecord :=
  enforceSpendLimits fails intent limits now;;
  let slot := {| SlotIdentity := IntentSlotIdentity intent; SlotAction := actionIdentity;
                 SlotIntent := intent; Phase := relaySlotPrepared; ClaimedUnix := Unix now |} in
  created ← rewrap (atomicCreate (fails SlotTemp) (fails SlotLink) (fails SlotSync)
                      (slotPath (IntentSlotIdentity intent)) (SlotFile slot))
              "failed to claim Native state slot";
  guard (negb created) "failed to claim Native state slot";;
  mret slot.

(** Binding the request key: an existing record must be the same. *)
Definition confirmRequest (fails : io) (record : relayRequestRecord) (created : bool) : jaction unit :=
  if created then mret tt
  else
    existing ← rewrap (readRequest (fails RereadRequest) (RequestKey record))
      "Native idempotency key was reused for a different action";
    guard (negb (bool_decide (existing = Some record)))
      "Native idempotency key was reused for a different action".

Definition recordRequest (fails : io) (record : relayRequestRecord) : jaction unit :=
  created ← atomicCreate (fails RequestTemp) (fails RequestLink) (fails RequestSync)
              (requestPath (RequestKey record)) (RequestFile record);
  confirmRequest fails record created.

(** The slot of a request: found as the caller's own, or claimed now. *)
Definition beginSlot (fails : io) (requestKey actionIdentity : string) (intent : RelayIntent)
    (limits : RelaySpendLimits) (now : Z) : jaction relaySlotRecord :=
  request ← readRequest (fails ReadRequest) requestKey;
  guard (match request with Some r => negb (bool_decide (RequestAction r = actionIdentity)) | None => false end)
    "Native idempotency key was reused for a different action";;
  found ← readSlot (fails ReadSlot) (IntentSlotIdentity intent);
  guard (match found with Some s => negb (bool_decide (SlotAction s = actionIdentity)) | None => false end)
    "Native state slot is already claimed by a different action";;
  guard (match found with Some s => negb (matches s actionIdentity intent) | None => false end)
    "Native state slot record does not match its outbound intent";;
  match found with
  | Some slot => mret slot
  | None => claimSlot fails actionIdentity intent limits now
  end.

Definition beginLocked (fails : io) (requestKey actionIdentity : string) (intent : RelayIntent)
    (limits : RelaySpendLimits) (now : Z) : jaction (bool * string) :=
  slot ← beginSlot fails requestKey actionIdentity intent limits now;
  recordRequest fails {| RequestKey := requestKey; RequestAction := actionIdentity |};;
  match Phase slot return jaction (bool * string) with
  | relaySlotPrepared => mret (false, ""%string)
  | relaySlotBroadcasting => mret (false, ActionHash (SlotIntent slot))
  | relaySlotComplete => mret (true, ActionHash (SlotIntent slot))
  | relaySlotOther _ => done_with (Err "invalid Native relay state-slot phase"%string)
  end.

Definition Begin (fails : io) (requestKey actionIdentity : string) (intent : RelayIntent)
    (limits : RelaySpendLimits) (now : Z) : jaction (bool * string) :=
  guard (negb (nonempty requestKey) || negb (nonempty actionIdentity) || negb (RelayIntent_valid intent) ||
         negb (permitsSingle limits (FundingNanoTOS intent)) || (now =? zeroTime))
    "empty Native relay journal identity";;
  withExclusiveLock fails (beginLocked fails requestKey actionIdentity intent limits now).

Definition with_phase (slot : relaySlotRecord) (p : relaySlotPhase) : relaySlotRecord :=
  {| SlotIdentity := SlotIdentity slot; SlotAction := SlotAction slot; SlotIntent := SlotIntent slot;
     Phase := p; ClaimedUnix := ClaimedUnix slot |}.

(** The slot of an intent, if it is the caller's. *)
Definition ownSlot (fails : io) (actionIdentity : string) (intent : RelayIntent) (e : string) : jaction relaySlotRecord :=
  found ← rewrap (readSlot (fails ReadSlot) (IntentSlotIdentity intent)) e;
  match found with
  | Some slot => guard (negb (matches slot actionIdentity intent)) e;; mret slot
  | None => done_with (Err e)
  end.

Definition replaceSlot (fails : io) (slot : relaySlotRecord) (intent : RelayIntent) : jaction unit :=
  atomicReplace (fails ReplaceTemp) (fails ReplaceRename) (fails ReplaceSync)
    (slotPath (IntentSlotIdentity intent)) (SlotFile slot).

Definition AcquireBroadcastLease (fails : io) (actionIdentity : string) (intent : RelayIntent) : jaction (bool * bool) :=
  guard (negb (nonempty actionIdentity) || negb (RelayIntent_valid intent))
    "empty Native relay broadcast lease identity";;
  withExclusiveLock fails (
    slot ← ownSlot fails actionIdentity intent "Native relay broadcast lease mismatch";
    match Phase slot with
    | relaySlotPrepared =>
        replaceSlot fails (with_phase slot relaySlotBroadcasting) intent;;
        mret (true, false)
    | relaySlotBroadcasting => mret (false, false)
    | relaySlotComplete => mret (false, true)
    | relaySlotOther _ => done_with (Err "invalid Native relay state-slot phase"%string)
    end).

Definition Complete (fails : io) (actionIdentity : string) (intent : RelayIntent) : jaction unit :=
  guard (negb (nonempty actionIdentity) || negb (RelayIntent_valid intent))
    "Native relay journal completion mismatch";;
  withExclusiveLock fails (
    slot ← ownSlot fails actionIdentity intent "Native relay journal completion mismatch";
    if bool_decide (Phase slot = relaySlotComplete) then mret tt
    else
      guard (negb (bool_decide (Phase slot = relaySlotBroadcasting)))
        "Native relay journal completed without a broadcast lease";;
      replaceSlot fails (with_phase slot relaySlotComplete) intent).

(** ** What each operation does to the directory *)

Lemma readSlot_cases b id d :
  readSlot b id d = (d, Ok None) /\ d !! slotPath id = None \/
  (exists f s, readSlot b id d = (d, Ok (Some s)) /\ d !! slotPath id = Some f /\ Unmarshal_slot f = Some s /\
     relaySlotRecord_valid s = true /\ SlotIdentity s = id) \/
  (exists e, readSlot b id d = (d, Err e)).
Proof.
  unfold readSlot, rewrap, readFile, mbind, action_bind. destruct b; cbn; [by eauto|].
  destruct (d !! slotPath id) as [f|]; cbn; [|by auto].
  destruct (Unmarshal_slot f) as [s|] eqn:Es; cbn; [|by eauto].
  destruct (relaySlotRecord_valid s) eqn:Ev; cbn; [|by eauto]. case_bool_decide; [|by eauto].
  right; left. by exists f, s.
Qed.

Lemma readRequest_cases b key d :
  readRequest b key d = (d, Ok None) /\ d !! requestPath key = None \/
  (exists f r, readRequest b key d = (d, Ok (Some r)) /\ d !! requestPath key = Some f /\
     Unmarshal_request f = Some r /\ RequestKey r = key) \/
  (exists e, readRequest b key d = (d, Err e)).
Proof.
  unfold readRequest, rewrap, readFile, mbind, action_bind. destruct b; cbn; [by eauto|].
  destruct (d !! requestPath key) as [f|]; cbn; [|by auto].
  destruct (Unmarshal_request f) as [r|] eqn:Er; cbn; [|by eauto].
  case_bool_decide; cbn; [|by eauto]. destruct (nonempty (RequestAction r)); [|by eauto].
  right; left. by exists f, r.
Qed.

(** The slot an operation may advance, as stored. *)
Definition stored_slot (d : dir file) (intent : RelayIntent) (s : relaySlotRecord) : Prop :=
  exists f, d !! slotPath (IntentSlotIdentity intent) = Some f /\ Unmarshal_slot f = Some s.

Lemma ownSlot_cases fails a i e d :
  (exists s, ownSlot fails a i e d = (d, Ok s) /\ stored_slot d i s /\ matches s a i = true /\
     relaySlotRecord_valid s = true) \/
  (exists e', ownSlot fails a i e d = (d, Err e')).
Proof.
  unfold ownSlot, rewrap, mbind, action_bind.
  destruct (readSlot_cases (fails ReadSlot) (IntentSlotIdentity i) d) as [[-> _]|[(f & s & -> & ? & ? & ? & _)|[e' ->]]];
    cbn; [by eauto| |by eauto].
  unfold guard, done_with. destruct (matches s a i) eqn:Em; cbn; [|by eauto].
  left. exists s. split_and!; try done. by exists f.
Qed.

Lemma readSlot_reads b id : reads (readSlot b id).
Proof. unfold readSlot. solve_keeps. Qed.

Lemma readRequest_reads b key : reads (readRequest b key).
Proof. unfold readRequest. solve_keeps. Qed.
#[export] Hint Resolve readSlot_reads readRequest_reads : keeps.

Lemma Lookup_reads fails k a i : reads (Lookup fails k a i).
Proof. unfold Lookup. solve_keeps. Qed.

Lemma Acquire_cases fails a i d :
  let '(d', r) := AcquireBroadcastLease fails a i d in
  d' = d /\ (forall c, r <> Ok (true, c)) \/
  exists s, stored_slot d i s /\ matches s a i = true /\ Phase s = relaySlotPrepared /\
    d' = <[slotPath (IntentSlotIdentity i) := SlotFile (with_phase s relaySlotBroadcasting)]> d.
Proof.
  unfold AcquireBroadcastLease, mbind at 1, action_bind at 1, guard, done_with at 1.
  destruct (fail_if _ _); [|by left..]. unfold withExclusiveLock. destruct (fails LockFile); [by left|].
  unfold mbind, action_bind.
  destruct (ownSlot_cases fails a i "Native relay broadcast lease mismatch" d) as [(s & -> & Hs & Hm & _)|[e ->]]; [|by left].
  destruct (Phase s) eqn:Ep; [|by left..]. unfold replaceSlot, atomicReplace.
  destruct (fails ReplaceTemp), (fails ReplaceRename); try by left.
  destruct (fails ReplaceSync); cbn; right; by exists s.
Qed.

Lemma Complete_cases fails a i d :
  let '(d', _) := Complete fails a i d in
  d' = d \/
  exists s, stored_slot d i s /\ matches s a i = true /\ Phase s = relaySlotBroadcasting /\
    d' = <[slotPath (IntentSlotIdentity i) := SlotFile (with_phase s relaySlotComplete)]> d.
Proof.
  unfold Complete, mbind at 1, action_bind at 1, guard at 1, done_with at 1.
  destruct (fail_if _ _); [|by left..]. unfold withExclusiveLock. destruct (fails LockFile); [by left|].
  unfold mbind, action_bind.
  destruct (ownSlot_cases fails a i "Native relay journal completion mismatch" d) as [(s & -> & Hs & Hm & _)|[e ->]]; [|by left].
  case_bool_decide as Ec; [by left|]. unfold guard, done_with.
  case_bool_decide as Eb; cbn; [|by left]. unfold replaceSlot, atomicReplace.
  destruct (fails ReplaceTemp), (fails ReplaceRename); try by left. right; by exists s.
Qed.

(** A claim was within the limits when it was made. *)
Definition within_limits (d : dir file) (intent : RelayIntent) (limits : RelaySpendLimits) (now : Z) : Prop :=
  exists fails totals,
    spendTotals fails d intent (Unix (now - LimitWindow limits)) (sort_strings (elements (dom d))) = Ok totals /\
    checkTotals intent limits totals = Ok tt.

Definition claimed_slot (a : string) (i : RelayIntent) (now : Z) : relaySlotRecord :=
  {| SlotIdentity := IntentSlotIdentity i; SlotAction := a; SlotIntent := i; Phase := relaySlotPrepared;
     ClaimedUnix := Unix now |}.

(** Nothing, or one new claim within the limits. *)
Definition claims (d d' : dir file) (a : string) (i : RelayIntent) (limits : RelaySpendLimits) (now : Z) : Prop :=
  d' = d \/
  d !! slotPath (IntentSlotIdentity i) = None /\ permitsSingle limits (FundingNanoTOS i) = true /\
  RelayIntent_valid i = true /\ within_limits d i limits now /\
  d' = <[slotPath (IntentSlotIdentity i) := SlotFile (claimed_slot a i now)]> d.

(** Nothing, or one new request record. *)
Definition binds (d d' : dir file) (k a : string) : Prop :=
  d' = d \/
  d !! requestPath k = None /\ d' = <[requestPath k := RequestFile {| RequestKey := k; RequestAction := a |}]> d.

Lemma recordRequest_binds fails k a d :
  binds d (recordRequest fails {| RequestKey := k; RequestAction := a |} d).1 k a.
Proof.
  unfold recordRequest, mbind, action_bind, atomicCreate.
  destruct (fails RequestTemp), (fails RequestLink); try by left. cbn.
  destruct (d !! requestPath k) as [f|] eqn:E.
  - unfold confirmRequest, rewrap, mbind, action_bind, guard, done_with. cbn.
    destruct (readRequest_cases (fails RereadRequest) k d) as [[-> _]|[(f' & r & -> & _)|[e ->]]]; by left.
  - destruct (fails RequestSync); right; done.
Qed.

Lemma claimSlot_claims fails a i limits now d :
  permitsSingle limits (FundingNanoTOS i) = true -> RelayIntent_valid i = true ->
  let '(d', r) := claimSlot fails a i limits now d in
  claims d d' a i limits now /\ (forall s, r = Ok s -> s = claimed_slot a i now).
Proof.
  intros Hp Hv. unfold claimSlot, enforceSpendLimits, mbind at 1, action_bind at 1.
  unfold mbind at 1, action_bind at 1, readDir. destruct (fails ReadDirectory); [by split; [left|]|].
  unfold inspect. destruct (spendTotals _ _ _ _ _) as [t|e|w] eqn:Et; cbn; [|by split; [left|]..].
  destruct (checkTotals i limits t) as [[]|e|w] eqn:Ec; cbn; [|by split; [left|]..].
  unfold rewrap, atomicCreate, mbind, action_bind, guard, done_with.
  destruct (fails SlotTemp), (fails SlotLink); cbn; try by split; [left|].
  destruct (d !! slotPath (IntentSlotIdentity i)) as [f|] eqn:E; cbn; [by split; [left|]|].
  assert (within_limits d i limits now) by (by exists fails, t).
  destruct (fails SlotSync); cbn; (split; [by right|]); by intros ? [= <-].
Qed.

Lemma beginSlot_claims fails k a i limits now d :
  permitsSingle limits (FundingNanoTOS i) = true -> RelayIntent_valid i = true ->
  claims d (beginSlot fails k a i limits now d).1 a i limits now.
Proof.
  intros Hp Hv. unfold beginSlot.
  repeat match goal with
  | |- context[mbind ?f ?m d] =>
      let E := fresh in
      destruct (bind_read m f d) as [(? & ? & E)|(? & E & _)]; [auto with keeps typeclass_instances|rewrite E; clear E..];
      [|by left]
  end.
  destruct x1 as [s|]; [by left|]. pose proof (claimSlot_claims fails a i limits now d Hp Hv) as H'.
  destruct (claimSlot fails a i limits now d). apply H'.
Qed.

Lemma Begin_cases fails k a i limits now d :
  exists d1, claims d d1 a i limits now /\ binds d1 (Begin fails k a i limits now d).1 k a.
Proof.
  unfold Begin. match goal with |- context[mbind ?f ?m d] =>
    destruct (bind_read m f d) as [(u & Eg & ->)|(r & -> & _)]; [auto with keeps typeclass_instances| |by exists d; split; left] end.
  unfold guard, done_with in Eg. injection Eg as Eg. apply fail_if_Ok in Eg.
  assert (permitsSingle limits (FundingNanoTOS i) = true /\ RelayIntent_valid i = true) as [Hp Hv].
  { destruct (permitsSingle _ _), (RelayIntent_valid i); rewrite ?orb_true_r in Eg; try done;
      by destruct (nonempty k), (nonempty a). }
  unfold withExclusiveLock. destruct (fails LockFile); [by exists d; split; left|].
  pose proof (beginSlot_claims fails k a i limits now d Hp Hv) as Hc.
  exists (beginSlot fails k a i limits now d).1. split; [done|].
  unfold beginLocked, mbind at 1, action_bind at 1.
  destruct (beginSlot fails k a i limits now d) as [d1 [slot|e|w]]; cbn; [|by left..].
  pose proof (recordRequest_binds fails k a d1) as Hb. unfold mbind, action_bind.
  destruct (recordRequest _ _ d1) as [d2 [[]|e|w]]; cbn in *; [|done..]. by destruct (Phase slot).
Qed.

(** ** Histories

    Any sequence of operations by any number of callers, each with its own
    failures, on any directory (also one with foreign or corrupt files). *)

Inductive journal_op :=
  | JLookup (k a : string) (i : RelayIntent)
  | JBegin (k a : string) (i : RelayIntent) (now : Z)
  | JAcquire (a : string) (i : RelayIntent)
  | JComplete (a : string) (i : RelayIntent).

Definition op_intent (op : journal_op) : RelayIntent :=
  match op with JLookup _ _ i | JBegin _ _ i _ | JAcquire _ i | JComplete _ i => i end.

(** The directory after an operation, and the slot whose broadcast lease it granted, if it did. *)
Definition journal_step (limits : RelaySpendLimits) (d : dir file) (fails : io) (op : journal_op)
    : dir file * option string :=
  match op with
  | JLookup k a i => ((Lookup fails k a i d).1, None)
  | JBegin k a i now => ((Begin fails k a i limits now d).1, None)
  | JAcquire a i =>
      let '(d', r) := AcquireBroadcastLease fails a i d in
      (d', match r with Ok (true, _) => Some (IntentSlotIdentity i) | _ => None end)
  | JComplete a i => ((Complete fails a i d).1, None)
  end.

Fixpoint journal_run (limits : RelaySpendLimits) (d : dir file) (ops : list (io * journal_op)) : dir file * list string :=
  match ops with
  | [] => (d, [])
  | (fails, op) :: ops =>
      let '(d1, lease) := journal_step limits d fails op in
      let '(d', leases) := journal_run limits d1 ops in
      (d', option_list lease ++ leases)
  end.

Definition count_leases (slot : string) (leases : list string) : nat :=
  length (filter (fun s => s = slot) leases).

(** A slot whose lease was taken: stored, past the prepared phase. *)
Definition leased (slot : string) (d : dir file) : Prop :=
  exists f s, d !! slotPath slot = Some f /\ Unmarshal_slot f = Some s /\
    (Phase s = relaySlotBroadcasting \/ Phase s = relaySlotComplete).

Lemma leased_create slot d name doc : d !! name = None -> leased slot d -> leased slot (<[name := doc]> d).
Proof.
  intros Hn (f & s & Hf & ?). exists f, s. split; [|done]. rewrite lookup_insert_ne; [done|].
  intros ->. congruence.
Qed.

Lemma leased_advance slot d i s p :
  p = relaySlotBroadcasting \/ p = relaySlotComplete ->
  leased slot d \/ slot = IntentSlotIdentity i ->
  leased slot (<[slotPath (IntentSlotIdentity i) := SlotFile (with_phase s p)]> d).
Proof.
  intros Hp Hl. destruct (decide (slotPath (IntentSlotIdentity i) = slotPath slot)) as [E|E].
  - exists (SlotFile (with_phase s p)), (json_slot (with_phase s p)). rewrite E, lookup_insert_eq.
    split_and!; [done|done|]. by destruct Hp as [-> | ->]; [left|right].
  - destruct Hl as [(f & s' & ? & ?)| ->]; [|done]. exists f, s'. by rewrite lookup_insert_ne.
Qed.

Lemma leased_step limits slot d fails op :
  leased slot d ->
  leased slot (journal_step limits d fails op).1 /\ (journal_step limits d fails op).2 <> Some slot.
Proof.
  intros Hl. destruct op as [k a i|k a i now|a i|a i]; cbn.
  - by rewrite <-Lookup_reads.
  - split; [|done]. destruct (Begin_cases fails k a i limits now d) as (d1 & Hc & Hb).
    assert (leased slot d1) by (destruct Hc as [-> |(? & _ & _ & _ & ->)]; [done|by apply leased_create]).
    destruct Hb as [-> |[? ->]]; [done|by apply leased_create].
  - pose proof (Acquire_cases fails a i d) as H. destruct (AcquireBroadcastLease fails a i d) as [d' r]. cbn.
    destruct H as [[-> H]|(s & Hs & Hm & Hp & ->)].
    + split; [done|]. destruct r as [[[] c]| |]; [by destruct (H c)|done..].
    + split; [apply leased_advance; auto|]. destruct r as [[[] c]| |]; try done. intros [= <-].
      destruct Hl as (f & s' & Hf & Hs' & Hp'), Hs as (f2 & Hf2 & Hs2). destruct Hp'; congruence.
  - split; [|done]. pose proof (Complete_cases fails a i d) as H. destruct (Complete fails a i d) as [d' r]. cbn.
    destruct H as [-> |(s & _ & _ & _ & ->)]; [done|]. apply leased_advance; auto.
Qed.

Lemma lease_granted_leased limits slot d fails op :
  (journal_step limits d fails op).2 = Some slot -> leased slot (journal_step limits d fails op).1.
Proof.
  destruct op as [k a i|k a i now|a i|a i]; cbn; try done.
  pose proof (Acquire_cases fails a i d) as H. destruct (AcquireBroadcastLease fails a i d) as [d' r]. cbn.
  destruct r as [[[] c]| |]; try done. intros [= <-].
  destruct H as [[_ H]|(s & _ & _ & _ & ->)]; [by destruct (H c)|]. apply leased_advance; auto.
Qed.

Lemma leased_run limits slot d ops :
  leased slot d -> count_leases slot (journal_run limits d ops).2 = 0%nat.
Proof.
  revert d. induction ops as [|[fails op] ops IH]; intros d Hl; [done|]. cbn.
  destruct (leased_step limits slot d fails op Hl) as [Hl' Hn].
  destruct (journal_step limits d fails op) as [d1 lease]. cbn in *.
  specialize (IH d1 Hl'). destruct (journal_run limits d1 ops) as [d' leases]. cbn in *.
  unfold count_leases in *. rewrite filter_app, length_app, IH.
  destruct lease as [s|]; [|done]. cbn. rewrite decide_False by congruence. done.
Qed.

(** Whatever the callers do and whichever system calls fail, and whatever the directory held
    before, the journal grants the broadcast lease of a state slot at most once. *)
Theorem relay_lease_at_most_once limits d ops slot :
  (count_leases slot (journal_run limits d ops).2 <= 1)%nat.
Proof.
  revert d. induction ops as [|[fails op] ops IH]; intros d; [cbn; lia|]. cbn.
  pose proof (lease_granted_leased limits slot d fails op) as Hg.
  destruct (journal_step limits d fails op) as [d1 lease]. cbn in *.
  pose proof (leased_run limits slot d1 ops) as H0. specialize (IH d1).
  destruct (journal_run limits d1 ops) as [d' leases]. cbn in *.
  unfold count_leases in *. rewrite filter_app, length_app.
  destruct lease as [s|]; [|done]. cbn. destruct (decide (s = slot)) as [->|Hne].
  - rewrite H0 by auto. cbn. lia.
  - cbn. lia.
Qed.

(** ** The spend windows *)

(** A file as the journal leaves it: slot records under slot names, request records under
    others. *)
Definition file_ok (name : string) (f : file) : Prop :=
  match f with
  | SlotFile r => is_slot_name name = true /\ 0 <= FundingNanoTOS (SlotIntent r) /\
      utf8_ok (TargetObjectID (SlotIntent r)) = true
  | RequestFile _ => is_slot_name name = false
  | ForeignFile _ _ => False
  end.
Definition dir_ok (d : dir file) : Prop := map_Forall file_ok d.

Definition intent_typed (i : RelayIntent) : Prop :=
  0 <= FundingNanoTOS i < two64 /\ utf8_ok (TargetObjectID i) = true.

(** What a file contributes to a measure of the claims made in [lo, hi] or from [lo] on. *)
Definition claim_weight (g : RelayIntent -> Z) (within : Z -> bool) (f : file) : Z :=
  match f with SlotFile r => if within (ClaimedUnix r) then g (SlotIntent r) else 0 | _ => 0 end.
Definition spent_since (g : RelayIntent -> Z) (lo : Z) (d : dir file) : Z :=
  map_sum (claim_weight g (fun u => lo <=? u)) d.
Definition spent_between (g : RelayIntent -> Z) (lo hi : Z) (d : dir file) : Z :=
  map_sum (claim_weight g (fun u => (lo <=? u) && (u <=? hi))) d.

Definition each_claim (i : RelayIntent) : Z := 1.
Definition on_target (target : string) (g : RelayIntent -> Z) (i : RelayIntent) : Z :=
  if bool_decide (TargetObjectID i = target) then g i else 0.

Lemma is_slot_name_slotPath id : is_slot_name (slotPath id) = true.
Proof.
  unfold is_slot_name, slotPath, HasPrefix. rewrite prefix_app. rewrite <-app_assoc_str, HasSuffix_app. done.
Qed.

Lemma is_slot_name_requestPath k : is_slot_name (requestPath k) = false.
Proof. done. Qed.

Section Totals.
Context (d : dir file) (Hd : dir_ok d) (fails : io) (intent : RelayIntent) (cutoff : Z).

Abbreviation since g := (claim_weight g (fun u => cutoff <=? u)).
Definition weight_at (g : RelayIntent -> Z) (name : string) : Z := from_option (since g) 0 (d !! name).

(** The totals grow by a file's contribution to each of the four measures. *)
Definition totals_add (t t' : SpendTotals) (w : (RelayIntent -> Z) -> Z) : Prop :=
  walletActions t' = walletActions t + w each_claim /\
  walletFunding t' = walletFunding t + w FundingNanoTOS /\
  targetActions t' = targetActions t + w (on_target (TargetObjectID intent) each_claim) /\
  targetFunding t' = targetFunding t + w (on_target (TargetObjectID intent) FundingNanoTOS).

Lemma spendEntry_adds t t' name :
  spendEntry fails d intent cutoff t name = Ok t' -> totals_add t t' (fun g => weight_at g name).
Proof using Hd.
  unfold spendEntry, totals_add, weight_at. destruct (is_slot_name name) eqn:En; cbn [negb].
  - intros H. inv_ok. match goal with H : d !! name = Some ?f |- _ => rename f into f0; rename H into Hf end.
    rewrite Hf. cbn. pose proof (Hd name f0 Hf) as Hok. destruct f0 as [r| |]; cbn in Hok; [|congruence|done].
    destruct Hok as (_ & _ & Hu%utf8_ok_text). cbn in *. simplify_eq.
    match goal with H : spendStep _ _ _ _ = _ |- _ => unfold spendStep in H; cbn in H; rename H into Hs end.
    unfold on_target, each_claim. rewrite Z.ltb_antisym in Hs. destruct (cutoff <=? ClaimedUnix r); cbn in Hs; [|inv_ok; lia].
    rewrite Hu in Hs. inv_ok. case_bool_decide; inv_ok; cbn; lia.
  - intros [= <-]. destruct (d !! name) as [f|] eqn:Ef; cbn; [|lia].
    pose proof (Hd name f Ef) as Hok. destruct f; cbn in *; [naive_solver congruence|lia|done].
Qed.

Lemma spendTotals_sum t names :
  spendTotals fails d intent cutoff names = Ok t ->
  totals_add zeroTotals t (fun g => zsum (weight_at g <$> names)).
Proof using Hd.
  unfold spendTotals. revert t. induction names as [|name names IH] using rev_ind; intros t.
  - intros [= <-]. unfold totals_add. cbn. lia.
  - rewrite foldM_app. intros (t1 & H1 & H2)%bind_Ok. specialize (IH t1 H1).
    cbn [foldM] in H2. inv_ok. match goal with H : spendEntry _ _ _ _ _ _ = _ |- _ => apply spendEntry_adds in H end.
    unfold totals_add in *. rewrite !fmap_app, !zsum_app. cbn in *. lia.
Qed.
End Totals.

(** A claim that passed the check fits the limits together with the claims since the cutoff. *)
Lemma within_limits_bounds d i limits now :
  dir_ok d -> intent_typed i -> permitsSingle limits (FundingNanoTOS i) = true ->
  MaxFundingPerWalletNanoTOS limits < two64 -> MaxFundingPerTargetNanoTOS limits < two64 ->
  within_limits d i limits now ->
  let since g := spent_since g (Unix (now - LimitWindow limits)) d in
  since each_claim + 1 <= MaxActionsPerWallet limits /\
  since FundingNanoTOS + FundingNanoTOS i <= MaxFundingPerWalletNanoTOS limits /\
  since (on_target (TargetObjectID i) each_claim) + 1 <= MaxActionsPerTarget limits /\
  since (on_target (TargetObjectID i) FundingNanoTOS) + FundingNanoTOS i <= MaxFundingPerTargetNanoTOS limits.
Proof.
  intros Hd [[Hf0 Hf1] _] Hp Hw1 Hw2 (fails & t & Ht & Hc).
  apply (spendTotals_sum d Hd) in Ht. unfold totals_add, weight_at in Ht.
  rewrite sort_strings_Permutation, <-!map_sum_dom in Ht. cbn in Ht. cbn. unfold spent_since.
  unfold permitsSingle in Hp. unfold checkTotals in Hc. inv_ok.
  rewrite !wrap64_small in * by (red; lia). lia.
Qed.

(** A measure of intents that survives the JSON encoding of a stored slot. *)
Definition stable_measure (g : RelayIntent -> Z) : Prop :=
  forall i, 0 <= FundingNanoTOS i -> utf8_ok (TargetObjectID i) = true -> g (json_intent i) = g i /\ 0 <= g i.

Lemma stable_each_claim : stable_measure each_claim.
Proof. intros i _ _. unfold each_claim. lia. Qed.
Lemma stable_funding : stable_measure FundingNanoTOS.
Proof. by intros i H _. Qed.
Lemma stable_on_target target g : stable_measure g -> stable_measure (on_target target g).
Proof.
  intros Hg i Hi Hu. destruct (Hg i Hi Hu) as [E ?]. unfold on_target. cbn. rewrite (utf8_ok_text _ Hu), E.
  case_bool_decide; done || lia.
Qed.

(** *** Every operation keeps the directory in shape and changes no measure, a claim apart *)

Section Windows.
Context (limits : RelaySpendLimits) (g : RelayIntent -> Z) (Hg : stable_measure g).

Definition window_seconds : Z := LimitWindow limits / Second.
Definition spent_in_window (t : Z) (d : dir file) : Z := spent_between g t (t + window_seconds) d.
Definition window_bounded (bound : Z) (d : dir file) : Prop := forall t, spent_in_window t d <= bound.

Lemma advance_ok d i s p :
  dir_ok d -> stored_slot d i s ->
  let d' := <[slotPath (IntentSlotIdentity i) := SlotFile (with_phase s p)]> d in
  dir_ok d' /\ forall t, spent_in_window t d' = spent_in_window t d.
Proof using Hg.
  intros Hd (f & Hf & Hs). cbn. pose proof (Hd _ _ Hf) as Hok.
  destruct f as [r|r|]; cbn in *; [|by rewrite is_slot_name_slotPath in Hok|done].
  injection Hs as <-. destruct Hok as (? & Hpos & Hu). split.
  - apply map_Forall_insert_2; [|done]. cbn. split_and!; [done|done|].
    by rewrite (utf8_ok_text _ Hu).
  - intros t. unfold spent_in_window, spent_between. rewrite (map_sum_insert _ _ _ _ _ Hf). cbn.
    destruct (Hg (SlotIntent r) Hpos Hu) as [-> _]. lia.
Qed.

Lemma bind_ok d d' k a : dir_ok d -> binds d d' k a -> dir_ok d' /\ forall t, spent_in_window t d' = spent_in_window t d.
Proof.
  intros Hd [-> |[Hn ->]]; [done|]. split.
  - apply map_Forall_insert_2; [done|]. exact Hd.
  - intros t. unfold spent_in_window, spent_between. by rewrite map_sum_insert_new.
Qed.

Lemma spent_since_ge d t lo :
  dir_ok d -> lo <= t -> spent_in_window t d <= spent_since g lo d.
Proof using Hg.
  intros Hd Hlo. apply map_sum_le. intros name f Hf. pose proof (Hd name f Hf) as Hok.
  destruct f as [r| |]; cbn in *; [|lia|lia]. destruct Hok as (_ & Hpos & Hu). destruct (Hg _ Hpos Hu) as [_ ?].
  destruct (Z.leb_spec lo (ClaimedUnix r)), (Z.leb_spec t (ClaimedUnix r)), (_ <=? t + _); cbn; lia.
Qed.

Lemma claim_ok bound d d' a i now :
  dir_ok d -> intent_typed i -> claims d d' a i limits now -> window_bounded bound d -> 0 <= bound ->
  (within_limits d i limits now -> permitsSingle limits (FundingNanoTOS i) = true ->
   g i = 0 \/ spent_since g (Unix (now - LimitWindow limits)) d + g i <= bound) ->
  dir_ok d' /\ window_bounded bound d'.
Proof using Hg.
  intros Hd [[Hpos _] Hu] [-> |(Hn & Hp & _ & Hw & ->)] Hb Hb0 Hfit; [done|]. specialize (Hfit Hw Hp). split.
  - apply map_Forall_insert_2; [|exact Hd]. cbn. split_and!; [apply is_slot_name_slotPath|done|done].
  - intros t. unfold spent_in_window, spent_between. rewrite map_sum_insert_new by done. cbn.
    change (map_sum _ d) with (spent_in_window t d).
    destruct (Z.leb_spec t (Unix now)), (Z.leb_spec (Unix now) (t + window_seconds)); cbn; try apply Hb.
    destruct Hfit as [-> |Hfit]; [apply Hb|].
    enough (spent_in_window t d <= spent_since g (Unix (now - LimitWindow limits)) d) by lia.
    apply spent_since_ge; [done|]. unfold Unix, window_seconds, Second in *. dlia.
Qed.
End Windows.

(** The four budgets of a set of limits, as a measure and its bound. *)
Inductive budget (limits : RelaySpendLimits) : (RelayIntent -> Z) -> Z -> Prop :=
  | wallet_actions : budget limits each_claim (MaxActionsPerWallet limits)
  | wallet_funding : budget limits FundingNanoTOS (MaxFundingPerWalletNanoTOS limits)
  | target_actions T : budget limits (on_target T each_claim) (MaxActionsPerTarget limits)
  | target_funding T : budget limits (on_target T FundingNanoTOS) (MaxFundingPerTargetNanoTOS limits).

Definition limits_typed (l : RelaySpendLimits) : Prop :=
  u64 (MaxActionsPerTarget l) /\ u64 (MaxFundingPerTargetNanoTOS l) /\
  u64 (MaxActionsPerWallet l) /\ u64 (MaxFundingPerWalletNanoTOS l).

Lemma budget_stable limits g bound : budget limits g bound -> stable_measure g.
Proof. destruct 1; auto using stable_each_claim, stable_funding, stable_on_target. Qed.

Lemma budget_fits limits g bound d i now :
  limits_typed limits -> budget limits g bound -> dir_ok d -> intent_typed i ->
  within_limits d i limits now -> permitsSingle limits (FundingNanoTOS i) = true ->
  g i = 0 \/ spent_since g (Unix (now - LimitWindow limits)) d + g i <= bound.
Proof.
  intros (_ & [_ ?] & _ & [_ ?]) Hbud Hd Hi Hw Hp.
  destruct (within_limits_bounds d i limits now) as (? & ? & ? & ?); try done.
  destruct Hbud as [| |T|T]; [right; done|right; done|..]; unfold on_target at 1 3;
    (case_bool_decide as E; [right; subst T; done|by left]).
Qed.

Lemma journal_step_window limits g bound d fails op :
  limits_typed limits -> budget limits g bound -> dir_ok d -> intent_typed (op_intent op) ->
  window_bounded limits g bound d ->
  dir_ok (journal_step limits d fails op).1 /\ window_bounded limits g bound (journal_step limits d fails op).1.
Proof.
  intros Hl Hbud Hd Hi Hb. pose proof (budget_stable _ _ _ Hbud) as Hg.
  assert (0 <= bound) as Hb0 by (destruct Hl as ([? _] & [? _] & [? _] & [? _]); by destruct Hbud).
  assert (forall d', dir_ok d' /\ (forall t, spent_in_window limits g t d' = spent_in_window limits g t d) ->
    dir_ok d' /\ window_bounded limits g bound d') as Hsame.
  { intros d' [? E]. split; [done|]. intros t. rewrite E. apply Hb. }
  destruct op as [k a i|k a i now|a i|a i]; cbn in *.
  - by rewrite <-Lookup_reads.
  - destruct (Begin_cases fails k a i limits now d) as (d1 & Hc & Hbind).
    destruct (claim_ok limits g Hg bound d d1 a i now) as [Hd1 Hb1]; try done; [by eapply budget_fits|].
    destruct (bind_ok limits g d1 _ k a Hd1 Hbind) as [? E]. split; [done|]. intros t. rewrite E. apply Hb1.
  - pose proof (Acquire_cases fails a i d) as H. destruct (AcquireBroadcastLease fails a i d) as [d' r]. cbn.
    destruct H as [[-> _]|(s & Hs & _ & _ & ->)]; [done|]. apply Hsame, advance_ok; done.
  - pose proof (Complete_cases fails a i d) as H. destruct (Complete fails a i d) as [d' r]. cbn.
    destruct H as [-> |(s & Hs & _ & _ & ->)]; [done|]. apply Hsame, advance_ok; done.
Qed.

(** C21: Starting from an empty directory, with any callers, any failures and any clock (also one
    that jumps back), the fee-spend claims made in any window of the configured length stay
    within the limits: the number of claims and their funding, for the wallet and for each
    target object.  (The hypotheses are the Go types of the limits and intents, and that
    target identifiers are valid UTF-8.) *)
Theorem relay_spend_window limits g bound ops t :
  limits_typed limits -> budget limits g bound -> Forall (fun o => intent_typed (op_intent o.2)) ops ->
  spent_in_window limits g t (journal_run limits ∅ ops).1 <= bound.
Proof.
  intros Hl Hbud Hops.
  enough (forall d, dir_ok d -> window_bounded limits g bound d ->
    window_bounded limits g bound (journal_run limits d ops).1) as H.
  { apply H; [apply map_Forall_empty|]. intros t'. unfold spent_in_window, spent_between. rewrite map_sum_empty.
    destruct Hl as ([? _] & [? _] & [? _] & [? _]); by destruct Hbud. }
  clear t. induction Hops as [|[fails op] ops Hop Hops IH]; intros d Hd Hb; [done|]. cbn in *.
  destruct (journal_step_window limits g bound d fails op) as [Hd1 Hb1]; try done.
  destruct (journal_step limits d fails op) as [d1 lease]. cbn in *. specialize (IH d1 Hd1 Hb1).
  by destruct (journal_run limits d1 ops).
Qed.

(** ** The life of a claim, without failures *)

Definition no_failure : io := fun _ => false.

Definition text_ok (k a : string) (i : RelayIntent) : bool :=
  forallb utf8_ok [k; a; ActionHash i; Destination i; BodyHash i; StateInitHash i; IntentSlotIdentity i; TargetObjectID i].

Lemma text_ok_json k a i : text_ok k a i = true -> json_text k = k /\ json_text a = a /\ json_intent i = i.
Proof.
  unfold text_ok. cbn. intros H. repeat (apply andb_true_iff in H as [?%utf8_ok_text H]).
  split_and!; [done|done|]. destruct i. unfold json_intent. cbn in *. congruence.
Qed.

(** The directory holds the claim of [i] by [a] in phase [p], and its request key. *)
Definition holds_slot (d : dir file) (a : string) (i : RelayIntent) (p : relaySlotPhase) : Prop :=
  exists s, stored_slot d i s /\ relaySlotRecord_valid s = true /\ matches s a i = true /\ Phase s = p.
Definition holds_request (d : dir file) (k a : string) : Prop :=
  exists f, d !! requestPath k = Some f /\ Unmarshal_request f = Some {| RequestKey := k; RequestAction := a |}.

Lemma matches_eq s a i : matches s a i = true -> SlotAction s = a /\ SlotIdentity s = IntentSlotIdentity i /\ SlotIntent s = i.
Proof. unfold matches. rewrite !andb_true_iff, !bool_decide_eq_true. tauto. Qed.

Lemma readSlot_held d a i p :
  holds_slot d a i p ->
  exists s, readSlot false (IntentSlotIdentity i) d = (d, Ok (Some s)) /\ matches s a i = true /\ Phase s = p.
Proof.
  intros (s & (f & Hf & Hs) & Hv & Hm & Hp). exists s. split_and!; try done.
  unfold readSlot, rewrap, readFile, mbind, action_bind. cbn. rewrite Hf, Hs, Hv.
  apply matches_eq in Hm as (_ & E & _). by rewrite bool_decide_true.
Qed.

Lemma readRequest_held d k a :
  nonempty a = true -> holds_request d k a ->
  readRequest false k d = (d, Ok (Some {| RequestKey := k; RequestAction := a |})).
Proof.
  intros Ha (f & Hf & Hr). unfold readRequest, rewrap, readFile, mbind, action_bind. cbn. rewrite Hf, Hr. cbn.
  by rewrite bool_decide_true, Ha.
Qed.

Lemma slot_request_paths id k : slotPath id <> requestPath k.
Proof. done. Qed.

Section Life.
Context (k a : string) (i : RelayIntent) (limits : RelaySpendLimits).
Context (Hk : nonempty k = true) (Ha : nonempty a = true) (Hi : RelayIntent_valid i = true).
Context (Hlim : permitsSingle limits (FundingNanoTOS i) = true) (Htext : text_ok k a i = true).

Lemma begin_guard now : now <> zeroTime ->
  negb (nonempty k) || negb (nonempty a) || negb (RelayIntent_valid i) ||
  negb (permitsSingle limits (FundingNanoTOS i)) || (now =? zeroTime) = false.
Proof using Hk Ha Hi Hlim. intros H. rewrite Hk, Ha, Hi, Hlim. by apply Z.eqb_neq in H as ->. Qed.

(** Retrying a held claim changes nothing and reports its phase. *)
Lemma Begin_held d p now :
  now <> zeroTime -> holds_slot d a i p -> holds_request d k a ->
  Begin no_failure k a i limits now d =
    (d, match p with
        | relaySlotPrepared => Ok (false, ""%string)
        | relaySlotBroadcasting => Ok (false, ActionHash i)
        | relaySlotComplete => Ok (true, ActionHash i)
        | relaySlotOther _ => Err "invalid Native relay state-slot phase"%string
        end).
Proof using Hk Ha Hi Hlim.
  intros Hnow Hs Hr. pose proof (readRequest_held d k a Ha Hr) as Er.
  destruct (readSlot_held d a i p Hs) as (s & Es & Hm & Hp).
  pose proof (matches_eq _ _ _ Hm) as (Ea & _ & Ei). destruct Hr as (fr & Hfr & Hdr).
  unfold Begin, guard. rewrite begin_guard by done.
  unfold no_failure, withExclusiveLock, beginLocked, beginSlot, recordRequest, confirmRequest, rewrap, guard, mbind, action_bind, done_with.
  cbn. rewrite Er. cbn. rewrite bool_decide_true by done. cbn. rewrite Es. cbn. rewrite Ea, bool_decide_true, Hm by done. cbn.
  unfold atomicCreate. cbn. rewrite Hfr, Er. cbn. rewrite bool_decide_true by done. cbn.
  rewrite Hp, Ei. by destruct p.
Qed.

Lemma claimSlot_fresh now d d' s :
  d !! slotPath (IntentSlotIdentity i) = None -> claimSlot no_failure a i limits now d = (d', Ok s) ->
  s = claimed_slot a i now /\ d' = <[slotPath (IntentSlotIdentity i) := SlotFile (claimed_slot a i now)]> d.
Proof using Hi Hlim.
  intros Hn H. unfold claimSlot in H.
  match type of H with mbind ?f ?m d = _ => destruct (bind_read m f d) as [(? & _ & E)|(? & E & Hx)] end;
    [unfold enforceSpendLimits; solve_keeps|rewrite E in H; clear E|rewrite E in H; by injection H as -> ->].
  apply action_bind_Ok in H as (d1 & c & Hc & (? & ? & Hg & [= -> <-])%action_bind_Ok).
  unfold rewrap, atomicCreate in Hc. cbn in Hc. rewrite Hn in Hc. injection Hc as <- <-. by injection Hg as <-.
Qed.

Lemma beginSlot_fresh now d d' s :
  d !! slotPath (IntentSlotIdentity i) = None -> beginSlot no_failure k a i limits now d = (d', Ok s) ->
  s = claimed_slot a i now /\ d' = <[slotPath (IntentSlotIdentity i) := SlotFile (claimed_slot a i now)]> d.
Proof using Hi Hlim.
  intros Hn H. unfold beginSlot in H.
  repeat match type of H with
  | mbind ?f ?m d = _ =>
      let E := fresh "E" in destruct (bind_read m f d) as [(? & ? & E)|(? & E & ?)];
      [auto with keeps typeclass_instances|rewrite E in H; clear E|rewrite E in H; by injection H as -> ->]
  end.
  destruct (readSlot_cases (no_failure ReadSlot) (IntentSlotIdentity i) d) as [[E' _]|[(f & s' & _ & ? & _)|[e E']]];
    [|congruence|congruence].
  assert (x1 = None) as -> by congruence. by apply claimSlot_fresh.
Qed.

Lemma recordRequest_holds d d' :
  recordRequest no_failure {| RequestKey := k; RequestAction := a |} d = (d', Ok tt) ->
  holds_request d' k a /\ binds d d' k a.
Proof using Htext.
  intros H. pose proof (recordRequest_binds no_failure k a d) as Hb. rewrite H in Hb. cbn [fst] in Hb. split; [|done].
  destruct (text_ok_json _ _ _ Htext) as (Tk & Ta & _).
  destruct Hb as [-> |[_ ->]].
  - unfold recordRequest in H. apply action_bind_Ok in H as (d1 & c & Hc & Hq). unfold atomicCreate in Hc. cbn in Hc, Hq.
    destruct (d !! requestPath k) as [f|] eqn:Ef; injection Hc as <- <-.
    + apply action_bind_Ok in Hq as (d2 & ex & Hex & Hq). unfold rewrap in Hex. cbn in Hex.
      destruct (readRequest_cases (no_failure RereadRequest) k d) as [[_ ?]|[(f' & r & Er & Hf & Hu & _)|[e Er]]];
        [congruence| |by rewrite Er in Hex].
      rewrite Er in Hex. injection Hex as <- <-. injection Hq as Hq.
      apply fail_if_Ok, negb_false_iff, bool_decide_eq_true in Hq. injection Hq as ->. by exists f'.
    + injection Hq as Hq. apply (f_equal (lookup (requestPath k))) in Hq. by rewrite lookup_insert_eq, Ef in Hq.
  - eexists. rewrite lookup_insert_eq. split; [done|]. cbn. by rewrite Tk, Ta.
Qed.

Lemma claimed_holds now d :
  0 < Unix now ->
  holds_slot (<[slotPath (IntentSlotIdentity i) := SlotFile (claimed_slot a i now)]> d) a i relaySlotPrepared.
Proof using Ha Hi Htext.
  intros Hnow. destruct (text_ok_json _ _ _ Htext) as (_ & Ta & Ti).
  exists (claimed_slot a i now). split_and!; [| | |done].
  - eexists. rewrite lookup_insert_eq. split; [done|]. cbn. unfold json_slot, claimed_slot. cbn.
    rewrite Ta, Ti. do 2 f_equal. by apply (f_equal IntentSlotIdentity) in Ti.
  - unfold relaySlotRecord_valid. cbn. rewrite Ha, Hi, bool_decide_true by done.
    unfold RelayIntent_valid in Hi. apply andb_true_iff in Hi as [[_ ->]%andb_true_iff _]. cbn. by apply Z.ltb_lt in Hnow as ->.
  - unfold matches. cbn. by rewrite !bool_decide_true.
Qed.

Lemma holds_slot_bind d d' p : binds d d' k a -> holds_slot d a i p -> holds_slot d' a i p.
Proof.
  intros [-> |[_ ->]]; [done|]. intros (s & (f & ? & ?) & ?). exists s. split; [|done]. exists f.
  by rewrite lookup_insert_ne.
Qed.

Lemma Begin_fresh now d d1 r :
  0 < Unix now -> d !! slotPath (IntentSlotIdentity i) = None ->
  Begin no_failure k a i limits now d = (d1, Ok r) ->
  r = (false, ""%string) /\ holds_slot d1 a i relaySlotPrepared /\ holds_request d1 k a.
Proof using Hk Ha Hi Hlim Htext.
  intros Hnow Hs H. unfold Begin, guard in H. rewrite begin_guard in H by (intros ->; done).
  apply action_bind_Ok in H as (? & ? & [= <- <-] & (d2 & slot & Hslot & (d3 & [] & Hreq & H)%action_bind_Ok)%action_bind_Ok).
  apply beginSlot_fresh in Hslot as [-> ->]; [|done]. apply recordRequest_holds in Hreq as [? ?].
  cbn in H. injection H as <- <-. split_and!; [done| |done].
  by eapply holds_slot_bind, claimed_holds.
Qed.

(** The phases of a held claim. *)
Lemma replace_holds d p p' s :
  known_phase p' = true -> holds_slot d a i p -> stored_slot d i s ->
  holds_slot (<[slotPath (IntentSlotIdentity i) := SlotFile (with_phase s p')]> d) a i p'.
Proof using Htext.
  intros Hp' (s' & (f' & Hf' & Hs') & Hv & Hm & _) (f & Hf & Hs). assert (s' = s) as -> by congruence.
  destruct (text_ok_json _ _ _ Htext) as (_ & Ta & Ti). apply matches_eq in Hm as (Ea & Eid & Ei).
  assert (json_slot (with_phase s p') = with_phase s p') as E.
  { unfold json_slot, with_phase. cbn. rewrite Ea, Eid, Ei, Ta, Ti.
    assert (json_text (IntentSlotIdentity i) = IntentSlotIdentity i) as -> by (by apply (f_equal IntentSlotIdentity) in Ti).
    by destruct p'. }
  exists (with_phase s p'). split_and!; [| | |done].
  - eexists. rewrite lookup_insert_eq. split; [done|]. cbn. by rewrite E.
  - unfold relaySlotRecord_valid in *. cbn. rewrite Hp'. rewrite !andb_true_iff in Hv |- *. tauto.
  - unfold matches. cbn. by rewrite Ea, Eid, Ei, !bool_decide_true.
Qed.

Lemma ownSlot_held d p e :
  holds_slot d a i p ->
  exists s, ownSlot no_failure a i e d = (d, Ok s) /\ Phase s = p /\ stored_slot d i s.
Proof.
  intros H. destruct (readSlot_held d a i p H) as (s & Es & Hm & Hp). exists s.
  unfold ownSlot, rewrap, guard, done_with, mbind, action_bind, no_failure. cbn. rewrite Es. cbn. rewrite Hm. cbn.
  split_and!; [done|done|]. destruct (readSlot_cases false (IntentSlotIdentity i) d) as [[E _]|[(f & s' & E & ? & ? & _)|[? E]]];
    rewrite Es in E; [done| |done]. injection E as <-. by exists f.
Qed.

Lemma Acquire_held d p :
  holds_slot d a i p ->
  match p with
  | relaySlotPrepared => exists d', AcquireBroadcastLease no_failure a i d = (d', Ok (true, false)) /\
      holds_slot d' a i relaySlotBroadcasting /\ forall key, d' !! requestPath key = d !! requestPath key
  | relaySlotBroadcasting => AcquireBroadcastLease no_failure a i d = (d, Ok (false, false))
  | relaySlotComplete => AcquireBroadcastLease no_failure a i d = (d, Ok (false, true))
  | relaySlotOther _ => True
  end.
Proof using Ha Hi Htext.
  intros H. destruct (ownSlot_held d p "Native relay broadcast lease mismatch" H) as (s & Es & Hp & Hs).
  assert (forall x, AcquireBroadcastLease no_failure a i d = x <->
    (match p with
    | relaySlotPrepared => replaceSlot no_failure (with_phase s relaySlotBroadcasting) i;; mret (true, false)
    | relaySlotBroadcasting => mret (false, false)
    | relaySlotComplete => mret (false, true)
    | relaySlotOther _ => done_with (Err "invalid Native relay state-slot phase"%string) end : jaction (bool * bool)) d = x) as Eq.
  { intros x. unfold AcquireBroadcastLease, guard, done_with at 1, withExclusiveLock, mbind at 1 2, action_bind at 1 2.
    rewrite Ha, Hi. cbn. rewrite Es, Hp. by destruct p. }
  destruct p; try (apply Eq; reflexivity); [|done].
  eexists. split; [apply Eq; reflexivity|]. split; [by eapply replace_holds|].
  intros key. by rewrite lookup_insert_ne.
Qed.

Lemma Complete_held d p :
  holds_slot d a i p ->
  match p with
  | relaySlotBroadcasting => exists d', Complete no_failure a i d = (d', Ok tt) /\
      holds_slot d' a i relaySlotComplete /\ forall key, d' !! requestPath key = d !! requestPath key
  | relaySlotComplete => Complete no_failure a i d = (d, Ok tt)
  | _ => exists e, Complete no_failure a i d = (d, Err e)
  end.
Proof using Ha Hi Htext.
  intros H. destruct (ownSlot_held d p "Native relay journal completion mismatch" H) as (s & Es & Hp & Hs).
  assert (Complete no_failure a i d =
    (if bool_decide (p = relaySlotComplete) then mret tt
     else guard (negb (bool_decide (p = relaySlotBroadcasting)))
            "Native relay journal completed without a broadcast lease";;
          replaceSlot no_failure (with_phase s relaySlotComplete) i : jaction unit) d) as ->.
  { unfold Complete, guard at 1, done_with at 1, withExclusiveLock, mbind at 1 2, action_bind at 1 2.
    rewrite Ha, Hi. cbn. by rewrite Es, Hp. }
  destruct p; [by eexists| |done|by eexists].
  eexists. split; [reflexivity|]. split; [by eapply replace_holds|].
  intros key. by rewrite lookup_insert_ne.
Qed.

Lemma Lookup_held d p :
  holds_slot d a i p -> holds_request d k a ->
  Lookup no_failure k a i d =
    (d, match p with
        | relaySlotPrepared => Ok (false, false, ""%string)
        | relaySlotBroadcasting => Ok (true, false, ActionHash i)
        | relaySlotComplete => Ok (true, true, ActionHash i)
        | relaySlotOther _ => Err "invalid Native relay state-slot phase"%string
        end).
Proof using Hk Ha Hi.
  intros Hs Hr. pose proof (readRequest_held d k a Ha Hr) as Er.
  destruct (readSlot_held d a i p Hs) as (s & Es & Hm & Hp).
  pose proof (matches_eq _ _ _ Hm) as (Ea & _ & Ei).
  unfold Lookup, guard, no_failure, mbind, action_bind, done_with. rewrite Hk, Ha, Hi. cbn. rewrite Er. cbn.
  rewrite bool_decide_true by done. cbn. rewrite Es. cbn. rewrite Ea, bool_decide_true, Hm by done. cbn.
  rewrite Hp, Ei. by destruct p.
Qed.
End Life.

(** The life of a claim.  Once a caller's [Begin] has claimed a free slot, and while nothing
    else touches the directory: retrying [Begin] claims nothing more; exactly the first
    request for the broadcast lease gets it; afterwards [Lookup] reports the recorded
    intent, [Complete] ends the claim, and every later [Begin], [Lookup] and lease request
    reports it as complete with the hash of the original action. *)
Theorem relay_claim_lifecycle k a i limits now d d1 r :
  nonempty k = true -> nonempty a = true -> RelayIntent_valid i = true ->
  permitsSingle limits (FundingNanoTOS i) = true -> text_ok k a i = true -> 0 < Unix now ->
  d !! slotPath (IntentSlotIdentity i) = None ->
  Begin no_failure k a i limits now d = (d1, Ok r) ->
  r = (false, ""%string) /\
  (forall now', now' <> zeroTime -> Begin no_failure k a i limits now' d1 = (d1, Ok (false, ""%string))) /\
  exists d2 d3,
    AcquireBroadcastLease no_failure a i d1 = (d2, Ok (true, false)) /\
    AcquireBroadcastLease no_failure a i d2 = (d2, Ok (false, false)) /\
    Lookup no_failure k a i d2 = (d2, Ok (true, false, ActionHash i)) /\
    Complete no_failure a i d2 = (d3, Ok tt) /\
    Lookup no_failure k a i d3 = (d3, Ok (true, true, ActionHash i)) /\
    AcquireBroadcastLease no_failure a i d3 = (d3, Ok (false, true)) /\
    forall now', now' <> zeroTime -> Begin no_failure k a i limits now' d3 = (d3, Ok (true, ActionHash i)).
Proof.
  intros Hk Ha Hi Hlim Ht Hnow Hn H. destruct (Begin_fresh k a i limits Hk Ha Hi Hlim Ht now d d1 r) as (-> & Hs & Hr); try done.
  split; [done|]. split; [intros now' ?; by rewrite (Begin_held k a i limits Hk Ha Hi Hlim d1 relaySlotPrepared)|].
  destruct (Acquire_held k a i Ha Hi Ht d1 _ Hs) as (d2 & Hacq & Hs2 & Hreq2).
  destruct (Complete_held k a i Ha Hi Ht d2 _ Hs2) as (d3 & Hcom & Hs3 & Hreq3).
  assert (holds_request d2 k a) as Hr2 by (unfold holds_request; by rewrite Hreq2).
  assert (holds_request d3 k a) as Hr3 by (unfold holds_request; by rewrite Hreq3).
  exists d2, d3. split_and!; [done| | |done| | |].
  - apply (Acquire_held k a i Ha Hi Ht d2 _ Hs2).
  - by apply (Lookup_held k a i Hk Ha Hi d2 relaySlotBroadcasting).
  - by apply (Lookup_held k a i Hk Ha Hi d3 relaySlotComplete).
  - apply (Acquire_held k a i Ha Hi Ht d3 _ Hs3).
  - intros now' ?. by rewrite (Begin_held k a i limits Hk Ha Hi Hlim d3 relaySlotComplete).
Qed.

Ltac split_guard :=
  match goal with |- context [if ?b then (?d, Err _) else _] => destruct b; [by eauto|] end.

(** A slot record that is not the caller's, or that disagrees with any field of the caller's
    intent, makes [Begin], the lease request and [Complete] fail without any change,
    whatever else happens. *)
Theorem relay_conflict_rejected fails k a i limits now d s :
  stored_slot d i s -> matches s a i = false ->
  (exists e, Begin fails k a i limits now d = (d, Err e)) /\
  (exists e, AcquireBroadcastLease fails a i d = (d, Err e)) /\
  (exists e, Complete fails a i d = (d, Err e)).
Proof.
  intros (f & Hf & Hs) Hm.
  assert (forall e, exists e', ownSlot fails a i e d = (d, Err e')) as Hown.
  { intros e. destruct (ownSlot_cases fails a i e d) as [(s' & _ & (f' & ? & ?) & ? & _)|?]; [congruence|done]. }
  assert (exists e, beginSlot fails k a i limits now d = (d, Err e)) as [eb Hbeg].
  { unfold beginSlot.
    destruct (readRequest_cases (fails ReadRequest) k d) as [[Er _]|[(f' & r & Er & _)|[e Er]]];
      rewrite (bind_run _ _ _ _ _ Er); [| |by eauto]; rewrite guard_bind; try split_guard; cbv beta iota;
      (destruct (readSlot_cases (fails ReadSlot) (IntentSlotIdentity i) d) as [[Es ?]|[(f2 & s2 & Es & ? & ? & _)|[e Es]]];
       [congruence| |rewrite (bind_run _ _ _ _ _ Es); by eauto]);
      rewrite (bind_run _ _ _ _ _ Es), guard_bind; assert (s2 = s) as -> by congruence;
      split_guard; rewrite guard_bind, Hm; by eauto. }
  unfold Begin, AcquireBroadcastLease, Complete, withExclusiveLock. rewrite !guard_bind.
  split_and!; split_guard; (destruct (fails LockFile); [by eexists|]).
  - unfold beginLocked. rewrite (bind_run _ _ _ _ _ Hbeg). by eauto.
  - destruct (Hown "Native relay broadcast lease mismatch"%string) as [e He]. rewrite (bind_run _ _ _ _ _ He). by eauto.
  - destruct (Hown "Native relay journal completion mismatch"%string) as [e He]. rewrite (bind_run _ _ _ _ _ He). by eauto.
Qed.

(** ** The properties at a concrete claim *)

Lemma readSlot_absent id d : d !! slotPath id = None -> readSlot false id d = (d, Ok None).
Proof. intros E. unfold readSlot, rewrap, readFile, mbind, action_bind. cbn. by rewrite E. Qed.

Lemma readRequest_absent k d : d !! requestPath k = None -> readRequest false k d = (d, Ok None).
Proof. intros E. unfold readRequest, rewrap, readFile, mbind, action_bind. cbn. by rewrite E. Qed.

Lemma enforce_empty i limits now :
  permitsSingle limits (FundingNanoTOS i) = true -> limits_typed limits -> intent_typed i ->
  enforceSpendLimits no_failure i limits now ∅ = (∅, Ok tt).
Proof.
  intros Hp (_ & [? ?] & _ & [? ?]) [[? ?] _].
  assert (checkTotals i limits zeroTotals = Ok tt) as Hc.
  { unfold checkTotals. unfold permitsSingle, RelaySpendLimits_valid in Hp. cbn.
    rewrite !wrap64_small by (red; lia). rewrite !(proj2 (Z.leb_gt _ _)), !(proj2 (Z.ltb_ge _ _)) by lia. done. }
  unfold enforceSpendLimits, readDir, mbind, action_bind, inspect. cbn [no_failure].
  rewrite dom_empty_L, elements_empty. by rewrite <-Hc.
Qed.

Lemma claimSlot_empty a i limits now :
  permitsSingle limits (FundingNanoTOS i) = true -> limits_typed limits -> intent_typed i ->
  claimSlot no_failure a i limits now ∅ =
    (<[slotPath (IntentSlotIdentity i) := SlotFile (claimed_slot a i now)]> ∅, Ok (claimed_slot a i now)).
Proof.
  intros Hp Hl Hi. unfold claimSlot. rewrite (bind_run _ _ _ _ _ (enforce_empty i limits now Hp Hl Hi)).
  unfold rewrap, atomicCreate, mbind, action_bind. cbn. by rewrite lookup_empty.
Qed.

Lemma Begin_empty k a i limits now :
  nonempty k = true -> nonempty a = true -> RelayIntent_valid i = true -> now <> zeroTime ->
  permitsSingle limits (FundingNanoTOS i) = true -> limits_typed limits -> intent_typed i ->
  Begin no_failure k a i limits now ∅ =
    (<[requestPath k := RequestFile {| RequestKey := k; RequestAction := a |}]>
     (<[slotPath (IntentSlotIdentity i) := SlotFile (claimed_slot a i now)]> ∅), Ok (false, ""%string)).
Proof.
  intros Hk Ha Hi Hz Hp Hl Ht. unfold Begin. rewrite guard_bind, Hk, Ha, Hi, Hp. apply Z.eqb_neq in Hz as ->.
  cbn [negb orb]. unfold withExclusiveLock, no_failure at 1, beginLocked.
  assert (beginSlot no_failure k a i limits now ∅ =
    (<[slotPath (IntentSlotIdentity i) := SlotFile (claimed_slot a i now)]> ∅, Ok (claimed_slot a i now))) as Hb.
  { unfold beginSlot. rewrite (bind_run _ _ _ _ _ (readRequest_absent k ∅ (lookup_empty _))), guard_bind.
    rewrite (bind_run _ _ _ _ _ (readSlot_absent _ ∅ (lookup_empty _))), !guard_bind. by apply claimSlot_empty. }
  rewrite (bind_run _ _ _ _ _ Hb). unfold recordRequest, atomicCreate, mbind, action_bind. cbn.
  by rewrite lookup_insert_ne, lookup_empty.
Qed.

Module Sample.
Definition intent : RelayIntent :=
  {| ActionHash := "tvm-cell-sha256:01"; Destination := "0:02"; QueryID := 7; BodyHash := "sha256:03";
     StateInitHash := "sha256:04"; FundingNanoTOS := 200000000; IntentSlotIdentity := "sha256:05";
     TargetObjectID := "agent_06" |}.
Definition limits : RelaySpendLimits :=
  {| LimitWindow := Hour; MaxActionsPerTarget := 2; MaxFundingPerTargetNanoTOS := 500000000;
     MaxActionsPerWallet := 3; MaxFundingPerWalletNanoTOS := 700000000 |}.
Definition now : Z := 1700000000 * Second.
Definition history : list (io * journal_op) :=
  [(no_failure, JBegin "k1" "a1" intent now); (no_failure, JAcquire "a1" intent);
   (fun _ => true, JBegin "k2" "a2" intent now)].

Lemma limits_ok : limits_typed limits.
Proof. repeat split; vm_compute; done. Qed.

Lemma intent_ok : intent_typed intent.
Proof. repeat split; vm_compute; done. Qed.

Lemma begun : Begin no_failure "k1" "a1" intent limits now ∅ =
    (<[requestPath "k1" := RequestFile {| RequestKey := "k1"; RequestAction := "a1" |}]>
     (<[slotPath (IntentSlotIdentity intent) := SlotFile (claimed_slot "a1" intent now)]> ∅), Ok (false, ""%string)).
Proof. apply Begin_empty; vm_compute; done. Qed.

Lemma relay_spend_window_witness :
  spent_in_window limits FundingNanoTOS 1699999000 (journal_run limits ∅ history).1 <= 700000000.
Proof.
  apply (relay_spend_window limits FundingNanoTOS _ history 1699999000 limits_ok (wallet_funding limits)).
  repeat constructor; vm_compute; done.
Defined.

Lemma relay_claim_lifecycle_witness : exists d1 d2,
  Begin no_failure "k1" "a1" intent limits now ∅ = (d1, Ok (false, ""%string)) /\
  AcquireBroadcastLease no_failure "a1" intent d1 = (d2, Ok (true, false)).
Proof.
  destruct (relay_claim_lifecycle "k1" "a1" intent limits now ∅ _ _ eq_refl eq_refl eq_refl eq_refl eq_refl
    ltac:(vm_compute; done) (lookup_empty _) begun) as (_ & _ & d2 & d3 & Ha & _).
  eexists _, d2. split; [exact begun|exact Ha].
Defined.

(** Another action cannot take the slot, nor the same action with another body. *)
Lemma relay_conflict_rejected_witness :
  let d := <[slotPath (IntentSlotIdentity intent) := SlotFile (claimed_slot "a1" intent now)]> ∅ in
  exists e, AcquireBroadcastLease no_failure "a2" intent d = (d, Err e).
Proof.
  intros d. destruct (relay_conflict_rejected no_failure "k2" "a2" intent limits now d
    (json_slot (claimed_slot "a1" intent now))) as (_ & Ha & _).
  - eexists. split; [apply lookup_insert_eq|reflexivity].
  - vm_compute. reflexivity.
  - exact Ha.
Defined.
End Sample.
