(* ===== verification/Relay.v ===== *)
(** * The Native relayer's use of its journal (src/pkg/nativecore/relay.go)

    [RelayJournal] is the interface of the source as a class: its four methods,
    and the promise the relayer relies on (a slot's broadcast lease is granted at
    most once and never given back).  [FileRelayJournal] is the instance.

    [submit] from the journal lookup on, and [resolveRecordedIntent], are a
    thread that makes one journal, chain or sender call per step, so that the
    steps of any number of concurrent submissions interleave freely.  What the
    chain and the sender answer, and whether the signatures and the preflight of
    the target state pass, is up to the environment of each step. *)

From S2P Require Import Prelude Text Sha256 FileStore RelayJournal.

Class RelayJournal := {
  jstate : Type;
  jenv : Type;
  jLookup : jenv -> string -> string -> RelayIntent -> jstate -> jstate * result string (bool * bool * string);
  jBegin : jenv -> string -> string -> RelayIntent -> RelaySpendLimits -> Z -> jstate ->
           jstate * result string (bool * string);
  jAcquireBroadcastLease : jenv -> string -> RelayIntent -> jstate -> jstate * result string (bool * bool);
  jComplete : jenv -> string -> RelayIntent -> jstate -> jstate * result string unit;
  jleased : string -> jstate -> Prop;
  jLookup_leased e k a i st slot : jleased slot st -> jleased slot (jLookup e k a i st).1;
  jBegin_leased e k a i l now st slot : jleased slot st -> jleased slot (jBegin e k a i l now st).1;
  jAcquire_leased e a i st slot : jleased slot st -> jleased slot (jAcquireBroadcastLease e a i st).1;
  jComplete_leased e a i st slot : jleased slot st -> jleased slot (jComplete e a i st).1;
  jAcquire_once e a i st c :
    (jAcquireBroadcastLease e a i st).2 = Ok (true, c) ->
    ~ jleased (IntentSlotIdentity i) st /\ jleased (IntentSlotIdentity i) (jAcquireBroadcastLease e a i st).1 }.

(** The file journal keeps the promise (on any directory, with any failures). *)
Definition no_limits : RelaySpendLimits :=
  {| LimitWindow := 0; MaxActionsPerTarget := 0; MaxFundingPerTargetNanoTOS := 0;
     MaxActionsPerWallet := 0; MaxFundingPerWalletNanoTOS := 0 |}.

#[global, program] Instance FileRelayJournal : RelayJournal := {|
  jstate := dir file; jenv := io;
  jLookup := Lookup; jBegin := Begin; jAcquireBroadcastLease := AcquireBroadcastLease; jComplete := Complete;
  jleased := leased |}.
Next Obligation. intros e k a i st slot H. by destruct (leased_step no_limits slot st e (JLookup k a i) H). Qed.
Next Obligation. intros e k a i l now st slot H. by destruct (leased_step l slot st e (JBegin k a i now) H). Qed.
Next Obligation.
  intros e a i st slot H. destruct (leased_step no_limits slot st e (JAcquire a i) H) as [Hl _]. cbn in Hl.
  by destruct (AcquireBroadcastLease e a i st).
Qed.
Next Obligation. intros e a i st slot H. by destruct (leased_step no_limits slot st e (JComplete a i) H). Qed.
Next Obligation.
  intros e a i st c H.
  assert ((journal_step no_limits st e (JAcquire a i)).2 = Some (IntentSlotIdentity i)) as Hg
    by (cbn; destruct (AcquireBroadcastLease e a i st) as [d' r]; cbn in H; by rewrite H).
  split.
  - intros Hl. by destruct (leased_step no_limits (IntentSlotIdentity i) st e (JAcquire a i) Hl) as [_ []].
  - apply lease_granted_leased in Hg. cbn in Hg. by destruct (AcquireBroadcastLease e a i st).
Qed.

(** ** One submission *)

Inductive relay_pc :=
  | AtLookup
  | AtPreflight
  | AtBegin
  | AtAcquire
  | AtSend
  | AtComplete
  | AtResolve (complete : bool) (existing : string)
  | AtResolveComplete
  | Returned (r : result string string).

Record submission := {
  idempotencyKey : string;
  actionIdentity : string;
  relayIntent : RelayIntent;
  relayLimits : RelaySpendLimits;
  pc : relay_pc }.

Definition goto (t : submission) (p : relay_pc) : submission :=
  {| idempotencyKey := idempotencyKey t; actionIdentity := actionIdentity t; relayIntent := relayIntent t;
     relayLimits := relayLimits t; pc := p |}.

Section Relayer.
Context `{J : RelayJournal}.

(** What the world answers to the one call of a step: the journal's own environment, the
    clock, an authorization failure, a send failure, the last action hash of the finalized
    target state (if it could be read). *)
Record step_env := {
  journal_env : jenv;
  clock : Z;
  preflight_failure : option string;
  send_failure : option string;
  live_action_hash : option string }.

Definition ambiguous : string := "Native relay outcome is ambiguous; refusing to rebroadcast".

(** A recorded intent is never sent again: it is completed when the finalized state shows it. *)
Definition resolveRecordedIntent (e : step_env) (hash existing : string) (complete : bool) : relay_pc :=
  if complete then Returned (Ok existing)
  else if bool_decide (live_action_hash e = Some hash) then AtResolveComplete
  else Returned (Err ambiguous).

(** The next step of a submission; the last component is the slot broadcast by it. *)
Definition relay_step (e : step_env) (t : submission) (st : jstate) : submission * jstate * option string :=
  let i := relayIntent t in
  let a := actionIdentity t in
  let hash := ActionHash i in
  match pc t with
  | AtLookup =>
      let '(st', r) := jLookup (journal_env e) (idempotencyKey t) a i st in
      (goto t match r with
              | Ok (found, complete, existing) => if found : bool then AtResolve complete existing else AtPreflight
              | Err x => Returned (Err x)
              | Panic w => Returned (Panic w)
              end, st', None)
  | AtPreflight =>
      (goto t match preflight_failure e with Some x => Returned (Err x) | None => AtBegin end, st, None)
  | AtBegin =>
      let '(st', r) := jBegin (journal_env e) (idempotencyKey t) a i (relayLimits t) (clock e) st in
      (goto t match r with
              | Ok (complete, existing) =>
                  if complete : bool then Returned (Ok existing)
                  else if nonempty existing then AtResolve false existing
                  else AtAcquire
              | Err x => Returned (Err x)
              | Panic w => Returned (Panic w)
              end, st', None)
  | AtAcquire =>
      let '(st', r) := jAcquireBroadcastLease (journal_env e) a i st in
      (goto t match r with
              | Ok (acquired, complete) =>
                  if complete : bool then Returned (Ok hash)
                  else if acquired : bool then AtSend
                  else AtResolve false hash
              | Err x => Returned (Err x)
              | Panic w => Returned (Panic w)
              end, st', None)
  | AtSend =>
      (goto t match send_failure e with Some x => Returned (Err x) | None => AtComplete end, st,
       Some (IntentSlotIdentity i))
  | AtComplete | AtResolveComplete =>
      let '(st', r) := jComplete (journal_env e) a i st in
      (goto t (Returned match r with Ok _ => Ok hash | Err x => Err x | Panic w => Panic w end), st', None)
  | AtResolve complete existing =>
      (goto t (resolveRecordedIntent e hash existing complete), st, None)
  | Returned _ => (t, st, None)
  end.

(** ** Concurrent submissions *)

Record relay_system := { threads : list submission; journal : jstate; broadcasts : list string }.

(** The scheduler lets one thread make its next step. *)
Definition system_step (s : relay_system) (pick : nat * step_env) : relay_system :=
  match threads s !! pick.1 with
  | None => s
  | Some t =>
      let '(t', st', sent) := relay_step pick.2 t (journal s) in
      {| threads := <[pick.1 := t']> (threads s); journal := st'; broadcasts := option_list sent ++ broadcasts s |}
  end.

(** Broadcasts of a slot made, and about to be made by threads that hold its lease. *)
Definition about_to_send (slot : string) (t : submission) : bool :=
  bool_decide (IntentSlotIdentity (relayIntent t) = slot) && match pc t with AtSend => true | _ => false end.
Definition count_of {A} (p : A -> bool) (l : list A) : Z := zsum ((fun a => if p a then 1 else 0) <$> l).
Definition sent_or_sending (slot : string) (s : relay_system) : Z :=
  count_of (fun b => bool_decide (b = slot)) (broadcasts s) + count_of (about_to_send slot) (threads s).

Definition relay_inv (slot : string) (s : relay_system) : Prop :=
  sent_or_sending slot s = 0 \/ sent_or_sending slot s = 1 /\ jleased slot (journal s).

Lemma count_of_insert {A} (p : A -> bool) (l : list A) n a b :
  l !! n = Some a ->
  count_of p (<[n := b]> l) = count_of p l - (if p a then 1 else 0) + (if p b then 1 else 0).
Proof.
  unfold count_of. revert n. induction l as [|x l IH]; intros [|n] H; cbn in H; [done..| |].
  - injection H as ->. change (<[0%nat := b]> (a :: l)) with (b :: l). rewrite !fmap_cons, !zsum_cons. lia.
  - change (<[S n := b]> (x :: l)) with (x :: <[n := b]> l).
    rewrite !fmap_cons, !zsum_cons, IH by done. lia.
Qed.

Lemma relay_step_slot e t st : relayIntent (relay_step e t st).1.1 = relayIntent t.
Proof. unfold relay_step. repeat (case_match; try done). Qed.

(** What one step does to the count of a slot and to its lease. *)
Lemma relay_step_effect e t st slot :
  let '(t', st', sent) := relay_step e t st in
  let gain := (if about_to_send slot t' then 1 else 0) - (if about_to_send slot t then 1 else 0) +
              (if bool_decide (sent = Some slot) then 1 else 0) in
  (jleased slot st -> jleased slot st') /\
  (gain = 0 \/ gain = 1 /\ ~ jleased slot st /\ jleased slot st').
Proof.
  unfold relay_step, about_to_send. destruct (pc t) eqn:Ep.
  - pose proof (fun H => jLookup_leased (journal_env e) (idempotencyKey t) (actionIdentity t) (relayIntent t) st slot H) as H.
    destruct (jLookup _ _ _ _ _) as [st' r]. cbn in H. split; [done|]. left.
    destruct r as [[[[] ?] ?]| |]; cbn; rewrite ?andb_false_r; done.
  - split; [done|]. left. destruct (preflight_failure e); cbn; rewrite ?andb_false_r; done.
  - pose proof (fun H => jBegin_leased (journal_env e) (idempotencyKey t) (actionIdentity t) (relayIntent t)
      (relayLimits t) (clock e) st slot H) as H.
    destruct (jBegin _ _ _ _ _ _ _) as [st' r]. cbn in H. split; [done|]. left.
    destruct r as [[[] ex]| |]; cbn; rewrite ?andb_false_r; try done. destruct (nonempty ex); cbn; rewrite ?andb_false_r; done.
  - pose proof (fun H => jAcquire_leased (journal_env e) (actionIdentity t) (relayIntent t) st slot H) as H.
    pose proof (jAcquire_once (journal_env e) (actionIdentity t) (relayIntent t) st) as Ho.
    destruct (jAcquireBroadcastLease _ _ _ _) as [st' r]. cbn in *. split; [done|].
    destruct r as [[acq com]| |]; cbn; rewrite ?andb_false_r; [|by left..].
    destruct com; cbn; rewrite ?andb_false_r; [by left|]. destruct acq; cbn; rewrite ?andb_false_r; [|by left].
    case_bool_decide as Es; cbn; [|by left]. right. subst slot. destruct (Ho false eq_refl). done.
  - split; [done|]. left. cbn. rewrite andb_true_r.
    assert (bool_decide (Some (IntentSlotIdentity (relayIntent t)) = Some slot)
      = bool_decide (IntentSlotIdentity (relayIntent t) = slot)) as -> by (apply bool_decide_ext; naive_solver).
    destruct (send_failure e); cbn; rewrite andb_false_r; by case_bool_decide.
  - pose proof (fun H => jComplete_leased (journal_env e) (actionIdentity t) (relayIntent t) st slot H) as H.
    destruct (jComplete _ _ _ _) as [st' r]. cbn in *. split; [done|]. left. rewrite !andb_false_r. done.
  - split; [done|]. left. destruct complete; cbn; rewrite ?andb_false_r; [done|].
    destruct (bool_decide (live_action_hash e = _)); cbn; rewrite ?andb_false_r; done.
  - pose proof (fun H => jComplete_leased (journal_env e) (actionIdentity t) (relayIntent t) st slot H) as H.
    destruct (jComplete _ _ _ _) as [st' r]. cbn in *. split; [done|]. left. rewrite !andb_false_r. done.
  - split; [done|]. left. rewrite Ep. rewrite !andb_false_r. done.
Qed.

Lemma system_step_inv slot s pick : relay_inv slot s -> relay_inv slot (system_step s pick).
Proof.
  intros Hinv. unfold system_step. destruct (threads s !! pick.1) as [t|] eqn:Et; [|done].
  pose proof (relay_step_effect pick.2 t (journal s) slot) as H.
  destruct (relay_step pick.2 t (journal s)) as [[t' st'] sent]. destruct H as [Hl Hgain].
  assert (sent_or_sending slot {| threads := <[pick.1 := t']> (threads s); journal := st';
      broadcasts := option_list sent ++ broadcasts s |} =
    sent_or_sending slot s + ((if about_to_send slot t' then 1 else 0) - (if about_to_send slot t then 1 else 0) +
      (if bool_decide (sent = Some slot) then 1 else 0))) as E.
  { unfold sent_or_sending. cbn [threads broadcasts]. rewrite (count_of_insert _ _ _ _ _ Et). unfold count_of at 1. rewrite fmap_app, zsum_app.
    fold (count_of (fun b => bool_decide (b = slot)) (broadcasts s)).
    enough (zsum ((fun a => if bool_decide (a = slot) then 1 else 0) <$> option_list sent)
      = if bool_decide (sent = Some slot) then 1 else 0) by lia.
    destruct sent as [x|]; [|done]. cbn. repeat case_bool_decide; naive_solver. }
  unfold relay_inv in *. rewrite E. cbn.
  destruct Hinv as [-> |[-> ?]], Hgain as [-> |(-> & ? & ?)]; [by left|by right|right; auto|done].
Qed.

(** C1: However many submissions run at once, in whatever order their steps interleave, whatever
    the chain, the sender and the clock answer, and whichever journal implementation is
    used: the outbound message of a state slot is handed to the sender at most once. *)
Theorem relay_broadcast_at_most_once s schedule slot :
  broadcasts s = [] -> Forall (fun t => pc t = AtLookup) (threads s) ->
  count_of (fun b => bool_decide (b = slot)) (broadcasts (foldl system_step s schedule)) <= 1.
Proof.
  intros Hb Ht.
  assert (relay_inv slot s) as Hinv.
  { left. unfold sent_or_sending. rewrite Hb. cbn.
    induction Ht as [|t ts Hpc Hts IH]; [done|]. unfold count_of in *. rewrite fmap_cons, zsum_cons. cbn in IH.
    unfold about_to_send at 1. rewrite Hpc, andb_false_r. lia. }
  assert (relay_inv slot (foldl system_step s schedule)) as Hfin
    by (clear Hb Ht; revert s Hinv; induction schedule as [|p sch IH]; intros s Hinv; [done|]; by apply IH, system_step_inv).
  assert (0 <= count_of (about_to_send slot) (threads (foldl system_step s schedule))).
  { unfold count_of. apply zsum_nonneg, Forall_fmap, Forall_true. intros t. unfold compose. case_match; lia. }
  unfold relay_inv, sent_or_sending in Hfin. destruct Hfin as [?|[? _]]; lia.
Qed.
End Relayer.

(** Two submissions of one action, interleaved, on the file journal. *)
Module Sample.
Import RelayJournal.Sample.

Definition world : step_env :=
  {| journal_env := no_failure; clock := now; preflight_failure := None; send_failure := None; live_action_hash := None |}.
Definition first : submission :=
  {| idempotencyKey := "k1"; actionIdentity := "a1"; relayIntent := intent; relayLimits := limits; pc := AtLookup |}.
Definition start : relay_system := {| threads := [first; first]; journal := ∅; broadcasts := [] |}.
Definition schedule : list (nat * step_env) := (fun n => (n, world)) <$> [0; 1; 0; 1; 0; 1; 1; 0; 1; 0; 1]%nat.

Lemma relay_broadcast_at_most_once_witness :
  count_of (fun b => bool_decide (b = IntentSlotIdentity intent)) (broadcasts (foldl system_step start schedule)) <= 1.
Proof.
  apply (relay_broadcast_at_most_once start schedule (IntentSlotIdentity intent)); [reflexivity|].
  repeat constructor.
Defined.
End Sample.
