(* ===== verification/BudgetJournal.v ===== *)
(** * The buyer's budget journal (src/pkg/buyersdk/journal.go)

    The journal that claims a purchase against the buyer's stablecoin budget and
    hands out the lease to broadcast its funding, on the directory of
    [FileStore].  Files are read strictly: an unknown field, trailing data or a
    file over 64 KiB is an error. *)

From S2P Require Import Prelude Text Sha256 FileStore.

(** ** Data *)

Record BudgetLimits := {
  BudgetWindow : Z;
  MaxPurchases : Z;
  MaxPerPurchaseAtomic : string;
  MaxTotalAtomic : string }.

Record fundingIntent := {
  Identity : string;
  IntentNetworkID : string;
  EscrowAddress : string;
  QuoteCommitment : string;
  IntentAsset : string;
  IntentBuyer : string;
  AmountAtomic : string;
  FundingQueryID : Z }.

#[global] Instance fundingIntent_eq_dec : EqDecision fundingIntent.
Proof. solve_decision. Defined.

Inductive budgetPhase :=
  | budgetPrepared
  | budgetBroadcasting
  | budgetComplete
  | budgetOther (text : string).

#[global] Instance budgetPhase_eq_dec : EqDecision budgetPhase.
Proof. solve_decision. Defined.

Record budgetRecord := { RecordIntent : fundingIntent; RecordPhase : budgetPhase; RecordClaimedUnix : Z }.
Record budgetRequest := { BudgetRequestKey : string; RequestIdentity : string }.

#[global] Instance budgetRequest_eq_dec : EqDecision budgetRequest.
Proof. solve_decision. Defined.

(** A text with surrounding white space is no number, so the source's test for it
    rejects nothing more. *)
Definition positiveAtomic (value : string) : option Z :=
  match value with
  | EmptyString => None
  | String c _ =>
      if byte_val c =? 48 then None
      else
        result ← SetString10 value;
        if (result <=? 0) || (2 ^ 120 <=? result) || negb (bool_decide (FormatZ result = value)) then None
        else Some result
  end.

Definition fundingIntent_valid (i : fundingIntent) : bool :=
  nonempty (Identity i) && nonempty (IntentNetworkID i) && nonempty (EscrowAddress i) &&
  nonempty (QuoteCommitment i) && nonempty (IntentAsset i) && nonempty (IntentBuyer i) &&
  negb (FundingQueryID i =? 0) && bool_decide (is_Some (positiveAtomic (AmountAtomic i))).

Definition permits (l : BudgetLimits) (amount : string) : bool :=
  (Minute <=? BudgetWindow l) && (BudgetWindow l <=? 31 * 24 * Hour) && (0 <? MaxPurchases l) &&
  match positiveAtomic amount, positiveAtomic (MaxPerPurchaseAtomic l), positiveAtomic (MaxTotalAtomic l) with
  | Some value, Some per, Some total => (value <=? per) && (value <=? total)
  | _, _, _ => false
  end.

(** ** Files *)

Inductive bfile :=
  | PurchaseFile (r : budgetRecord)
  | BudgetRequestFile (r : budgetRequest)
  | BudgetForeignFile (as_record : option budgetRecord) (as_request : option budgetRequest).

Definition json_funding (i : fundingIntent) : fundingIntent :=
  {| Identity := json_text (Identity i); IntentNetworkID := json_text (IntentNetworkID i);
     EscrowAddress := json_text (EscrowAddress i); QuoteCommitment := json_text (QuoteCommitment i);
     IntentAsset := json_text (IntentAsset i); IntentBuyer := json_text (IntentBuyer i);
     AmountAtomic := json_text (AmountAtomic i); FundingQueryID := FundingQueryID i |}.

Definition json_bphase (p : budgetPhase) : budgetPhase :=
  match p with budgetOther t => budgetOther (json_text t) | p => p end.

Definition json_record (r : budgetRecord) : budgetRecord :=
  {| RecordIntent := json_funding (RecordIntent r); RecordPhase := json_bphase (RecordPhase r);
     RecordClaimedUnix := RecordClaimedUnix r |}.

Definition phase_text (p : budgetPhase) : string :=
  match p with
  | budgetPrepared => "prepared" | budgetBroadcasting => "broadcasting" | budgetComplete => "complete"
  | budgetOther t => t
  end.

Definition Marshal_funding (i : fundingIntent) : string :=
  json_object [("identity", json_quote (Identity i)); ("network_id", json_quote (IntentNetworkID i));
    ("escrow_address", json_quote (EscrowAddress i)); ("quote_commitment", json_quote (QuoteCommitment i));
    ("asset_identity", json_quote (IntentAsset i)); ("buyer_wallet", json_quote (IntentBuyer i));
    ("amount_atomic", json_quote (AmountAtomic i)); ("query_id", FormatZ (FundingQueryID i))]%string.
Definition Marshal_record (r : budgetRecord) : string :=
  json_object [("intent", Marshal_funding (RecordIntent r)); ("phase", json_quote (phase_text (RecordPhase r)));
    ("claimed_unix", FormatZ (RecordClaimedUnix r))]%string.
Definition Marshal_request (r : budgetRequest) : string :=
  json_object [("request_key", json_quote (BudgetRequestKey r)); ("identity", json_quote (RequestIdentity r))]%string.

(** The file is the encoding and a line feed; a reader refuses more than 64 KiB. *)
Definition fits_file (encoded : string) : bool := slen encoded + 1 <=? 65536.

#[global] Arguments fits_file : simpl never.

(** What [readStrict] makes of a file: a file of the other kind has unknown fields. *)
Definition strict_record (f : bfile) : option budgetRecord :=
  match f with
  | PurchaseFile r => if fits_file (Marshal_record r) then Some (json_record r) else None
  | BudgetRequestFile _ => None
  | BudgetForeignFile r _ => r
  end.
Definition strict_request (f : bfile) : option budgetRequest :=
  match f with
  | PurchaseFile _ => None
  | BudgetRequestFile r =>
      if fits_file (Marshal_request r)
      then Some {| BudgetRequestKey := json_text (BudgetRequestKey r); RequestIdentity := json_text (RequestIdentity r) |}
      else None
  | BudgetForeignFile _ r => r
  end.

Definition recordPath (identity : string) : string := "purchase-" +:+ sha256_hex identity +:+ ".json".
Definition budgetRequestPath (key : string) : string := "request-" +:+ sha256_hex key +:+ ".json".

(** ** Operations *)

Inductive bcall :=
  | BLock
  | BReadRequest | BReadRecord | BReadDir | BReadEntry (name : string)
  | BRecordTemp | BRecordLink | BRecordSync
  | BRequestTemp | BRequestLink | BRequestSync | BReread
  | BReplaceTemp | BReplaceRename | BReplaceSync.

Definition bio := bcall -> bool.
Abbreviation baction := (action bfile).

Definition withLock {A} (fails : bio) (fn : baction A) : baction A :=
  if fails BLock then done_with (Err "lock failed"%string) else fn.

Definition record_valid (r : budgetRecord) : bool :=
  fundingIntent_valid (RecordIntent r) && (0 <? RecordClaimedUnix r) &&
  match RecordPhase r with budgetOther _ => false | _ => true end.

(** [readRecordPath] on a file that exists. *)
Definition decode_record (f : bfile) : result string budgetRecord :=
  record ← opt_err (strict_record f) "buyer budget record is not readable";
  fail_if (negb (record_valid record)) "invalid buyer budget record";;
  Ok record.

Definition readRecord (readFails : bool) (identity : string) : baction (option budgetRecord) :=
  raw ← readFile readFails (recordPath identity);
  match raw with
  | None => mret None
  | Some f => done_with (Some <$> decode_record f)
  end.

Definition readBudgetRequest (readFails : bool) (key : string) : baction (option budgetRequest) :=
  raw ← rewrap (readFile readFails (budgetRequestPath key)) "invalid buyer budget request record";
  match raw with
  | None => mret None
  | Some f =>
      match strict_request f with
      | Some r =>
          if bool_decide (BudgetRequestKey r = key) && nonempty (RequestIdentity r) then mret (Some r)
          else done_with (Err "invalid buyer budget request record"%string)
      | None => done_with (Err "invalid buyer budget request record"%string)
      end
  end.

Definition opt_panic {E A} (o : option A) : result E A :=
  match o with Some a => Ok a | None => Panic "nil pointer"%string end.

Definition is_purchase_name (name : string) : bool := HasPrefix name "purchase-" && HasSuffix name ".json".

(** One entry of [enforce]'s loop over the directory: the count and the total. *)
Definition enforceEntry (fails : bio) (d : dir bfile) (intent : fundingIntent) (cutoff : Z) (acc : Z * Z) (name : string)
    : result string (Z * Z) :=
  if negb (is_purchase_name name) then Ok acc
  else
    fail_if (fails (BReadEntry name)) "read failed";;
    raw ← opt_err (d !! name) "read failed";
    record ← decode_record raw;
    if (RecordClaimedUnix record <? cutoff) || negb (bool_decide (IntentAsset (RecordIntent record) = IntentAsset intent))
    then Ok acc
    else
      amount ← opt_panic (positiveAtomic (AmountAtomic (RecordIntent record)));
      Ok (wrap64 (acc.1 + 1), acc.2 + amount).

Definition enforceTotals (fails : bio) (d : dir bfile) (intent : fundingIntent) (cutoff : Z) (names : list string)
    : result string (Z * Z) :=
  foldM (enforceEntry fails d intent cutoff) (0, 0) names.

Definition enforceCheck (limits : BudgetLimits) (intent : fundingIntent) (acc : Z * Z) : result string unit :=
  maximum ← opt_panic (positiveAtomic (MaxTotalAtomic limits));
  amount ← opt_panic (positiveAtomic (AmountAtomic intent));
  fail_if ((MaxPurchases limits <=? acc.1) || (maximum <? acc.2 + amount)) "buyer stablecoin budget exceeded".

Definition enforce (fails : bio) (limits : BudgetLimits) (intent : fundingIntent) (now : Z) : baction unit :=
  entries ← readDir (fails BReadDir);
  let cutoff := Unix (now - BudgetWindow limits) in
  inspect (fun d => acc ← enforceTotals fails d intent cutoff entries; enforceCheck limits intent acc).

Definition newRecord (intent : fundingIntent) (now : Z) : budgetRecord :=
  {| RecordIntent := intent; RecordPhase := budgetPrepared; RecordClaimedUnix := Unix now |}.

Definition claimBudget (fails : bio) (intent : fundingIntent) (limits : BudgetLimits) (now : Z) : baction budgetRecord :=
  enforce fails limits intent now;;
  created ← rewrap (atomicCreate (fails BRecordTemp) (fails BRecordLink) (fails BRecordSync)
                      (recordPath (Identity intent)) (PurchaseFile (newRecord intent now)))
              "failed to claim buyer purchase budget";
  guard (negb created) "failed to claim buyer purchase budget";;
  mret (newRecord intent now).

Definition confirmBudgetRequest (fails : bio) (request : budgetRequest) (created : bool) : baction unit :=
  if created then mret tt
  else
    existing ← rewrap (readBudgetRequest (fails BReread) (BudgetRequestKey request))
      "buyer idempotency key was reused for another purchase";
    guard (negb (bool_decide (existing = Some request))) "buyer idempotency key was reused for another purchase".

Definition recordBudgetRequest (fails : bio) (request : budgetRequest) : baction unit :=
  created ← atomicCreate (fails BRequestTemp) (fails BRequestLink) (fails BRequestSync)
              (budgetRequestPath (BudgetRequestKey request)) (BudgetRequestFile request);
  confirmBudgetRequest fails request created.

(** The purchase record: found with the very same intent, or claimed now. *)
Definition beginRecord (fails : bio) (requestKey : string) (intent : fundingIntent) (limits : BudgetLimits) (now : Z)
    : baction budgetRecord :=
  request ← readBudgetRequest (fails BReadRequest) requestKey;
  guard (match request with Some r => negb (bool_decide (RequestIdentity r = Identity intent)) | None => false end)
    "buyer idempotency key was reused for another purchase";;
  found ← readRecord (fails BReadRecord) (Identity intent);
  guard (match request, found with Some _, None => true | _, _ => false end)
    "buyer budget record is missing for an existing request";;
  guard (match found with Some r => negb (bool_decide (RecordIntent r = intent)) | None => false end)
    "buyer purchase identity conflicts with another funding intent";;
  match found with
  | Some record => mret record
  | None => claimBudget fails intent limits now
  end.

Definition begin_ (fails : bio) (requestKey : string) (intent : fundingIntent) (limits : BudgetLimits) (now : Z)
    : baction budgetPhase :=
  guard (negb (nonempty requestKey) || negb (fundingIntent_valid intent) || negb (permits limits (AmountAtomic intent)) ||
         (now =? zeroTime))
    "invalid buyer budget claim";;
  withLock fails (
    record ← beginRecord fails requestKey intent limits now;
    recordBudgetRequest fails {| BudgetRequestKey := requestKey; RequestIdentity := Identity intent |};;
    mret (RecordPhase record)).

Definition with_bphase (r : budgetRecord) (p : budgetPhase) : budgetRecord :=
  {| RecordIntent := RecordIntent r; RecordPhase := p; RecordClaimedUnix := RecordClaimedUnix r |}.

Definition ownRecord (fails : bio) (intent : fundingIntent) (e : string) : baction budgetRecord :=
  found ← rewrap (readRecord (fails BReadRecord) (Identity intent)) e;
  match found with
  | Some record => guard (negb (bool_decide (RecordIntent record = intent))) e;; mret record
  | None => done_with (Err e)
  end.

Definition replaceRecord (fails : bio) (record : budgetRecord) (intent : fundingIntent) : baction unit :=
  atomicReplace (fails BReplaceTemp) (fails BReplaceRename) (fails BReplaceSync)
    (recordPath (Identity intent)) (PurchaseFile record).

Definition acquire (fails : bio) (intent : fundingIntent) : baction (bool * budgetPhase) :=
  withLock fails (
    record ← ownRecord fails intent "buyer funding lease does not match budget claim";
    if bool_decide (RecordPhase record = budgetPrepared) then
      replaceRecord fails (with_bphase record budgetBroadcasting) intent;;
      mret (true, budgetBroadcasting)
    else mret (false, RecordPhase record)).

Definition complete (fails : bio) (intent : fundingIntent) : baction unit :=
  withLock fails (
    record ← ownRecord fails intent "buyer funding completion does not match budget claim";
    if bool_decide (RecordPhase record = budgetComplete) then mret tt
    else
      guard (negb (bool_decide (RecordPhase record = budgetBroadcasting)))
        "buyer funding completed without a broadcast lease";;
      replaceRecord fails (with_bphase record budgetComplete) intent).

(** ** What each operation does to the directory *)

Definition stored_record (d : dir bfile) (intent : fundingIntent) (r : budgetRecord) : Prop :=
  exists f, d !! recordPath (Identity intent) = Some f /\ strict_record f = Some r.

Lemma readRecord_reads b id : reads (readRecord b id).
Proof. unfold readRecord. solve_keeps. Qed.

Lemma readBudgetRequest_reads b key : reads (readBudgetRequest b key).
Proof. unfold readBudgetRequest. solve_keeps. Qed.

Lemma enforce_reads fails limits i now : reads (enforce fails limits i now).
Proof. unfold enforce. solve_keeps. Qed.
#[export] Hint Resolve readRecord_reads readBudgetRequest_reads enforce_reads : keeps.

Lemma readRecord_Some b id d d' r :
  readRecord b id d = (d', Ok (Some r)) ->
  exists f, d !! recordPath id = Some f /\ strict_record f = Some r /\ record_valid r = true.
Proof.
  unfold readRecord. intros (d1 & o & Hr & H)%action_bind_Ok. unfold readFile in Hr.
  destruct b; [done|]. injection Hr as -> <-. destruct (d1 !! recordPath id) as [f|]; [|done].
  injection H as _ H. unfold decode_record in H. exists f.
  destruct (strict_record f) as [r'|]; cbn in H; [|done]. destruct (record_valid r') eqn:Ev; cbn in H; [|done].
  by injection H as ->.
Qed.

Lemma ownRecord_cases fails i e d :
  (exists r, ownRecord fails i e d = (d, Ok r) /\ stored_record d i r /\ RecordIntent r = i) \/
  (exists x, ownRecord fails i e d = (d, x) /\ is_ok x = false).
Proof.
  unfold ownRecord. match goal with |- context[mbind ?f ?m d] =>
    destruct (bind_read m f d) as [(o & Ho & ->)|?]; [solve_keeps| |by right] end.
  destruct o as [r|]; [|right; by eexists]. rewrite guard_bind. case_bool_decide as Ei; cbn; [|right; by eexists].
  left. exists r. split_and!; [done| |done]. unfold rewrap in Ho.
  destruct (readRecord (fails BReadRecord) (Identity i) d) as [d1 x] eqn:Er. injection Ho as -> Hx.
  apply or_err_Ok in Hx as ->. apply readRecord_Some in Er as (f & ? & ? & _). by exists f.
Qed.

Lemma acquire_cases fails i d :
  let '(d', x) := acquire fails i d in
  d' = d /\ (forall p, x <> Ok (true, p)) \/
  exists r, stored_record d i r /\ RecordIntent r = i /\ RecordPhase r = budgetPrepared /\
    d' = <[recordPath (Identity i) := PurchaseFile (with_bphase r budgetBroadcasting)]> d.
Proof.
  unfold acquire, withLock. destruct (fails BLock); [by left|].
  destruct (ownRecord_cases fails i "buyer funding lease does not match budget claim" d) as [(r & E & Hs & Hi)|(x & E & Hx)];
    rewrite (bind_run _ _ _ _ _ E); [|destruct x; [done|by left..]].
  case_bool_decide as Ep; [|by left]. unfold mbind, action_bind, replaceRecord, atomicReplace.
  destruct (fails BReplaceTemp), (fails BReplaceRename); try by left.
  destruct (fails BReplaceSync); right; by exists r.
Qed.

Lemma complete_cases fails i d :
  let '(d', _) := complete fails i d in
  d' = d \/
  exists r, stored_record d i r /\ RecordIntent r = i /\ RecordPhase r = budgetBroadcasting /\
    d' = <[recordPath (Identity i) := PurchaseFile (with_bphase r budgetComplete)]> d.
Proof.
  unfold complete, withLock. destruct (fails BLock); [by left|].
  destruct (ownRecord_cases fails i "buyer funding completion does not match budget claim" d) as [(r & E & Hs & Hi)|(x & E & Hx)];
    rewrite (bind_run _ _ _ _ _ E); [|destruct x; [done|by left..]].
  case_bool_decide as Ec; [by left|]. rewrite guard_bind. case_bool_decide as Eb; cbn; [|by left].
  unfold replaceRecord, atomicReplace.
  destruct (fails BReplaceTemp), (fails BReplaceRename); try by left. right; by exists r.
Qed.

Definition within_budget (d : dir bfile) (i : fundingIntent) (limits : BudgetLimits) (now : Z) : Prop :=
  exists fails acc,
    enforceTotals fails d i (Unix (now - BudgetWindow limits)) (sort_strings (elements (dom d))) = Ok acc /\
    enforceCheck limits i acc = Ok tt.

Definition budget_claims (d d' : dir bfile) (i : fundingIntent) (limits : BudgetLimits) (now : Z) : Prop :=
  d' = d \/
  d !! recordPath (Identity i) = None /\ permits limits (AmountAtomic i) = true /\ fundingIntent_valid i = true /\
  within_budget d i limits now /\ d' = <[recordPath (Identity i) := PurchaseFile (newRecord i now)]> d.

Definition budget_binds (d d' : dir bfile) (k id : string) : Prop :=
  d' = d \/ d !! budgetRequestPath k = None /\
    d' = <[budgetRequestPath k := BudgetRequestFile {| BudgetRequestKey := k; RequestIdentity := id |}]> d.

Lemma recordBudgetRequest_binds fails k id d :
  budget_binds d (recordBudgetRequest fails {| BudgetRequestKey := k; RequestIdentity := id |} d).1 k id.
Proof.
  unfold recordBudgetRequest, mbind at 1, action_bind at 1, atomicCreate.
  destruct (fails BRequestTemp), (fails BRequestLink); try by left. cbn.
  destruct (d !! budgetRequestPath k) as [f|] eqn:E.
  - left. symmetry. assert (reads (confirmBudgetRequest fails {| BudgetRequestKey := k; RequestIdentity := id |} false)) as H
      by (unfold confirmBudgetRequest; solve_keeps). apply H.
  - destruct (fails BRequestSync); right; done.
Qed.

Lemma claimBudget_claims fails i limits now d :
  permits limits (AmountAtomic i) = true -> fundingIntent_valid i = true ->
  budget_claims d (claimBudget fails i limits now d).1 i limits now.
Proof.
  intros Hp Hv. unfold claimBudget.
  match goal with |- context[mbind ?f ?m d] =>
    destruct (bind_read m f d) as [([] & He & ->)|(r & -> & _)]; [auto with keeps| |by left] end.
  assert (within_budget d i limits now) as Hw.
  { unfold enforce in He. apply action_bind_Ok in He as (d1 & names & Hn & He). unfold readDir in Hn.
    destruct (fails BReadDir); [done|]. injection Hn as -> <-. injection He as He.
    apply bind_Ok in He as (acc & ? & ?). by exists fails, acc. }
  unfold mbind, action_bind, rewrap, atomicCreate, guard, done_with.
  destruct (fails BRecordTemp), (fails BRecordLink); try by left.
  destruct (d !! recordPath (Identity i)) as [f|] eqn:E; [by left|].
  destruct (fails BRecordSync); by right.
Qed.

Lemma begin_cases fails k i limits now d :
  exists d1, budget_claims d d1 i limits now /\ budget_binds d1 (begin_ fails k i limits now d).1 k (Identity i).
Proof.
  unfold begin_. rewrite guard_bind.
  match goal with |- context[if ?b then _ else _] => destruct b eqn:Eg; [by exists d; split; left|] end.
  assert (permits limits (AmountAtomic i) = true /\ fundingIntent_valid i = true) as [Hp Hv].
  { destruct (permits _ _), (fundingIntent_valid i); rewrite ?orb_true_r in Eg; try done; by destruct (nonempty k). }
  unfold withLock. destruct (fails BLock); [by exists d; split; left|].
  assert (budget_claims d (beginRecord fails k i limits now d).1 i limits now) as Hc.
  { unfold beginRecord.
    repeat match goal with
    | |- context[mbind ?f ?m d] =>
        let E := fresh in
        destruct (bind_read m f d) as [(? & ? & E)|(? & E & _)]; [auto with keeps typeclass_instances|rewrite E; clear E..];
        [|by left]
    end.
    match goal with |- context[match ?o with Some _ => _ | None => _ end] => destruct o; [by left|] end.
    by apply claimBudget_claims. }
  eexists. split; [exact Hc|].
  destruct (beginRecord fails k i limits now d) as [d1 x] eqn:Eb. rewrite (bind_run _ _ _ _ _ Eb). cbn [fst].
  destruct x as [r|e|w]; [|by left..]. pose proof (recordBudgetRequest_binds fails k (Identity i) d1) as Hb.
  unfold mbind, action_bind. destruct (recordBudgetRequest _ _ d1) as [d2 [[]|e|w]]; exact Hb.
Qed.

(** ** Histories *)

Inductive budget_op :=
  | BBegin (k : string) (i : fundingIntent) (now : Z)
  | BAcquire (i : fundingIntent)
  | BComplete (i : fundingIntent).

Definition budget_op_intent (op : budget_op) : fundingIntent :=
  match op with BBegin _ i _ | BAcquire i | BComplete i => i end.

(** The directory after an operation, and the purchase whose broadcast lease it granted. *)
Definition budget_step (limits : BudgetLimits) (d : dir bfile) (fails : bio) (op : budget_op)
    : dir bfile * option string :=
  match op with
  | BBegin k i now => ((begin_ fails k i limits now d).1, None)
  | BAcquire i =>
      let '(d', x) := acquire fails i d in
      (d', match x with Ok (true, _) => Some (Identity i) | _ => None end)
  | BComplete i => ((complete fails i d).1, None)
  end.

Fixpoint budget_run (limits : BudgetLimits) (d : dir bfile) (ops : list (bio * budget_op)) : dir bfile * list string :=
  match ops with
  | [] => (d, [])
  | (fails, op) :: ops =>
      let '(d1, lease) := budget_step limits d fails op in
      let '(d', leases) := budget_run limits d1 ops in
      (d', option_list lease ++ leases)
  end.

Definition file_phase (f : bfile) : option budgetPhase :=
  match f with
  | PurchaseFile r => Some (RecordPhase r)
  | BudgetRequestFile _ => None
  | BudgetForeignFile r _ => RecordPhase <$> r
  end.

Definition past_prepared (p : budgetPhase) : Prop := p = budgetBroadcasting \/ p = budgetComplete.

(** A purchase past the prepared phase. *)
Definition budget_leased (id : string) (d : dir bfile) : Prop :=
  exists f p, d !! recordPath id = Some f /\ file_phase f = Some p /\ past_prepared p.

Lemma strict_record_phase f r p :
  strict_record f = Some r -> file_phase f = Some p -> past_prepared p -> RecordPhase r = p.
Proof.
  destruct f as [r'| |o q]; cbn; [case_match; [|done]|done|].
  - intros [= <-] [= <-] [E|E]; cbn; by rewrite E.
  - intros -> [= <-]. done.
Qed.

Lemma budget_leased_not_prepared d i r :
  budget_leased (Identity i) d -> stored_record d i r -> RecordPhase r <> budgetPrepared.
Proof.
  intros (f & p & Hf & Hfp & Hp) (f' & Hf' & Hs). rewrite Hf in Hf'. injection Hf' as <-.
  rewrite (strict_record_phase f r p) by done. by destruct Hp as [-> | ->].
Qed.

Lemma budget_leased_create id d name doc :
  d !! name = None -> budget_leased id d -> budget_leased id (<[name := doc]> d).
Proof.
  intros Hn (f & p & Hf & ?). exists f, p. split; [|done]. rewrite lookup_insert_ne; [done|]. intros ->. congruence.
Qed.

Lemma budget_leased_advance id d i r p :
  past_prepared p -> budget_leased id d \/ id = Identity i ->
  budget_leased id (<[recordPath (Identity i) := PurchaseFile (with_bphase r p)]> d).
Proof.
  intros Hp Hl. destruct (decide (recordPath (Identity i) = recordPath id)) as [E|E].
  - exists (PurchaseFile (with_bphase r p)), p. rewrite E, lookup_insert_eq. done.
  - destruct Hl as [(f & p' & Hf & ?)| ->]; [|done]. exists f, p'. by rewrite lookup_insert_ne.
Qed.

Lemma budget_leased_step limits id d fails op :
  budget_leased id d ->
  budget_leased id (budget_step limits d fails op).1 /\ (budget_step limits d fails op).2 <> Some id.
Proof.
  intros Hl. destruct op as [k i now|i|i]; cbn.
  - split; [|done]. destruct (begin_cases fails k i limits now d) as (d1 & Hc & Hb).
    assert (budget_leased id d1) by (destruct Hc as [-> |(? & _ & _ & _ & ->)]; [done|by apply budget_leased_create]).
    destruct Hb as [-> |[? ->]]; [done|by apply budget_leased_create].
  - pose proof (acquire_cases fails i d) as H. destruct (acquire fails i d) as [d' x]. cbn.
    destruct H as [[-> H]|(r & Hs & Hi & Hp & ->)].
    + split; [done|]. destruct x as [[[] p]| |]; [by destruct (H p)|done..].
    + split; [apply budget_leased_advance; unfold past_prepared; auto|].
      destruct x as [[[] p]| |]; try done. intros [= <-]. by eapply budget_leased_not_prepared.
  - split; [|done]. pose proof (complete_cases fails i d) as H. destruct (complete fails i d) as [d' x]. cbn.
    destruct H as [-> |(r & _ & _ & _ & ->)]; [done|]. apply budget_leased_advance; unfold past_prepared; auto.
Qed.

Lemma budget_lease_granted limits id d fails op :
  (budget_step limits d fails op).2 = Some id -> budget_leased id (budget_step limits d fails op).1.
Proof.
  destruct op as [k i now|i|i]; cbn; try done.
  pose proof (acquire_cases fails i d) as H. destruct (acquire fails i d) as [d' x]. cbn.
  destruct x as [[[] p]| |]; try done. intros [= <-].
  destruct H as [[_ H]|(r & _ & _ & _ & ->)]; [by destruct (H p)|]. apply budget_leased_advance; unfold past_prepared; auto.
Qed.

Definition count_purchases (id : string) (leases : list string) : nat := length (filter (fun s => s = id) leases).

Lemma budget_leased_run limits id d ops :
  budget_leased id d -> count_purchases id (budget_run limits d ops).2 = 0%nat.
Proof.
  revert d. induction ops as [|[fails op] ops IH]; intros d Hl; [done|]. cbn.
  destruct (budget_leased_step limits id d fails op Hl) as [Hl' Hn].
  destruct (budget_step limits d fails op) as [d1 lease]. cbn in *.
  specialize (IH d1 Hl'). destruct (budget_run limits d1 ops) as [d' leases]. cbn in *.
  unfold count_purchases in *. rewrite filter_app, length_app, IH.
  destruct lease as [s|]; [|done]. cbn. rewrite decide_False by congruence. done.
Qed.

(** Whatever the callers do and whichever system calls fail, on any directory, the buyer's
    journal grants the lease to broadcast the funding of a purchase at most once. *)
Theorem budget_lease_at_most_once limits d ops id :
  (count_purchases id (budget_run limits d ops).2 <= 1)%nat.
Proof.
  revert d. induction ops as [|[fails op] ops IH]; intros d; [cbn; lia|]. cbn.
  pose proof (budget_lease_granted limits id d fails op) as Hg.
  destruct (budget_step limits d fails op) as [d1 lease]. cbn in *.
  pose proof (budget_leased_run limits id d1 ops) as H0. specialize (IH d1).
  destruct (budget_run limits d1 ops) as [d' leases]. cbn in *.
  unfold count_purchases in *. rewrite filter_app, length_app.
  destruct lease as [s|]; [|done]. cbn. destruct (decide (s = id)) as [->|Hne]; cbn.
  - rewrite H0 by auto. lia.
  - lia.
Qed.

(** ** The budget window *)

Lemma positiveAtomic_text v z : positiveAtomic v = Some z -> 0 < z /\ json_text v = v.
Proof.
  unfold positiveAtomic. destruct v as [|c v]; [done|]. destruct (byte_val c =? 48); [done|].
  destruct (SetString10 (String c v)) as [r|]; [|done]. cbn. case_match eqn:E; [done|]. intros [= ->].
  apply orb_false_iff in E as [[?%Z.leb_gt _]%orb_false_iff Hv%negb_false_iff%bool_decide_eq_true_1].
  split; [lia|]. apply (json_text_ascii (String c v)). rewrite <-Hv. apply (all_bytes_impl is_digit).
  - intros x. unfold is_digit, between. lia.
  - replace z with (Z.of_N (Z.to_N z)) by lia. rewrite FormatZ_of_N. apply FormatN_digits.
Qed.

Definition purchase_amount (i : fundingIntent) : Z := default 0 (positiveAtomic (AmountAtomic i)).
Definition each_purchase (i : fundingIntent) : Z := 1.
Definition of_asset (asset : string) (g : fundingIntent -> Z) (i : fundingIntent) : Z :=
  if bool_decide (IntentAsset i = asset) then g i else 0.

Definition purchase_ok (i : fundingIntent) : Prop :=
  is_Some (positiveAtomic (AmountAtomic i)) /\ utf8_ok (IntentAsset i) = true.
Definition bfile_ok (name : string) (f : bfile) : Prop :=
  match f with
  | PurchaseFile r => is_purchase_name name = true /\ purchase_ok (RecordIntent r)
  | BudgetRequestFile _ => is_purchase_name name = false
  | BudgetForeignFile _ _ => False
  end.
Definition bdir_ok (d : dir bfile) : Prop := map_Forall bfile_ok d.

Definition purchase_weight (g : fundingIntent -> Z) (within : Z -> bool) (f : bfile) : Z :=
  match f with PurchaseFile r => if within (RecordClaimedUnix r) then g (RecordIntent r) else 0 | _ => 0 end.
Definition purchased_since (g : fundingIntent -> Z) (lo : Z) (d : dir bfile) : Z :=
  map_sum (purchase_weight g (fun u => lo <=? u)) d.
Definition purchased_between (g : fundingIntent -> Z) (lo hi : Z) (d : dir bfile) : Z :=
  map_sum (purchase_weight g (fun u => (lo <=? u) && (u <=? hi))) d.

Lemma json_funding_ok i : purchase_ok i ->
  purchase_amount (json_funding i) = purchase_amount i /\ IntentAsset (json_funding i) = IntentAsset i /\
  purchase_ok (json_funding i).
Proof.
  intros [[z Hz] Hu]. destruct (positiveAtomic_text _ _ Hz) as [_ Ht].
  apply bool_decide_eq_true_1 in Hu. unfold purchase_amount, purchase_ok, utf8_ok. cbn. rewrite Ht, Hu, Hz.
  split_and!; try done; by rewrite ?bool_decide_true; eauto.
Qed.

Lemma decode_purchase r r' : decode_record (PurchaseFile r) = Ok r' -> r' = json_record r.
Proof.
  unfold decode_record, strict_record. destruct (fits_file (Marshal_record r)); [|done].
  cbn [opt_err mbind result_bind]. unfold fail_if. destruct (record_valid (json_record r)); [|done]. by intros [= <-].
Qed.

Section BudgetTotals.
Context (d : dir bfile) (Hd : bdir_ok d) (fails : bio) (intent : fundingIntent) (cutoff : Z).

Definition purchase_at (g : fundingIntent -> Z) (name : string) : Z :=
  from_option (purchase_weight (of_asset (IntentAsset intent) g) (fun u => cutoff <=? u)) 0 (d !! name).

Lemma enforceEntry_adds acc acc' name :
  enforceEntry fails d intent cutoff acc name = Ok acc' ->
  acc'.2 = acc.2 + purchase_at purchase_amount name /\
  wrap64 acc'.1 = wrap64 (acc.1 + purchase_at each_purchase name).
Proof using Hd.
  unfold enforceEntry, purchase_at. destruct (is_purchase_name name) eqn:En; cbn [negb].
  - intros H. apply bind_Ok in H as (_ & _ & (f & Hf%opt_err_Ok & (r & Hr & H)%bind_Ok)%bind_Ok).
    rewrite Hf. cbn. pose proof (Hd name f Hf) as Hok. destruct f as [r0|r0|]; cbn in Hok; [|congruence|done].
    apply decode_purchase in Hr as ->.
    destruct Hok as [_ Hok]. destruct (json_funding_ok _ Hok) as (Ha & Hs & [[z Hz] _]).
    cbn in H. change (json_text (IntentAsset (RecordIntent r0))) with (IntentAsset (json_funding (RecordIntent r0))) in H.
    rewrite Hs in H. unfold of_asset, each_purchase. cbn [purchase_weight]. rewrite Z.ltb_antisym in H.
    destruct (cutoff <=? RecordClaimedUnix r0); cbn in H; [|injection H as <-; by rewrite !Z.add_0_r].
    case_bool_decide; cbn in H; [|injection H as <-; by rewrite !Z.add_0_r].
    change (json_text (AmountAtomic (RecordIntent r0))) with (AmountAtomic (json_funding (RecordIntent r0))) in H.
    rewrite Hz in H. injection H as <-. cbn. rewrite <-Ha. unfold purchase_amount. rewrite Hz. cbn.
    split; [done|]. unfold wrap64. by rewrite Zmod_mod.
  - intros [= <-]. destruct (d !! name) as [f|] eqn:Ef; cbn; [|by rewrite !Z.add_0_r].
    pose proof (Hd name f Ef) as Hok. destruct f; cbn in *; [naive_solver congruence|by rewrite !Z.add_0_r|done].
Qed.

Lemma enforceTotals_sum acc names :
  enforceTotals fails d intent cutoff names = Ok acc ->
  acc.2 = zsum (purchase_at purchase_amount <$> names) /\
  wrap64 acc.1 = wrap64 (zsum (purchase_at each_purchase <$> names)) /\ 0 <= acc.1 < two64.
Proof using Hd.
  unfold enforceTotals. revert acc. induction names as [|name names IH] using rev_ind; intros acc.
  - intros [= <-]. cbn. done.
  - rewrite foldM_app. intros (acc1 & H1 & H2)%bind_Ok. destruct (IH acc1 H1) as (E1 & E2 & ?).
    cbn [foldM] in H2. apply bind_Ok in H2 as (acc2 & H2 & [= <-]).
    assert (0 <= acc2.1 < two64).
    { unfold enforceEntry in H2. case_match; [by injection H2 as <-|]. inv_ok. case_match; inv_ok; [done|]. apply wrap64_range. }
    apply enforceEntry_adds in H2 as [-> E3]. rewrite !fmap_app, !zsum_app. cbn. rewrite !Z.add_0_r, E1. split_and!; [done| |lia..].
    rewrite E3. unfold wrap64 in *. by rewrite <-Zplus_mod_idemp_l, E2, Zplus_mod_idemp_l.
Qed.
End BudgetTotals.

Lemma is_purchase_name_recordPath id : is_purchase_name (recordPath id) = true.
Proof.
  unfold is_purchase_name, recordPath, HasPrefix. rewrite prefix_app. by rewrite <-app_assoc_str, HasSuffix_app.
Qed.

(** A measure that survives the JSON encoding of a stored purchase. *)
Definition stable_purchase (g : fundingIntent -> Z) : Prop :=
  forall i, purchase_ok i -> g (json_funding i) = g i /\ 0 <= g i.

(** The budgets of a set of limits: for each asset, the total amount and the number of purchases. *)
Inductive purchase_budget (limits : BudgetLimits) : (fundingIntent -> Z) -> Z -> Prop :=
  | total_budget asset :
      purchase_budget limits (of_asset asset purchase_amount) (default 0 (positiveAtomic (MaxTotalAtomic limits)))
  | count_budget asset : purchase_budget limits (of_asset asset each_purchase) (MaxPurchases limits).

Lemma purchase_amount_pos i : purchase_ok i -> 0 < purchase_amount i.
Proof. intros [[z Hz] _]. unfold purchase_amount. rewrite Hz. by apply positiveAtomic_text in Hz as [? _]. Qed.

Lemma purchase_budget_stable limits g bound : purchase_budget limits g bound -> stable_purchase g.
Proof.
  intros [asset|asset] i Hi; pose proof (purchase_amount_pos i Hi);
    destruct (json_funding_ok i Hi) as (Ea & Es & _); unfold of_asset; rewrite Es, ?Ea;
    case_bool_decide; unfold each_purchase; done || lia.
Qed.

Lemma within_budget_bounds limits g bound d i now :
  purchase_budget limits g bound -> bdir_ok d -> purchase_ok i -> Z.of_nat (size d) < two64 ->
  within_budget d i limits now ->
  g i = 0 \/ purchased_since g (Unix (now - BudgetWindow limits)) d + g i <= bound.
Proof.
  intros Hbud Hd Hi Hsize (fails & acc & Ht & Hc). apply (enforceTotals_sum d Hd) in Ht as (E2 & E1 & ?).
  unfold purchase_at in *. rewrite sort_strings_Permutation, <-!map_sum_dom in *.
  set (w g := purchased_since (of_asset (IntentAsset i) g) (Unix (now - BudgetWindow limits)) d).
  assert (0 <= w each_purchase <= Z.of_nat (size d)).
  { split; [apply map_sum_nonneg|apply map_sum_le_size]; [intros k b _|intros b]; destruct b; cbn;
      unfold of_asset, each_purchase; repeat case_match; lia. }
  change (acc.2 = w purchase_amount) in E2. change (wrap64 acc.1 = wrap64 (w each_purchase)) in E1.
  assert (acc.1 = w each_purchase) as E1' by (rewrite !wrap64_small in E1 by (red; lia); done).
  destruct Hi as [[z Hz] _]. unfold enforceCheck in Hc. rewrite Hz in Hc.
  destruct (positiveAtomic (MaxTotalAtomic limits)) as [mx|] eqn:Emx; cbn in Hc; [|done].
  apply fail_if_Ok, orb_false_iff in Hc as [Hc1%Z.leb_gt Hc2%Z.ltb_ge].
  destruct Hbud as [asset|asset]; unfold of_asset at 1 3; case_bool_decide as Ea; [|by left| |by left]; right; subst asset; rewrite ?Emx.
  - change (w purchase_amount + purchase_amount i <= default 0 (Some mx)). unfold purchase_amount at 2. rewrite Hz. cbn. lia.
  - change (w each_purchase + 1 <= MaxPurchases limits). lia.
Qed.

Section BudgetWindows.
Context (limits : BudgetLimits) (g : fundingIntent -> Z) (Hg : stable_purchase g).

Definition budget_seconds : Z := BudgetWindow limits / Second.
Definition purchased_in_window (t : Z) (d : dir bfile) : Z := purchased_between g t (t + budget_seconds) d.
Definition budget_bounded (bound : Z) (d : dir bfile) : Prop := forall t, purchased_in_window t d <= bound.

Lemma advance_budget d i r p :
  bdir_ok d -> stored_record d i r ->
  let d' := <[recordPath (Identity i) := PurchaseFile (with_bphase r p)]> d in
  bdir_ok d' /\ size d' = size d /\ forall t, purchased_in_window t d' = purchased_in_window t d.
Proof using Hg.
  intros Hd (f & Hf & Hs). cbn. pose proof (Hd _ _ Hf) as Hok.
  destruct f as [r0|r0|]; cbn in *; [|done|done]. case_match; [|done].
  injection Hs as <-. destruct Hok as (? & Hpo). destruct (json_funding_ok _ Hpo) as (_ & _ & Hpo'). split_and!.
  - by apply map_Forall_insert_2.
  - by apply map_size_insert_Some.
  - intros t. unfold purchased_in_window, purchased_between. rewrite (map_sum_insert _ _ _ _ _ Hf). cbn.
    destruct (Hg _ Hpo) as [-> _]. lia.
Qed.

Lemma bind_budget d d' k id : bdir_ok d -> budget_binds d d' k id ->
  bdir_ok d' /\ (size d' <= S (size d))%nat /\ forall t, purchased_in_window t d' = purchased_in_window t d.
Proof.
  intros Hd [-> |[Hn ->]]; [split_and!; [done|lia|done]|]. split_and!.
  - apply map_Forall_insert_2; [done|]. exact Hd.
  - by rewrite map_size_insert_None.
  - intros t. unfold purchased_in_window, purchased_between. by rewrite map_sum_insert_new.
Qed.

Lemma claim_budget bound d d' i now :
  purchase_budget limits g bound -> bdir_ok d -> purchase_ok i -> Z.of_nat (size d) < two64 -> 0 <= bound ->
  budget_claims d d' i limits now -> budget_bounded bound d ->
  bdir_ok d' /\ (size d' <= S (size d))%nat /\ budget_bounded bound d'.
Proof using Hg.
  intros Hbud Hd Hi Hsize Hb0 [-> |(Hn & Hp & _ & Hw & ->)] Hb; [split_and!; [done|lia|done]|].
  pose proof (within_budget_bounds limits g bound d i now Hbud Hd Hi Hsize Hw) as Hfit. split_and!.
  - apply map_Forall_insert_2; [|exact Hd]. split; [apply is_purchase_name_recordPath|done].
  - by rewrite map_size_insert_None.
  - intros t. unfold purchased_in_window, purchased_between. rewrite map_sum_insert_new by done. cbn.
    change (map_sum _ d) with (purchased_in_window t d).
    destruct (Z.leb_spec t (Unix now)), (Z.leb_spec (Unix now) (t + budget_seconds)); cbn; try apply Hb.
    destruct Hfit as [-> |Hfit]; [apply Hb|].
    enough (purchased_in_window t d <= purchased_since g (Unix (now - BudgetWindow limits)) d) by lia.
    apply map_sum_le. intros name f Hf. pose proof (Hd name f Hf) as Hok. destruct f as [r| |]; cbn in *; [|lia|lia].
    destruct Hok as (_ & Hok). destruct (Hg _ Hok) as [_ ?].
    assert (Unix (now - BudgetWindow limits) <= t) by (unfold Unix, budget_seconds, Second in *; dlia).
    destruct (Z.leb_spec (Unix (now - BudgetWindow limits)) (RecordClaimedUnix r)), (Z.leb_spec t (RecordClaimedUnix r)),
      (_ <=? t + _); cbn; lia.
Qed.
End BudgetWindows.

Lemma budget_step_window limits g bound d fails op :
  purchase_budget limits g bound -> 0 <= bound -> bdir_ok d -> purchase_ok (budget_op_intent op) ->
  Z.of_nat (size d) < two64 -> budget_bounded limits g bound d ->
  let d' := (budget_step limits d fails op).1 in
  bdir_ok d' /\ (size d' <= 2 + size d)%nat /\ budget_bounded limits g bound d'.
Proof.
  intros Hbud Hb0 Hd Hi Hsize Hb. pose proof (purchase_budget_stable _ _ _ Hbud) as Hg.
  destruct op as [k i now|i|i]; cbn in *.
  - destruct (begin_cases fails k i limits now d) as (d1 & Hc & Hbind).
    destruct (claim_budget limits g Hg bound d d1 i now) as (Hd1 & ? & Hb1); try done.
    destruct (bind_budget limits g d1 _ k (Identity i) Hd1 Hbind) as (? & ? & E).
    split_and!; [done|lia|]. intros t. rewrite E. apply Hb1.
  - pose proof (acquire_cases fails i d) as H. destruct (acquire fails i d) as [d' x]. cbn.
    destruct H as [[-> _]|(r & Hs & _ & _ & ->)]; [split_and!; [done|lia|done]|].
    destruct (advance_budget limits g Hg d i r budgetBroadcasting Hd Hs) as (? & -> & E).
    split_and!; [done|lia|]. intros t. rewrite E. apply Hb.
  - pose proof (complete_cases fails i d) as H. destruct (complete fails i d) as [d' x]. cbn.
    destruct H as [-> |(r & Hs & _ & _ & ->)]; [split_and!; [done|lia|done]|].
    destruct (advance_budget limits g Hg d i r budgetComplete Hd Hs) as (? & -> & E).
    split_and!; [done|lia|]. intros t. rewrite E. apply Hb.
Qed.

(** C23: Starting from an empty directory, with any callers, failures and clock, the purchases
    claimed in any window of the configured length stay within the buyer's budget: for each
    asset, their total amount and their number.  (The hypotheses are that amounts are
    positive decimals and asset names valid UTF-8, and that the history is shorter than
    2^63 operations.) *)
Theorem budget_spend_window limits g bound ops t :
  purchase_budget limits g bound -> 0 <= bound -> Forall (fun o => purchase_ok (budget_op_intent o.2)) ops ->
  Z.of_nat (2 * length ops) < two64 ->
  purchased_in_window limits g t (budget_run limits ∅ ops).1 <= bound.
Proof.
  intros Hbud Hb0 Hops Hlen.
  enough (forall d, bdir_ok d -> Z.of_nat (size d + 2 * length ops) < two64 -> budget_bounded limits g bound d ->
    budget_bounded limits g bound (budget_run limits d ops).1) as H.
  { apply H; [apply map_Forall_empty|rewrite map_size_empty; lia|]. intros t'.
    unfold purchased_in_window, purchased_between. by rewrite map_sum_empty. }
  clear t Hlen. induction Hops as [|[fails op] ops Hop Hops IH]; intros d Hd Hsize Hb; [done|]. cbn -[Nat.mul] in *.
  destruct (budget_step_window limits g bound d fails op) as (Hd1 & Hs1 & Hb1); try done; [lia|].
  destruct (budget_step limits d fails op) as [d1 lease]. cbn -[Nat.mul] in *.
  specialize (IH d1 Hd1 ltac:(lia) Hb1). by destruct (budget_run limits d1 ops).
Qed.

Module Sample.
Definition purchase : fundingIntent :=
  {| Identity := "sha256:01"; IntentNetworkID := "tos-testnet"; EscrowAddress := "0:02"; QuoteCommitment := "sha256:03";
     IntentAsset := "tusd"; IntentBuyer := "0:04"; AmountAtomic := "2500000"; FundingQueryID := 9 |}.
Definition limits : BudgetLimits :=
  {| BudgetWindow := Hour; MaxPurchases := 4; MaxPerPurchaseAtomic := "3000000"; MaxTotalAtomic := "6000000" |}.
Definition history : list (bio * budget_op) :=
  [(fun _ => false, BBegin "k" purchase (1700000000 * Second)); (fun _ => false, BAcquire purchase)].

Lemma budget_spend_window_witness :
  purchased_in_window limits (of_asset "tusd" purchase_amount) 1699999000 (budget_run limits ∅ history).1 <= 6000000.
Proof.
  apply (budget_spend_window limits _ _ history 1699999000 (total_budget limits "tusd")); [vm_compute; discriminate| |done].
  repeat constructor; vm_compute; eauto.
Defined.
End Sample.
