(* ===== verification/GuarantorState.v ===== *)
(** * Guarantor life cycles (src/pkg/agentguarantor/state.go)

    Offers, coverages, claims, payouts and collateral positions: records with a
    status and a revision, moved by compare-and-set transitions.  A status is a
    string in the source, and stays one here (a decoded record can hold any
    text); a revision is a [uint64] that wraps around. *)

From S2P Require Import Prelude Text.

(** ** Shared validation (src/pkg/agentguarantor/canonical.go, types.go) *)

Definition MaxObjectIDBytes : Z := 256.
Definition digestPattern : string -> bool := prefixed_hex64 "sha256:".
Definition validDigest (value : string) : bool := digestPattern value.
Definition validToken (value : string) (maximum : Z) : bool :=
  (0 <? slen value) && (slen value <=? maximum) && utf8_ok value &&
  all_bytes (fun c => negb (byte_val c =? 0)) value.
Definition validID (value : string) : bool := validToken value MaxObjectIDBytes.

#[local] Notation "x |> f" := (f x) (at level 61, left associativity, only parsing).

(** ** Offers *)

Definition OfferRequested : string := "requested".
Definition OfferAllocated : string := "allocated".
Definition OfferReservedUnsigned : string := "reserved_unsigned".
Definition OfferAbortResolving : string := "abort_resolving".
Definition OfferAbortedReleased : string := "aborted_released".
Definition OfferIssued : string := "issued".
Definition OfferAcceptanceResolving : string := "acceptance_resolving".
Definition OfferAccepted : string := "accepted".
Definition OfferExpiryResolving : string := "expiry_resolving".
Definition OfferExpired : string := "expired".
Definition OfferReleaseResolving : string := "release_resolving".
Definition OfferReleased : string := "released".
Definition OfferAmbiguous : string := "ambiguous".

Record OfferRecord := {
  OfferID : string;
  OfferReservationID : string;
  AgreementDigest : string;
  OfferStatus : string;
  OfferRevision : Z;
  OfferEvidence : string }.

Definition set_offer (r : OfferRecord) (status evidence : string) : OfferRecord :=
  {| OfferID := OfferID r; OfferReservationID := OfferReservationID r; AgreementDigest := AgreementDigest r;
     OfferStatus := status; OfferRevision := wrap64 (OfferRevision r + 1); OfferEvidence := evidence |}.

Definition allowedOfferTransition (from to : string) : bool :=
  if streq from OfferRequested then one_of to [OfferAllocated]
  else if streq from OfferAllocated then one_of to [OfferReservedUnsigned]
  else if streq from OfferReservedUnsigned then one_of to [OfferIssued; OfferAbortResolving]
  else if streq from OfferAbortResolving then one_of to [OfferAbortedReleased]
  else if streq from OfferIssued then one_of to [OfferAcceptanceResolving; OfferExpiryResolving]
  else if streq from OfferAcceptanceResolving then one_of to [OfferAccepted; OfferExpiryResolving; OfferAmbiguous]
  else if streq from OfferExpiryResolving then one_of to [OfferExpired; OfferAccepted; OfferAmbiguous]
  else if streq from OfferExpired then one_of to [OfferReleaseResolving]
  else if streq from OfferReleaseResolving then one_of to [OfferReleased; OfferAmbiguous]
  else false.

Definition TransitionOffer (current : OfferRecord) (expectedRevision : Z) (target evidenceDigest : string)
    : result string OfferRecord :=
  fail_if (negb (validID (OfferID current)) || (OfferRevision current =? 0) ||
           negb (OfferRevision current =? expectedRevision) || negb (validDigest evidenceDigest) ||
           negb (allowedOfferTransition (OfferStatus current) target))
    "offer transition is invalid or stale";;
  Ok (set_offer current target (OfferEvidence current)).

(** The three single-step transitions differ in the status they start from. *)
Definition offerCAS (current : OfferRecord) (expectedRevision : Z) (from to evidenceDigest e : string)
    : result string OfferRecord :=
  fail_if (negb (validID (OfferID current)) || negb (streq (OfferStatus current) from) ||
           negb (OfferRevision current =? expectedRevision) || negb (validDigest evidenceDigest)) e;;
  Ok (set_offer current to evidenceDigest).

Definition AcceptIssuedOffer (current : OfferRecord) (expectedRevision : Z) (evidenceDigest : string) :=
  offerCAS current expectedRevision OfferIssued OfferAccepted evidenceDigest "offer acceptance CAS is invalid or stale".
Definition ExpireIssuedOffer (current : OfferRecord) (expectedRevision : Z) (evidenceDigest : string) :=
  offerCAS current expectedRevision OfferIssued OfferExpired evidenceDigest "offer expiry CAS is invalid or stale".
Definition ReleaseExpiredOffer (current : OfferRecord) (expectedRevision : Z) (evidenceDigest : string) :=
  offerCAS current expectedRevision OfferExpired OfferReleased evidenceDigest "offer release CAS is invalid or stale".

(** ** Coverages *)

Definition CoveragePendingAuthorization : string := "pending_authorization".
Definition CoveragePendingPrerequisites : string := "pending_prerequisites".
Definition CoverageActivationResolving : string := "activation_resolving".
Definition CoverageActive : string := "active".
Definition CoverageNotActivatedConfirmed : string := "not_activated_confirmed".
Definition CoverageCancellationResolving : string := "cancellation_resolving".
Definition CoverageEnded : string := "coverage_ended".
Definition CoverageReleasePending : string := "release_pending".
Definition CoverageClosed : string := "closed".
Definition CoverageCancelled : string := "cancelled".
Definition CoverageExhausted : string := "exhausted".
Definition CoverageDefaulted : string := "defaulted".
Definition CoverageClosedNotActivated : string := "closed_not_activated".
Definition CoverageAmbiguous : string := "ambiguous".

Definition FilingUninitialized : string := "uninitialized".
Definition FilingNotOpen : string := "not_open".
Definition FilingOpen : string := "open".
Definition FilingCloseResolving : string := "close_resolving".
Definition FilingClosePending : string := "filing_close_pending".
Definition FilingFrozen : string := "frozen".
Definition FilingResolved : string := "resolved".

Definition AdapterEvidenceCurrent : string := "current".
Definition AdapterEvidenceUnknown : string := "evidence_unknown".
Definition AdapterEvidenceImpaired : string := "impaired".
Definition AdapterEvidenceTerminalDefault : string := "terminal_default".

Record CoverageRecord := mkCoverageRecord {
  CoverageAgreementBodyDigest : string;
  CoverageObligationID : string;
  ReservationID : string;
  CoverageStatus : string;
  ClaimFilingStatus : string;
  AdapterEvidenceStatus : string;
  CoverageRevision : Z;
  FilingStateRevision : Z;
  ClaimAdmissionHighWater : Z;
  ClaimAdmissionLogRoot : string;
  IncidentEligibilityEndsAtUnix : Z;
  CoverageEndReason : string;
  CoverageEndEvidenceDigest : string;
  LastEvidenceDigest : string }.

(** Assignments to one field of the copy an operation returns, in the order of
    the fields. *)
Definition set_status (z : string) '(mkCoverageRecord a o v _ f d r q h l e w x y) : CoverageRecord :=
  mkCoverageRecord a o v z f d r q h l e w x y.
Definition set_filing (z : string) '(mkCoverageRecord a o v s _ d r q h l e w x y) : CoverageRecord :=
  mkCoverageRecord a o v s z d r q h l e w x y.
Definition set_adapter (z : string) '(mkCoverageRecord a o v s f _ r q h l e w x y) : CoverageRecord :=
  mkCoverageRecord a o v s f z r q h l e w x y.
Definition bump_revision '(mkCoverageRecord a o v s f d r q h l e w x y) : CoverageRecord :=
  mkCoverageRecord a o v s f d (wrap64 (r + 1)) q h l e w x y.
Definition bump_filing_revision '(mkCoverageRecord a o v s f d r q h l e w x y) : CoverageRecord :=
  mkCoverageRecord a o v s f d r (wrap64 (q + 1)) h l e w x y.
Definition set_high_water (z : Z) '(mkCoverageRecord a o v s f d r q _ l e w x y) : CoverageRecord :=
  mkCoverageRecord a o v s f d r q z l e w x y.
Definition set_log_root (z : string) '(mkCoverageRecord a o v s f d r q h _ e w x y) : CoverageRecord :=
  mkCoverageRecord a o v s f d r q h z e w x y.
Definition set_eligibility_end (z : Z) '(mkCoverageRecord a o v s f d r q h l _ w x y) : CoverageRecord :=
  mkCoverageRecord a o v s f d r q h l z w x y.
Definition set_end_reason (z : string) '(mkCoverageRecord a o v s f d r q h l e _ x y) : CoverageRecord :=
  mkCoverageRecord a o v s f d r q h l e z x y.
Definition set_end_evidence (z : string) '(mkCoverageRecord a o v s f d r q h l e w _ y) : CoverageRecord :=
  mkCoverageRecord a o v s f d r q h l e w z y.
Definition set_evidence (z : string) '(mkCoverageRecord a o v s f d r q h l e w x _) : CoverageRecord :=
  mkCoverageRecord a o v s f d r q h l e w x z.

Definition allowedCoverageTransition (from to : string) : bool :=
  if streq from CoveragePendingAuthorization then one_of to [CoveragePendingPrerequisites]
  else if streq from CoveragePendingPrerequisites then one_of to [CoverageActivationResolving]
  else if streq from CoverageActivationResolving then one_of to [CoverageActive; CoverageNotActivatedConfirmed; CoverageAmbiguous]
  else if streq from CoverageActive then one_of to [CoverageCancellationResolving; CoverageReleasePending]
  else if streq from CoverageCancellationResolving then one_of to [CoverageEnded; CoverageAmbiguous]
  else if streq from CoverageEnded || streq from CoverageNotActivatedConfirmed then one_of to [CoverageReleasePending]
  else if streq from CoverageReleasePending then one_of to [CoverageClosed; CoverageCancelled; CoverageExhausted; CoverageDefaulted; CoverageClosedNotActivated; CoverageAmbiguous]
  else false.


Definition validCoverageRecord (record : CoverageRecord) : bool :=
  validDigest (CoverageAgreementBodyDigest record) && validToken (CoverageObligationID record) 128 &&
  validDigest (ReservationID record) && (0 <? CoverageRevision record) && (0 <? FilingStateRevision record) &&
  nonempty (CoverageStatus record) && nonempty (ClaimFilingStatus record) && nonempty (AdapterEvidenceStatus record).

Definition ApplyCoverageCancellation (current : CoverageRecord) (expectedCoverageRevision effectiveAtUnix : Z)
    (evidenceDigest : string) : result string CoverageRecord :=
  fail_if (negb (validCoverageRecord current) || negb (streq (CoverageStatus current) CoverageActive) ||
           negb (CoverageRevision current =? expectedCoverageRevision) || (effectiveAtUnix =? 0) ||
           negb (validDigest evidenceDigest))
    "coverage cancellation CAS is invalid or stale";;
  Ok (current |> set_status CoverageEnded |> bump_revision |> set_eligibility_end effectiveAtUnix
              |> set_end_reason "accepted_cancellation" |> set_end_evidence evidenceDigest
              |> set_evidence evidenceDigest).

Definition AdmitClaimRevision (current : CoverageRecord) (expectedCoverageRevision resultingHighWater : Z)
    (resultingLogRoot evidenceDigest : string) (initial : bool) : result string CoverageRecord :=
  fail_if (negb (validCoverageRecord current) || negb (CoverageRevision current =? expectedCoverageRevision) ||
           negb (validDigest resultingLogRoot) || negb (validDigest evidenceDigest))
    "claim admission coverage CAS is invalid or stale";;
  (if initial
   then fail_if (negb (streq (CoverageStatus current) CoverageActive) ||
                 negb (streq (ClaimFilingStatus current) FilingOpen) ||
                 negb (resultingHighWater =? wrap64 (ClaimAdmissionHighWater current + 1)))
          "initial claim admission is not permitted"
   else fail_if ((negb (streq (CoverageStatus current) CoverageActive) && negb (streq (CoverageStatus current) CoverageEnded)) ||
                 (negb (streq (ClaimFilingStatus current) FilingOpen) && negb (streq (ClaimFilingStatus current) FilingFrozen)) ||
                 negb (resultingHighWater =? ClaimAdmissionHighWater current))
          "claim revision admission is not permitted");;
  Ok (current |> bump_revision |> set_high_water resultingHighWater |> set_log_root resultingLogRoot
              |> set_evidence evidenceDigest).

Definition NewAcceptedCoverageRecord (agreementDigest obligationID reservationID evidenceDigest : string)
    : result string CoverageRecord :=
  fail_if (negb (validDigest agreementDigest) || negb (validToken obligationID 128) ||
           negb (validDigest reservationID) || negb (validDigest evidenceDigest))
    "accepted coverage genesis is invalid";;
  Ok {| CoverageAgreementBodyDigest := agreementDigest; CoverageObligationID := obligationID;
        ReservationID := reservationID; CoverageStatus := CoveragePendingAuthorization;
        ClaimFilingStatus := FilingNotOpen; AdapterEvidenceStatus := AdapterEvidenceCurrent;
        CoverageRevision := 1; FilingStateRevision := 1; ClaimAdmissionHighWater := 0;
        ClaimAdmissionLogRoot := ""; IncidentEligibilityEndsAtUnix := 0; CoverageEndReason := "";
        CoverageEndEvidenceDigest := ""; LastEvidenceDigest := evidenceDigest |}.

Definition TransitionCoverage (current : CoverageRecord) (expectedRevision : Z) (target evidenceDigest : string)
    : result string CoverageRecord :=
  fail_if (negb (validCoverageRecord current) || negb (CoverageRevision current =? expectedRevision) ||
           negb (validDigest evidenceDigest) || negb (allowedCoverageTransition (CoverageStatus current) target))
    "coverage transition is invalid or stale";;
  fail_if (streq target CoverageReleasePending && negb (streq (ClaimFilingStatus current) FilingFrozen) &&
           negb (streq (ClaimFilingStatus current) FilingResolved))
    "coverage cannot release before the filing cut is frozen";;
  let updated := current |> set_status target |> bump_revision |> set_evidence evidenceDigest in
  if streq target CoverageActive && streq (ClaimFilingStatus updated) FilingNotOpen
  then Ok (updated |> set_filing FilingOpen |> bump_filing_revision)
  else Ok updated.

Definition ActivateAcceptedCoverage (current : CoverageRecord) (expectedCoverageRevision expectedFilingRevision : Z)
    (evidenceDigest : string) : result string CoverageRecord :=
  fail_if (negb (validCoverageRecord current) || negb (streq (CoverageStatus current) CoveragePendingAuthorization) ||
           negb (streq (ClaimFilingStatus current) FilingNotOpen) ||
           negb (CoverageRevision current =? expectedCoverageRevision) ||
           negb (FilingStateRevision current =? expectedFilingRevision) || negb (validDigest evidenceDigest))
    "coverage activation CAS is invalid or stale";;
  Ok (current |> set_status CoverageActive |> set_filing FilingOpen |> bump_revision |> bump_filing_revision
              |> set_evidence evidenceDigest).

Definition ConfirmCoverageNonActivation (current : CoverageRecord)
    (expectedCoverageRevision expectedFilingRevision : Z) (evidenceDigest : string) : result string CoverageRecord :=
  fail_if (negb (validCoverageRecord current) || negb (streq (CoverageStatus current) CoveragePendingAuthorization) ||
           negb (streq (ClaimFilingStatus current) FilingNotOpen) ||
           negb (CoverageRevision current =? expectedCoverageRevision) ||
           negb (FilingStateRevision current =? expectedFilingRevision) || negb (validDigest evidenceDigest))
    "coverage non-activation CAS is invalid or stale";;
  Ok (current |> set_status CoverageNotActivatedConfirmed |> bump_revision |> set_evidence evidenceDigest).

Definition FreezeClaimFiling (current : CoverageRecord)
    (expectedCoverageRevision expectedFilingRevision highWater : Z) (logRoot evidenceDigest : string)
    (neverActivated : bool) : result string CoverageRecord :=
  fail_if (negb (validCoverageRecord current) || negb (CoverageRevision current =? expectedCoverageRevision) ||
           negb (FilingStateRevision current =? expectedFilingRevision) || negb (validDigest logRoot) ||
           negb (validDigest evidenceDigest))
    "claim filing close is invalid or stale";;
  (if neverActivated
   then fail_if (negb (streq (CoverageStatus current) CoverageNotActivatedConfirmed) ||
                 negb (streq (ClaimFilingStatus current) FilingNotOpen) || negb (highWater =? 0))
          "never-activated filing close has invalid state"
   else fail_if (negb (streq (ClaimFilingStatus current) FilingOpen) &&
                 negb (streq (ClaimFilingStatus current) FilingCloseResolving))
          "active filing close has invalid state");;
  Ok (current |> set_filing FilingFrozen |> set_high_water highWater |> set_log_root logRoot |> bump_revision
              |> bump_filing_revision |> set_evidence evidenceDigest).

Definition UpdateAdapterEvidence (current : CoverageRecord) (target evidenceDigest : string)
    : result string CoverageRecord :=
  fail_if (negb (validCoverageRecord current) || negb (validDigest evidenceDigest))
    "Adapter evidence update is invalid";;
  let allowed :=
    (streq (AdapterEvidenceStatus current) AdapterEvidenceCurrent && streq target AdapterEvidenceUnknown) ||
    (streq (AdapterEvidenceStatus current) AdapterEvidenceUnknown &&
     (streq target AdapterEvidenceCurrent || streq target AdapterEvidenceImpaired ||
      streq target AdapterEvidenceTerminalDefault)) in
  fail_if (negb allowed) "Adapter evidence transition is not permitted";;
  Ok (current |> set_adapter target |> set_evidence evidenceDigest).

(** ** Claims and payouts *)

Definition ClaimDraft : string := "draft".
Definition ClaimSubmitting : string := "submitting".
Definition ClaimAdmitted : string := "admitted".
Definition ClaimReviewing : string := "reviewing".
Definition ClaimDecisionAdmissionPending : string := "decision_admission_pending".
Definition ClaimEvidenceRequired : string := "evidence_required".
Definition ClaimApproved : string := "approved".
Definition ClaimPartiallyApproved : string := "partially_approved".
Definition ClaimDenied : string := "denied".
Definition ClaimDisputed : string := "disputed".
Definition ClaimFinalApproved : string := "final_approved".
Definition ClaimFinalPartiallyApproved : string := "final_partially_approved".
Definition ClaimFinalDenied : string := "final_denied".
Definition ClaimAmbiguous : string := "ambiguous".

Definition allowedClaimTransition (from to : string) : bool :=
  if streq from ClaimDraft then one_of to [ClaimSubmitting]
  else if streq from ClaimSubmitting then one_of to [ClaimAdmitted; ClaimAmbiguous]
  else if streq from ClaimAdmitted then one_of to [ClaimReviewing]
  else if streq from ClaimReviewing then one_of to [ClaimDecisionAdmissionPending]
  else if streq from ClaimDecisionAdmissionPending then one_of to [ClaimEvidenceRequired; ClaimApproved; ClaimPartiallyApproved; ClaimDenied; ClaimDisputed; ClaimAmbiguous]
  else if streq from ClaimEvidenceRequired || streq from ClaimDisputed then one_of to [ClaimReviewing]
  else if streq from ClaimApproved then one_of to [ClaimReviewing; ClaimFinalApproved]
  else if streq from ClaimPartiallyApproved then one_of to [ClaimReviewing; ClaimFinalPartiallyApproved]
  else if streq from ClaimDenied then one_of to [ClaimReviewing; ClaimFinalDenied]
  else false.

Definition PayoutNotMaterialized : string := "not_materialized".
Definition PayoutNotApplicable : string := "not_applicable".
Definition PayoutPrepared : string := "prepared".
Definition PayoutSubmitted : string := "submitted".
Definition PayoutPartiallyPaid : string := "partially_paid".
Definition PayoutPaid : string := "paid".
Definition PayoutDefaulted : string := "defaulted".
Definition PayoutAmbiguous : string := "ambiguous".

Definition allowedPayoutTransition (from to : string) : bool :=
  if streq from PayoutNotMaterialized then one_of to [PayoutNotApplicable; PayoutPrepared]
  else if streq from PayoutPrepared then one_of to [PayoutSubmitted; PayoutPartiallyPaid; PayoutPaid; PayoutAmbiguous]
  else if streq from PayoutSubmitted || streq from PayoutPartiallyPaid then one_of to [PayoutPartiallyPaid; PayoutPaid; PayoutDefaulted; PayoutAmbiguous]
  else if streq from PayoutAmbiguous then one_of to [PayoutSubmitted; PayoutPartiallyPaid; PayoutPaid; PayoutDefaulted]
  else false.


Record ClaimRecord := mkClaimRecord {
  ClaimID : string;
  ClaimRevision : Z;
  ClaimStatus : string;
  PayoutStatus : string;
  ClaimStateRevision : Z;
  DecisionSequence : Z;
  CurrentClaimBodyDigest : string;
  ClaimEvidence : string }.

Definition claimRevisionOpen (status : string) : bool :=
  one_of status [ClaimAdmitted; ClaimReviewing; ClaimDecisionAdmissionPending; ClaimEvidenceRequired; ClaimDisputed].

Definition ReviseAdmittedClaim (current : ClaimRecord) (targetRevision : Z) (predecessorDigest evidenceDigest : string)
    : result string ClaimRecord :=
  fail_if (negb (validDigest (ClaimID current)) || negb (targetRevision =? wrap64 (ClaimRevision current + 1)) ||
           negb (validDigest predecessorDigest) || negb (streq predecessorDigest (CurrentClaimBodyDigest current)) ||
           negb (validDigest evidenceDigest) || negb (claimRevisionOpen (ClaimStatus current)) ||
           negb (streq (PayoutStatus current) PayoutNotMaterialized))
    "claim revision is invalid, stale, or terminal";;
  Ok {| ClaimID := ClaimID current; ClaimRevision := targetRevision; ClaimStatus := ClaimAdmitted;
        PayoutStatus := PayoutStatus current; ClaimStateRevision := wrap64 (ClaimStateRevision current + 1);
        DecisionSequence := 0; CurrentClaimBodyDigest := CurrentClaimBodyDigest current;
        ClaimEvidence := evidenceDigest |}.

Definition TransitionClaim (current : ClaimRecord) (expectedRevision : Z) (target evidenceDigest : string)
    : result string ClaimRecord :=
  fail_if (negb (validDigest (ClaimID current)) || (ClaimRevision current =? 0) ||
           negb (ClaimStateRevision current =? expectedRevision) || negb (validDigest evidenceDigest) ||
           negb (allowedClaimTransition (ClaimStatus current) target))
    "claim transition is invalid or stale";;
  Ok {| ClaimID := ClaimID current; ClaimRevision := ClaimRevision current; ClaimStatus := target;
        PayoutStatus := PayoutStatus current; ClaimStateRevision := wrap64 (ClaimStateRevision current + 1);
        DecisionSequence := DecisionSequence current; CurrentClaimBodyDigest := CurrentClaimBodyDigest current;
        ClaimEvidence := evidenceDigest |}.

Definition TransitionPayout (current : ClaimRecord) (target evidenceDigest : string) : result string ClaimRecord :=
  fail_if (negb (validDigest (ClaimID current)) || negb (validDigest evidenceDigest) ||
           negb (allowedPayoutTransition (PayoutStatus current) target))
    "payout transition is invalid";;
  Ok {| ClaimID := ClaimID current; ClaimRevision := ClaimRevision current; ClaimStatus := ClaimStatus current;
        PayoutStatus := target; ClaimStateRevision := ClaimStateRevision current;
        DecisionSequence := DecisionSequence current; CurrentClaimBodyDigest := CurrentClaimBodyDigest current;
        ClaimEvidence := evidenceDigest |}.

(** ** Collateral positions *)

Record AssetIdentityV1 := { AssetNamespace : string; AssetIdentifier : string; Unit : string }.
Record AtomicAmountV1 := { AmountAsset : AssetIdentityV1; AmountAtomic : string }.

Definition CollateralUnproven : string := "unproven".
Definition CollateralLockPending : string := "lock_pending".
Definition CollateralLocked : string := "locked".
Definition CollateralEncumbered : string := "encumbered".
Definition CollateralPayoutPending : string := "payout_pending".
Definition CollateralPartiallyConsumed : string := "partially_consumed".
Definition CollateralDepleted : string := "depleted".
Definition CollateralReleasePending : string := "release_pending".
Definition CollateralReleased : string := "released".
Definition CollateralAmbiguous : string := "ambiguous".
Definition CollateralReorged : string := "reorged".
Definition CollateralDefaulted : string := "defaulted".

Definition allowedCollateralTransition (from to : string) : bool :=
  if streq from CollateralUnproven then one_of to [CollateralLockPending]
  else if streq from CollateralLockPending then one_of to [CollateralLocked; CollateralAmbiguous; CollateralReorged]
  else if streq from CollateralLocked then one_of to [CollateralEncumbered; CollateralReleasePending; CollateralReorged]
  else if streq from CollateralEncumbered || streq from CollateralPartiallyConsumed then one_of to [CollateralPayoutPending; CollateralReleasePending; CollateralReorged; CollateralDefaulted]
  else if streq from CollateralPayoutPending then one_of to [CollateralPartiallyConsumed; CollateralDepleted; CollateralAmbiguous; CollateralDefaulted]
  else if streq from CollateralReleasePending then one_of to [CollateralReleased; CollateralAmbiguous; CollateralReorged]
  else if streq from CollateralAmbiguous then one_of to [CollateralLocked; CollateralEncumbered; CollateralPartiallyConsumed; CollateralDepleted; CollateralReleased; CollateralReorged; CollateralDefaulted]
  else false.

Record CollateralPositionStateV1 := {
  SchemaVersion : Z;
  PositionAgreementBodyDigest : string;
  CollateralObligationID : string;
  PositionID : string;
  PositionDigest : string;
  CoverageBindingDigest : string;
  StateRevision : Z;
  CollateralStatus : string;
  Asset : AssetIdentityV1;
  AllocatedAmount : AtomicAmountV1;
  CumulativeConsumed : AtomicAmountV1;
  CumulativeReleased : AtomicAmountV1;
  CumulativeImpaired : AtomicAmountV1;
  RemainingAmount : AtomicAmountV1 }.

Definition TransitionCollateral (current : CollateralPositionStateV1) (expectedRevision : Z)
    (target evidenceDigest : string) : result string CollateralPositionStateV1 :=
  fail_if (negb (SchemaVersion current =? 1) || negb (validID (PositionID current)) ||
           negb (validDigest (PositionAgreementBodyDigest current)) ||
           negb (validToken (CollateralObligationID current) 128) ||
           negb (StateRevision current =? expectedRevision) || negb (validDigest evidenceDigest) ||
           negb (allowedCollateralTransition (CollateralStatus current) target))
    "collateral transition is invalid or stale";;
  Ok {| SchemaVersion := SchemaVersion current; PositionAgreementBodyDigest := PositionAgreementBodyDigest current;
        CollateralObligationID := CollateralObligationID current; PositionID := PositionID current;
        PositionDigest := PositionDigest current; CoverageBindingDigest := CoverageBindingDigest current;
        StateRevision := wrap64 (StateRevision current + 1); CollateralStatus := target; Asset := Asset current;
        AllocatedAmount := AllocatedAmount current; CumulativeConsumed := CumulativeConsumed current;
        CumulativeReleased := CumulativeReleased current; CumulativeImpaired := CumulativeImpaired current;
        RemainingAmount := RemainingAmount current |}.

(** ** Operations as data, and the steps they make

    Each life cycle is the relation between a record and what one of its
    operations returns for it. *)

Inductive offer_op :=
  | OTransition (expected : Z) (target evidence : string)
  | OAccept (expected : Z) (evidence : string)
  | OExpire (expected : Z) (evidence : string)
  | ORelease (expected : Z) (evidence : string).

Definition run_offer (o : offer_op) (r : OfferRecord) : result string OfferRecord :=
  match o with
  | OTransition x t e => TransitionOffer r x t e
  | OAccept x e => AcceptIssuedOffer r x e
  | OExpire x e => ExpireIssuedOffer r x e
  | ORelease x e => ReleaseExpiredOffer r x e
  end.
Definition offer_step (r r' : OfferRecord) : Prop := exists o, run_offer o r = Ok r'.

Inductive coverage_op :=
  | CCancel (expected effectiveAt : Z) (evidence : string)
  | CAdmit (expected highWater : Z) (logRoot evidence : string) (initial : bool)
  | CTransition (expected : Z) (target evidence : string)
  | CActivate (expected expectedFiling : Z) (evidence : string)
  | CConfirmNonActivation (expected expectedFiling : Z) (evidence : string)
  | CFreeze (expected expectedFiling highWater : Z) (logRoot evidence : string) (neverActivated : bool)
  | CAdapter (target evidence : string).

Definition run_coverage (o : coverage_op) (r : CoverageRecord) : result string CoverageRecord :=
  match o with
  | CCancel x t e => ApplyCoverageCancellation r x t e
  | CAdmit x h l e i => AdmitClaimRevision r x h l e i
  | CTransition x t e => TransitionCoverage r x t e
  | CActivate x y e => ActivateAcceptedCoverage r x y e
  | CConfirmNonActivation x y e => ConfirmCoverageNonActivation r x y e
  | CFreeze x y h l e n => FreezeClaimFiling r x y h l e n
  | CAdapter t e => UpdateAdapterEvidence r t e
  end.
Definition coverage_step (r r' : CoverageRecord) : Prop := exists o, run_coverage o r = Ok r'.

(** The revision an operation compares, [None] for the one that compares none. *)
Definition expected_revision (o : coverage_op) : option Z :=
  match o with
  | CCancel x _ _ | CAdmit x _ _ _ _ | CTransition x _ _ | CActivate x _ _
  | CConfirmNonActivation x _ _ | CFreeze x _ _ _ _ _ => Some x
  | CAdapter _ _ => None
  end.

Inductive claim_op :=
  | KRevise (targetRevision : Z) (predecessor evidence : string)
  | KTransition (expected : Z) (target evidence : string)
  | KPayout (target evidence : string).

Definition run_claim (o : claim_op) (r : ClaimRecord) : result string ClaimRecord :=
  match o with
  | KRevise n p e => ReviseAdmittedClaim r n p e
  | KTransition x t e => TransitionClaim r x t e
  | KPayout t e => TransitionPayout r t e
  end.
Definition claim_step (r r' : ClaimRecord) : Prop := exists o, run_claim o r = Ok r'.

Definition collateral_step (r r' : CollateralPositionStateV1) : Prop :=
  exists x t e, TransitionCollateral r x t e = Ok r'.

(** ** Reading the tables *)

(** Splits the guards of a successful operation into facts. *)
Ltac guards :=
  repeat match goal with
  | H : _ || _ = false |- _ => apply orb_false_iff in H; destruct H
  | H : negb _ = false |- _ => apply negb_false_iff in H
  | H : _ && _ = true |- _ => apply andb_true_iff in H; destruct H
  | H : (_ =? _) = true |- _ => apply Z.eqb_eq in H
  | H : (_ =? _) = false |- _ => apply Z.eqb_neq in H
  | H : (_ <? _) = true |- _ => apply Z.ltb_lt in H
  | H : streq _ _ = true |- _ => apply streq_true in H
  end.

(** Cases of [H : allowed from to = true], one for each edge of the table. *)
Ltac table H :=
  repeat match type of H with
  | (if streq ?a ?b || streq ?a ?c then _ else _) = true =>
      destruct (streq a b) eqn:?; [|destruct (streq a c) eqn:?]; cbn [orb] in H
  | (if streq ?a ?b then _ else _) = true => destruct (streq a b) eqn:?
  end; try discriminate H;
  apply one_of_true in H; rewrite ?elem_of_cons, elem_of_nil in H;
  repeat match goal with Hs : streq _ _ = true |- _ => apply streq_true in Hs end;
  destruct_or?; try done; subst.

(** A predicate on pairs of statuses that holds on every edge of a table. *)
Definition on_edges (allowed : string -> string -> bool) (p : string -> string -> bool) : Prop :=
  forall from to, allowed from to = true -> p from to = true.

(** ** Offers: one outcome *)

Definition offer_expiring (s : string) : bool := one_of s [OfferExpired; OfferReleaseResolving; OfferReleased].
Definition offer_expired_side (s : string) : bool :=
  one_of s [OfferExpired; OfferReleaseResolving; OfferReleased; OfferAmbiguous].

Lemma offer_edges : on_edges allowedOfferTransition (fun from to =>
  negb (streq from OfferAccepted) && implb (offer_expired_side from) (offer_expired_side to)).
Proof. intros from to H. unfold allowedOfferTransition in H. table H; reflexivity. Qed.

Lemma offer_step_status r r' : offer_step r r' ->
  OfferStatus r <> OfferAccepted /\
  (offer_expired_side (OfferStatus r) = true -> offer_expired_side (OfferStatus r') = true).
Proof.
  intros [[x t e|x e|x e|x e] H]; cbn in H; unfold TransitionOffer, AcceptIssuedOffer, ExpireIssuedOffer,
    ReleaseExpiredOffer, offerCAS in H; inv_ok; guards; cbn.
  - pose proof (offer_edges _ _ ltac:(eassumption)) as He; cbn in He. apply andb_true_iff in He as [He1 He2].
    apply negb_true_iff, bool_decide_eq_false in He1. split; [done|]. intros Hx. rewrite Hx in He2. done.
  - match goal with H : OfferStatus r = _ |- _ => rewrite H end. by split.
  - match goal with H : OfferStatus r = _ |- _ => rewrite H end. by split.
  - match goal with H : OfferStatus r = _ |- _ => rewrite H end. by split.
Qed.

Lemma offer_accepted_final r r' : OfferStatus r = OfferAccepted -> rtc offer_step r r' -> r' = r.
Proof. intros Hr H. destruct H as [|r r1 r2 H1 H2]; [done|]. by apply offer_step_status in H1 as [? _]. Qed.

Lemma offer_expired_stays r r' :
  offer_expired_side (OfferStatus r) = true -> rtc offer_step r r' -> offer_expired_side (OfferStatus r') = true.
Proof. intros Hr H. induction H as [|r r1 r2 H1 H2 IH]; [done|]. apply IH. by apply (offer_step_status r r1 H1). Qed.

(** An offer has one outcome: whatever operations are applied to it and in
    whatever order, a record that has been accepted never changes again, and one
    that has expired (or is being or has been released) never reaches
    acceptance. *)
Theorem offer_one_outcome r1 r2 :
  rtc offer_step r1 r2 ->
  (OfferStatus r1 = OfferAccepted -> r2 = r1) /\
  (offer_expiring (OfferStatus r1) = true -> OfferStatus r2 <> OfferAccepted).
Proof.
  intros H. split; [intros Hr; by apply offer_accepted_final|]. intros Hr Ha.
  assert (offer_expired_side (OfferStatus r1) = true) as H1.
  { unfold offer_expiring in Hr. apply one_of_true in Hr. apply one_of_true. set_solver. }
  pose proof (offer_expired_stays _ _ H1 H) as H2. rewrite Ha in H2. done.
Qed.

(** ** Coverages: the invariant of the reachable records *)

Definition coverage_shape (status filing : string) : bool :=
  if streq filing FilingNotOpen
  then one_of status [CoveragePendingAuthorization; CoveragePendingPrerequisites; CoverageActivationResolving;
                      CoverageNotActivatedConfirmed; CoverageAmbiguous]
  else if streq filing FilingOpen
  then one_of status [CoverageActive; CoverageCancellationResolving; CoverageEnded; CoverageAmbiguous]
  else streq filing FilingFrozen &&
       one_of status [CoverageActive; CoverageCancellationResolving; CoverageEnded; CoverageNotActivatedConfirmed;
                      CoverageReleasePending; CoverageClosed; CoverageCancelled; CoverageExhausted;
                      CoverageDefaulted; CoverageClosedNotActivated; CoverageAmbiguous].

Record coverage_ok (r : CoverageRecord) : Prop := {
  ok_shape : coverage_shape (CoverageStatus r) (ClaimFilingStatus r) = true;
  ok_not_open : ClaimFilingStatus r = FilingNotOpen -> ClaimAdmissionHighWater r = 0;
  ok_not_activated : CoverageStatus r = CoverageNotActivatedConfirmed -> ClaimAdmissionHighWater r = 0 }.

Definition coverage_reachable (r : CoverageRecord) : Prop :=
  exists a o v e r0, NewAcceptedCoverageRecord a o v e = Ok r0 /\ rtc coverage_step r0 r.

(** What one step does to the fields the theorems are about.  Every operation
    but the adapter update consumes the revision it was given. *)
Record coverage_effect (o : coverage_op) (r r' : CoverageRecord) : Prop := {
  eff_valid : 0 < CoverageRevision r;
  eff_revision : CoverageRevision r' =
    match expected_revision o with Some _ => wrap64 (CoverageRevision r + 1) | None => CoverageRevision r end;
  eff_expected : forall x, expected_revision o = Some x -> CoverageRevision r = x;
  eff_high_water : ClaimAdmissionHighWater r' =
    match o with CAdmit _ h _ _ _ | CFreeze _ _ h _ _ _ => h | _ => ClaimAdmissionHighWater r end;
  eff_shape :
    match o with
    | CCancel _ _ _ => CoverageStatus r = CoverageActive /\ CoverageStatus r' = CoverageEnded /\
        ClaimFilingStatus r' = ClaimFilingStatus r
    | CAdmit _ h _ _ initial =>
        CoverageStatus r' = CoverageStatus r /\ ClaimFilingStatus r' = ClaimFilingStatus r /\
        (if initial
         then CoverageStatus r = CoverageActive /\ ClaimFilingStatus r = FilingOpen /\
              h = wrap64 (ClaimAdmissionHighWater r + 1)
         else h = ClaimAdmissionHighWater r /\ ClaimFilingStatus r <> FilingNotOpen)
    | CTransition _ t _ =>
        allowedCoverageTransition (CoverageStatus r) t = true /\ CoverageStatus r' = t /\
        (t = CoverageReleasePending -> ClaimFilingStatus r = FilingFrozen \/ ClaimFilingStatus r = FilingResolved) /\
        ClaimFilingStatus r' = (if streq t CoverageActive && streq (ClaimFilingStatus r) FilingNotOpen
                                then FilingOpen else ClaimFilingStatus r)
    | CActivate _ _ _ => ClaimFilingStatus r = FilingNotOpen /\ CoverageStatus r' = CoverageActive /\
        ClaimFilingStatus r' = FilingOpen
    | CConfirmNonActivation _ _ _ => ClaimFilingStatus r = FilingNotOpen /\
        CoverageStatus r' = CoverageNotActivatedConfirmed /\ ClaimFilingStatus r' = FilingNotOpen
    | CFreeze _ _ h _ _ never => CoverageStatus r' = CoverageStatus r /\ ClaimFilingStatus r' = FilingFrozen /\
        ClaimFilingStatus r <> FilingFrozen /\
        (if never then CoverageStatus r = CoverageNotActivatedConfirmed /\ ClaimFilingStatus r = FilingNotOpen /\ h = 0
         else ClaimFilingStatus r = FilingOpen \/ ClaimFilingStatus r = FilingCloseResolving)
    | CAdapter _ _ => CoverageStatus r' = CoverageStatus r /\ ClaimFilingStatus r' = ClaimFilingStatus r
    end;
  eff_filing_revision : FilingStateRevision r' = FilingStateRevision r \/ ClaimFilingStatus r <> FilingFrozen }.

Lemma streq_either a b c : negb (streq a b) && negb (streq a c) = false -> a = b \/ a = c.
Proof. unfold streq. repeat case_bool_decide; subst; auto; done. Qed.

Lemma valid_coverage_revision r : validCoverageRecord r = true -> 0 < CoverageRevision r.
Proof. unfold validCoverageRecord. intros. guards. done. Qed.
Create HintDb guarantor.
#[local] Hint Resolve valid_coverage_revision : guarantor.

#[local] Ltac effect := cbn [CoverageStatus ClaimFilingStatus CoverageRevision FilingStateRevision
    ClaimAdmissionHighWater set_status set_filing set_adapter bump_revision bump_filing_revision set_high_water
    set_log_root set_eligibility_end set_end_reason set_end_evidence set_evidence expected_revision] in *;
  subst; split; cbn; try done; try (by intros ? [= ->]); auto.

Lemma admit_effect x h l e i r r' : run_coverage (CAdmit x h l e i) r = Ok r' ->
  coverage_effect (CAdmit x h l e i) r r'.
Proof.
  intros H; cbn in H; unfold AdmitClaimRevision in H; inv_ok; guards.
  assert (0 < CoverageRevision r) by eauto with guarantor. destruct r as [a1 a2 a3 s f d r q hw lr e1 e2 e3 e4].
  destruct i; inv_ok; guards; effect.
  split; [done|]. split; [done|].
  match goal with H : negb (streq f _) && _ = false |- _ => apply streq_either in H as [->| ->] end; done.
Qed.

Lemma transition_effect x t e r r' : run_coverage (CTransition x t e) r = Ok r' ->
  coverage_effect (CTransition x t e) r r'.
Proof.
  intros H; cbn in H; unfold TransitionCoverage in H; inv_ok; guards.
  assert (0 < CoverageRevision r) by eauto with guarantor. destruct r as [a1 a2 a3 s f d r q hw lr e1 e2 e3 e4].
  cbn in *.
  assert (t = CoverageReleasePending -> f = FilingFrozen \/ f = FilingResolved).
  { intros ->. apply streq_either. match goal with H : _ && _ && _ = false |- _ => exact H end. }
  destruct (streq t CoverageActive && streq f FilingNotOpen) eqn:Hc; inv_ok; effect; rewrite ?Hc; auto.
  right. apply andb_true_iff in Hc as [_ Hf]. apply streq_true in Hf. by subst.
Qed.

Lemma freeze_effect x y h l e n r r' : run_coverage (CFreeze x y h l e n) r = Ok r' ->
  coverage_effect (CFreeze x y h l e n) r r'.
Proof.
  intros H; cbn in H; unfold FreezeClaimFiling in H; inv_ok; guards.
  assert (0 < CoverageRevision r) by eauto with guarantor. destruct r as [a1 a2 a3 s f d r q hw lr e1 e2 e3 e4].
  destruct n; inv_ok; guards; cbn in *.
  - subst. effect.
  - match goal with H : negb (streq f _) && _ = false |- _ => apply streq_either in H end.
    assert (f <> FilingFrozen) by (by destruct_or!; subst). effect.
Qed.

Lemma coverage_op_effect o r r' : run_coverage o r = Ok r' -> coverage_effect o r r'.
Proof.
  destruct o; [|apply admit_effect|apply transition_effect| | |apply freeze_effect|]; intros H; cbn in H;
    unfold ApplyCoverageCancellation, ActivateAcceptedCoverage, ConfirmCoverageNonActivation,
      UpdateAdapterEvidence in H; inv_ok; guards;
    (assert (0 < CoverageRevision r) by eauto with guarantor); destruct r as [a1 a2 a3 s f d r q hw lr e1 e2 e3 e4];
    effect; right; by intros ->.
Qed.

Lemma shape_filing s f : coverage_shape s f = true -> f = FilingNotOpen \/ f = FilingOpen \/ f = FilingFrozen.
Proof.
  unfold coverage_shape. destruct (streq f FilingNotOpen) eqn:H1; [apply streq_true in H1; auto|].
  destruct (streq f FilingOpen) eqn:H2; [apply streq_true in H2; auto|].
  intros H. guards. auto.
Qed.

Lemma transition_shape s t f :
  allowedCoverageTransition s t = true -> coverage_shape s f = true ->
  (t = CoverageReleasePending -> f = FilingFrozen \/ f = FilingResolved) ->
  coverage_shape t (if streq t CoverageActive && streq f FilingNotOpen then FilingOpen else f) = true.
Proof.
  intros Ht Hs Hr. destruct (shape_filing _ _ Hs) as [->|[->| ->]];
    unfold allowedCoverageTransition in Ht; table Ht; try done;
    by destruct (Hr eq_refl) as [[=]|[=]].
Qed.

Lemma freeze_shape s f : coverage_shape s f = true ->
  (s = CoverageNotActivatedConfirmed /\ f = FilingNotOpen) \/ f = FilingOpen \/ f = FilingCloseResolving ->
  coverage_shape s FilingFrozen = true.
Proof.
  intros Hs [[-> ->]|[->| ->]]; [done| |done].
  cbn in Hs. apply one_of_true in Hs. apply andb_true_iff. split; [done|]. apply one_of_true. set_solver.
Qed.

Lemma shape_active f : coverage_shape CoverageActive f = true -> coverage_shape CoverageEnded f = true.
Proof. intros H. by destruct (shape_filing _ _ H) as [->|[->| ->]]. Qed.

Lemma coverage_ok_step r r' : coverage_step r r' -> coverage_ok r -> coverage_ok r'.
Proof.
  intros [o Ho] [Hshape Hno Hna]. apply coverage_op_effect in Ho. destruct o, Ho as [_ _ _ Hhw He _]; cbn in Hhw;
    [destruct He as (Hs & Es & Ef)|destruct He as (Es & Ef & Hi)|destruct He as (Ht & Es & Hr & Ef)|
     destruct He as (Hf & Es & Ef)|destruct He as (Hf & Es & Ef)|destruct He as (Es & Ef & Hnf & Hn)|
     destruct He as [Es Ef]]; split; rewrite ?Es, ?Ef, ?Hhw; try done.
  - apply shape_active. by rewrite Hs in Hshape.
  - destruct initial; [by destruct Hi as (_ & -> & _)|by destruct Hi as [_ ?]].
  - destruct initial; [by destruct Hi as (-> & _)|destruct Hi as [-> _]; done].
  - by apply (transition_shape (CoverageStatus r)).
  - destruct (streq target CoverageActive && _); [by intros [=]|done].
  - intros ->. unfold allowedCoverageTransition in Ht. apply Hno. table Ht.
    match goal with H : CoverageStatus r = _ |- _ => rewrite H in Hshape end.
    destruct (shape_filing _ _ Hshape) as [Hf|[Hf|Hf]]; [done|rewrite Hf in Hshape; discriminate..].
  - intros _. by apply Hno.
  - intros _. by apply Hno.
  - eapply freeze_shape; [done|]. destruct neverActivated; naive_solver.
  - intros Hs. destruct neverActivated; [naive_solver|].
    rewrite Hs in Hshape. destruct Hn as [Hn|Hn]; rewrite Hn in Hshape; discriminate.
Qed.

Lemma coverage_reachable_ok r : coverage_reachable r -> coverage_ok r.
Proof.
  intros (a & o & v & e & r0 & H0 & Hs). assert (coverage_ok r0) as Hok.
  { unfold NewAcceptedCoverageRecord in H0. inv_ok. by split; cbn. }
  clear H0. induction Hs; eauto using coverage_ok_step.
Qed.

Definition coverage_settled (status : string) : bool :=
  one_of status [CoverageReleasePending; CoverageClosed; CoverageCancelled; CoverageExhausted; CoverageDefaulted;
                 CoverageClosedNotActivated].

(** C39: Every coverage record the operations can produce has a filing state that
    is not-open, open or frozen.  Filing is open only once the coverage was
    activated and before it is released; a coverage that is being released or is
    closed has a frozen filing cut; and a coverage confirmed as never activated,
    or whose filing never opened, has admitted no claim. *)
Theorem coverage_filing_invariant r :
  coverage_reachable r ->
  (ClaimFilingStatus r = FilingNotOpen \/ ClaimFilingStatus r = FilingOpen \/ ClaimFilingStatus r = FilingFrozen) /\
  (ClaimFilingStatus r = FilingOpen ->
     CoverageStatus r ∈ [CoverageActive; CoverageCancellationResolving; CoverageEnded; CoverageAmbiguous]) /\
  (coverage_settled (CoverageStatus r) = true -> ClaimFilingStatus r = FilingFrozen) /\
  (ClaimFilingStatus r = FilingNotOpen \/ CoverageStatus r = CoverageNotActivatedConfirmed ->
     ClaimAdmissionHighWater r = 0).
Proof.
  intros [Hs Hno Hna]%coverage_reachable_ok. split_and!; [by eapply shape_filing| | |naive_solver].
  - intros Hf. rewrite Hf in Hs. by apply one_of_true in Hs.
  - intros Hc. unfold coverage_settled in Hc. apply one_of_true in Hc.
    destruct (shape_filing _ _ Hs) as [Hf|[Hf|Hf]]; [| |done]; rewrite Hf in Hs; apply one_of_true in Hs;
      rewrite !elem_of_cons, elem_of_nil in *; destruct_or?; try done;
      match goal with H : CoverageStatus r = _, H' : CoverageStatus r = _ |- _ => rewrite H in H'; discriminate H' end.
Qed.

(** ** The filing cut is final *)

Lemma frozen_step r r' : coverage_step r r' -> ClaimFilingStatus r = FilingFrozen ->
  ClaimFilingStatus r' = FilingFrozen /\ ClaimAdmissionHighWater r' = ClaimAdmissionHighWater r /\
  FilingStateRevision r' = FilingStateRevision r.
Proof.
  intros [o Ho] Hf. apply coverage_op_effect in Ho. destruct o, Ho as [_ _ _ Hhw He Hq]; cbn in Hhw;
    (destruct Hq as [Hq|Hq]; [|done]); rewrite Hhw, Hq, ?Hf in *; cbn in He; try naive_solver.
  - destruct initial; [naive_solver|]. naive_solver.
  - destruct He as (_ & _ & _ & ->). by rewrite andb_false_r.
Qed.

(** A frozen filing cut is final: whatever is done to the coverage
    afterwards, its filing stays frozen, the claim-admission high water and the
    filing revision keep the values of the cut, and no further claim is
    admitted. *)
Theorem coverage_cut_final r r' :
  ClaimFilingStatus r = FilingFrozen -> rtc coverage_step r r' ->
  ClaimFilingStatus r' = FilingFrozen /\ ClaimAdmissionHighWater r' = ClaimAdmissionHighWater r /\
  FilingStateRevision r' = FilingStateRevision r /\
  (forall x h l e, is_ok (AdmitClaimRevision r' x h l e true) = false) /\
  (forall x y h l e n, is_ok (FreezeClaimFiling r' x y h l e n) = false).
Proof.
  intros Hf Hs. assert (ClaimFilingStatus r' = FilingFrozen /\ ClaimAdmissionHighWater r' = ClaimAdmissionHighWater r /\
    FilingStateRevision r' = FilingStateRevision r) as (H1 & H2 & H3).
  { induction Hs as [|r r1 r2 H1 H2 IH]; [done|].
    destruct (frozen_step _ _ H1 Hf) as (Hf1 & <- & <-). by apply IH. }
  split_and!; [done..| |].
  - intros x h l e. destruct (AdmitClaimRevision r' x h l e true) as [r2| |] eqn:He; [|done..].
    apply (admit_effect x h l e true) in He as [_ _ _ _ (_ & _ & _ & Ho & _) _]. rewrite H1 in Ho. discriminate Ho.
  - intros x y h l e n. destruct (FreezeClaimFiling r' x y h l e n) as [r2| |] eqn:He; [|done..].
    apply (freeze_effect x y h l e n) in He as [_ _ _ _ (_ & _ & Hn & _) _]. done.
Qed.

(** ** Compare-and-set: a revision is consumed once *)

Lemma revision_past o r r' v : run_coverage o r = Ok r' -> u64 (CoverageRevision r) -> 0 <= v < CoverageRevision r ->
  CoverageRevision r' = 0 \/ v < CoverageRevision r'.
Proof.
  intros Ho Hu Hv. apply coverage_op_effect in Ho as [_ -> _ _ _ _]. destruct (expected_revision o); [|lia].
  unfold wrap64, u64 in *. destruct (decide (CoverageRevision r + 1 = two64)) as [->|].
  - left. apply Z.mod_same. pose proof two64_pos; lia.
  - right. rewrite Z.mod_small; lia.
Qed.

Lemma revision_u64_step r r' : coverage_step r r' -> u64 (CoverageRevision r) -> u64 (CoverageRevision r').
Proof.
  intros [o Ho] Hu. apply coverage_op_effect in Ho as [_ -> _ _ _ _].
  destruct (expected_revision o); [apply wrap64_range|done].
Qed.

Lemma revision_past_star r r' v : rtc coverage_step r r' -> u64 (CoverageRevision r) ->
  CoverageRevision r = 0 \/ v < CoverageRevision r -> 0 <= v -> CoverageRevision r' = 0 \/ v < CoverageRevision r'.
Proof.
  intros Hs. induction Hs as [|r r1 r2 [o H1] H2 IH]; intros Hu Hr Hv; [done|].
  assert (0 < CoverageRevision r) by (by apply coverage_op_effect in H1 as []).
  apply IH; [eapply revision_u64_step; [by eexists|done]| |done].
  eapply revision_past; [done|done|]. split; [lia|]. destruct Hr; lia.
Qed.

(** A coverage revision is consumed once.  After an operation succeeded
    against revision [v], no operation expecting [v] (activation or its refusal,
    cancellation, claim admission, filing close, a status transition) is ever
    accepted again on that record, however many operations follow: the counter
    cannot return to [v], because a record whose counter wrapped to zero is
    refused by every operation. *)
Theorem coverage_revision_consumed o r r1 r2 v :
  u64 (CoverageRevision r) -> expected_revision o = Some v -> run_coverage o r = Ok r1 ->
  rtc coverage_step r1 r2 ->
  forall o', expected_revision o' = Some v -> is_ok (run_coverage o' r2) = false.
Proof.
  intros Hu Hv H1 Hs o' Hv'. destruct (run_coverage o' r2) as [r3| |] eqn:H2; [exfalso|done..].
  pose proof (coverage_op_effect _ _ _ H1) as [Hpos Hrev Hexp _ _ _]. rewrite Hv in Hrev. apply Hexp in Hv; subst v.
  assert (CoverageRevision r1 = 0 \/ CoverageRevision r < CoverageRevision r1) as Hr1.
  { rewrite Hrev. unfold wrap64, u64 in *. destruct (decide (CoverageRevision r + 1 = two64)) as [->|].
    - left. apply Z.mod_same. pose proof two64_pos; lia.
    - right. rewrite Z.mod_small; lia. }
  apply coverage_op_effect in H2 as [Hpos2 _ Hexp2 _ _ _]. apply Hexp2 in Hv'.
  destruct (revision_past_star _ _ (CoverageRevision r) Hs); [|done|lia|lia|lia].
  rewrite Hrev. apply wrap64_range.
Qed.

(** ** The high water counts the admitted claims *)

Definition run_coverages (r : CoverageRecord) (ops : list coverage_op) : result string CoverageRecord :=
  foldM (fun r o => run_coverage o r) r ops.
Definition admissions (ops : list coverage_op) : Z :=
  zsum ((fun o => match o with CAdmit _ _ _ _ true => 1 | _ => 0 end) <$> ops).

Definition counted (n : Z) (r : CoverageRecord) : Prop :=
  u64 (CoverageRevision r) /\ 0 <= n /\ (CoverageRevision r = 0 \/ n < CoverageRevision r) /\
  (ClaimFilingStatus r = FilingNotOpen \/ ClaimFilingStatus r = FilingOpen -> ClaimAdmissionHighWater r = n).

Lemma counted_step n o r r' : coverage_ok r -> counted n r -> run_coverage o r = Ok r' ->
  counted (n + match o with CAdmit _ _ _ _ true => 1 | _ => 0 end) r'.
Proof.
  intros Hok (Hu & Hn & Hr & Hh) Ho. pose proof (ok_shape _ Hok) as Hs. apply shape_filing in Hs.
  pose proof (revision_u64_step r r' (ex_intro _ o Ho) Hu) as Hu'.
  apply coverage_op_effect in Ho as [Hpos Hrev _ Hhw He _]. split; [done|].
  assert (n < CoverageRevision r) as Hlt by (destruct Hr; lia).
  assert (CoverageRevision r' = 0 \/ CoverageRevision r' = CoverageRevision r + 1 \/
    CoverageRevision r' = CoverageRevision r /\ expected_revision o = None) as Hr'.
  { rewrite Hrev. destruct (expected_revision o); [|auto]. unfold wrap64, u64 in *.
    destruct (decide (CoverageRevision r + 1 = two64)) as [->|].
    - left. apply Z.mod_same. pose proof two64_pos; lia.
    - right. left. rewrite Z.mod_small; lia. }
  split; [destruct o; try lia; destruct initial; lia|].
  split; [destruct Hr' as [?|[?|[? Hx]]]; [by left|right..]; destruct o as [| ? ? ? ? []| | | | | ]; try done; lia|]. rewrite Hhw. clear Hhw Hrev.
  destruct o as [| ? h ? ? []| | | | | ]; try rewrite Z.add_0_r.
  - destruct He as (_ & _ & ->). done.
  - destruct He as (_ & _ & _ & Ho & ->). intros _. rewrite Hh by auto. apply wrap64_small. unfold u64 in *. lia.
  - destruct He as (_ & -> & -> & _). done.
  - destruct He as (_ & _ & _ & ->). destruct (_ && _) eqn:Hc; [|done]. intros _. apply Hh. guards. auto.
  - destruct He as (Hf & _ & _). auto.
  - destruct He as (Hf & _ & _). auto.
  - destruct He as (_ & -> & _). intros [[=]|[=]].
  - destruct He as (_ & ->). done.
Qed.

Lemma counted_run ops n r r' : coverage_ok r -> counted n r -> run_coverages r ops = Ok r' ->
  counted (n + admissions ops) r'.
Proof.
  revert n r. induction ops as [|o ops IH]; intros n r Hok Hn H; cbn in H.
  - inv_ok. unfold admissions; cbn. by rewrite Z.add_0_r.
  - apply bind_Ok in H as (r1 & H1 & H2). unfold admissions. cbn [fmap list_fmap]. rewrite zsum_cons.
    rewrite Z.add_assoc. apply (IH _ r1); [|by apply (counted_step _ _ r)|done].
    eapply coverage_ok_step; [by eexists|done].
Qed.

(** While filing is open, the claim-admission high water is exactly the
    number of initial claim admissions the coverage accepted since its genesis;
    claim revisions, adapter updates, transitions and a cancellation leave it
    alone, and the counter never wraps. *)
Theorem coverage_high_water_exact a o v e r0 ops r :
  NewAcceptedCoverageRecord a o v e = Ok r0 -> run_coverages r0 ops = Ok r ->
  ClaimFilingStatus r = FilingOpen -> ClaimAdmissionHighWater r = admissions ops.
Proof.
  intros H0 Hr Hf. assert (coverage_ok r0 /\ counted 0 r0) as [Hok Hc].
  { unfold NewAcceptedCoverageRecord in H0. inv_ok. split; [by split|]. split_and!; cbn; try lia; try done. }
  apply (counted_run _ 0) in Hr as (_ & _ & _ & Hh); [|done..]. rewrite Hh by auto. lia.
Qed.

(** ** Claims *)

Definition claim_final (s : string) : bool := one_of s [ClaimFinalApproved; ClaimFinalPartiallyApproved; ClaimFinalDenied].
Definition payout_final (s : string) : bool := one_of s [PayoutPaid; PayoutDefaulted; PayoutNotApplicable].
#[local] Arguments claim_final : simpl never.
#[local] Arguments payout_final : simpl never.
#[local] Arguments claimRevisionOpen : simpl never.

Lemma claim_edges : on_edges allowedClaimTransition (fun from _ => negb (claim_final from)).
Proof. intros from to H. unfold allowedClaimTransition in H. table H; reflexivity. Qed.

Lemma payout_edges : on_edges allowedPayoutTransition (fun from to =>
  negb (payout_final from) && negb (streq to PayoutNotMaterialized)).
Proof. intros from to H. unfold allowedPayoutTransition in H. table H; reflexivity. Qed.

Lemma claim_open_not_final s : claimRevisionOpen s = true -> claim_final s = false.
Proof.
  intros H. apply one_of_true in H. rewrite !elem_of_cons, elem_of_nil in H. by destruct_or?; subst.
Qed.

(** What one step can change, by the decision and the payout it starts from. *)
Record claim_effect (r r' : ClaimRecord) : Prop := {
  ce_body : ClaimID r' = ClaimID r /\ CurrentClaimBodyDigest r' = CurrentClaimBodyDigest r;
  ce_final : claim_final (ClaimStatus r) = true ->
    ClaimStatus r' = ClaimStatus r /\ ClaimRevision r' = ClaimRevision r;
  ce_materialized : PayoutStatus r <> PayoutNotMaterialized ->
    ClaimRevision r' = ClaimRevision r /\ PayoutStatus r' <> PayoutNotMaterialized;
  ce_payout : payout_final (PayoutStatus r) = true -> PayoutStatus r' = PayoutStatus r }.

Lemma claim_step_effect r r' : claim_step r r' -> claim_effect r r'.
Proof.
  intros [[n p e|x t e|t e] H]; cbn in H; unfold ReviseAdmittedClaim, TransitionClaim, TransitionPayout in H;
    inv_ok; guards; split; cbn; try done.
  - intros Hf. match goal with H : claimRevisionOpen _ = true |- _ => apply claim_open_not_final in H; congruence end.
  - intros Hf. pose proof (claim_edges _ _ ltac:(eassumption)) as He. cbn in He. by rewrite Hf in He.
  - pose proof (payout_edges _ _ ltac:(eassumption)) as He. cbn in He. intros _. split; [done|]. intros ->.
    by rewrite andb_false_r in He.
  - pose proof (payout_edges _ _ ltac:(eassumption)) as He. cbn in He. intros Hf. by rewrite Hf in He.
Qed.

(** Decisions and payouts are final.  Along any sequence of claim revisions,
    decision transitions and payout transitions, a final decision keeps its
    status and its claim revision, a payout that was materialised fixes the claim
    revision it pays, and a payout that is paid, defaulted or not applicable
    never changes. *)
Theorem claim_outcome_final r r' :
  rtc claim_step r r' ->
  (claim_final (ClaimStatus r) = true -> ClaimStatus r' = ClaimStatus r /\ ClaimRevision r' = ClaimRevision r) /\
  (PayoutStatus r <> PayoutNotMaterialized -> ClaimRevision r' = ClaimRevision r) /\
  (payout_final (PayoutStatus r) = true -> PayoutStatus r' = PayoutStatus r).
Proof.
  intros Hs. induction Hs as [|r r1 r2 H1 H2 (IH1 & IH2 & IH3)]; [done|].
  apply claim_step_effect in H1 as [_ Hf Hm Hp]. split_and!.
  - intros H. destruct (Hf H) as [E1 E2]. rewrite <- E1 in H. destruct (IH1 H). split; congruence.
  - intros H. destruct (Hm H) as [E1 E2]. rewrite <- E1. by apply IH2.
  - intros H. rewrite <- (Hp H) in H |- *. by apply IH3.
Qed.

(** A claim revision does not advance the claim lineage.  It must name the
    body digest of the revision it replaces, yet the record it returns still
    carries that digest as current, so a second revision naming the same
    predecessor is accepted as well. *)
Theorem claim_revision_keeps_predecessor r n p e r' e' :
  ReviseAdmittedClaim r n p e = Ok r' -> validDigest e' = true ->
  CurrentClaimBodyDigest r' = p /\ is_ok (ReviseAdmittedClaim r' (wrap64 (n + 1)) p e') = true.
Proof.
  intros H He. unfold ReviseAdmittedClaim in H. inv_ok. guards. subst. split; [done|].
  unfold ReviseAdmittedClaim; cbn [ClaimID ClaimRevision CurrentClaimBodyDigest ClaimStatus PayoutStatus].
  repeat match goal with H : _ = true |- _ => rewrite H end.
  rewrite Z.eqb_refl. unfold streq. rewrite bool_decide_true by done.
  match goal with H : PayoutStatus r = _ |- _ => rewrite H end. reflexivity.
Qed.

(** ** Collateral *)

Definition collateral_final (s : string) : bool :=
  one_of s [CollateralDepleted; CollateralReleased; CollateralReorged; CollateralDefaulted].

Lemma collateral_edges : on_edges allowedCollateralTransition (fun from _ => negb (collateral_final from)).
Proof. intros from to H. unfold allowedCollateralTransition in H. table H; reflexivity. Qed.

Lemma collateral_step_effect r r' : collateral_step r r' ->
  collateral_final (CollateralStatus r) = false /\
  (PositionID r', Asset r', AllocatedAmount r', CumulativeConsumed r', CumulativeReleased r', CumulativeImpaired r',
   RemainingAmount r') =
  (PositionID r, Asset r, AllocatedAmount r, CumulativeConsumed r, CumulativeReleased r, CumulativeImpaired r,
   RemainingAmount r).
Proof.
  intros (x & t & e & H). unfold TransitionCollateral in H. inv_ok. guards. cbn. split; [|done].
  pose proof (collateral_edges _ _ ltac:(eassumption)) as He. by apply negb_true_iff in He.
Qed.

(** Moving a collateral position never changes the position's identity, its
    asset or any of its amounts, and a position that was depleted, released,
    reorganised away or defaulted never moves again. *)
Theorem collateral_amounts_fixed r r' :
  rtc collateral_step r r' ->
  (PositionID r', Asset r', AllocatedAmount r', CumulativeConsumed r', CumulativeReleased r', CumulativeImpaired r',
   RemainingAmount r') =
  (PositionID r, Asset r, AllocatedAmount r, CumulativeConsumed r, CumulativeReleased r, CumulativeImpaired r,
   RemainingAmount r) /\
  (collateral_final (CollateralStatus r) = true -> r' = r).
Proof.
  intros Hs. induction Hs as [|r r1 r2 H1 H2 [IH1 IH2]]; [done|].
  apply collateral_step_effect in H1 as [Hf He]. split; [by rewrite IH1|by rewrite Hf].
Qed.

Module Sample.
Definition digest (c : ascii) : string := "sha256:" +:+ repeat_byte c 64.
Definition e : string := digest "e".
Definition offer (status : string) (revision : Z) (evidence : string) : OfferRecord :=
  {| OfferID := "o1"; OfferReservationID := "r1"; AgreementDigest := digest "a"; OfferStatus := status;
     OfferRevision := revision; OfferEvidence := evidence |}.
Definition genesis : CoverageRecord :=
  mkCoverageRecord (digest "a") "ob1" (digest "b") CoveragePendingAuthorization FilingNotOpen AdapterEvidenceCurrent
    1 1 0 "" 0 "" "" e.

(** Activation, two admitted claims, a revision of one of them and a cancellation. *)
Definition open_history : list coverage_op :=
  [CActivate 1 1 e; CAdmit 2 1 (digest "1") e true; CAdmit 3 2 (digest "2") e true; CAdapter AdapterEvidenceUnknown e;
   CAdmit 4 2 (digest "3") e false; CCancel 5 1700000000 e].
Definition cancelled : CoverageRecord :=
  mkCoverageRecord (digest "a") "ob1" (digest "b") CoverageEnded FilingOpen AdapterEvidenceUnknown
    6 2 2 (digest "3") 1700000000 "accepted_cancellation" e e.
Definition frozen : CoverageRecord :=
  mkCoverageRecord (digest "a") "ob1" (digest "b") CoverageEnded FilingFrozen AdapterEvidenceUnknown
    7 3 2 (digest "3") 1700000000 "accepted_cancellation" e e.
Definition released : CoverageRecord :=
  mkCoverageRecord (digest "a") "ob1" (digest "b") CoverageReleasePending FilingFrozen AdapterEvidenceUnknown
    8 3 2 (digest "3") 1700000000 "accepted_cancellation" e e.
Definition activated : CoverageRecord :=
  mkCoverageRecord (digest "a") "ob1" (digest "b") CoverageActive FilingOpen AdapterEvidenceCurrent 2 2 0 "" 0 "" "" e.

Definition claim (status payout : string) (revision state : Z) : ClaimRecord :=
  mkClaimRecord (digest "c") revision status payout state 0 (digest "d") e.
Definition usd : AssetIdentityV1 := {| AssetNamespace := "tos"; AssetIdentifier := "usd"; Unit := "atomic" |}.
Definition amount (s : string) : AtomicAmountV1 := {| AmountAsset := usd; AmountAtomic := s |}.
Definition position (status : string) (revision : Z) : CollateralPositionStateV1 :=
  {| SchemaVersion := 1; PositionAgreementBodyDigest := digest "a"; CollateralObligationID := "ob1"; PositionID := "p1";
     PositionDigest := digest "p"; CoverageBindingDigest := digest "b"; StateRevision := revision;
     CollateralStatus := status; Asset := usd; AllocatedAmount := amount "100"; CumulativeConsumed := amount "0";
     CumulativeReleased := amount "0"; CumulativeImpaired := amount "0"; RemainingAmount := amount "100" |}.

Lemma history_run : run_coverages genesis open_history = Ok cancelled.
Proof. vm_compute. reflexivity. Qed.

Lemma run_steps ops r r' : run_coverages r ops = Ok r' -> rtc coverage_step r r'.
Proof.
  revert r; induction ops as [|o ops IH]; intros r H; cbn in H; [inv_ok; constructor|].
  apply bind_Ok in H as (r1 & H1 & H2). eapply rtc_l; [by eexists|eauto].
Qed.

Lemma offer_one_outcome_witness : ~ OfferStatus (offer OfferReleased 3 e) = OfferAccepted.
Proof.
  apply (offer_one_outcome (offer OfferExpired 2 e) (offer OfferReleased 3 e)); [|reflexivity].
  apply rtc_once. exists (ORelease 2 e). vm_compute. reflexivity.
Defined.

Lemma coverage_filing_invariant_witness : ClaimFilingStatus released = FilingFrozen.
Proof.
  apply (coverage_filing_invariant released); [|vm_compute; reflexivity]. exists (digest "a"), "ob1"%string, (digest "b"), e, genesis.
  split; [vm_compute; reflexivity|]. apply (run_steps (open_history ++
    [CFreeze 6 2 2 (digest "3") e false; CTransition 7 CoverageReleasePending e])). vm_compute. reflexivity.
Defined.

Lemma coverage_cut_final_witness : ClaimAdmissionHighWater released = ClaimAdmissionHighWater frozen.
Proof.
  apply (coverage_cut_final frozen released); [reflexivity|]. apply rtc_once.
  exists (CTransition 7 CoverageReleasePending e). vm_compute. reflexivity.
Defined.

Lemma coverage_revision_consumed_witness : is_ok (ConfirmCoverageNonActivation activated 1 1 e) = false.
Proof.
  apply (coverage_revision_consumed (CActivate 1 1 e) genesis activated activated 1) with
    (o' := CConfirmNonActivation 1 1 e); [by apply u64_lit|reflexivity|vm_compute; reflexivity|constructor|reflexivity].
Defined.

Lemma coverage_high_water_exact_witness : ClaimAdmissionHighWater cancelled = admissions open_history.
Proof.
  apply (coverage_high_water_exact (digest "a") "ob1" (digest "b") e genesis open_history cancelled);
    [vm_compute; reflexivity|exact history_run|reflexivity].
Defined.

Lemma claim_outcome_final_witness :
  ClaimRevision (claim ClaimFinalApproved PayoutPaid 1 6) = ClaimRevision (claim ClaimFinalApproved PayoutPrepared 1 6).
Proof.
  apply (claim_outcome_final (claim ClaimFinalApproved PayoutPrepared 1 6) (claim ClaimFinalApproved PayoutPaid 1 6));
    [|vm_compute; discriminate]. apply rtc_once. exists (KPayout PayoutPaid e). vm_compute. reflexivity.
Defined.

Lemma claim_revision_keeps_predecessor_witness :
  CurrentClaimBodyDigest (claim ClaimAdmitted PayoutNotMaterialized 2 5) = digest "d".
Proof.
  apply (claim_revision_keeps_predecessor (claim ClaimEvidenceRequired PayoutNotMaterialized 1 4) 2 (digest "d") e
    (claim ClaimAdmitted PayoutNotMaterialized 2 5) e); vm_compute; reflexivity.
Defined.

Lemma collateral_amounts_fixed_witness :
  AllocatedAmount (position CollateralLocked 3) = AllocatedAmount (position CollateralLockPending 2).
Proof.
  assert (rtc collateral_step (position CollateralLockPending 2) (position CollateralLocked 3)) as H.
  { apply rtc_once. exists 2, CollateralLocked, e. vm_compute. reflexivity. }
  exact (f_equal (fun p => p.1.1.1.1.2) (proj1 (collateral_amounts_fixed _ _ H))).
Defined.
End Sample.
