(* ===== verification/CellLib.v ===== *)
(** * The TVM cell library (tosutils-go/tvm/cell)

    The commitments of the protocol are TVM cells: trees whose nodes hold at
    most 1023 bits and at most four references.  The library that builds and
    parses them is not part of the repository; what the repository uses of it
    is the class [CellLib], and the documented behaviour it relies on is the
    class [CellLaws].  Components are defined against the first and proved
    against the second; [sampleCells] shows that both can be met. *)

From S2P Require Import Prelude Sha256.

(** ** Bits, most significant first *)

Fixpoint ubits (n : nat) (v : Z) : list bool :=
  match n with O => [] | S n => Z.testbit v (Z.of_nat n) :: ubits n v end.

Fixpoint uval (l : list bool) : Z :=
  match l with [] => 0 | b :: l => Z.b2z b * 2 ^ Z.of_nat (length l) + uval l end.

(** Two's complement. *)
Definition sval (l : list bool) : Z :=
  match l with true :: _ => uval l - 2 ^ Z.of_nat (length l) | _ => uval l end.

Fixpoint bytes_bits (s : string) : list bool :=
  match s with EmptyString => [] | String c s => ubits 8 (byte_val c) ++ bytes_bits s end.

Fixpoint bits_bytes (l : list bool) : string :=
  match l with
  | b7 :: b6 :: b5 :: b4 :: b3 :: b2 :: b1 :: b0 :: l => String (Ascii b0 b1 b2 b3 b4 b5 b6 b7) (bits_bytes l)
  | _ => EmptyString
  end.

Lemma length_ubits n v : length (ubits n v) = n.
Proof. induction n; cbn; congruence. Qed.

Lemma uval_ubits n v : 0 <= v < 2 ^ Z.of_nat n -> uval (ubits n v) = v.
Proof.
  intros H. replace v with (v mod 2 ^ Z.of_nat n) at 2 by (apply Z.mod_small; lia). clear H.
  induction n as [|n IH]; [by rewrite Z.mod_1_r|]. cbn [ubits uval]. rewrite length_ubits, IH.
  rewrite Z.testbit_spec' by lia. replace (Z.of_nat (S n)) with (Z.of_nat n + 1) by lia.
  rewrite Z.pow_add_r, Z.pow_1_r, Z.rem_mul_r by lia. lia.
Qed.

Lemma uval_range l : 0 <= uval l < 2 ^ Z.of_nat (length l).
Proof.
  induction l as [|b l IH]; [done|]. cbn [uval length]. replace (Z.of_nat (S (length l))) with (Z.of_nat (length l) + 1) by lia.
  rewrite Z.pow_add_r, Z.pow_1_r by lia. destruct b; cbn [Z.b2z]; lia.
Qed.

Lemma ubits_inj n v w : 0 <= v < 2 ^ Z.of_nat n -> 0 <= w < 2 ^ Z.of_nat n -> ubits n v = ubits n w -> v = w.
Proof. intros Hv Hw H. by rewrite <- (uval_ubits n v), <- (uval_ubits n w), H. Qed.

Lemma length_bytes_bits s : length (bytes_bits s) = (8 * String.length s)%nat.
Proof.
  induction s as [|c s IH]; [done|]. cbn [bytes_bits String.length]. rewrite length_app, length_ubits, IH. lia.
Qed.

Lemma bits_bytes_bits s : bits_bytes (bytes_bits s) = s.
Proof.
  induction s as [|c s IH]; [done|]. cbn [bytes_bits]. destruct c as [[] [] [] [] [] [] [] []]; cbn; by rewrite IH.
Qed.

Lemma bytes_bits_app s t : bytes_bits (s +:+ t) = bytes_bits s ++ bytes_bits t.
Proof. induction s as [|c s IH]; [done|]. rewrite app_cons_str. cbn [bytes_bits]. by rewrite IH, app_assoc. Qed.

Lemma sval_ubits n v : (0 < n)%nat -> 0 <= v < 2 ^ (Z.of_nat n - 1) -> sval (ubits n v) = v.
Proof.
  intros Hn Hv. destruct n as [|n]; [lia|]. assert (0 <= v < 2 ^ Z.of_nat (S n)).
  { split; [lia|]. etransitivity; [apply Hv|]. apply Z.pow_lt_mono_r; lia. }
  unfold sval. cbn [ubits].
  assert (Z.testbit v (Z.of_nat n) = false) as Hb.
  { replace (Z.of_nat (S n) - 1) with (Z.of_nat n) in Hv by lia.
    destruct (decide (v = 0)) as [->|]; [apply Z.bits_0|]. apply Z.bits_above_log2; [lia|].
    apply Z.log2_lt_pow2; lia. }
  rewrite Hb, <- Hb. by apply (uval_ubits (S n)).
Qed.

(** ** The library *)

Class CellLib := {
  Cell : Type;
  Builder : Type;
  Slice : Type;
  BeginCell : Builder;
  StoreUInt : Z -> Z -> Builder -> option Builder;
  StoreInt : Z -> Z -> Builder -> option Builder;
  StoreSlice : string -> Z -> Builder -> option Builder;
  StoreBoolBit : bool -> Builder -> option Builder;
  StoreBinarySnake : string -> Builder -> option Builder;
  StoreRef : Cell -> Builder -> option Builder;
  EndCell : Builder -> Cell;
  Hash : Cell -> string;
  BeginParse : Cell -> option Slice;
  LoadUInt : Z -> Slice -> option (Z * Slice);
  LoadInt : Z -> Slice -> option (Z * Slice);
  LoadSlice : Z -> Slice -> option (string * Slice);
  LoadBoolBit : Slice -> option (bool * Slice);
  LoadRefCell : Slice -> option (Cell * Slice);
  BitsLeft : Slice -> Z;
  RefsNum : Slice -> Z }.

(** The content of a builder or a slice: its bits and its references. *)
Class CellLaws (L : CellLib) := {
  b_bits : Builder -> list bool;
  b_refs : Builder -> list Cell;
  s_bits : Slice -> list bool;
  s_refs : Slice -> list Cell;
  begin_empty : b_bits BeginCell = [] /\ b_refs BeginCell = [];
  store_uint v n b : (n <= 64)%nat -> 0 <= v < 2 ^ Z.of_nat n -> (length (b_bits b) + n <= 1023)%nat ->
    exists b', StoreUInt v (Z.of_nat n) b = Some b' /\ b_bits b' = b_bits b ++ ubits n v /\ b_refs b' = b_refs b;
  store_int v n b : (0 < n <= 64)%nat -> 0 <= v < 2 ^ (Z.of_nat n - 1) -> (length (b_bits b) + n <= 1023)%nat ->
    exists b', StoreInt v (Z.of_nat n) b = Some b' /\ b_bits b' = b_bits b ++ ubits n v /\ b_refs b' = b_refs b;
  store_slice s n b : n = (8 * String.length s)%nat -> (length (b_bits b) + n <= 1023)%nat ->
    exists b', StoreSlice s (Z.of_nat n) b = Some b' /\ b_bits b' = b_bits b ++ bytes_bits s /\ b_refs b' = b_refs b;
  store_bool x b : (length (b_bits b) + 1 <= 1023)%nat ->
    exists b', StoreBoolBit x b = Some b' /\ b_bits b' = b_bits b ++ [x] /\ b_refs b' = b_refs b;
  store_ref c b : (length (b_refs b) + 1 <= 4)%nat ->
    exists b', StoreRef c b = Some b' /\ b_bits b' = b_bits b /\ b_refs b' = b_refs b ++ [c];
  (* a byte string: as many whole bytes as fit, the rest in the first reference *)
  store_snake_short s b : b_bits b = [] -> b_refs b = [] -> (String.length s <= 127)%nat ->
    exists b', StoreBinarySnake s b = Some b' /\ b_bits b' = bytes_bits s /\ b_refs b' = [];
  store_snake_long s t b : b_bits b = [] -> b_refs b = [] -> String.length s = 127%nat -> t <> EmptyString ->
    exists b' bt, StoreBinarySnake (s +:+ t) b = Some b' /\ b_bits b' = bytes_bits s /\
      StoreBinarySnake t BeginCell = Some bt /\ b_refs b' = [EndCell bt];
  parse_end b : exists s, BeginParse (EndCell b) = Some s /\ s_bits s = b_bits b /\ s_refs s = b_refs b;
  load_uint n s v rest : (n <= 64)%nat -> 0 <= v < 2 ^ Z.of_nat n -> s_bits s = ubits n v ++ rest ->
    exists s', LoadUInt (Z.of_nat n) s = Some (v, s') /\ s_bits s' = rest /\ s_refs s' = s_refs s;
  load_uint_range n s v s' : 0 <= n <= 64 -> LoadUInt n s = Some (v, s') -> 0 <= v < 2 ^ n;
  load_int n s v rest : (0 < n <= 64)%nat -> 0 <= v < 2 ^ (Z.of_nat n - 1) -> s_bits s = ubits n v ++ rest ->
    exists s', LoadInt (Z.of_nat n) s = Some (v, s') /\ s_bits s' = rest /\ s_refs s' = s_refs s;
  load_slice n s x rest : n = (8 * String.length x)%nat -> s_bits s = bytes_bits x ++ rest ->
    exists s', LoadSlice (Z.of_nat n) s = Some (x, s') /\ s_bits s' = rest /\ s_refs s' = s_refs s;
  load_slice_length n s x s' : LoadSlice n s = Some (x, s') -> 0 <= n -> n mod 8 = 0 -> 8 * slen x = n;
  load_bool s x rest : s_bits s = x :: rest ->
    exists s', LoadBoolBit s = Some (x, s') /\ s_bits s' = rest /\ s_refs s' = s_refs s;
  load_ref s c rest : s_refs s = c :: rest ->
    exists s', LoadRefCell s = Some (c, s') /\ s_bits s' = s_bits s /\ s_refs s' = rest;
  bits_left s : BitsLeft s = Z.of_nat (length (s_bits s));
  refs_num s : RefsNum s = Z.of_nat (length (s_refs s)) }.

(** ** The [Must] variants panic where the library returns an error *)

(** A chain of calls on a builder. *)
Notation "m |>> f" := (mbind f m) (at level 61, left associativity, only parsing) : stdpp_scope.

Section Must.
Context {L : CellLib} {E : Type}.

Definition must {A} (o : option A) : result E A := match o with Some a => Ok a | None => Panic "cell overflow"%string end.

Definition MustStoreUInt (v n : Z) (b : Builder) : result E Builder := must (StoreUInt v n b).
Definition MustStoreInt (v n : Z) (b : Builder) : result E Builder := must (StoreInt v n b).
Definition MustStoreSlice (s : string) (n : Z) (b : Builder) : result E Builder := must (StoreSlice s n b).
Definition MustStoreBoolBit (x : bool) (b : Builder) : result E Builder := must (StoreBoolBit x b).
Definition MustStoreBinarySnake (s : string) (b : Builder) : result E Builder := must (StoreBinarySnake s b).
Definition MustStoreRef (c : Cell) (b : Builder) : result E Builder := must (StoreRef c b).
Definition begin_cell : result E Builder := Ok BeginCell.
Definition end_cell (m : result E Builder) : result E Cell := EndCell <$> m.
End Must.

(** ** What was stored is what is loaded *)

(** A cell with the given bits and references, as a parser sees it. *)
Definition holds `{CellLaws} (c : Cell) (bits : list bool) (refs : list Cell) : Prop :=
  exists s, BeginParse c = Some s /\ s_bits s = bits /\ s_refs s = refs.

(** A builder under construction. *)
Definition filled `{CellLaws} {E} (m : result E Builder) (bits : list bool) (refs : list Cell) : Prop :=
  exists b, m = Ok b /\ b_bits b = bits /\ b_refs b = refs.

Section Filled.
Context `{LL : CellLaws} {E : Type}.

Lemma holds_fun c bits refs bits' refs' : holds c bits refs -> holds c bits' refs' -> bits = bits' /\ refs = refs'.
Proof. intros (s & H & <- & <-) (s' & H' & <- & <-). by simplify_eq. Qed.

Lemma filled_begin : filled (begin_cell (E := E)) [] [].
Proof. exists BeginCell. split; [done|]. apply begin_empty. Qed.

Lemma filled_uint v n k (m : result E Builder) bits refs :
  filled m bits refs -> k = Z.of_nat n -> (n <= 64)%nat -> 0 <= v < 2 ^ Z.of_nat n -> (length bits + n <= 1023)%nat ->
  filled (m |>> MustStoreUInt v k) (bits ++ ubits n v) refs.
Proof.
  intros (b & -> & <- & <-) -> Hn Hv Hl. destruct (store_uint v n b Hn Hv Hl) as (b' & Hs & ? & ?).
  exists b'. cbn. unfold MustStoreUInt. by rewrite Hs.
Qed.

Lemma filled_int v n k (m : result E Builder) bits refs :
  filled m bits refs -> k = Z.of_nat n -> (0 < n <= 64)%nat -> 0 <= v < 2 ^ (Z.of_nat n - 1) ->
  (length bits + n <= 1023)%nat -> filled (m |>> MustStoreInt v k) (bits ++ ubits n v) refs.
Proof.
  intros (b & -> & <- & <-) -> Hn Hv Hl. destruct (store_int v n b Hn Hv Hl) as (b' & Hs & ? & ?).
  exists b'. cbn. unfold MustStoreInt. by rewrite Hs.
Qed.

Lemma filled_slice s k (m : result E Builder) bits refs :
  filled m bits refs -> k = 8 * slen s -> (length bits + 8 * String.length s <= 1023)%nat ->
  filled (m |>> MustStoreSlice s k) (bits ++ bytes_bits s) refs.
Proof.
  intros (b & -> & <- & <-) -> Hl. destruct (store_slice s _ b eq_refl Hl) as (b' & Hs & ? & ?).
  exists b'. cbn. unfold MustStoreSlice, slen. replace (8 * Z.of_nat (String.length s)) with
    (Z.of_nat (8 * String.length s)) by lia. by rewrite Hs.
Qed.

Lemma filled_bool x (m : result E Builder) bits refs :
  filled m bits refs -> (length bits + 1 <= 1023)%nat -> filled (m |>> MustStoreBoolBit x) (bits ++ [x]) refs.
Proof.
  intros (b & -> & <- & <-) Hl. destruct (store_bool x b Hl) as (b' & Hs & ? & ?).
  exists b'. cbn. unfold MustStoreBoolBit. by rewrite Hs.
Qed.

Lemma filled_ref c (m : result E Builder) bits refs :
  filled m bits refs -> (length refs + 1 <= 4)%nat -> filled (m |>> MustStoreRef c) bits (refs ++ [c]).
Proof.
  intros (b & -> & <- & <-) Hl. destruct (store_ref c b Hl) as (b' & Hs & ? & ?).
  exists b'. cbn. unfold MustStoreRef. by rewrite Hs.
Qed.

Lemma filled_end (m : result E Builder) bits refs :
  filled m bits refs -> exists c, end_cell m = Ok c /\ holds c bits refs.
Proof.
  intros (b & -> & <- & <-). exists (EndCell b). split; [done|]. destruct (parse_end b) as (s & ? & ? & ?). by exists s.
Qed.
End Filled.

(** Sides of a build: field widths, value ranges, and the room left in the cell. *)
Ltac cell_side :=
  match goal with
  | |- ?k = Z.of_nat _ => reflexivity
  | |- (_ <= 64)%nat => lia
  | |- (0 < _ <= 64)%nat => lia
  | |- _ = 8 * slen _ => unfold slen; repeat match goal with H : String.length _ = _ |- _ => rewrite H end; reflexivity
  | |- (length _ + _ <= 1023)%nat =>
      rewrite ?length_app, ?length_ubits, ?length_bytes_bits;
      repeat match goal with H : String.length _ = _ |- _ => rewrite H end; cbn [length]; lia
  | |- (length _ + 1 <= 4)%nat => cbn [length app]; lia
  | |- 0 <= _ < 2 ^ _ => first [ assumption | split; [reflexivity || discriminate|reflexivity] | lia ]
  end.

(** [filled m ?bits ?refs] for a chain of stores. *)
Ltac fill :=
  lazymatch goal with
  | |- filled begin_cell _ _ => apply filled_begin
  | |- filled (mbind (MustStoreUInt ?v ?k) _) _ _ =>
      let n := eval vm_compute in (Z.to_nat k) in eapply (filled_uint v n k); [fill|cell_side|cell_side|cell_side|cell_side]
  | |- filled (mbind (MustStoreInt ?v ?k) _) _ _ =>
      let n := eval vm_compute in (Z.to_nat k) in eapply (filled_int v n k); [fill|cell_side|cell_side|cell_side|cell_side]
  | |- filled (mbind (MustStoreSlice _ _) _) _ _ => eapply filled_slice; [fill|cell_side|cell_side]
  | |- filled (mbind (MustStoreBoolBit _) _) _ _ => eapply filled_bool; [fill|cell_side]
  | |- filled (mbind (MustStoreRef _) _) _ _ => eapply filled_ref; [fill|cell_side]
  | |- filled (?f BeginCell) ?b ?r => change (filled (mbind f begin_cell) b r); fill
  end.

(** Replaces [end_cell m] in the goal by the cell [c] it builds, [H] telling what [c] holds. *)
Ltac build_cell m tac c H :=
  let Hf := fresh "Hf" in let E := fresh "E" in
  eassert (filled m _ _) as Hf; [tac|apply filled_end in Hf as (c & E & H); rewrite E; clear E];
  rewrite ?app_nil_l, <- ?app_assoc in H.
Ltac built_with tac c H := match goal with |- context[end_cell ?m] => build_cell m tac c H end.
Ltac built c H := built_with ltac:(idtac; fill) c H.

(** The same for the first of several cells built in sequence. *)
Ltac built_first c H :=
  match goal with |- context[mbind _ (end_cell ?m)] => build_cell m ltac:(idtac; fill) c H end; cbn [mbind result_bind].

(** Carries what is known of the slice [s] over to the slice left after a load. *)
Ltac settle s :=
  repeat match goal with
  | Ho : s_refs s = ?l, Hn : s_refs _ = s_refs s |- _ => rewrite Ho in Hn
  | Ho : s_bits s = ?l, Hn : s_bits _ = s_bits s |- _ => rewrite Ho in Hn
  end.

(** Running a decoder on a slice whose bits and references are known. *)
Ltac load1 :=
  match goal with
  | Hb : s_bits ?s = ubits ?k ?v ++ ?rest |- context[LoadUInt ?n ?s] =>
      let s' := fresh "s" in let E := fresh "E" in let Hb' := fresh "Hb" in let Hr' := fresh "Hr" in
      destruct (load_uint k s v rest ltac:(lia) ltac:(cell_side) Hb) as (s' & E & Hb' & Hr');
      change (Z.of_nat k) with n in E; rewrite E; clear E; settle s
  | Hb : s_bits ?s = ubits ?k ?v ++ ?rest |- context[LoadInt ?n ?s] =>
      let s' := fresh "s" in let E := fresh "E" in let Hb' := fresh "Hb" in let Hr' := fresh "Hr" in
      destruct (load_int k s v rest ltac:(lia) ltac:(cell_side) Hb) as (s' & E & Hb' & Hr');
      change (Z.of_nat k) with n in E; rewrite E; clear E; settle s
  | Hl : String.length ?x = ?k, Hb : s_bits ?s = bytes_bits ?x ++ _ |- context[LoadSlice ?n ?s] =>
      let s' := fresh "s" in let E := fresh "E" in let Hb' := fresh "Hb" in let Hr' := fresh "Hr" in
      destruct (load_slice _ s x _ eq_refl Hb) as (s' & E & Hb' & Hr');
      rewrite Hl in E; change (Z.of_nat (8 * k)) with n in E; rewrite E; clear E; settle s
  | Hb : s_bits ?s = _ :: _ |- context[LoadBoolBit ?s] =>
      let s' := fresh "s" in let E := fresh "E" in let Hb' := fresh "Hb" in let Hr' := fresh "Hr" in
      destruct (load_bool s _ _ Hb) as (s' & E & Hb' & Hr'); rewrite E; clear E; settle s
  | Hr : s_refs ?s = _ :: _ |- context[LoadRefCell ?s] =>
      let s' := fresh "s" in let E := fresh "E" in let Hb' := fresh "Hb" in let Hr' := fresh "Hr" in
      destruct (load_ref s _ _ Hr) as (s' & E & Hb' & Hr'); rewrite E; clear E; settle s
  end.

(** ** A library that meets the interface *)

#[warnings="-register-all"] Inductive tcell := TCell (bits : list bool) (refs : list tcell).

(** The hash of the bits, padded with a one and zeros to whole bytes, and of the
    hashes of the references. *)
Definition pad_bits (l : list bool) : list bool :=
  l ++ true :: replicate (7 - length l mod 8) false.
Fixpoint tcell_hash (c : tcell) : string :=
  match c with TCell bits refs => Sum256 (bits_bytes (pad_bits bits) +:+ String.concat "" (map tcell_hash refs)) end.

Abbreviation tcontent := (list bool * list tcell)%type.

Definition t_append (l : list bool) (b : tcontent) : option tcontent :=
  if decide (length b.1 + length l <= 1023)%nat then Some (b.1 ++ l, b.2) else None.
Definition t_ref (c : tcell) (b : tcontent) : option tcontent :=
  if decide (length b.2 + 1 <= 4)%nat then Some (b.1, b.2 ++ [c]) else None.
Definition t_load (n : Z) (s : tcontent) : option (list bool * tcontent) :=
  if decide (Z.to_nat n <= length s.1)%nat then Some (take (Z.to_nat n) s.1, (drop (Z.to_nat n) s.1, s.2)) else None.

Fixpoint take_bytes (n : nat) (s : string) : string :=
  match n, s with S n, String c s => String c (take_bytes n s) | _, _ => EmptyString end.

(** 127 bytes in each cell but the last. *)
Fixpoint t_snake (fuel : nat) (s : string) : tcontent :=
  match fuel with
  | O => ([], [])
  | S fuel =>
      if decide (String.length s <= 127)%nat then (bytes_bits s, [])
      else let '(bits, refs) := t_snake fuel (drop_bytes 127 s) in (bytes_bits (take_bytes 127 s), [TCell bits refs])
  end.

Definition sampleCells : CellLib := {|
  Cell := tcell; Builder := tcontent; Slice := tcontent;
  BeginCell := ([], []);
  StoreUInt v n b := t_append (ubits (Z.to_nat n) v) b;
  StoreInt v n b := t_append (ubits (Z.to_nat n) v) b;
  StoreSlice s n b := t_append (take (Z.to_nat n) (bytes_bits s)) b;
  StoreBoolBit x b := t_append [x] b;
  StoreBinarySnake s b := let '(bits, refs) := t_snake (S (String.length s)) s in Some (b.1 ++ bits, b.2 ++ refs);
  StoreRef := t_ref;
  EndCell b := TCell b.1 b.2;
  Hash := tcell_hash;
  BeginParse c := match c with TCell bits refs => Some (bits, refs) end;
  LoadUInt n s := (fun '(l, s) => (uval l, s)) <$> t_load n s;
  LoadInt n s := (fun '(l, s) => (sval l, s)) <$> t_load n s;
  LoadSlice n s := (fun '(l, s) => (bits_bytes l, s)) <$> t_load n s;
  LoadBoolBit s := match s.1 with x :: l => Some (x, (l, s.2)) | [] => None end;
  LoadRefCell s := match s.2 with c :: l => Some (c, (s.1, l)) | [] => None end;
  BitsLeft s := Z.of_nat (length s.1);
  RefsNum s := Z.of_nat (length s.2) |}.

Lemma t_append_fits l b : (length b.1 + length l <= 1023)%nat -> t_append l b = Some (b.1 ++ l, b.2).
Proof. intros H. unfold t_append. by rewrite decide_True. Qed.

Lemma t_load_app n s l rest : Z.to_nat n = length l -> s.1 = l ++ rest -> t_load n s = Some (l, (rest, s.2)).
Proof.
  intros Hn Hs. unfold t_load. rewrite decide_True by (rewrite Hs, length_app; lia).
  by rewrite Hn, Hs, take_app_length, drop_app_length.
Qed.

Lemma take_bytes_app s t : take_bytes (String.length s) (s +:+ t) = s.
Proof. induction s as [|c s IH]; [by destruct t|]. rewrite app_cons_str. cbn. by rewrite IH. Qed.

Lemma drop_bytes_length n s : String.length (drop_bytes n s) = (String.length s - n)%nat.
Proof. revert s. induction n as [|n IH]; intros [|c s]; cbn; auto. Qed.

Lemma t_snake_fuel k fuel s : (String.length s < k)%nat -> (String.length s < fuel)%nat -> t_snake k s = t_snake fuel s.
Proof.
  revert fuel s. induction k as [|k IH]; intros [|fuel] s Hk Hf; try lia. cbn -[drop_bytes take_bytes].
  destruct (decide _); [done|]. rewrite (IH fuel); [done|rewrite drop_bytes_length; lia..].
Qed.

Lemma bits_bytes_length k l : length l = (8 * k)%nat -> String.length (bits_bytes l) = k.
Proof.
  revert l. induction k as [|k IH]; intros l Hl; [by destruct l|].
  do 8 (destruct l as [|? l]; [cbn in Hl; lia|]). cbn. f_equal. apply IH. cbn in Hl. lia.
Qed.

#[global] Instance sampleCells_laws : CellLaws sampleCells.
Proof.
  refine {| b_bits (b : @Builder sampleCells) := b.1; b_refs b := b.2; s_bits (s : @Slice sampleCells) := s.1;
            s_refs s := s.2 |}; cbn -[t_snake uval sval bits_bytes].
  - done.
  - intros v n b _ _ Hl. rewrite Nat2Z.id, t_append_fits by (rewrite length_ubits; lia). eauto.
  - intros v n b _ _ Hl. rewrite Nat2Z.id, t_append_fits by (rewrite length_ubits; lia). eauto.
  - intros s n b -> Hl. rewrite Nat2Z.id, take_ge by (rewrite length_bytes_bits; lia).
    rewrite t_append_fits by (rewrite length_bytes_bits; lia). eauto.
  - intros x b Hl. rewrite t_append_fits by done. eauto.
  - intros c b Hl. unfold t_ref. rewrite decide_True by done. eauto.
  - intros s b -> -> Hs. cbn -[bytes_bits]. rewrite decide_True by done. eauto.
  - intros s t b -> -> Hs Ht. cbn -[bytes_bits drop_bytes take_bytes].
    assert (String.length (s +:+ t) = 127 + String.length t)%nat as El by (rewrite length_app_str; lia).
    assert (String.length t <> 0)%nat by (by destruct t).
    assert (drop_bytes 127 (s +:+ t) = t) as -> by (rewrite <- Hs; apply drop_bytes_app).
    assert (take_bytes 127 (s +:+ t) = s) as -> by (rewrite <- Hs; apply take_bytes_app).
    rewrite decide_False by lia.
    rewrite (t_snake_fuel _ (S (String.length t)) t) by lia. destruct (t_snake (S (String.length t)) t) as [bits refs] eqn:Et.
    cbn -[bytes_bits drop_bytes take_bytes] in Et. rewrite Et. eauto 7.
  - intros b. eauto.
  - intros n s v rest _ Hv Hs. rewrite (t_load_app _ _ (ubits n v) rest) by (rewrite ?length_ubits; done || lia).
    cbn -[uval]. rewrite uval_ubits by done. eauto.
  - intros n s v s' Hn Hl. unfold t_load in Hl. destruct (decide _) as [Hd|]; [|done]. cbn -[uval] in Hl. injection Hl as <- _.
    pose proof (uval_range (take (Z.to_nat n) s.1)) as H. rewrite length_take, Nat.min_l, Z2Nat.id in H by lia. done.
  - intros n s v rest Hn Hv Hs. rewrite (t_load_app _ _ (ubits n v) rest) by (rewrite ?length_ubits; done || lia).
    cbn -[sval]. rewrite sval_ubits by (done || lia). eauto.
  - intros n s x rest -> Hs. rewrite (t_load_app _ _ (bytes_bits x) rest) by (rewrite ?length_bytes_bits; done || lia).
    cbn -[bits_bytes]. rewrite bits_bytes_bits. eauto.
  - intros n s x s' Hl H0 Hn. unfold t_load in Hl. destruct (decide _) as [Hd|]; [|done]. cbn -[bits_bytes] in Hl.
    injection Hl as <- _. unfold slen. rewrite (bits_bytes_length (Z.to_nat (n / 8))); [|rewrite length_take]; dlia.
  - intros s x rest ->. eauto.
  - intros s c rest ->. eauto.
  - done.
  - done.
Defined.
