(* ===== verification/Native.v ===== *)
(** * Native identities and texts (src/pkg/nativecore: action.go, state.go, locator.go, errors.go)

    The values every Native commitment is made of: object and key identifiers,
    digests, protocol texts and the network domain, with the cells they are
    stored in. *)

From S2P Require Import Prelude Sha256 CellLib.

(** ** Errors: a protocol error has a stable code, any other only a message *)

Definition ErrBadMessage : Z := 2200.
Definition ErrWrongNetwork : Z := 2201.
Definition ErrWrongContract : Z := 2202.
Definition ErrBadAction : Z := 2203.
Definition ErrBadPredecessor : Z := 2204.
Definition ErrBadSequence : Z := 2205.
Definition ErrTombstoned : Z := 2206.
Definition ErrBadPolicy : Z := 2207.
Definition ErrBadSignature : Z := 2208.
Definition ErrThreshold : Z := 2209.
Definition ErrBadTransition : Z := 2210.
Definition ErrImmutableVersion : Z := 2211.
Definition ErrTimelock : Z := 2212.
Definition ErrDuplicateSignature : Z := 2213.

Inductive nerror :=
  | ProtocolError (code : Z) (message : string)
  | PlainError (message : string).
Abbreviation nresult := (result nerror).

Definition nativeError (code : Z) (message : string) : nerror := ProtocolError code message.

(** An error that is already a protocol error keeps its code. *)
Definition wrapNativeError {A} (code : Z) (message : string) (r : nresult A) : nresult A :=
  match r with
  | Err (PlainError _) => Err (ProtocolError code message)
  | _ => r
  end.

Definition ErrorCodeOf (e : nerror) : option Z :=
  match e with ProtocolError c _ => Some c | PlainError _ => None end.

(** Reading with an error of one's own. *)
Definition orelse {A} (o : option A) (message : string) : nresult A := opt_err o (PlainError message).
Definition reject (cond : bool) (message : string) : nresult unit := fail_if cond (PlainError message).

Lemma wrapNativeError_Ok {A} code msg (r : nresult A) a : wrapNativeError code msg r = Ok a <-> r = Ok a.
Proof. destruct r as [|[]|]; naive_solver. Qed.

Lemma reject_no_panic cond msg : no_panic (reject cond msg).
Proof. apply fail_if_no_panic. Qed.
Lemma orelse_no_panic {A} (o : option A) msg : no_panic (orelse o msg).
Proof. apply opt_err_no_panic. Qed.
#[export] Hint Resolve reject_no_panic orelse_no_panic : no_panic.

(** ** Identifiers and digests *)

Definition zero32 : string := zero_bytes 32.
Definition is_zero32 (s : string) : bool := bool_decide (s = zero32).

Definition printable (c : ascii) : bool := (0x21 <=? byte_val c) && (byte_val c <=? 0x7e).

Definition validProtocolText (value : string) (maximum : Z) : bool :=
  negb (bool_decide (value = ""%string)) && (slen value <=? maximum) && all_bytes printable value.

(** One round of the loop over the prefixes; at most one of them fits. *)
Definition objectIDWith (prefix value : string) : option string :=
  if HasPrefix value prefix && (slen value =? slen prefix + 64) then
    raw ← hex_DecodeString (drop_bytes (String.length prefix) value);
    if bool_decide (value = prefix +:+ hex_EncodeToString raw) && negb (is_zero32 raw) then Some raw else None
  else None.

Definition objectID (value : string) : nresult (string * Z) :=
  match objectIDWith "agent_" value with
  | Some raw => Ok (raw, 1)
  | None =>
      match objectIDWith "cap_" value with
      | Some raw => Ok (raw, 2)
      | None => Err (PlainError "invalid Native object ID")
      end
  end.

Definition digestBytes (value prefix : string) (allowZero : bool) : nresult string :=
  reject (negb (HasPrefix value prefix)) "invalid digest prefix";;
  raw ← orelse (hex_DecodeString (TrimPrefix value prefix)) "invalid digest";
  reject (negb (slen raw =? 32) || negb (bool_decide (value = prefix +:+ hex_EncodeToString raw))) "invalid digest";;
  reject (negb allowZero && is_zero32 raw) "zero digest";;
  Ok raw.

Definition optionalDigest (value : string) : nresult string :=
  if bool_decide (value = ""%string) then Ok zero32 else digestBytes value "tvm-cell-sha256:" false.

(** The decoder returns the bytes before an error; a key identifier that reaches
    this function with an error is rejected by [validKeyID] or is not in the
    policy's map. *)
Fixpoint hex_prefix (s : string) : string :=
  match s with
  | String a (String b r) =>
      match hex_value a, hex_value b with
      | Some x, Some y => String (ascii_of_N (16 * x + y)) (hex_prefix r)
      | _, _ => EmptyString
      end
  | _ => EmptyString
  end.
Definition keyIDHash (value : string) : string := hex_prefix (TrimPrefix value "ed25519:").

Definition validKeyID (value : string) : bool :=
  HasPrefix value "ed25519:" && (slen value =? 8 + 64) &&
  match hex_DecodeString (TrimPrefix value "ed25519:") with
  | Some raw => bool_decide (value = "ed25519:" +:+ hex_EncodeToString raw) && (slen raw =? 32) && negb (is_zero32 raw)
  | None => false
  end.

(** ** Facts about identifiers *)

Definition raw32 (s : string) : Prop := String.length s = 32%nat.

Lemma raw32_slen s : slen s = 32 -> raw32 s.
Proof. unfold slen, raw32. lia. Qed.

Lemma hex_prefix_decode s r : hex_DecodeString s = Some r -> hex_prefix s = r.
Proof.
  revert r. induction s as [s IH] using (induction_ltof1 _ String.length). unfold ltof in IH.
  destruct s as [|a [|b s]]; intros r H; cbn in *; [by simplify_eq|done|].
  destruct (hex_value a), (hex_value b), (hex_DecodeString s) as [t|] eqn:E; simplify_eq.
  by rewrite (IH s ltac:(cbn; lia) t E).
Qed.

Lemma digestBytes_no_panic value prefix z : no_panic (digestBytes value prefix z).
Proof. unfold digestBytes. by repeat total_step. Qed.
Lemma objectID_no_panic value : no_panic (objectID value).
Proof. unfold objectID. by repeat case_match. Qed.
#[export] Hint Resolve digestBytes_no_panic objectID_no_panic : no_panic.

Lemma digestBytes_Ok value prefix z raw :
  digestBytes value prefix z = Ok raw <->
  value = prefix +:+ hex_EncodeToString raw /\ raw32 raw /\ (z = false -> raw <> zero32).
Proof.
  unfold digestBytes, reject, orelse. split.
  - intros H. inv_ok. repeat match goal with H : _ || _ = false |- _ => apply orb_false_iff in H as [? ?]
      | H : negb _ = false |- _ => apply negb_false_iff in H end.
    rewrite bool_decide_eq_true in *. split; [done|]. split; [apply raw32_slen; lia|]. intros ->. cbn in *.
    by match goal with H : is_zero32 _ = false |- _ => apply bool_decide_eq_false in H end.
  - intros (-> & Hl & Hz). unfold HasPrefix. rewrite prefix_app. cbn. rewrite TrimPrefix_app, hex_decode_encode. cbn.
    unfold slen. rewrite Hl, bool_decide_true by done. cbn. destruct z; cbn; [done|].
    unfold is_zero32. by rewrite bool_decide_false by auto.
Qed.

Lemma objectIDWith_Some prefix value raw :
  objectIDWith prefix value = Some raw <-> value = prefix +:+ hex_EncodeToString raw /\ raw32 raw /\ raw <> zero32.
Proof.
  unfold objectIDWith. split.
  - destruct (HasPrefix value prefix && _) eqn:Hp; [|done]. intros H. apply bind_Some in H as (r & Hr & H).
    destruct (bool_decide _ && _) eqn:Hb; [|done]. injection H as ->. apply andb_true_iff in Hb as [Hv Hz].
    apply bool_decide_eq_true in Hv. apply negb_true_iff, bool_decide_eq_false in Hz. split; [done|]. split; [|done].
    apply andb_true_iff in Hp as [_ Hl]. apply Z.eqb_eq in Hl. rewrite Hv, slen_app, hex_encode_length in Hl.
    apply raw32_slen. lia.
  - intros (-> & Hl & Hz). unfold HasPrefix. rewrite prefix_app, slen_app, hex_encode_length. assert (slen raw = 32) as -> by (unfold slen; by rewrite Hl).
    rewrite Z.eqb_refl. cbn [andb]. rewrite drop_bytes_app, hex_decode_encode. cbn.
    rewrite bool_decide_true by done. unfold is_zero32. by rewrite bool_decide_false.
Qed.

Definition object_prefix (kind : Z) : string := if kind =? 1 then "agent_" else "cap_".

Lemma objectID_Ok value raw kind :
  objectID value = Ok (raw, kind) <->
  (kind = 1 \/ kind = 2) /\ value = object_prefix kind +:+ hex_EncodeToString raw /\ raw32 raw /\ raw <> zero32.
Proof.
  unfold objectID. destruct (objectIDWith "agent_" value) as [r|] eqn:Ha.
  - apply objectIDWith_Some in Ha as (-> & Hl & Hz). split; [intros; simplify_eq; by auto|].
    intros ([-> | ->] & Hv & _ & _); [|done].
    unfold object_prefix in Hv. cbn [Z.eqb Pos.eqb] in Hv. apply app_inj_len in Hv as [_ Hv]; [|done].
    apply hex_encode_inj in Hv. by subst.
  - destruct (objectIDWith "cap_" value) as [r|] eqn:Hc.
    + apply objectIDWith_Some in Hc as (-> & Hl & Hz). split; [intros; simplify_eq; by auto|].
      intros ([-> | ->] & Hv & _ & _); [done|].
      unfold object_prefix in Hv. cbn [Z.eqb Pos.eqb] in Hv. apply app_inj_len in Hv as [_ Hv]; [|done].
      apply hex_encode_inj in Hv. by subst.
    + split; [done|]. intros ([-> | ->] & Hv & Hl & Hz); exfalso.
      * assert (objectIDWith "agent_" value = Some raw) by (by apply objectIDWith_Some). congruence.
      * assert (objectIDWith "cap_" value = Some raw) by (by apply objectIDWith_Some). congruence.
Qed.

Lemma validKeyID_true value :
  validKeyID value = true <->
  value = "ed25519:" +:+ hex_EncodeToString (keyIDHash value) /\ raw32 (keyIDHash value) /\ keyIDHash value <> zero32.
Proof.
  unfold validKeyID, keyIDHash. split.
  - destruct (hex_DecodeString _) as [raw|] eqn:Hd; [|by rewrite andb_false_r].
    rewrite (hex_prefix_decode _ _ Hd). intros H. apply andb_true_iff in H as [_ H].
    apply andb_true_iff in H as [H Hz]. apply andb_true_iff in H as [Hv Hl].
    apply bool_decide_eq_true in Hv. apply negb_true_iff, bool_decide_eq_false in Hz. apply Z.eqb_eq in Hl.
    split; [done|]. split; [by apply raw32_slen|done].
  - set (raw := hex_prefix _). intros (Hv & Hl & Hz). clearbody raw. subst value. unfold HasPrefix.
    rewrite prefix_app, TrimPrefix_app, hex_decode_encode, slen_app, hex_encode_length. unfold slen at 2 3. rewrite Hl.
    rewrite bool_decide_true by done. unfold is_zero32. by rewrite bool_decide_false.
Qed.

Lemma keyIDHash_inj a b : validKeyID a = true -> validKeyID b = true -> keyIDHash a = keyIDHash b -> a = b.
Proof. intros (Ha & _)%validKeyID_true (Hb & _)%validKeyID_true H. rewrite Ha, Hb. by rewrite H. Qed.

(** ** Cells *)

Section Cells.
Context `{L : CellLib}.

Definition endSlice (s : Slice) : nresult unit :=
  reject (negb (BitsLeft s =? 0) || negb (RefsNum s =? 0)) "non-canonical Native Cell has trailing data".

Definition stringCell (value : string) : nresult Cell := end_cell (begin_cell |>> MustStoreBinarySnake value).

(** The loop of [decodeProtocolText]: every cell but the last holds 127 bytes, so
    the limit bounds the number of rounds ([decodeText_fuel]). *)
Fixpoint decodeText (fuel : nat) (current : Cell) (out : string) (limit : Z) : nresult string :=
  match fuel with
  | O => Panic "out of fuel"
  | S fuel =>
      s ← orelse (BeginParse current) "invalid cell";
      let bits := BitsLeft s in
      let refs := RefsNum s in
      reject (negb (bits mod 8 =? 0) || (1 <? refs) || (limit <? slen out + bits / 8) ||
              ((refs =? 1) && negb (bits =? 1016))) "non-canonical protocol text";;
      part ← orelse (LoadSlice bits s) "invalid slice";
      reject (negb (all_bytes printable part.1)) "invalid protocol text character";;
      let out := out +:+ part.1 in
      if refs =? 0 then
        endSlice part.2;;
        reject (slen out =? 0) "empty protocol text";;
        Ok out
      else
        next ← orelse (LoadRefCell part.2) "missing reference";
        endSlice next.2;;
        decodeText fuel next.1 out limit
  end.

Definition text_fuel (limit : Z) : nat := S (S (Z.to_nat (limit / 127))).

Definition decodeProtocolText (value : Cell) (limit : Z) : nresult string :=
  reject (limit <=? 0) "missing protocol text";;
  decodeText (text_fuel limit) value "" limit.

(** The network a commitment is made on. *)
Record NetworkDomain := { NetworkId : string; GenesisRootHash : string; GenesisFileHash : string }.

Definition domainCell (network : option NetworkDomain) : nresult Cell :=
  match network with
  | None => Err (PlainError "invalid Native network")
  | Some network =>
      reject (negb (validProtocolText (NetworkId network) 64)) "invalid Native network";;
      root ← digestBytes (GenesisRootHash network) "sha256:" false;
      file ← digestBytes (GenesisFileHash network) "sha256:" false;
      let networkHash := Sum256 (NetworkId network) in
      end_cell (begin_cell |>> MustStoreSlice root 256 |>> MustStoreSlice file 256 |>> MustStoreSlice networkHash 256)
  end.

(** ** Loading what was stored *)

Context {LL : CellLaws L}.

Lemma endSlice_empty s : s_bits s = [] -> s_refs s = [] -> endSlice s = Ok tt.
Proof using LL. intros Hb Hr. unfold endSlice. by rewrite bits_left, refs_num, Hb, Hr. Qed.

Lemma validProtocolText_true t limit :
  validProtocolText t limit = true <-> t <> ""%string /\ slen t <= limit /\ all_bytes printable t = true.
Proof. unfold validProtocolText. rewrite !andb_true_iff, negb_true_iff, bool_decide_eq_false, Z.leb_le. tauto. Qed.

(** Splitting a text at 127 bytes. *)
Lemma text_split t : (127 < String.length t)%nat -> exists a b, t = a +:+ b /\ String.length a = 127%nat /\ b <> ""%string.
Proof.
  intros H. exists (take_bytes 127 t), (drop_bytes 127 t).
  assert (forall n s, take_bytes n s +:+ drop_bytes n s = s) as Hsplit.
  { induction n as [|n IH]; intros [|c s]; try done. cbn [take_bytes drop_bytes]. by rewrite app_cons_str, IH. }
  rewrite Hsplit. split; [done|]. pose proof (drop_bytes_length 127 t) as Hd.
  pose proof (f_equal String.length (Hsplit 127%nat t)) as Hs. rewrite length_app_str in Hs.
  split; [lia|]. intros E. rewrite E in Hd. cbn in Hd. lia.
Qed.

Lemma stringCell_short t : (String.length t <= 127)%nat -> exists c, stringCell t = Ok c /\ holds c (bytes_bits t) [].
Proof using LL.
  intros Ht. unfold stringCell, begin_cell, MustStoreBinarySnake. destruct begin_empty as [Hb Hr].
  destruct (store_snake_short t BeginCell Hb Hr Ht) as (b & Hs & Hbits & Hrefs). cbn. rewrite Hs. exists (EndCell b).
  split; [done|]. destruct (parse_end b) as (s & ? & ? & ?). exists s. split_and!; congruence.
Qed.

Lemma stringCell_long a t : String.length a = 127%nat -> t <> ""%string ->
  exists c next, stringCell (a +:+ t) = Ok c /\ stringCell t = Ok next /\ holds c (bytes_bits a) [next].
Proof using LL.
  intros Ha Ht. unfold stringCell, begin_cell, MustStoreBinarySnake. destruct begin_empty as [Hb Hr].
  destruct (store_snake_long a t BeginCell Hb Hr Ha Ht) as (b & bt & Hs & Hbits & Hst & Hrefs). cbn. rewrite Hs, Hst.
  exists (EndCell b), (EndCell bt). split; [done|]. split; [done|].
  destruct (parse_end b) as (s & ? & ? & ?). exists s. split_and!; congruence.
Qed.

(** One round of the decoder on a cell holding the bytes of [a]. *)
Lemma decodeText_round fuel c a refs out limit :
  holds c (bytes_bits a) refs -> all_bytes printable a = true -> slen out + slen a <= limit ->
  (refs = [] \/ (exists next, refs = [next] /\ String.length a = 127%nat)) ->
  decodeText (S fuel) c out limit =
    match refs with
    | next :: _ => decodeText fuel next (out +:+ a) limit
    | [] => reject (slen (out +:+ a) =? 0) "empty protocol text";; Ok (out +:+ a)
    end.
Proof using LL.
  intros (s & Hp & Hbits & Hrefs) Hprint Hlim Hshape. cbn [decodeText]. rewrite Hp. cbn.
  rewrite bits_left, refs_num, Hbits, Hrefs, length_bytes_bits.
  replace (Z.of_nat (8 * String.length a) mod 8 =? 0) with true by dlia.
  replace (Z.of_nat (8 * String.length a) / 8) with (slen a) by (unfold slen; dlia).
  replace (limit <? slen out + slen a) with false by lia.
  destruct (load_slice _ s a [] eq_refl ltac:(by rewrite app_nil_r)) as (s1 & Hs & Hb1 & Hr1).
  destruct Hshape as [->|(next & -> & Ha)]; cbn -[Z.of_nat "*"%nat]; rewrite ?Ha; cbn -[Z.of_nat "*"%nat].
  - rewrite Hs. cbn. rewrite Hprint. cbn. rewrite endSlice_empty by congruence. done.
  - rewrite Ha in Hs. rewrite Hs. cbn -[decodeText]. rewrite Hprint. cbn -[decodeText].
    destruct (load_ref s1 next []) as (s2 & Hl & Hb2 & Hr2); [congruence|]. rewrite Hl. cbn -[decodeText].
    rewrite (endSlice_empty s2) by congruence. done.
Qed.

Lemma text_roundtrip_from fuel t out limit :
  t <> ""%string -> all_bytes printable t = true -> slen out + slen t <= limit -> (String.length t < 127 * fuel)%nat ->
  exists c, stringCell t = Ok c /\ decodeText fuel c out limit = Ok (out +:+ t).
Proof using LL.
  revert t out. induction fuel as [|fuel IH]; intros t out Hne Hprint Hlim Hfuel; [lia|].
  destruct (decide (String.length t <= 127)%nat) as [Hs|Hs].
  - destruct (stringCell_short t Hs) as (c & Hc & Hh). exists c. split; [done|].
    rewrite (decodeText_round _ _ t []) by (auto; done). rewrite slen_app.
    assert (0 < slen t) by (destruct t; [done|unfold slen; cbn; lia]). pose proof (slen_nonneg out).
    unfold reject. replace (_ =? 0) with false by lia. done.
  - destruct (text_split t) as (a & b & -> & Ha & Hb); [lia|]. rewrite all_bytes_app in Hprint.
    apply andb_true_iff in Hprint as [Hpa Hpb]. rewrite slen_app in Hlim. rewrite length_app_str in *.
    pose proof (slen_nonneg b). destruct (stringCell_long a b Ha Hb) as (c & next & Hc & Hn & Hh). exists c. split; [done|].
    rewrite (decodeText_round _ _ a [next]) by (eauto; lia).
    destruct (IH b (out +:+ a)) as (c' & Hc' & Hd); [done|done|rewrite slen_app; lia|lia|].
    rewrite Hn in Hc'. injection Hc' as <-. by rewrite Hd, app_assoc_str.
Qed.

(** A protocol text within its limit is stored in cells, and decoding them gives it back. *)
Lemma text_roundtrip t limit : validProtocolText t limit = true ->
  exists c, stringCell t = Ok c /\ decodeProtocolText c limit = Ok t.
Proof using LL.
  intros (Hne & Hl & Hp)%validProtocolText_true.
  assert (0 < slen t) by (destruct t; [done|unfold slen; cbn; lia]).
  unfold decodeProtocolText, reject. replace (limit <=? 0) with false by lia. cbn -[decodeText].
  destruct (text_roundtrip_from (text_fuel limit) t "" limit) as (c & Hc & Hd); try done.
  { unfold text_fuel, slen in *. dlia. }
  by exists c.
Qed.

(** The fuel suffices for every cell: the decoder returns a text or an error. *)
Lemma decodeText_fuel fuel c out limit :
  (0 < fuel)%nat -> limit - slen out < 127 * (Z.of_nat fuel - 1) -> no_panic (decodeText fuel c out limit).
Proof using LL.
  revert c out. induction fuel as [|fuel IH]; intros c out H0 Hf; [lia|]. cbn [decodeText].
  destruct (BeginParse c) as [s|]; [|done]. cbn -[Z.mul Z.div Z.modulo]. unfold reject, fail_if.
  match goal with |- context[if ?b then Err _ else Ok ()] => destruct b eqn:Hg end; [done|].
  rewrite !orb_false_iff in Hg. destruct Hg as [[[Hm H1] Hl] Hr]. apply negb_false_iff in Hm.
  cbn -[Z.mul Z.div Z.modulo]. destruct (LoadSlice (BitsLeft s) s) as [[part s1]|] eqn:Hs; [|done]. cbn.
  destruct (all_bytes printable part); [|done]. cbn.
  assert (forall s, no_panic (endSlice s)) as Hend by (intros; apply reject_no_panic).
  destruct (RefsNum s =? 0) eqn:E0.
  { specialize (Hend s1). destruct (endSlice s1) as [[]| |]; cbn; [|done..]. by destruct (slen _ =? 0). }
  destruct (LoadRefCell s1) as [[next s2]|]; [|done]. cbn.
  specialize (Hend s2). destruct (endSlice s2) as [[]| |]; cbn; [|done..].
  pose proof (bits_left s). pose proof (refs_num s). replace (RefsNum s =? 1) with true in Hr by lia. cbn in Hr.
  apply negb_false_iff in Hr. apply load_slice_length in Hs; [|lia|lia].
  destruct fuel as [|fuel]; [lia|]. apply IH; [lia|]. rewrite slen_app. lia.
Qed.

Lemma decodeProtocolText_no_panic c limit : no_panic (decodeProtocolText c limit).
Proof using LL.
  unfold decodeProtocolText, reject, fail_if. destruct (limit <=? 0) eqn:E; [done|]. cbn -[decodeText text_fuel].
  apply decodeText_fuel; unfold text_fuel; [lia|]. replace (slen "") with 0 by done. dlia.
Qed.

Lemma stringCell_total t limit : validProtocolText t limit = true -> no_panic (stringCell t).
Proof using LL. intros (c & -> & _)%text_roundtrip. done. Qed.

Lemma endSlice_no_panic s : no_panic (endSlice s).
Proof using. apply reject_no_panic. Qed.
End Cells.
#[export] Hint Resolve decodeProtocolText_no_panic endSlice_no_panic : no_panic.
