(* ===== verification/Policy.v ===== *)
(** * Controller policies and signatures (src/pkg/nativecore/action.go, state.go)

    A Native object is controlled by a policy: weighted Ed25519 keys with
    purposes, and thresholds.  This file models the validation of a policy, the
    verification of the signatures on an action, the proof of possession that
    installs a policy, and the cells a policy and a signature set are stored in. *)

From S2P Require Import Prelude Sha256 CellLib Native.

(** ** Data *)

Definition PurposeAgentControl : Z := 1.
Definition PurposeDelegation : Z := 2.
Definition PurposeRecovery : Z := 4.
Definition PurposeCapabilityControl : Z := 8.
Definition knownPurposeMask : Z := 15.

Definition MaxControllers : Z := 64.
Definition MaxSignatures : Z := 64.
Definition MaxControllerWeight : Z := 1000000.
Definition MaxRecoveryTimelockSeconds : Z := 365 * 24 * 60 * 60.
Definition policyMagic : Z := 0x4e565031.

Record ControllerV1 := {
  KeyId : string;
  Ed25519PublicKey : string;
  Weight : Z;
  PurposeMask : Z;
  Recovery : bool }.

(** A slice of pointers: an element may be nil. *)
Record ControllerPolicyV1 := {
  Threshold : Z;
  RecoveryThreshold : Z;
  RecoveryTimelockSeconds : Z;
  Controllers : list (option ControllerV1) }.

Record SignatureV1 := { SignatureKeyId : string; Ed25519Signature : string }.

(** Go's [crypto/ed25519]. *)
Class Ed25519 := { Verify : string -> string -> string -> bool }.

(** ** validatePolicy *)

Record PolicyTotals := {
  pt_controllers : gmap string ControllerV1;
  pt_publicKeys : gset string;
  pt_recovery : Z;
  pt_agent : Z;
  pt_delegation : Z;
  pt_capability : Z }.

Definition has_purpose (c : ControllerV1) (purpose : Z) : bool := negb (Z.land (PurposeMask c) purpose =? 0).

Definition addWeight (total : Z) (c : ControllerV1) (counts : bool) : Z :=
  if counts then wrap64 (total + Weight c) else total.

Definition validController (c : ControllerV1) : bool :=
  validKeyID (KeyId c) && (slen (Ed25519PublicKey c) =? 32) &&
  bool_decide (keyIDHash (KeyId c) = Ed25519PublicKey c) && negb (is_zero32 (Ed25519PublicKey c)) &&
  negb (Weight c =? 0) && (Weight c <=? MaxControllerWeight) && negb (PurposeMask c =? 0) &&
  (Z.ldiff (PurposeMask c) knownPurposeMask =? 0).

Definition policyStep (t : PolicyTotals) (controller : option ControllerV1) : nresult PolicyTotals :=
  match controller with
  | None => Err (PlainError "Native controllers must be valid")
  | Some c =>
      reject (negb (validController c)) "Native controllers must be valid";;
      reject (bool_decide (is_Some (pt_controllers t !! KeyId c))) "duplicate Native controller key ID";;
      reject (bool_decide (Ed25519PublicKey c ∈ pt_publicKeys t)) "duplicate Native controller public key";;
      reject (negb (Bool.eqb (Recovery c) (has_purpose c PurposeRecovery)))
        "Native controller must declare recovery purpose consistently";;
      Ok {| pt_controllers := <[KeyId c := c]> (pt_controllers t);
            pt_publicKeys := {[Ed25519PublicKey c]} ∪ pt_publicKeys t;
            pt_recovery := addWeight (pt_recovery t) c (Recovery c && has_purpose c PurposeRecovery);
            pt_agent := addWeight (pt_agent t) c (has_purpose c PurposeAgentControl);
            pt_delegation := addWeight (pt_delegation t) c (has_purpose c PurposeDelegation);
            pt_capability := addWeight (pt_capability t) c (has_purpose c PurposeCapabilityControl) |}
  end.

Definition newPolicyTotals : PolicyTotals :=
  {| pt_controllers := ∅; pt_publicKeys := ∅; pt_recovery := 0; pt_agent := 0; pt_delegation := 0;
     pt_capability := 0 |}.

Definition policyTotals (policy : ControllerPolicyV1) : nresult PolicyTotals :=
  foldM policyStep newPolicyTotals (Controllers policy).

Definition validatePolicy (policy : option ControllerPolicyV1) : nresult (gmap string ControllerV1) :=
  match policy with
  | None => Err (PlainError "invalid Native controller policy")
  | Some p =>
      reject ((Threshold p =? 0) || (RecoveryThreshold p =? 0) || (Z.of_nat (length (Controllers p)) =? 0) ||
              (MaxControllers <? Z.of_nat (length (Controllers p)))) "invalid Native controller policy";;
      t ← policyTotals p;
      reject ((pt_agent t <? Threshold p) || (pt_delegation t <? Threshold p) || (pt_capability t <? Threshold p))
        "Native policy threshold is unreachable for a required purpose";;
      reject (pt_recovery t <? RecoveryThreshold p) "Native policy threshold is unattainable";;
      reject (MaxRecoveryTimelockSeconds <? RecoveryTimelockSeconds p) "Native recovery timelock exceeds bound";;
      Ok (pt_controllers t)
  end.

(** ** Signatures *)

Section Signatures.
Context `{Ed25519}.

Definition GetKeyId (s : option SignatureV1) : string :=
  match s with Some s => SignatureKeyId s | None => "" end.

(** One signature of the loop: the weight so far and the key before. *)
Definition verifyStep (controllers : gmap string ControllerV1) (requiredPurpose : Z) (recovery : bool)
    (actionHash : string) (acc : Z * option string) (signature : option SignatureV1) : nresult (Z * option string) :=
  let keyHash := keyIDHash (GetKeyId signature) in
  match signature with
  | None => Err (nativeError ErrDuplicateSignature "Native signatures must be complete and strictly sorted")
  | Some s =>
      fail_if (negb (validKeyID (SignatureKeyId s)) || negb (slen (Ed25519Signature s) =? 64) ||
               match acc.2 with Some previous => negb (bool_decide (bytes_lt previous keyHash)) | None => false end)
        (nativeError ErrDuplicateSignature "Native signatures must be complete and strictly sorted");;
      let unauthorized := nativeError ErrBadSignature "Native signature is not authorized for the action" in
      c ← opt_err (controllers !! SignatureKeyId s) unauthorized;
      fail_if (negb (has_purpose c requiredPurpose) || (recovery && negb (Recovery c))) unauthorized;;
      fail_if (negb (Verify (Ed25519PublicKey c) actionHash (Ed25519Signature s)))
        (nativeError ErrBadSignature "invalid Native Ed25519 signature");;
      Ok (wrap64 (acc.1 + Weight c), Some keyHash)
  end.

Definition policyThreshold (policy : option ControllerPolicyV1) (recovery : bool) : Z :=
  match policy with Some p => if recovery then RecoveryThreshold p else Threshold p | None => 0 end.

Definition VerifySignatures (policy : option ControllerPolicyV1) (signatures : list (option SignatureV1))
    (requiredPurpose : Z) (recovery : bool) (actionHash : string) : nresult unit :=
  controllers ← wrapNativeError ErrBadPolicy "invalid Native signature policy" (validatePolicy policy);
  fail_if ((Z.of_nat (length signatures) =? 0) || (MaxSignatures <? Z.of_nat (length signatures)) ||
           negb (slen actionHash =? 32)) (nativeError ErrBadSignature "invalid Native signature set");;
  acc ← foldM (verifyStep controllers requiredPurpose recovery actionHash) (0, None) signatures;
  fail_if (acc.1 <? policyThreshold policy recovery) (nativeError ErrThreshold "Native signature threshold not met").

(** Signatures in the order of their keys; [nil] sorts as the empty key. *)
Definition signature_le (a b : option SignatureV1) : Prop := bytes_le (keyIDHash (GetKeyId a)) (keyIDHash (GetKeyId b)).
#[global] Instance signature_le_dec : RelDecision signature_le.
Proof using. intros a b. unfold signature_le. apply _. Defined.

Definition possessionStep (controllers : gmap string ControllerV1) (actionHash : string) (previous : option string)
    (signature : option SignatureV1) : nresult (option string) :=
  match signature with
  | None => Err (nativeError ErrBadSignature "invalid Native policy possession signature")
  | Some s =>
      fail_if (negb (slen (Ed25519Signature s) =? 64))
        (nativeError ErrBadSignature "invalid Native policy possession signature");;
      let bad := nativeError ErrBadSignature "invalid Native policy possession proof" in
      c ← opt_err (controllers !! SignatureKeyId s) bad;
      fail_if (match previous with Some p => bool_decide (p = keyIDHash (SignatureKeyId s)) | None => false end ||
               negb (Verify (Ed25519PublicKey c) actionHash (Ed25519Signature s))) bad;;
      Ok (Some (keyIDHash (SignatureKeyId s)))
  end.

Definition VerifyPolicyPossession (policy : option ControllerPolicyV1) (signatures : list (option SignatureV1))
    (actionHash : string) : nresult unit :=
  controllers ← wrapNativeError ErrBadPolicy "invalid Native installation policy" (validatePolicy policy);
  fail_if (negb (Z.of_nat (length signatures) =? Z.of_nat (size controllers)) || negb (slen actionHash =? 32))
    (nativeError ErrBadSignature "Native policy installation requires every controller signature");;
  foldM (possessionStep controllers actionHash) None (merge_sort signature_le signatures);;
  Ok tt.
End Signatures.

(** ** What a valid policy is *)

Definition weight_of (p : ControllerV1 -> bool) (cs : list ControllerV1) : Z :=
  zsum ((fun c => if p c then Weight c else 0) <$> cs).

Definition recovers (c : ControllerV1) : bool := Recovery c && has_purpose c PurposeRecovery.

(** The controllers [cs] seen so far are the map's values, under their keys. *)
Record policy_seen (t : PolicyTotals) (cs : list ControllerV1) : Prop := {
  seen_map : forall k c, pt_controllers t !! k = Some c <-> c ∈ cs /\ KeyId c = k;
  seen_keys : forall k, k ∈ pt_publicKeys t <-> k ∈ Ed25519PublicKey <$> cs;
  seen_nodup : NoDup (KeyId <$> cs);
  seen_valid : Forall (fun c => validController c = true /\ Recovery c = has_purpose c PurposeRecovery) cs;
  seen_recovery : pt_recovery t = weight_of recovers cs;
  seen_agent : pt_agent t = weight_of (fun c => has_purpose c PurposeAgentControl) cs;
  seen_delegation : pt_delegation t = weight_of (fun c => has_purpose c PurposeDelegation) cs;
  seen_capability : pt_capability t = weight_of (fun c => has_purpose c PurposeCapabilityControl) cs }.

Lemma validController_weight c : validController c = true -> 0 <= PurposeMask c /\ Weight c <> 0 /\ Weight c <= MaxControllerWeight.
Proof.
  unfold validController. rewrite !andb_true_iff, !negb_true_iff, Z.leb_le, !Z.eqb_neq, !Z.eqb_eq. intros H.
  destruct_and!. split; [|done]. destruct (decide (0 <= PurposeMask c)); [done|].
  exfalso. assert (Z.ldiff (PurposeMask c) knownPurposeMask < 0) by (apply Z.ldiff_neg; unfold knownPurposeMask; lia). lia.
Qed.

(** A decoded [uint32] is not negative. *)
Definition controller_u32 (c : ControllerV1) : Prop := 0 <= Weight c < two32 /\ 0 <= PurposeMask c < two32.

Lemma weight_of_snoc p cs c : weight_of p (cs ++ [c]) = weight_of p cs + if p c then Weight c else 0.
Proof. unfold weight_of. rewrite fmap_app, zsum_app. cbn. lia. Qed.

Lemma weight_of_bounds p cs : Forall (fun c => 0 <= Weight c <= MaxControllerWeight) cs ->
  0 <= weight_of p cs <= MaxControllerWeight * Z.of_nat (length cs).
Proof.
  unfold weight_of. induction 1 as [|c cs Hc _ IH]; [done|]. rewrite fmap_cons, zsum_cons. cbn [length].
  destruct (p c); unfold MaxControllerWeight in *; lia.
Qed.

Lemma addWeight_snoc p cs c : Forall (fun c => 0 <= Weight c <= MaxControllerWeight) (cs ++ [c]) ->
  (length cs < 64)%nat -> addWeight (weight_of p cs) c (p c) = weight_of p (cs ++ [c]).
Proof.
  intros H Hl. apply Forall_app in H as [H Hc]. rewrite Forall_singleton in Hc. apply (weight_of_bounds p) in H.
  rewrite weight_of_snoc. unfold addWeight. destruct (p c); [|lia]. apply wrap64_small.
  assert (two64 = 18446744073709551616) by reflexivity. unfold u64, MaxControllerWeight in *. lia.
Qed.

Lemma policyStep_seen t cs c t' :
  policy_seen t cs -> Forall (fun c => 0 <= Weight c) (cs ++ [c]) -> (length cs < 64)%nat ->
  policyStep t (Some c) = Ok t' -> policy_seen t' (cs ++ [c]).
Proof.
  intros [Hm Hk Hn Hv Hr Ha Hd Hc] Hu Hl H. unfold policyStep, reject in H. inv_ok.
  repeat match goal with H : negb _ = false |- _ => apply negb_false_iff in H
    | H : bool_decide _ = false |- _ => apply bool_decide_eq_false in H end.
  assert (Forall (fun c => 0 <= Weight c <= MaxControllerWeight) (cs ++ [c])) as Hw.
  { apply Forall_forall. intros d Hd'. rewrite Forall_forall in Hu, Hv. split; [by apply Hu|].
    rewrite elem_of_app, list_elem_of_singleton in Hd'.
    destruct Hd' as [Hd' | ->]; [destruct (Hv d Hd') as [? _]|]; by apply validController_weight. }
  assert (KeyId c ∉ KeyId <$> cs) as Hfresh.
  { intros (d & E & Hd')%list_elem_of_fmap. match goal with H : ~ is_Some _ |- _ => apply H end.
    exists d. by apply Hm. }
  split; cbn.
  - intros k d. rewrite elem_of_app, list_elem_of_singleton. destruct (decide (k = KeyId c)) as [->|Hne].
    + rewrite lookup_insert_eq. split; [intros [= ->]; auto|]. intros [[Hx| ->] E]; [|done].
      exfalso. apply Hfresh. rewrite <- E. by apply list_elem_of_fmap_2.
    + rewrite lookup_insert_ne by done. rewrite Hm. naive_solver.
  - intros k. rewrite elem_of_union, elem_of_singleton, fmap_app, elem_of_app, Hk. cbn.
    rewrite list_elem_of_singleton. tauto.
  - rewrite fmap_app. apply NoDup_app. split_and!; [done| |apply NoDup_singleton].
    intros k Hk1 Hk2. apply list_elem_of_singleton in Hk2 as ->. done.
  - apply Forall_app. split; [done|]. constructor; [|done]. split; [done|]. by apply eqb_prop.
  - rewrite Hr. by apply (addWeight_snoc recovers).
  - rewrite Ha. by apply (addWeight_snoc (fun c => has_purpose c PurposeAgentControl)).
  - rewrite Hd. by apply (addWeight_snoc (fun c => has_purpose c PurposeDelegation)).
  - rewrite Hc. by apply (addWeight_snoc (fun c => has_purpose c PurposeCapabilityControl)).
Qed.

Lemma policyTotals_seen l t cs t' :
  policy_seen t cs -> Forall (fun o => forall c, o = Some c -> 0 <= Weight c) l -> Forall (fun c => 0 <= Weight c) cs ->
  (length cs + length l <= 64)%nat -> foldM policyStep t l = Ok t' ->
  exists cs', l = Some <$> cs' /\ policy_seen t' (cs ++ cs').
Proof.
  revert t cs. induction l as [|o l IH]; intros t cs Hs Hl Hcs Hlen H; cbn in H.
  - inv_ok. exists []. by rewrite app_nil_r.
  - apply bind_Ok in H as (t1 & H1 & H2). destruct o as [c|]; [|done]. cbn in Hlen.
    apply Forall_cons in Hl as [Hc Hl]. specialize (Hc c eq_refl).
    assert (Forall (fun c => 0 <= Weight c) (cs ++ [c])) by (apply Forall_app; auto).
    destruct (IH t1 (cs ++ [c])) as (cs' & -> & Hs'); [|done|done| |done|].
    + eapply policyStep_seen; [done|done|lia|done].
    + rewrite length_app. cbn. lia.
    + exists (c :: cs'). by rewrite <- app_assoc in Hs'.
Qed.

Definition policy_u32 (p : ControllerPolicyV1) : Prop :=
  0 <= Threshold p < two32 /\ 0 <= RecoveryThreshold p < two32 /\ u64 (RecoveryTimelockSeconds p) /\
  Forall (fun o => forall c, o = Some c -> controller_u32 c) (Controllers p).

(** A policy that passes validation: distinct controllers, each purpose able to
    reach the threshold. *)
Record policy_ok (p : ControllerPolicyV1) (m : gmap string ControllerV1) (cs : list ControllerV1) : Prop := {
  ok_controllers : Controllers p = Some <$> cs;
  ok_count : (0 < length cs <= 64)%nat;
  ok_map : forall k c, m !! k = Some c <-> c ∈ cs /\ KeyId c = k;
  ok_nodup : NoDup (KeyId <$> cs);
  ok_valid : Forall (fun c => validController c = true /\ Recovery c = has_purpose c PurposeRecovery) cs;
  ok_threshold : 0 < Threshold p /\ 0 < RecoveryThreshold p;
  ok_timelock : RecoveryTimelockSeconds p <= MaxRecoveryTimelockSeconds;
  ok_recovery : RecoveryThreshold p <= weight_of recovers cs;
  ok_purposes : forall purpose, purpose ∈ [PurposeAgentControl; PurposeDelegation; PurposeCapabilityControl] ->
    Threshold p <= weight_of (fun c => has_purpose c purpose) cs }.

Lemma newPolicyTotals_seen : policy_seen newPolicyTotals [].
Proof.
  split; cbn; try done.
  - intros k c. rewrite lookup_empty, elem_of_nil. naive_solver.
  - intros k. set_solver.
  - constructor.
Qed.

Lemma validatePolicy_ok p m : policy_u32 p -> validatePolicy (Some p) = Ok m -> exists cs, policy_ok p m cs.
Proof.
  intros (Ht & Hrt & _ & Hc) H. unfold validatePolicy, reject in H. inv_ok.
  repeat match goal with H : _ || _ = false |- _ => apply orb_false_iff in H as [? ?] end.
  match goal with H : policyTotals p = Ok ?x |- _ => rename x into t; rename H into Htot end.
  rewrite ?Z.ltb_ge, ?Z.eqb_neq in *. unfold MaxControllers in *.
  assert (Forall (fun o => forall c, o = Some c -> 0 <= Weight c) (Controllers p)) as Hw.
  { eapply Forall_impl; [exact Hc|]. intros o Ho c ->. by destruct (Ho c eq_refl) as [[? _] _]. }
  destruct (policyTotals_seen (Controllers p) newPolicyTotals [] t newPolicyTotals_seen Hw (Forall_nil_2 _))
    as (cs & Hcs & [Hm _ Hn Hv Hr Ha Hd Hcap]); [cbn; lia|done|].
  rewrite app_nil_l in *. exists cs. assert (length (Controllers p) = length cs) by (by rewrite Hcs, length_fmap).
  split; try done; try lia; try congruence.
  intros purpose. rewrite !elem_of_cons, elem_of_nil. intros [->|[->|[->|[]]]]; congruence.
Qed.

(** ** The signatures on an action *)

Section SignatureTheorems.
Context `{Ed25519}.

(** A controller's signature the action's rules accept. *)
Record signed_by (m : gmap string ControllerV1) (purpose : Z) (recovery : bool) (h : string)
    (s : SignatureV1) (c : ControllerV1) : Prop := {
  sb_controller : m !! SignatureKeyId s = Some c;
  sb_key : validKeyID (SignatureKeyId s) = true;
  sb_length : slen (Ed25519Signature s) = 64;
  sb_purpose : has_purpose c purpose = true;
  sb_recovery : recovery = true -> Recovery c = true;
  sb_verified : Verify (Ed25519PublicKey c) h (Ed25519Signature s) = true }.

Definition below (previous : option string) (k : string) : Prop :=
  match previous with Some p => bytes_lt p k | None => True end.

Lemma verifyStep_Ok m purpose recovery h acc o acc' :
  verifyStep m purpose recovery h acc o = Ok acc' <->
  exists s c, o = Some s /\ signed_by m purpose recovery h s c /\ below acc.2 (keyIDHash (SignatureKeyId s)) /\
    acc' = (wrap64 (acc.1 + Weight c), Some (keyIDHash (SignatureKeyId s))).
Proof.
  unfold verifyStep. destruct o as [s|]; [|naive_solver]. cbn [GetKeyId]. split.
  - intros H'. inv_ok. match goal with H : m !! _ = Some ?x |- _ => rename x into c end. exists s, c.
    repeat match goal with H : _ || _ = false |- _ => apply orb_false_iff in H as [? ?]
      | H : negb _ = false |- _ => apply negb_false_iff in H end.
    split_and!; [done|split; try done; try lia| |done].
    + intros ->. by match goal with H : _ && _ = false |- _ => apply negb_false_iff in H end.
    + unfold below. destruct acc.2; [|done].
      match goal with H : negb (bool_decide _) = false |- _ => by apply negb_false_iff, bool_decide_eq_true in H end.
  - intros (s' & c & [= <-] & [Hm Hk Hl Hp Hr Hv] & Hb & ->). rewrite Hk, Hl. cbn.
    replace (match acc.2 with Some previous => _ | None => false end) with false.
    2:{ unfold below in Hb. destruct acc.2; [|done]. by rewrite bool_decide_true. }
    cbn. rewrite Hm. cbn. rewrite Hp, Hv. destruct recovery; cbn; [rewrite Hr by done|]; done.
Qed.

Definition keys_of (ss : list SignatureV1) : list string := (fun s => keyIDHash (SignatureKeyId s)) <$> ss.

(** The loop succeeds exactly on authorised signatures in increasing key order. *)
Lemma verifyLoop_Ok m purpose recovery h sigs acc acc' :
  foldM (verifyStep m purpose recovery h) acc sigs = Ok acc' ->
  0 <= acc.1 -> acc.1 + MaxControllerWeight * Z.of_nat (length sigs) < two64 ->
  (forall k c, m !! k = Some c -> 0 <= Weight c <= MaxControllerWeight) ->
  exists ss cs, sigs = Some <$> ss /\ Forall2 (signed_by m purpose recovery h) ss cs /\
    StronglySorted bytes_lt (keys_of ss) /\ Forall (below acc.2) (keys_of ss) /\
    acc'.1 = acc.1 + zsum (Weight <$> cs).
Proof.
  intros Hf H0 Hb Hw. revert acc Hf H0 Hb. induction sigs as [|o sigs IH]; intros acc Hf H0 Hb; cbn in Hf.
  - inv_ok. exists [], []. split_and!; [done|constructor|constructor|constructor|cbn; lia].
  - apply bind_Ok in Hf as (acc1 & H1 & H2). apply verifyStep_Ok in H1 as (s & c & -> & Hs & Hbl & ->).
    pose proof (Hw _ _ (sb_controller _ _ _ _ _ _ Hs)) as Hc. cbn [length fst snd] in *.
    rewrite wrap64_small in H2 by (unfold u64, MaxControllerWeight in *; lia).
    destruct (IH _ H2) as (ss & cs & -> & HF & Hsort & Hbelow & E); [cbn; lia|cbn; unfold MaxControllerWeight in *; lia|].
    exists (s :: ss), (c :: cs). cbn in E, Hbelow. split_and!; [done|by constructor| | |].
    + constructor; done.
    + constructor; [done|]. eapply Forall_impl; [exact Hbelow|]. intros k Hk. cbn in Hk.
      unfold below in *. destruct acc.2; [|done]. by etransitivity.
    + rewrite fmap_cons, zsum_cons. lia.
Qed.

Lemma verifyLoop_complete m purpose recovery h ss cs acc :
  Forall2 (signed_by m purpose recovery h) ss cs -> StronglySorted bytes_lt (keys_of ss) ->
  Forall (below acc.2) (keys_of ss) -> 0 <= acc.1 -> Forall (fun c => 0 <= Weight c <= MaxControllerWeight) cs ->
  acc.1 + MaxControllerWeight * Z.of_nat (length cs) < two64 ->
  exists k, foldM (verifyStep m purpose recovery h) acc (Some <$> ss) = Ok (acc.1 + zsum (Weight <$> cs), k).
Proof.
  intros HF. revert acc. induction HF as [|s c ss cs Hs HF IH]; intros acc Hsort Hbelow H0 Hw Hb.
  - exists acc.2. cbn. rewrite Z.add_0_r. by destruct acc.
  - change (keys_of (s :: ss)) with (keyIDHash (SignatureKeyId s) :: keys_of ss) in *. apply StronglySorted_inv in Hsort as [Hsort Hfirst].
    apply Forall_cons in Hbelow as [Hb1 Hbelow], Hw as [Hc Hw]. cbn [length] in Hb.
    assert (wrap64 (acc.1 + Weight c) = acc.1 + Weight c) as Ew
      by (apply wrap64_small; unfold u64, MaxControllerWeight in *; lia).
    destruct (IH (acc.1 + Weight c, Some (keyIDHash (SignatureKeyId s))) Hsort Hfirst) as (k & Hk);
      [cbn; lia|done|cbn; unfold MaxControllerWeight in *; lia|].
    exists k. rewrite !fmap_cons, zsum_cons. cbn [foldM]. apply bind_Ok. eexists. split; [apply verifyStep_Ok; eauto 10|].
    rewrite Ew, Hk. cbn [fst]. by rewrite Z.add_assoc.
Qed.

Lemma sorted_lt_nodup l : StronglySorted bytes_lt l -> NoDup l.
Proof.
  induction 1 as [|a l _ IH Ha]; constructor; [|done]. intros Hin. rewrite Forall_forall in Ha.
  by apply (bytes_lt_irrefl a), Ha.
Qed.

Lemma controller_key p m cs c : policy_ok p m cs -> c ∈ cs ->
  keyIDHash (KeyId c) = Ed25519PublicKey c /\ validKeyID (KeyId c) = true.
Proof.
  intros Hp Hc. pose proof (ok_valid _ _ _ Hp) as Hv. rewrite Forall_forall in Hv. destruct (Hv c Hc) as [Hc' _].
  unfold validController in Hc'. rewrite !andb_true_iff, bool_decide_eq_true in Hc'. naive_solver.
Qed.

Lemma controller_weight p m cs c : policy_u32 p -> policy_ok p m cs -> c ∈ cs -> 0 < Weight c <= MaxControllerWeight.
Proof.
  intros (_ & _ & _ & Hu) Hp Hc. pose proof (ok_valid _ _ _ Hp) as Hv. rewrite Forall_forall in Hv.
  destruct (Hv c Hc) as [(_ & ? & ?)%validController_weight _].
  assert (Some c ∈ Controllers p) as Hin by (rewrite (ok_controllers _ _ _ Hp); by apply list_elem_of_fmap_2).
  rewrite Forall_forall in Hu. destruct (Hu _ Hin c eq_refl). lia.
Qed.

Lemma signed_keys p m cs purpose recovery h ss signers :
  policy_ok p m cs -> Forall2 (signed_by m purpose recovery h) ss signers ->
  keys_of ss = Ed25519PublicKey <$> signers.
Proof.
  intros Hp HF. induction HF as [|s c ss signers Hs _ IH]; [done|]. unfold keys_of. rewrite !fmap_cons. f_equal; [|done].
  pose proof (sb_controller _ _ _ _ _ _ Hs) as Hm. apply (ok_map _ _ _ Hp) in Hm as [Hc E].
  rewrite <- E. by eapply controller_key.
Qed.

(** C10: A verified action is authorised by the policy: when [VerifySignatures]
    accepts, there are controllers of the policy with pairwise different keys,
    each holding the required purpose (and the recovery right when a recovery is
    signed), each with a valid Ed25519 signature of its key on the action's hash
    in the set, whose weights together reach the threshold.  No key is counted
    twice and no sum wraps around. *)
Theorem verify_signatures_sound p sigs purpose recovery h :
  policy_u32 p -> VerifySignatures (Some p) sigs purpose recovery h = Ok tt ->
  exists signers,
    NoDup (Ed25519PublicKey <$> signers) /\
    Forall (fun c => Some c ∈ Controllers p /\ has_purpose c purpose = true /\ (recovery = true -> Recovery c = true) /\
      exists s, Some s ∈ sigs /\ SignatureKeyId s = KeyId c /\
        Verify (Ed25519PublicKey c) h (Ed25519Signature s) = true) signers /\
    policyThreshold (Some p) recovery <= zsum (Weight <$> signers).
Proof.
  intros Hu Hv. unfold VerifySignatures in Hv. apply bind_Ok in Hv as (m & Hm & Hv).
  apply wrapNativeError_Ok in Hm. destruct (validatePolicy_ok p m Hu Hm) as (cs & Hp). clear Hm.
  apply bind_Ok in Hv as ([] & Hg & Hv). apply fail_if_Ok in Hg. apply bind_Ok in Hv as (acc & Hf & Ht).
  apply fail_if_Ok, Z.ltb_ge in Ht. apply orb_false_iff in Hg as [[_ Hlen%Z.ltb_ge]%orb_false_iff _].
  apply verifyLoop_Ok in Hf as (ss & signers & -> & HF & Hsort & _ & Hacc); cbn in *.
  - exists signers. split_and!.
    + rewrite <- (signed_keys p m cs purpose recovery h ss signers Hp HF). by apply sorted_lt_nodup.
    + apply Forall_forall. intros c Hc. apply list_elem_of_lookup in Hc as (i & Hc).
      destruct (Forall2_lookup_r _ _ _ _ _ HF Hc) as (s & Hs & [Hm _ _ Hpu Hrec Hver]).
      apply (ok_map _ _ _ Hp) in Hm as [Hc' E]. split_and!; [|done|done|].
      * rewrite (ok_controllers _ _ _ Hp). by apply list_elem_of_fmap_2.
      * exists s. split_and!; [|done|done]. apply list_elem_of_fmap_2. by eapply list_elem_of_lookup_2.
    + lia.
  - lia.
  - unfold MaxSignatures, MaxControllerWeight in *. rewrite ?length_fmap in *. assert (two64 = 18446744073709551616) by done. lia.
  - intros k c [Hc _]%(ok_map _ _ _ Hp). pose proof (controller_weight _ _ _ _ Hu Hp Hc). lia.
Qed.

(** ** A valid policy can always be satisfied *)

Definition key_le (a b : ControllerV1) : Prop := bytes_le (keyIDHash (KeyId a)) (keyIDHash (KeyId b)).
#[local] Instance key_le_dec : RelDecision key_le.
Proof using. intros a b. unfold key_le. apply _. Defined.
#[local] Instance key_le_total : Total key_le.
Proof using. intros a b. unfold key_le. apply bytes_le_total. Qed.
#[local] Instance key_le_trans : Transitive key_le.
Proof using. intros a b c. unfold key_le. apply bytes_le_trans. Qed.

(** The controllers an action needs, in the order signatures are presented in. *)
Definition signing_order (p : ControllerV1 -> bool) (cs : list ControllerV1) : list ControllerV1 :=
  merge_sort key_le (base.filter (fun c => p c = true) cs).

Lemma zsum_filter p cs : zsum (Weight <$> base.filter (fun c => p c = true) cs) = weight_of p cs.
Proof.
  unfold weight_of. induction cs as [|c cs IH]; [done|]. rewrite filter_cons, fmap_cons, zsum_cons.
  destruct (decide (p c = true)) as [->|Hn]; [by rewrite fmap_cons, zsum_cons, IH|].
  apply not_true_is_false in Hn. rewrite Hn. lia.
Qed.

Lemma signing_order_perm p cs : signing_order p cs ≡ₚ base.filter (fun c => p c = true) cs.
Proof. apply merge_sort_Permutation. Qed.

Lemma bytes_le_lt a b : bytes_le a b -> a <> b -> bytes_lt a b.
Proof.
  unfold bytes_le, bytes_lt. intros Hle Hne. destruct (cmp_bytes a b) eqn:E; [by apply cmp_bytes_eq in E|done|done].
Qed.

Lemma sorted_le_lt (l : list string) : StronglySorted bytes_le l -> NoDup l -> StronglySorted bytes_lt l.
Proof.
  induction 1 as [|a l _ IH Ha]; intros Hn; [constructor|]. apply NoDup_cons in Hn as [Hni Hn]. constructor; [auto|].
  rewrite Forall_forall in Ha |- *. intros b Hb. apply bytes_le_lt; [by apply Ha|]. by intros ->.
Qed.

Lemma StronglySorted_fmap {A B} (R : A -> A -> Prop) (S : B -> B -> Prop) (f : A -> B) l :
  (forall a b, R a b -> S (f a) (f b)) -> StronglySorted R l -> StronglySorted S (f <$> l).
Proof.
  intros Hf. induction 1 as [|a l _ IH Ha]; [constructor|]. rewrite fmap_cons. constructor; [done|].
  rewrite Forall_fmap. eapply Forall_impl; [exact Ha|]. intros b. apply Hf.
Qed.

Lemma policy_keys_nodup p m cs : policy_ok p m cs -> NoDup ((fun c => keyIDHash (KeyId c)) <$> cs).
Proof.
  intros Hp. apply NoDup_fmap_2_strong; [|by eapply NoDup_fmap_1, ok_nodup]. intros a b Ha Hb E.
  assert (KeyId a = KeyId b) as Ek by (apply keyIDHash_inj; [by eapply controller_key..|done]).
  assert (m !! KeyId a = Some a) as E1 by (by apply (ok_map _ _ _ Hp)).
  assert (m !! KeyId a = Some b) as E2 by (by apply (ok_map _ _ _ Hp)). congruence.
Qed.

Lemma signing_order_sorted p m cs q : policy_ok p m cs ->
  StronglySorted bytes_lt ((fun c => keyIDHash (KeyId c)) <$> signing_order q cs).
Proof.
  intros Hp. apply sorted_le_lt.
  - apply (StronglySorted_fmap key_le); [done|]. unfold signing_order. apply (StronglySorted_merge_sort key_le).
  - rewrite (signing_order_perm q cs).
    assert (NoDup ((fun c => keyIDHash (KeyId c)) <$> cs)) as Hn by (by eapply policy_keys_nodup).
    clear -Hn. induction cs as [|c cs IH]; [done|]. rewrite fmap_cons in Hn. apply NoDup_cons in Hn as [Hni Hn].
    rewrite filter_cons. destruct (decide _); [|by apply IH]. rewrite fmap_cons. apply NoDup_cons. split; [|by apply IH].
    intros (d & E & Hd)%list_elem_of_fmap. apply list_elem_of_filter in Hd as [_ Hd]. apply Hni. cbn in *. rewrite E.
    by apply (list_elem_of_fmap_2 (fun c => keyIDHash (KeyId c))).
Qed.

Definition sign_with (sign : ControllerV1 -> string) (c : ControllerV1) : SignatureV1 :=
  {| SignatureKeyId := KeyId c; Ed25519Signature := sign c |}.

(** Which controllers may sign an action of a purpose, and its recovery variant. *)
Definition may_sign (purpose : Z) (recovery : bool) (c : ControllerV1) : bool :=
  if recovery then recovers c else has_purpose c purpose.

(** A policy that passes validation can be satisfied for every purpose it
    must serve: if the controllers holding the purpose (agent control, delegation
    or capability control; or recovery, for a recovery) all sign the action and
    the signatures are presented in key order, [VerifySignatures] accepts them. *)
Theorem valid_policy_satisfiable p m purpose recovery h sign :
  policy_u32 p -> validatePolicy (Some p) = Ok m -> slen h = 32 ->
  (recovery = false /\ purpose ∈ [PurposeAgentControl; PurposeDelegation; PurposeCapabilityControl] \/
   recovery = true /\ purpose = PurposeRecovery) ->
  (forall c, Some c ∈ Controllers p -> slen (sign c) = 64 /\ Verify (Ed25519PublicKey c) h (sign c) = true) ->
  exists signers, Forall (fun c => Some c ∈ Controllers p) signers /\
    VerifySignatures (Some p) (Some ∘ sign_with sign <$> signers) purpose recovery h = Ok tt.
Proof.
  intros Hu Hm Hh Hpur Hsign. destruct (validatePolicy_ok p m Hu Hm) as (cs & Hp).
  set (signers := signing_order (may_sign purpose recovery) cs). exists signers.
  assert (forall c, c ∈ signers -> c ∈ cs /\ may_sign purpose recovery c = true) as Hin.
  { intros c. unfold signers. rewrite signing_order_perm, list_elem_of_filter. naive_solver. }
  assert (forall c, c ∈ cs -> Some c ∈ Controllers p) as Hall.
  { intros c Hc. rewrite (ok_controllers _ _ _ Hp). by apply list_elem_of_fmap_2. }
  split; [apply Forall_forall; naive_solver|].
  assert (policyThreshold (Some p) recovery <= zsum (Weight <$> signers)) as Hthr.
  { unfold signers. rewrite signing_order_perm, zsum_filter. destruct Hpur as [[-> Hpur]|[-> ->]]; cbn.
    - by apply (ok_purposes _ _ _ Hp).
    - apply (ok_recovery _ _ _ Hp). }
  assert (0 < policyThreshold (Some p) recovery) as Hpos.
  { pose proof (ok_threshold _ _ _ Hp). cbn. destruct recovery; lia. }
  assert (length signers <= 64)%nat as Hlen.
  { unfold signers. rewrite signing_order_perm. pose proof (ok_count _ _ _ Hp).
    pose proof (length_filter (fun c => may_sign purpose recovery c = true) cs). lia. }
  assert (length signers <> 0)%nat by (destruct signers; [cbn in *; lia|done]).
  unfold VerifySignatures. rewrite Hm. cbn [wrapNativeError]. apply bind_Ok. exists m. split; [done|].
  rewrite length_fmap, Hh. apply bind_Ok. exists tt. split.
  { apply fail_if_Ok. unfold MaxSignatures. rewrite !orb_false_iff. split_and!; [lia|lia|done]. }
  destruct (verifyLoop_complete m purpose recovery h (sign_with sign <$> signers) signers (0, None)) as (k & Hk).
  - apply Forall2_fmap_l, Forall2_diag_elem. intros c Hc. destruct (Hin c Hc) as [Hc' Hmay].
    destruct (Hsign c (Hall c Hc')) as [Hl Hv]. split; cbn; try done.
    + by apply (ok_map _ _ _ Hp).
    + by eapply controller_key.
    + destruct Hpur as [[-> _]|[-> ->]]; [done|]. unfold may_sign, recovers in Hmay. by apply andb_true_iff in Hmay as [? ?].
    + intros ->. unfold may_sign, recovers in Hmay. by apply andb_true_iff in Hmay as [? ?].
  - unfold keys_of. rewrite <- list_fmap_compose. by eapply signing_order_sorted.
  - apply Forall_forall. done.
  - done.
  - apply Forall_forall. intros c Hc. destruct (Hin c Hc) as [Hc' _]. pose proof (controller_weight _ _ _ _ Hu Hp Hc'). lia.
  - cbn. unfold MaxControllerWeight. assert (two64 = 18446744073709551616) by done. lia.
  - apply bind_Ok. eexists. split; [rewrite list_fmap_compose; exact Hk|]. apply fail_if_Ok. apply Z.ltb_ge. done.
Qed.

(** ** Proof of possession *)

Definition possessed (m : gmap string ControllerV1) (h : string) (s : SignatureV1) : Prop :=
  exists c, m !! SignatureKeyId s = Some c /\ Verify (Ed25519PublicKey c) h (Ed25519Signature s) = true.

Lemma possessionLoop_Ok m h sigs prev k :
  foldM (possessionStep m h) prev sigs = Ok k ->
  exists ss, sigs = Some <$> ss /\ Forall (possessed m h) ss /\ Sorted (≠) (keys_of ss) /\
    (forall p, prev = Some p -> HdRel (≠) p (keys_of ss)).
Proof.
  revert prev. induction sigs as [|o sigs IH]; intros prev Hf; cbn in Hf.
  - exists []. split_and!; [done|constructor|constructor|constructor].
  - apply bind_Ok in Hf as (k1 & H1 & H2). destruct o as [s|]; [|done]. unfold possessionStep in H1. inv_ok.
    match goal with H : m !! _ = Some ?x |- _ => rename x into c end.
    repeat match goal with H : _ || _ = false |- _ => apply orb_false_iff in H as [? ?]
      | H : negb _ = false |- _ => apply negb_false_iff in H end.
    destruct (IH _ H2) as (ss & -> & HF & Hs & Hh). exists (s :: ss). split_and!.
    + done.
    + constructor; [by exists c|done].
    + constructor; [done|]. by apply Hh.
    + intros p ->. constructor. by match goal with H : bool_decide _ = false |- _ => apply bool_decide_eq_false in H end.
Qed.

Lemma Sorted_lt (l : list string) : StronglySorted bytes_le l -> Sorted (≠) l -> StronglySorted bytes_lt l.
Proof.
  intros Hle Hne. apply Sorted_StronglySorted; [exact bytes_lt_trans|]. apply StronglySorted_Sorted in Hle.
  induction Hne as [|a l Hne IH Ha]; [constructor|]. apply Sorted_inv in Hle as [Hle Hal]. constructor; [auto|].
  inversion Ha; subst; [constructor|]. inversion Hal; subst. constructor. by apply bytes_le_lt.
Qed.

#[local] Instance signature_le_total : Total signature_le.
Proof using. intros a b. unfold signature_le. apply bytes_le_total. Qed.
#[local] Instance signature_le_trans : Transitive signature_le.
Proof using. intros a b c. unfold signature_le. apply bytes_le_trans. Qed.

(** Installing a policy requires every one of its keys: when
    [VerifyPolicyPossession] accepts, each controller of the policy has a valid
    signature of its key on the action's hash in the set, in whatever order the
    signatures were given. *)
Theorem possession_covers_policy p sigs h :
  policy_u32 p -> VerifyPolicyPossession (Some p) sigs h = Ok tt ->
  Forall (fun o => exists c s, o = Some c /\ Some s ∈ sigs /\ SignatureKeyId s = KeyId c /\
    Verify (Ed25519PublicKey c) h (Ed25519Signature s) = true) (Controllers p).
Proof.
  intros Hu Hv. unfold VerifyPolicyPossession in Hv. apply bind_Ok in Hv as (m & Hm & Hv).
  apply wrapNativeError_Ok in Hm. destruct (validatePolicy_ok p m Hu Hm) as (cs & Hp). clear Hm.
  apply bind_Ok in Hv as ([] & Hg & Hv). apply fail_if_Ok, orb_false_iff in Hg as [Hsize%negb_false_iff _].
  apply bind_Ok in Hv as (k & Hf & _). apply possessionLoop_Ok in Hf as (ss & Hss & HF & Hne & _).
  assert (sigs ≡ₚ Some <$> ss) as Hperm by (rewrite <- Hss; symmetry; apply merge_sort_Permutation).
  assert (NoDup (SignatureKeyId <$> ss)) as Hnd.
  { apply (NoDup_fmap_1 keyIDHash). rewrite <- list_fmap_compose. apply sorted_lt_nodup, Sorted_lt; [|done].
    pose proof (StronglySorted_merge_sort signature_le sigs) as Hs. rewrite Hss in Hs. clear -Hs.
    induction ss as [|s ss IH]; [constructor|]. rewrite fmap_cons in *. apply StronglySorted_inv in Hs as [Hs Ha].
    constructor; [by apply IH|]. change (Forall (signature_le (Some s)) (Some <$> ss)) in Ha.
    rewrite Forall_forall in Ha. apply Forall_forall. intros k (s' & -> & Hs')%list_elem_of_fmap.
    by apply (Ha (Some s')), list_elem_of_fmap_2. }
  assert (elements (dom m) ≡ₚ SignatureKeyId <$> ss) as Hkeys.
  { symmetry. apply submseteq_length_Permutation.
    - apply NoDup_submseteq; [done|]. intros x (s & -> & Hs)%list_elem_of_fmap. apply elem_of_elements, elem_of_dom.
      rewrite Forall_forall in HF. destruct (HF s Hs) as (c & ? & _). by exists c.
    - rewrite length_fmap. change (length (elements (dom m))) with (size (dom m)). rewrite size_dom.
      apply Permutation_length in Hperm. rewrite length_fmap in Hperm. lia. }
  rewrite (ok_controllers _ _ _ Hp). rewrite Forall_fmap. apply Forall_forall. intros c Hc. cbn.
  assert (m !! KeyId c = Some c) as Hmc by (by apply (ok_map _ _ _ Hp)).
  assert (KeyId c ∈ SignatureKeyId <$> ss) as Hin.
  { rewrite <- Hkeys. apply elem_of_elements, elem_of_dom. by exists c. }
  apply list_elem_of_fmap in Hin as (s & Hk & Hs). exists c, s. split_and!; [done| |done|].
  - rewrite Hperm. by apply list_elem_of_fmap_2.
  - rewrite Forall_forall in HF. destruct (HF s Hs) as (c' & Hc' & Hver). rewrite <- Hk in Hc'. congruence.
Qed.
End SignatureTheorems.

(** ** The cells of a policy and of a signature set *)

Section PolicyCells.
Context `{L : CellLib}.

Definition id_le (a b : string) : Prop := bytes_le (keyIDHash a) (keyIDHash b).
#[global] Instance id_le_dec : RelDecision id_le.
Proof using. intros a b. unfold id_le. apply _. Defined.

(** The map's keys, sorted by the bytes they stand for. *)
Definition orderedKeys (controllers : gmap string ControllerV1) : list string :=
  merge_sort id_le (map_to_list controllers).*1.

Definition storeNext (next : option Cell) (b : Builder) : nresult Builder :=
  match next with Some c => MustStoreRef c b | None => Ok b end.

(** The list of controller cells, built from its end: each refers to the next. *)
Fixpoint controllerCells (l : list ControllerV1) : nresult (option Cell) :=
  match l with
  | [] => Ok None
  | c :: l =>
      next ← controllerCells l;
      cell ← end_cell (begin_cell |>> MustStoreSlice (keyIDHash (KeyId c)) 256 |>> MustStoreSlice (Ed25519PublicKey c) 256
                         |>> MustStoreUInt (Weight c) 32 |>> MustStoreUInt (PurposeMask c) 16
                         |>> MustStoreBoolBit (Recovery c) |>> storeNext next);
      Ok (Some cell)
  end.

Definition policyRoot (threshold recoveryThreshold timelock count : Z) (first : Cell) : nresult Cell :=
  end_cell (begin_cell |>> MustStoreUInt policyMagic 32 |>> MustStoreUInt 1 16 |>> MustStoreUInt threshold 32
              |>> MustStoreUInt recoveryThreshold 32 |>> MustStoreUInt timelock 64 |>> MustStoreUInt count 8
              |>> MustStoreRef first).

Definition PolicyCell (policy : option ControllerPolicyV1) : nresult Cell :=
  controllers ← wrapNativeError ErrBadPolicy "invalid Native controller policy" (validatePolicy policy);
  let ordered := orderedKeys controllers in
  next ← controllerCells (omap (fun k => controllers !! k) ordered);
  first ← must next;
  match policy with
  | Some p =>
      policyRoot (Threshold p) (RecoveryThreshold p) (RecoveryTimelockSeconds p) (Z.of_nat (length ordered)) first
  | None => Err (PlainError "invalid Native controller policy")
  end.

(** One controller cell: the controller and what is left of the cell. *)
Definition decodeController (cursor : Cell) (previous : option string) : nresult (ControllerV1 * Slice) :=
  cs ← orelse (BeginParse cursor) "invalid controller cell";
  key ← orelse (LoadSlice 256 cs) "invalid controller key";
  publicKey ← orelse (LoadSlice 256 key.2) "invalid Native policy key ordering";
  reject (negb (bool_decide (key.1 = publicKey.1)) ||
          match previous with Some p => negb (bool_decide (bytes_lt p key.1)) | None => false end)
    "invalid Native policy key ordering";;
  weight ← orelse (LoadUInt 32 publicKey.2) "invalid controller weight";
  purposes ← orelse (LoadUInt 16 weight.2) "invalid controller purposes";
  recovery ← orelse (LoadBoolBit purposes.2) "invalid controller recovery";
  Ok ({| KeyId := "ed25519:" +:+ hex_EncodeToString key.1; Ed25519PublicKey := publicKey.1;
         Weight := wrap32 weight.1; PurposeMask := wrap32 purposes.1; Recovery := recovery.1 |}, recovery.2).

(** The loop: [count] controller cells from [cursor], the key of each above the
    one before (a controller's key is its public key). *)
Fixpoint decodeControllers (count : nat) (cursor : Cell) (previous : option string) : nresult (list ControllerV1) :=
  match count with
  | O => Ok []
  | S rest =>
      controller ← decodeController cursor previous;
      match rest with
      | O => endSlice controller.2;; Ok [controller.1]
      | S _ =>
          next ← orelse (LoadRefCell controller.2) "missing controller cell";
          endSlice next.2;;
          controllers ← decodeControllers rest next.1 (Some (Ed25519PublicKey controller.1));
          Ok (controller.1 :: controllers)
      end
  end.

Definition DecodePolicyCell (value : Cell) : nresult ControllerPolicyV1 :=
  s ← orelse (BeginParse value) "invalid Native policy cell";
  magic ← orelse (LoadUInt 32 s) "invalid Native policy magic";
  reject (negb (magic.1 =? policyMagic)) "invalid Native policy magic";;
  schema ← orelse (LoadUInt 16 magic.2) "invalid Native policy schema";
  reject (negb (schema.1 =? 1)) "invalid Native policy schema";;
  threshold ← orelse (LoadUInt 32 schema.2) "invalid threshold";
  recoveryThreshold ← orelse (LoadUInt 32 threshold.2) "invalid recovery threshold";
  timelock ← orelse (LoadUInt 64 recoveryThreshold.2) "invalid timelock";
  count ← orelse (LoadUInt 8 timelock.2) "invalid Native policy controller count";
  reject ((count.1 =? 0) || (MaxControllers <? count.1)) "invalid Native policy controller count";;
  cursor ← orelse (LoadRefCell count.2) "missing controllers";
  endSlice cursor.2;;
  controllers ← decodeControllers (Z.to_nat count.1) cursor.1 None;
  let policy := {| Threshold := wrap32 threshold.1; RecoveryThreshold := wrap32 recoveryThreshold.1;
                   RecoveryTimelockSeconds := timelock.1; Controllers := Some <$> controllers |} in
  validatePolicy (Some policy);;
  Ok policy.

(** One signature of the list, and the order check against the one before. *)
Definition signatureOk (previous : option (option SignatureV1)) (signature : option SignatureV1) : nresult SignatureV1 :=
  match signature with
  | None => Err (nativeError ErrBadSignature "invalid Native signature")
  | Some s =>
      fail_if (negb (validKeyID (SignatureKeyId s)) || negb (slen (Ed25519Signature s) =? 64))
        (nativeError ErrBadSignature "invalid Native signature");;
      fail_if (match previous with
               | Some p => negb (bool_decide (bytes_lt (keyIDHash (GetKeyId p)) (keyIDHash (SignatureKeyId s))))
               | None => false
               end) (nativeError ErrDuplicateSignature "Native signatures are not strictly sorted");;
      Ok s
  end.

Fixpoint signatureCells (previous : option (option SignatureV1)) (l : list (option SignatureV1)) : nresult (option Cell) :=
  match l with
  | [] => Ok None
  | o :: l =>
      next ← signatureCells (Some o) l;
      s ← signatureOk previous o;
      cell ← end_cell (begin_cell |>> MustStoreSlice (keyIDHash (SignatureKeyId s)) 256
                         |>> MustStoreSlice (Ed25519Signature s) 512 |>> storeNext next);
      Ok (Some cell)
  end.

Definition SignatureCell (signatures : list (option SignatureV1)) : nresult Cell :=
  fail_if ((Z.of_nat (length signatures) =? 0) || (MaxSignatures <? Z.of_nat (length signatures)))
    (nativeError ErrThreshold "invalid Native signature count");;
  next ← signatureCells None signatures;
  first ← must next;
  end_cell (begin_cell |>> MustStoreUInt (Z.of_nat (length signatures)) 8 |>> MustStoreRef first).

Definition EmptySignatureCell : nresult Cell := end_cell (begin_cell |>> MustStoreUInt 0 8).

(** ** Storing a policy and reading it back *)

Context {LL : CellLaws L}.

Lemma filled_next next (m : nresult Builder) bits :
  filled m bits [] -> filled (m |>> storeNext next) bits (option_list next).
Proof using LL.
  intros Hm. destruct next as [c|]; cbn [storeNext option_list].
  - apply (filled_ref c) in Hm; [done|cbn; lia].
  - destruct Hm as (b & -> & ? & ?). by exists b.
Qed.

Lemma purpose_small c : validController c = true -> 0 <= PurposeMask c < 2 ^ 16.
Proof.
  intros Hv. destruct (validController_weight c Hv) as [H0 _]. split; [done|].
  unfold validController in Hv. rewrite !andb_true_iff, Z.eqb_eq in Hv. destruct Hv as [_ Hv].
  change knownPurposeMask with (Z.ones 4) in Hv. rewrite Z.ldiff_ones_r, Z.shiftl_mul_pow2, Z.shiftr_div_pow2 in Hv by lia.
  dlia.
Qed.

Definition controller_bits (c : ControllerV1) : list bool :=
  bytes_bits (Ed25519PublicKey c) ++ bytes_bits (Ed25519PublicKey c) ++ ubits 32 (Weight c) ++ ubits 16 (PurposeMask c) ++
  [Recovery c].

(** What the cells rely on: a key that is its own hash, and values of their widths. *)
Record controller_stored (c : ControllerV1) : Prop := {
  cs_key : KeyId c = "ed25519:" +:+ hex_EncodeToString (Ed25519PublicKey c);
  cs_hash : keyIDHash (KeyId c) = Ed25519PublicKey c;
  cs_length : String.length (Ed25519PublicKey c) = 32%nat;
  cs_weight : 0 <= Weight c < 2 ^ Z.of_nat 32;
  cs_purpose : 0 <= PurposeMask c < 2 ^ Z.of_nat 16 }.

Lemma policy_stored p m cs c : policy_u32 p -> policy_ok p m cs -> c ∈ cs -> controller_stored c.
Proof using.
  intros Hu Hp Hc. destruct (controller_key _ _ _ _ Hp Hc) as [Hh Hk].
  pose proof (controller_weight _ _ _ _ Hu Hp Hc). apply validKeyID_true in Hk as (Hk & Hl & _). rewrite Hh in Hk, Hl.
  pose proof (ok_valid _ _ _ Hp) as Hv. rewrite Forall_forall in Hv. destruct (Hv c Hc) as [Hv' _].
  pose proof (purpose_small c Hv'). split; try done. unfold MaxControllerWeight in *. lia.
Qed.

Lemma controllerCells_cons c l next : controller_stored c -> controllerCells l = Ok next ->
  exists cell, controllerCells (c :: l) = Ok (Some cell) /\ holds cell (controller_bits c) (option_list next).
Proof using LL.
  intros [_ Hh Hl Hw Hp] Hn. cbn [controllerCells]. rewrite Hn, Hh.
  cbn [mbind result_bind]. built_with ltac:(apply (filled_next next); fill) cell Hc. by exists cell.
Qed.

Lemma decodeController_stored c cell refs previous :
  controller_stored c -> holds cell (controller_bits c) refs -> below previous (Ed25519PublicKey c) ->
  exists s, decodeController cell previous = Ok (c, s) /\ s_bits s = [] /\ s_refs s = refs.
Proof using LL.
  intros [Hk Hh Hl Hw Hp] (s & Hs & Hb & Hr) Hprev. unfold controller_bits in Hb. unfold decodeController.
  rewrite Hs. cbn. load1. cbn. load1. cbn. rewrite bool_decide_true by done.
  replace (match previous with Some p => _ | None => false end) with false.
  2:{ destruct previous; [|done]. by rewrite bool_decide_true. }
  cbn. load1. cbn. load1. cbn. load1. cbn.
  eexists. split; [|split; [eassumption|congruence]]. unfold wrap32, two32. rewrite !Z.mod_small by lia.
  rewrite <- Hk. by destruct c.
Qed.

Lemma decodeControllers_roundtrip l cell previous :
  Forall controller_stored l -> StronglySorted bytes_lt (Ed25519PublicKey <$> l) ->
  Forall (below previous) (Ed25519PublicKey <$> l) -> controllerCells l = Ok (Some cell) ->
  decodeControllers (length l) cell previous = Ok l.
Proof using LL.
  revert cell previous. induction l as [|c l IH]; intros cell previous HF Hs Hbel Hc; [done|].
  apply Forall_cons in HF as [Hst HF]. rewrite fmap_cons in *. apply StronglySorted_inv in Hs as [Hs Hfirst].
  apply Forall_cons in Hbel as [Hbel _].
  assert (exists next, controllerCells l = Ok next) as [next Hn].
  { cbn in Hc. apply bind_Ok in Hc as (next & Hn & _). by exists next. }
  destruct (controllerCells_cons c l next Hst Hn) as (cell' & Hc' & Hh). rewrite Hc' in Hc. injection Hc as ->.
  destruct (decodeController_stored c cell _ previous Hst Hh Hbel) as (s & Hd & Hb & Hr).
  cbn [length decodeControllers]. rewrite Hd. cbn [mbind result_bind fst snd].
  destruct l as [|d l].
  - cbn in Hn. injection Hn as <-. cbn [length]. by rewrite endSlice_empty.
  - assert (exists n, next = Some n) as [n ->].
    { cbn in Hn. inv_ok. eauto. }
    cbn [length]. change (s_refs s = [n]) in Hr. load1. cbn [orelse opt_err mbind result_bind fst snd].
    rewrite endSlice_empty by done. change (S (length l)) with (length (d :: l)). rewrite (IH n (Some (Ed25519PublicKey c))); [done|done|done|done|done].
Qed.

Definition with_controllers (p : ControllerPolicyV1) (cs : list ControllerV1) : ControllerPolicyV1 :=
  {| Threshold := Threshold p; RecoveryThreshold := RecoveryThreshold p;
     RecoveryTimelockSeconds := RecoveryTimelockSeconds p; Controllers := Some <$> cs |}.

#[local] Instance weight_of_perm q : Proper (Permutation ==> eq) (weight_of q).
Proof using. intros l1 l2 Hl. unfold weight_of. by rewrite Hl. Qed.

Lemma policyStep_complete t cs c :
  policy_seen t cs -> validController c = true -> Recovery c = has_purpose c PurposeRecovery ->
  KeyId c ∉ KeyId <$> cs -> exists t', policyStep t (Some c) = Ok t'.
Proof using.
  intros [Hm Hk _ Hv _ _ _ _] Hc Hr Hn. unfold policyStep, reject. rewrite Hc, Hr, Bool.eqb_reflx.
  rewrite (bool_decide_false (is_Some _)).
  2:{ intros [d Hd]. apply Hm in Hd as [Hd E]. apply Hn. rewrite <- E. by apply list_elem_of_fmap_2. }
  rewrite bool_decide_false; [by eexists|]. rewrite Hk. intros (d & E & Hd)%list_elem_of_fmap.
  rewrite Forall_forall in Hv. destruct (Hv d Hd) as [Hd' _]. unfold validController in Hc, Hd'.
  rewrite !andb_true_iff, bool_decide_eq_true in Hc, Hd'. apply Hn.
  replace (KeyId c) with (KeyId d); [by apply list_elem_of_fmap_2|]. apply keyIDHash_inj; naive_solver congruence.
Qed.

Lemma policyTotals_complete l t cs :
  policy_seen t cs -> Forall (fun c => 0 <= Weight c) (cs ++ l) -> (length cs + length l <= 64)%nat ->
  Forall (fun c => validController c = true /\ Recovery c = has_purpose c PurposeRecovery) l ->
  NoDup (KeyId <$> cs ++ l) -> exists t', foldM policyStep t (Some <$> l) = Ok t'.
Proof using.
  revert t cs. induction l as [|c l IH]; intros t cs Hs Hw Hl HF Hn; [by exists t|].
  apply Forall_cons in HF as [[Hc Hr] HF]. cbn [length] in Hl.
  assert (KeyId c ∉ KeyId <$> cs) as Hfresh.
  { rewrite fmap_app, fmap_cons in Hn. apply NoDup_app in Hn as (_ & Hd & _). intros Hin. apply (Hd _ Hin). by left. }
  destruct (policyStep_complete t cs c Hs Hc Hr Hfresh) as (t1 & H1).
  destruct (IH t1 (cs ++ [c])) as (t' & Ht'); rewrite <- ?app_assoc; try done; [|rewrite length_app; cbn; lia|].
  - eapply policyStep_seen; [done| |lia|done]. apply Forall_app in Hw as [Hw1 Hw2]. apply Forall_cons in Hw2 as [Hw2 _].
    apply Forall_app. auto.
  - exists t'. rewrite fmap_cons. cbn [foldM]. rewrite H1. done.
Qed.

(** The order of a policy's controllers does not matter. *)
Lemma validatePolicy_perm p m cs l : policy_u32 p -> policy_ok p m cs -> l ≡ₚ cs ->
  validatePolicy (Some (with_controllers p l)) = Ok m /\ policy_ok (with_controllers p l) m l.
Proof using.
  intros Hu Hp Hl. pose proof Hp as [Hcs Hcount Hm Hn Hv Hthr Htl Hrec Hpur].
  assert (policy_u32 (with_controllers p l)) as Hu'.
  { destruct Hu as (? & ? & ? & Hu). do 3 (split; [done|]).
    change (Controllers (with_controllers p l)) with (Some <$> l). rewrite Hcs in Hu. by rewrite Hl. }
  assert (exists t, policyTotals (with_controllers p l) = Ok t) as [t Ht].
  { apply (policyTotals_complete l _ []); [apply newPolicyTotals_seen| |rewrite Hl; cbn; lia|by rewrite Hl|by rewrite Hl].
    apply Forall_forall. intros c Hc. rewrite app_nil_l, Hl in Hc. pose proof (controller_weight _ _ _ _ Hu Hp Hc). lia. }
  assert (exists m', validatePolicy (Some (with_controllers p l)) = Ok m') as [m' Hm'].
  { destruct (policyTotals_seen (Some <$> l) newPolicyTotals [] t) as (l' & Hl' & [_ _ _ _ Hr Ha Hd Hca]);
      [apply newPolicyTotals_seen| |constructor|rewrite length_fmap, Hl; cbn; lia|done|].
    { apply Forall_fmap, Forall_forall. intros c Hc d [= <-]. rewrite Hl in Hc. pose proof (controller_weight _ _ _ _ Hu Hp Hc). lia. }
    apply (inj (fmap Some)) in Hl' as <-. rewrite app_nil_l, Hl in Hr, Ha, Hd, Hca. unfold validatePolicy, reject.
    assert (forall x, x ∈ [PurposeAgentControl; PurposeDelegation; PurposeCapabilityControl] ->
      Threshold p <= weight_of (fun c => has_purpose c x) cs) as Hx by done.
    pose proof (Hx PurposeAgentControl ltac:(set_solver)). pose proof (Hx PurposeDelegation ltac:(set_solver)).
    pose proof (Hx PurposeCapabilityControl ltac:(set_solver)).
    rewrite Ht. cbn [with_controllers Controllers Threshold RecoveryThreshold RecoveryTimelockSeconds].
    assert (length (Some <$> l) = length cs) as -> by (rewrite length_fmap; by apply Permutation_length).
    unfold MaxControllers. exists (pt_controllers t).
    apply bind_Ok. exists tt. split; [apply fail_if_Ok; lia|]. apply bind_Ok. exists t. split; [done|].
    do 3 (apply bind_Ok; exists tt; split; [apply fail_if_Ok; lia|]). done. }
  destruct (validatePolicy_ok _ _ Hu' Hm') as (l' & Hok). pose proof Hok as [Hl' _ Hmm _ _ _ _ _ _].
  cbn in Hl'. apply (inj (fmap Some)) in Hl' as <-. assert (m' = m) as ->; [|done].
  apply map_eq. intros k. apply option_eq. intros c. by rewrite Hmm, Hm, Hl.
Qed.

(** ** The round trip *)

#[local] Instance id_le_total : Total id_le.
Proof using. intros a b. unfold id_le. apply bytes_le_total. Qed.
#[local] Instance id_le_trans : Transitive id_le.
Proof using. intros a b c. unfold id_le. apply bytes_le_trans. Qed.

Lemma omap_map_keys (m : gmap string ControllerV1) : omap (fun k => m !! k) (map_to_list m).*1 = (map_to_list m).*2.
Proof using.
  assert (Forall (fun kv => m !! kv.1 = Some kv.2) (map_to_list m)) as HF.
  { apply Forall_forall. intros [k c] Hin. by apply elem_of_map_to_list. }
  induction HF as [|kv l E _ IH]; [done|]. rewrite !fmap_cons. cbn. rewrite E. by f_equal.
Qed.

Lemma omap_perm {A B} (f : A -> option B) l1 l2 : l1 ≡ₚ l2 -> omap f l1 ≡ₚ omap f l2.
Proof using. by intros ->. Qed.

Lemma omap_Some_fmap {A} (l : list A) : omap id (Some <$> l) = l.
Proof using. induction l as [|a l IH]; [done|]. cbn in *. by rewrite IH. Qed.

(** The controllers in the order they are stored in. *)
Definition stored_controllers (m : gmap string ControllerV1) : list ControllerV1 :=
  omap (fun k => m !! k) (orderedKeys m).

Lemma stored_controllers_perm p m cs : policy_ok p m cs -> stored_controllers m ≡ₚ cs.
Proof using.
  intros Hp. unfold stored_controllers, orderedKeys. rewrite (omap_perm _ _ _ (merge_sort_Permutation id_le _)), omap_map_keys.
  apply NoDup_Permutation.
  - apply (NoDup_fmap_1 KeyId). rewrite <- list_fmap_compose.
    assert (KeyId ∘ snd <$> map_to_list m = (map_to_list m).*1) as ->; [|apply NoDup_fst_map_to_list].
    apply list_fmap_ext. intros i [k c] Hi. apply list_elem_of_lookup_2, elem_of_map_to_list in Hi.
    apply (ok_map _ _ _ Hp) in Hi as [_ E]. done.
  - eapply NoDup_fmap_1, ok_nodup, Hp.
  - intros c. rewrite list_elem_of_fmap. split.
    + intros ([k d] & -> & Hin). apply elem_of_map_to_list in Hin. by apply (ok_map _ _ _ Hp) in Hin as [? _].
    + intros Hc. exists (KeyId c, c). split; [done|]. apply elem_of_map_to_list. by apply (ok_map _ _ _ Hp).
Qed.

Lemma orderedKeys_length m : length (orderedKeys m) = length (stored_controllers m).
Proof using.
  unfold stored_controllers, orderedKeys. rewrite (omap_perm _ _ _ (merge_sort_Permutation id_le _)), omap_map_keys.
  rewrite merge_sort_Permutation. by rewrite !length_fmap.
Qed.

Lemma stored_controllers_keys p m cs : policy_ok p m cs ->
  Ed25519PublicKey <$> stored_controllers m = keyIDHash <$> orderedKeys m.
Proof using.
  intros Hp. unfold stored_controllers. assert (Forall (fun k => is_Some (m !! k)) (orderedKeys m)) as HF.
  { apply Forall_forall. intros k. unfold orderedKeys. rewrite merge_sort_Permutation.
    intros ([k' c] & -> & Hin)%list_elem_of_fmap. apply elem_of_map_to_list in Hin. by exists c. }
  induction HF as [|k l [c Hc] _ IH]; [done|]. cbn [omap list_omap]. rewrite Hc, !fmap_cons. f_equal; [|exact IH].
  apply (ok_map _ _ _ Hp) in Hc as [Hin <-]. symmetry. by eapply controller_key.
Qed.

Lemma stored_controllers_sorted p m cs : policy_ok p m cs ->
  StronglySorted bytes_lt (Ed25519PublicKey <$> stored_controllers m).
Proof using.
  intros Hp. apply sorted_le_lt.
  - rewrite (stored_controllers_keys _ _ _ Hp). apply (StronglySorted_fmap id_le); [done|].
    unfold orderedKeys. apply (StronglySorted_merge_sort id_le).
  - rewrite (stored_controllers_perm _ _ _ Hp). pose proof (policy_keys_nodup _ _ _ Hp) as Hn.
    erewrite list_fmap_ext; [exact Hn|]. intros i c Hi. symmetry. cbn.
    by destruct (controller_key _ _ _ _ Hp (list_elem_of_lookup_2 _ _ _ Hi)).
Qed.

Lemma controllerCells_total l : Forall controller_stored l -> exists next, controllerCells l = Ok next /\ (l <> [] -> is_Some next).
Proof using LL.
  induction 1 as [|c l Hc _ (next & Hn & _)]; [by exists None|].
  destruct (controllerCells_cons c l next Hc Hn) as (cell & Hc' & _). exists (Some cell). split; [done|]. by eexists.
Qed.

Lemma policyRoot_holds t rt tl count first :
  0 <= t < 2 ^ Z.of_nat 32 -> 0 <= rt < 2 ^ Z.of_nat 32 -> 0 <= tl < 2 ^ Z.of_nat 64 -> 0 <= count < 2 ^ Z.of_nat 8 ->
  exists cell, policyRoot t rt tl count first = Ok cell /\
    holds cell (ubits 32 policyMagic ++ ubits 16 1 ++ ubits 32 t ++ ubits 32 rt ++ ubits 64 tl ++ ubits 8 count ++ []) [first].
Proof using LL.
  intros Ht Hrt Htl Hc. unfold policyRoot. built cell Hh. exists cell. split; [done|]. by rewrite app_nil_r.
Qed.

Lemma decode_policyRoot t rt tl l first cell :
  0 <= t < 2 ^ Z.of_nat 32 -> 0 <= rt < 2 ^ Z.of_nat 32 -> 0 <= tl < 2 ^ Z.of_nat 64 -> (0 < length l <= 64)%nat ->
  holds cell (ubits 32 policyMagic ++ ubits 16 1 ++ ubits 32 t ++ ubits 32 rt ++ ubits 64 tl ++
    ubits 8 (Z.of_nat (length l)) ++ []) [first] ->
  decodeControllers (length l) first None = Ok l ->
  DecodePolicyCell cell =
    let policy := {| Threshold := t; RecoveryThreshold := rt; RecoveryTimelockSeconds := tl; Controllers := Some <$> l |} in
    validatePolicy (Some policy);; Ok policy.
Proof using LL.
  intros Ht Hrt Htl Hl (s & Hs & Hb & Hr) Hd. unfold DecodePolicyCell. rewrite Hs. cbn [orelse opt_err mbind result_bind].
  assert (0 <= Z.of_nat (length l) < 2 ^ Z.of_nat 8) by lia.
  repeat (load1; cbn [orelse opt_err mbind result_bind fst snd reject fail_if]).
  rewrite Z.eqb_refl, (endSlice_empty s6), Nat2Z.id, Hd by done. unfold MaxControllers, wrap32, two32.
  replace ((Z.of_nat (length l) =? 0) || (64 <? Z.of_nat (length l))) with false by lia.
  by rewrite !Z.mod_small by lia.
Qed.

(** C25: A valid policy can be stored in cells, and reading the cells back gives
    the same thresholds, timelock and controllers, the controllers sorted by
    their keys.  Two policies that differ in the order of their controllers have
    the same cells, so a policy has one identity. *)
Theorem policy_cell_roundtrip p m :
  policy_u32 p -> validatePolicy (Some p) = Ok m ->
  exists cell l, PolicyCell (Some p) = Ok cell /\ Some <$> l ≡ₚ Controllers p /\
    StronglySorted bytes_lt (Ed25519PublicKey <$> l) /\
    DecodePolicyCell cell = Ok (with_controllers p l) /\
    (forall cs, Some <$> cs ≡ₚ Controllers p -> PolicyCell (Some (with_controllers p cs)) = Ok cell).
Proof using LL.
  intros Hu Hm. destruct (validatePolicy_ok p m Hu Hm) as (cs & Hp). set (l := stored_controllers m).
  pose proof (stored_controllers_perm _ _ _ Hp) as Hl. fold l in Hl.
  assert (Forall controller_stored l) as HF.
  { rewrite Hl. apply Forall_forall. intros c Hc. by eapply policy_stored. }
  assert (0 < length l <= 64)%nat as Hlen by (rewrite Hl; apply (ok_count _ _ _ Hp)).
  destruct (controllerCells_total l HF) as (next & Hn & [first ->]); [by destruct l; [cbn in Hlen; lia|]|].
  pose proof Hu as (Hu1 & Hu2 & Hu3 & _).
  destruct (policyRoot_holds (Threshold p) (RecoveryThreshold p) (RecoveryTimelockSeconds p) (Z.of_nat (length l)) first)
    as (cell & Hc & Hh); [done|done|done|lia|].
  assert (forall p', validatePolicy (Some p') = Ok m -> Threshold p' = Threshold p ->
    RecoveryThreshold p' = RecoveryThreshold p -> RecoveryTimelockSeconds p' = RecoveryTimelockSeconds p ->
    PolicyCell (Some p') = Ok cell) as Hcell.
  { intros p' Hv E1 E2 E3. unfold PolicyCell. rewrite Hv. cbn [wrapNativeError mbind result_bind].
    fold (stored_controllers m). fold l. rewrite Hn, orderedKeys_length, E1, E2, E3. exact Hc. }
  exists cell, l. split_and!; [by apply Hcell| |by eapply stored_controllers_sorted| |].
  - rewrite (ok_controllers _ _ _ Hp). by apply fmap_Permutation.
  - assert (decodeControllers (length l) first None = Ok l) as Hd.
    { apply decodeControllers_roundtrip; [done|by eapply stored_controllers_sorted|by apply Forall_forall|done]. }
    rewrite (decode_policyRoot _ _ _ l first cell Hu1 Hu2 Hu3 Hlen Hh Hd).
    cbn zeta. destruct (validatePolicy_perm p m cs l Hu Hp Hl) as [Hv _]. unfold with_controllers in Hv.
    by rewrite Hv.
  - intros cs' Hcs'. rewrite (ok_controllers _ _ _ Hp) in Hcs'.
    apply (omap_perm id) in Hcs'. rewrite !omap_Some_fmap in Hcs'.
    apply Hcell; [|done..]. by apply (validatePolicy_perm p m cs cs').
Qed.
End PolicyCells.

Module Sample.
#[local] Existing Instance sampleCells_laws.

(** A signature scheme in which a signature is the key and the message. *)
#[local] Instance sampleEd25519 : Ed25519 := {| Verify pk msg sig := bool_decide (sig = pk +:+ msg) |}.

Definition key (n : N) : string := repeat_byte (ascii_of_N n) 32.
Definition controller (n : N) (weight mask : Z) (recovery : bool) : ControllerV1 :=
  {| KeyId := "ed25519:" +:+ hex_EncodeToString (key n); Ed25519PublicKey := key n; Weight := weight;
     PurposeMask := mask; Recovery := recovery |}.
Definition policy : ControllerPolicyV1 :=
  {| Threshold := 3; RecoveryThreshold := 1; RecoveryTimelockSeconds := 86400;
     Controllers := [Some (controller 7 2 15 true); Some (controller 5 1 11 false)] |}.
Definition action_hash : string := key 9.
Definition sign (c : ControllerV1) : string := Ed25519PublicKey c +:+ action_hash.
Definition signatures : list (option SignatureV1) :=
  Some ∘ sign_with sign <$> [controller 5 1 11 false; controller 7 2 15 true].
Definition controllers : gmap string ControllerV1 :=
  match validatePolicy (Some policy) with Ok m => m | _ => ∅ end.

Lemma policy_valid : validatePolicy (Some policy) = Ok controllers.
Proof.
  unfold controllers. assert (is_ok (validatePolicy (Some policy)) = true) by (vm_compute; reflexivity).
  by destruct (validatePolicy (Some policy)).
Qed.

Lemma policy_widths : policy_u32 policy.
Proof.
  split; [by split|]. split; [by split|]. split; [by apply u64_lit|].
  repeat apply Forall_cons_2; [..|apply Forall_nil_2]; intros ? [= <-]; by split; split.
Qed.

Lemma verify_signatures_sound_witness :
  exists signers, NoDup (Ed25519PublicKey <$> signers) /\
    Forall (fun c => Some c ∈ Controllers policy /\ has_purpose c PurposeAgentControl = true /\
      (false = true -> Recovery c = true) /\
      exists s, Some s ∈ signatures /\ SignatureKeyId s = KeyId c /\
        Verify (Ed25519PublicKey c) action_hash (Ed25519Signature s) = true) signers /\
    3 <= zsum (Weight <$> signers).
Proof.
  apply (verify_signatures_sound policy signatures PurposeAgentControl false action_hash policy_widths).
  vm_compute. reflexivity.
Defined.

Lemma valid_policy_satisfiable_witness :
  exists signers, Forall (fun c => Some c ∈ Controllers policy) signers /\
    VerifySignatures (Some policy) (Some ∘ sign_with sign <$> signers) PurposeDelegation false action_hash = Ok tt.
Proof.
  apply (valid_policy_satisfiable policy controllers PurposeDelegation false action_hash sign policy_widths policy_valid).
  - reflexivity.
  - left. split; [reflexivity|]. right. left.
  - intros c Hc. unfold policy in Hc. cbn [Controllers] in Hc. rewrite !elem_of_cons, elem_of_nil in Hc. destruct Hc as [[= ->]|[[= ->]|[]]]; split; vm_compute; reflexivity.
Defined.

Lemma possession_covers_policy_witness :
  Forall (fun o => exists c s, o = Some c /\ Some s ∈ signatures /\ SignatureKeyId s = KeyId c /\
    Verify (Ed25519PublicKey c) action_hash (Ed25519Signature s) = true) (Controllers policy).
Proof.
  apply (possession_covers_policy policy signatures action_hash policy_widths). vm_compute. reflexivity.
Defined.

Lemma policy_cell_roundtrip_witness :
  exists (cell : @Cell sampleCells) l, PolicyCell (Some policy) = Ok cell /\ Some <$> l ≡ₚ Controllers policy /\
    DecodePolicyCell cell = Ok (with_controllers policy l).
Proof.
  destruct (policy_cell_roundtrip (L := sampleCells) policy controllers policy_widths policy_valid)
    as (cell & l & H1 & H2 & _ & H3 & _).
  exists cell, l. split; [exact H1|]. split; [exact H2|exact H3].
Defined.
End Sample.
