(* ===== verification/Quote.v ===== *)
(** * Accepted quotes (src/pkg/nativecore/quote.go)

    A quote that a buyer accepts is committed to by a tree of cells; the hash of
    its root is the commitment a finalized transaction carries.  The decoder
    reads every term back and checks that encoding them again gives the very
    same root. *)

From S2P Require Import Prelude Sha256 CellLib Native.

(** ** Data *)

Record TOSContractIdentityV1 := { Workchain : Z; AccountId : string; CodeHash : string }.
Record TOSAssetIdentityV1 := { Master : option TOSContractIdentityV1; WalletCodeHash : string; Decimals : Z }.
Record MoneyV1 := { MoneyAsset : option TOSAssetIdentityV1; AtomicAmount : string }.

Record QuoteProposalV1 := {
  ProposalId : string;
  CapabilityId : string;
  CapabilityVersion : string;
  ProviderAgentId : string;
  ManifestDigest : string;
  TransportBindingDigest : string;
  MaximumPrice : option MoneyV1;
  EscrowTermsDigest : string;
  DisputePolicyDigest : string;
  ExpiresAtUnixSeconds : Z }.

Record AcceptedQuoteTermsV1 := {
  QuoteNetwork : NetworkDomain;
  Proposal : QuoteProposalV1;
  ExecutionSignerAuthorization : string }.

Definition acceptedQuoteMagic : Z := 0x4e415131.
Definition atomicAmountPattern : string -> bool := canonical_decimal.

(** ** Encoding *)

Section Quote.
Context `{L : CellLib}.

Definition quoteAssetCell (asset : option TOSAssetIdentityV1) : nresult Cell :=
  let invalid := "invalid TOS-network stablecoin identity"%string in
  asset ← orelse asset invalid;
  master ← orelse (Master asset) invalid;
  reject (negb (Workchain master =? 0) || negb (slen (AccountId master) =? 32) || (Decimals asset =? 0) ||
          (18 <? Decimals asset)) invalid;;
  reject (is_zero32 (AccountId master)) "invalid TOS-network stablecoin account";;
  masterCode ← or_err (digestBytes (CodeHash master) "tvm-cell-sha256:" false)
    (PlainError "invalid TOS-network stablecoin master code hash");
  walletCode ← or_err (digestBytes (WalletCodeHash asset) "tvm-cell-sha256:" false)
    (PlainError "invalid TOS-network stablecoin wallet code hash");
  end_cell (begin_cell |>> MustStoreInt (Workchain master) 32 |>> MustStoreSlice (AccountId master) 256
              |>> MustStoreSlice masterCode 256 |>> MustStoreSlice walletCode 256 |>> MustStoreUInt (Decimals asset) 8).

Definition commitment_of (root : Cell) : string := "tvm-cell-sha256:" +:+ hex_EncodeToString (Hash root).

Definition object_of_kind (value : string) (wanted : Z) (message : string) : nresult string :=
  id ← or_err (objectID value) (PlainError message);
  reject (negb (id.2 =? wanted)) message;;
  Ok id.1.

(** The five cells of a quote, from its validated parts. *)
Definition quoteCells (domain asset versionText amountText : Cell)
    (capability provider manifest transport escrow dispute signer versionHash : string) (expires : Z) : nresult Cell :=
  version ← end_cell (begin_cell |>> MustStoreSlice versionHash 256 |>> MustStoreSlice manifest 256
                        |>> MustStoreSlice transport 256 |>> MustStoreUInt expires 64 |>> MustStoreRef versionText);
  identity ← end_cell (begin_cell |>> MustStoreSlice capability 256 |>> MustStoreSlice provider 256 |>> MustStoreRef version);
  economic ← end_cell (begin_cell |>> MustStoreSlice escrow 256 |>> MustStoreSlice dispute 256 |>> MustStoreRef asset
                         |>> MustStoreRef amountText);
  authority ← end_cell (begin_cell |>> MustStoreSlice signer 256);
  end_cell (begin_cell |>> MustStoreUInt acceptedQuoteMagic 32 |>> MustStoreUInt 1 16 |>> MustStoreRef domain
              |>> MustStoreRef identity |>> MustStoreRef economic |>> MustStoreRef authority).

Definition BuildAcceptedQuoteCommitment (network : option NetworkDomain) (proposal : option QuoteProposalV1)
    (executionSignerAuthorization : string) : nresult (Cell * string) :=
  domain ← domainCell network;
  let invalid := "invalid Native Quote Proposal"%string in
  p ← orelse proposal invalid;
  price ← orelse (MaximumPrice p) invalid;
  reject ((ExpiresAtUnixSeconds p =? 0) || negb (validProtocolText (CapabilityVersion p) 128) ||
          (128 <? slen (AtomicAmount price)) || negb (atomicAmountPattern (AtomicAmount price))) invalid;;
  asset ← quoteAssetCell (MoneyAsset price);
  capability ← object_of_kind (CapabilityId p) 2 "invalid Native Quote Capability";
  provider ← object_of_kind (ProviderAgentId p) 1 "invalid Native Quote provider";
  manifest ← digestBytes (ManifestDigest p) "sha256:" false;
  transport ← digestBytes (TransportBindingDigest p) "sha256:" false;
  escrow ← digestBytes (EscrowTermsDigest p) "sha256:" false;
  dispute ← digestBytes (DisputePolicyDigest p) "sha256:" false;
  signer ← or_err (digestBytes executionSignerAuthorization "sha256:" false)
    (PlainError "invalid execution signer authorization");
  versionText ← stringCell (CapabilityVersion p);
  amountText ← stringCell (AtomicAmount price);
  root ← quoteCells domain asset versionText amountText capability provider manifest transport escrow dispute signer
           (Sum256 (CapabilityVersion p)) (ExpiresAtUnixSeconds p);
  Ok (root, commitment_of root).

(** ** Decoding *)

Definition endOf (s : Slice) (message : string) : nresult unit :=
  reject (negb (BitsLeft s =? 0) || negb (RefsNum s =? 0)) message.

Record RootCells := { rc_identity : Cell; rc_economic : Cell; rc_authority : Cell }.

Definition decodeQuoteRoot (root expectedDomain : Cell) : nresult RootCells :=
  s ← orelse (BeginParse root) "invalid Accepted Quote cell";
  magic ← orelse (LoadUInt 32 s) "invalid Accepted Quote magic";
  reject (negb (magic.1 =? acceptedQuoteMagic)) "invalid Accepted Quote magic";;
  schema ← orelse (LoadUInt 16 magic.2) "unsupported Accepted Quote schema";
  reject (negb (schema.1 =? 1)) "unsupported Accepted Quote schema";;
  domain ← orelse (LoadRefCell schema.2) "Accepted Quote network mismatch";
  reject (negb (bool_decide (Hash domain.1 = Hash expectedDomain))) "Accepted Quote network mismatch";;
  identity ← orelse (LoadRefCell domain.2) "missing Quote identity";
  economic ← orelse (LoadRefCell identity.2) "missing Quote economics";
  authority ← orelse (LoadRefCell economic.2) "invalid Accepted Quote shape";
  endOf authority.2 "invalid Accepted Quote shape";;
  Ok {| rc_identity := identity.1; rc_economic := economic.1; rc_authority := authority.1 |}.

(** Capability, provider and the cell of the version. *)
Definition decodeQuoteIdentity (identity : Cell) : nresult (string * string * Cell) :=
  i ← orelse (BeginParse identity) "invalid Quote identity";
  capability ← orelse (LoadSlice 256 i) "invalid Quote Capability";
  provider ← orelse (LoadSlice 256 capability.2) "invalid Quote provider";
  version ← orelse (LoadRefCell provider.2) "invalid Quote identity shape";
  endOf version.2 "invalid Quote identity shape";;
  Ok (capability.1, provider.1, version.1).

(** Version text, manifest, transport and expiry. *)
Definition decodeQuoteVersion (versionCell : Cell) : nresult (string * string * string * Z) :=
  v ← orelse (BeginParse versionCell) "invalid Quote version";
  versionHash ← orelse (LoadSlice 256 v) "invalid Quote version hash";
  manifest ← orelse (LoadSlice 256 versionHash.2) "invalid Quote manifest";
  transport ← orelse (LoadSlice 256 manifest.2) "invalid Quote transport";
  expires ← orelse (LoadUInt 64 transport.2) "invalid Quote expiry";
  textCell ← orelse (LoadRefCell expires.2) "invalid Quote version shape";
  endOf textCell.2 "invalid Quote version shape";;
  text ← or_err (decodeProtocolText textCell.1 128) (PlainError "invalid Quote version text");
  reject (negb (bool_decide (versionHash.1 = Sum256 text))) "invalid Quote version text";;
  Ok (text, manifest.1, transport.1, expires.1).

Definition decodeQuoteAsset (assetCell : Cell) : nresult TOSAssetIdentityV1 :=
  as_ ← orelse (BeginParse assetCell) "invalid Quote asset";
  wc ← orelse (LoadInt 32 as_) "invalid Quote asset workchain";
  account ← orelse (LoadSlice 256 wc.2) "invalid Quote asset account";
  masterCode ← orelse (LoadSlice 256 account.2) "invalid Quote asset code";
  walletCode ← orelse (LoadSlice 256 masterCode.2) "invalid Quote wallet code";
  decimals ← orelse (LoadUInt 8 walletCode.2) "invalid Quote asset shape";
  endOf decimals.2 "invalid Quote asset shape";;
  Ok {| Master := Some {| Workchain := wc.1; AccountId := account.1;
                          CodeHash := "tvm-cell-sha256:" +:+ hex_EncodeToString masterCode.1 |};
        WalletCodeHash := "tvm-cell-sha256:" +:+ hex_EncodeToString walletCode.1; Decimals := decimals.1 |}.

(** Escrow terms, dispute policy, asset and amount. *)
Definition decodeQuoteEconomics (economic : Cell) : nresult (string * string * MoneyV1) :=
  e ← orelse (BeginParse economic) "invalid Quote economics";
  escrowTerms ← orelse (LoadSlice 256 e) "invalid Quote escrow terms";
  dispute ← orelse (LoadSlice 256 escrowTerms.2) "invalid Quote dispute policy";
  assetCell ← orelse (LoadRefCell dispute.2) "missing Quote asset";
  amountCell ← orelse (LoadRefCell assetCell.2) "invalid Quote economics shape";
  endOf amountCell.2 "invalid Quote economics shape";;
  asset ← decodeQuoteAsset assetCell.1;
  amount ← or_err (decodeProtocolText amountCell.1 128) (PlainError "invalid Quote amount");
  Ok (escrowTerms.1, dispute.1, {| MoneyAsset := Some asset; AtomicAmount := amount |}).

Definition decodeQuoteAuthority (authority : Cell) : nresult string :=
  a ← orelse (BeginParse authority) "invalid Quote authority";
  authorization ← orelse (LoadSlice 256 a) "invalid Quote authority";
  endOf authorization.2 "invalid Quote authority";;
  Ok authorization.1.

Definition sha_text (raw : string) : string := "sha256:" +:+ hex_EncodeToString raw.

Definition DecodeAcceptedQuoteV1 (root : option Cell) (network : option NetworkDomain) : nresult AcceptedQuoteTermsV1 :=
  root ← orelse root "missing Accepted Quote";
  expectedDomain ← domainCell network;
  cells ← decodeQuoteRoot root expectedDomain;
  identity ← decodeQuoteIdentity (rc_identity cells);
  version ← decodeQuoteVersion identity.2;
  economics ← decodeQuoteEconomics (rc_economic cells);
  authorization ← decodeQuoteAuthority (rc_authority cells);
  let proposal :=
    {| ProposalId := ""; CapabilityId := "cap_" +:+ hex_EncodeToString identity.1.1;
       CapabilityVersion := version.1.1.1; ProviderAgentId := "agent_" +:+ hex_EncodeToString identity.1.2;
       ManifestDigest := sha_text version.1.1.2; TransportBindingDigest := sha_text version.1.2;
       MaximumPrice := Some economics.2; EscrowTermsDigest := sha_text economics.1.1;
       DisputePolicyDigest := sha_text economics.1.2; ExpiresAtUnixSeconds := version.2 |} in
  let auth := sha_text authorization in
  rebuilt ← or_err (BuildAcceptedQuoteCommitment network (Some proposal) auth)
    (PlainError "Accepted Quote is not canonical");
  reject (negb (bool_decide (Hash rebuilt.1 = Hash root))) "Accepted Quote is not canonical";;
  network ← orelse network "invalid Native network";
  Ok {| QuoteNetwork := network; Proposal := proposal; ExecutionSignerAuthorization := auth |}.

(** ** Building never panics, and what the cells hold *)

Context {LL : CellLaws L}.

Lemma Sum256_raw s : String.length (Sum256 s) = 32%nat.
Proof using. apply raw32_slen, Sum256_length. Qed.

Definition network_ok (n : NetworkDomain) (root file : string) : Prop :=
  validProtocolText (NetworkId n) 64 = true /\ GenesisRootHash n = sha_text root /\ GenesisFileHash n = sha_text file /\
  raw32 root /\ raw32 file /\ root <> zero32 /\ file <> zero32.

Lemma domainCell_holds n c : domainCell (Some n) = Ok c ->
  exists root file, network_ok n root file /\
    holds c (bytes_bits root ++ bytes_bits file ++ bytes_bits (Sum256 (NetworkId n))) [].
Proof using LL.
  unfold domainCell, reject. intros H. inv_ok.
  match goal with H : end_cell _ = Ok _ |- _ => rename H into Hc end.
  repeat match goal with H : digestBytes _ _ _ = Ok _ |- _ => apply digestBytes_Ok in H as (? & ? & ?) end.
  match goal with H : negb _ = false |- _ => apply negb_false_iff in H end.
  match goal with H1 : GenesisRootHash n = _ +:+ hex_EncodeToString ?r, H2 : GenesisFileHash n = _ +:+ hex_EncodeToString ?f |- _ =>
    exists r, f; split; [unfold network_ok, sha_text; naive_solver|] end.
  unfold raw32 in *. pose proof (Sum256_raw (NetworkId n)). revert Hc. built c' Hh. intros [= <-]. exact Hh.
Qed.

(** The byte strings behind the texts of a quote. *)
Record QuoteRaw := {
  q_capability : string; q_provider : string; q_manifest : string; q_transport : string; q_escrow : string;
  q_dispute : string; q_signer : string; q_masterCode : string; q_walletCode : string }.

Definition proposal_of (q : QuoteRaw) (id version amount account : string) (decimals expires : Z) : QuoteProposalV1 :=
  {| ProposalId := id; CapabilityId := "cap_" +:+ hex_EncodeToString (q_capability q);
     CapabilityVersion := version; ProviderAgentId := "agent_" +:+ hex_EncodeToString (q_provider q);
     ManifestDigest := sha_text (q_manifest q); TransportBindingDigest := sha_text (q_transport q);
     MaximumPrice := Some {|
       MoneyAsset := Some {|
         Master := Some {| Workchain := 0; AccountId := account;
                           CodeHash := "tvm-cell-sha256:" +:+ hex_EncodeToString (q_masterCode q) |};
         WalletCodeHash := "tvm-cell-sha256:" +:+ hex_EncodeToString (q_walletCode q); Decimals := decimals |};
       AtomicAmount := amount |};
     EscrowTermsDigest := sha_text (q_escrow q); DisputePolicyDigest := sha_text (q_dispute q);
     ExpiresAtUnixSeconds := expires |}.

Definition digest32 (s : string) : Prop := raw32 s /\ s <> zero32.

(** What validation leaves of a quote: its texts are the encodings of 32-byte
    strings, its version and amount are protocol texts, its asset is on the base
    workchain. *)
Record quote_valid (q : QuoteRaw) (version amount account : string) (decimals expires : Z) : Prop := {
  qv_raw : Forall digest32 [q_capability q; q_provider q; q_manifest q; q_transport q; q_escrow q; q_dispute q;
                            q_signer q; q_masterCode q; q_walletCode q];
  qv_version : validProtocolText version 128 = true;
  qv_amount : slen amount <= 128 /\ atomicAmountPattern amount = true;
  qv_account : digest32 account;
  qv_decimals : decimals <> 0 /\ decimals <= 18;
  qv_expires : expires <> 0 }.

Lemma amount_text amount : slen amount <= 128 -> atomicAmountPattern amount = true -> validProtocolText amount 128 = true.
Proof using.
  intros Hl Hp. apply validProtocolText_true. split; [by intros ->|]. split; [done|].
  apply canonical_decimal_digits in Hp. induction amount as [|c r IH]; [done|]. cbn in *.
  apply andb_true_iff in Hp as [Hc Hr]. unfold slen in *. cbn [String.length] in Hl. rewrite IH by (auto; lia).
  unfold printable. unfold is_digit in Hc. lia.
Qed.

Lemma object_of_kind_Ok value kind msg raw : (kind = 1 \/ kind = 2) ->
  object_of_kind value kind msg = Ok raw <-> value = object_prefix kind +:+ hex_EncodeToString raw /\ digest32 raw.
Proof using.
  intros Hk. unfold object_of_kind, reject. split.
  - intros H. inv_ok. match goal with H : objectID _ = Ok ?x |- _ => destruct x as [r k] end.
    match goal with H : negb _ = false |- _ => apply negb_false_iff, Z.eqb_eq in H; cbn in H; subst k end.
    match goal with H : objectID _ = Ok _ |- _ => apply objectID_Ok in H end. unfold digest32. naive_solver.
  - intros (-> & Hl & Hz). assert (objectID (object_prefix kind +:+ hex_EncodeToString raw) = Ok (raw, kind)) as ->.
    { by apply objectID_Ok. }
    cbn. by rewrite Z.eqb_refl.
Qed.

Lemma digest_Ok value prefix raw :
  digestBytes value prefix false = Ok raw <-> value = prefix +:+ hex_EncodeToString raw /\ digest32 raw.
Proof using. rewrite digestBytes_Ok. unfold digest32. naive_solver. Qed.

Ltac normal_bools :=
  repeat match goal with
  | H : _ || _ = false |- _ => apply orb_false_iff in H as [? ?]
  | H : negb _ = false |- _ => apply negb_false_iff in H
  | H : (_ =? _) = true |- _ => apply Z.eqb_eq in H
  | H : (_ =? _) = false |- _ => apply Z.eqb_neq in H
  | H : (_ <? _) = false |- _ => apply Z.ltb_ge in H
  | H : is_zero32 _ = false |- _ => apply bool_decide_eq_false in H
  end.

Lemma quoteAssetCell_Ok asset c : quoteAssetCell asset = Ok c ->
  exists account masterCode walletCode decimals,
    asset = Some {| Master := Some {| Workchain := 0; AccountId := account;
                                      CodeHash := "tvm-cell-sha256:" +:+ hex_EncodeToString masterCode |};
                    WalletCodeHash := "tvm-cell-sha256:" +:+ hex_EncodeToString walletCode; Decimals := decimals |} /\
    Forall digest32 [account; masterCode; walletCode] /\ decimals <> 0 /\ decimals <= 18.
Proof using.
  unfold quoteAssetCell, reject, orelse. intros H. inv_ok. normal_bools.
  match goal with H : Master ?a = Some ?m |- _ => destruct a as [mm wch dec], m as [wc acc ch]; cbn in * end. subst.
  repeat match goal with H : digestBytes _ _ false = Ok _ |- _ => apply digest_Ok in H as [? ?] end. subst.
  do 4 eexists. split; [reflexivity|]. split; [|done]. repeat apply Forall_cons_2; [|done..]. split; [by apply raw32_slen|done].
Qed.

(** An accepted proposal is the encoding of a valid quote. *)
Lemma build_valid network p auth root com : BuildAcceptedQuoteCommitment network (Some p) auth = Ok (root, com) ->
  exists q version amount account decimals expires,
    p = proposal_of q (ProposalId p) version amount account decimals expires /\ auth = sha_text (q_signer q) /\
    quote_valid q version amount account decimals expires.
Proof using.
  unfold BuildAcceptedQuoteCommitment, reject, orelse. intros H. inv_ok. normal_bools.
  repeat match goal with
  | H : digestBytes _ _ false = Ok _ |- _ => apply digest_Ok in H as [? ?]
  | H : object_of_kind _ _ _ = Ok _ |- _ => apply object_of_kind_Ok in H as [? ?]; [|lia]
  | H : quoteAssetCell _ = Ok _ |- _ => apply quoteAssetCell_Ok in H as (account & mc & wc & dec & Ha & Hf & Hd1 & Hd2)
  end.
  rewrite !Forall_cons in Hf. destruct Hf as (Hacc & Hmc & Hwc & _).
  match goal with H : MaximumPrice p = Some ?pr |- _ => destruct p as [id cap ver prov man tra price esc dis exp], pr as [ass amt] end.
  match goal with H : quoteCells _ _ _ _ ?cap ?prov ?man ?tra ?esc ?dis ?sg _ _ = _ |- _ =>
    exists (Build_QuoteRaw cap prov man tra esc dis sg mc wc), ver, amt, account, dec, exp; clear H end.
  cbn in *. subst. split; [reflexivity|]. split; [reflexivity|]. split; try done. by repeat apply Forall_cons_2.
Qed.

Record quote_layout (root domain : Cell) (q : QuoteRaw) (version amount account : string) (decimals expires : Z) : Prop := {
  ql_cells : exists identity economic authority versionCell versionText assetCell amountText,
    holds root (ubits 32 acceptedQuoteMagic ++ ubits 16 1) [domain; identity; economic; authority] /\
    holds identity (bytes_bits (q_capability q) ++ bytes_bits (q_provider q)) [versionCell] /\
    holds versionCell (bytes_bits (Sum256 version) ++ bytes_bits (q_manifest q) ++ bytes_bits (q_transport q) ++
      ubits 64 expires) [versionText] /\
    holds economic (bytes_bits (q_escrow q) ++ bytes_bits (q_dispute q)) [assetCell; amountText] /\
    holds assetCell (ubits 32 0 ++ bytes_bits account ++ bytes_bits (q_masterCode q) ++ bytes_bits (q_walletCode q) ++
      ubits 8 decimals) [] /\
    holds authority (bytes_bits (q_signer q)) [] /\
    decodeProtocolText versionText 128 = Ok version /\ decodeProtocolText amountText 128 = Ok amount }.

Lemma quoteAssetCell_holds account masterCode walletCode decimals :
  Forall digest32 [account; masterCode; walletCode] -> 0 < decimals <= 18 ->
  exists c, quoteAssetCell (Some {|
      Master := Some {| Workchain := 0; AccountId := account;
                        CodeHash := "tvm-cell-sha256:" +:+ hex_EncodeToString masterCode |};
      WalletCodeHash := "tvm-cell-sha256:" +:+ hex_EncodeToString walletCode; Decimals := decimals |}) = Ok c /\
    holds c (ubits 32 0 ++ bytes_bits account ++ bytes_bits masterCode ++ bytes_bits walletCode ++ ubits 8 decimals) [].
Proof using LL.
  intros Hf Hd. rewrite !Forall_cons in Hf. destruct Hf as ([Hl Hz] & Hm & Hw & _). unfold quoteAssetCell.
  cbn [orelse opt_err mbind result_bind Master Workchain AccountId Decimals CodeHash WalletCodeHash].
  unfold slen. rewrite Hl. replace (decimals =? 0) with false by lia. replace (18 <? decimals) with false by lia.
  unfold is_zero32. rewrite bool_decide_false by done. cbn [reject fail_if mbind result_bind negb orb].
  rewrite (proj2 (digest_Ok _ _ masterCode) (conj eq_refl Hm)). cbn [or_err mbind result_bind].
  rewrite (proj2 (digest_Ok _ _ walletCode) (conj eq_refl Hw)). cbn [or_err mbind result_bind].
  destruct Hm as [Hm _], Hw as [Hw _]. unfold raw32 in *. built c Hh. by exists c.
Qed.

Lemma quoteCells_holds domain asset vt at_ cap prov man tra esc dis sg vh expires :
  Forall raw32 [cap; prov; man; tra; esc; dis; sg; vh] -> 0 <= expires < 2 ^ 64 ->
  exists root identity economic authority versionCell,
    quoteCells domain asset vt at_ cap prov man tra esc dis sg vh expires = Ok root /\
    holds root (ubits 32 acceptedQuoteMagic ++ ubits 16 1) [domain; identity; economic; authority] /\
    holds identity (bytes_bits cap ++ bytes_bits prov) [versionCell] /\
    holds versionCell (bytes_bits vh ++ bytes_bits man ++ bytes_bits tra ++ ubits 64 expires) [vt] /\
    holds economic (bytes_bits esc ++ bytes_bits dis) [asset; at_] /\ holds authority (bytes_bits sg) [].
Proof using LL.
  rewrite !Forall_cons. unfold raw32. intros (? & ? & ? & ? & ? & ? & ? & ? & _) Hx. unfold quoteCells.
  built_first version Hv. built_first ident Hi. built_first economic He. built_first authority Ha. built root Hr.
  by exists root, ident, economic, authority, version.
Qed.

(** A valid quote is built, never panicking, and laid out in its seven cells. *)
Lemma valid_build network domain q id version amount account decimals expires :
  domainCell network = Ok domain -> quote_valid q version amount account decimals expires ->
  0 <= decimals -> u64 expires ->
  exists root,
    BuildAcceptedQuoteCommitment network (Some (proposal_of q id version amount account decimals expires))
      (sha_text (q_signer q)) = Ok (root, commitment_of root) /\
    quote_layout root domain q version amount account decimals expires.
Proof using LL.
  intros Hdom [Hraw Hver [Hal Hap] Hacc [Hd1 Hd2] Hexp] Hd0 Hx. unfold BuildAcceptedQuoteCommitment. rewrite Hdom.
  cbn [mbind result_bind orelse opt_err proposal_of MaximumPrice ExpiresAtUnixSeconds CapabilityVersion AtomicAmount
    MoneyAsset CapabilityId ProviderAgentId ManifestDigest TransportBindingDigest EscrowTermsDigest DisputePolicyDigest].
  rewrite Hver, Hap. replace (expires =? 0) with false by lia. replace (128 <? slen amount) with false by lia.
  cbn [reject fail_if mbind result_bind negb orb].
  rewrite !Forall_cons in Hraw. destruct Hraw as (Hc & Hp & Hm & Ht & He & Hdi & Hs & Hmc & Hwc & _).
  destruct (quoteAssetCell_holds account (q_masterCode q) (q_walletCode q) decimals) as (asset & -> & Hasset);
    [by repeat apply Forall_cons_2|lia|]. cbn [mbind result_bind].
  rewrite (proj2 (object_of_kind_Ok _ 2 _ (q_capability q) (or_intror eq_refl)) (conj eq_refl Hc)). cbn [mbind result_bind].
  rewrite (proj2 (object_of_kind_Ok _ 1 _ (q_provider q) (or_introl eq_refl)) (conj eq_refl Hp)). cbn [mbind result_bind].
  unfold sha_text. rewrite (proj2 (digest_Ok _ _ _) (conj eq_refl Hm)), (proj2 (digest_Ok _ _ _) (conj eq_refl Ht)),
    (proj2 (digest_Ok _ _ _) (conj eq_refl He)), (proj2 (digest_Ok _ _ _) (conj eq_refl Hdi)),
    (proj2 (digest_Ok _ _ _) (conj eq_refl Hs)). cbn [mbind result_bind or_err].
  destruct (text_roundtrip version 128 Hver) as (vt & -> & Hvt). cbn [mbind result_bind].
  destruct (text_roundtrip amount 128 (amount_text _ Hal Hap)) as (at_ & -> & Hat). cbn [mbind result_bind].
  destruct (quoteCells_holds domain asset vt at_ (q_capability q) (q_provider q) (q_manifest q) (q_transport q) (q_escrow q)
    (q_dispute q) (q_signer q) (Sum256 version) expires) as (root & i & e & a & v & -> & Hr & Hi & Hv & Hec & Ha).
  { unfold digest32 in *. repeat apply Forall_cons_2; try tauto; [apply Sum256_raw|by apply Forall_nil_2]. }
  { exact Hx. }
  cbn [mbind result_bind]. exists root. split; [done|]. split. by exists i, e, a, v, vt, asset, at_.
Qed.

(** ** Decoding the cells of a valid quote *)

Lemma endOf_empty s msg : s_bits s = [] -> s_refs s = [] -> endOf s msg = Ok tt.
Proof using LL. intros Hb Hr. unfold endOf. by rewrite bits_left, refs_num, Hb, Hr. Qed.

(** Runs a decoder on a cell of known content, load by load. *)
Ltac decode_cell :=
  match goal with H : holds ?c _ _ |- context[BeginParse ?c] =>
    let s := fresh "s" in let Hb := fresh "Hb" in let Hr := fresh "Hr" in
    destruct H as (s & -> & Hb & Hr); rewrite <- ?app_assoc in Hb
  end;
  repeat first [ progress cbn [orelse opt_err or_err reject fail_if mbind result_bind fst snd negb]
               | load1
               | rewrite endOf_empty by congruence ].

(** A field is followed by the end of the cell or by another field. *)
Lemma holds_tail c bits refs : holds c bits refs -> holds c (bits ++ []) refs.
Proof using. by rewrite app_nil_r. Qed.

Lemma decodeQuoteRoot_layout root domain identity_ economic authority :
  holds root (ubits 32 acceptedQuoteMagic ++ ubits 16 1) [domain; identity_; economic; authority] ->
  decodeQuoteRoot root domain = Ok {| rc_identity := identity_; rc_economic := economic; rc_authority := authority |}.
Proof using LL.
  intros H%holds_tail. unfold decodeQuoteRoot. decode_cell. by rewrite bool_decide_true.
Qed.

Lemma decodeQuoteIdentity_layout c cap prov v :
  holds c (bytes_bits cap ++ bytes_bits prov) [v] -> raw32 cap -> raw32 prov -> decodeQuoteIdentity c = Ok (cap, prov, v).
Proof using LL. unfold raw32. intros H%holds_tail ? ?. unfold decodeQuoteIdentity. by decode_cell. Qed.

Lemma decodeQuoteVersion_layout c version man tra expires text :
  holds c (bytes_bits (Sum256 version) ++ bytes_bits man ++ bytes_bits tra ++ ubits 64 expires) [text] ->
  decodeProtocolText text 128 = Ok version -> raw32 man -> raw32 tra -> u64 expires -> decodeQuoteVersion c = Ok (version, man, tra, expires).
Proof using LL.
  unfold raw32, u64. pose proof (Sum256_raw version). intros H'%holds_tail Ht ? ? ?. unfold decodeQuoteVersion.
  decode_cell. rewrite Ht. cbn [or_err mbind result_bind]. by rewrite bool_decide_true.
Qed.

Lemma decodeQuoteAsset_layout c account mc wc decimals :
  holds c (ubits 32 0 ++ bytes_bits account ++ bytes_bits mc ++ bytes_bits wc ++ ubits 8 decimals) [] ->
  raw32 account -> raw32 mc -> raw32 wc -> 0 <= decimals <= 18 ->
  decodeQuoteAsset c = Ok {|
    Master := Some {| Workchain := 0; AccountId := account; CodeHash := "tvm-cell-sha256:" +:+ hex_EncodeToString mc |};
    WalletCodeHash := "tvm-cell-sha256:" +:+ hex_EncodeToString wc; Decimals := decimals |}.
Proof using LL. unfold raw32. intros H'%holds_tail ? ? ? ?. unfold decodeQuoteAsset. by decode_cell. Qed.

Lemma decodeQuoteEconomics_layout c escrow dispute assetCell amountCell asset amount :
  holds c (bytes_bits escrow ++ bytes_bits dispute) [assetCell; amountCell] -> decodeQuoteAsset assetCell = Ok asset ->
  decodeProtocolText amountCell 128 = Ok amount -> raw32 escrow -> raw32 dispute ->
  decodeQuoteEconomics c = Ok (escrow, dispute, {| MoneyAsset := Some asset; AtomicAmount := amount |}).
Proof using LL.
  unfold raw32. intros H'%holds_tail Ha Ht ? ?. unfold decodeQuoteEconomics. decode_cell. rewrite Ha.
  cbn [mbind result_bind]. by rewrite Ht.
Qed.

Lemma decodeQuoteAuthority_layout c signer : holds c (bytes_bits signer) [] -> raw32 signer ->
  decodeQuoteAuthority c = Ok signer.
Proof using LL. unfold raw32. intros H'%holds_tail ?. unfold decodeQuoteAuthority. by decode_cell. Qed.

Lemma decode_layout network n domain root q version amount account decimals expires :
  network = Some n -> domainCell network = Ok domain -> quote_valid q version amount account decimals expires ->
  0 <= decimals -> u64 expires -> quote_layout root domain q version amount account decimals expires ->
  BuildAcceptedQuoteCommitment network (Some (proposal_of q "" version amount account decimals expires))
      (sha_text (q_signer q)) = Ok (root, commitment_of root) ->
  DecodeAcceptedQuoteV1 (Some root) network =
    Ok {| QuoteNetwork := n; Proposal := proposal_of q "" version amount account decimals expires;
          ExecutionSignerAuthorization := sha_text (q_signer q) |}.
Proof using LL.
  intros Hn Hdom [Hraw _ _ [Hacc _] [_ Hd] _] Hd0 Hx
    [(i & e & a & v & vt & ac & at_ & Hroot & Hi & Hv & He & Hac & Ha & Hvt & Hat)] Hb.
  rewrite !Forall_cons in Hraw. destruct Hraw as ((?&_) & (?&_) & (?&_) & (?&_) & (?&_) & (?&_) & (?&_) & (?&_) & (?&_) & _).
  unfold DecodeAcceptedQuoteV1. cbn [orelse opt_err mbind result_bind]. rewrite Hdom. cbn [mbind result_bind].
  rewrite (decodeQuoteRoot_layout _ _ _ _ _ Hroot). cbn [mbind result_bind rc_identity rc_economic rc_authority].
  erewrite decodeQuoteIdentity_layout by eassumption. cbn [mbind result_bind fst snd].
  erewrite decodeQuoteVersion_layout by eassumption. cbn [mbind result_bind fst snd].
  erewrite decodeQuoteEconomics_layout; [|eassumption|eapply decodeQuoteAsset_layout; [eassumption|done..]|eassumption..].
  cbn [mbind result_bind fst snd]. erewrite decodeQuoteAuthority_layout by eassumption. cbn [mbind result_bind fst snd].
  change (BuildAcceptedQuoteCommitment _ _ _) with (BuildAcceptedQuoteCommitment network
    (Some (proposal_of q "" version amount account decimals expires)) (sha_text (q_signer q))).
  rewrite Hb. cbn [or_err mbind result_bind fst]. rewrite bool_decide_true by done. cbn [negb reject fail_if mbind result_bind].
  by rewrite Hn.
Qed.

(** Fields of fixed width in Go. *)
Definition proposal_typed (p : QuoteProposalV1) : Prop :=
  u64 (ExpiresAtUnixSeconds p) /\
  (forall price asset, MaximumPrice p = Some price -> MoneyAsset price = Some asset -> 0 <= Decimals asset < two32).

Definition without_id (p : QuoteProposalV1) : QuoteProposalV1 :=
  {| ProposalId := ""; CapabilityId := CapabilityId p; CapabilityVersion := CapabilityVersion p;
     ProviderAgentId := ProviderAgentId p; ManifestDigest := ManifestDigest p;
     TransportBindingDigest := TransportBindingDigest p; MaximumPrice := MaximumPrice p;
     EscrowTermsDigest := EscrowTermsDigest p; DisputePolicyDigest := DisputePolicyDigest p;
     ExpiresAtUnixSeconds := ExpiresAtUnixSeconds p |}.

Lemma build_network network p auth r : BuildAcceptedQuoteCommitment network p auth = Ok r ->
  exists n domain, network = Some n /\ domainCell network = Ok domain.
Proof using. unfold BuildAcceptedQuoteCommitment. intros H. inv_ok. destruct network as [n|]; [|done]. by exists n, x. Qed.

(** What a successful build says: the terms, the layout of the root, the decoder's answer. *)
Lemma build_spec network p auth root com : proposal_typed p ->
  BuildAcceptedQuoteCommitment network (Some p) auth = Ok (root, com) ->
  exists n domain q version amount account decimals expires,
    network = Some n /\ domainCell network = Ok domain /\ com = commitment_of root /\
    quote_layout root domain q version amount account decimals expires /\
    DecodeAcceptedQuoteV1 (Some root) network =
      Ok {| QuoteNetwork := n; Proposal := without_id p; ExecutionSignerAuthorization := auth |}.
Proof using LL.
  intros [Hx Hdec] Hb. destruct (build_network _ _ _ _ Hb) as (n & domain & Hn & Hdom).
  destruct (build_valid _ _ _ _ _ Hb) as (q & version & amount & account & decimals & expires & Hp & Ha & Hv).
  assert (0 <= decimals) as Hd0 by (rewrite Hp in Hdec; by destruct (Hdec _ _ eq_refl eq_refl)).
  rewrite Hp in Hx. cbn in Hx.
  destruct (valid_build network domain q (ProposalId p) _ _ _ _ _ Hdom Hv Hd0 Hx) as (r & Hr & Hl).
  rewrite <- Hp, <- Ha, Hb in Hr. injection Hr as -> ->.
  destruct (valid_build network domain q "" _ _ _ _ _ Hdom Hv Hd0 Hx) as (r' & Hr' & _).
  assert (r' = r) as ->.
  { rewrite Hp, Ha in Hb. unfold BuildAcceptedQuoteCommitment in Hb, Hr'. cbn in Hb, Hr'. congruence. }
  exists n, domain, q, version, amount, account, decimals, expires. split_and!; try done.
  rewrite (decode_layout network n domain r q version amount account decimals expires) by done. rewrite Ha, Hp. done.
Qed.

(** ** Totality *)

Lemma domainCell_no_panic network : no_panic (domainCell network).
Proof using LL.
  destruct network as [n|]; [|done]. unfold domainCell. repeat total_step.
  repeat match goal with H : digestBytes _ _ _ = Ok _ |- _ => apply digestBytes_Ok in H as (_ & ? & _) end.
  unfold raw32 in *. pose proof (Sum256_raw (NetworkId n)). by built c Hc.
Qed.

Lemma quoteAssetCell_no_panic asset :
  (forall a, asset = Some a -> 0 <= Decimals a < two32) -> no_panic (quoteAssetCell asset).
Proof using LL.
  intros Ht. unfold quoteAssetCell, reject, orelse. repeat total_step. inv_ok. normal_bools.
  repeat match goal with H : digestBytes _ _ _ = Ok _ |- _ => apply digestBytes_Ok in H as (_ & ? & _) end.
  specialize (Ht _ eq_refl). match goal with H : slen (AccountId _) = 32 |- _ => apply raw32_slen in H end.
  match goal with H : Workchain _ = 0 |- _ => rewrite H end.
  unfold raw32 in *. by built c Hc.
Qed.

Lemma object_of_kind_no_panic value kind msg : no_panic (object_of_kind value kind msg).
Proof using. unfold object_of_kind. by repeat total_step. Qed.
#[local] Hint Resolve object_of_kind_no_panic domainCell_no_panic : no_panic.

(** Whatever the proposal, the encoder returns a commitment or an error: the
    values it stores always fit their fields. *)
Lemma build_no_panic network p auth : (forall p', p = Some p' -> proposal_typed p') ->
  no_panic (BuildAcceptedQuoteCommitment network p auth).
Proof using LL.
  intros Ht. unfold BuildAcceptedQuoteCommitment, reject, orelse. do 4 total_step. inv_ok. normal_bools.
  destruct (Ht _ eq_refl) as [Hx Hd].
  apply bind_no_panic; [apply quoteAssetCell_no_panic; intros; by eapply Hd|intros asset Ha].
  repeat total_step; [by apply (stringCell_total _ 128)|by apply (stringCell_total _ 128), amount_text|].
  repeat match goal with
  | H : digestBytes _ _ false = Ok _ |- _ => apply digest_Ok in H as [_ [? _]]
  | H : or_err _ _ = Ok _ |- _ => apply or_err_Ok in H
  | H : object_of_kind _ _ _ = Ok _ |- _ => apply object_of_kind_Ok in H as [_ [? _]]; [|lia]
  end.
  match goal with |- no_panic (quoteCells ?d ?a ?v ?t ?c ?p ?m ?tr ?e ?di ?s ?h ?x) =>
    destruct (quoteCells_holds d a v t c p m tr e di s h x) as (r & i & ec & au & vc & -> & _); [|exact Hx|done] end.
  repeat apply Forall_cons_2; try done. apply Sum256_raw.
Qed.

(** *** Decoding a cell of unknown origin *)

Lemma endOf_no_panic s msg : no_panic (endOf s msg).
Proof using. apply reject_no_panic. Qed.
#[local] Hint Resolve endOf_no_panic : no_panic.

Lemma decodeQuoteRoot_no_panic root domain : no_panic (decodeQuoteRoot root domain).
Proof using. unfold decodeQuoteRoot. by repeat total_step. Qed.
Lemma decodeQuoteIdentity_no_panic c : no_panic (decodeQuoteIdentity c).
Proof using. unfold decodeQuoteIdentity. by repeat total_step. Qed.
Lemma decodeQuoteVersion_no_panic c : no_panic (decodeQuoteVersion c).
Proof using LL. unfold decodeQuoteVersion. by repeat total_step. Qed.
Lemma decodeQuoteAsset_no_panic c : no_panic (decodeQuoteAsset c).
Proof using. unfold decodeQuoteAsset. by repeat total_step. Qed.
#[local] Hint Resolve decodeQuoteAsset_no_panic : no_panic.
Lemma decodeQuoteEconomics_no_panic c : no_panic (decodeQuoteEconomics c).
Proof using LL. unfold decodeQuoteEconomics. by repeat total_step. Qed.
Lemma decodeQuoteAuthority_no_panic c : no_panic (decodeQuoteAuthority c).
Proof using. unfold decodeQuoteAuthority. by repeat total_step. Qed.
#[local] Hint Resolve decodeQuoteRoot_no_panic decodeQuoteIdentity_no_panic decodeQuoteVersion_no_panic
  decodeQuoteEconomics_no_panic decodeQuoteAuthority_no_panic : no_panic.

Lemma decodeQuoteVersion_typed c v : decodeQuoteVersion c = Ok v -> u64 v.2.
Proof using LL.
  unfold decodeQuoteVersion, reject, orelse. intros H. inv_ok.
  match goal with H : LoadUInt 64 _ = Some ?x |- _ => destruct x as [e s]; by apply load_uint_range in H end.
Qed.

Lemma decodeQuoteEconomics_typed c e asset :
  decodeQuoteEconomics c = Ok e -> MoneyAsset e.2 = Some asset -> 0 <= Decimals asset < two32.
Proof using LL.
  unfold decodeQuoteEconomics, decodeQuoteAsset, reject, orelse. intros H Ha. inv_ok.
  match goal with H : LoadUInt 8 _ = Some ?x |- _ => destruct x as [d s]; apply load_uint_range in H; [|done] end.
  unfold two32. cbn in *. lia.
Qed.

(** ** Properties *)

(** C30: An accepted quote can be read back.  When the encoder accepts a proposal, the
    returned commitment is the hash of the root cell, and decoding that cell on the same
    network gives the network, every commercial field of the proposal (all but its
    non-canonical identifier) and the signer authorization that were encoded. *)
Theorem quote_roundtrip n p auth root com :
  proposal_typed p -> BuildAcceptedQuoteCommitment (Some n) (Some p) auth = Ok (root, com) ->
  com = commitment_of root /\
  DecodeAcceptedQuoteV1 (Some root) (Some n) =
    Ok {| QuoteNetwork := n; Proposal := without_id p; ExecutionSignerAuthorization := auth |}.
Proof using LL.
  intros Ht Hb. destruct (build_spec _ _ _ _ _ Ht Hb) as (n' & ? & ? & ? & ? & ? & ? & ? & [= <-] & _ & -> & _ & Hd). done.
Qed.

(** A commitment binds the terms.  If two proposals, possibly on different networks, get
    the same commitment, and the root cells and the network identifiers do not collide under
    their hashes, then the networks, the commercial terms and the signer authorizations are
    the same. *)
Theorem quote_commitment_binds n n' p p' auth auth' root root' com :
  proposal_typed p -> proposal_typed p' ->
  BuildAcceptedQuoteCommitment (Some n) (Some p) auth = Ok (root, com) ->
  BuildAcceptedQuoteCommitment (Some n') (Some p') auth' = Ok (root', com) ->
  (Hash root = Hash root' -> root = root') ->
  (Sum256 (NetworkId n) = Sum256 (NetworkId n') -> NetworkId n = NetworkId n') ->
  n = n' /\ without_id p = without_id p' /\ auth = auth'.
Proof using LL.
  intros Ht Ht' Hb Hb' Hcell Hid.
  destruct (build_spec _ _ _ _ _ Ht Hb) as (? & d & q & v & a & ac & de & ex & [= <-] & Hdom & Hc & Hl & Hd).
  destruct (build_spec _ _ _ _ _ Ht' Hb') as (? & d' & q' & v' & a' & ac' & de' & ex' & [= <-] & Hdom' & Hc' & Hl' & Hd').
  rewrite Hc in Hc'. apply app_inj_len in Hc' as [_ Hh%hex_encode_inj]; [|done]. apply Hcell in Hh as ->.
  destruct Hl as [(? & ? & ? & ? & ? & ? & ? & Hr & _)], Hl' as [(? & ? & ? & ? & ? & ? & ? & Hr' & _)].
  destruct (holds_fun _ _ _ _ _ Hr Hr') as [_ [= -> _ _ _]].
  destruct (domainCell_holds _ _ Hdom) as (ro & fi & (_ & Ho & Hf & Hlo & Hlf & _) & Hbits).
  destruct (domainCell_holds _ _ Hdom') as (ro' & fi' & (_ & Ho' & Hf' & Hlo' & Hlf' & _) & Hbits').
  destruct (holds_fun _ _ _ _ _ Hbits Hbits') as [Hbb _]. unfold raw32 in *.
  apply app_inj_1 in Hbb as [Hro Hbb]; [|rewrite !length_bytes_bits; lia].
  apply app_inj_1 in Hbb as [Hfi Hsum]; [|rewrite !length_bytes_bits; lia].
  apply (f_equal bits_bytes) in Hro, Hfi, Hsum. rewrite !bits_bytes_bits in Hro, Hfi, Hsum.
  assert (n = n') as ->.
  { destruct n as [i r f], n' as [i' r' f']. cbn in *. subst. by rewrite Hid. }
  rewrite Hd in Hd'. revert Hd'. generalize (without_id p), (without_id p'). by intros ? ? [= -> ->].
Qed.

(** Decoding a cell of unknown origin is safe.  Whatever cell and network are given, the
    decoder returns terms or an error, never a panic; and when it returns terms, encoding
    them gives the very commitment of the cell, so a quote has one accepted encoding (up to
    collisions of the hash). *)
Theorem quote_decode_canonical root network :
  no_panic (DecodeAcceptedQuoteV1 root network) /\
  (forall t, DecodeAcceptedQuoteV1 root network = Ok t ->
    exists r r', root = Some r /\ network = Some (QuoteNetwork t) /\
      BuildAcceptedQuoteCommitment network (Some (Proposal t)) (ExecutionSignerAuthorization t) = Ok (r', commitment_of r)).
Proof using LL.
  split.
  - unfold DecodeAcceptedQuoteV1. do 7 total_step. cbv zeta. apply bind_no_panic.
    + apply or_err_no_panic, build_no_panic. intros p' [= <-].
      match goal with H : decodeQuoteVersion _ = Ok _ |- _ => apply decodeQuoteVersion_typed in H end.
      split; [done|]. intros price asset [= <-]. by eapply decodeQuoteEconomics_typed.
    + intros. by repeat total_step.
  - intros t. unfold DecodeAcceptedQuoteV1. intros H. apply bind_Ok in H as (r & Hr & H). unfold orelse, reject in *. inv_ok.
    match goal with H : BuildAcceptedQuoteCommitment _ _ _ = Ok ?x |- _ => destruct x as [r' com]; rename H into Hb end.
    exists r, r'. split; [done|]. split; [done|]. cbn in *.
    match goal with H : negb _ = false |- _ => apply negb_false_iff, bool_decide_eq_true in H; rename H into Hh end.
    rewrite Hb. unfold commitment_of. rewrite <- Hh.
    unfold BuildAcceptedQuoteCommitment in Hb. inv_ok. done.
Qed.
End Quote.

(** ** The properties on a concrete quote *)

Module Sample.
#[local] Existing Instance sampleCells.

Definition hash (n : N) : string := repeat_byte (ascii_of_N n) 32.
Definition network : NetworkDomain :=
  {| NetworkId := "tos-main"; GenesisRootHash := sha_text (hash 1); GenesisFileHash := sha_text (hash 2) |}.
Definition raw : QuoteRaw := Build_QuoteRaw (hash 3) (hash 4) (hash 5) (hash 6) (hash 7) (hash 8) (hash 9) (hash 10) (hash 11).
Definition proposal (id : string) : QuoteProposalV1 := proposal_of raw id "1.0.0" "250000" (hash 12) 6 1800000000.
Definition signer : string := sha_text (hash 9).
Definition junk : @Cell sampleCells := TCell [true; false] [].
Definition root : Cell := match BuildAcceptedQuoteCommitment (Some network) (Some (proposal "p1")) signer with Ok (r, _) => r | _ => TCell [] [] end.

Lemma typed id : proposal_typed (proposal id).
Proof. split; [by apply u64_lit|]. by intros ? ? [= <-] [= <-]. Qed.

Lemma built id : BuildAcceptedQuoteCommitment (Some network) (Some (proposal id)) signer = Ok (root, commitment_of root).
Proof. vm_compute. reflexivity. Qed.

Lemma quote_roundtrip_witness : DecodeAcceptedQuoteV1 (Some root) (Some network) =
  Ok {| QuoteNetwork := network; Proposal := proposal ""; ExecutionSignerAuthorization := signer |}.
Proof. apply (quote_roundtrip network (proposal "p1") signer root _ (typed _) (built _)). Defined.

Lemma quote_commitment_binds_witness : without_id (proposal "p1") = without_id (proposal "p2").
Proof.
  apply (quote_commitment_binds network network (proposal "p1") (proposal "p2") signer signer root root
    (commitment_of root) (typed _) (typed _) (built _) (built _)); intros _; reflexivity.
Defined.

Lemma quote_decode_canonical_witness : no_panic (DecodeAcceptedQuoteV1 (Some junk) (Some network)) /\
  exists r r', Some root = Some r /\ Some network = Some network /\
    BuildAcceptedQuoteCommitment (Some network) (Some (proposal "")) signer = Ok (r', commitment_of r).
Proof.
  split; [apply (quote_decode_canonical (Some junk) (Some network))|].
  exact (proj2 (quote_decode_canonical (Some root) (Some network)) _
    (proj2 (quote_roundtrip network (proposal "p1") signer root _ (typed _) (built _)))).
Defined.
End Sample.
