(* ===== verification/EscrowLib.v ===== *)
(** * Addresses and wide integers in cells (tosutils-go/address, tosutils-go/tvm/cell)

    What escrow and receipt cells use of the cell library beyond [CellLib]: amounts
    of up to 256 bits, coin amounts, account addresses and the serialization of a
    cell.  [CellX] lists the operations and [CellXLaws] the documented behaviour;
    [sampleCellX] meets both. *)

From S2P Require Import Prelude Sha256 Text Base64 ChainLib CellLib Native Quote.

(** [big.Int.BitLen]. *)
Definition BitLen (v : Z) : Z := if v =? 0 then 0 else Z.log2 (Z.abs v) + 1.

Lemma BitLen_le v n : 0 <= v -> 0 <= n -> BitLen v <= n <-> v < 2 ^ n.
Proof.
  intros Hv Hn. unfold BitLen. destruct (Z.eqb_spec v 0) as [->|].
  - pose proof (Z.pow_pos_nonneg 2 n). lia.
  - rewrite Z.abs_eq, (Z.log2_lt_pow2 v n) by lia. lia.
Qed.

Lemma BitLen_bound v n : 0 <= v -> 0 <= n -> BitLen v <= n -> v < 2 ^ n.
Proof. intros Hv Hn. by apply BitLen_le. Qed.

(** ** The library *)

(** [LoadAddr] returns no address exactly when the library returns an error or a nil address. *)
Class CellX (L : CellLib) (A : AddressLib) := {
  NewAddress : Z -> Z -> string -> Address;
  StoreBigUInt : Z -> Z -> Builder -> option Builder;
  StoreCoins : Z -> Builder -> option Builder;
  StoreAddr : Address -> Builder -> option Builder;
  LoadBigUInt : Z -> Slice -> option (Z * Slice);
  LoadAddr : Slice -> option (Address * Slice);
  ToBOC : Cell -> string }.

(** A standard address of the base workchain. *)
Definition base_address `{A : AddressLib} (a : Address) (data : string) : Prop :=
  addr_is_std a = true /\ addr_Workchain a = 0 /\ addr_BitsLen a = 256 /\ addr_Data a = data /\ raw32 data.

(** Its 267 bits: the tag of a standard address, no anycast, workchain, account. *)
Definition addr_bits (data : string) : list bool := [true; false; false] ++ ubits 8 0 ++ bytes_bits data.

Lemma length_addr_bits data : raw32 data -> length (addr_bits data) = 267%nat.
Proof. unfold addr_bits, raw32. intros H. rewrite !length_app, length_ubits, length_bytes_bits, H. done. Qed.

Class CellXLaws {L : CellLib} {A : AddressLib} (X : CellX L A) (LL : CellLaws L) := {
  std_address a : addr_is_std a = true -> addr_Workchain a = 0 -> addr_BitsLen a = 256 -> base_address a (addr_Data a);
  string_raw a data : base_address a data -> addr_StringRaw a = "0:" +:+ hex_EncodeToString data;
  new_address data : raw32 data -> base_address (NewAddress 0 0 data) data;
  store_big v n b : (n <= 256)%nat -> 0 <= v < 2 ^ Z.of_nat n -> (length (b_bits b) + n <= 1023)%nat ->
    exists b', StoreBigUInt v (Z.of_nat n) b = Some b' /\ b_bits b' = b_bits b ++ ubits n v /\ b_refs b' = b_refs b;
  (* an empty amount: four bits that count no bytes *)
  store_no_coins b : (length (b_bits b) + 4 <= 1023)%nat ->
    exists b', StoreCoins 0 b = Some b' /\ b_bits b' = b_bits b ++ ubits 4 0 /\ b_refs b' = b_refs b;
  store_addr a data b : base_address a data -> (length (b_bits b) + 267 <= 1023)%nat ->
    exists b', StoreAddr a b = Some b' /\ b_bits b' = b_bits b ++ addr_bits data /\ b_refs b' = b_refs b;
  load_big n s v rest : (n <= 256)%nat -> 0 <= v < 2 ^ Z.of_nat n -> s_bits s = ubits n v ++ rest ->
    exists s', LoadBigUInt (Z.of_nat n) s = Some (v, s') /\ s_bits s' = rest /\ s_refs s' = s_refs s;
  load_big_range n s v s' : 0 <= n <= 256 -> LoadBigUInt n s = Some (v, s') -> 0 <= v < 2 ^ n;
  load_addr s data rest : raw32 data -> s_bits s = addr_bits data ++ rest ->
    exists a s', LoadAddr s = Some (a, s') /\ base_address a data /\ s_bits s' = rest /\ s_refs s' = s_refs s;
  hash_raw c : raw32 (Hash c) }.

(** The depth of a cell, which bounds the loops that follow references. *)
Class CellDepth (L : CellLib) := { Depth : Cell -> nat }.

Class CellDepthLaws {L : CellLib} (D : CellDepth L) (LL : CellLaws L) := {
  depth_ref c s c' : BeginParse c = Some s -> c' ∈ s_refs s -> (Depth c' < Depth c)%nat;
  load_slice_refs n s x s' : LoadSlice n s = Some (x, s') -> s_refs s' = s_refs s;
  load_ref_head s c s' : LoadRefCell s = Some (c, s') -> c ∈ s_refs s }.

Section Must.
Context `{X : CellX} {E : Type}.
Definition MustStoreBigUInt (v n : Z) (b : Builder) : result E Builder := must (StoreBigUInt v n b).
Definition MustStoreCoins (v : Z) (b : Builder) : result E Builder := must (StoreCoins v b).
Definition MustStoreAddr (a : Address) (b : Builder) : result E Builder := must (StoreAddr a b).
End Must.

Section Filled.
Context `{XL : CellXLaws} {E : Type}.

Lemma filled_big v n k (m : result E Builder) bits refs :
  filled m bits refs -> k = Z.of_nat n -> (n <= 256)%nat -> 0 <= v < 2 ^ Z.of_nat n -> (length bits + n <= 1023)%nat ->
  filled (m |>> MustStoreBigUInt v k) (bits ++ ubits n v) refs.
Proof using XL.
  intros (b & -> & <- & <-) -> Hn Hv Hl. destruct (store_big v n b Hn Hv Hl) as (b' & Hs & ? & ?).
  exists b'. cbn. unfold MustStoreBigUInt. by rewrite Hs.
Qed.

Lemma filled_no_coins (m : result E Builder) bits refs :
  filled m bits refs -> (length bits + 4 <= 1023)%nat -> filled (m |>> MustStoreCoins 0) (bits ++ ubits 4 0) refs.
Proof using XL.
  intros (b & -> & <- & <-) Hl. destruct (store_no_coins b Hl) as (b' & Hs & ? & ?).
  exists b'. cbn. unfold MustStoreCoins. by rewrite Hs.
Qed.

Lemma filled_addr a data (m : result E Builder) bits refs :
  filled m bits refs -> base_address a data -> (length bits + 267 <= 1023)%nat ->
  filled (m |>> MustStoreAddr a) (bits ++ addr_bits data) refs.
Proof using XL.
  intros (b & -> & <- & <-) Ha Hl. destruct (store_addr a data b Ha Hl) as (b' & Hs & ? & ?).
  exists b'. cbn. unfold MustStoreAddr. by rewrite Hs.
Qed.
End Filled.

(** ** The cell tactics, extended *)

Ltac cell_side ::=
  match goal with
  | |- ?k = Z.of_nat _ => reflexivity
  | |- (_ <= 64)%nat => lia
  | |- (_ <= 256)%nat => lia
  | |- (0 < _ <= 64)%nat => lia
  | |- base_address _ _ => eassumption
  | |- _ = 8 * slen _ =>
      unfold slen; rewrite ?hash_raw; repeat match goal with H : String.length _ = _ |- _ => rewrite H end; reflexivity
  | |- (length _ + _ <= 1023)%nat =>
      rewrite ?length_app, ?length_ubits, ?length_bytes_bits;
      repeat match goal with H : base_address _ ?d |- context[addr_bits ?d] => rewrite (length_addr_bits d) by apply H end;
      rewrite ?hash_raw; repeat match goal with H : String.length _ = _ |- _ => rewrite H end; cbn [length]; lia
  | |- (length _ + 1 <= 4)%nat => cbn [length app]; lia
  | |- 0 <= _ < 2 ^ _ => first [ assumption | split; [reflexivity || discriminate|reflexivity] | lia ]
  end.

Ltac fill ::=
  lazymatch goal with
  | |- filled begin_cell _ _ => apply filled_begin
  | |- filled (mbind (MustStoreUInt ?v ?k) _) _ _ =>
      let n := eval vm_compute in (Z.to_nat k) in eapply (filled_uint v n k); [fill|cell_side|cell_side|cell_side|cell_side]
  | |- filled (mbind (MustStoreInt ?v ?k) _) _ _ =>
      let n := eval vm_compute in (Z.to_nat k) in eapply (filled_int v n k); [fill|cell_side|cell_side|cell_side|cell_side]
  | |- filled (mbind (MustStoreBigUInt ?v ?k) _) _ _ =>
      let n := eval vm_compute in (Z.to_nat k) in eapply (filled_big v n k); [fill|cell_side|cell_side|cell_side|cell_side]
  | |- filled (mbind (MustStoreSlice _ _) _) _ _ => eapply filled_slice; [fill|cell_side|cell_side]
  | |- filled (mbind (MustStoreBoolBit _) _) _ _ => eapply filled_bool; [fill|cell_side]
  | |- filled (mbind (MustStoreRef _) _) _ _ => eapply filled_ref; [fill|cell_side]
  | |- filled (mbind (MustStoreCoins 0) _) _ _ => eapply filled_no_coins; [fill|cell_side]
  | |- filled (mbind (MustStoreAddr _) _) _ _ => eapply filled_addr; [fill|cell_side|cell_side]
  | |- filled (?f BeginCell) ?b ?r => change (filled (mbind f begin_cell) b r); fill
  end.

(** Loads of the extended library, on a slice whose bits are known. *)
Ltac load1x :=
  match goal with
  | Hb : s_bits ?s = ubits ?k ?v ++ ?rest |- context[LoadBigUInt ?n ?s] =>
      let s' := fresh "s" in let E := fresh "E" in let Hb' := fresh "Hb" in let Hr' := fresh "Hr" in
      destruct (load_big k s v rest ltac:(lia) ltac:(cell_side) Hb) as (s' & E & Hb' & Hr');
      change (Z.of_nat k) with n in E; rewrite E; clear E; settle s
  | Hd : raw32 ?d, Hb : s_bits ?s = addr_bits ?d ++ ?rest |- context[LoadAddr ?s] =>
      let s' := fresh "s" in let a := fresh "a" in let E := fresh "E" in let Ha := fresh "Ha" in
      let Hb' := fresh "Hb" in let Hr' := fresh "Hr" in
      destruct (load_addr s d rest Hd Hb) as (a & s' & E & Ha & Hb' & Hr'); rewrite E; clear E; settle s
  | _ => load1
  end.

(** Runs a decoder on a cell of known content, load by load. *)
Ltac run_loads :=
  repeat first [ progress cbn [orelse opt_err or_err reject fail_if mbind result_bind fst snd negb orb andb]
               | load1x
               | rewrite endOf_empty by congruence ].
Ltac parse_cell :=
  match goal with H : holds ?c _ _ |- context[BeginParse ?c] =>
    let s := fresh "s" in let Hb := fresh "Hb" in let Hr := fresh "Hr" in
    destruct H as (s & -> & Hb & Hr); rewrite <- ?app_assoc in Hb; cbn [app] in Hr
  end; run_loads.

(** Replaces the integer tests that arithmetic decides. *)
Ltac tests :=
  repeat match goal with
  | |- context[?a =? ?b] => first [replace (a =? b) with true by lia | replace (a =? b) with false by lia]
  | |- context[?a <? ?b] => first [replace (a <? b) with true by lia | replace (a <? b) with false by lia]
  | |- context[?a <=? ?b] => first [replace (a <=? b) with true by lia | replace (a <=? b) with false by lia]
  end.

(** What is known of a standard address, used everywhere. *)
Ltac base_addrs :=
  repeat match goal with
  | H : base_address ?a ?d |- _ =>
      rewrite ?(proj1 H : addr_is_std a = true), ?(proj1 (proj2 H) : addr_Workchain a = 0), ?(string_raw a d H); clear H
  end.

(** Boolean guards that did not fire. *)
Ltac guards :=
  repeat match goal with
  | H : _ || _ = false |- _ => apply orb_false_iff in H as [? ?]
  | H : negb _ = false |- _ => apply negb_false_iff in H
  | H : (_ =? _) = true |- _ => apply Z.eqb_eq in H
  | H : (_ =? _) = false |- _ => apply Z.eqb_neq in H
  | H : (_ <? _) = false |- _ => apply Z.ltb_ge in H
  | H : (_ <=? _) = false |- _ => apply Z.leb_gt in H
  | H : is_zero32 _ = false |- _ => apply bool_decide_eq_false in H
  | H : bool_decide _ = true |- _ => apply bool_decide_eq_true in H
  end.

(** The first reference of a cell built in sequence, with any field of the extended library. *)
Ltac built_nextx c H :=
  match goal with |- context[mbind _ (end_cell ?m)] => build_cell m ltac:(idtac; fill) c H end; cbn [mbind result_bind].

(** [base64.StdEncoding]. *)
Definition StdEncoding (s : string) : string :=
  of_bytes ((fun n => if n =? 62 then 43 else if n =? 63 then 47 else b64_char n) <$> sextets (bytes_of s)) +:+
  repeat_byte "=" (Z.to_nat ((- slen s) mod 3)).

(** [digestString]. *)
Definition digestString (value : string) : string := "tvm-cell-sha256:" +:+ hex_EncodeToString value.

Lemma digestString_inj a b : digestString a = digestString b -> a = b.
Proof. unfold digestString. intros H. apply app_inj_len in H as [_ H]; [|done]. by apply hex_encode_inj. Qed.

Lemma load_slice32 `{LL : CellLaws} s x s' : LoadSlice 256 s = Some (x, s') -> raw32 x.
Proof. intros H. apply load_slice_length in H; [|done..]. apply raw32_slen. lia. Qed.

(** ** A library that meets the interface *)

(** An address is a workchain and an account. *)
Definition rawAddressLib : AddressLib := {|
  Address := Z * string;
  ParseRawAddr s :=
    if HasPrefix s "0:" then
      raw ← hex_DecodeString (drop_bytes 2 s); if slen raw =? 32 then Some (0, raw) else None
    else None;
  addr_is_std _ := true;
  addr_BitsLen a := 8 * slen a.2;
  addr_Workchain a := a.1;
  addr_Data a := a.2;
  addr_StringRaw a := FormatZ a.1 +:+ ":" +:+ hex_EncodeToString a.2 |}.

Definition t_addr (s : tcontent) : option ((Z * string) * tcontent) :=
  match t_load 267 s with
  | Some (true :: false :: false :: l, s) => Some ((sval (take 8 l), bits_bytes (drop 8 l)), s)
  | _ => None
  end.

Definition sampleCellX : CellX sampleCells rawAddressLib :=
  @Build_CellX sampleCells rawAddressLib
    (fun _ wc data => (wc, data))
    (fun v n b => t_append (ubits (Z.to_nat n) v) b)
    (fun v b => if v =? 0 then t_append (ubits 4 0) b else None)
    (fun a b => t_append ([true; false; false] ++ ubits 8 a.1 ++ bytes_bits a.2) b)
    (fun n s => (fun '(l, s) => (uval l, s)) <$> t_load n s)
    t_addr
    (fun c => match c with TCell bits _ => bits_bytes (pad_bits bits) end).

#[global] Instance sampleCellX_laws : CellXLaws sampleCellX sampleCells_laws.
Proof.
  split; cbn -[uval bits_bytes hex_EncodeToString ubits addr_bits length app t_addr].
  - intros [wc data] _ ? Hl. cbn in *. unfold base_address. cbn. split_and!; try done. apply raw32_slen. lia.
  - intros [wc data'] data (_ & Hw & _ & Hd & _). cbn in *. by subst.
  - intros data Hd. unfold base_address. cbn. split_and!; try done. unfold slen. by rewrite Hd.
  - intros v n b _ _ Hl. rewrite Nat2Z.id, t_append_fits by (rewrite length_ubits; lia). eauto.
  - intros b Hl. rewrite t_append_fits by (rewrite length_ubits; lia). eauto.
  - intros [wc data'] data b (_ & Hw & _ & Hd & Hr) Hl. cbn in *. subst.
    exists (b.1 ++ addr_bits data, b.2). split; [|done].
    apply t_append_fits. change (length b.1 + length (addr_bits data) <= 1023)%nat. by rewrite length_addr_bits.
  - intros n s v rest _ Hv Hs. rewrite (t_load_app _ _ (ubits n v) rest) by (rewrite ?length_ubits; done || lia).
    cbn -[uval]. rewrite uval_ubits by done. eauto.
  - intros n s v s' Hn Hl. unfold t_load in Hl. destruct (decide _) as [Hd|]; [|done]. cbn -[uval] in Hl. injection Hl as <- _.
    pose proof (uval_range (take (Z.to_nat n) s.1)) as H. rewrite length_take, Nat.min_l, Z2Nat.id in H by lia. done.
  - intros s data rest Hr Hs. unfold t_addr.
    rewrite (t_load_app 267 s (addr_bits data) rest) by (rewrite ?length_addr_bits; done).
    unfold addr_bits. cbn [app]. rewrite take_app_length', drop_app_length' by (by rewrite length_ubits).
    rewrite bits_bytes_bits. eexists _, _. split; [done|]. split; [|done]. unfold base_address. cbn.
    split_and!; try done. unfold slen. by rewrite Hr.
  - intros [bits refs]. apply raw32_slen, Sum256_length.
Defined.

Fixpoint tcell_depth (c : tcell) : nat :=
  match c with TCell _ refs => S (foldr Nat.max O (map tcell_depth refs)) end.
Definition sampleDepth : CellDepth sampleCells := @Build_CellDepth sampleCells tcell_depth.

#[global] Instance sampleDepth_laws : CellDepthLaws sampleDepth sampleCells_laws.
Proof.
  split; cbn -[bits_bytes].
  - intros [bits refs] s c' [= <-]. cbn. clear bits. induction 1 as [c refs|c c0 refs _ IH]; cbn; lia.
  - intros n [bits refs] x s'. unfold t_load. destruct (decide _); [|done]. by intros [= _ <-].
  - intros [bits [|c0 refs]] c s'; [done|]. intros [= <- _]. by left.
Qed.
