(* ===== verification/Receipt.v ===== *)
(** * Execution receipts and settlement messages (src/pkg/nativecore/receipt.go)

    The evidence a provider produces for a finished execution is a tree of five
    cells; the message that releases an escrow carries it, and the buyer signs a
    settlement intent over its hash. *)

From S2P Require Import Prelude Sha256 ChainLib CellLib Native Quote EscrowLib.

(** ** Data *)

Definition softwareWorkReceiptMagic : Z := 0x4e575231.
Definition settlementIntentMagic : Z := 0x4e534931.
Definition softwareWorkReceiptSchema : Z := 1.
Definition EscrowReleaseOpcode : Z := 0x4e450001.
Definition EscrowRefundOpcode : Z := 0x4e450002.

Record SoftwareWorkReceiptV1 := {
  QuoteCommitment : string;
  ExecutionID : string;
  InputDigest : string;
  ResultDigest : string;
  ArtifactDigest : string;
  ReportDigest : string;
  SourceDigest : string;
  ToolchainDigest : string;
  SandboxDigest : string;
  ChargedAtomicAmount : string;
  ProviderAgentID : string;
  CompletedAt : Z;
  ExitCode : Z }.

(** The byte strings behind the texts of a receipt. *)
Record ReceiptRaw := {
  w_quote : string; w_execution : string; w_input : string; w_result : string; w_artifact : string; w_report : string;
  w_source : string; w_toolchain : string; w_sandbox : string; w_provider : string }.

(** ** Building *)

Definition receiptDigest (value prefix name : string) : nresult string :=
  let invalid := ("invalid Receipt " +:+ name)%string in
  decoded ← or_err (digestBytes value prefix false) (PlainError invalid);
  reject (is_zero32 decoded) invalid;;
  Ok decoded.

Section Receipt.
Context `{X : CellX}.

Definition digests3 (a b c : string) : nresult Cell :=
  end_cell (begin_cell |>> MustStoreSlice a 256 |>> MustStoreSlice b 256 |>> MustStoreSlice c 256).

(** The five cells, from the validated parts. *)
Definition receiptCells (w : ReceiptRaw) (charged completed exitCode : Z) : nresult Cell :=
  binding ← digests3 (w_quote w) (w_execution w) (w_input w);
  outcome ← digests3 (w_result w) (w_artifact w) (w_report w);
  evidence ← digests3 (w_source w) (w_toolchain w) (w_sandbox w);
  economic ← end_cell (begin_cell |>> MustStoreBigUInt charged 128 |>> MustStoreSlice (w_provider w) 256);
  end_cell (begin_cell |>> MustStoreUInt softwareWorkReceiptMagic 32 |>> MustStoreUInt softwareWorkReceiptSchema 16
              |>> MustStoreUInt completed 64 |>> MustStoreInt exitCode 32 |>> MustStoreRef binding
              |>> MustStoreRef outcome |>> MustStoreRef evidence |>> MustStoreRef economic).

Definition BuildSoftwareWorkReceiptCellV1 (value : SoftwareWorkReceiptV1) : nresult (Cell * string) :=
  quote ← receiptDigest (QuoteCommitment value) "tvm-cell-sha256:" "Quote commitment";
  execution ← receiptDigest (ExecutionID value) "sha256:" "execution ID";
  input ← receiptDigest (InputDigest value) "sha256:" "input digest";
  result_ ← receiptDigest (ResultDigest value) "sha256:" "result digest";
  artifact ← receiptDigest (ArtifactDigest value) "sha256:" "artifact digest";
  report ← receiptDigest (ReportDigest value) "sha256:" "report digest";
  source ← receiptDigest (SourceDigest value) "sha256:" "source digest";
  toolchain ← receiptDigest (ToolchainDigest value) "sha256:" "toolchain digest";
  sandbox ← receiptDigest (SandboxDigest value) "sha256:" "sandbox digest";
  provider ← object_of_kind (ProviderAgentID value) 1 "invalid Receipt provider Agent";
  charged ← orelse (SetString10 (ChargedAtomicAmount value)) "invalid Receipt charged amount";
  reject (negb (atomicAmountPattern (ChargedAtomicAmount value)) || (charged <=? 0) || (120 <? BitLen charged))
    "invalid Receipt charged amount";;
  reject ((CompletedAt value =? 0) || negb (ExitCode value =? 0)) "Receipt is not a successful completed execution";;
  root ← receiptCells (Build_ReceiptRaw quote execution input result_ artifact report source toolchain sandbox provider)
           charged (CompletedAt value) (ExitCode value);
  Ok (root, digestString (Hash root)).

(** ** Decoding *)

Record ReceiptRoot := {
  rr_completed : Z; rr_exitCode : Z; rr_binding : Cell; rr_outcome : Cell; rr_evidence : Cell; rr_economic : Cell }.

Definition decodeReceiptRoot (root : Cell) : nresult ReceiptRoot :=
  s ← orelse (BeginParse root) "invalid Receipt cell";
  magic ← orelse (LoadUInt 32 s) "invalid Receipt magic";
  reject (negb (magic.1 =? softwareWorkReceiptMagic)) "invalid Receipt magic";;
  schema ← orelse (LoadUInt 16 magic.2) "unsupported Receipt schema";
  reject (negb (schema.1 =? softwareWorkReceiptSchema)) "unsupported Receipt schema";;
  completed ← orelse (LoadUInt 64 schema.2) "invalid Receipt completion time";
  reject (completed.1 =? 0) "invalid Receipt completion time";;
  exitCode ← orelse (LoadInt 32 completed.2) "Receipt execution did not succeed";
  reject (negb (exitCode.1 =? 0)) "Receipt execution did not succeed";;
  binding ← orelse (LoadRefCell exitCode.2) "missing Receipt binding";
  outcome ← orelse (LoadRefCell binding.2) "missing Receipt outcome";
  evidence ← orelse (LoadRefCell outcome.2) "missing Receipt evidence";
  economic ← orelse (LoadRefCell evidence.2) "invalid Receipt root shape";
  endOf economic.2 "invalid Receipt root shape";;
  Ok {| rr_completed := completed.1; rr_exitCode := exitCode.1; rr_binding := binding.1; rr_outcome := outcome.1;
        rr_evidence := evidence.1; rr_economic := economic.1 |}.

(** Three digests and nothing else, with the messages of the cell, of its first two fields and of its shape. *)
Definition decodeDigests3 (c : Cell) (cellMsg first second shape : string) : nresult (string * string * string) :=
  s ← orelse (BeginParse c) cellMsg;
  a ← orelse (LoadSlice 256 s) first;
  b ← orelse (LoadSlice 256 a.2) second;
  d ← orelse (LoadSlice 256 b.2) shape;
  endOf d.2 shape;;
  Ok (a.1, b.1, d.1).

Definition decodeReceiptEconomic (economic : Cell) : nresult (Z * string) :=
  ec ← orelse (BeginParse economic) "invalid Receipt economics";
  charged ← orelse (LoadBigUInt 128 ec) "invalid Receipt charge";
  reject (charged.1 <=? 0) "invalid Receipt charge";;
  provider ← orelse (LoadSlice 256 charged.2) "invalid Receipt economic shape";
  endOf provider.2 "invalid Receipt economic shape";;
  Ok (charged.1, provider.1).

Definition DecodeSoftwareWorkReceiptCellV1 (root : option Cell) : nresult SoftwareWorkReceiptV1 :=
  root ← orelse root "missing Receipt";
  r ← decodeReceiptRoot root;
  '(quote, execution, input) ← decodeDigests3 (rr_binding r) "invalid Receipt binding" "invalid Receipt Quote"
    "invalid Receipt execution" "invalid Receipt binding shape";
  '(result_, artifact, report) ← decodeDigests3 (rr_outcome r) "invalid Receipt outcome" "invalid Receipt result"
    "invalid Receipt artifact" "invalid Receipt outcome shape";
  '(source, toolchain, sandbox) ← decodeDigests3 (rr_evidence r) "invalid Receipt evidence" "invalid Receipt source"
    "invalid Receipt toolchain" "invalid Receipt evidence shape";
  '(charged, provider) ← decodeReceiptEconomic (rr_economic r);
  reject (existsb is_zero32 [quote; execution; input; result_; artifact; report; source; toolchain; sandbox; provider])
    "Receipt contains a zero digest";;
  Ok {| QuoteCommitment := digestString quote; ExecutionID := sha_text execution; InputDigest := sha_text input;
        ResultDigest := sha_text result_; ArtifactDigest := sha_text artifact; ReportDigest := sha_text report;
        SourceDigest := sha_text source; ToolchainDigest := sha_text toolchain; SandboxDigest := sha_text sandbox;
        ChargedAtomicAmount := FormatZ charged; ProviderAgentID := "agent_" +:+ hex_EncodeToString provider;
        CompletedAt := rr_completed r; ExitCode := rr_exitCode r |}.

(** ** Escrow messages *)

Definition escrowAddress (value : string) : nresult Address :=
  let invalid := "escrow addresses must be canonical raw addr_std values"%string in
  parsed ← orelse (ParseRawAddr value) invalid;
  reject (negb (addr_is_std parsed) || negb (addr_BitsLen parsed =? 256) || negb (addr_Workchain parsed =? 0) ||
          negb (bool_decide (addr_StringRaw parsed = value))) invalid;;
  Ok parsed.

Definition BuildEscrowSettlementIntentV1 (escrowAccount : string) (quote receipt : option Cell) (charged : option Z)
    (queryID : Z) : nresult Cell :=
  let invalid := "invalid escrow settlement intent"%string in
  escrow ← or_err (escrowAddress escrowAccount) (PlainError invalid);
  quote ← orelse quote invalid;
  receipt ← orelse receipt invalid;
  charged ← orelse charged invalid;
  reject ((charged <=? 0) || (120 <? BitLen charged) || (queryID =? 0)) invalid;;
  end_cell (begin_cell |>> MustStoreUInt settlementIntentMagic 32 |>> MustStoreUInt softwareWorkReceiptSchema 16
              |>> MustStoreUInt queryID 64 |>> MustStoreBigUInt charged 128 |>> MustStoreAddr escrow
              |>> MustStoreSlice (Hash quote) 256 |>> MustStoreSlice (Hash receipt) 256).

Definition BuildEscrowReleaseBodyV1 (queryID : Z) (receipt : option Cell) (signature : string) : nresult Cell :=
  let invalid := "invalid escrow release message"%string in
  reject (queryID =? 0) invalid;;
  receipt ← orelse receipt invalid;
  reject (negb (slen signature =? 64)) invalid;;
  end_cell (begin_cell |>> MustStoreUInt EscrowReleaseOpcode 32 |>> MustStoreUInt queryID 64 |>> MustStoreSlice signature 512
              |>> MustStoreRef receipt).

Definition BuildEscrowRefundBodyV1 (queryID : Z) : nresult Cell :=
  reject ((queryID =? 0) || (queryID =? two64 - 1)) "invalid escrow refund query ID";;
  end_cell (begin_cell |>> MustStoreUInt EscrowRefundOpcode 32 |>> MustStoreUInt queryID 64).

(** ** What the cells hold *)

Context {LL : CellLaws L} {XL : CellXLaws X LL}.

Lemma escrowAddress_Ok value a : escrowAddress value = Ok a ->
  exists data, base_address a data /\ value = "0:" +:+ hex_EncodeToString data.
Proof using XL.
  unfold escrowAddress, reject, orelse. intros H. inv_ok. guards.
  exists (addr_Data a). assert (base_address a (addr_Data a)) as Ha by (by apply std_address).
  split; [done|]. by rewrite <- (string_raw a).
Qed.

Lemma receiptDigest_Ok value prefix name raw :
  receiptDigest value prefix name = Ok raw <-> value = prefix +:+ hex_EncodeToString raw /\ digest32 raw.
Proof using.
  unfold receiptDigest, reject. split.
  - intros H. inv_ok. by apply digest_Ok.
  - intros [Hv Hd]. rewrite (proj2 (digest_Ok _ _ raw) (conj Hv Hd)). cbn. unfold is_zero32.
    by rewrite bool_decide_false by apply Hd.
Qed.

Lemma digests3_holds a b c : raw32 a -> raw32 b -> raw32 c ->
  exists r, digests3 a b c = Ok r /\ holds r (bytes_bits a ++ bytes_bits b ++ bytes_bits c) [].
Proof using LL. unfold raw32, digests3. intros. built r H'. by exists r. Qed.

Lemma decodeDigests3_holds r a b c m0 m1 m2 m3 :
  holds r (bytes_bits a ++ bytes_bits b ++ bytes_bits c) [] -> raw32 a -> raw32 b -> raw32 c ->
  decodeDigests3 r m0 m1 m2 m3 = Ok (a, b, c).
Proof using LL. unfold raw32. intros H'%holds_tail ? ? ?. unfold decodeDigests3. by parse_cell. Qed.

Lemma decodeDigests3_raw r m0 m1 m2 m3 a b c :
  decodeDigests3 r m0 m1 m2 m3 = Ok (a, b, c) -> raw32 a /\ raw32 b /\ raw32 c.
Proof using LL.
  unfold decodeDigests3, orelse. intros H. inv_ok.
  repeat match goal with H : LoadSlice 256 _ = Some ?x |- _ => destruct x; apply load_slice32 in H; cbn end. done.
Qed.

(** ** A valid receipt *)

Definition raws (w : ReceiptRaw) : list string :=
  [w_quote w; w_execution w; w_input w; w_result w; w_artifact w; w_report w; w_source w; w_toolchain w; w_sandbox w;
   w_provider w].

Definition receipt_of (w : ReceiptRaw) (charged completed : Z) : SoftwareWorkReceiptV1 :=
  {| QuoteCommitment := digestString (w_quote w); ExecutionID := sha_text (w_execution w);
     InputDigest := sha_text (w_input w); ResultDigest := sha_text (w_result w);
     ArtifactDigest := sha_text (w_artifact w); ReportDigest := sha_text (w_report w);
     SourceDigest := sha_text (w_source w); ToolchainDigest := sha_text (w_toolchain w);
     SandboxDigest := sha_text (w_sandbox w); ChargedAtomicAmount := FormatZ charged;
     ProviderAgentID := "agent_" +:+ hex_EncodeToString (w_provider w); CompletedAt := completed; ExitCode := 0 |}.

Lemma amount_of_text text v : SetString10 text = Some v -> atomicAmountPattern text = true -> 0 <= v /\ text = FormatZ v.
Proof using.
  intros Hs (n & _ & <-)%canonical_decimal_FormatN.
  rewrite SetString10_FormatN in Hs. injection Hs as <-. rewrite FormatZ_of_N. split; [lia|done].
Qed.

Lemma text_of_amount v : 0 <= v -> SetString10 (FormatZ v) = Some v /\ atomicAmountPattern (FormatZ v) = true.
Proof using.
  intros Hv. rewrite <- (Z2N.id v Hv), FormatZ_of_N. split; [apply SetString10_FormatN|apply FormatN_canonical].
Qed.

#[local] Arguments receiptCells : simpl never.

(** What the encoder accepts: nonzero digests, an amount of at most 120 bits, a completion
    time and a zero exit code. *)
Lemma build_receipt_Ok v r : BuildSoftwareWorkReceiptCellV1 v = Ok r <->
  exists w charged root, v = receipt_of w charged (CompletedAt v) /\ Forall digest32 (raws w) /\
    0 < charged /\ BitLen charged <= 120 /\ CompletedAt v <> 0 /\
    receiptCells w charged (CompletedAt v) 0 = Ok root /\ r = (root, digestString (Hash root)).
Proof using.
  unfold BuildSoftwareWorkReceiptCellV1, reject, orelse. split.
  - intros H. inv_ok. guards.
    repeat match goal with
    | H : receiptDigest _ _ _ = Ok _ |- _ => apply receiptDigest_Ok in H as [? ?]
    | H : object_of_kind _ _ _ = Ok _ |- _ => apply object_of_kind_Ok in H as [? ?]; [|lia]
    | H : SetString10 _ = Some _, Hp : atomicAmountPattern _ = true |- _ => destruct (amount_of_text _ _ H Hp); clear H Hp
    end.
    match goal with H : receiptCells ?w ?c _ _ = Ok ?root |- _ => exists w, c, root end.
    destruct v. cbn [QuoteCommitment ExecutionID InputDigest ResultDigest ArtifactDigest ReportDigest SourceDigest
      ToolchainDigest SandboxDigest ChargedAtomicAmount ProviderAgentID CompletedAt ExitCode] in *. subst.
    split; [done|]. split; [by repeat apply Forall_cons_2|]. done.
  - intros (w & charged & root & -> & Hw & Hc & Hb & Ht & Hr & ->). unfold raws in Hw. rewrite !Forall_cons in Hw.
    destruct Hw as (? & ? & ? & ? & ? & ? & ? & ? & ? & ? & _), w. cbn in *.
    repeat match goal with H : digest32 ?x |- context[receiptDigest (?p ?x)] =>
      rewrite (proj2 (receiptDigest_Ok (p x) _ _ x) (conj eq_refl H)); cbn [mbind result_bind]; clear H end.
    match goal with H : digest32 ?x |- _ =>
      rewrite (proj2 (object_of_kind_Ok _ 1 _ x (or_introl eq_refl)) (conj eq_refl H)) end. cbn [mbind result_bind].
    destruct (text_of_amount charged) as [-> ->]; [lia|]. cbn.
    replace (charged <=? 0) with false by lia. replace (120 <? BitLen charged) with false by lia.
    replace (CompletedAt v =? 0) with false by lia. cbn. by rewrite Hr.
Qed.

Record receipt_layout (root : Cell) (w : ReceiptRaw) (charged completed : Z) : Prop := {
  rl_cells : exists binding outcome evidence economic,
    holds root (ubits 32 softwareWorkReceiptMagic ++ ubits 16 softwareWorkReceiptSchema ++ ubits 64 completed ++ ubits 32 0)
      [binding; outcome; evidence; economic] /\
    holds binding (bytes_bits (w_quote w) ++ bytes_bits (w_execution w) ++ bytes_bits (w_input w)) [] /\
    holds outcome (bytes_bits (w_result w) ++ bytes_bits (w_artifact w) ++ bytes_bits (w_report w)) [] /\
    holds evidence (bytes_bits (w_source w) ++ bytes_bits (w_toolchain w) ++ bytes_bits (w_sandbox w)) [] /\
    holds economic (ubits 128 charged ++ bytes_bits (w_provider w)) [] }.

Lemma receiptCells_layout w charged completed :
  Forall raw32 (raws w) -> 0 <= charged < 2 ^ 128 -> u64 completed ->
  exists root, receiptCells w charged completed 0 = Ok root /\ receipt_layout root w charged completed.
Proof using LL XL.
  unfold raws, u64. rewrite !Forall_cons. intros (? & ? & ? & ? & ? & ? & ? & ? & ? & ? & _) Hc Ht. unfold receiptCells.
  destruct (digests3_holds (w_quote w) (w_execution w) (w_input w)) as (bi & -> & ?); [done..|].
  destruct (digests3_holds (w_result w) (w_artifact w) (w_report w)) as (ou & -> & ?); [done..|].
  destruct (digests3_holds (w_source w) (w_toolchain w) (w_sandbox w)) as (ev & -> & ?); [done..|].
  cbn [mbind result_bind]. unfold raw32 in *. built_nextx ec He. built root Hr. exists root. split; [done|].
  split. by exists bi, ou, ev, ec.
Qed.

Lemma decode_receipt_layout root w charged completed :
  receipt_layout root w charged completed -> Forall digest32 (raws w) -> 0 < charged < 2 ^ 128 -> u64 completed ->
  completed <> 0 -> DecodeSoftwareWorkReceiptCellV1 (Some root) = Ok (receipt_of w charged completed).
Proof using LL XL.
  intros [(bi & ou & ev & ec & Hr%holds_tail & Hb & Ho & He & Hec%holds_tail)] Hw Hc Hu Ht.
  unfold raws in Hw. rewrite !Forall_cons in Hw. unfold digest32, raw32 in Hw.
  destruct Hw as ([? ?] & [? ?] & [? ?] & [? ?] & [? ?] & [? ?] & [? ?] & [? ?] & [? ?] & [? ?] & _).
  unfold DecodeSoftwareWorkReceiptCellV1. cbn [orelse opt_err mbind result_bind].
  assert (decodeReceiptRoot root = Ok {| rr_completed := completed; rr_exitCode := 0; rr_binding := bi; rr_outcome := ou;
            rr_evidence := ev; rr_economic := ec |}) as ->.
  { unfold decodeReceiptRoot, u64 in *. parse_cell. replace (completed =? 0) with false by lia. run_loads. done. }
  cbn [mbind result_bind rr_binding rr_outcome rr_evidence rr_economic rr_completed rr_exitCode].
  rewrite (decodeDigests3_holds _ _ _ _ _ _ _ _ Hb), (decodeDigests3_holds _ _ _ _ _ _ _ _ Ho),
    (decodeDigests3_holds _ _ _ _ _ _ _ _ He) by done. cbn [mbind result_bind].
  assert (decodeReceiptEconomic ec = Ok (charged, w_provider w)) as ->.
  { unfold decodeReceiptEconomic. parse_cell. replace (charged <=? 0) with false by lia. by run_loads. }
  cbn [mbind result_bind existsb]. unfold is_zero32. by rewrite !bool_decide_false by done.
Qed.

Lemma decodeReceiptRoot_inv root r : decodeReceiptRoot root = Ok r -> u64 (rr_completed r) /\ rr_completed r <> 0 /\ rr_exitCode r = 0.
Proof using LL.
  unfold decodeReceiptRoot, reject, orelse. intros H. inv_ok. guards.
  match goal with H : LoadUInt 64 _ = Some ?x |- _ => destruct x as [e s]; by apply load_uint_range in H end.
Qed.

Lemma decodeReceiptEconomic_inv c charged provider :
  decodeReceiptEconomic c = Ok (charged, provider) -> 0 < charged < 2 ^ 128 /\ raw32 provider.
Proof using LL XL.
  unfold decodeReceiptEconomic, reject, orelse. intros H. inv_ok. guards.
  repeat match goal with
  | H : LoadBigUInt 128 _ = Some ?x |- _ => destruct x; apply load_big_range in H; [|done]
  | H : LoadSlice 256 _ = Some ?x |- _ => destruct x; apply load_slice32 in H
  end. cbn [fst snd] in *. simplify_eq/=. split; [lia|done].
Qed.

(** What the decoder returns. *)
Lemma decode_receipt_inv root v : DecodeSoftwareWorkReceiptCellV1 root = Ok v ->
  exists w charged, v = receipt_of w charged (CompletedAt v) /\ Forall digest32 (raws w) /\ 0 < charged < 2 ^ 128 /\
    u64 (CompletedAt v) /\ CompletedAt v <> 0.
Proof using LL XL.
  unfold DecodeSoftwareWorkReceiptCellV1, reject, orelse. intros H.
  repeat match goal with
  | H : mbind _ _ = Ok _ |- _ => apply bind_Ok in H; destruct H as (? & ? & H)
  | H : (let '(_, _) := ?p in _) = Ok _ |- _ => destruct p
  end. inv_ok.
  repeat match goal with
  | H : decodeReceiptRoot _ = Ok _ |- _ => apply decodeReceiptRoot_inv in H as (? & ? & Hx)
  | H : decodeDigests3 _ _ _ _ _ = Ok _ |- _ => apply decodeDigests3_raw in H as (? & ? & ?)
  | H : decodeReceiptEconomic _ = Ok _ |- _ => apply decodeReceiptEconomic_inv in H as [? ?]
  end. guards.
  match goal with |- context[Build_SoftwareWorkReceiptV1 (digestString ?q) (sha_text ?e) (sha_text ?i) (sha_text ?r) (sha_text ?a)
      (sha_text ?p) (sha_text ?s) (sha_text ?t) (sha_text ?b) (FormatZ ?c) (_ +:+ hex_EncodeToString ?g)] =>
    exists (Build_ReceiptRaw q e i r a p s t b g), c end.
  split; [unfold receipt_of; cbn; by rewrite Hx|]. split; [by repeat apply Forall_cons_2|done].
Qed.

(** ** Totality *)

Lemma decodeReceipt_no_panic root : no_panic (DecodeSoftwareWorkReceiptCellV1 root).
Proof using.
  unfold DecodeSoftwareWorkReceiptCellV1, decodeReceiptRoot, decodeDigests3, decodeReceiptEconomic, endOf, orelse, reject.
  solve_total.
Qed.

Lemma receiptDigest_no_panic value prefix name : no_panic (receiptDigest value prefix name).
Proof using. unfold receiptDigest. by repeat total_step. Qed.
#[local] Hint Resolve receiptDigest_no_panic object_of_kind_no_panic : no_panic.

Lemma build_receipt_no_panic v : u64 (CompletedAt v) -> no_panic (BuildSoftwareWorkReceiptCellV1 v).
Proof using LL XL.
  intros Hu. unfold BuildSoftwareWorkReceiptCellV1, orelse, reject.
  repeat total_step.
  inv_ok. guards.
  repeat match goal with
  | H : receiptDigest _ _ _ = Ok _ |- _ => apply receiptDigest_Ok in H as [_ [? _]]
  | H : object_of_kind _ _ _ = Ok _ |- _ => apply object_of_kind_Ok in H as [_ [? _]]; [|lia]
  | H : ExitCode v = 0 |- _ => rewrite H; clear H
  end.
  match goal with |- no_panic (receiptCells ?w ?c ?t 0) => assert (c < 2 ^ 120) by (apply BitLen_bound; lia);
    destruct (receiptCells_layout w c t) as (r & -> & _); [by repeat apply Forall_cons_2|lia|done|done] end.
Qed.

(** ** Properties *)

(** A receipt can be read back from its evidence cell.  When the encoder accepts a
    receipt, the commitment it returns is the hash of the root cell, and decoding that cell
    gives the receipt that was encoded, field by field; and the encoder returns a cell or an
    error for every receipt, never overflowing a cell. *)
Theorem receipt_roundtrip v :
  u64 (CompletedAt v) ->
  no_panic (BuildSoftwareWorkReceiptCellV1 v) /\
  (forall root com, BuildSoftwareWorkReceiptCellV1 v = Ok (root, com) ->
     com = digestString (Hash root) /\ DecodeSoftwareWorkReceiptCellV1 (Some root) = Ok v).
Proof using LL XL.
  intros Hu. split.
  - by apply build_receipt_no_panic.
  - intros root com (w & charged & r & Hv & Hw & Hc & Hb & Ht & Hr & [= -> ->])%build_receipt_Ok. split; [done|].
    assert (charged < 2 ^ 120) by (apply BitLen_bound; lia).
    destruct (receiptCells_layout w charged (CompletedAt v)) as (r' & Hr' & Hl); [|lia|done|].
    { eapply Forall_impl; [exact Hw|]. by intros ? []. }
    rewrite Hr in Hr'. injection Hr' as <-. rewrite Hv. apply decode_receipt_layout; try done. lia.
Qed.

(** The decoder takes larger charges than the encoder.  A cell that decodes holds a
    positive charge below 2^128, and the decoded receipt can be encoded again exactly when
    its charge is below 2^120: every other check of the encoder is one the decoder makes. *)
Theorem receipt_decode_charge root v :
  DecodeSoftwareWorkReceiptCellV1 root = Ok v ->
  exists charged, ChargedAtomicAmount v = FormatZ charged /\ 0 < charged < 2 ^ 128 /\
    ((exists r, BuildSoftwareWorkReceiptCellV1 v = Ok r) <-> charged < 2 ^ 120).
Proof using LL XL.
  intros (w & charged & Hv & Hw & Hc & Hu & Ht)%decode_receipt_inv. exists charged.
  split; [by rewrite Hv|]. split; [done|]. split.
  - intros (r & (w' & c' & root' & Hv' & _ & Hc' & Hb & _)%build_receipt_Ok).
    assert (FormatZ charged = FormatZ c') as E%(f_equal SetString10) by (rewrite Hv in Hv'; by injection Hv').
    rewrite (proj1 (text_of_amount charged ltac:(lia))), (proj1 (text_of_amount c' ltac:(lia))) in E. injection E as ->. apply BitLen_bound; lia.
  - intros Hlt. destruct (receiptCells_layout w charged (CompletedAt v)) as (r & Hr & _); [|lia|done|].
    { eapply Forall_impl; [exact Hw|]. by intros ? []. }
    eexists. apply build_receipt_Ok. exists w, charged, r. split_and!; try done; [lia|]. apply BitLen_le; lia.
Qed.

(** What a settlement intent holds. *)
Lemma intent_holds account quote receipt charged queryID intent : u64 queryID ->
  BuildEscrowSettlementIntentV1 account quote receipt charged queryID = Ok intent ->
  exists data q r c, account = "0:" +:+ hex_EncodeToString data /\ raw32 data /\ quote = Some q /\ receipt = Some r /\
    charged = Some c /\ 0 < c < 2 ^ 120 /\ queryID <> 0 /\
    holds intent (ubits 32 settlementIntentMagic ++ ubits 16 softwareWorkReceiptSchema ++ ubits 64 queryID ++ ubits 128 c ++
      addr_bits data ++ bytes_bits (Hash q) ++ bytes_bits (Hash r)) [].
Proof using LL XL.
  unfold u64, BuildEscrowSettlementIntentV1, reject, orelse. intros Hu H. inv_ok. guards.
  match goal with H : escrowAddress _ = Ok _ |- _ => apply escrowAddress_Ok in H as (data & Ha & ->) end.
  match goal with H : end_cell _ = Ok _ |- _ => revert H end.
  match goal with |- context[MustStoreBigUInt ?c] => assert (0 < c < 2 ^ 120) by (split; [lia|]; apply BitLen_bound; lia);
    assert (0 <= c < 2 ^ 128) by lia end.
  built i Hi. intros [= <-]. do 4 eexists. split; [done|]. split; [apply Ha|]. split_and!; try done. lia.
Qed.

(** The intent depends on the quote and the receipt through their hashes only. *)
Lemma intent_of_hashes account q q' r r' charged queryID : Hash q = Hash q' -> Hash r = Hash r' ->
  BuildEscrowSettlementIntentV1 account (Some q) (Some r) charged queryID =
  BuildEscrowSettlementIntentV1 account (Some q') (Some r') charged queryID.
Proof using.
  intros Hq Hr. unfold BuildEscrowSettlementIntentV1. destruct (or_err _ _); [|done..]. cbn [orelse opt_err mbind result_bind].
  by rewrite Hq, Hr.
Qed.

(** C26: A settlement intent binds what it settles.  Two intents whose cells do not collide
    under the hash have the same hash if and only if they are for the same escrow account,
    the same quote and receipt cells up to their hashes, the same charge and the same
    query: a buyer's signature over one cannot release another. *)
Theorem settlement_intent_binds account account' quote quote' receipt receipt' charged charged' queryID queryID' i i' :
  u64 queryID -> u64 queryID' ->
  BuildEscrowSettlementIntentV1 account quote receipt charged queryID = Ok i ->
  BuildEscrowSettlementIntentV1 account' quote' receipt' charged' queryID' = Ok i' ->
  (Hash i = Hash i' -> i = i') ->
  (Hash i = Hash i' <->
   account = account' /\ Hash <$> quote = Hash <$> quote' /\ Hash <$> receipt = Hash <$> receipt' /\ charged = charged' /\
   queryID = queryID').
Proof using LL XL.
  intros Hu Hu' Hb1 Hb2. pose proof Hb1 as (d & q & r & c & -> & Hd & -> & -> & -> & Hc & _ & Hh)%intent_holds; [|done].
  pose proof Hb2 as (d' & q' & r' & c' & -> & Hd' & -> & -> & -> & Hc' & _ & Hh')%intent_holds; [|done]. intros Hcol. split.
  2: { cbn. intros (Ea & [= Eq] & [= Er] & [= ->] & ->). rewrite Ea, (intent_of_hashes _ q q' r r') in Hb1 by done. congruence. }
  intros He.
  apply Hcol in He as ->. destruct (holds_fun _ _ _ _ _ Hh Hh') as [Hb _]. clear Hh Hh' Hcol.
  pose proof (hash_raw q) as Hq. pose proof (hash_raw q') as Hq'. unfold u64, raw32 in *.
  apply app_inv_head, app_inv_head in Hb.
  apply app_inj_1 in Hb as [Hi Hb]; [|by rewrite !length_ubits]. apply (ubits_inj 64) in Hi; [|done..].
  apply app_inj_1 in Hb as [Hm Hb]; [|by rewrite !length_ubits].
  apply (ubits_inj 128) in Hm; [|change (Z.of_nat 128) with 128; lia..].
  apply app_inj_1 in Hb as [Ha Hb]; [|by rewrite !length_addr_bits].
  unfold addr_bits in Ha. do 2 apply app_inv_head in Ha.
  apply app_inj_1 in Hb as [Hbq Hbr]; [|rewrite !length_bytes_bits; lia].
  apply (f_equal bits_bytes) in Ha, Hbq, Hbr. rewrite !bits_bytes_bits in Ha, Hbq, Hbr. cbn. subst.
  rewrite Hbq, Hbr. done.
Qed.
End Receipt.

(** ** The properties on concrete receipts *)

Module Sample.
#[local] Existing Instances sampleCells rawAddressLib sampleCellX.

Definition hash (n : N) : string := repeat_byte (ascii_of_N n) 32.
Definition raw : ReceiptRaw :=
  Build_ReceiptRaw (hash 1) (hash 2) (hash 3) (hash 4) (hash 5) (hash 6) (hash 7) (hash 8) (hash 9) (hash 10).
Definition receipt (charged : Z) : SoftwareWorkReceiptV1 := receipt_of raw charged 1700000000.
Definition root (charged : Z) : Cell := match receiptCells raw charged 1700000000 0 with Ok r => r | _ => TCell [] [] end.
Definition account : string := "0:" +:+ hex_EncodeToString (hash 11).
Definition quote : Cell := TCell [true] [].
Definition intent (charged : Z) : Cell :=
  match BuildEscrowSettlementIntentV1 account (Some quote) (Some (root charged)) (Some charged) 7 with Ok r => r | _ => TCell [] [] end.

Lemma receipt_roundtrip_witness : DecodeSoftwareWorkReceiptCellV1 (Some (root 250000)) = Ok (receipt 250000).
Proof.
  apply (proj2 (receipt_roundtrip (receipt 250000) ltac:(by apply u64_lit)) (root 250000) (digestString (Hash (root 250000)))).
  vm_compute. reflexivity.
Defined.

(** A charge of 2^120 is decoded, but neither the encoder nor the settlement intent takes it. *)
Lemma receipt_decode_charge_witness :
  (exists charged, FormatZ (2 ^ 120) = FormatZ charged /\ 0 < charged < 2 ^ 128 /\
    ((exists r, BuildSoftwareWorkReceiptCellV1 (receipt (2 ^ 120)) = Ok r) <-> charged < 2 ^ 120)) /\
  BuildSoftwareWorkReceiptCellV1 (receipt (2 ^ 120)) = Err (PlainError "invalid Receipt charged amount") /\
  BuildEscrowSettlementIntentV1 account (Some quote) (Some (root (2 ^ 120))) (Some (2 ^ 120)) 7 =
    Err (PlainError "invalid escrow settlement intent").
Proof.
  split; [|split; vm_compute; reflexivity].
  apply (receipt_decode_charge (Some (root (2 ^ 120))) (receipt (2 ^ 120))). vm_compute. reflexivity.
Defined.

(** The intents to settle 250000 and 250001 units have different hashes. *)
Lemma settlement_intent_binds_witness :
  exists i i', BuildEscrowSettlementIntentV1 account (Some quote) (Some (root 250000)) (Some 250000) 7 = Ok i /\
    BuildEscrowSettlementIntentV1 account (Some quote) (Some (root 250001)) (Some 250001) 7 = Ok i' /\
    (Hash i = Hash i' <-> account = account /\ Hash <$> Some quote = Hash <$> Some quote /\
       Hash <$> Some (root 250000) = Hash <$> Some (root 250001) /\ Some 250000 = Some 250001 /\ 7 = 7) /\ Hash i <> Hash i'.
Proof.
  assert (BuildEscrowSettlementIntentV1 account (Some quote) (Some (root 250000)) (Some 250000) 7 = Ok (intent 250000)) as H1
    by (vm_compute; reflexivity).
  assert (BuildEscrowSettlementIntentV1 account (Some quote) (Some (root 250001)) (Some 250001) 7 = Ok (intent 250001)) as H2
    by (vm_compute; reflexivity).
  assert (Hash (intent 250000) = Hash (intent 250001) -> intent 250000 = intent 250001) as Hc
    by (intros H; vm_compute in H; discriminate H).
  pose proof (settlement_intent_binds account account (Some quote) (Some quote) (Some (root 250000)) (Some (root 250001))
    (Some 250000) (Some 250001) 7 7 (intent 250000) (intent 250001) ltac:(by apply u64_lit) ltac:(by apply u64_lit) H1 H2 Hc) as H.
  exists (intent 250000), (intent 250001). split; [exact H1|]. split; [exact H2|]. split; [exact H|].
  intros E. apply H in E as (_ & _ & _ & E & _). discriminate E.
Defined.

Example refund_query_bounds :
  BuildEscrowRefundBodyV1 (two64 - 1) = Err (PlainError "invalid escrow refund query ID") /\
  is_ok (BuildEscrowRefundBodyV1 (two64 - 2)) = true /\ is_ok (BuildEscrowReleaseBodyV1 7 (Some (root 1)) (repeat_byte "a" 64)) = true.
Proof. vm_compute. done. Qed.
End Sample.
