(* ===== verification/Escrow.v ===== *)
(** * Escrow contracts (src/pkg/nativecore/escrow.go, quote_policy.go)

    The escrow of an accepted quote is a contract whose initial data embeds the
    quote, the terms and the execution signer it commits to, and whose runtime cell
    carries the amounts.  [BuildEscrowStateInitV1] derives the contract from a quote;
    [DecodeEscrowDataV1] reads the data of a deployed contract and checks every link
    between its cells. *)

From S2P Require Import Prelude Sha256 Text Base64 ChainLib CellLib Native Quote EscrowLib Receipt.

(** ** Transport bindings and the dispute policy (quote_policy.go) *)

Definition transportBindingMagic : Z := 0x4e544231.
Definition disputePolicyMagic : Z := 0x4e445031.
Definition quotePreimageSchema : Z := 1.
Definition TransportLoopbackHTTP : Z := 0.
Definition TransportHTTPS : Z := 1.
Definition ObjectiveDisputeMode : Z := 0.
Definition ReceiptReleaseRule : Z := 1.
Definition TimeoutRefundRule : Z := 1.
Definition maxTransportURLBytes : Z := 120.
Definition maxTransportRequestLen : Z := Z.shiftl 16 20.

Record TransportBindingV1 := { SecurityMode : Z; MaxRequestBytes : Z; BaseURL : string }.

(** What [url.Parse] returns, with [parsed.Hostname()] and [parsed.String()]. *)
Record ParsedURL := {
  u_Scheme : string; u_Host : string; u_HasUser : bool; u_RawQuery : string; u_Fragment : string; u_Path : string;
  u_RawPath : string; u_Opaque : string; u_ForceQuery : bool; u_Hostname : string; u_String : string }.

(** The parsers of net/url and net and the Unicode tables are inputs; the checks on what
    they return are the code's.  An address is its sixteen bytes as a number. *)
Class TransportParser := {
  url_Parse : string -> option ParsedURL;
  ParseIP : string -> option Z;
  unicode_ToLower : string -> string }.

Definition IP_IsLoopback (ip : Z) : bool :=
  if Z.shiftr ip 32 =? 0xffff then Z.land (Z.shiftr ip 24) 255 =? 127 else ip =? 1.

(** [strings.EqualFold] with a lower-case text.  Of the letters of [localhost] only the s
    has another case outside ASCII, the long s (bytes C5 BF). *)
Fixpoint EqualFold (s target : string) : bool :=
  match s, target with
  | EmptyString, EmptyString => true
  | String c s', String t target' =>
      if byte_val c =? byte_val t then EqualFold s' target'
      else if (65 <=? byte_val c) && (byte_val c <=? 90) && (byte_val c + 32 =? byte_val t) then EqualFold s' target'
      else if (byte_val t =? 115) && (byte_val c =? 0xC5) then
        match s' with String d s'' => (byte_val d =? 0xBF) && EqualFold s'' target' | EmptyString => false end
      else false
  | _, _ => false
  end.

Definition TrimSuffix (s suffix : string) : string :=
  if HasSuffix s suffix then take_bytes (String.length s - String.length suffix) s else s.

Definition validLoopbackEndpoint `{TransportParser} (host : string) : bool :=
  EqualFold (TrimSuffix host ".") "localhost" ||
  match ParseIP host with Some ip => IP_IsLoopback ip | None => false end.

Definition validateTransportBinding `{TransportParser} (value : TransportBindingV1) : nresult unit :=
  reject ((MaxRequestBytes value =? 0) || (maxTransportRequestLen <? MaxRequestBytes value) ||
          negb (validProtocolText (BaseURL value) maxTransportURLBytes) || HasSuffix (BaseURL value) "/")
    "invalid transport binding bounds";;
  let invalid := "transport base URL is not canonical"%string in
  parsed ← orelse (url_Parse (BaseURL value)) invalid;
  reject (negb (nonempty (u_Host parsed)) || u_HasUser parsed || nonempty (u_RawQuery parsed) || nonempty (u_Fragment parsed) ||
          nonempty (u_Path parsed) || nonempty (u_RawPath parsed) || nonempty (u_Opaque parsed) || u_ForceQuery parsed ||
          negb (streq (u_String parsed) (BaseURL value)) || negb (streq (u_Host parsed) (unicode_ToLower (u_Host parsed)))) invalid;;
  if SecurityMode value =? TransportLoopbackHTTP then
    reject (negb (streq (u_Scheme parsed) "http") || negb (validLoopbackEndpoint (u_Hostname parsed)))
      "plaintext transport must be an explicit loopback endpoint"
  else if SecurityMode value =? TransportHTTPS then
    reject (negb (streq (u_Scheme parsed) "https")) "secure transport must use HTTPS"
  else Err (PlainError "unsupported transport security mode").

Section Policy.
Context `{L : CellLib} `{TP : TransportParser}.

Definition BuildTransportBindingCellV1 (value : TransportBindingV1) : nresult (Cell * string) :=
  validateTransportBinding value;;
  url ← stringCell (BaseURL value);
  root ← end_cell (begin_cell |>> MustStoreUInt transportBindingMagic 32 |>> MustStoreUInt quotePreimageSchema 16
                     |>> MustStoreUInt (SecurityMode value) 8 |>> MustStoreUInt (MaxRequestBytes value) 32 |>> MustStoreRef url);
  Ok (root, sha_text (Hash root)).

Definition DecodeTransportBindingCellV1 (root : option Cell) : nresult TransportBindingV1 :=
  root ← orelse root "missing transport binding";
  s ← orelse (BeginParse root) "invalid transport binding cell";
  magic ← orelse (LoadUInt 32 s) "invalid transport binding magic";
  reject (negb (magic.1 =? transportBindingMagic)) "invalid transport binding magic";;
  schema ← orelse (LoadUInt 16 magic.2) "unsupported transport binding schema";
  reject (negb (schema.1 =? quotePreimageSchema)) "unsupported transport binding schema";;
  mode ← orelse (LoadUInt 8 schema.2) "invalid transport security mode";
  maximum ← orelse (LoadUInt 32 mode.2) "invalid transport request bound";
  endpoint ← orelse (LoadRefCell maximum.2) "invalid transport binding shape";
  endOf endpoint.2 "invalid transport binding shape";;
  baseURL ← or_err (decodeProtocolText endpoint.1 maxTransportURLBytes) (PlainError "invalid transport binding");
  let value := {| SecurityMode := mode.1; MaxRequestBytes := maximum.1; BaseURL := baseURL |} in
  or_err (validateTransportBinding value) (PlainError "invalid transport binding");;
  Ok value.

Definition BuildObjectiveDisputePolicyCellV1 : nresult (Cell * string) :=
  root ← end_cell (begin_cell |>> MustStoreUInt disputePolicyMagic 32 |>> MustStoreUInt quotePreimageSchema 16
                     |>> MustStoreUInt ObjectiveDisputeMode 8 |>> MustStoreUInt ReceiptReleaseRule 8
                     |>> MustStoreUInt TimeoutRefundRule 8);
  Ok (root, sha_text (Hash root)).

Definition ValidateObjectiveDisputePolicyCellV1 (root : option Cell) : nresult unit :=
  root ← orelse root "missing objective dispute policy";
  s ← orelse (BeginParse root) "invalid dispute policy cell";
  magic ← orelse (LoadUInt 32 s) "invalid dispute policy magic";
  reject (negb (magic.1 =? disputePolicyMagic)) "invalid dispute policy magic";;
  schema ← orelse (LoadUInt 16 magic.2) "unsupported dispute policy schema";
  reject (negb (schema.1 =? quotePreimageSchema)) "unsupported dispute policy schema";;
  let unsupported := "unsupported objective dispute policy"%string in
  mode ← orelse (LoadUInt 8 schema.2) unsupported;
  release ← orelse (LoadUInt 8 mode.2) unsupported;
  refund ← orelse (LoadUInt 8 release.2) unsupported;
  reject (negb (mode.1 =? ObjectiveDisputeMode) || negb (release.1 =? ReceiptReleaseRule) ||
          negb (refund.1 =? TimeoutRefundRule)) unsupported;;
  endOf refund.2 unsupported.

(** *** What they hold *)

Context {LL : CellLaws L}.

Lemma validateTransportBinding_no_panic value : no_panic (validateTransportBinding value).
Proof using. unfold validateTransportBinding, orelse, reject. solve_total. Qed.

Lemma validateTransportBinding_text value :
  validateTransportBinding value = Ok tt -> validProtocolText (BaseURL value) maxTransportURLBytes = true.
Proof using. unfold validateTransportBinding, reject, orelse. intros H. inv_ok. guards. done. Qed.

(** Fields of fixed width in Go. *)
Definition transport_typed (value : TransportBindingV1) : Prop :=
  0 <= SecurityMode value < 256 /\ 0 <= MaxRequestBytes value < two32.

Lemma transport_spec value : transport_typed value ->
  no_panic (BuildTransportBindingCellV1 value) /\
  (forall root com, BuildTransportBindingCellV1 value = Ok (root, com) ->
     com = sha_text (Hash root) /\ DecodeTransportBindingCellV1 (Some root) = Ok value).
Proof using LL.
  intros [Hm Hx]. unfold BuildTransportBindingCellV1.
  pose proof (validateTransportBinding_no_panic value) as Hn.
  destruct (validateTransportBinding value) as [[]|e|p] eqn:Hv; [|by split|done]. cbn [mbind result_bind].
  destruct (text_roundtrip _ _ (validateTransportBinding_text _ Hv)) as (u & -> & Hu). cbn [mbind result_bind].
  unfold two32 in Hx. built root Hr. cbn [mbind result_bind]. split; [done|]. intros r com [= <- <-]. split; [done|].
  apply holds_tail in Hr. unfold DecodeTransportBindingCellV1. cbn [orelse opt_err mbind result_bind]. parse_cell.
  rewrite Hu. destruct value. cbn in *. by rewrite Hv.
Qed.

Lemma dispute_spec : exists root, BuildObjectiveDisputePolicyCellV1 = Ok (root, sha_text (Hash root)) /\
  ValidateObjectiveDisputePolicyCellV1 (Some root) = Ok tt.
Proof using LL.
  unfold BuildObjectiveDisputePolicyCellV1. built root Hr. cbn [mbind result_bind]. exists root. split; [done|].
  apply holds_tail in Hr. unfold ValidateObjectiveDisputePolicyCellV1. cbn [orelse opt_err mbind result_bind]. by parse_cell.
Qed.

Lemma DecodeTransport_no_panic root : no_panic (DecodeTransportBindingCellV1 root).
Proof using LL.
  unfold DecodeTransportBindingCellV1, orelse, reject, endOf. repeat total_step; try apply or_err_no_panic;
    auto using decodeProtocolText_no_panic, validateTransportBinding_no_panic.
Qed.
Lemma ValidateDispute_no_panic root : no_panic (ValidateObjectiveDisputePolicyCellV1 root).
Proof using. unfold ValidateObjectiveDisputePolicyCellV1, orelse, reject, endOf, reject. solve_total. Qed.
End Policy.

(** ** Data (escrow.go) *)

Definition escrowDataMagic : Z := 0x4e455331.
Definition escrowTermsMagic : Z := 0x4e455431.
Definition escrowAuthorizationMagic : Z := 0x4e454131.
Definition escrowRuntimeMagic : Z := 0x4e455231.
Definition escrowAssetRouteMagic : Z := 0x4e455031.
Definition escrowSchema : Z := 1.

Definition EscrowStatusAwaitingFunding : Z := 0.
Definition EscrowStatusFunded : Z := 1.
Definition EscrowStatusReleasePending : Z := 2.
Definition EscrowStatusRefundPending : Z := 3.

Record EscrowTermsV1 := {
  BuyerAddress : string; ProviderAddress : string; FundingDeadline : Z; RefundAvailableAt : Z }.

Section Escrow.
Context `{X : CellX} `{TP : TransportParser}.

Record EscrowInitV1 := {
  AcceptedQuote : option Cell;
  Terms : EscrowTermsV1;
  ExecutionSignerEd25519 : string;
  TransportBinding : TransportBindingV1;
  AssetMasterAddress : string;
  AssetWalletCode : option Cell }.

Record EscrowIdentityV1 := {
  id_Address : string;
  id_CodeHash : string;
  id_QuoteCommitment : string;
  id_EscrowTermsDigest : string;
  id_AuthorizationDigest : string;
  id_TransportDigest : string;
  id_DisputePolicyDigest : string;
  id_StateInitBOC : string;
  id_Data : Cell }.

Record EscrowStateV1 := {
  st_Status : Z;
  st_QuoteCommitment : string;
  st_EscrowTermsDigest : string;
  st_AuthorizationDigest : string;
  st_TransportDigest : string;
  st_DisputePolicyDigest : string;
  st_TransportBinding : TransportBindingV1;
  st_BuyerAddress : string;
  st_ProviderAddress : string;
  st_AssetMasterAddress : string;
  st_AssetWalletCodeHash : string;
  st_AssetWalletCode : option Cell;
  st_FundingDeadline : Z;
  st_RefundAvailableAt : Z;
  st_FundedAtomicAmount : string;
  st_SettledAtomicAmount : string;
  st_ReceiptCommitment : string;
  st_PendingQueryID : Z;
  st_AcceptedQuote : Cell;
  st_ExecutionSignerEd25519 : string }.

(** ** The cells a quote commits to *)

Definition BuildEscrowTermsCellV1 (value : EscrowTermsV1) : nresult Cell :=
  buyer ← escrowAddress (BuyerAddress value);
  provider ← escrowAddress (ProviderAddress value);
  reject ((FundingDeadline value =? 0) || (RefundAvailableAt value <=? FundingDeadline value)) "invalid escrow deadlines";;
  end_cell (begin_cell |>> MustStoreUInt escrowTermsMagic 32 |>> MustStoreUInt escrowSchema 16 |>> MustStoreAddr buyer
              |>> MustStoreAddr provider |>> MustStoreUInt (FundingDeadline value) 64
              |>> MustStoreUInt (RefundAvailableAt value) 64).

Definition BuildEscrowAuthorizationCellV1 (publicKey : string) : nresult Cell :=
  reject (negb (slen publicKey =? 32) || is_zero32 publicKey) "execution signer must be a non-zero Ed25519 public key";;
  end_cell (begin_cell |>> MustStoreUInt escrowAuthorizationMagic 32 |>> MustStoreUInt escrowSchema 16
              |>> MustStoreSlice publicKey 256).

Definition decodeEscrowTerms (value : Cell) : nresult EscrowTermsV1 :=
  s ← orelse (BeginParse value) "invalid escrow terms cell";
  magic ← orelse (LoadUInt 32 s) "invalid escrow terms magic";
  reject (negb (magic.1 =? escrowTermsMagic)) "invalid escrow terms magic";;
  schema ← orelse (LoadUInt 16 magic.2) "unsupported escrow terms schema";
  reject (negb (schema.1 =? escrowSchema)) "unsupported escrow terms schema";;
  buyer ← orelse (LoadAddr schema.2) "invalid escrow buyer";
  reject (negb (addr_is_std buyer.1) || negb (addr_Workchain buyer.1 =? 0)) "invalid escrow buyer";;
  provider ← orelse (LoadAddr buyer.2) "invalid escrow provider";
  reject (negb (addr_is_std provider.1) || negb (addr_Workchain provider.1 =? 0)) "invalid escrow provider";;
  funding ← orelse (LoadUInt 64 provider.2) "invalid funding deadline";
  let invalid := "invalid escrow deadlines or shape"%string in
  refund ← orelse (LoadUInt 64 funding.2) invalid;
  reject ((funding.1 =? 0) || (refund.1 <=? funding.1)) invalid;;
  endOf refund.2 invalid;;
  Ok {| BuyerAddress := addr_StringRaw buyer.1; ProviderAddress := addr_StringRaw provider.1;
        FundingDeadline := funding.1; RefundAvailableAt := refund.1 |}.

Definition DecodeEscrowTermsCellV1 (value : option Cell) : nresult EscrowTermsV1 :=
  value ← orelse value "missing escrow terms";
  decodeEscrowTerms value.

Definition decodeEscrowAuthorization (value : Cell) : nresult string :=
  s ← orelse (BeginParse value) "invalid execution authorization cell";
  magic ← orelse (LoadUInt 32 s) "invalid execution authorization magic";
  reject (negb (magic.1 =? escrowAuthorizationMagic)) "invalid execution authorization magic";;
  schema ← orelse (LoadUInt 16 magic.2) "unsupported execution authorization schema";
  reject (negb (schema.1 =? escrowSchema)) "unsupported execution authorization schema";;
  key ← orelse (LoadSlice 256 schema.2) "invalid execution authorization";
  reject (is_zero32 key.1) "invalid execution authorization";;
  endOf key.2 "invalid execution authorization";;
  Ok key.1.

Definition decodeEscrowAssetRoute (value : Cell) : nresult (string * string * Cell) :=
  s ← orelse (BeginParse value) "invalid escrow asset-route cell";
  magic ← orelse (LoadUInt 32 s) "invalid escrow asset-route magic";
  reject (negb (magic.1 =? escrowAssetRouteMagic)) "invalid escrow asset-route magic";;
  schema ← orelse (LoadUInt 16 magic.2) "unsupported escrow asset-route schema";
  reject (negb (schema.1 =? escrowSchema)) "unsupported escrow asset-route schema";;
  master ← orelse (LoadAddr schema.2) "invalid escrow stablecoin master";
  reject (negb (addr_is_std master.1) || negb (addr_Workchain master.1 =? 0)) "invalid escrow stablecoin master";;
  walletCodeHash ← orelse (LoadSlice 256 master.2) "invalid stablecoin wallet code hash";
  reject (is_zero32 walletCodeHash.1) "invalid stablecoin wallet code hash";;
  let mismatch := "stablecoin wallet code preimage mismatch"%string in
  walletCode ← orelse (LoadRefCell walletCodeHash.2) mismatch;
  endOf walletCode.2 mismatch;;
  reject (negb (streq walletCodeHash.1 (Hash walletCode.1))) mismatch;;
  Ok (addr_StringRaw master.1, walletCodeHash.1, walletCode.1).

(** ** The values of an accepted quote *)

Definition boundRoot (quote : Cell) : nresult (Cell * Cell * Cell) :=
  s ← orelse (BeginParse quote) "invalid Accepted Quote";
  magic ← orelse (LoadUInt 32 s) "invalid Accepted Quote magic";
  reject (negb (magic.1 =? acceptedQuoteMagic)) "invalid Accepted Quote magic";;
  schema ← orelse (LoadUInt 16 magic.2) "unsupported Accepted Quote schema";
  reject (negb (schema.1 =? 1)) "unsupported Accepted Quote schema";;
  network ← orelse (LoadRefCell schema.2) "invalid Quote network";
  networkSlice ← orelse (BeginParse network.1) "invalid Quote network";
  reject (negb (BitsLeft networkSlice =? 768) || negb (RefsNum networkSlice =? 0)) "invalid Quote network";;
  identity ← orelse (LoadRefCell network.2) "missing Quote identity";
  economic ← orelse (LoadRefCell identity.2) "missing Quote economic terms";
  authority ← orelse (LoadRefCell economic.2) "invalid Accepted Quote shape";
  endOf authority.2 "invalid Accepted Quote shape";;
  Ok (identity.1, economic.1, authority.1).

Definition boundIdentity (identity : Cell) : nresult Cell :=
  i ← orelse (BeginParse identity) "invalid Quote identity";
  capability ← orelse (LoadSlice 256 i) "invalid Quote Capability";
  provider ← orelse (LoadSlice 256 capability.2) "invalid Quote identity";
  reject (is_zero32 capability.1 || is_zero32 provider.1) "invalid Quote identity";;
  version ← orelse (LoadRefCell provider.2) "invalid Quote identity shape";
  endOf version.2 "invalid Quote identity shape";;
  Ok version.1.

Definition boundVersion (version : Cell) : nresult Z :=
  v ← orelse (BeginParse version) "invalid Quote version";
  versionHash ← orelse (LoadSlice 256 v) "invalid Quote version hash";
  manifest ← orelse (LoadSlice 256 versionHash.2) "invalid Quote manifest";
  transport ← orelse (LoadSlice 256 manifest.2) "invalid Quote transport";
  expiry ← orelse (LoadUInt 64 transport.2) "invalid Quote version";
  reject ((expiry.1 =? 0) || is_zero32 manifest.1 || is_zero32 transport.1) "invalid Quote version";;
  versionTextCell ← orelse (LoadRefCell expiry.2) "invalid Quote version shape";
  endOf versionTextCell.2 "invalid Quote version shape";;
  versionText ← or_err (decodeProtocolText versionTextCell.1 128) (PlainError "invalid Quote version text");
  reject (negb (streq versionHash.1 (Sum256 versionText))) "Quote version hash mismatch";;
  Ok expiry.1.

Definition boundEconomic (economic : Cell) : nresult (string * Cell * Cell) :=
  e ← orelse (BeginParse economic) "invalid Quote economic terms";
  terms ← orelse (LoadSlice 256 e) "invalid Quote escrow digest";
  dispute ← orelse (LoadSlice 256 terms.2) "invalid Quote economic digest";
  reject (is_zero32 terms.1 || is_zero32 dispute.1) "invalid Quote economic digest";;
  asset ← orelse (LoadRefCell dispute.2) "missing Quote asset";
  amountCell ← orelse (LoadRefCell asset.2) "invalid Quote economic shape";
  endOf amountCell.2 "invalid Quote economic shape";;
  Ok (terms.1, asset.1, amountCell.1).

Definition boundAsset (asset : Cell) : nresult unit :=
  as_ ← orelse (BeginParse asset) "invalid Quote asset";
  wc ← orelse (LoadInt 32 as_) "invalid Quote asset workchain";
  reject (negb (wc.1 =? 0)) "invalid Quote asset workchain";;
  master ← orelse (LoadSlice 256 wc.2) "invalid Quote asset master";
  masterCode ← orelse (LoadSlice 256 master.2) "invalid Quote master code";
  walletCode ← orelse (LoadSlice 256 masterCode.2) "invalid Quote wallet code";
  decimals ← orelse (LoadUInt 8 walletCode.2) "invalid Quote asset";
  reject ((decimals.1 =? 0) || (18 <? decimals.1)) "invalid Quote asset";;
  endOf decimals.2 "invalid Quote asset";;
  reject (is_zero32 master.1 || is_zero32 masterCode.1 || is_zero32 walletCode.1) "invalid Quote asset".

Definition boundAmount (amountCell : Cell) : nresult Z :=
  amountText ← or_err (decodeProtocolText amountCell 128) (PlainError "invalid Quote amount");
  reject (negb (atomicAmountPattern amountText)) "invalid Quote amount";;
  maximum ← orelse (SetString10 amountText) "unsupported Quote amount";
  reject ((maximum <=? 0) || (120 <? BitLen maximum)) "unsupported Quote amount";;
  Ok maximum.

Definition boundAuthority (authority : Cell) : nresult string :=
  let invalid := "invalid Quote authority shape"%string in
  a ← orelse (BeginParse authority) invalid;
  auth ← orelse (LoadSlice 256 a) invalid;
  reject (is_zero32 auth.1) invalid;;
  endOf auth.2 invalid;;
  Ok auth.1.

(** Escrow terms, signer authorization, expiry and price. *)
Record BoundValues := { bv_terms : string; bv_authorization : string; bv_expiry : Z; bv_maximum : Z }.

Definition acceptedQuoteBoundValues (quote : Cell) : nresult BoundValues :=
  '(identity, economic, authority) ← boundRoot quote;
  version ← boundIdentity identity;
  expiry ← boundVersion version;
  '(terms, asset, amountCell) ← boundEconomic economic;
  boundAsset asset;;
  maximum ← boundAmount amountCell;
  auth ← boundAuthority authority;
  Ok {| bv_terms := terms; bv_authorization := auth; bv_expiry := expiry; bv_maximum := maximum |}.

(** Transport and dispute policy digests. *)
Definition acceptedQuotePolicyDigests (quote : option Cell) : nresult (string * string) :=
  quote ← orelse quote "missing Accepted Quote";
  s ← orelse (BeginParse quote) "invalid Accepted Quote";
  magic ← orelse (LoadUInt 32 s) "invalid Accepted Quote magic";
  reject (negb (magic.1 =? acceptedQuoteMagic)) "invalid Accepted Quote magic";;
  schema ← orelse (LoadUInt 16 magic.2) "unsupported Accepted Quote schema";
  reject (negb (schema.1 =? 1)) "unsupported Accepted Quote schema";;
  network ← orelse (LoadRefCell schema.2) "missing Quote network";
  identity ← orelse (LoadRefCell network.2) "missing Quote identity";
  economic ← orelse (LoadRefCell identity.2) "missing Quote economic terms";
  i ← orelse (BeginParse identity.1) "invalid Quote identity";
  capability ← orelse (LoadSlice 256 i) "invalid Quote Capability";
  provider ← orelse (LoadSlice 256 capability.2) "invalid Quote provider";
  version ← orelse (LoadRefCell provider.2) "missing Quote version";
  v ← orelse (BeginParse version.1) "invalid Quote version";
  versionHash ← orelse (LoadSlice 256 v) "invalid Quote version hash";
  manifest ← orelse (LoadSlice 256 versionHash.2) "invalid Quote manifest digest";
  transport ← orelse (LoadSlice 256 manifest.2) "invalid Quote transport digest";
  reject (is_zero32 transport.1) "invalid Quote transport digest";;
  e ← orelse (BeginParse economic.1) "invalid Quote economic terms";
  terms ← orelse (LoadSlice 256 e) "invalid Quote escrow terms digest";
  dispute ← orelse (LoadSlice 256 terms.2) "invalid Quote dispute policy digest";
  reject (is_zero32 dispute.1) "invalid Quote dispute policy digest";;
  Ok (transport.1, dispute.1).

(** Address of the stablecoin master and hash of the wallet code. *)
Definition acceptedQuoteAssetRoute (quote : option Cell) : nresult (string * string) :=
  quote ← orelse quote "missing Accepted Quote";
  s ← orelse (BeginParse quote) "invalid Accepted Quote";
  magic ← orelse (LoadUInt 32 s) "invalid Accepted Quote";
  schema ← orelse (LoadUInt 16 magic.2) "invalid Accepted Quote";
  network ← orelse (LoadRefCell schema.2) "missing Quote network";
  identity ← orelse (LoadRefCell network.2) "missing Quote identity";
  economic ← orelse (LoadRefCell identity.2) "missing Quote economic terms";
  e ← orelse (BeginParse economic.1) "invalid Quote economic terms";
  terms ← orelse (LoadSlice 256 e) "invalid Quote escrow terms";
  dispute ← orelse (LoadSlice 256 terms.2) "invalid Quote dispute terms";
  asset ← orelse (LoadRefCell dispute.2) "missing Quote asset";
  as_ ← orelse (BeginParse asset.1) "invalid Quote asset";
  wc ← orelse (LoadInt 32 as_) "invalid Quote asset workchain";
  reject (negb (wc.1 =? 0)) "invalid Quote asset workchain";;
  masterID ← orelse (LoadSlice 256 wc.2) "invalid Quote stablecoin master";
  reject (is_zero32 masterID.1) "invalid Quote stablecoin master";;
  masterCode ← orelse (LoadSlice 256 masterID.2) "invalid Quote master code hash";
  walletCodeHash ← orelse (LoadSlice 256 masterCode.2) "invalid Quote wallet code hash";
  reject (is_zero32 walletCodeHash.1) "invalid Quote wallet code hash";;
  Ok (addr_StringRaw (NewAddress 0 0 masterID.1), walletCodeHash.1).

(** ** The contract of a quote *)

Definition assetRouteCell (schema : Z) (master : Address) (walletCode : Cell) : nresult Cell :=
  end_cell (begin_cell |>> MustStoreUInt escrowAssetRouteMagic 32 |>> MustStoreUInt schema 16 |>> MustStoreAddr master
              |>> MustStoreSlice (Hash walletCode) 256 |>> MustStoreRef walletCode).

(** Nothing funded, nothing settled, no receipt, no pending query. *)
Definition initialRuntimeCell (route transport dispute : Cell) : nresult Cell :=
  end_cell (begin_cell |>> MustStoreUInt escrowRuntimeMagic 32 |>> MustStoreUInt escrowSchema 16 |>> MustStoreBigUInt 0 128
              |>> MustStoreBigUInt 0 128 |>> MustStoreSlice zero32 256 |>> MustStoreUInt 0 64 |>> MustStoreRef route
              |>> MustStoreRef transport |>> MustStoreRef dispute).

Definition escrowDataCell (schema status : Z) (quote terms authorization runtime : Cell) : nresult Cell :=
  end_cell (begin_cell |>> MustStoreUInt escrowDataMagic 32 |>> MustStoreUInt schema 16 |>> MustStoreUInt status 8
              |>> MustStoreSlice (Hash quote) 256 |>> MustStoreSlice (Hash terms) 256 |>> MustStoreSlice (Hash authorization) 256
              |>> MustStoreRef quote |>> MustStoreRef terms |>> MustStoreRef authorization |>> MustStoreRef runtime).

Definition stateInitCell (code data : Cell) : nresult Cell :=
  end_cell (begin_cell |>> MustStoreBoolBit false |>> MustStoreBoolBit false |>> MustStoreBoolBit true |>> MustStoreRef code
              |>> MustStoreBoolBit true |>> MustStoreRef data |>> MustStoreBoolBit false).

Definition escrowIdentity (workchain : Z) (code quote terms authorization transport dispute data stateInit : Cell) : EscrowIdentityV1 :=
  {| id_Address := FormatZ workchain +:+ ":" +:+ hex_EncodeToString (Hash stateInit);
     id_CodeHash := digestString (Hash code); id_QuoteCommitment := digestString (Hash quote);
     id_EscrowTermsDigest := digestString (Hash terms); id_AuthorizationDigest := digestString (Hash authorization);
     id_TransportDigest := digestString (Hash transport); id_DisputePolicyDigest := digestString (Hash dispute);
     id_StateInitBOC := StdEncoding (ToBOC stateInit); id_Data := data |}.

Definition BuildEscrowStateInitV1 (workchain : Z) (code : option Cell) (init : EscrowInitV1) : nresult EscrowIdentityV1 :=
  let invalid := "invalid escrow code, quote, or workchain"%string in
  reject (negb (workchain =? 0)) invalid;;
  code ← orelse code invalid;
  quote ← orelse (AcceptedQuote init) invalid;
  terms ← BuildEscrowTermsCellV1 (Terms init);
  authorization ← BuildEscrowAuthorizationCellV1 (ExecutionSignerEd25519 init);
  masterAddress ← escrowAddress (AssetMasterAddress init);
  walletCode ← orelse (AssetWalletCode init) "missing stablecoin wallet code";
  transport ← BuildTransportBindingCellV1 (TransportBinding init);
  dispute ← BuildObjectiveDisputePolicyCellV1;
  bound ← acceptedQuoteBoundValues quote;
  '(quoteTransport, quoteDispute) ← acceptedQuotePolicyDigests (Some quote);
  reject (negb (streq (bv_terms bound) (Hash terms))) "escrow terms do not match Accepted Quote";;
  reject (negb (streq (bv_authorization bound) (Hash authorization))) "execution authorization does not match Accepted Quote";;
  reject (negb (streq quoteTransport (Hash transport.1)) || negb (streq quoteDispute (Hash dispute.1)))
    "transport or dispute policy does not match Accepted Quote";;
  reject ((bv_expiry bound <? FundingDeadline (Terms init)) || (bv_maximum bound <=? 0) || (120 <? BitLen (bv_maximum bound)))
    "escrow deadlines or amount exceed Accepted Quote";;
  let mismatch := "escrow asset route does not match Accepted Quote"%string in
  '(quoteMaster, quoteWalletCode) ← or_err (acceptedQuoteAssetRoute (Some quote)) (PlainError mismatch);
  reject (negb (streq (AssetMasterAddress init) quoteMaster) || negb (streq (Hash walletCode) quoteWalletCode)) mismatch;;
  route ← assetRouteCell escrowSchema masterAddress walletCode;
  runtime ← initialRuntimeCell route transport.1 dispute.1;
  data ← escrowDataCell escrowSchema EscrowStatusAwaitingFunding quote terms authorization runtime;
  stateInit ← stateInitCell code data;
  Ok (escrowIdentity workchain code quote terms authorization transport.1 dispute.1 data stateInit).

(** ** The data of a deployed contract *)

Record EscrowRoot := {
  er_status : Z; er_quoteHash : string; er_termsHash : string; er_authorizationHash : string;
  er_quote : Cell; er_terms : Cell; er_authorization : Cell; er_runtime : Cell }.

Definition decodeEscrowRoot (data : Cell) : nresult EscrowRoot :=
  s ← orelse (BeginParse data) "invalid escrow data cell";
  magic ← orelse (LoadUInt 32 s) "invalid escrow data magic";
  reject (negb (magic.1 =? escrowDataMagic)) "invalid escrow data magic";;
  schema ← orelse (LoadUInt 16 magic.2) "unsupported escrow data schema";
  reject (negb (schema.1 =? escrowSchema)) "unsupported escrow data schema";;
  status ← orelse (LoadUInt 8 schema.2) "invalid escrow status";
  reject (EscrowStatusRefundPending <? status.1) "invalid escrow status";;
  quoteHash ← orelse (LoadSlice 256 status.2) "invalid quote commitment";
  termsHash ← orelse (LoadSlice 256 quoteHash.2) "invalid terms commitment";
  authorizationHash ← orelse (LoadSlice 256 termsHash.2) "invalid authorization commitment";
  quote ← orelse (LoadRefCell authorizationHash.2) "missing Accepted Quote";
  terms ← orelse (LoadRefCell quote.2) "missing escrow terms";
  authorization ← orelse (LoadRefCell terms.2) "missing execution authorization";
  runtime ← orelse (LoadRefCell authorization.2) "invalid escrow root shape";
  endOf runtime.2 "invalid escrow root shape";;
  reject (negb (streq quoteHash.1 (Hash quote.1)) || negb (streq termsHash.1 (Hash terms.1)) ||
          negb (streq authorizationHash.1 (Hash authorization.1))) "escrow root commitment mismatch";;
  Ok {| er_status := status.1; er_quoteHash := quoteHash.1; er_termsHash := termsHash.1;
        er_authorizationHash := authorizationHash.1; er_quote := quote.1; er_terms := terms.1;
        er_authorization := authorization.1; er_runtime := runtime.1 |}.

Record EscrowRuntime := {
  ru_funded : Z; ru_settled : Z; ru_receipt : string; ru_pendingQueryID : Z; ru_route : Cell; ru_transport : Cell;
  ru_dispute : Cell }.

Definition decodeEscrowRuntime (runtime : Cell) (quoteMaximum : Z) : nresult EscrowRuntime :=
  let invalid := "invalid escrow runtime"%string in
  r ← orelse (BeginParse runtime) invalid;
  magic ← orelse (LoadUInt 32 r) "invalid escrow runtime magic";
  reject (negb (magic.1 =? escrowRuntimeMagic)) "invalid escrow runtime magic";;
  schema ← orelse (LoadUInt 16 magic.2) "unsupported escrow runtime schema";
  reject (negb (schema.1 =? escrowSchema)) "unsupported escrow runtime schema";;
  funded ← orelse (LoadBigUInt 128 schema.2) "invalid funded amount";
  settled ← orelse (LoadBigUInt 128 funded.2) "invalid settled amount";
  receipt ← orelse (LoadSlice 256 settled.2) "invalid Receipt commitment";
  pendingQueryID ← orelse (LoadUInt 64 receipt.2) "invalid pending query ID";
  route ← orelse (LoadRefCell pendingQueryID.2) invalid;
  transport ← orelse (LoadRefCell route.2) invalid;
  dispute ← orelse (LoadRefCell transport.2) invalid;
  endOf dispute.2 invalid;;
  reject ((funded.1 <? settled.1) || (quoteMaximum <? funded.1)) invalid;;
  Ok {| ru_funded := funded.1; ru_settled := settled.1; ru_receipt := receipt.1; ru_pendingQueryID := pendingQueryID.1;
        ru_route := route.1; ru_transport := transport.1; ru_dispute := dispute.1 |}.

(** The amounts, the receipt and the query each status allows. *)
Definition checkEscrowStatus (status quoteMaximum : Z) (r : EscrowRuntime) : nresult unit :=
  let receiptIsZero := is_zero32 (ru_receipt r) in
  if status =? EscrowStatusAwaitingFunding then
    reject (negb (ru_funded r =? 0) || negb (ru_settled r =? 0) || negb receiptIsZero || negb (ru_pendingQueryID r =? 0))
      "invalid awaiting-funding runtime"
  else if status =? EscrowStatusFunded then
    reject (negb (ru_funded r =? quoteMaximum) || negb (ru_settled r =? 0) || negb receiptIsZero || negb (ru_pendingQueryID r =? 0))
      "invalid funded runtime"
  else if status =? EscrowStatusReleasePending then
    reject (negb (ru_funded r =? quoteMaximum) || negb (ru_settled r =? ru_funded r) || receiptIsZero || (ru_pendingQueryID r =? 0))
      "invalid release runtime"
  else if status =? EscrowStatusRefundPending then
    reject (negb (ru_funded r =? quoteMaximum) || negb (ru_settled r =? 0) || negb receiptIsZero || (ru_pendingQueryID r =? 0))
      "invalid refund runtime"
  else Ok tt.

Definition receiptText (receipt : string) : string := if is_zero32 receipt then "" else digestString receipt.

Definition DecodeEscrowDataV1 (data : option Cell) : nresult EscrowStateV1 :=
  data ← orelse data "missing escrow data";
  root ← decodeEscrowRoot data;
  let quote := er_quote root in
  bound ← or_err (acceptedQuoteBoundValues quote) (PlainError "Accepted Quote does not bind escrow cells");
  reject (negb (streq (bv_terms bound) (er_termsHash root)) || negb (streq (bv_authorization bound) (er_authorizationHash root)))
    "Accepted Quote does not bind escrow cells";;
  '(quoteTransport, quoteDispute) ← acceptedQuotePolicyDigests (Some quote);
  decodedTerms ← decodeEscrowTerms (er_terms root);
  publicKey ← decodeEscrowAuthorization (er_authorization root);
  runtime ← decodeEscrowRuntime (er_runtime root) (bv_maximum bound);
  let policy := PlainError "escrow transport or dispute policy does not match Accepted Quote" in
  transportBinding ← or_err (DecodeTransportBindingCellV1 (Some (ru_transport runtime))) policy;
  or_err (ValidateObjectiveDisputePolicyCellV1 (Some (ru_dispute runtime))) policy;;
  fail_if (negb (streq quoteTransport (Hash (ru_transport runtime))) || negb (streq quoteDispute (Hash (ru_dispute runtime)))) policy;;
  let mismatch := PlainError "escrow asset route does not match Accepted Quote" in
  '(assetMaster, walletCodeHash, walletCode) ← or_err (decodeEscrowAssetRoute (ru_route runtime)) mismatch;
  '(quoteMaster, quoteWalletCode) ← or_err (acceptedQuoteAssetRoute (Some quote)) mismatch;
  fail_if (negb (streq assetMaster quoteMaster) || negb (streq walletCodeHash quoteWalletCode)) mismatch;;
  checkEscrowStatus (er_status root) (bv_maximum bound) runtime;;
  Ok {| st_Status := er_status root; st_QuoteCommitment := digestString (er_quoteHash root);
        st_EscrowTermsDigest := digestString (er_termsHash root);
        st_AuthorizationDigest := digestString (er_authorizationHash root);
        st_TransportDigest := digestString (Hash (ru_transport runtime));
        st_DisputePolicyDigest := digestString (Hash (ru_dispute runtime)); st_TransportBinding := transportBinding;
        st_BuyerAddress := BuyerAddress decodedTerms; st_ProviderAddress := ProviderAddress decodedTerms;
        st_AssetMasterAddress := assetMaster; st_AssetWalletCodeHash := digestString walletCodeHash;
        st_AssetWalletCode := Some walletCode; st_FundingDeadline := FundingDeadline decodedTerms;
        st_RefundAvailableAt := RefundAvailableAt decodedTerms; st_FundedAtomicAmount := FormatZ (ru_funded runtime);
        st_SettledAtomicAmount := FormatZ (ru_settled runtime); st_ReceiptCommitment := receiptText (ru_receipt runtime);
        st_PendingQueryID := ru_pendingQueryID runtime; st_AcceptedQuote := quote;
        st_ExecutionSignerEd25519 := publicKey |}.

(** The address of the escrow's stablecoin wallet. *)
Definition DeriveEscrowAssetWalletV1 (escrowAccount : string) (state : option EscrowStateV1) : nresult string :=
  let invalid := "invalid escrow wallet derivation input"%string in
  owner ← or_err (escrowAddress escrowAccount) (PlainError invalid);
  state ← orelse state invalid;
  walletCode ← orelse (st_AssetWalletCode state) invalid;
  master ← escrowAddress (st_AssetMasterAddress state);
  data ← end_cell (begin_cell |>> MustStoreUInt 0 4 |>> MustStoreCoins 0 |>> MustStoreAddr owner |>> MustStoreAddr master);
  init ← stateInitCell walletCode data;
  Ok (addr_StringRaw (NewAddress 0 0 (Hash init))).

(** ** What the cells hold *)

Context {LL : CellLaws L} {XL : CellXLaws X LL}.

Definition terms_typed (t : EscrowTermsV1) : Prop := u64 (FundingDeadline t) /\ u64 (RefundAvailableAt t).

Lemma escrowAddress_no_panic v : no_panic (escrowAddress v).
Proof using. unfold escrowAddress, orelse, reject. by repeat total_step. Qed.
#[local] Hint Resolve escrowAddress_no_panic : no_panic.

(** The terms are built, or refused, and read back. *)
Lemma terms_no_panic t : terms_typed t -> no_panic (BuildEscrowTermsCellV1 t).
Proof using LL XL.
  unfold terms_typed, u64. intros [Hf Hr]. unfold BuildEscrowTermsCellV1, reject. repeat total_step.
  repeat match goal with H : escrowAddress _ = Ok _ |- _ => apply escrowAddress_Ok in H as (? & ? & _) end. by built c Hc.
Qed.

Lemma terms_decode t c : terms_typed t -> BuildEscrowTermsCellV1 t = Ok c -> decodeEscrowTerms c = Ok t.
Proof using LL XL.
  unfold terms_typed, u64. intros [Hf Hr]. unfold BuildEscrowTermsCellV1, reject. intros H. inv_ok. guards.
  repeat match goal with H : escrowAddress _ = Ok _ |- _ => apply escrowAddress_Ok in H as (? & ? & ?) end.
  match goal with H : end_cell _ = Ok _ |- _ => revert H end. built c' Hc. intros [= <-]. apply holds_tail in Hc.
  repeat match goal with H : base_address _ ?d |- _ => lazymatch goal with _ : raw32 d |- _ => fail | _ => assert (raw32 d) by apply H end end.
  unfold decodeEscrowTerms. parse_cell. base_addrs. tests. cbn. destruct t. cbn in *. by subst.
Qed.

Lemma authorization_no_panic key : no_panic (BuildEscrowAuthorizationCellV1 key).
Proof using LL.
  unfold BuildEscrowAuthorizationCellV1, reject. repeat total_step. inv_ok. guards.
  match goal with H : slen _ = 32 |- _ => apply raw32_slen in H end. unfold raw32 in *. by built c Hc.
Qed.

Lemma authorization_decode key c : BuildEscrowAuthorizationCellV1 key = Ok c -> decodeEscrowAuthorization c = Ok key.
Proof using LL.
  unfold BuildEscrowAuthorizationCellV1, reject. intros H. inv_ok. guards.
  match goal with H : slen _ = 32 |- _ => apply raw32_slen in H; unfold raw32 in H end.
  match goal with H : end_cell _ = Ok _ |- _ => revert H end. built c' Hc. intros [= <-]. apply holds_tail in Hc.
  unfold decodeEscrowAuthorization. parse_cell. tests. unfold is_zero32. by rewrite bool_decide_false.
Qed.

Lemma route_decode master data walletCode : base_address master data -> Hash walletCode <> zero32 ->
  exists c, assetRouteCell escrowSchema master walletCode = Ok c /\
    decodeEscrowAssetRoute c = Ok ("0:" +:+ hex_EncodeToString data, Hash walletCode, walletCode).
Proof using LL XL.
  intros Hm Hz. unfold assetRouteCell. built c Hc. exists c. split; [done|]. apply holds_tail in Hc.
  assert (raw32 data) by apply Hm. pose proof (hash_raw walletCode) as Hw. unfold raw32 in Hw.
  unfold decodeEscrowAssetRoute. parse_cell. base_addrs. tests. unfold is_zero32, streq. rewrite (bool_decide_eq_false_2 _ Hz).
  by rewrite bool_decide_true.
Qed.

Lemma runtime_decode route transport dispute maximum : 0 <= maximum ->
  exists c, initialRuntimeCell route transport dispute = Ok c /\
    decodeEscrowRuntime c maximum =
      Ok {| ru_funded := 0; ru_settled := 0; ru_receipt := zero32; ru_pendingQueryID := 0; ru_route := route;
            ru_transport := transport; ru_dispute := dispute |}.
Proof using LL XL.
  intros Hm. assert (String.length zero32 = 32%nat) as Hz by done. revert Hz. unfold initialRuntimeCell, decodeEscrowRuntime.
  generalize zero32. intros z Hz. built c Hc. exists c. split; [done|]. apply holds_tail in Hc. parse_cell. by tests.
Qed.

Lemma data_decode status quote terms authorization runtime : 0 <= status <= 3 ->
  exists c, escrowDataCell escrowSchema status quote terms authorization runtime = Ok c /\
    decodeEscrowRoot c =
      Ok {| er_status := status; er_quoteHash := Hash quote; er_termsHash := Hash terms;
            er_authorizationHash := Hash authorization; er_quote := quote; er_terms := terms;
            er_authorization := authorization; er_runtime := runtime |}.
Proof using LL XL.
  intros Hs. unfold escrowDataCell. assert (0 <= status < 2 ^ Z.of_nat 8) by (change (2 ^ Z.of_nat 8) with 256; lia).
  built c Hc. exists c. split; [done|]. apply holds_tail in Hc.
  pose proof (hash_raw quote) as Hq. pose proof (hash_raw terms) as Ht. pose proof (hash_raw authorization) as Ha.
  unfold raw32 in *. unfold decodeEscrowRoot. parse_cell. unfold EscrowStatusRefundPending, streq. tests. by rewrite !bool_decide_true.
Qed.

Lemma stateInit_total code data : exists c, stateInitCell code data = Ok c.
Proof using LL. unfold stateInitCell. built c Hc. by exists c. Qed.

(** ** Totality *)

Ltac total := unfold orelse, reject, endOf; solve_total.

Lemma acceptedQuoteBoundValues_no_panic quote : no_panic (acceptedQuoteBoundValues quote).
Proof using LL.
  pose proof decodeProtocolText_no_panic.
  unfold acceptedQuoteBoundValues, boundRoot, boundIdentity, boundVersion, boundEconomic, boundAsset, boundAmount,
    boundAuthority. total.
Qed.
Lemma acceptedQuotePolicyDigests_no_panic quote : no_panic (acceptedQuotePolicyDigests quote).
Proof using. unfold acceptedQuotePolicyDigests. total. Qed.
Lemma acceptedQuoteAssetRoute_no_panic quote : no_panic (acceptedQuoteAssetRoute quote).
Proof using. unfold acceptedQuoteAssetRoute. total. Qed.
#[local] Hint Resolve acceptedQuoteBoundValues_no_panic acceptedQuotePolicyDigests_no_panic acceptedQuoteAssetRoute_no_panic
  DecodeTransport_no_panic ValidateDispute_no_panic : no_panic.

(** Whatever the cell, the decoder returns a state or an error. *)
Lemma DecodeEscrowData_no_panic data : no_panic (DecodeEscrowDataV1 data).
Proof using LL.
  unfold DecodeEscrowDataV1, decodeEscrowRoot, decodeEscrowTerms, decodeEscrowAuthorization, decodeEscrowRuntime,
    decodeEscrowAssetRoute, checkEscrowStatus. total.
Qed.

(** What a successful derivation went through. *)
Lemma build_escrow_inv workchain code init id :
  BuildEscrowStateInitV1 workchain code init = Ok id ->
  exists c quote terms authorization master walletCode transport tcom dispute dcom bound,
    workchain = 0 /\ code = Some c /\ AcceptedQuote init = Some quote /\ AssetWalletCode init = Some walletCode /\
    BuildEscrowTermsCellV1 (Terms init) = Ok terms /\
    BuildEscrowAuthorizationCellV1 (ExecutionSignerEd25519 init) = Ok authorization /\
    escrowAddress (AssetMasterAddress init) = Ok master /\
    BuildTransportBindingCellV1 (TransportBinding init) = Ok (transport, tcom) /\
    BuildObjectiveDisputePolicyCellV1 = Ok (dispute, dcom) /\
    acceptedQuoteBoundValues quote = Ok bound /\ bv_terms bound = Hash terms /\ bv_authorization bound = Hash authorization /\
    acceptedQuotePolicyDigests (Some quote) = Ok (Hash transport, Hash dispute) /\
    FundingDeadline (Terms init) <= bv_expiry bound /\ 0 < bv_maximum bound /\ BitLen (bv_maximum bound) <= 120 /\
    acceptedQuoteAssetRoute (Some quote) = Ok (AssetMasterAddress init, Hash walletCode).
Proof using.
  unfold BuildEscrowStateInitV1, reject, orelse, streq. intros H.
  repeat match goal with
  | H : mbind _ _ = Ok _ |- _ => apply bind_Ok in H; destruct H as (? & ? & H)
  | H : (let '(_, _) := ?p in _) = Ok _ |- _ => destruct p
  end. inv_ok. guards. subst.
  repeat match goal with H : _ = Ok ?p |- _ => is_var p; let T := type of p in
    lazymatch T with (_ * _)%type => destruct p; cbn [fst snd] in * end end.
  do 11 eexists. split_and!; try done; try eassumption; congruence.
Qed.

Lemma assetRoute_nonzero quote master walletHash :
  acceptedQuoteAssetRoute quote = Ok (master, walletHash) -> walletHash <> zero32.
Proof using. unfold acceptedQuoteAssetRoute, reject, orelse. intros H. inv_ok. guards. done. Qed.

(** The state of a contract that has just been deployed. *)
Definition initial_state (init : EscrowInitV1) (id : EscrowIdentityV1) (quote walletCode : Cell) : EscrowStateV1 :=
  {| st_Status := EscrowStatusAwaitingFunding; st_QuoteCommitment := id_QuoteCommitment id;
     st_EscrowTermsDigest := id_EscrowTermsDigest id; st_AuthorizationDigest := id_AuthorizationDigest id;
     st_TransportDigest := id_TransportDigest id; st_DisputePolicyDigest := id_DisputePolicyDigest id;
     st_TransportBinding := TransportBinding init; st_BuyerAddress := BuyerAddress (Terms init);
     st_ProviderAddress := ProviderAddress (Terms init); st_AssetMasterAddress := AssetMasterAddress init;
     st_AssetWalletCodeHash := digestString (Hash walletCode); st_AssetWalletCode := Some walletCode;
     st_FundingDeadline := FundingDeadline (Terms init); st_RefundAvailableAt := RefundAvailableAt (Terms init);
     st_FundedAtomicAmount := "0"; st_SettledAtomicAmount := "0"; st_ReceiptCommitment := ""; st_PendingQueryID := 0;
     st_AcceptedQuote := quote; st_ExecutionSignerEd25519 := ExecutionSignerEd25519 init |}.

(** The cells of the contract are always built, from the checked parts. *)
Lemma build_escrow_cells c quote terms authorization master data walletCode transport dispute maximum :
  base_address master data -> Hash walletCode <> zero32 -> 0 <= maximum ->
  exists route runtime d stateInit,
    assetRouteCell escrowSchema master walletCode = Ok route /\
    decodeEscrowAssetRoute route = Ok ("0:" +:+ hex_EncodeToString data, Hash walletCode, walletCode) /\
    initialRuntimeCell route transport dispute = Ok runtime /\
    decodeEscrowRuntime runtime maximum =
      Ok {| ru_funded := 0; ru_settled := 0; ru_receipt := zero32; ru_pendingQueryID := 0; ru_route := route;
            ru_transport := transport; ru_dispute := dispute |} /\
    escrowDataCell escrowSchema EscrowStatusAwaitingFunding quote terms authorization runtime = Ok d /\
    decodeEscrowRoot d =
      Ok {| er_status := EscrowStatusAwaitingFunding; er_quoteHash := Hash quote; er_termsHash := Hash terms;
            er_authorizationHash := Hash authorization; er_quote := quote; er_terms := terms;
            er_authorization := authorization; er_runtime := runtime |} /\
    stateInitCell c d = Ok stateInit.
Proof using LL XL.
  intros Hm Hz Hx. destruct (route_decode master data walletCode Hm Hz) as (route & ? & ?).
  destruct (runtime_decode route transport dispute maximum Hx) as (runtime & ? & ?).
  destruct (data_decode EscrowStatusAwaitingFunding quote terms authorization runtime) as (d & ? & ?); [done|].
  destruct (stateInit_total c d) as (si & ?). by exists route, runtime, d, si.
Qed.

(** A derivation that passes the checks ends in these cells. *)
Lemma build_escrow_run code init quote terms authorization master data walletCode transport tcom dispute dcom bound :
  AcceptedQuote init = Some quote -> AssetWalletCode init = Some walletCode ->
  BuildEscrowTermsCellV1 (Terms init) = Ok terms ->
  BuildEscrowAuthorizationCellV1 (ExecutionSignerEd25519 init) = Ok authorization ->
  escrowAddress (AssetMasterAddress init) = Ok master -> base_address master data ->
  BuildTransportBindingCellV1 (TransportBinding init) = Ok (transport, tcom) ->
  BuildObjectiveDisputePolicyCellV1 = Ok (dispute, dcom) ->
  acceptedQuoteBoundValues quote = Ok bound -> bv_terms bound = Hash terms -> bv_authorization bound = Hash authorization ->
  acceptedQuotePolicyDigests (Some quote) = Ok (Hash transport, Hash dispute) ->
  FundingDeadline (Terms init) <= bv_expiry bound -> 0 < bv_maximum bound -> BitLen (bv_maximum bound) <= 120 ->
  acceptedQuoteAssetRoute (Some quote) = Ok (AssetMasterAddress init, Hash walletCode) ->
  terms_typed (Terms init) -> transport_typed (TransportBinding init) ->
  exists id, BuildEscrowStateInitV1 0 (Some code) init = Ok id /\
    DecodeEscrowDataV1 (Some (id_Data id)) = Ok (initial_state init id quote walletCode).
Proof using LL XL.
  intros Hq Hw Ht Ha Hm Hbase Htr Hdi Hb Hbt Hba Hpol Hx Hpos Hbits Hroute Htt Htp.
  destruct (build_escrow_cells code quote terms authorization master data walletCode transport dispute (bv_maximum bound))
    as (route & runtime & d & si & Er & Dr & Eru & Dru & Ed & Dd & Es); [done|by eapply assetRoute_nonzero|lia|].
  destruct (escrowAddress_Ok _ _ Hm) as (data' & Hbase' & Hdata).
  assert (data' = data) as -> by (destruct Hbase as (_ & _ & _ & <- & _); by destruct Hbase' as (_ & _ & _ & <- & _)).
  eexists. split.
  - unfold BuildEscrowStateInitV1. rewrite Hq, Hw, Ht, Ha, Hm, Htr, Hdi. cbn [orelse opt_err reject fail_if mbind result_bind negb Z.eqb fst].
    rewrite Hb, Hpol. cbn [mbind result_bind]. rewrite Hbt, Hba. unfold streq. rewrite !bool_decide_true by done.
    tests. rewrite Hroute. cbn [negb orb reject fail_if or_err mbind result_bind]. rewrite !bool_decide_true by done.
    cbn [negb orb reject fail_if or_err mbind result_bind]. rewrite Er. cbn [mbind result_bind]. rewrite Eru.
    cbn [mbind result_bind]. rewrite Ed. cbn [mbind result_bind]. rewrite Es. reflexivity.
  - cbn [id_Data escrowIdentity]. unfold DecodeEscrowDataV1. cbn [orelse opt_err mbind result_bind]. rewrite Dd.
    cbn [mbind result_bind er_quote er_terms er_termsHash er_authorization er_authorizationHash er_runtime er_status er_quoteHash].
    rewrite Hb. cbn [or_err mbind result_bind]. rewrite Hbt, Hba. unfold streq. rewrite !bool_decide_true by done.
    cbn [negb orb reject fail_if or_err mbind result_bind]. rewrite Hpol. cbn [mbind result_bind].
    rewrite (terms_decode _ _ Htt Ht), (authorization_decode _ _ Ha). cbn [mbind result_bind]. rewrite Dru.
    cbn [mbind result_bind ru_transport ru_dispute ru_route ru_funded ru_settled ru_receipt ru_pendingQueryID].
    destruct (transport_spec _ Htp) as [_ Hdt]. rewrite (proj2 (Hdt _ _ Htr)).
    destruct dispute_spec as (dp & Hdp & Hval). rewrite Hdi in Hdp. injection Hdp as <- _. rewrite Hval.
    cbn [or_err mbind result_bind]. rewrite !bool_decide_true by done. cbn [negb orb fail_if mbind result_bind].
    rewrite Dr, Hroute. cbn [or_err mbind result_bind]. rewrite <- Hdata, !bool_decide_true by done. reflexivity.
Qed.

Lemma build_escrow_decodes workchain code init id quote w :
  terms_typed (Terms init) -> transport_typed (TransportBinding init) -> BuildEscrowStateInitV1 workchain code init = Ok id ->
  AcceptedQuote init = Some quote -> AssetWalletCode init = Some w ->
  DecodeEscrowDataV1 (Some (id_Data id)) = Ok (initial_state init id quote w).
Proof using LL XL.
  intros Htt Htp Hb Hq0 Hw0.
  pose proof Hb as (c & quote' & terms & au & master & w' & tr & tcom & di & dcom & bound & -> & -> & Hq & Hw & Ht & Ha & Hm & Htr & Hdi &
    Hbv & Hbt & Hba & Hpol & Hx & Hpos & Hbits & Hroute)%build_escrow_inv.
  rewrite Hq in Hq0. rewrite Hw in Hw0. injection Hq0 as ->. injection Hw0 as ->.
  destruct (escrowAddress_Ok _ _ Hm) as (data & Hbase & _).
  destruct (build_escrow_run c init quote terms au master data w tr tcom di dcom bound) as (id' & Hb' & Hd'); try done.
  rewrite Hb in Hb'. by injection Hb' as <-.
Qed.

(** ** The values of a quote that was built *)

Lemma not_zero s : digest32 s -> is_zero32 s = false.
Proof using. intros [_ H]. by apply bool_decide_eq_false_2. Qed.

Lemma boundAmount_text amountCell amount v :
  decodeProtocolText amountCell 128 = Ok amount -> atomicAmountPattern amount = true -> SetString10 amount = Some v ->
  boundAmount amountCell = if (v <=? 0) || (120 <? BitLen v) then Err (PlainError "unsupported Quote amount") else Ok v.
Proof using.
  intros Ht Hp Hv. unfold boundAmount. rewrite Ht. cbn [or_err mbind result_bind]. rewrite Hp, Hv.
  cbn [orelse opt_err negb reject fail_if mbind result_bind]. by destruct (_ || _).
Qed.

(** Keeps the lengths of digests. *)
Ltac lengths := repeat match goal with H : digest32 _ |- _ => destruct H as [H _] end; unfold raw32 in *.

Ltac nonzero := repeat match goal with H : is_zero32 ?x = false |- context[is_zero32 ?x] => rewrite H end.

Section Layout.
Context (root domain : Cell) (q : QuoteRaw) (version amount account : string) (decimals expires : Z) (network : NetworkDomain).
Context (Hl : quote_layout root domain q version amount account decimals expires)
  (Hv : quote_valid q version amount account decimals expires) (Hd : 0 <= decimals) (Hx : u64 expires)
  (Hdom : domainCell (Some network) = Ok domain).

(** The price is the only thing a valid quote can be refused for. *)
Lemma bound_layout v : SetString10 amount = Some v ->
  acceptedQuoteBoundValues root =
    if (v <=? 0) || (120 <? BitLen v) then Err (PlainError "unsupported Quote amount")
    else Ok {| bv_terms := q_escrow q; bv_authorization := q_signer q; bv_expiry := expires; bv_maximum := v |}.
Proof using Hl Hv Hd Hx Hdom LL.
  intros Hamount. destruct Hl as [(i & e & a & vc & vt & ac & at_ & Hroot & Hi & Hvc & He & Hac & Ha & Hvt & Hat)].
  destruct Hv as [Hraw _ [_ Hpat] Hacc [Hd1 Hd2] Hexp]. rewrite !Forall_cons in Hraw.
  destruct Hraw as (Hcap & Hprov & Hman & Htra & Hesc & Hdis & Hsig & Hmc & Hwc & _).
  destruct (domainCell_holds _ _ Hdom) as (ro & fi & (_ & _ & _ & Hro & Hfi & _) & Hbits).
  pose proof (Sum256_raw (NetworkId network)) as Hn. pose proof (Sum256_raw version) as Hsv.
  pose proof (not_zero _ Hcap). pose proof (not_zero _ Hprov). pose proof (not_zero _ Hman). pose proof (not_zero _ Htra).
  pose proof (not_zero _ Hesc). pose proof (not_zero _ Hdis). pose proof (not_zero _ Hsig). pose proof (not_zero _ Hmc).
  pose proof (not_zero _ Hwc). pose proof (not_zero _ Hacc). lengths. unfold u64 in *.
  apply holds_tail in Hroot, Hi, Hvc, He, Hac, Ha. unfold acceptedQuoteBoundValues.
  assert (boundRoot root = Ok (i, e, a)) as ->.
  { unfold boundRoot. parse_cell. destruct Hbits as (ns & -> & Hnb & Hnr). cbn [orelse opt_err mbind result_bind].
    rewrite bits_left, refs_num, Hnb, Hnr, !length_app, !length_bytes_bits, Hro, Hfi, Hn. by run_loads. }
  cbn [mbind result_bind].
  assert (boundIdentity i = Ok vc) as ->. { unfold boundIdentity. parse_cell. by nonzero. }
  cbn [mbind result_bind].
  assert (boundVersion vc = Ok expires) as ->.
  { unfold boundVersion. parse_cell. rewrite Hvt. cbn [or_err mbind result_bind]. tests. unfold streq. rewrite bool_decide_true by done.
    by nonzero. }
  cbn [mbind result_bind].
  assert (boundEconomic e = Ok (q_escrow q, ac, at_)) as ->.
  { unfold boundEconomic. parse_cell. by nonzero. }
  cbn [mbind result_bind].
  assert (boundAsset ac = Ok tt) as ->.
  { unfold boundAsset. parse_cell. tests. by nonzero. }
  cbn [mbind result_bind]. rewrite (boundAmount_text _ _ _ Hat Hpat Hamount). destruct (_ || _); [done|]. cbn [mbind result_bind].
  assert (boundAuthority a = Ok (q_signer q)) as ->.
  { unfold boundAuthority. parse_cell. by nonzero. }
  done.
Qed.

Lemma policy_layout : acceptedQuotePolicyDigests (Some root) = Ok (q_transport q, q_dispute q).
Proof using Hl Hv Hx LL.
  destruct Hl as [(i & e & a & vc & vt & ac & at_ & Hroot & Hi & Hvc & He & Hac & Ha & Hvt & Hat)].
  destruct Hv as [Hraw _ _ _ _ _]. rewrite !Forall_cons in Hraw.
  destruct Hraw as (Hcap & Hprov & Hman & Htra & Hesc & Hdis & Hsig & Hmc & Hwc & _). pose proof (Sum256_raw version) as Hsv.
  pose proof (not_zero _ Htra) as Zt. pose proof (not_zero _ Hdis) as Zd. lengths. unfold u64 in *.
  apply holds_tail in Hroot, Hi, Hvc, He. unfold acceptedQuotePolicyDigests. cbn [orelse opt_err mbind result_bind].
  parse_cell. parse_cell. parse_cell. parse_cell. by rewrite Zt, Zd.
Qed.

Lemma route_layout : acceptedQuoteAssetRoute (Some root) = Ok ("0:" +:+ hex_EncodeToString account, q_walletCode q).
Proof using Hl Hv Hd LL XL.
  destruct Hl as [(i & e & a & vc & vt & ac & at_ & Hroot & Hi & Hvc & He & Hac & Ha & Hvt & Hat)].
  destruct Hv as [Hraw _ _ Hacc [Hd1 Hd2] _]. rewrite !Forall_cons in Hraw.
  destruct Hraw as (Hcap & Hprov & Hman & Htra & Hesc & Hdis & Hsig & Hmc & Hwc & _).
  pose proof (not_zero _ Hacc) as Za. pose proof (not_zero _ Hwc) as Zw. repeat match goal with H : digest32 _ |- _ => destruct H as [H _] end.
  rewrite <- (string_raw (NewAddress 0 0 account) account) by (by apply new_address).
  unfold raw32 in *. apply holds_tail in Hroot, He, Hac. unfold acceptedQuoteAssetRoute. cbn [orelse opt_err mbind result_bind].
  parse_cell. parse_cell. parse_cell. by rewrite Za, Zw.
Qed.
End Layout.

(** A quote that was built, with its parts. *)
Lemma quote_parts n p auth root com : proposal_typed p ->
  BuildAcceptedQuoteCommitment (Some n) (Some p) auth = Ok (root, com) ->
  exists domain q version amount account decimals expires,
    p = proposal_of q (ProposalId p) version amount account decimals expires /\ auth = sha_text (q_signer q) /\
    quote_valid q version amount account decimals expires /\ 0 <= decimals /\ u64 expires /\
    domainCell (Some n) = Ok domain /\ quote_layout root domain q version amount account decimals expires.
Proof using LL.
  intros [Hx Hdec] Hb. destruct (build_network _ _ _ _ Hb) as (? & domain & [= <-] & Hdom).
  destruct (build_valid _ _ _ _ _ Hb) as (q & version & amount & account & decimals & expires & Hp & Ha & Hv).
  exists domain, q, version, amount, account, decimals, expires.
  assert (0 <= decimals) as Hd0 by (rewrite Hp in Hdec; by destruct (Hdec _ _ eq_refl eq_refl)).
  rewrite Hp in Hx. cbn in Hx.
  destruct (valid_build _ domain q (ProposalId p) _ _ _ _ _ Hdom Hv Hd0 Hx) as (r & Hr & Hl).
  rewrite <- Hp, <- Ha, Hb in Hr. by injection Hr as -> ->.
Qed.

Lemma Ok_pair {E A1 B1} (a c : A1) (b d : B1) : Ok (E := E) (a, b) = Ok (c, d) -> a = c /\ b = d.
Proof using. by intros [= -> ->]. Qed.

Lemma sha_text_inj a b : sha_text a = sha_text b -> a = b.
Proof using. unfold sha_text. intros H. apply app_inj_len in H as [_ H]; [|done]. by apply hex_encode_inj. Qed.

(** The escrow a quote was made for: the quote commits to the cells of the derivation. *)
Record made_for (p : QuoteProposalV1) (auth : string) (price : MoneyV1) (quote : Cell) (init : EscrowInitV1) : Prop := {
  mf_quote : AcceptedQuote init = Some quote;
  mf_typed : terms_typed (Terms init) /\ transport_typed (TransportBinding init);
  mf_terms : exists terms, BuildEscrowTermsCellV1 (Terms init) = Ok terms /\ EscrowTermsDigest p = sha_text (Hash terms);
  mf_signer : exists c, BuildEscrowAuthorizationCellV1 (ExecutionSignerEd25519 init) = Ok c /\ auth = sha_text (Hash c);
  mf_transport : exists c, BuildTransportBindingCellV1 (TransportBinding init) = Ok (c, TransportBindingDigest p);
  mf_dispute : exists c, BuildObjectiveDisputePolicyCellV1 = Ok (c, DisputePolicyDigest p);
  mf_price : MaximumPrice p = Some price;
  mf_asset : exists asset master address walletCode, MoneyAsset price = Some asset /\ Master asset = Some master /\
    escrowAddress (AssetMasterAddress init) = Ok address /\ addr_Data address = AccountId master /\
    AssetWalletCode init = Some walletCode /\ WalletCodeHash asset = digestString (Hash walletCode) }.

(** What the readers of the quote's cells return, and what the derivation makes of it. *)
Lemma made_for_inv n p auth root com price init v :
  proposal_typed p -> BuildAcceptedQuoteCommitment (Some n) (Some p) auth = Ok (root, com) ->
  made_for p auth price root init -> SetString10 (AtomicAmount price) = Some v ->
  exists terms au,
    acceptedQuoteBoundValues root =
      (if (v <=? 0) || (120 <? BitLen v) then Err (PlainError "unsupported Quote amount")
       else Ok {| bv_terms := Hash terms; bv_authorization := Hash au; bv_expiry := ExpiresAtUnixSeconds p; bv_maximum := v |}) /\
    (0 < v < 2 ^ 120 -> FundingDeadline (Terms init) <= ExpiresAtUnixSeconds p -> forall code,
      exists id, BuildEscrowStateInitV1 0 (Some code) init = Ok id).
Proof using LL XL.
  intros Hpt Hb [Hq [Htt Htp] (terms & Ht & Et) (au & Ha & Ea) (tr & Htr) (di & Hdi) Hpr
    (asset & m & address & w & Has & Hm & Had & Hdata & Hw & Ew)] Hv.
  destruct (quote_parts _ _ _ _ _ Hpt Hb) as (domain & q & ver & amount & account & dec & exp & Hp & Hau & Hval & Hd & Hx & Hdom & Hl).
  assert (ExpiresAtUnixSeconds p = exp) as -> by (by rewrite Hp).
  rewrite Hp in Hpr, Et, Htr, Hdi.
  cbn [proposal_of MaximumPrice EscrowTermsDigest TransportBindingDigest DisputePolicyDigest] in Hpr, Et, Htr, Hdi.
  injection Hpr as <-. cbn in Has, Hv. injection Has as <-.
  cbn in Hm, Ew. injection Hm as <-. cbn in Hdata. apply digestString_inj in Ew. rewrite Hau in Ea.
  apply sha_text_inj in Et, Ea.
  assert (q_transport q = Hash tr) as Etr.
  { destruct (proj2 (transport_spec _ Htp) _ _ Htr) as [E _]. by apply sha_text_inj. }
  assert (q_dispute q = Hash di) as Edi.
  { destruct dispute_spec as (d & E & _). rewrite Hdi in E. apply Ok_pair in E as [-> E]. by apply sha_text_inj. }
  pose proof (bound_layout _ _ _ _ _ _ _ _ _ Hl Hval Hd Hx Hdom v Hv) as Hbv. rewrite Et, Ea in Hbv.
  pose proof (policy_layout _ _ _ _ _ _ _ _ Hl Hval Hx) as Hpol. pose proof (route_layout _ _ _ _ _ _ _ _ Hl Hval Hd) as Hro.
  destruct (escrowAddress_Ok _ _ Had) as (data & Hbase & Edata).
  assert (data = account) as -> by (destruct Hbase as (_ & _ & _ & <- & _); done).
  rewrite Etr, Edi in Hpol. rewrite <- Edata, Ew in Hro.
  exists terms, au. split; [exact Hbv|]. intros Hvr Hfd code. assert (BitLen v <= 120) by (apply BitLen_le; lia).
  replace (v <=? 0) with false in Hbv by lia. replace (120 <? BitLen v) with false in Hbv by lia. cbn [orb] in Hbv.
  destruct (build_escrow_run code init root terms au address account w tr _ di _ _ Hq Hw Ht Ha Had Hbase Htr Hdi Hbv eq_refl eq_refl Hpol)
    as (id & Hid & _); try done; [cbn; lia|]. by exists id.
Qed.

(** ** Properties *)

(** A derived escrow contract decodes to what it was derived from.  When the
    derivation accepts a quote, terms, signer, transport and asset, the contract's data cell
    decodes, and the decoded state awaits funding, holds no funds, no receipt and no query,
    and names exactly the parties, deadlines, signer, asset, transport and digests of the
    derivation. *)
Theorem escrow_init_roundtrip workchain code init id :
  terms_typed (Terms init) -> transport_typed (TransportBinding init) ->
  BuildEscrowStateInitV1 workchain code init = Ok id ->
  exists quote walletCode, AcceptedQuote init = Some quote /\ AssetWalletCode init = Some walletCode /\
    DecodeEscrowDataV1 (Some (id_Data id)) = Ok (initial_state init id quote walletCode).
Proof using LL XL.
  intros Htt Htp Hb. pose proof Hb as (c & quote & terms & au & master & w & tr & tcom & di & dcom & bound & _ & _ & Hq & Hw & _)%build_escrow_inv.
  exists quote, w. split; [done|]. split; [done|]. by eapply build_escrow_decodes.
Qed.

(** C8: When a quote can be escrowed.  For a quote built for the given terms, signer,
    transport, dispute policy and asset, the escrow contract can be derived exactly when the
    quote's price is positive and below 2^120 atomic units and the funding deadline is not
    after the quote's expiry: the three independent readers of the quote's cells agree with
    its encoder. *)
Theorem quote_escrow_deployable n p auth root com price init code v :
  proposal_typed p -> BuildAcceptedQuoteCommitment (Some n) (Some p) auth = Ok (root, com) ->
  made_for p auth price root init -> SetString10 (AtomicAmount price) = Some v ->
  (exists id, BuildEscrowStateInitV1 0 (Some code) init = Ok id) <->
  0 < v < 2 ^ 120 /\ FundingDeadline (Terms init) <= ExpiresAtUnixSeconds p.
Proof using LL XL.
  intros Hpt Hb Hmf Hv. destruct (made_for_inv _ _ _ _ _ _ _ _ Hpt Hb Hmf Hv) as (terms & au & Hbv & Hid).
  split; [|by intros [? ?]; apply Hid].
  intros (id & (? & ? & ? & ? & ? & ? & ? & ? & ? & ? & bound & _ & _ & Hq & _ & _ & _ & _ & _ & _ & Hbv' & _ & _ & _ & Hfd & Hpos & Hbits & _)%build_escrow_inv).
  rewrite (mf_quote _ _ _ _ _ Hmf) in Hq. injection Hq as <-. rewrite Hbv in Hbv'. destruct (_ || _); [done|].
  injection Hbv' as <-. cbn in *. split; [|done]. split; [done|]. apply BitLen_bound; lia.
Qed.

(** What a successful decoding went through. *)
Lemma decode_escrow_inv data st : DecodeEscrowDataV1 (Some data) = Ok st ->
  exists root bound t runtime w,
    decodeEscrowRoot data = Ok root /\ acceptedQuoteBoundValues (er_quote root) = Ok bound /\
    bv_terms bound = er_termsHash root /\ bv_authorization bound = er_authorizationHash root /\
    acceptedQuotePolicyDigests (Some (er_quote root)) = Ok (Hash (ru_transport runtime), Hash (ru_dispute runtime)) /\
    decodeEscrowTerms (er_terms root) = Ok t /\
    decodeEscrowAuthorization (er_authorization root) = Ok (st_ExecutionSignerEd25519 st) /\
    decodeEscrowRuntime (er_runtime root) (bv_maximum bound) = Ok runtime /\
    DecodeTransportBindingCellV1 (Some (ru_transport runtime)) = Ok (st_TransportBinding st) /\
    acceptedQuoteAssetRoute (Some (er_quote root)) = Ok (st_AssetMasterAddress st, Hash w) /\
    checkEscrowStatus (er_status root) (bv_maximum bound) runtime = Ok tt /\
    st = {| st_Status := er_status root; st_QuoteCommitment := digestString (er_quoteHash root);
            st_EscrowTermsDigest := digestString (er_termsHash root);
            st_AuthorizationDigest := digestString (er_authorizationHash root);
            st_TransportDigest := digestString (Hash (ru_transport runtime));
            st_DisputePolicyDigest := digestString (Hash (ru_dispute runtime)); st_TransportBinding := st_TransportBinding st;
            st_BuyerAddress := BuyerAddress t; st_ProviderAddress := ProviderAddress t;
            st_AssetMasterAddress := st_AssetMasterAddress st; st_AssetWalletCodeHash := digestString (Hash w);
            st_AssetWalletCode := Some w; st_FundingDeadline := FundingDeadline t;
            st_RefundAvailableAt := RefundAvailableAt t; st_FundedAtomicAmount := FormatZ (ru_funded runtime);
            st_SettledAtomicAmount := FormatZ (ru_settled runtime); st_ReceiptCommitment := receiptText (ru_receipt runtime);
            st_PendingQueryID := ru_pendingQueryID runtime; st_AcceptedQuote := er_quote root;
            st_ExecutionSignerEd25519 := st_ExecutionSignerEd25519 st |}.
Proof using.
  unfold DecodeEscrowDataV1, reject, orelse, streq. intros H.
  repeat match goal with
  | H : mbind _ _ = Ok _ |- _ => apply bind_Ok in H; destruct H as (? & ? & H)
  | H : (let '(_, _) := ?p in _) = Ok _ |- _ => destruct p
  end.
  repeat match goal with
  | H : opt_err _ _ = Ok _ |- _ => apply opt_err_Ok in H
  | H : or_err _ _ = Ok _ |- _ => apply or_err_Ok in H
  | H : fail_if _ _ = Ok _ |- _ => apply fail_if_Ok in H
  end. guards. simplify_eq.
  match goal with H : decodeEscrowAssetRoute _ = Ok (?m, ?h, ?w) |- _ =>
    assert (h = Hash w) by (unfold decodeEscrowAssetRoute, reject, orelse, streq in H; clear -H; inv_ok; guards; done) end.
  subst.
  match goal with H : checkEscrowStatus _ _ _ = Ok ?u |- _ => destruct u end.
  do 5 eexists. split_and!; try eassumption; try done; cbn [st_AssetMasterAddress]; try congruence.
Qed.

Lemma decodeEscrowRoot_inv data r : decodeEscrowRoot data = Ok r ->
  0 <= er_status r <= 3 /\ er_quoteHash r = Hash (er_quote r) /\ er_termsHash r = Hash (er_terms r) /\
  er_authorizationHash r = Hash (er_authorization r).
Proof using LL.
  unfold decodeEscrowRoot, reject, orelse, streq, EscrowStatusRefundPending. intros H. inv_ok. guards.
  match goal with H : LoadUInt 8 _ = Some ?x |- _ => destruct x; apply load_uint_range in H; [|done] end. cbn in *.
  split; [lia|done].
Qed.

Lemma decodeEscrowRuntime_inv c maximum r : decodeEscrowRuntime c maximum = Ok r ->
  0 <= ru_settled r <= ru_funded r /\ ru_funded r <= maximum.
Proof using LL XL.
  unfold decodeEscrowRuntime, reject, orelse. intros H. inv_ok. guards.
  repeat match goal with H : LoadBigUInt 128 _ = Some ?x |- _ => destruct x; apply load_big_range in H; [|done] end.
  cbn [fst snd] in *. lia.
Qed.

Lemma boundValues_inv quote b : acceptedQuoteBoundValues quote = Ok b -> 0 < bv_maximum b < 2 ^ 120.
Proof using.
  unfold acceptedQuoteBoundValues, boundAmount, reject, orelse. intros H.
  repeat match goal with
  | H : mbind _ _ = Ok _ |- _ => apply bind_Ok in H; destruct H as (? & ? & H)
  | H : (let '(_, _) := ?p in _) = Ok _ |- _ => destruct p
  end. injection H as <-. inv_ok. guards. cbn [bv_maximum]. split; [lia|]. apply BitLen_bound; lia.
Qed.

Lemma decodeEscrowTerms_inv c t : decodeEscrowTerms c = Ok t -> 0 < FundingDeadline t < RefundAvailableAt t.
Proof using LL.
  unfold decodeEscrowTerms, reject, orelse. intros H. inv_ok. guards.
  repeat match goal with H : LoadUInt 64 _ = Some ?x |- _ => destruct x; apply load_uint_range in H; [|done] end.
  cbn [fst snd] in *. lia.
Qed.

Lemma checkEscrowStatus_inv status maximum r : 0 <= status <= 3 -> 0 < maximum ->
  checkEscrowStatus status maximum r = Ok tt ->
  ru_funded r = (if status =? EscrowStatusAwaitingFunding then 0 else maximum) /\
  ru_settled r = (if status =? EscrowStatusReleasePending then maximum else 0) /\
  (is_zero32 (ru_receipt r) = negb (status =? EscrowStatusReleasePending)) /\
  (ru_pendingQueryID r = 0 <-> status < EscrowStatusReleasePending).
Proof using.
  unfold checkEscrowStatus, reject, EscrowStatusAwaitingFunding, EscrowStatusFunded, EscrowStatusReleasePending,
    EscrowStatusRefundPending.
  intros Hs Hm H. assert (status = 0 \/ status = 1 \/ status = 2 \/ status = 3) as [-> | [-> | [-> | ->]]] by lia;
    cbn [Z.eqb Pos.eqb] in *; apply fail_if_Ok in H;
    destruct (is_zero32 (ru_receipt r)); repeat (apply orb_false_iff in H as [H ?]); cbn [negb] in *; try discriminate;
    guards; cbn; split_and!; lia || done.
Qed.

(** C7: What a decoded escrow state guarantees.  Whatever cell it came from, a state that
    decodes carries the commitments of the quote it embeds, keeps its deadlines in order and
    its settled amount within the funded amount within the quote's price; the funds are
    either absent (only while funding is awaited) or exactly the price; something is settled,
    and a receipt is present, exactly in the release status, and then everything is; a query
    is pending exactly in the release and refund statuses. *)
Theorem escrow_state_sound data st :
  DecodeEscrowDataV1 (Some data) = Ok st ->
  exists bound funded settled,
    acceptedQuoteBoundValues (st_AcceptedQuote st) = Ok bound /\
    st_QuoteCommitment st = digestString (Hash (st_AcceptedQuote st)) /\
    st_EscrowTermsDigest st = digestString (bv_terms bound) /\
    st_AuthorizationDigest st = digestString (bv_authorization bound) /\
    0 < st_FundingDeadline st < st_RefundAvailableAt st /\
    st_FundedAtomicAmount st = FormatZ funded /\ st_SettledAtomicAmount st = FormatZ settled /\
    (0 <= settled <= funded /\ funded <= bv_maximum bound < 2 ^ 120) /\ 0 <= st_Status st <= 3 /\
    funded = (if st_Status st =? EscrowStatusAwaitingFunding then 0 else bv_maximum bound) /\
    settled = (if st_Status st =? EscrowStatusReleasePending then bv_maximum bound else 0) /\
    (st_ReceiptCommitment st = ""%string <-> st_Status st <> EscrowStatusReleasePending) /\
    (st_PendingQueryID st = 0 <-> st_Status st < EscrowStatusReleasePending).
Proof using LL XL.
  intros (root & bound & t & r & w & Hroot & Hb & Hbt & Hba & _ & Ht & _ & Hr & _ & _ & Hs & ->)%decode_escrow_inv.
  exists bound, (ru_funded r), (ru_settled r). cbn.
  destruct (decodeEscrowRoot_inv _ _ Hroot) as (Hst & -> & Eth & Eah). pose proof (boundValues_inv _ _ Hb) as Hm.
  destruct (decodeEscrowRuntime_inv _ _ _ Hr) as [? ?]. pose proof (decodeEscrowTerms_inv _ _ Ht).
  destruct (checkEscrowStatus_inv _ _ _ Hst (proj1 Hm) Hs) as (? & ? & Hz & ?). rewrite Hbt, Hba.
  split_and!; try done; try lia. unfold receiptText. rewrite Hz.
  destruct (Z.eqb_spec (er_status root) EscrowStatusReleasePending) as [E|E]; cbn; [|done]. by split.
Qed.

(** The cells that a contract's state holds and its quote commits to by hash: the quote
    itself, the terms, the authorization and the transport binding. *)
Definition committed_cells (data : Cell) : list Cell :=
  match (root ← decodeEscrowRoot data;
         bound ← acceptedQuoteBoundValues (er_quote root);
         runtime ← decodeEscrowRuntime (er_runtime root) (bv_maximum bound);
         Ok [er_quote root; er_terms root; er_authorization root; ru_transport runtime]) with
  | Ok cells => cells
  | _ => []
  end.

Lemma committed_cells_eq data root bound runtime : decodeEscrowRoot data = Ok root ->
  acceptedQuoteBoundValues (er_quote root) = Ok bound -> decodeEscrowRuntime (er_runtime root) (bv_maximum bound) = Ok runtime ->
  committed_cells data = [er_quote root; er_terms root; er_authorization root; ru_transport runtime].
Proof using.
  intros Hr Hb Hru. unfold committed_cells. rewrite Hr. cbn [mbind result_bind]. rewrite Hb. cbn [mbind result_bind]. by rewrite Hru.
Qed.

(** C9: A quote determines its escrow.  Two contract states that embed quotes with the same
    commitment embed the same quote and agree on the parties, the deadlines, the execution
    signer, the asset's master and wallet code hash, the transport binding and the dispute
    policy, whatever their status, unless a cell that the one quote commits to (the quote,
    the terms, the authorization or the transport cell) and its counterpart in the other
    state differ and have the same hash. *)
Theorem escrow_quote_determines data data' st st' :
  DecodeEscrowDataV1 (Some data) = Ok st -> DecodeEscrowDataV1 (Some data') = Ok st' ->
  st_QuoteCommitment st = st_QuoteCommitment st' ->
  Forall2 (fun c c' => Hash c = Hash c' -> c = c') (committed_cells data) (committed_cells data') ->
  st_AcceptedQuote st = st_AcceptedQuote st' /\
  (st_BuyerAddress st = st_BuyerAddress st' /\ st_ProviderAddress st = st_ProviderAddress st') /\
  (st_FundingDeadline st = st_FundingDeadline st' /\ st_RefundAvailableAt st = st_RefundAvailableAt st') /\
  st_ExecutionSignerEd25519 st = st_ExecutionSignerEd25519 st' /\
  (st_AssetMasterAddress st = st_AssetMasterAddress st' /\ st_AssetWalletCodeHash st = st_AssetWalletCodeHash st') /\
  st_TransportBinding st = st_TransportBinding st' /\ st_DisputePolicyDigest st = st_DisputePolicyDigest st'.
Proof using LL.
  intros (r & b & t & ru & w & Hr & Hb & Hbt & Hba & Hp & Ht & Hk & Hru & Htb & Hro & _ & Est)%decode_escrow_inv
    (r' & b' & t' & ru' & w' & Hr' & Hb' & Hbt' & Hba' & Hp' & Ht' & Hk' & Hru' & Htb' & Hro' & _ & Est')%decode_escrow_inv Hq.
  rewrite (committed_cells_eq _ _ _ _ Hr Hb Hru), (committed_cells_eq _ _ _ _ Hr' Hb' Hru').
  destruct (decodeEscrowRoot_inv _ _ Hr) as (_ & Eq & Et & Ea), (decodeEscrowRoot_inv _ _ Hr') as (_ & Eq' & Et' & Ea').
  rewrite !Forall2_cons. intros (Cq & Ct & Ca & Cr & _).
  rewrite Est, Est' in Hq. apply digestString_inj in Hq. rewrite Eq, Eq' in Hq. apply Cq in Hq. rewrite <- Hq in *.
  assert (b = b') as <- by congruence. rewrite Ct, Ht' in Ht by congruence. rewrite Ca, Hk' in Hk by congruence.
  rewrite Hp' in Hp. rewrite Hro' in Hro. injection Ht as ->. injection Hk as Hk. injection Hro as Hm Hh. injection Hp as Htr Hdi.
  rewrite Cr, Htb' in Htb by congruence. injection Htb as Htb. rewrite Est, Est'. cbn. rewrite Hk, Hm, Hh, Htb, Hdi. by split_and!.
Qed.

(** ** A contract that has been funded *)

(** The runtime of a contract that holds its price. *)
Definition fundedRuntimeCell (amount : Z) (route transport dispute : Cell) : nresult Cell :=
  end_cell (begin_cell |>> MustStoreUInt escrowRuntimeMagic 32 |>> MustStoreUInt escrowSchema 16 |>> MustStoreBigUInt amount 128
              |>> MustStoreBigUInt 0 128 |>> MustStoreSlice zero32 256 |>> MustStoreUInt 0 64 |>> MustStoreRef route
              |>> MustStoreRef transport |>> MustStoreRef dispute).

Lemma funded_runtime_decode amount route transport dispute : 0 <= amount < 2 ^ 120 ->
  exists c, fundedRuntimeCell amount route transport dispute = Ok c /\
    decodeEscrowRuntime c amount =
      Ok {| ru_funded := amount; ru_settled := 0; ru_receipt := zero32; ru_pendingQueryID := 0; ru_route := route;
            ru_transport := transport; ru_dispute := dispute |}.
Proof using LL XL.
  intros Hm. assert (0 <= amount < 2 ^ Z.of_nat 128) by (change (2 ^ Z.of_nat 128) with (2 ^ 120 * 256); lia).
  assert (String.length zero32 = 32%nat) as Hz by done. revert Hz. unfold fundedRuntimeCell, decodeEscrowRuntime.
  generalize zero32. intros z Hz. built c Hc. exists c. split; [done|]. apply holds_tail in Hc. parse_cell. by tests.
Qed.

(** The state of a contract decodes for every status and runtime that fit each other. *)
Lemma decode_escrow_status data data' st root root' bound runtime runtime' :
  DecodeEscrowDataV1 (Some data) = Ok st -> decodeEscrowRoot data = Ok root -> acceptedQuoteBoundValues (er_quote root) = Ok bound ->
  decodeEscrowRuntime (er_runtime root) (bv_maximum bound) = Ok runtime ->
  decodeEscrowRoot data' = Ok root' -> er_quote root' = er_quote root -> er_quoteHash root' = er_quoteHash root ->
  er_terms root' = er_terms root -> er_termsHash root' = er_termsHash root ->
  er_authorization root' = er_authorization root -> er_authorizationHash root' = er_authorizationHash root ->
  decodeEscrowRuntime (er_runtime root') (bv_maximum bound) = Ok runtime' -> ru_route runtime' = ru_route runtime ->
  ru_transport runtime' = ru_transport runtime -> ru_dispute runtime' = ru_dispute runtime ->
  checkEscrowStatus (er_status root') (bv_maximum bound) runtime' = Ok tt ->
  exists st', DecodeEscrowDataV1 (Some data') = Ok st' /\ st_Status st' = er_status root' /\
    st_QuoteCommitment st' = st_QuoteCommitment st /\ st_FundedAtomicAmount st' = FormatZ (ru_funded runtime').
Proof using.
  unfold DecodeEscrowDataV1. cbn [orelse opt_err mbind result_bind]. intros H Hr Hb Hru Hr' Eq Eqh Et Eth Ea Eah Hru' Ero Etr Edi Hs.
  rewrite Hr in H. rewrite Hr'. cbn [mbind result_bind] in *. rewrite Hb in H. rewrite Eq, Hb. cbn [or_err mbind result_bind] in *.
  rewrite Et, Eth, Ea, Eah, Eqh, Hru'.
  apply bind_Ok in H as (? & -> & H). apply bind_Ok in H as ([? ?] & -> & H). apply bind_Ok in H as (? & -> & H).
  apply bind_Ok in H as (? & -> & H). cbn [mbind result_bind] in *. rewrite Hru in H. cbn [mbind result_bind] in *. rewrite Etr, Edi, Ero.
  apply bind_Ok in H as (? & -> & H). apply bind_Ok in H as (? & -> & H). apply bind_Ok in H as (? & -> & H).
  apply bind_Ok in H as ([[? ?] ?] & -> & H). apply bind_Ok in H as ([? ?] & -> & H). cbn [mbind result_bind] in *.
  apply bind_Ok in H as (? & -> & H). apply bind_Ok in H as (? & _ & H). injection H as <-. cbn [mbind result_bind]. rewrite Hs. by eexists.
Qed.

(** Funding a contract that awaits it changes its status and its amount, and none of the
    cells the quote commits to. *)
Lemma escrow_funded data st : DecodeEscrowDataV1 (Some data) = Ok st ->
  exists data' st' bound, DecodeEscrowDataV1 (Some data') = Ok st' /\ committed_cells data' = committed_cells data /\
    acceptedQuoteBoundValues (st_AcceptedQuote st) = Ok bound /\ st_Status st' = EscrowStatusFunded /\
    st_QuoteCommitment st' = st_QuoteCommitment st /\ st_FundedAtomicAmount st' = FormatZ (bv_maximum bound).
Proof using LL XL.
  intros H. pose proof H as (root & bound & t & runtime & w & Hr & Hb & _ & _ & _ & _ & _ & Hru & _ & _ & _ & Est)%decode_escrow_inv.
  pose proof (boundValues_inv _ _ Hb) as Hm. destruct (decodeEscrowRoot_inv _ _ Hr) as (_ & Eq & Et & Ea).
  destruct (funded_runtime_decode (bv_maximum bound) (ru_route runtime) (ru_transport runtime) (ru_dispute runtime)) as (ru' & _ & Hru'); [lia|].
  destruct (data_decode EscrowStatusFunded (er_quote root) (er_terms root) (er_authorization root) ru') as (data' & _ & Hr'); [done|].
  destruct (decode_escrow_status data data' st root _ bound runtime _ H Hr Hb Hru Hr' eq_refl (eq_sym Eq) eq_refl (eq_sym Et) eq_refl
    (eq_sym Ea) Hru' eq_refl eq_refl eq_refl) as (st' & Hd' & Hst' & Hq' & Hf').
  { cbn [er_status]. unfold checkEscrowStatus, reject. cbn [ru_funded ru_settled ru_receipt ru_pendingQueryID EscrowStatusFunded EscrowStatusAwaitingFunding Z.eqb].
    unfold is_zero32. rewrite Z.eqb_refl, bool_decide_true by done. reflexivity. }
  exists data', st', bound. rewrite Est at 1. cbn [st_AcceptedQuote].
  split_and!; [done| |done..]. rewrite (committed_cells_eq _ _ _ _ Hr Hb Hru).
  exact (committed_cells_eq data' _ bound _ Hr' Hb Hru').
Qed.
End Escrow.

(** ** The properties on a concrete escrow *)

Module Sample.
#[local] Existing Instances sampleCells rawAddressLib sampleCellX.

(** A parser of the two schemes, with no port, path or user. *)
Definition parsed (scheme host text : string) : ParsedURL :=
  {| u_Scheme := scheme; u_Host := host; u_HasUser := false; u_RawQuery := ""; u_Fragment := ""; u_Path := ""; u_RawPath := "";
     u_Opaque := ""; u_ForceQuery := false; u_Hostname := host; u_String := text |}.
Definition sampleParser : TransportParser := {|
  url_Parse s :=
    if HasPrefix s "https://" then Some (parsed "https" (drop_bytes 8 s) s)
    else if HasPrefix s "http://" then Some (parsed "http" (drop_bytes 7 s) s) else None;
  ParseIP s := if streq s "127.0.0.1" then Some 0xffff7f000001 else if streq s "::1" then Some 1 else None;
  unicode_ToLower s := s |}.
#[local] Existing Instance sampleParser.

Definition hash (n : N) : string := repeat_byte (ascii_of_N n) 32.
Definition account (n : N) : string := "0:" +:+ hex_EncodeToString (hash n).
Definition ok {A} (d : A) (r : nresult A) : A := match r with Ok a => a | _ => d end.
Definition none : Cell := TCell [] [].

Definition terms : EscrowTermsV1 :=
  {| BuyerAddress := account 21; ProviderAddress := account 22; FundingDeadline := 1700000000; RefundAvailableAt := 1700009000 |}.
Definition transport : TransportBindingV1 := {| SecurityMode := 1; MaxRequestBytes := 65536; BaseURL := "https://provider.example" |}.
Definition walletCode : Cell := TCell [true; true] [].
Definition code : Cell := TCell [true; false] [].

Definition termsCell : Cell := ok none (BuildEscrowTermsCellV1 terms).
Definition signerCell : Cell := ok none (BuildEscrowAuthorizationCellV1 (hash 23)).
Definition transportCell : Cell := (ok (none, ""%string) (BuildTransportBindingCellV1 transport)).1.
Definition disputeCell : Cell := (ok (none, ""%string) BuildObjectiveDisputePolicyCellV1).1.

(** The quote of this escrow, at a given price. *)
Definition raw : QuoteRaw :=
  Build_QuoteRaw (hash 3) (hash 4) (hash 5) (Hash transportCell) (Hash termsCell) (Hash disputeCell) (Hash signerCell)
    (hash 10) (Hash walletCode).
Definition proposal (price : string) : QuoteProposalV1 := proposal_of raw "p1" "1.0.0" price (hash 12) 6 1800000000.
Definition quote (price : string) : Cell :=
  (ok (none, ""%string) (BuildAcceptedQuoteCommitment (Some Quote.Sample.network) (Some (proposal price)) (sha_text (q_signer raw)))).1.

Definition init (price : string) : EscrowInitV1 :=
  {| AcceptedQuote := Some (quote price); Terms := terms; ExecutionSignerEd25519 := hash 23; TransportBinding := transport;
     AssetMasterAddress := account 12; AssetWalletCode := Some walletCode |}.

Lemma terms_ok : terms_typed terms.
Proof. split; by apply u64_lit. Qed.
Lemma transport_ok : transport_typed transport.
Proof. by split; split. Qed.
Lemma proposal_of_typed q id version amount acc dec exp : u64 exp -> 0 <= dec < two32 ->
  proposal_typed (proposal_of q id version amount acc dec exp).
Proof. intros Hx Hd. split; [exact Hx|]. by intros ? ? [= <-] [= <-]. Qed.
Lemma proposal_ok price : proposal_typed (proposal price).
Proof. apply proposal_of_typed; [by apply u64_lit|by split]. Qed.

Definition asset : TOSAssetIdentityV1 :=
  {| Master := Some {| Workchain := 0; AccountId := hash 12; CodeHash := "tvm-cell-sha256:" +:+ hex_EncodeToString (hash 10) |};
     WalletCodeHash := "tvm-cell-sha256:" +:+ hex_EncodeToString (Hash walletCode); Decimals := 6 |}.
Definition money (price : string) : MoneyV1 := {| MoneyAsset := Some asset; AtomicAmount := price |}.

(** Projections of the sample only: its hashes are not evaluated. *)
Ltac fields :=
  cbn [init proposal proposal_of raw money asset AcceptedQuote Terms ExecutionSignerEd25519 TransportBinding AssetMasterAddress
       AssetWalletCode MaximumPrice EscrowTermsDigest TransportBindingDigest DisputePolicyDigest MoneyAsset AtomicAmount Master
       WalletCodeHash AccountId q_transport q_escrow q_dispute q_signer q_masterCode q_walletCode].

Lemma made price : made_for (proposal price) (sha_text (q_signer raw)) (money price) (quote price) (init price).
Proof.
  split; fields.
  - reflexivity.
  - exact (conj terms_ok transport_ok).
  - exists termsCell. split; [vm_compute; reflexivity|reflexivity].
  - exists signerCell. split; [vm_compute; reflexivity|reflexivity].
  - exists transportCell. vm_compute. reflexivity.
  - exists disputeCell. vm_compute. reflexivity.
  - reflexivity.
  - do 2 eexists. exists (0, hash 12), walletCode. split; [reflexivity|]. fields. split; [reflexivity|]. fields.
    split; [vm_compute; reflexivity|]. split; [reflexivity|]. split; reflexivity.
Qed.

Lemma hash_ok c : is_zero32 (Hash c) = false -> digest32 (Hash c).
Proof. intros H. split; [apply hash_raw|by apply bool_decide_eq_false in H]. Qed.

Lemma raw_valid price : price = "250000"%string \/ price = "0"%string -> quote_valid raw "1.0.0" price (hash 12) 6 1800000000.
Proof.
  intros Hp. split.
  - repeat apply Forall_cons_2; cbn [raw q_capability q_provider q_manifest q_transport q_escrow q_dispute q_signer q_masterCode q_walletCode];
      try (apply hash_ok; vm_compute; reflexivity); [by split..|by apply Forall_nil_2].
  - reflexivity.
  - by destruct Hp as [-> | ->].
  - by split.
  - by split.
  - done.
Qed.

Lemma built_again network p auth root : BuildAcceptedQuoteCommitment network p auth = Ok (root, commitment_of root) ->
  let again := (ok (none, ""%string) (BuildAcceptedQuoteCommitment network p auth)).1 in
  BuildAcceptedQuoteCommitment network p auth = Ok (again, commitment_of again).
Proof. intros H. rewrite H. exact eq_refl. Qed.

Lemma accepted price : price = "250000"%string \/ price = "0"%string ->
  BuildAcceptedQuoteCommitment (Some Quote.Sample.network) (Some (proposal price)) (sha_text (q_signer raw)) =
    Ok (quote price, commitment_of (quote price)).
Proof.
  intros Hp. destruct (valid_build (Some Quote.Sample.network) (ok none (domainCell (Some Quote.Sample.network))) raw "p1" "1.0.0" price
    (hash 12) 6 1800000000 ltac:(vm_compute; reflexivity) (raw_valid price Hp) ltac:(done) ltac:(by apply u64_lit)) as (root & Hb & _).
  exact (built_again _ _ _ _ Hb).
Qed.

Lemma derivable : exists id, BuildEscrowStateInitV1 0 (Some code) (init "250000") = Ok id.
Proof.
  destruct (made_for_inv Quote.Sample.network (proposal "250000") (sha_text (q_signer raw)) (quote "250000")
    (commitment_of (quote "250000")) (money "250000") (init "250000") 250000 (proposal_ok _) (accepted _ (or_introl eq_refl)) (made _)
    eq_refl) as (te & au & _ & Hd). by apply Hd.
Qed.

Lemma escrow_init_roundtrip_witness :
  exists id quote' walletCode', AcceptedQuote (init "250000") = Some quote' /\
    AssetWalletCode (init "250000") = Some walletCode' /\
    DecodeEscrowDataV1 (Some (id_Data id)) = Ok (initial_state (init "250000") id quote' walletCode').
Proof.
  destruct derivable as (id & Hid).
  exact (ex_intro _ id (escrow_init_roundtrip 0 (Some code) (init "250000") id terms_ok transport_ok Hid)).
Defined.

(** The contract at 250000 units, and its state. *)
Definition state (id : EscrowIdentityV1) : EscrowStateV1 := initial_state (init "250000") id (quote "250000") walletCode.
Lemma decoded : exists id, BuildEscrowStateInitV1 0 (Some code) (init "250000") = Ok id /\
  DecodeEscrowDataV1 (Some (id_Data id)) = Ok (state id).
Proof.
  destruct derivable as (id & Hid). exists id. split; [exact Hid|].
  exact (build_escrow_decodes 0 (Some code) (init "250000") id (quote "250000") walletCode terms_ok transport_ok Hid eq_refl eq_refl).
Qed.

Lemma escrow_state_sound_witness :
  exists id, BuildEscrowStateInitV1 0 (Some code) (init "250000") = Ok id /\
  exists bound funded settled, acceptedQuoteBoundValues (st_AcceptedQuote (state id)) = Ok bound /\
    st_FundedAtomicAmount (state id) = FormatZ funded /\ st_SettledAtomicAmount (state id) = FormatZ settled /\
    settled <= funded <= bv_maximum bound.
Proof.
  destruct decoded as (id & Hid & Hd).
  destruct (escrow_state_sound (id_Data id) (state id) Hd) as (b & f & s & Hb & _ & _ & _ & _ & Hf & Hs & [[_ H1] [H2 _]] & _).
  exact (ex_intro _ id (conj Hid (ex_intro _ b (ex_intro _ f (ex_intro _ s (conj Hb (conj Hf (conj Hs (conj H1 H2))))))))).
Defined.

(** The contract as derived, which awaits its funding, and the same contract funded. *)
Lemma escrow_quote_determines_witness :
  exists id data st, BuildEscrowStateInitV1 0 (Some code) (init "250000") = Ok id /\ DecodeEscrowDataV1 (Some data) = Ok st /\
    st_Status (state id) = EscrowStatusAwaitingFunding /\ st_Status st = EscrowStatusFunded /\
    st_BuyerAddress st = account 21 /\ st_ProviderAddress st = account 22 /\ st_FundingDeadline st = 1700000000 /\
    st_TransportBinding st = transport.
Proof.
  destruct decoded as (id & Hid & Hd). destruct (escrow_funded _ _ Hd) as (data & st & bound & Hd' & Hc & _ & Hs & Hq & _).
  destruct (escrow_quote_determines data (id_Data id) st (state id) Hd' Hd Hq) as (_ & (Hb & Hp) & (Hf & _) & _ & _ & Ht & _).
  - rewrite Hc. apply Forall2_diag_elem. intros c _ _. reflexivity.
  - exists id, data, st. exact (conj Hid (conj Hd' (conj eq_refl (conj Hs (conj Hb (conj Hp (conj Hf Ht))))))).
Defined.

(** At a price of 250000 units the contract can be derived; at a price of zero it cannot. *)
Lemma quote_escrow_deployable_witness :
  ((exists id, BuildEscrowStateInitV1 0 (Some code) (init "250000") = Ok id) <->
   0 < 250000 < 2 ^ 120 /\ FundingDeadline (Terms (init "250000")) <= ExpiresAtUnixSeconds (proposal "250000")) /\
  ((exists id, BuildEscrowStateInitV1 0 (Some code) (init "0") = Ok id) <->
   0 < 0 < 2 ^ 120 /\ FundingDeadline (Terms (init "0")) <= ExpiresAtUnixSeconds (proposal "0")).
Proof.
  split.
  - exact (quote_escrow_deployable Quote.Sample.network (proposal "250000") (sha_text (q_signer raw)) (quote "250000")
      (commitment_of (quote "250000")) (money "250000") (init "250000") code 250000 (proposal_ok _) (accepted _ (or_introl eq_refl))
      (made _) eq_refl).
  - exact (quote_escrow_deployable Quote.Sample.network (proposal "0") (sha_text (q_signer raw)) (quote "0")
      (commitment_of (quote "0")) (money "0") (init "0") code 0 (proposal_ok _) (accepted _ (or_intror eq_refl)) (made _) eq_refl).
Defined.

(** A plaintext transport must name the loopback host. *)
Example loopback_hosts :
  validLoopbackEndpoint <$> ["localhost"; "LocalHost."; "127.0.0.1"; "::1"; "localhost.example"; "10.0.0.1"]%string =
  [true; true; true; true; false; false].
Proof. vm_compute. reflexivity. Qed.
End Sample.
