(* ===== verification/QuoteV2.v ===== *)
(** * Accepted quotes with a paid-demand extension (src/pkg/nativecore/quote_v2.go)

    Schema 2 of an accepted quote keeps the schema-1 cells and hangs a typed
    extension under the authority cell.  The schema-1 commitment of the same terms,
    the projection, is part of what the extension's offer is bound to. *)

From S2P Require Import Prelude Sha256 Text ChainLib CellLib Native Quote EscrowLib.

Definition paidDemandExtensionMagic : Z := 0x4e504431.

Record PaidDemandQuoteExtensionV1 := {
  ProviderOfferCanonical : string;
  ProviderOfferBindingDigest : string;
  ProviderOfferDigest : string;
  AcceptByUnix : Z;
  ExecutionDeadline : Z }.

Record AcceptedQuoteTermsV2 := {
  NativeTermsProjection : string;
  TermsV1 : AcceptedQuoteTermsV1;
  Extension : PaidDemandQuoteExtensionV1 }.

Section QuoteV2.
Context `{X : CellX} {D : CellDepth L}.

(** ** Chains of byte cells *)

(** [value[start:end]]. *)
Definition byte_slice (value : string) (start end_ : nat) : string := take_bytes (end_ - start) (drop_bytes start value).

(** The loop of [buildSnakeBytes], from the end of the value; each round takes at least one byte. *)
Fixpoint snakeLoop (fuel : nat) (value : string) (end_ : nat) (next : option Cell) : nresult (option Cell) :=
  if (end_ =? 0)%nat then Ok next
  else
    match fuel with
    | O => Panic "out of fuel"
    | S fuel =>
        let start := (end_ - 120)%nat in
        let part := byte_slice value start end_ in
        let builder := begin_cell |>> MustStoreSlice part (8 * slen part) in
        cell ← end_cell (match next with Some next => builder |>> MustStoreRef next | None => builder end);
        snakeLoop fuel value start (Some cell)
    end.

Definition buildSnakeBytes (value : string) : nresult Cell :=
  reject (slen value =? 0) "empty snake bytes";;
  next ← snakeLoop (String.length value) value (String.length value) None;
  must next.

(** The loop of [decodeSnakeBytes]: a reference leads to a cell of lesser depth.  Errors of
    the library pass through; only their presence matters. *)
Fixpoint decodeSnake (fuel : nat) (current : Cell) (out : string) : nresult string :=
  match fuel with
  | O => Panic "out of fuel"
  | S fuel =>
      let invalid := "invalid Paid Demand binding byte chain"%string in
      parser ← orelse (BeginParse current) invalid;
      reject (negb (BitsLeft parser mod 8 =? 0) || (1 <? RefsNum parser)) invalid;;
      part ← orelse (LoadSlice (BitsLeft parser) parser) "cell underflow";
      let out := out +:+ part.1 in
      if RefsNum part.2 =? 0 then Ok out
      else
        next ← orelse (LoadRefCell part.2) "no more references";
        decodeSnake fuel next.1 out
  end.

Definition decodeSnakeBytes (root : Cell) (size : Z) : nresult string :=
  result_ ← decodeSnake (S (Depth root)) root "";
  reject (negb (slen result_ =? size)) "Paid Demand binding byte length mismatch";;
  Ok result_.

(** ** The extension *)

Definition buildPaidDemandExtensionCell (value : PaidDemandQuoteExtensionV1) : nresult Cell :=
  bindingDigest ← or_err (digestBytes (ProviderOfferBindingDigest value) "sha256:" false) (PlainError "invalid Paid Demand binding");
  reject ((slen (ProviderOfferCanonical value) =? 0) || (Z.shiftl 64 10 <? slen (ProviderOfferCanonical value)))
    "invalid Paid Demand binding";;
  offerDigest ← or_err (digestBytes (ProviderOfferDigest value) "sha256:" false) (PlainError "invalid Paid Demand Offer or deadlines");
  reject ((AcceptByUnix value =? 0) || (ExecutionDeadline value <=? AcceptByUnix value)) "invalid Paid Demand Offer or deadlines";;
  bytesCell ← buildSnakeBytes (ProviderOfferCanonical value);
  end_cell (begin_cell |>> MustStoreUInt paidDemandExtensionMagic 32 |>> MustStoreUInt 1 16 |>> MustStoreSlice bindingDigest 256
              |>> MustStoreSlice offerDigest 256 |>> MustStoreUInt (AcceptByUnix value) 64
              |>> MustStoreUInt (ExecutionDeadline value) 64 |>> MustStoreUInt (slen (ProviderOfferCanonical value)) 32
              |>> MustStoreRef bytesCell).

Definition decodePaidDemandExtensionCell (root : option Cell) : nresult PaidDemandQuoteExtensionV1 :=
  root ← orelse root "missing Paid Demand extension";
  let invalid := "invalid Paid Demand extension"%string in
  parser ← orelse (BeginParse root) invalid;
  magic ← orelse (LoadUInt 32 parser) invalid;
  reject (negb (magic.1 =? paidDemandExtensionMagic)) invalid;;
  schema ← orelse (LoadUInt 16 magic.2) invalid;
  reject (negb (schema.1 =? 1)) invalid;;
  binding ← orelse (LoadSlice 256 schema.2) "invalid Paid Demand binding digest";
  offer ← orelse (LoadSlice 256 binding.2) "invalid Paid Demand Offer digest";
  acceptBy ← orelse (LoadUInt 64 offer.2) "invalid Paid Demand acceptance deadline";
  executionDeadline ← orelse (LoadUInt 64 acceptBy.2) "invalid Paid Demand execution deadline";
  reject ((acceptBy.1 =? 0) || (executionDeadline.1 <=? acceptBy.1)) "invalid Paid Demand execution deadline";;
  size ← orelse (LoadUInt 32 executionDeadline.2) "invalid Paid Demand binding size";
  reject ((size.1 =? 0) || (Z.shiftl 64 10 <? size.1)) "invalid Paid Demand binding size";;
  bytesCell ← orelse (LoadRefCell size.2) "invalid Paid Demand extension shape";
  endOf bytesCell.2 "invalid Paid Demand extension shape";;
  canonical ← decodeSnakeBytes bytesCell.1 size.1;
  Ok {| ProviderOfferCanonical := canonical; ProviderOfferBindingDigest := sha_text binding.1;
        ProviderOfferDigest := sha_text offer.1; AcceptByUnix := acceptBy.1; ExecutionDeadline := executionDeadline.1 |}.

Definition EncodePaidDemandExtensionBOC (value : PaidDemandQuoteExtensionV1) : nresult string :=
  root ← buildPaidDemandExtensionCell value;
  Ok (StdEncoding (ToBOC root)).

(** ** The commitment *)

Definition authorityCellV1 (signer : string) : nresult Cell := end_cell (begin_cell |>> MustStoreSlice signer 256).

Definition quoteRootCell (schema : Z) (domain identity economic authority : Cell) : nresult Cell :=
  end_cell (begin_cell |>> MustStoreUInt acceptedQuoteMagic 32 |>> MustStoreUInt schema 16 |>> MustStoreRef domain
              |>> MustStoreRef identity |>> MustStoreRef economic |>> MustStoreRef authority).

(** The root, its commitment and that of the projection.  The projection was just built,
    so the loads whose errors the code drops cannot fail. *)
Definition BuildAcceptedQuoteCommitmentV2 (network : option NetworkDomain) (proposal : option QuoteProposalV1)
    (executionSignerAuthorization : string) (extension : PaidDemandQuoteExtensionV1) : nresult (Cell * string * string) :=
  '(projection, projectionDigest) ← BuildAcceptedQuoteCommitment network proposal executionSignerAuthorization;
  extensionCell ← buildPaidDemandExtensionCell extension;
  parser ← must (BeginParse projection);
  magic ← must (LoadUInt 32 parser);
  schema ← must (LoadUInt 16 magic.2);
  domain ← must (LoadRefCell schema.2);
  identity ← must (LoadRefCell domain.2);
  economic ← must (LoadRefCell identity.2);
  authorityV1 ← must (LoadRefCell economic.2);
  let invalid := "invalid Accepted Quote authority"%string in
  authorityParser ← orelse (BeginParse authorityV1.1) invalid;
  signer ← orelse (LoadSlice 256 authorityParser) invalid;
  endOf signer.2 invalid;;
  authorityV2 ← end_cell (begin_cell |>> MustStoreSlice signer.1 256 |>> MustStoreRef extensionCell);
  root ← quoteRootCell 2 domain.1 identity.1 economic.1 authorityV2;
  Ok (root, commitment_of root, projectionDigest).

Definition DecodeAcceptedQuoteV2 (root : option Cell) (network : option NetworkDomain) : nresult AcceptedQuoteTermsV2 :=
  root ← orelse root "missing Accepted Quote";
  let unsupported := "unsupported Accepted Quote schema"%string in
  parser ← orelse (BeginParse root) unsupported;
  magic ← orelse (LoadUInt 32 parser) unsupported;
  reject (negb (magic.1 =? acceptedQuoteMagic)) unsupported;;
  schema ← orelse (LoadUInt 16 magic.2) unsupported;
  reject (negb (schema.1 =? 2)) unsupported;;
  domain ← orelse (LoadRefCell schema.2) "missing Quote domain";
  identity ← orelse (LoadRefCell domain.2) "missing Quote identity";
  economic ← orelse (LoadRefCell identity.2) "missing Quote economics";
  authorityV2 ← orelse (LoadRefCell economic.2) "invalid Quote shape";
  endOf authorityV2.2 "invalid Quote shape";;
  authorityParser ← orelse (BeginParse authorityV2.1) "invalid Quote authority";
  signer ← orelse (LoadSlice 256 authorityParser) "invalid Quote signer";
  extensionCell ← orelse (LoadRefCell signer.2) "invalid Quote extension authority";
  endOf extensionCell.2 "invalid Quote extension authority";;
  authorityV1 ← authorityCellV1 signer.1;
  projection ← quoteRootCell 1 domain.1 identity.1 economic.1 authorityV1;
  terms ← DecodeAcceptedQuoteV1 (Some projection) network;
  extension ← decodePaidDemandExtensionCell (Some extensionCell.1);
  let canonical := PlainError "Accepted Quote schema 2 is not canonical" in
  '(rebuilt, _, projectionDigest) ←
    or_err (BuildAcceptedQuoteCommitmentV2 network (Some (Proposal terms)) (ExecutionSignerAuthorization terms) extension) canonical;
  fail_if (negb (streq (Hash rebuilt) (Hash root))) canonical;;
  Ok {| NativeTermsProjection := projectionDigest; TermsV1 := terms; Extension := extension |}.

(** ** Byte chains are read back *)

Context {LL : CellLaws L} {XL : CellXLaws X LL} {DL : CellDepthLaws D LL}.

(** A cell that starts a chain with the given bytes, in order. *)
Inductive chain : Cell -> string -> Prop :=
  | chain_last c part : holds c (bytes_bits part) [] -> chain c part
  | chain_next c part next rest : holds c (bytes_bits part) [next] -> chain next rest -> chain c (part +:+ rest).

Lemma chain_depth c next bits : holds c bits [next] -> (Depth next < Depth c)%nat.
Proof using DL. intros (s & Hs & _ & Hr). eapply depth_ref; [exact Hs|]. rewrite Hr. by left. Qed.

(** One round of the reader. *)
Lemma chain_round c part refs fuel out : holds c (bytes_bits part) refs -> (length refs <= 1)%nat ->
  exists s, s_refs s = refs /\
    decodeSnake (S fuel) c out =
      if RefsNum s =? 0 then Ok (out +:+ part)
      else next ← orelse (LoadRefCell s) "no more references"; decodeSnake fuel next.1 (out +:+ part).
Proof using LL.
  intros (s & Hs & Hb & Hr) Hl. destruct (load_slice _ s part [] eq_refl) as (s' & Hp & _ & Hr'); [by rewrite app_nil_r|].
  exists s'. split; [congruence|]. cbn [decodeSnake]. rewrite Hs. cbn [orelse opt_err mbind result_bind].
  rewrite bits_left, refs_num, Hb, Hr, length_bytes_bits.
  replace (Z.of_nat (8 * String.length part) mod 8) with 0 by dlia. replace (1 <? Z.of_nat (length refs)) with false by lia.
  cbn [Z.eqb negb orb reject fail_if mbind result_bind]. rewrite Hp. reflexivity.
Qed.

Lemma decodeSnake_chain c value : chain c value -> forall fuel out, (Depth c < fuel)%nat ->
  decodeSnake fuel c out = Ok (out +:+ value).
Proof using DL.
  induction 1 as [c part Hc|c part next rest Hc _ IH]; intros [|fuel] out Hf; try lia.
  - destruct (chain_round c part [] fuel out Hc ltac:(cbn; lia)) as (s & Hr & ->). by rewrite refs_num, Hr.
  - pose proof (chain_depth _ _ _ Hc). destruct (chain_round c part [next] fuel out Hc ltac:(cbn; lia)) as (s & Hr & ->).
    rewrite refs_num, Hr. cbn [length Z.of_nat Pos.of_succ_nat Z.eqb]. destruct (load_ref s next [] Hr) as (s'' & -> & _).
    cbn [orelse opt_err mbind result_bind fst]. rewrite IH by lia. by rewrite app_assoc_str.
Qed.

Lemma drop_bytes_all value : drop_bytes (String.length value) value = ""%string.
Proof using. by induction value. Qed.

Lemma byte_slice_split value start end_ : (start <= end_ <= String.length value)%nat ->
  drop_bytes start value = byte_slice value start end_ +:+ drop_bytes end_ value /\
  String.length (byte_slice value start end_) = (end_ - start)%nat.
Proof using.
  revert start end_. induction value as [|c value IH]; intros start end_ H.
  - destruct start, end_; cbn in *; try lia. done.
  - destruct start as [|start], end_ as [|end_]; cbn in H; try lia; unfold byte_slice in *.
    + done.
    + destruct (IH O end_ ltac:(lia)) as [E1 E2]. cbn [Nat.sub take_bytes drop_bytes String.length] in *.
      rewrite Nat.sub_0_r in *. rewrite app_cons_str, <- E1, E2. split; [done|lia].
    + cbn [Nat.sub drop_bytes]. apply IH. lia.
Qed.

Lemma snakeLoop_chain fuel value end_ next :
  (end_ <= String.length value)%nat -> (end_ <= fuel)%nat ->
  match next with None => end_ = String.length value | Some n => chain n (drop_bytes end_ value) end ->
  match next with None => value <> ""%string | Some _ => True end ->
  exists c, snakeLoop fuel value end_ next = Ok (Some c) /\ chain c value.
Proof using LL.
  revert end_ next. induction fuel as [|fuel IH]; intros end_ next Hl Hf Hn Hne; cbn [snakeLoop].
  - assert (end_ = O) as -> by lia. cbn. destruct next as [n|]; [by exists n|]. by destruct value.
  - destruct (Nat.eqb_spec end_ 0) as [->|He].
    { destruct next as [n|]; [by exists n|]. by destruct value. }
    destruct (byte_slice_split value (end_ - 120) end_ ltac:(lia)) as [Hsplit Hlen]. set (part := byte_slice _ _ _) in *.
    assert (8 * String.length part <= 1023)%nat by lia.
    destruct next as [n|].
    + destruct (filled_end (E := nerror) (begin_cell |>> MustStoreSlice part (8 * slen part) |>> MustStoreRef n) (bytes_bits part) [n]) as (c & -> & Hc).
      { change (bytes_bits part) with ([] ++ bytes_bits part). change [n] with ([] ++ [n]).
        apply filled_ref; [|cbn; lia]. apply filled_slice; [apply filled_begin|done|cbn; lia]. }
      cbn [mbind result_bind]. apply IH; [lia|lia| |done]. rewrite Hsplit. by eapply chain_next.
    + destruct (filled_end (E := nerror) (begin_cell |>> MustStoreSlice part (8 * slen part)) (bytes_bits part) []) as (c & -> & Hc).
      { change (bytes_bits part) with ([] ++ bytes_bits part). apply filled_slice; [apply filled_begin|done|cbn; lia]. }
      cbn [mbind result_bind]. apply IH; [lia|lia| |done]. rewrite Hsplit, Hn, drop_bytes_all, app_nil_r_str. by apply chain_last.
Qed.

Lemma snake_roundtrip value : value <> ""%string ->
  exists c, buildSnakeBytes value = Ok c /\ decodeSnakeBytes c (slen value) = Ok value.
Proof using LL XL DL.
  intros Hv. destruct (snakeLoop_chain (String.length value) value (String.length value) None) as (c & Hb & Hc); try done.
  exists c. unfold buildSnakeBytes, decodeSnakeBytes. split.
  - assert (slen value <> 0) by (destruct value; [done|unfold slen; cbn; lia]). replace (slen value =? 0) with false by lia.
    cbn [reject fail_if mbind result_bind]. by rewrite Hb.
  - rewrite (decodeSnake_chain c value Hc) by lia. cbn. by rewrite Z.eqb_refl.
Qed.

(** The depth of a cell bounds the reader's rounds, whatever the cell. *)
Lemma decodeSnake_total fuel c out : (Depth c < fuel)%nat -> no_panic (decodeSnake fuel c out).
Proof using DL.
  revert c out. induction fuel as [|fuel IH]; intros c out Hf; [lia|]. cbn [decodeSnake]. unfold orelse, reject.
  repeat total_step. inv_ok. match goal with |- no_panic (if ?b then _ else _) => destruct b end; [exact I|]. apply bind_no_panic; [apply opt_err_no_panic|].
  intros [next s'] Hn%opt_err_Ok. apply IH.
  match goal with H : LoadSlice _ _ = Some ?x |- _ => destruct x as [part s2]; apply load_slice_refs in H as Hr end.
  cbn in *. apply load_ref_head in Hn. rewrite Hr in Hn. assert (Depth next < Depth c)%nat by (by eapply depth_ref). lia.
Qed.

Lemma decodeSnakeBytes_no_panic c size : no_panic (decodeSnakeBytes c size).
Proof using DL.
  unfold decodeSnakeBytes, reject. apply bind_no_panic; [apply decodeSnake_total; lia|]. intros. by repeat total_step.
Qed.

(** ** The extension is read back *)

Definition ext_typed (e : PaidDemandQuoteExtensionV1) : Prop := u64 (AcceptByUnix e) /\ u64 (ExecutionDeadline e).

Lemma extension_total e : ext_typed e -> no_panic (buildPaidDemandExtensionCell e).
Proof using LL XL DL.
  intros [Ha He]. unfold buildPaidDemandExtensionCell, reject. repeat total_step.
  - inv_ok. guards. destruct (snake_roundtrip (ProviderOfferCanonical e)) as (c & -> & _); [|done].
    intros E. rewrite E in *. done.
  - inv_ok. guards. repeat match goal with H : digestBytes _ _ _ = Ok _ |- _ => apply digestBytes_Ok in H as (_ & ? & _) end.
    unfold raw32, u64 in *. pose proof (slen_nonneg (ProviderOfferCanonical e)).
    change (Z.shiftl 64 10) with 65536 in *. assert (slen (ProviderOfferCanonical e) < 2 ^ 32) by lia. by built c' Hc.
Qed.

Lemma extension_decode e c : ext_typed e -> buildPaidDemandExtensionCell e = Ok c ->
  decodePaidDemandExtensionCell (Some c) = Ok e.
Proof using LL XL DL.
  intros [Ha He]. unfold buildPaidDemandExtensionCell, reject. intros H. inv_ok. guards.
  repeat match goal with H : digestBytes _ _ _ = Ok _ |- _ => apply digestBytes_Ok in H as (? & ? & _) end.
  assert (ProviderOfferCanonical e <> ""%string) as Hne by (intros E; rewrite E in *; done).
  destruct (snake_roundtrip _ Hne) as (b & Eb & Db).
  match goal with H : buildSnakeBytes _ = Ok _ |- _ => rewrite Eb in H; injection H as <- end.
  unfold raw32, u64 in *. pose proof (slen_nonneg (ProviderOfferCanonical e)). change (Z.shiftl 64 10) with 65536 in *.
  assert (0 <= slen (ProviderOfferCanonical e) < 2 ^ Z.of_nat 32) by (change (2 ^ Z.of_nat 32) with 4294967296; lia).
  match goal with H : end_cell _ = Ok _ |- _ => revert H end. built c' Hc. intros [= <-]. apply holds_tail in Hc.
  unfold decodePaidDemandExtensionCell. change (Z.shiftl 64 10) with 65536. cbn [orelse opt_err mbind result_bind]. parse_cell.
  tests. cbn [negb orb reject fail_if mbind result_bind]. rewrite Db. cbn [mbind result_bind]. destruct e. cbn in *. subst. done.
Qed.

(** ** The quote is read back *)

Lemma rootCell_holds schema d i e a : 0 <= schema < 2 ^ 16 ->
  exists c, quoteRootCell schema d i e a = Ok c /\ holds c (ubits 32 acceptedQuoteMagic ++ ubits 16 schema) [d; i; e; a].
Proof using LL. intros Hs. unfold quoteRootCell. built c Hc. by exists c. Qed.

Lemma authorityV1_holds signer : raw32 signer -> exists c, authorityCellV1 signer = Ok c /\ holds c (bytes_bits signer) [].
Proof using LL. unfold raw32. intros Hs. unfold authorityCellV1. built c Hc. by exists c. Qed.

(** The parts of a schema-1 quote that schema 2 reuses. *)
Lemma v1_parts network p auth root com : BuildAcceptedQuoteCommitment network p auth = Ok (root, com) ->
  exists d i e a signer, raw32 signer /\ authorityCellV1 signer = Ok a /\ quoteRootCell 1 d i e a = Ok root /\
    com = commitment_of root.
Proof using.
  unfold BuildAcceptedQuoteCommitment, quoteCells, reject, orelse. intros H.
  repeat match goal with H : mbind _ _ = Ok _ |- _ => apply bind_Ok in H; destruct H as (? & ? & H) end.
  injection H as -> <-.
  repeat match goal with H : or_err _ _ = Ok _ |- _ => apply or_err_Ok in H end.
  match goal with H : end_cell (begin_cell |>> MustStoreSlice ?s 256) = Ok ?a, Hd : digestBytes auth _ _ = Ok ?s |- _ =>
    apply digestBytes_Ok in Hd as (_ & Hs & _) end.
  do 5 eexists. split; [exact Hs|]. split; [eassumption|]. split; [eassumption|done].
Qed.

Lemma build_without_id network p auth :
  BuildAcceptedQuoteCommitment network (Some (without_id p)) auth = BuildAcceptedQuoteCommitment network (Some p) auth.
Proof using. reflexivity. Qed.

(** The schema-2 cells over a schema-1 quote and an extension. *)
Lemma build_v2_run network p auth ext proj com d i e a signer x :
  BuildAcceptedQuoteCommitment network p auth = Ok (proj, com) -> buildPaidDemandExtensionCell ext = Ok x ->
  raw32 signer -> authorityCellV1 signer = Ok a -> quoteRootCell 1 d i e a = Ok proj ->
  exists r a2, BuildAcceptedQuoteCommitmentV2 network p auth ext = Ok (r, commitment_of r, com) /\
    holds r (ubits 32 acceptedQuoteMagic ++ ubits 16 2) [d; i; e; a2] /\ holds a2 (bytes_bits signer) [x].
Proof using LL.
  intros Hb Hx Hs Ha Hr. unfold BuildAcceptedQuoteCommitmentV2. rewrite Hb. cbn [mbind result_bind]. rewrite Hx. cbn [mbind result_bind].
  destruct (rootCell_holds 1 d i e a ltac:(done)) as (? & E & Hproj). rewrite Hr in E. injection E as <-.
  destruct (authorityV1_holds _ Hs) as (? & E & Hau). rewrite Ha in E. injection E as <-. unfold raw32 in Hs.
  apply holds_tail in Hproj, Hau. destruct Hproj as (s & -> & Hb' & Hr'). rewrite <- app_assoc in Hb'.
  repeat first [progress cbn [must mbind result_bind fst snd] | load1]. parse_cell. built a2 Ha2. cbn [mbind result_bind].
  destruct (rootCell_holds 2 d i e a2 ltac:(done)) as (r & -> & Hroot). cbn [mbind result_bind]. by exists r, a2.
Qed.

(** ** Totality *)

Lemma v2_build_no_panic network p auth ext : (forall p', p = Some p' -> proposal_typed p') -> ext_typed ext ->
  no_panic (BuildAcceptedQuoteCommitmentV2 network p auth ext).
Proof using LL XL DL.
  intros Hp He. pose proof (build_no_panic network p auth Hp) as Hn. pose proof (extension_total ext He) as Hx.
  destruct (BuildAcceptedQuoteCommitment network p auth) as [[proj com]|er|pa] eqn:Hb;
    [|by unfold BuildAcceptedQuoteCommitmentV2; rewrite Hb|done].
  destruct (buildPaidDemandExtensionCell ext) as [x|er|pa] eqn:Ex;
    [|by unfold BuildAcceptedQuoteCommitmentV2; rewrite Hb; cbn; rewrite Ex|done].
  destruct (v1_parts _ _ _ _ _ Hb) as (d & i & e & a & signer & Hs & Ha & Hr & _).
  by destruct (build_v2_run network p auth ext proj com d i e a signer x Hb Ex Hs Ha Hr) as (r & a2 & -> & _).
Qed.

Lemma decoded_typed root network t : DecodeAcceptedQuoteV1 root network = Ok t -> proposal_typed (Proposal t).
Proof using LL.
  unfold DecodeAcceptedQuoteV1, reject, orelse. intros H.
  repeat match goal with H : mbind _ _ = Ok _ |- _ => apply bind_Ok in H; destruct H as (? & ? & H) end. injection H as <-.
  match goal with H : decodeQuoteVersion _ = Ok _ |- _ => apply decodeQuoteVersion_typed in H end.
  split; [done|]. intros price asset [= <-]. by eapply decodeQuoteEconomics_typed.
Qed.

Lemma decoded_ext_typed root e : decodePaidDemandExtensionCell root = Ok e -> ext_typed e.
Proof using LL.
  unfold decodePaidDemandExtensionCell, reject, orelse. intros H. inv_ok.
  repeat match goal with H : LoadUInt 64 _ = Some ?x |- _ => destruct x; apply load_uint_range in H; [|done] end. by split.
Qed.

Lemma decode_v2_no_panic root network : no_panic (DecodeAcceptedQuoteV2 root network).
Proof using LL XL DL.
  pose proof (decodeSnakeBytes_no_panic). unfold DecodeAcceptedQuoteV2, orelse, reject, endOf, reject. repeat total_step.
  - match goal with H : opt_err (LoadSlice 256 _) _ = Ok ?x |- no_panic (authorityCellV1 ?x.1) =>
      apply opt_err_Ok in H; destruct x as [sg s']; apply load_slice32 in H; cbn [fst] end.
    by destruct (authorityV1_holds sg) as (c & -> & _).
  - match goal with |- no_panic (quoteRootCell _ ?d ?i ?e ?a) => by destruct (rootCell_holds 1 d i e a) as (c & -> & _) end.
  - apply quote_decode_canonical.
  - unfold decodePaidDemandExtensionCell, orelse, reject, endOf, reject. by repeat total_step.
  - apply or_err_no_panic, v2_build_no_panic; [intros p' [= <-]; by eapply decoded_typed|by eapply decoded_ext_typed].
  - match goal with |- no_panic (let '(_, _) := ?x in _) => destruct x as [[? ?] ?] end. by repeat total_step.
Qed.

(** An encoded quote, and what its root decodes to. *)
Lemma v2_spec n p auth ext root com proj :
  proposal_typed p -> ext_typed ext ->
  BuildAcceptedQuoteCommitmentV2 (Some n) (Some p) auth ext = Ok (root, com, proj) ->
  com = commitment_of root /\
  exists r, BuildAcceptedQuoteCommitment (Some n) (Some p) auth = Ok (r, proj) /\
  DecodeAcceptedQuoteV2 (Some root) (Some n) =
    Ok {| NativeTermsProjection := proj;
          TermsV1 := {| QuoteNetwork := n; Proposal := without_id p; ExecutionSignerAuthorization := auth |};
          Extension := ext |}.
Proof using LL XL DL.
  intros Hp He Hb. pose proof Hb as H0. unfold BuildAcceptedQuoteCommitmentV2 in H0.
  apply bind_Ok in H0 as ([r1 c1] & H1 & H0). apply bind_Ok in H0 as (x & Ex & H0). clear H0.
  destruct (v1_parts _ _ _ _ _ H1) as (d & i & e & a & signer & Hs & Ha & Hr & _).
  destruct (build_v2_run (Some n) (Some p) auth ext r1 c1 d i e a signer x H1 Ex Hs Ha Hr) as (r & a2 & Eb & Hroot & Ha2).
  rewrite Hb in Eb. injection Eb as -> -> ->. split; [done|]. exists r1. split; [done|].
  destruct (build_spec _ _ _ _ _ Hp H1) as (n' & _ & _ & _ & _ & _ & _ & _ & [= <-] & _ & _ & _ & Hd).
  apply holds_tail in Hroot, Ha2. unfold raw32 in Hs. unfold DecodeAcceptedQuoteV2. cbn [orelse opt_err mbind result_bind].
  parse_cell. parse_cell. rewrite Ha. cbn [mbind result_bind]. rewrite Hr. cbn [mbind result_bind]. rewrite Hd. cbn [mbind result_bind].
  rewrite (extension_decode _ _ He Ex). cbn [mbind result_bind Proposal ExecutionSignerAuthorization].
  assert (BuildAcceptedQuoteCommitmentV2 (Some n) (Some (without_id p)) auth ext = Ok (r, commitment_of r, c1)) as -> by exact Hb.
  cbn [or_err mbind result_bind]. unfold streq. by rewrite bool_decide_true.
Qed.

(** ** Properties *)

(** C29: A schema-2 quote can be read back.  When the encoder accepts a proposal and a
    paid-demand extension, the commitment is the hash of the root, the projection is the
    schema-1 commitment of the same terms, and decoding the root on the same network gives
    back the terms (all but the non-canonical identifier), the authorization, the projection
    and the whole extension, its chain of byte cells included. *)
Theorem quote_v2_roundtrip n p auth ext root com proj :
  proposal_typed p -> ext_typed ext ->
  BuildAcceptedQuoteCommitmentV2 (Some n) (Some p) auth ext = Ok (root, com, proj) ->
  com = commitment_of root /\
  (exists r, BuildAcceptedQuoteCommitment (Some n) (Some p) auth = Ok (r, proj)) /\
  DecodeAcceptedQuoteV2 (Some root) (Some n) =
    Ok {| NativeTermsProjection := proj;
          TermsV1 := {| QuoteNetwork := n; Proposal := without_id p; ExecutionSignerAuthorization := auth |};
          Extension := ext |}.
Proof using LL XL DL.
  intros Hp He Hb. destruct (v2_spec _ _ _ _ _ _ _ Hp He Hb) as (-> & r & Hr & Hd). split; [done|]. split; [by exists r|done].
Qed.
End QuoteV2.

(** ** The property on a concrete quote *)

Module Sample.
#[local] Existing Instances sampleCells rawAddressLib sampleCellX sampleDepth.

(** An offer that takes three cells. *)
Definition extension : PaidDemandQuoteExtensionV1 :=
  {| ProviderOfferCanonical := repeat_byte "x" 250; ProviderOfferBindingDigest := sha_text (Quote.Sample.hash 31);
     ProviderOfferDigest := sha_text (Quote.Sample.hash 32); AcceptByUnix := 1700000000; ExecutionDeadline := 1700005000 |}.

Lemma extension_ok : ext_typed extension.
Proof. split; by apply u64_lit. Qed.

Lemma encoded : exists root com proj,
  BuildAcceptedQuoteCommitmentV2 (Some Quote.Sample.network) (Some (Quote.Sample.proposal "p1")) Quote.Sample.signer extension =
    Ok (root, com, proj).
Proof.
  destruct (buildPaidDemandExtensionCell extension) as [x| |] eqn:Ex; [|vm_compute in Ex; discriminate Ex..].
  pose proof (Quote.Sample.built "p1") as Hb.
  destruct (v1_parts _ _ _ _ _ Hb) as (d & i & e & a & signer & Hs & Ha & Hr & _).
  destruct (build_v2_run _ _ _ extension _ _ d i e a signer x Hb Ex Hs Ha Hr) as (r & a2 & E & _). by do 3 eexists.
Qed.

Lemma quote_v2_roundtrip_witness : exists root proj,
  DecodeAcceptedQuoteV2 (Some root) (Some Quote.Sample.network) =
    Ok {| NativeTermsProjection := proj;
          TermsV1 := {| QuoteNetwork := Quote.Sample.network; Proposal := without_id (Quote.Sample.proposal "p1");
                        ExecutionSignerAuthorization := Quote.Sample.signer |};
          Extension := extension |}.
Proof.
  destruct encoded as (root & com & proj & H).
  exact (ex_intro _ root (ex_intro _ proj (proj2 (proj2 (quote_v2_roundtrip Quote.Sample.network (Quote.Sample.proposal "p1")
    Quote.Sample.signer extension root com proj (Quote.Sample.typed _) extension_ok H))))).
Defined.

(** A chain of 250 bytes: 10 in the first cell, 120 in each of the next two. *)
Example chain_cells : match buildSnakeBytes (repeat_byte "x" 250) with
  | Ok (TCell b0 [TCell b1 [TCell b2 []]]) => (length b0, length b1, length b2) = (80, 960, 960)%nat
  | _ => False
  end.
Proof. vm_compute. reflexivity. Qed.
End Sample.
