(* ===== verification/EscrowV2.v ===== *)
(** * Escrow contracts of paid demands (src/pkg/nativecore/escrow_v2.go)

    The second escrow schema embeds a schema-2 quote and waits for the buyer's
    acceptance before it can be funded; its runtime cell also records when it was
    accepted. *)

From S2P Require Import Prelude Sha256 Text Base64 ChainLib CellLib Native Quote EscrowLib Receipt Escrow QuoteV2.

Definition EscrowStatusPendingAcceptanceV2 : Z := 0.
Definition EscrowStatusAwaitingFundingV2 : Z := 1.
Definition EscrowStatusFundedV2 : Z := 2.
Definition EscrowStatusReleasePendingV2 : Z := 3.
Definition EscrowStatusRefundPendingV2 : Z := 4.
Definition PaidDemandAcceptOperationV2 : Z := 0x4e450003.

Section EscrowV2.
Context `{X : CellX} {D : CellDepth L} `{TP : TransportParser}.

Record EscrowInitV2 := {
  i2_Network : option NetworkDomain;
  i2_AcceptedQuote : option Cell;
  i2_Terms : EscrowTermsV1;
  i2_ExecutionSignerEd25519 : string;
  i2_TransportBinding : TransportBindingV1;
  i2_AssetMasterAddress : string;
  i2_AssetWalletCode : option Cell }.

Record EscrowStateV2 := {
  s2_Status : Z;
  s2_QuoteCommitment : string;
  s2_EscrowTermsDigest : string;
  s2_AuthorizationDigest : string;
  s2_TransportDigest : string;
  s2_DisputePolicyDigest : string;
  s2_TransportBinding : TransportBindingV1;
  s2_BuyerAddress : string;
  s2_ProviderAddress : string;
  s2_AssetMasterAddress : string;
  s2_AssetWalletCodeHash : string;
  s2_AssetWalletCode : Cell;
  s2_FundingDeadline : Z;
  s2_RefundAvailableAt : Z;
  s2_AcceptByUnix : Z;
  s2_ExecutionDeadline : Z;
  s2_ProviderOfferDigest : string;
  s2_AcceptedAtUnix : Z;
  s2_FundedAtomicAmount : string;
  s2_SettledAtomicAmount : string;
  s2_ReceiptCommitment : string;
  s2_PendingQueryID : Z;
  s2_AcceptedQuote : Cell;
  s2_ExecutionSignerEd25519 : string }.

(** ** Derivation *)

(** The workchain is narrowed to the byte the address library takes. *)
Definition acceptedQuoteAssetRouteFromProposal (proposal : option QuoteProposalV1) : nresult (string * string) :=
  let missing := "missing Quote asset"%string in
  proposal ← orelse proposal missing;
  price ← orelse (MaximumPrice proposal) missing;
  asset ← orelse (MoneyAsset price) missing;
  m ← orelse (Master asset) missing;
  let master := NewAddress 0 (Workchain m mod 256) (AccountId m) in
  walletHash ← digestBytes (WalletCodeHash asset) "tvm-cell-sha256:" false;
  Ok (addr_StringRaw master, walletHash).

Definition initialRuntimeCellV2 (route transport dispute : Cell) : nresult Cell :=
  end_cell (begin_cell |>> MustStoreUInt escrowRuntimeMagic 32 |>> MustStoreUInt 2 16 |>> MustStoreBigUInt 0 128
              |>> MustStoreBigUInt 0 128 |>> MustStoreSlice zero32 256 |>> MustStoreUInt 0 64 |>> MustStoreUInt 0 64
              |>> MustStoreRef route |>> MustStoreRef transport |>> MustStoreRef dispute).

Definition BuildEscrowStateInitV2 (workchain : Z) (code : option Cell) (init : EscrowInitV2) : nresult EscrowIdentityV1 :=
  let invalid := "invalid escrow V2 code, quote, network, or workchain"%string in
  reject (negb (workchain =? 0)) invalid;;
  code ← orelse code invalid;
  quoteCell ← orelse (i2_AcceptedQuote init) invalid;
  network ← orelse (i2_Network init) invalid;
  quote ← DecodeAcceptedQuoteV2 (Some quoteCell) (Some network);
  terms ← BuildEscrowTermsCellV1 (i2_Terms init);
  authorization ← BuildEscrowAuthorizationCellV1 (i2_ExecutionSignerEd25519 init);
  let badRoute := "invalid escrow V2 asset route"%string in
  masterAddress ← or_err (escrowAddress (i2_AssetMasterAddress init)) (PlainError badRoute);
  walletCode ← orelse (i2_AssetWalletCode init) badRoute;
  transport ← BuildTransportBindingCellV1 (i2_TransportBinding init);
  dispute ← BuildObjectiveDisputePolicyCellV1;
  let proposal := Proposal (TermsV1 quote) in
  let funding := FundingDeadline (i2_Terms init) in
  let refund := RefundAvailableAt (i2_Terms init) in
  reject (negb (streq (EscrowTermsDigest proposal) (sha_text (Hash terms))) ||
          negb (streq (ExecutionSignerAuthorization (TermsV1 quote)) (sha_text (Hash authorization))) ||
          negb (streq (TransportBindingDigest proposal) (sha_text (Hash transport.1))) ||
          negb (streq (DisputePolicyDigest proposal) (sha_text (Hash dispute.1))) ||
          (refund <? funding) || (refund <=? ExecutionDeadline (Extension quote)) ||
          (funding <? AcceptByUnix (Extension quote)) || (ExecutionDeadline (Extension quote) <=? funding))
    "escrow V2 terms, authorization, policy, or deadlines differ from Quote";;
  let differs := "escrow V2 asset route differs from Quote"%string in
  '(quoteMaster, quoteWalletCode) ← or_err (acceptedQuoteAssetRouteFromProposal (Some proposal)) (PlainError differs);
  reject (negb (streq (i2_AssetMasterAddress init) quoteMaster) || negb (streq (Hash walletCode) quoteWalletCode)) differs;;
  route ← assetRouteCell 2 masterAddress walletCode;
  runtime ← initialRuntimeCellV2 route transport.1 dispute.1;
  data ← escrowDataCell 2 EscrowStatusPendingAcceptanceV2 quoteCell terms authorization runtime;
  stateInit ← stateInitCell code data;
  Ok (escrowIdentity workchain code quoteCell terms authorization transport.1 dispute.1 data stateInit).

(** ** The data of a deployed contract *)

(** Errors of the library pass through; only their presence matters. *)
Definition library : string := "cell library error".

Record escrowRuntimeV2 := {
  r2_funded : Z; r2_settled : Z; r2_receipt : string; r2_query : Z; r2_acceptedAt : Z; r2_route : Cell;
  r2_transport : Cell; r2_dispute : Cell }.

Definition decodeEscrowRuntimeV2 (root : Cell) : nresult escrowRuntimeV2 :=
  s ← orelse (BeginParse root) library;
  magic ← orelse (LoadUInt 32 s) "invalid escrow V2 runtime";
  reject (negb (magic.1 =? escrowRuntimeMagic)) "invalid escrow V2 runtime";;
  schema ← orelse (LoadUInt 16 magic.2) "invalid escrow V2 runtime schema";
  reject (negb (schema.1 =? 2)) "invalid escrow V2 runtime schema";;
  funded ← orelse (LoadBigUInt 128 schema.2) library;
  settled ← orelse (LoadBigUInt 128 funded.2) library;
  receipt ← orelse (LoadSlice 256 settled.2) library;
  query ← orelse (LoadUInt 64 receipt.2) library;
  accepted ← orelse (LoadUInt 64 query.2) library;
  route ← orelse (LoadRefCell accepted.2) library;
  transport ← orelse (LoadRefCell route.2) library;
  dispute ← orelse (LoadRefCell transport.2) "invalid escrow V2 runtime shape";
  endOf dispute.2 "invalid escrow V2 runtime shape";;
  Ok {| r2_funded := funded.1; r2_settled := settled.1; r2_receipt := receipt.1; r2_query := query.1;
        r2_acceptedAt := accepted.1; r2_route := route.1; r2_transport := transport.1; r2_dispute := dispute.1 |}.

(** Master address and wallet code. *)
Definition decodeEscrowAssetRouteV2 (root : Cell) : nresult (string * Cell) :=
  s ← orelse (BeginParse root) library;
  magic ← orelse (LoadUInt 32 s) "invalid escrow V2 route";
  reject (negb (magic.1 =? escrowAssetRouteMagic)) "invalid escrow V2 route";;
  schema ← orelse (LoadUInt 16 magic.2) "invalid escrow V2 route schema";
  reject (negb (schema.1 =? 2)) "invalid escrow V2 route schema";;
  masterAddress ← orelse (LoadAddr schema.2) "invalid escrow V2 master";
  walletHash ← orelse (LoadSlice 256 masterAddress.2) library;
  let invalid := "invalid escrow V2 wallet route"%string in
  walletCode ← orelse (LoadRefCell walletHash.2) invalid;
  reject (negb (streq walletHash.1 (Hash walletCode.1))) invalid;;
  endOf walletCode.2 invalid;;
  Ok (addr_StringRaw masterAddress.1, walletCode.1).

Definition validEscrowRuntimeV2 (status amount : Z) (runtime : escrowRuntimeV2) (acceptBy : Z) : bool :=
  let receiptZero := is_zero32 (r2_receipt runtime) in
  let accepted := (0 <? r2_acceptedAt runtime) && (r2_acceptedAt runtime <? acceptBy) in
  if status =? EscrowStatusPendingAcceptanceV2 then
    (r2_acceptedAt runtime =? 0) && (r2_funded runtime =? 0) && (r2_settled runtime =? 0) && receiptZero && (r2_query runtime =? 0)
  else if status =? EscrowStatusAwaitingFundingV2 then
    accepted && (r2_funded runtime =? 0) && (r2_settled runtime =? 0) && receiptZero && (r2_query runtime =? 0)
  else if status =? EscrowStatusFundedV2 then
    accepted && (r2_funded runtime =? amount) && (r2_settled runtime =? 0) && receiptZero && (r2_query runtime =? 0)
  else if status =? EscrowStatusReleasePendingV2 then
    accepted && (r2_funded runtime =? amount) && (r2_settled runtime =? amount) && negb receiptZero && negb (r2_query runtime =? 0)
  else if status =? EscrowStatusRefundPendingV2 then
    accepted && (r2_funded runtime =? amount) && (r2_settled runtime =? 0) && receiptZero && negb (r2_query runtime =? 0)
  else false.

Definition decodeEscrowRootV2 (data : Cell) : nresult EscrowRoot :=
  s ← orelse (BeginParse data) "invalid escrow V2 data";
  magic ← orelse (LoadUInt 32 s) "invalid escrow V2 magic";
  reject (negb (magic.1 =? escrowDataMagic)) "invalid escrow V2 magic";;
  schema ← orelse (LoadUInt 16 magic.2) "unsupported escrow V2 schema";
  reject (negb (schema.1 =? 2)) "unsupported escrow V2 schema";;
  status ← orelse (LoadUInt 8 schema.2) "invalid escrow V2 status";
  reject (EscrowStatusRefundPendingV2 <? status.1) "invalid escrow V2 status";;
  quoteHash ← orelse (LoadSlice 256 status.2) library;
  termsHash ← orelse (LoadSlice 256 quoteHash.2) library;
  authHash ← orelse (LoadSlice 256 termsHash.2) library;
  quoteCell ← orelse (LoadRefCell authHash.2) "escrow V2 Quote commitment mismatch";
  reject (negb (streq quoteHash.1 (Hash quoteCell.1))) "escrow V2 Quote commitment mismatch";;
  termsCell ← orelse (LoadRefCell quoteCell.2) "escrow V2 terms commitment mismatch";
  reject (negb (streq termsHash.1 (Hash termsCell.1))) "escrow V2 terms commitment mismatch";;
  authCell ← orelse (LoadRefCell termsCell.2) "escrow V2 authorization commitment mismatch";
  reject (negb (streq authHash.1 (Hash authCell.1))) "escrow V2 authorization commitment mismatch";;
  runtimeCell ← orelse (LoadRefCell authCell.2) "invalid escrow V2 data shape";
  endOf runtimeCell.2 "invalid escrow V2 data shape";;
  Ok {| er_status := status.1; er_quoteHash := quoteHash.1; er_termsHash := termsHash.1; er_authorizationHash := authHash.1;
        er_quote := quoteCell.1; er_terms := termsCell.1; er_authorization := authCell.1; er_runtime := runtimeCell.1 |}.

(** [new(big.Int).SetString(proposal.MaximumPrice.AtomicAmount, 10)]: a proposal with no
    price would be a nil dereference. *)
Definition proposalAmount (proposal : QuoteProposalV1) : nresult (option Z) :=
  match MaximumPrice proposal with
  | Some price => Ok (SetString10 (AtomicAmount price))
  | None => Panic "nil dereference"
  end.

Definition DecodeEscrowDataV2 (data : option Cell) (network : option NetworkDomain) : nresult EscrowStateV2 :=
  data ← orelse data "missing escrow V2 data or network";
  network ← orelse network "missing escrow V2 data or network";
  root ← decodeEscrowRootV2 data;
  quote ← DecodeAcceptedQuoteV2 (Some (er_quote root)) (Some network);
  terms ← decodeEscrowTerms (er_terms root);
  authorization ← decodeEscrowAuthorization (er_authorization root);
  runtime ← decodeEscrowRuntimeV2 (er_runtime root);
  '(master, walletCode) ← decodeEscrowAssetRouteV2 (r2_route runtime);
  let policy := PlainError "invalid escrow V2 policy" in
  transport ← or_err (DecodeTransportBindingCellV1 (Some (r2_transport runtime))) policy;
  or_err (ValidateObjectiveDisputePolicyCellV1 (Some (r2_dispute runtime))) policy;;
  let proposal := Proposal (TermsV1 quote) in
  amount ← proposalAmount proposal;
  let failed := "escrow V2 cross-cell or runtime invariant failed"%string in
  '(quoteMaster, quoteWalletHash) ← or_err (acceptedQuoteAssetRouteFromProposal (Some proposal)) (PlainError failed);
  amount ← orelse amount failed;
  reject ((amount <=? 0) ||
          negb (streq (EscrowTermsDigest proposal) (sha_text (er_termsHash root))) ||
          negb (streq (ExecutionSignerAuthorization (TermsV1 quote)) (sha_text (er_authorizationHash root))) ||
          negb (streq (TransportBindingDigest proposal) (sha_text (Hash (r2_transport runtime)))) ||
          negb (streq (DisputePolicyDigest proposal) (sha_text (Hash (r2_dispute runtime)))) ||
          negb (streq master quoteMaster) || negb (streq (Hash walletCode) quoteWalletHash) ||
          negb (validEscrowRuntimeV2 (er_status root) amount runtime (AcceptByUnix (Extension quote)))) failed;;
  Ok {| s2_Status := er_status root; s2_QuoteCommitment := digestString (er_quoteHash root);
        s2_EscrowTermsDigest := digestString (er_termsHash root);
        s2_AuthorizationDigest := digestString (er_authorizationHash root);
        s2_TransportDigest := digestString (Hash (r2_transport runtime));
        s2_DisputePolicyDigest := digestString (Hash (r2_dispute runtime)); s2_TransportBinding := transport;
        s2_BuyerAddress := BuyerAddress terms; s2_ProviderAddress := ProviderAddress terms; s2_AssetMasterAddress := master;
        s2_AssetWalletCodeHash := digestString (Hash walletCode); s2_AssetWalletCode := walletCode;
        s2_FundingDeadline := FundingDeadline terms; s2_RefundAvailableAt := RefundAvailableAt terms;
        s2_AcceptByUnix := AcceptByUnix (Extension quote); s2_ExecutionDeadline := ExecutionDeadline (Extension quote);
        s2_ProviderOfferDigest := ProviderOfferDigest (Extension quote); s2_AcceptedAtUnix := r2_acceptedAt runtime;
        s2_FundedAtomicAmount := FormatZ (r2_funded runtime); s2_SettledAtomicAmount := FormatZ (r2_settled runtime);
        s2_ReceiptCommitment := receiptText (r2_receipt runtime); s2_PendingQueryID := r2_query runtime;
        s2_AcceptedQuote := er_quote root; s2_ExecutionSignerEd25519 := authorization |}.

Definition BuildPaidDemandAcceptBodyV2 (queryID : Z) (quoteCommitment providerOfferDigest : string) : nresult Cell :=
  let invalid := "invalid Paid Demand accept identity"%string in
  quote ← or_err (digestBytes quoteCommitment "tvm-cell-sha256:" false) (PlainError invalid);
  reject (queryID =? 0) invalid;;
  offer ← digestBytes providerOfferDigest "sha256:" false;
  end_cell (begin_cell |>> MustStoreUInt PaidDemandAcceptOperationV2 32 |>> MustStoreUInt queryID 64 |>> MustStoreSlice quote 256
              |>> MustStoreSlice offer 256).

(** ** What the cells hold *)

Context {LL : CellLaws L} {XL : CellXLaws X LL} {DL : CellDepthLaws D LL}.

Lemma route_decode_v2 master data walletCode : base_address master data ->
  exists c, assetRouteCell 2 master walletCode = Ok c /\
    decodeEscrowAssetRouteV2 c = Ok ("0:" +:+ hex_EncodeToString data, walletCode).
Proof using LL XL.
  intros Hm. unfold assetRouteCell. built c Hc. exists c. split; [done|]. apply holds_tail in Hc.
  assert (raw32 data) by apply Hm. pose proof (hash_raw walletCode) as Hw. unfold raw32 in Hw.
  unfold decodeEscrowAssetRouteV2. parse_cell. base_addrs. unfold streq. by rewrite bool_decide_true.
Qed.

Lemma runtime_decode_v2 route transport dispute :
  exists c, initialRuntimeCellV2 route transport dispute = Ok c /\
    decodeEscrowRuntimeV2 c =
      Ok {| r2_funded := 0; r2_settled := 0; r2_receipt := zero32; r2_query := 0; r2_acceptedAt := 0; r2_route := route;
            r2_transport := transport; r2_dispute := dispute |}.
Proof using LL XL.
  assert (String.length zero32 = 32%nat) as Hz by done. revert Hz. unfold initialRuntimeCellV2, decodeEscrowRuntimeV2.
  generalize zero32. intros z Hz. built c Hc. exists c. split; [done|]. apply holds_tail in Hc. by parse_cell.
Qed.

Lemma data_decode_v2 status quote terms authorization runtime : 0 <= status <= 4 ->
  exists c, escrowDataCell 2 status quote terms authorization runtime = Ok c /\
    decodeEscrowRootV2 c =
      Ok {| er_status := status; er_quoteHash := Hash quote; er_termsHash := Hash terms;
            er_authorizationHash := Hash authorization; er_quote := quote; er_terms := terms;
            er_authorization := authorization; er_runtime := runtime |}.
Proof using LL XL.
  intros Hs. unfold escrowDataCell. assert (0 <= status < 2 ^ Z.of_nat 8) by (change (2 ^ Z.of_nat 8) with 256; lia).
  built c Hc. exists c. split; [done|]. apply holds_tail in Hc.
  pose proof (hash_raw quote) as Hq. pose proof (hash_raw terms) as Ht. pose proof (hash_raw authorization) as Ha.
  unfold raw32 in *. unfold decodeEscrowRootV2. parse_cell. unfold EscrowStatusRefundPendingV2, streq. tests. by rewrite !bool_decide_true.
Qed.

(** A decoded quote has a price, a decimal number. *)
Lemma decoded_amount root network q : DecodeAcceptedQuoteV2 root network = Ok q ->
  exists price v, MaximumPrice (Proposal (TermsV1 q)) = Some price /\ SetString10 (AtomicAmount price) = Some v /\ 0 <= v /\
    ext_typed (Extension q) /\ 0 < AcceptByUnix (Extension q) < ExecutionDeadline (Extension q).
Proof using LL DL.
  unfold DecodeAcceptedQuoteV2, reject, orelse. intros H.
  repeat match goal with
  | H : mbind _ _ = Ok _ |- _ => apply bind_Ok in H; destruct H as (? & ? & H)
  | H : (let '(_, _) := ?p in _) = Ok _ |- _ => destruct p
  end. injection H as <-. cbn [TermsV1 Extension].
  match goal with H : decodePaidDemandExtensionCell _ = Ok _ |- _ => pose proof (decoded_ext_typed _ _ H) as Ht; revert H end.
  match goal with H : DecodeAcceptedQuoteV1 _ _ = Ok _ |- _ =>
    destruct (proj2 (quote_decode_canonical _ _) _ H) as (r & r' & _ & _ & Hb) end.
  destruct (build_valid _ _ _ _ _ Hb) as (q & ver & amount & acc & dec & ex & -> & _ & Hv).
  destruct (qv_amount _ _ _ _ _ _ Hv) as [_ Hp]. destruct (canonical_decimal_FormatN _ Hp) as (n & _ & <-).
  intros Hx. do 2 eexists. split; [reflexivity|]. cbn [AtomicAmount]. split; [apply SetString10_FormatN|]. split; [lia|].
  split; [done|]. unfold decodePaidDemandExtensionCell, reject, orelse in Hx. inv_ok. guards. cbn [AcceptByUnix ExecutionDeadline] in *.
  destruct Ht as [[? ?] _]. cbn in *. lia.
Qed.

(** The state of a contract that has just been deployed. *)
Definition initial_state_v2 (init : EscrowInitV2) (id : EscrowIdentityV1) (q : AcceptedQuoteTermsV2) (quote walletCode : Cell) : EscrowStateV2 :=
  {| s2_Status := EscrowStatusPendingAcceptanceV2; s2_QuoteCommitment := id_QuoteCommitment id;
     s2_EscrowTermsDigest := id_EscrowTermsDigest id; s2_AuthorizationDigest := id_AuthorizationDigest id;
     s2_TransportDigest := id_TransportDigest id; s2_DisputePolicyDigest := id_DisputePolicyDigest id;
     s2_TransportBinding := i2_TransportBinding init; s2_BuyerAddress := BuyerAddress (i2_Terms init);
     s2_ProviderAddress := ProviderAddress (i2_Terms init); s2_AssetMasterAddress := i2_AssetMasterAddress init;
     s2_AssetWalletCodeHash := digestString (Hash walletCode); s2_AssetWalletCode := walletCode;
     s2_FundingDeadline := FundingDeadline (i2_Terms init); s2_RefundAvailableAt := RefundAvailableAt (i2_Terms init);
     s2_AcceptByUnix := AcceptByUnix (Extension q); s2_ExecutionDeadline := ExecutionDeadline (Extension q);
     s2_ProviderOfferDigest := ProviderOfferDigest (Extension q); s2_AcceptedAtUnix := 0; s2_FundedAtomicAmount := "0";
     s2_SettledAtomicAmount := "0"; s2_ReceiptCommitment := ""; s2_PendingQueryID := 0; s2_AcceptedQuote := quote;
     s2_ExecutionSignerEd25519 := i2_ExecutionSignerEd25519 init |}.

(** What a successful derivation went through. *)
Lemma build_escrow_v2_inv workchain code init id : BuildEscrowStateInitV2 workchain code init = Ok id ->
  exists c quote n q terms authorization master walletCode transport tcom dispute dcom,
    workchain = 0 /\ code = Some c /\ i2_AcceptedQuote init = Some quote /\ i2_Network init = Some n /\
    i2_AssetWalletCode init = Some walletCode /\ DecodeAcceptedQuoteV2 (Some quote) (Some n) = Ok q /\
    BuildEscrowTermsCellV1 (i2_Terms init) = Ok terms /\
    BuildEscrowAuthorizationCellV1 (i2_ExecutionSignerEd25519 init) = Ok authorization /\
    escrowAddress (i2_AssetMasterAddress init) = Ok master /\
    BuildTransportBindingCellV1 (i2_TransportBinding init) = Ok (transport, tcom) /\
    BuildObjectiveDisputePolicyCellV1 = Ok (dispute, dcom) /\
    (EscrowTermsDigest (Proposal (TermsV1 q)) = sha_text (Hash terms) /\
     ExecutionSignerAuthorization (TermsV1 q) = sha_text (Hash authorization) /\
     TransportBindingDigest (Proposal (TermsV1 q)) = sha_text (Hash transport) /\
     DisputePolicyDigest (Proposal (TermsV1 q)) = sha_text (Hash dispute)) /\
    (AcceptByUnix (Extension q) <= FundingDeadline (i2_Terms init) < ExecutionDeadline (Extension q) /\
     ExecutionDeadline (Extension q) < RefundAvailableAt (i2_Terms init)) /\
    acceptedQuoteAssetRouteFromProposal (Some (Proposal (TermsV1 q))) = Ok (i2_AssetMasterAddress init, Hash walletCode) /\
    exists route runtime data stateInit, assetRouteCell 2 master walletCode = Ok route /\
      initialRuntimeCellV2 route transport dispute = Ok runtime /\
      escrowDataCell 2 EscrowStatusPendingAcceptanceV2 quote terms authorization runtime = Ok data /\
      id = escrowIdentity 0 c quote terms authorization transport dispute data stateInit.
Proof using.
  intros Hb. unfold BuildEscrowStateInitV2, reject, orelse, streq in Hb.
  repeat match goal with
  | H : mbind _ _ = Ok _ |- _ => apply bind_Ok in H; destruct H as (? & ? & H)
  | H : (let '(_, _) := ?p in _) = Ok _ |- _ => destruct p
  end.
  repeat match goal with
  | H : opt_err _ _ = Ok _ |- _ => apply opt_err_Ok in H
  | H : or_err _ _ = Ok _ |- _ => apply or_err_Ok in H
  | H : fail_if _ _ = Ok _ |- _ => apply fail_if_Ok in H
  end. guards. simplify_eq.
  repeat match goal with H : _ = Ok ?p |- _ => is_var p; let T := type of p in
    lazymatch T with (_ * _)%type => destruct p; cbn [fst snd] in * end end.
  do 12 eexists. split_and!; try done; try eassumption. do 4 eexists. by split_and!.
Qed.

(** A derivation that passes the checks succeeds. *)
Lemma build_escrow_v2_run c init quote n q terms authorization master walletCode transport tcom dispute dcom :
  i2_AcceptedQuote init = Some quote -> i2_Network init = Some n -> i2_AssetWalletCode init = Some walletCode ->
  DecodeAcceptedQuoteV2 (Some quote) (Some n) = Ok q -> BuildEscrowTermsCellV1 (i2_Terms init) = Ok terms ->
  BuildEscrowAuthorizationCellV1 (i2_ExecutionSignerEd25519 init) = Ok authorization ->
  escrowAddress (i2_AssetMasterAddress init) = Ok master ->
  BuildTransportBindingCellV1 (i2_TransportBinding init) = Ok (transport, tcom) ->
  BuildObjectiveDisputePolicyCellV1 = Ok (dispute, dcom) ->
  EscrowTermsDigest (Proposal (TermsV1 q)) = sha_text (Hash terms) ->
  ExecutionSignerAuthorization (TermsV1 q) = sha_text (Hash authorization) ->
  TransportBindingDigest (Proposal (TermsV1 q)) = sha_text (Hash transport) ->
  DisputePolicyDigest (Proposal (TermsV1 q)) = sha_text (Hash dispute) ->
  AcceptByUnix (Extension q) <= FundingDeadline (i2_Terms init) < ExecutionDeadline (Extension q) ->
  ExecutionDeadline (Extension q) < RefundAvailableAt (i2_Terms init) ->
  acceptedQuoteAssetRouteFromProposal (Some (Proposal (TermsV1 q))) = Ok (i2_AssetMasterAddress init, Hash walletCode) ->
  exists id, BuildEscrowStateInitV2 0 (Some c) init = Ok id.
Proof using LL XL.
  intros Hq Hn Hw Hd Ht Ha Hm Htr Hdi Et Ea Etr Edi Hf Hx Hroute. unfold BuildEscrowStateInitV2.
  rewrite Hq, Hn, Hw. cbn [orelse opt_err reject fail_if mbind result_bind negb Z.eqb]. rewrite Hd. cbn [mbind result_bind].
  rewrite Ht, Ha, Hm, Htr, Hdi. cbn [or_err mbind result_bind fst]. rewrite Et, Ea, Etr, Edi. unfold streq.
  rewrite !bool_decide_true by done. tests. cbn [orb negb reject fail_if mbind result_bind]. rewrite Hroute.
  cbn [or_err mbind result_bind]. rewrite !bool_decide_true by done. cbn [orb negb reject fail_if mbind result_bind].
  destruct (escrowAddress_Ok _ _ Hm) as (acc & Hbase & _). destruct (route_decode_v2 master acc walletCode Hbase) as (r & -> & _).
  cbn [mbind result_bind]. destruct (runtime_decode_v2 r transport dispute) as (ru & -> & _). cbn [mbind result_bind].
  destruct (data_decode_v2 EscrowStatusPendingAcceptanceV2 quote terms authorization ru ltac:(done)) as (d & -> & _).
  cbn [mbind result_bind]. destruct (stateInit_total c d) as (si & ->). by eexists.
Qed.

(** The decoder on the data of a derived contract. *)
Lemma decode_initial_v2 init id workchain code :
  terms_typed (i2_Terms init) -> transport_typed (i2_TransportBinding init) -> BuildEscrowStateInitV2 workchain code init = Ok id ->
  exists quote q w price amount, i2_AcceptedQuote init = Some quote /\ i2_AssetWalletCode init = Some w /\
    DecodeAcceptedQuoteV2 (Some quote) (i2_Network init) = Ok q /\
    MaximumPrice (Proposal (TermsV1 q)) = Some price /\ SetString10 (AtomicAmount price) = Some amount /\
    (AcceptByUnix (Extension q) <= FundingDeadline (i2_Terms init) < ExecutionDeadline (Extension q) /\
     ExecutionDeadline (Extension q) < RefundAvailableAt (i2_Terms init)) /\
    DecodeEscrowDataV2 (Some (id_Data id)) (i2_Network init) =
      if amount <=? 0 then Err (PlainError "escrow V2 cross-cell or runtime invariant failed")
      else Ok (initial_state_v2 init id q quote w).
Proof using LL XL DL.
  intros Htt Htp (c & quote & n & q & te & au & m & w & tr & tcom & di & dcom & _ & _ & Hq & Hn & Hw & Hd & Ht & Ha & Hm & Htr & Hdi &
    (Et & Ea & Etr & Edi) & Hdead & Hroute & route & runtime & data & si & Er & Eru & Ed & ->)%build_escrow_v2_inv.
  destruct (decoded_amount _ _ _ Hd) as (price & amount & Hp & Hv & _).
  exists quote, q, w, price, amount. rewrite Hn. do 6 (split; [done|]). cbn [id_Data escrowIdentity].
  destruct (escrowAddress_Ok _ _ Hm) as (acc & Hbase & Hacc).
  destruct (route_decode_v2 m acc w Hbase) as (r0 & Er0 & Dr). rewrite Er in Er0. injection Er0 as <-.
  destruct (runtime_decode_v2 route tr di) as (ru0 & Eru0 & Dru). rewrite Eru in Eru0. injection Eru0 as <-.
  destruct (data_decode_v2 EscrowStatusPendingAcceptanceV2 quote te au runtime ltac:(done)) as (d0 & Ed0 & Dd).
  rewrite Ed in Ed0. injection Ed0 as <-. unfold DecodeEscrowDataV2. cbn [orelse opt_err mbind result_bind]. rewrite Dd.
  cbn [mbind result_bind er_quote er_terms er_authorization er_runtime er_status er_termsHash er_authorizationHash er_quoteHash].
  rewrite Hd. cbn [mbind result_bind]. rewrite (terms_decode _ _ Htt Ht), (authorization_decode _ _ Ha). cbn [mbind result_bind].
  rewrite Dru. cbn [mbind result_bind r2_route r2_transport r2_dispute]. rewrite Dr. cbn [mbind result_bind].
  rewrite (proj2 (proj2 (transport_spec _ Htp) _ _ Htr)).
  destruct dispute_spec as (dp & Hdp & Hval). rewrite Hdi in Hdp. apply Ok_pair in Hdp as [-> _]. rewrite Hval.
  cbn [or_err mbind result_bind]. unfold proposalAmount. rewrite Hp, Hroute. cbn [or_err mbind result_bind]. rewrite Hv.
  cbn [orelse opt_err mbind result_bind]. destruct (amount <=? 0); [done|]. unfold streq.
  rewrite Et, Ea, Etr, Edi, Hacc, !bool_decide_true by done. cbn [orb negb]. rewrite <- Hacc. reflexivity.
Qed.

(** ** Properties *)

(** C28: When a derived schema-2 contract can be read.  If the derivation accepts a quote,
    terms, signer, transport and asset, then its deadlines satisfy accept-by <= funding <
    execution < refund, and decoding its data cell gives the pending contract it was derived
    from, with nothing accepted, funded or settled, except when the quote's price is zero:
    the derivation does not look at the price, and the decoder refuses such a contract. *)
Theorem escrow_v2_init_decodes init id workchain code :
  terms_typed (i2_Terms init) -> transport_typed (i2_TransportBinding init) -> BuildEscrowStateInitV2 workchain code init = Ok id ->
  exists quote q w price amount, i2_AcceptedQuote init = Some quote /\ i2_AssetWalletCode init = Some w /\
    DecodeAcceptedQuoteV2 (Some quote) (i2_Network init) = Ok q /\
    MaximumPrice (Proposal (TermsV1 q)) = Some price /\ SetString10 (AtomicAmount price) = Some amount /\
    (AcceptByUnix (Extension q) <= FundingDeadline (i2_Terms init) < ExecutionDeadline (Extension q) /\
     ExecutionDeadline (Extension q) < RefundAvailableAt (i2_Terms init)) /\
    (0 < amount -> DecodeEscrowDataV2 (Some (id_Data id)) (i2_Network init) = Ok (initial_state_v2 init id q quote w)) /\
    (amount <= 0 ->
       DecodeEscrowDataV2 (Some (id_Data id)) (i2_Network init) =
         Err (PlainError "escrow V2 cross-cell or runtime invariant failed")).
Proof using LL XL DL.
  intros Htt Htp Hb. destruct (decode_initial_v2 _ _ _ _ Htt Htp Hb) as (quote & q & w & price & amount & Hq & Hw & Hd & Hp & Hv & Hx & E).
  exists quote, q, w, price, amount. do 6 (split; [done|]). rewrite E. destruct (Z.leb_spec amount 0); split; (done || lia).
Qed.

Lemma decodeEscrowRootV2_inv data r : decodeEscrowRootV2 data = Ok r ->
  0 <= er_status r <= 4 /\ er_quoteHash r = Hash (er_quote r) /\ er_termsHash r = Hash (er_terms r) /\
  er_authorizationHash r = Hash (er_authorization r).
Proof using LL.
  unfold decodeEscrowRootV2, reject, orelse, streq, EscrowStatusRefundPendingV2. intros H. inv_ok. guards.
  match goal with H : LoadUInt 8 _ = Some ?x |- _ => destruct x; apply load_uint_range in H; [|done] end. cbn in *.
  split; [lia|done].
Qed.

Lemma decodeEscrowRuntimeV2_inv c r : decodeEscrowRuntimeV2 c = Ok r ->
  0 <= r2_funded r < 2 ^ 128 /\ 0 <= r2_settled r < 2 ^ 128 /\ 0 <= r2_acceptedAt r.
Proof using LL XL.
  unfold decodeEscrowRuntimeV2, reject, orelse. intros H. inv_ok.
  repeat match goal with
  | H : LoadBigUInt 128 _ = Some ?x |- _ => destruct x; apply load_big_range in H; [|done]
  | H : LoadUInt 64 _ = Some ?x |- _ => destruct x; apply load_uint_range in H; [|done]
  end. cbn [fst snd] in *. lia.
Qed.

Lemma validEscrowRuntimeV2_inv status amount r acceptBy : 0 <= status <= 4 -> 0 < amount -> 0 <= r2_acceptedAt r ->
  validEscrowRuntimeV2 status amount r acceptBy = true ->
  r2_funded r = (if status <=? EscrowStatusAwaitingFundingV2 then 0 else amount) /\
  r2_settled r = (if status =? EscrowStatusReleasePendingV2 then amount else 0) /\
  is_zero32 (r2_receipt r) = negb (status =? EscrowStatusReleasePendingV2) /\
  (r2_query r = 0 <-> status < EscrowStatusReleasePendingV2) /\
  (if status =? EscrowStatusPendingAcceptanceV2 then r2_acceptedAt r = 0 else 0 < r2_acceptedAt r < acceptBy).
Proof using.
  unfold validEscrowRuntimeV2, EscrowStatusPendingAcceptanceV2, EscrowStatusAwaitingFundingV2, EscrowStatusFundedV2,
    EscrowStatusReleasePendingV2, EscrowStatusRefundPendingV2.
  intros Hs Hm Ha H. assert (status = 0 \/ status = 1 \/ status = 2 \/ status = 3 \/ status = 4) as [-> | [-> | [-> | [-> | ->]]]] by lia;
    cbn [Z.eqb Pos.eqb] in *; destruct (is_zero32 (r2_receipt r)); cbn in *; split_and!; lia || done.
Qed.

(** What a successful decoding went through. *)
Ltac open_state_v2 H :=
  unfold DecodeEscrowDataV2, reject, orelse, streq in H;
  repeat match type of H with
  | mbind _ _ = Ok _ => apply bind_Ok in H; destruct H as (? & ? & H)
  | (let '(_, _) := ?p in _) = Ok _ => destruct p
  end;
  repeat match goal with
  | H : opt_err _ _ = Ok _ |- _ => apply opt_err_Ok in H
  | H : or_err _ _ = Ok _ |- _ => apply or_err_Ok in H
  | H : fail_if _ _ = Ok _ |- _ => apply fail_if_Ok in H
  end; guards; simplify_eq.

(** A state whose cells are the ones its quote names: the terms with the parties and the
    deadlines, the signer's authorization, the transport binding, the dispute policy, the
    asset, and the dates and the offer of the quote's extension. *)
Record bound_to_quote (q : AcceptedQuoteTermsV2) (st : EscrowStateV2) : Prop := {
  bq_terms : exists te t, EscrowTermsDigest (Proposal (TermsV1 q)) = sha_text (Hash te) /\
    s2_EscrowTermsDigest st = digestString (Hash te) /\ decodeEscrowTerms te = Ok t /\
    s2_BuyerAddress st = BuyerAddress t /\ s2_ProviderAddress st = ProviderAddress t /\
    s2_FundingDeadline st = FundingDeadline t /\ s2_RefundAvailableAt st = RefundAvailableAt t;
  bq_authorization : exists au, ExecutionSignerAuthorization (TermsV1 q) = sha_text (Hash au) /\
    s2_AuthorizationDigest st = digestString (Hash au) /\ decodeEscrowAuthorization au = Ok (s2_ExecutionSignerEd25519 st);
  bq_transport : exists tr, TransportBindingDigest (Proposal (TermsV1 q)) = sha_text (Hash tr) /\
    s2_TransportDigest st = digestString (Hash tr) /\ DecodeTransportBindingCellV1 (Some tr) = Ok (s2_TransportBinding st);
  bq_dispute : exists di u, DisputePolicyDigest (Proposal (TermsV1 q)) = sha_text (Hash di) /\
    s2_DisputePolicyDigest st = digestString (Hash di) /\ ValidateObjectiveDisputePolicyCellV1 (Some di) = Ok u;
  bq_asset : exists price asset m, MaximumPrice (Proposal (TermsV1 q)) = Some price /\ MoneyAsset price = Some asset /\
    Master asset = Some m /\ s2_AssetMasterAddress st = addr_StringRaw (NewAddress 0 (Workchain m mod 256) (AccountId m)) /\
    WalletCodeHash asset = digestString (Hash (s2_AssetWalletCode st)) /\
    s2_AssetWalletCodeHash st = digestString (Hash (s2_AssetWalletCode st));
  bq_extension : s2_AcceptByUnix st = AcceptByUnix (Extension q) /\ s2_ExecutionDeadline st = ExecutionDeadline (Extension q) /\
    s2_ProviderOfferDigest st = ProviderOfferDigest (Extension q) }.

Lemma asset_route_v2 proposal master walletHash : acceptedQuoteAssetRouteFromProposal (Some proposal) = Ok (master, walletHash) ->
  exists price asset m, MaximumPrice proposal = Some price /\ MoneyAsset price = Some asset /\ Master asset = Some m /\
    master = addr_StringRaw (NewAddress 0 (Workchain m mod 256) (AccountId m)) /\ WalletCodeHash asset = digestString walletHash.
Proof using.
  unfold acceptedQuoteAssetRouteFromProposal, orelse. intros H. inv_ok.
  match goal with H : digestBytes _ _ _ = Ok _ |- _ => apply digestBytes_Ok in H as (Hw & _ & _) end.
  do 3 eexists. by split_and!.
Qed.

Lemma state_bound_v2 data network st q : DecodeEscrowDataV2 (Some data) (Some network) = Ok st ->
  DecodeAcceptedQuoteV2 (Some (s2_AcceptedQuote st)) (Some network) = Ok q -> bound_to_quote q st.
Proof using LL.
  intros H Hq. open_state_v2 H.
  cbn [s2_AcceptedQuote] in Hq. match goal with H : DecodeAcceptedQuoteV2 _ _ = Ok _ |- _ => rewrite Hq in H; injection H as <- end.
  match goal with H : decodeEscrowRootV2 _ = Ok _ |- _ => destruct (decodeEscrowRootV2_inv _ _ H) as (_ & _ & Et & Ea) end.
  match goal with H : acceptedQuoteAssetRouteFromProposal _ = Ok _ |- _ => apply asset_route_v2 in H as (price & asset & m & Hp & Has & Hm & -> & Hw) end.
  split; cbn [s2_EscrowTermsDigest s2_BuyerAddress s2_ProviderAddress s2_FundingDeadline s2_RefundAvailableAt s2_AuthorizationDigest
    s2_ExecutionSignerEd25519 s2_TransportDigest s2_TransportBinding s2_DisputePolicyDigest s2_AssetMasterAddress s2_AssetWalletCode
    s2_AssetWalletCodeHash s2_AcceptByUnix s2_ExecutionDeadline s2_ProviderOfferDigest].
  - eexists _, _. rewrite <- Et. split_and!; [eassumption|done|eassumption|done..].
  - eexists. rewrite <- Ea. split_and!; [eassumption|done|eassumption].
  - eexists. split_and!; [eassumption|done|eassumption].
  - eexists _, _. split_and!; [eassumption|done|eassumption].
  - exists price, asset, m. split_and!; congruence.
  - done.
Qed.

Lemma state_figures_v2 data network st :
  DecodeEscrowDataV2 (Some data) (Some network) = Ok st ->
  exists q price amount funded settled,
    DecodeAcceptedQuoteV2 (Some (s2_AcceptedQuote st)) (Some network) = Ok q /\
    MaximumPrice (Proposal (TermsV1 q)) = Some price /\ SetString10 (AtomicAmount price) = Some amount /\ 0 < amount /\
    s2_QuoteCommitment st = digestString (Hash (s2_AcceptedQuote st)) /\ 0 < s2_FundingDeadline st < s2_RefundAvailableAt st /\
    0 < s2_AcceptByUnix st < s2_ExecutionDeadline st /\ 0 <= s2_Status st <= 4 /\
    (if s2_Status st =? EscrowStatusPendingAcceptanceV2 then s2_AcceptedAtUnix st = 0
     else 0 < s2_AcceptedAtUnix st < s2_AcceptByUnix st) /\
    s2_FundedAtomicAmount st = FormatZ funded /\ s2_SettledAtomicAmount st = FormatZ settled /\
    funded = (if s2_Status st <=? EscrowStatusAwaitingFundingV2 then 0 else amount) /\ funded < 2 ^ 128 /\
    settled = (if s2_Status st =? EscrowStatusReleasePendingV2 then amount else 0) /\
    (s2_ReceiptCommitment st = ""%string <-> s2_Status st <> EscrowStatusReleasePendingV2) /\
    (s2_PendingQueryID st = 0 <-> s2_Status st < EscrowStatusReleasePendingV2).
Proof using LL XL DL.
  intros H. open_state_v2 H.
  match goal with H : DecodeAcceptedQuoteV2 _ _ = Ok _ |- _ => destruct (decoded_amount _ _ _ H) as (price & v & Hp & Hv & _ & _ & Hdl) end.
  match goal with H : proposalAmount _ = Ok _ |- _ => unfold proposalAmount in H; rewrite Hp, Hv in H; injection H as <- end.
  match goal with H : decodeEscrowRootV2 _ = Ok ?r, Hr : decodeEscrowRuntimeV2 _ = Ok ?ru, Ht : decodeEscrowTerms _ = Ok _,
    Hvr : validEscrowRuntimeV2 _ _ _ _ = true |- _ =>
    destruct (decodeEscrowRootV2_inv _ _ H) as (Hst & Hq & _); destruct (decodeEscrowRuntimeV2_inv _ _ Hr) as (Hf & Hs & Hat);
    pose proof (decodeEscrowTerms_inv _ _ Ht);
    destruct (validEscrowRuntimeV2_inv _ _ _ _ Hst ltac:(eassumption) Hat Hvr) as (? & ? & Hz & ? & ?);
    eexists _, price, v, (r2_funded ru), (r2_settled ru) end.
  cbn. split_and!; try done; try eassumption; try lia; [by rewrite Hq|..]; unfold receiptText; rewrite Hz.
  all: match goal with |- context[?a =? EscrowStatusReleasePendingV2] => destruct (Z.eqb_spec a EscrowStatusReleasePendingV2) end; done.
Qed.
(** C27: What a decoded schema-2 state guarantees.  A state that decodes is bound to the quote
    it embeds: it carries the quote's commitment; its terms, authorization, transport and
    dispute cells are the ones whose hashes the quote names, and the parties, deadlines,
    signer and transport of the state are read from them; its asset master and wallet code
    are the quote's; its acceptance and execution deadlines and its provider offer are those
    of the quote's extension.  The quote's price is positive; an acceptance time is
    recorded exactly after the pending status, and it is before the quote's acceptance
    deadline; the contract holds nothing until it is funded and then exactly the price, so
    only a price below 2^128 can be funded; something is settled, and a receipt is present,
    exactly in the release status, and then all of the price is; a query is pending exactly
    in the release and refund statuses. *)
Theorem escrow_v2_state_sound data network st :
  DecodeEscrowDataV2 (Some data) (Some network) = Ok st ->
  exists q price amount funded settled,
    DecodeAcceptedQuoteV2 (Some (s2_AcceptedQuote st)) (Some network) = Ok q /\ bound_to_quote q st /\
    MaximumPrice (Proposal (TermsV1 q)) = Some price /\ SetString10 (AtomicAmount price) = Some amount /\ 0 < amount /\
    s2_QuoteCommitment st = digestString (Hash (s2_AcceptedQuote st)) /\ 0 < s2_FundingDeadline st < s2_RefundAvailableAt st /\
    0 < AcceptByUnix (Extension q) < ExecutionDeadline (Extension q) /\ 0 <= s2_Status st <= 4 /\
    (if s2_Status st =? EscrowStatusPendingAcceptanceV2 then s2_AcceptedAtUnix st = 0
     else 0 < s2_AcceptedAtUnix st < AcceptByUnix (Extension q)) /\
    s2_FundedAtomicAmount st = FormatZ funded /\ s2_SettledAtomicAmount st = FormatZ settled /\
    funded = (if s2_Status st <=? EscrowStatusAwaitingFundingV2 then 0 else amount) /\ funded < 2 ^ 128 /\
    settled = (if s2_Status st =? EscrowStatusReleasePendingV2 then amount else 0) /\
    (s2_ReceiptCommitment st = ""%string <-> s2_Status st <> EscrowStatusReleasePendingV2) /\
    (s2_PendingQueryID st = 0 <-> s2_Status st < EscrowStatusReleasePendingV2).
Proof using LL XL DL.
  intros H. destruct (state_figures_v2 _ _ _ H) as (q & price & amount & funded & settled & Hq & Hrest). exists q, price, amount, funded, settled.
  pose proof (state_bound_v2 _ _ _ _ H Hq) as Hb. destruct (bq_extension _ _ Hb) as (Ea & Ee & _). rewrite <- Ea, <- Ee.
  exact (conj Hq (conj Hb Hrest)).
Qed.
End EscrowV2.

(** ** The properties on concrete contracts *)

Module Sample.
#[local] Existing Instances sampleCells rawAddressLib sampleCellX sampleDepth Escrow.Sample.sampleParser.

Lemma v2_encoded price : price = "250000"%string \/ price = "0"%string -> exists root com proj,
  BuildAcceptedQuoteCommitmentV2 (Some Quote.Sample.network) (Some (Escrow.Sample.proposal price)) (sha_text (q_signer Escrow.Sample.raw))
    QuoteV2.Sample.extension = Ok (root, com, proj).
Proof.
  intros Hp. destruct (buildPaidDemandExtensionCell QuoteV2.Sample.extension) as [x| |] eqn:Ex; [|vm_compute in Ex; discriminate Ex..].
  pose proof (Escrow.Sample.accepted price Hp) as Hb.
  destruct (v1_parts _ _ _ _ _ Hb) as (d & i & e & a & signer & Hs & Ha & Hr & _).
  destruct (build_v2_run _ _ _ QuoteV2.Sample.extension _ _ d i e a signer x Hb Ex Hs Ha Hr) as (r & a2 & E & _). by do 3 eexists.
Qed.

Definition init (quote : Cell) : EscrowInitV2 :=
  {| i2_Network := Some Quote.Sample.network; i2_AcceptedQuote := Some quote; i2_Terms := Escrow.Sample.terms;
     i2_ExecutionSignerEd25519 := Escrow.Sample.hash 23; i2_TransportBinding := Escrow.Sample.transport;
     i2_AssetMasterAddress := Escrow.Sample.account 12; i2_AssetWalletCode := Some Escrow.Sample.walletCode |}.

(** The contract is derived at both prices. *)
Lemma v2_derivable price : price = "250000"%string \/ price = "0"%string ->
  exists quote id q, BuildEscrowStateInitV2 0 (Some Escrow.Sample.code) (init quote) = Ok id /\
    DecodeAcceptedQuoteV2 (Some quote) (Some Quote.Sample.network) = Ok q /\
    MaximumPrice (Proposal (TermsV1 q)) = Some (Escrow.Sample.money price).
Proof.
  intros Hp. destruct (v2_encoded price Hp) as (quote & com & proj & Hb).
  destruct (v2_spec _ _ _ _ _ _ _ (Escrow.Sample.proposal_ok price) QuoteV2.Sample.extension_ok Hb) as (_ & r & _ & Hd).
  destruct (Escrow.Sample.made price) as [_ _ (te & Ht & Et) (au & Ha & Ea) (tr & Htr) (di & Hdi) Hpr _].
  exists quote. eassert (exists id, BuildEscrowStateInitV2 0 (Some Escrow.Sample.code) (init quote) = Ok id) as (id & Hid).
  { eapply (build_escrow_v2_run Escrow.Sample.code (init quote) quote Quote.Sample.network _ te au _ Escrow.Sample.walletCode tr _ di _
      eq_refl eq_refl eq_refl Hd Ht Ha).
    - vm_compute. reflexivity.
    - exact Htr.
    - exact Hdi.
    - exact Et.
    - exact Ea.
    - destruct (proj2 (transport_spec _ Escrow.Sample.transport_ok) _ _ Htr) as [E _]. exact E.
    - destruct dispute_spec as (d & E & _). rewrite Hdi in E. apply Ok_pair in E as [-> E]. exact E.
    - cbn. lia.
    - cbn. lia.
    - vm_compute. reflexivity. }
  exists id. eexists. split; [exact Hid|]. split; [exact Hd|exact Hpr].
Qed.

Lemma v2_decoded : exists data st, DecodeEscrowDataV2 (Some data) (Some Quote.Sample.network) = Ok st /\
  s2_Status st = EscrowStatusPendingAcceptanceV2.
Proof.
  destruct (v2_derivable "250000" (or_introl eq_refl)) as (quote & id & q & Hid & Hq & Hp).
  destruct (decode_initial_v2 (init quote) id 0 (Some Escrow.Sample.code) Escrow.Sample.terms_ok Escrow.Sample.transport_ok Hid)
    as (quote' & q' & w & price & amount & E & _ & Hq' & Hp' & Hv & _ & Hd).
  injection E as <-. cbn [i2_Network init] in *. rewrite Hq in Hq'. injection Hq' as <-. rewrite Hp in Hp'. injection Hp' as <-.
  assert (amount = 250000) as -> by (cbn [AtomicAmount Escrow.Sample.money] in Hv; vm_compute in Hv; congruence).
  do 2 eexists. split; [exact Hd|reflexivity].
Qed.

Lemma escrow_v2_state_sound_witness : exists data st q,
  DecodeEscrowDataV2 (Some data) (Some Quote.Sample.network) = Ok st /\
  DecodeAcceptedQuoteV2 (Some (s2_AcceptedQuote st)) (Some Quote.Sample.network) = Ok q /\ bound_to_quote q st /\
  s2_Status st = EscrowStatusPendingAcceptanceV2 /\ s2_FundedAtomicAmount st = FormatZ 0.
Proof.
  destruct v2_decoded as (data & st & Hd & Hs).
  destruct (escrow_v2_state_sound data Quote.Sample.network st Hd)
    as (q & p & a & f & s & H1 & H2 & _ & _ & _ & _ & _ & _ & _ & _ & H3 & _ & H4 & _).
  rewrite Hs in H4. cbn in H4. rewrite H4 in H3.
  exact (ex_intro _ data (ex_intro _ st (ex_intro _ q (conj Hd (conj H1 (conj H2 (conj Hs H3))))))).
Defined.

(** At a price of zero the contract is derived, and refused by the decoder. *)
Lemma escrow_v2_init_decodes_witness :
  exists quote id, BuildEscrowStateInitV2 0 (Some Escrow.Sample.code) (init quote) = Ok id /\
    DecodeEscrowDataV2 (Some (id_Data id)) (Some Quote.Sample.network) =
      Err (PlainError "escrow V2 cross-cell or runtime invariant failed").
Proof.
  destruct (v2_derivable "0" (or_intror eq_refl)) as (quote & id & q & Hid & Hq & Hp).
  destruct (escrow_v2_init_decodes (init quote) id 0 (Some Escrow.Sample.code) Escrow.Sample.terms_ok Escrow.Sample.transport_ok Hid)
    as (quote' & q' & w & price & amount & E & _ & Hq' & Hp' & Hv & _ & _ & Hd).
  injection E as <-. cbn [i2_Network init] in *. rewrite Hq in Hq'. injection Hq' as <-. rewrite Hp in Hp'. injection Hp' as <-.
  assert (amount = 0) as -> by (cbn [AtomicAmount Escrow.Sample.money] in Hv; vm_compute in Hv; congruence).
  exists quote, id. split; [exact Hid|exact (Hd (Z.le_refl 0))].
Defined.
End Sample.
