(* ===== verification/RelayTypes.v ===== *)
(** * Transaction-relay documents (src/pkg/agentrelay: types.go, validation.go, canonical.go)

    The signed documents of the relay service -- service profile, quote request,
    provider quote, execution request, sponsorship evidence -- with the shape
    checks a document passes before its canonical digest is taken.  The CBOR encodings
    and the URL and address parsers are the interface [RelayCodec]. *)

From S2P Require Import Prelude Text Sha256 Codec Semantic Authority Amounts Billing Payment.

(** ** Texts *)

Definition digestPattern : string -> bool := prefixed_hex64 "sha256:".
Definition cellHashPattern : string -> bool := prefixed_hex64 "tvm-cell-sha256:".

Definition identifier (value : string) (maximum : Z) : bool :=
  (0 <? slen value) && (slen value <=? maximum) && utf8_ok value && trimmed value &&
  all_bytes (fun c => negb ((byte_val c =? 0) || (byte_val c =? 13) || (byte_val c =? 10))) value.

(** ** Amounts *)

Definition canonicalAtomic (value : string) : bool :=
  streq value "0" ||
  (negb (slen value =? 0) && (slen value <=? 78) &&
   match value with String c _ => negb (byte_val c =? 48) | EmptyString => true end && all_bytes is_digit value).
Definition positiveAtomic (value : string) : bool := canonicalAtomic value && negb (streq value "0").

(** The sign of [a.Cmp(b)]; 1 when either text is no number. *)
Definition compareAtomic (left right : string) : Z :=
  match SetString10 left, SetString10 right with
  | Some a, Some b => match a ?= b with Lt => -1 | Eq => 0 | Gt => 1 end
  | _, _ => 1
  end.

(** Adding to a nil integer panics. *)
Definition addAtomic (left right : string) : result string string :=
  match SetString10 left, SetString10 right with
  | Some a, Some b => Ok (FormatZ (a + b))
  | _, _ => Panic "nil big.Int"
  end.

Lemma canonicalAtomic_value v : canonicalAtomic v = true -> exists n, SetString10 v = Some (Z.of_N n) /\ FormatN n = v.
Proof.
  intros Hv. assert (canonical_decimal v = true) as (n & Hn & Hf)%canonical_decimal_FormatN.
  { unfold canonicalAtomic in Hv. apply orb_true_iff in Hv as [->%streq_true|Hv]; [done|].
    repeat apply andb_true_iff in Hv as [Hv ?]. destruct v as [|c v]; [done|].
    unfold canonical_decimal. destruct (byte_val c =? 48); done. }
  exists n. rewrite <-Hf at 1. by rewrite SetString10_FormatN.
Qed.

(** ** Enumerations

    Go's string types; a value that is none of the constants keeps its text. *)

Inductive Mode := ModeRelayExact | ModeSponsorOnly | ModeSponsorAndRelay | ModeOther (s : string).
#[global] Instance Mode_eq_dec : EqDecision Mode.
Proof. solve_decision. Defined.
Definition mode_text (m : Mode) : string :=
  match m with
  | ModeRelayExact => "relay_exact"
  | ModeSponsorOnly => "sponsor_only"
  | ModeSponsorAndRelay => "sponsor_and_relay"
  | ModeOther s => s
  end.
Definition validMode (m : Mode) : bool := match m with ModeOther _ => false | _ => true end.

Inductive AssuranceLevel :=
  | AssuranceTrustedLocal
  | AssuranceAuthorizedSingleProvider
  | AssuranceAutonomousDecentralized
  | AssuranceOther (s : string).
#[global] Instance AssuranceLevel_eq_dec : EqDecision AssuranceLevel.
Proof. solve_decision. Defined.
Definition assurance_text (a : AssuranceLevel) : string :=
  match a with
  | AssuranceTrustedLocal => "trusted-local"
  | AssuranceAuthorizedSingleProvider => "authorized-single-provider"
  | AssuranceAutonomousDecentralized => "autonomous-decentralized"
  | AssuranceOther s => s
  end.
Definition validAssuranceLevel (a : AssuranceLevel) : bool := match a with AssuranceOther _ => false | _ => true end.

Inductive TerminalOutcome :=
  | NoOutcome
  | OutcomeFinalizedSuccess | OutcomeCorroboratedSuccess
  | OutcomeFinalizedExpired | OutcomeFinalizedAbsent | OutcomeFinalizedInvalidated
  | OutcomeCorroboratedExpired | OutcomeCorroboratedAbsent | OutcomeCorroboratedInvalidated
  | OutcomeFinalizedSponsorshipOnly | OutcomeCorroboratedSponsorshipOnly
  | OutcomeFinalizedRelayOnly | OutcomeCorroboratedRelayOnly
  | OutcomeOther (s : string).
#[global] Instance TerminalOutcome_eq_dec : EqDecision TerminalOutcome.
Proof. solve_decision. Defined.
Definition validOutcome (o : TerminalOutcome) : bool :=
  match o with NoOutcome | OutcomeOther _ => false | _ => true end.

Inductive TerminalEvidenceClass :=
  | NoEvidenceClass | ValidatorFinality | ProviderCorroborated | ClientCorroborated | EvidenceClassOther (s : string).
#[global] Instance TerminalEvidenceClass_eq_dec : EqDecision TerminalEvidenceClass.
Proof. solve_decision. Defined.

Inductive SponsorshipReleaseEvidenceClass :=
  | NoReleaseClass | ReleaseValidatorFinality | ReleaseObservedUnproven | ReleaseClassOther (s : string).
#[global] Instance SponsorshipReleaseEvidenceClass_eq_dec : EqDecision SponsorshipReleaseEvidenceClass.
Proof. solve_decision. Defined.

(** Equality tests on values of the enumerations. *)
Definition same {A} `{EqDecision A} (a b : A) : bool := bool_decide (a = b).

Lemma streq_false a b : streq a b = false <-> a <> b.
Proof. unfold streq. apply bool_decide_eq_false. Qed.

Lemma same_true {A} `{EqDecision A} (a b : A) : same a b = true <-> a = b.
Proof. apply bool_decide_eq_true. Qed.

Lemma same_eq {A} `{EqDecision A} (a b : A) : same a b = true -> a = b.
Proof. apply bool_decide_eq_true. Qed.

(** The conjuncts of a passed guard, with the equality tests as equations. *)
Ltac guard_facts :=
  rewrite ?orb_false_iff, ?negb_false_iff in *; destruct_and?;
  repeat match goal with
  | H : streq _ _ = true |- _ => apply streq_true in H
  | H : same _ _ = true |- _ => apply same_eq in H
  end.

(** ** Constants *)

Definition RPCCorroborationEvidenceProfileURI : string := "agreement-payment-rpc-corroboration.v1".
Definition ClientCorroboratedTerminalProfileURI : string := "tos.sponsorship.client-corroborated-terminal.v1".
Definition ProviderCorroboratedTerminalProfileURI : string := "tos.relay.provider-corroborated-terminal.v1".
Definition ObligationRelayFee : string := "transaction_relay_fee".
Definition ObligationSponsorshipFee : string := "gas_sponsorship_fee".
Definition MaxSignedTransactionBytes : Z := 65536.
Definition MaxRelayActionRequestBytes : Z := 196608.
Definition MaxRelayRequestLifetime : Z := 15 * 60.
Definition MaxRelayProfileLifetime : Z := 90 * 24 * 60 * 60.
Definition MaxRelayAdmissionStartDelay : Z := 60.
Definition MaxRelayFeeLines : Z := 2.
Definition MaxRelayEvidenceRefs : Z := 64.
Definition MaxRelayProofBundleBytes : Z := 131072.
Definition MinimumRelayInclusionMarginSeconds : Z := 30.

(** ** Data *)

Record NetworkDomain := {
  NetworkID : string; GlobalID : Z; ZeroStateRootHash : string; ZeroStateFileHash : string; WorkchainID : Z }.
#[global] Instance NetworkDomain_eq_dec : EqDecision NetworkDomain.
Proof. solve_decision. Defined.

Record AssetIdentity := { AssetNamespace : string; AssetIdentifier : string; Unit : string }.
#[global] Instance AssetIdentity_eq_dec : EqDecision AssetIdentity.
Proof. solve_decision. Defined.

Record AssetAmount := { Asset : AssetIdentity; AmountAtomic : string }.

Record TransactionProfile := {
  tp_ProfileURI : string; tp_ProfileDigest : string; MaximumSignedBytes : Z;
  InspectableSourceSequence : bool; InspectableTransactionExpiry : bool }.

Record FinalityProfile := {
  ProfileURI : string; ProfileDigest : string; fp_TerminalEvidenceClass : TerminalEvidenceClass;
  MinimumConfirmationDepth : Z; MinimumObservers : Z; MinimumOperatorDomains : Z;
  ReorgWindowSeconds : Z; MaximumResolutionSeconds : Z }.

Record ExposureLimit := { LimitAsset : AssetIdentity; MaximumPerRequestAtomic : string; MaximumOutstandingAtomic : string }.

Record AdmissionLimits := {
  MaximumQuoteReservations : Z; MaximumActiveExecutions : Z; MaximumActivePerRequester : Z;
  MaximumQuoteRequestsPerWindow : Z; MaximumQuoteRequestsPerRequesterWindow : Z; QuoteRequestWindowSeconds : Z }.

Record ServiceEndpoints := { QuoteURL : string; SubmitURL : string; ResolveURL : string; EvidenceURL : string }.

Record RelayServiceProfile := {
  sp_SchemaVersion : Z; ProfileID : string; Revision : Z; sp_ProviderAgentID : string;
  NetworkDomains : list NetworkDomain; SupportedModes : list Mode; SupportedAssuranceLevels : list AssuranceLevel;
  TransactionProfiles : list TransactionProfile; FinalityProfiles : list FinalityProfile;
  FeeAssets : list AssetIdentity; ExposureLimits : list ExposureLimit; sp_AdmissionLimits : AdmissionLimits;
  sp_MaximumRequestBytes : Z; Endpoints : ServiceEndpoints; PolicyRevision : Z;
  sp_CreatedAtUnix : Z; sp_ExpiresAtUnix : Z }.

Record RelayQuoteRequestBody := {
  qr_SchemaVersion : Z; RequestID : string; RequesterAgentID : string; qr_ProviderAgentID : string;
  Network : NetworkDomain; qr_Mode : Mode; qr_AssuranceLevel : AssuranceLevel;
  qr_SponsorshipReleaseEvidenceClass : SponsorshipReleaseEvidenceClass; qr_SponsorshipReleaseProfileURI : string;
  qr_SponsorshipReleaseProfileDigest : string; qr_RelayTerminalEvidenceClass : TerminalEvidenceClass;
  qr_SponsorshipTerminalEvidenceClass : TerminalEvidenceClass; SourceAccount : string;
  SourceAccountAuthorityDigest : string; TransactionProfileURI : string; TransactionProfileDigest : string;
  UnderlyingActionKind : string; qr_StableActionID : string; qr_ExactRequestDigest : string;
  qr_SignedTransactionDigest : string; qr_SignedTransactionCellHash : string; SignedTransactionSize : Z;
  TransactionIntentDigest : string; SourceSequence : Z; TransactionValidUntilUnix : Z;
  RequestedSponsorship : option AssetAmount; MaximumServiceFee : AssetAmount; qr_MaximumNetworkFeeAtomic : string;
  qr_MaximumTransactionValueAtomic : string; RelayFinalityProfileURI : string; RelayFinalityProfileDigest : string;
  SponsorshipTerminalProfileURI : string; qr_SponsorshipTerminalProfileDigest : string;
  qr_CreatedAtUnix : Z; qr_ExpiresAtUnix : Z }.

Record SignedRelayQuoteRequest := { qr_Body : RelayQuoteRequestBody; qr_PublicKey : string; qr_Signature : string }.

Record FeeLine := { Kind : string; FeeAmount : AssetAmount }.

Record ProviderRelayQuoteBody := {
  pq_SchemaVersion : Z; QuoteID : string; QuoteRequestDigest : string; ServiceProfileDigest : string;
  pq_ProviderAgentID : string; pq_Mode : Mode; pq_AssuranceLevel : AssuranceLevel;
  pq_SponsorshipReleaseEvidenceClass : SponsorshipReleaseEvidenceClass; pq_SponsorshipReleaseProfileURI : string;
  pq_SponsorshipReleaseProfileDigest : string; pq_RelayTerminalEvidenceClass : TerminalEvidenceClass;
  pq_SponsorshipTerminalEvidenceClass : TerminalEvidenceClass; FeeLines : list FeeLine;
  ReservedSponsorship : option AssetAmount; pq_MaximumNetworkFeeAtomic : string;
  pq_MaximumTransactionValueAtomic : string; pq_MaximumRequestBytes : Z; RelayFinalityProfile : option FinalityProfile;
  SponsorshipTerminalProfile : option FinalityProfile; StatusEndpoint : string; ProviderPolicyRevision : Z;
  OfferIntentDigest : string; ValidFromUnix : Z; pq_ExpiresAtUnix : Z }.

Record SignedProviderRelayQuote := { pq_Body : ProviderRelayQuoteBody; pq_PublicKey : string; pq_Signature : string }.

(** *** Admission receipts (admission.go) *)

Inductive SideEffectStage := SideEffectSponsorship | SideEffectBroadcast | SideEffectOther (s : string).
#[global] Instance SideEffectStage_eq_dec : EqDecision SideEffectStage.
Proof. solve_decision. Defined.

Record RelaySideEffectAdmissionReceiptBody := {
  rb_SchemaVersion : Z; rb_OwnerID : string; rb_AgentID : string; rb_AuthenticatedPrincipal : string;
  rb_AuthorityID : string; rb_ProviderAgentID : string; rb_ServiceProfileDigest : string; rb_ProviderQuoteDigest : string;
  rb_NetworkDigest : string; rb_TransactionIdentityDigest : string; rb_Mode : Mode; rb_AssuranceLevel : AssuranceLevel;
  rb_StageMask : list SideEffectStage; rb_RouteAttempt : Z; rb_PredecessorReceiptDigest : string;
  rb_StableActionID : string; rb_ExactRequestDigest : string; rb_RelayExecutionDigest : string;
  rb_AuthorizedActionDigest : string; rb_WriterFenceDigest : string; WriterLeaseID : string; rb_WriterGeneration : Z;
  rb_PolicyRevision : Z; rb_MandateDigest : string; rb_ApprovalDigest : string; AdmissionSequence : Z;
  rb_IssuedAtUnix : Z; StartNotAfterUnix : Z }.

#[global] Instance RelaySideEffectAdmissionReceiptBody_eq_dec : EqDecision RelaySideEffectAdmissionReceiptBody.
Proof. solve_decision. Defined.

Record SignedRelaySideEffectAdmissionReceipt := {
  rc_Body : RelaySideEffectAdmissionReceiptBody; rc_PublicKey : string; rc_Signature : string }.

Record RelayTransactionIdentity := {
  ti_SchemaVersion : Z; ti_Network : NetworkDomain; ti_SourceAccount : string; ti_SourceAccountAuthorityDigest : string;
  ti_TransactionProfileURI : string; ti_TransactionProfileDigest : string; ti_UnderlyingActionKind : string;
  ti_StableActionID : string; ti_ExactRequestDigest : string; ti_SignedTransactionDigest : string;
  ti_SignedTransactionCellHash : string; ti_SignedTransactionSize : Z; ti_TransactionIntentDigest : string;
  ti_SourceSequence : Z; ti_TransactionValidUntilUnix : Z }.

Record RelayExecutionRequest := {
  ex_SchemaVersion : Z; QuoteRequest : SignedRelayQuoteRequest; ProviderQuote : SignedProviderRelayQuote;
  SignedTransactionBytes : string; AgreementBodyDigest : string; AgreementExpiresAtUnix : Z; RelayObligationID : string;
  SponsorshipObligationID : string; FeeObligationIDs : list string; UnderlyingActionRequest : string;
  SemanticFields : list SemanticFieldValue; ex_AuthorizedAction : AuthorizedAction; ex_WriterFence : WriterFence;
  AdmissionReceipt : SignedRelaySideEffectAdmissionReceipt; ex_CreatedAtUnix : Z; ex_ExpiresAtUnix : Z }.
Definition ActionStableActionID (request : RelayExecutionRequest) : string := ac_StableActionID (ex_AuthorizedAction request).
Definition ActionExactRequestDigest (request : RelayExecutionRequest) : string :=
  ac_ExactRequestDigest (ex_AuthorizedAction request).

Record RelaySponsorshipCreditObservation := {
  co_SchemaVersion : Z; co_NetworkDigest : string; co_Payment : AgreementPaymentRequest; co_PaymentDigest : string;
  co_StableActionID : string; co_ExactRequestDigest : string; co_SourceAccount : string; co_SourceSequence : Z;
  co_ValidUntilUnix : Z; co_TopUpDigest : string; co_TopUpCellHash : string; co_CommitmentCellHash : string;
  co_DestinationAccount : string; co_Amount : AssetAmount; co_SubmittedTransactionHash : string;
  co_SourceExecutionReference : string; co_DestinationCreditReferences : list string; co_EvidenceProfileURI : string;
  co_EvidenceProfileDigest : string; ObservedCheckpointID : string; ObservedCheckpointSequence : Z;
  ObservedCheckpointUnix : Z; co_ObservationDigests : list string; co_ObservedAtUnix : Z }.

Record RelaySponsorshipTransactionEvidence := {
  te_SchemaVersion : Z; te_TerminalEvidenceClass : TerminalEvidenceClass; ValidatorAuthenticatedPortableProof : bool;
  te_NetworkDigest : string; te_Payment : AgreementPaymentRequest; te_PaymentDigest : string;
  te_StableActionID : string; te_ExactRequestDigest : string; te_SourceAccount : string; te_SourceSequence : Z;
  te_ValidUntilUnix : Z; te_TopUpDigest : string; te_TopUpCellHash : string; te_CommitmentCellHash : string;
  te_DestinationAccount : string; te_Amount : AssetAmount; SubmittedTransactionHash : string;
  te_SourceExecutionReference : string; te_DestinationCreditReferences : list string; te_FinalizedCheckpointID : string;
  te_FinalizedCheckpointSequence : Z; te_FinalizedCheckpointUnix : Z; ConfirmationDepth : Z;
  te_TerminalProfileDigest : string; te_ObservationDigests : list string; ProofBundleDigest : string;
  ProofBundle : string; PortableProofLocator : string; te_ObservedAtUnix : Z }.

(** ** Small checks *)

Definition sameAsset (left right : AssetIdentity) : bool := same left right.
Definition sameAmount (left right : AssetAmount) : bool :=
  sameAsset (Asset left) (Asset right) && streq (AmountAtomic left) (AmountAtomic right).

Definition assetKey (value : AssetIdentity) : string :=
  AssetNamespace value +:+ bytes [0%N] +:+ AssetIdentifier value +:+ bytes [0%N] +:+ Unit value.

Definition validateAsset (asset : AssetIdentity) : bool :=
  identifier (AssetNamespace asset) 128 && identifier (AssetIdentifier asset) 256 && identifier (Unit asset) 128.

Definition validateAmount (amount : AssetAmount) (positive : bool) : bool :=
  validateAsset (Asset amount) && canonicalAtomic (AmountAtomic amount) &&
  negb (positive && streq (AmountAtomic amount) "0").

Definition validateNetworkDomain (network : NetworkDomain) : bool :=
  identifier (NetworkID network) 128 && digestPattern (ZeroStateRootHash network) &&
  digestPattern (ZeroStateFileHash network).

Definition validateFinalityProfile (profile : FinalityProfile) : bool :=
  identifier (ProfileURI profile) 256 && digestPattern (ProfileDigest profile) &&
  negb (MinimumConfirmationDepth profile =? 0) && negb (MinimumObservers profile =? 0) &&
  negb (MinimumOperatorDomains profile =? 0) && (MinimumOperatorDomains profile <=? MinimumObservers profile) &&
  negb (MaximumResolutionSeconds profile =? 0) && (MaximumResolutionSeconds profile <=? 24 * 60 * 60) &&
  (ReorgWindowSeconds profile <=? MaximumResolutionSeconds profile) &&
  match fp_TerminalEvidenceClass profile with
  | ValidatorFinality => true
  | ProviderCorroborated => streq (ProfileURI profile) ProviderCorroboratedTerminalProfileURI
  | ClientCorroborated => streq (ProfileURI profile) ClientCorroboratedTerminalProfileURI
  | _ => false
  end.

Definition hasStrictRemainingWindow (nowUnix deadlineUnix budgetSeconds : Z) : bool :=
  negb ((deadlineUnix =? 0) || (maxUint64 - budgetSeconds <? nowUnix)) && (nowUnix + budgetSeconds <? deadlineUnix).

Definition networkDomainLess (left right : NetworkDomain) : bool :=
  if negb (streq (NetworkID left) (NetworkID right)) then bool_decide (bytes_lt (NetworkID left) (NetworkID right))
  else if negb (GlobalID left =? GlobalID right) then GlobalID left <? GlobalID right
  else if negb (streq (ZeroStateRootHash left) (ZeroStateRootHash right))
       then bool_decide (bytes_lt (ZeroStateRootHash left) (ZeroStateRootHash right))
  else if negb (streq (ZeroStateFileHash left) (ZeroStateFileHash right))
       then bool_decide (bytes_lt (ZeroStateFileHash left) (ZeroStateFileHash right))
  else WorkchainID left <? WorkchainID right.

Fixpoint sortedNetworkDomains (values : list NetworkDomain) : bool :=
  match values with
  | [] => true
  | value :: rest =>
      validateNetworkDomain value &&
      match rest with next :: _ => networkDomainLess value next | [] => true end && sortedNetworkDomains rest
  end.

Definition sortedModes (values : list Mode) : bool := forallb validMode values && ascending "" (mode_text <$> values).
Definition sortedAssuranceLevels (values : list AssuranceLevel) : bool :=
  forallb validAssuranceLevel values && ascending "" (assurance_text <$> values).
Definition sortedTransactionProfiles (values : list TransactionProfile) : bool :=
  ascending "" ((fun v => tp_ProfileURI v +:+ bytes [0%N] +:+ tp_ProfileDigest v) <$> values).
Definition sortedFinalityProfiles (values : list FinalityProfile) : bool :=
  ascending "" ((fun v => ProfileURI v +:+ bytes [0%N] +:+ ProfileDigest v) <$> values).
Definition sortedAssets (values : list AssetIdentity) : bool := ascending "" (assetKey <$> values).
Definition sortedExposureLimits (values : list ExposureLimit) : bool := ascending "" (assetKey ∘ LimitAsset <$> values).
Definition sortedFeeLines (values : list FeeLine) : bool := ascending "" (Kind <$> values).

Definition sortedIdentifiers (values : list string) (maximum : Z) : bool :=
  negb (zlen values =? 0) && (zlen values <=? maximum) && forallb (fun v => identifier v 128) values && ascending_list values.
Definition sortedDigests (values : list string) (maximum : Z) : bool :=
  negb (zlen values =? 0) && (zlen values <=? maximum) && forallb digestPattern values && ascending_list values.

Fixpoint findExposureLimit (values : list ExposureLimit) (asset : AssetIdentity) : option ExposureLimit :=
  match values with
  | [] => None
  | candidate :: rest => if sameAsset (LimitAsset candidate) asset then Some candidate else findExposureLimit rest asset
  end.

Definition validRelayTerminalClass (class : TerminalEvidenceClass) (assurance : AssuranceLevel) : bool :=
  same class ValidatorFinality || (same class ProviderCorroborated && negb (same assurance AssuranceAutonomousDecentralized)).
Definition validSponsorshipTerminalClass (class : TerminalEvidenceClass) (assurance : AssuranceLevel) : bool :=
  same class ValidatorFinality || (same class ClientCorroborated && negb (same assurance AssuranceAutonomousDecentralized)).

Definition validProfileSelection (uri digest : string) : bool := identifier uri 256 && digestPattern digest.

(** The release policy against the selected mode, assurance level and terminal profile. *)
Definition ValidateSponsorshipReleaseProfile (mode : Mode) (assurance : AssuranceLevel)
    (class : SponsorshipReleaseEvidenceClass) (uri digest finalityURI finalityDigest : string)
    (terminalClass : TerminalEvidenceClass) : bool :=
  validAssuranceLevel assurance &&
  match mode with
  | ModeRelayExact => same class NoReleaseClass && streq uri "" && streq digest ""
  | ModeSponsorOnly | ModeSponsorAndRelay =>
      identifier uri 256 && digestPattern digest &&
      match class with
      | ReleaseValidatorFinality => streq uri finalityURI && streq digest finalityDigest && same terminalClass ValidatorFinality
      | ReleaseObservedUnproven =>
          negb (same assurance AssuranceAutonomousDecentralized) && streq uri RPCCorroborationEvidenceProfileURI &&
          streq finalityURI ClientCorroboratedTerminalProfileURI && same terminalClass ClientCorroborated
      | _ => false
      end
  | ModeOther _ => false
  end.

(** ** Endpoints

    The parsers of net/url and net/netip are inputs; the checks on what they return
    are the code's. *)

(** What [url.ParseRequestURI] returns, with [parsed.Hostname()]. *)
Record URL := {
  Scheme : string; Host : string; HasUser : bool; Fragment : string; RawQuery : string; Path : string; Hostname : string }.

(** A [netip.Addr]: its bits and, for IPv6, its zone. *)
Inductive Addr := Addr4 (bits : Z) | Addr6 (bits : Z) (zone : string).

(** The leading bits of an address, as [netip.Prefix.Contains] compares them; an
    address with a zone is in no prefix. *)
Definition Contains4 (prefix bits : Z) (a : Addr) : bool :=
  match a with Addr4 n => Z.shiftr n (32 - bits) =? Z.shiftr prefix (32 - bits) | Addr6 _ _ => false end.
Definition Contains6 (prefix bits : Z) (a : Addr) : bool :=
  match a with
  | Addr4 _ => false
  | Addr6 n zone => negb (nonempty zone) && (Z.shiftr n (128 - bits) =? Z.shiftr prefix (128 - bits))
  end.

Definition v4 (a b c d : Z) : Z := ((a * 256 + b) * 256 + c) * 256 + d.
(** An IPv6 address that begins with the given 16-bit groups. *)
Definition v6 (groups : list Z) : Z := foldl (fun acc g => acc * 2 ^ 16 + g) 0 groups * 2 ^ (16 * (8 - zlen groups)).

Definition Unmap (a : Addr) : Addr :=
  match a with
  | Addr6 n _ => if Z.shiftr n 32 =? 0xffff then Addr4 (n mod 2 ^ 32) else a
  | _ => a
  end.
Definition IsLoopback (a : Addr) : bool := match a with Addr4 n => Z.shiftr n 24 =? 127 | Addr6 n _ => n =? 1 end.
Definition IsMulticast (a : Addr) : bool := match a with Addr4 n => Z.shiftr n 28 =? 0xe | Addr6 n _ => Z.shiftr n 120 =? 0xff end.
Definition IsLinkLocalUnicast (a : Addr) : bool :=
  match a with Addr4 n => Z.shiftr n 16 =? 169 * 256 + 254 | Addr6 n _ => Z.shiftr n 118 =? 0x3fa end.
Definition IsLinkLocalMulticast (a : Addr) : bool :=
  match a with Addr4 n => Z.shiftr n 8 =? 224 * 2 ^ 16 | Addr6 n _ => Z.land (Z.shiftr n 112) 0xff0f =? 0xff02 end.
Definition IsUnspecified (a : Addr) : bool := match a with Addr4 n => n =? 0 | Addr6 n zone => (n =? 0) && negb (nonempty zone) end.
Definition IsPrivate (a : Addr) : bool :=
  match a with
  | Addr4 n => (Z.shiftr n 24 =? 10) || (Z.shiftr n 20 =? 172 * 16 + 1) || (Z.shiftr n 16 =? 192 * 256 + 168)
  | Addr6 n _ => Z.shiftr n 121 =? 0x7e
  end.
Definition IsGlobalUnicast (a : Addr) : bool :=
  negb (match a with Addr4 n => (n =? 0) || (n =? 2 ^ 32 - 1) | Addr6 _ _ => false end) &&
  negb (match a with Addr6 n zone => (n =? 0) && negb (nonempty zone) | Addr4 _ => false end) &&
  negb (IsLoopback a) && negb (IsMulticast a) && negb (IsLinkLocalUnicast a).

(** The documentation, benchmarking and transition ranges. *)
Definition reservedRanges : list (Addr -> bool) :=
  [Contains4 (v4 0 0 0 0) 8; Contains4 (v4 100 64 0 0) 10; Contains4 (v4 192 0 0 0) 24; Contains4 (v4 192 0 2 0) 24;
   Contains4 (v4 198 18 0 0) 15; Contains4 (v4 198 51 100 0) 24; Contains4 (v4 203 0 113 0) 24; Contains4 (v4 240 0 0 0) 4;
   Contains6 (v6 [0x64; 0xff9b; 1]) 48; Contains6 (v6 [0x100]) 64; Contains6 (v6 [0x2001]) 23; Contains6 (v6 [0x2002]) 16;
   Contains6 (v6 [0x3fff]) 20; Contains6 (v6 [0x5f00]) 16].

Definition nonPublicAddress (parsed : Addr) : bool :=
  let address := Unmap parsed in
  negb (IsGlobalUnicast address) || IsPrivate address || IsLoopback address || IsLinkLocalUnicast address ||
  IsLinkLocalMulticast address || IsMulticast address || IsUnspecified address || existsb (fun contains => contains address) reservedRanges.

(** A zone takes an address out of every reserved range: 2002:a00:1:: is refused, and
    the same address with a zone is taken for a public one. *)
Example zoned_address_public :
  nonPublicAddress (Addr6 (v6 [0x2002; 0x0a00; 1]) "") = true /\ nonPublicAddress (Addr6 (v6 [0x2002; 0x0a00; 1]) "eth0") = false.
Proof. vm_compute. split; reflexivity. Qed.

Example address_classes :
  nonPublicAddress <$> [Addr4 (v4 10 1 2 3); Addr4 (v4 127 0 0 1); Addr4 (v4 198 19 0 1); Addr6 (v6 [0; 0; 0; 0; 0; 0xffff; 0x7f00; 1]) "";
                        Addr6 (v6 [0xfd00]) ""; Addr4 (v4 8 8 8 8); Addr6 (v6 [0x2606; 0x4700]) ""] =
  [true; true; true; true; true; false; false].
Proof. vm_compute. reflexivity. Qed.

Definition lower_byte (c : ascii) : ascii :=
  if between 65 90 c then ascii_of_N (N_of_ascii c + 32) else c.
Fixpoint ToLower (s : string) : string :=
  match s with EmptyString => EmptyString | String c s => String (lower_byte c) (ToLower s) end.

Class NetParser := {
  ParseRequestURI : string -> option URL;
  ParseAddr : string -> option Addr }.

Definition nonPublicRelayIPLiteral `{NetParser} (host : string) : bool :=
  match ParseAddr host with None => false | Some a => nonPublicAddress a end.

Definition validateEndpoint `{NetParser} (value : string) : bool :=
  negb ((slen value =? 0) || (2048 <? slen value)) &&
  match ParseRequestURI value with
  | None => false
  | Some parsed =>
      streq (Scheme parsed) "https" && nonempty (Host parsed) && negb (HasUser parsed) && streq (Fragment parsed) "" &&
      streq (RawQuery parsed) "" && nonempty (Path parsed) &&
      let host := ToLower (Hostname parsed) in
      negb (streq host "localhost" || HasSuffix host ".localhost" || nonPublicRelayIPLiteral host)
  end.

(** ** What the documents need of other packages *)

(** The execution request without its credentials, as its digest covers it. *)
Record RelayExecutionProjection := {
  xp_SchemaVersion : Z; xp_QuoteRequest : SignedRelayQuoteRequest; xp_ProviderQuote : SignedProviderRelayQuote;
  xp_SignedTransactionBytes : string; xp_AgreementBodyDigest : string; xp_AgreementExpiresAtUnix : Z; xp_RelayObligationID : string;
  xp_SponsorshipObligationID : string; xp_FeeObligationIDs : list string; xp_UnderlyingActionRequest : string;
  xp_SemanticFields : list SemanticFieldValue; xp_CreatedAtUnix : Z; xp_ExpiresAtUnix : Z }.

Definition executionProjection (request : RelayExecutionRequest) : RelayExecutionProjection :=
  {| xp_SchemaVersion := ex_SchemaVersion request; xp_QuoteRequest := QuoteRequest request; xp_ProviderQuote := ProviderQuote request;
     xp_SignedTransactionBytes := SignedTransactionBytes request; xp_AgreementBodyDigest := AgreementBodyDigest request;
     xp_AgreementExpiresAtUnix := AgreementExpiresAtUnix request; xp_RelayObligationID := RelayObligationID request;
     xp_SponsorshipObligationID := SponsorshipObligationID request; xp_FeeObligationIDs := FeeObligationIDs request;
     xp_UnderlyingActionRequest := UnderlyingActionRequest request; xp_SemanticFields := SemanticFields request;
     xp_CreatedAtUnix := ex_CreatedAtUnix request; xp_ExpiresAtUnix := ex_ExpiresAtUnix request |}.

Class RelayCodec := {
  #[global] relay_commerce :: CommerceCodec;
  #[global] relay_payment :: PaymentCodec;
  #[global] relay_net :: NetParser;
  (* codec.Marshal of each document; nil when it does not encode *)
  marshal_network : NetworkDomain -> option string;
  marshal_profile : RelayServiceProfile -> option string;
  marshal_quote_request : RelayQuoteRequestBody -> option string;
  marshal_provider_quote : ProviderRelayQuoteBody -> option string;
  marshal_execution : RelayExecutionProjection -> option string;
  marshal_observation : RelaySponsorshipCreditObservation -> option string;
  marshal_evidence : RelaySponsorshipTransactionEvidence -> option string;
  marshal_transaction_identity : RelayTransactionIdentity -> option string;
  marshal_receipt_body : RelaySideEffectAdmissionReceiptBody -> option string;
  (* codec.Unmarshal accepts the bytes *)
  cbor_canonical : string -> bool }.

(** [SemanticActionRegistry()[kind].ActionKind != ""] *)
Definition semanticActionKind (kind : string) : bool :=
  match semanticActionRegistry !! kind with Some e => nonempty (se_ActionKind e) | None => false end.

(** The call succeeded with this value. *)
Definition returns (r : result string string) (value : string) : bool := match r with Ok v => streq v value | _ => false end.

Section Shapes.
Context `{C : RelayCodec}.

Definition validateRelayServiceProfileShape (profile : RelayServiceProfile) : result string unit :=
  fail_if (negb (sp_SchemaVersion profile =? 1) || negb (identifier (ProfileID profile) 256) || (Revision profile =? 0) ||
           negb (identifier (sp_ProviderAgentID profile) 256) || (sp_MaximumRequestBytes profile =? 0) ||
           (MaxSignedTransactionBytes <? sp_MaximumRequestBytes profile) || (PolicyRevision profile =? 0) ||
           (sp_CreatedAtUnix profile =? 0) || (sp_ExpiresAtUnix profile <=? sp_CreatedAtUnix profile) ||
           (MaxRelayProfileLifetime <? sp_ExpiresAtUnix profile - sp_CreatedAtUnix profile))
    "relay service profile envelope is invalid";;
  fail_if ((zlen (NetworkDomains profile) =? 0) || (64 <? zlen (NetworkDomains profile)) ||
           negb (sortedNetworkDomains (NetworkDomains profile))) "relay service network domains are invalid";;
  fail_if ((zlen (SupportedModes profile) =? 0) || (3 <? zlen (SupportedModes profile)) ||
           negb (sortedModes (SupportedModes profile))) "relay service modes are invalid";;
  fail_if ((zlen (SupportedAssuranceLevels profile) =? 0) || (3 <? zlen (SupportedAssuranceLevels profile)) ||
           negb (sortedAssuranceLevels (SupportedAssuranceLevels profile))) "relay service assurance levels are invalid";;
  fail_if ((zlen (TransactionProfiles profile) =? 0) || (32 <? zlen (TransactionProfiles profile)) ||
           negb (sortedTransactionProfiles (TransactionProfiles profile))) "relay transaction profiles are invalid";;
  fail_if (negb (forallb (fun c => identifier (tp_ProfileURI c) 256 && digestPattern (tp_ProfileDigest c) &&
                   negb (MaximumSignedBytes c =? 0) && (MaximumSignedBytes c <=? sp_MaximumRequestBytes profile) &&
                   InspectableSourceSequence c && InspectableTransactionExpiry c) (TransactionProfiles profile)))
    "relay transaction profile is not safely inspectable";;
  fail_if ((zlen (FinalityProfiles profile) =? 0) || (16 <? zlen (FinalityProfiles profile)) ||
           negb (sortedFinalityProfiles (FinalityProfiles profile))) "relay finality profiles are invalid";;
  fail_if (negb (forallb validateFinalityProfile (FinalityProfiles profile))) "relay finality profile is invalid";;
  fail_if ((zlen (FeeAssets profile) =? 0) || (16 <? zlen (FeeAssets profile)) || negb (sortedAssets (FeeAssets profile)))
    "relay fee assets are invalid";;
  fail_if (negb (forallb validateAsset (FeeAssets profile))) "relay asset identity is invalid";;
  fail_if ((zlen (ExposureLimits profile) =? 0) || (32 <? zlen (ExposureLimits profile)) ||
           negb (sortedExposureLimits (ExposureLimits profile))) "relay exposure limits are invalid";;
  fail_if (negb (forallb (fun l => validateAsset (LimitAsset l) && positiveAtomic (MaximumPerRequestAtomic l) &&
                   positiveAtomic (MaximumOutstandingAtomic l) &&
                   (compareAtomic (MaximumPerRequestAtomic l) (MaximumOutstandingAtomic l) <=? 0)) (ExposureLimits profile)))
    "relay exposure limit is invalid";;
  let limits := sp_AdmissionLimits profile in
  fail_if ((MaximumQuoteReservations limits =? 0) || (1000000 <? MaximumQuoteReservations limits) ||
           (MaximumActiveExecutions limits =? 0) || (1000000 <? MaximumActiveExecutions limits) ||
           (MaximumActivePerRequester limits =? 0) ||
           (MaximumActiveExecutions limits <? MaximumActivePerRequester limits) ||
           (MaximumQuoteRequestsPerWindow limits =? 0) || (1000000 <? MaximumQuoteRequestsPerWindow limits) ||
           (MaximumQuoteRequestsPerRequesterWindow limits =? 0) ||
           (MaximumQuoteRequestsPerWindow limits <? MaximumQuoteRequestsPerRequesterWindow limits) ||
           (QuoteRequestWindowSeconds limits =? 0) || (86400 <? QuoteRequestWindowSeconds limits))
    "relay admission limits are invalid";;
  fail_if (negb (forallb validateEndpoint [QuoteURL (Endpoints profile); SubmitURL (Endpoints profile);
                                           ResolveURL (Endpoints profile); EvidenceURL (Endpoints profile)]))
    "relay endpoint is invalid".

Definition requestReleaseSelection (body : RelayQuoteRequestBody) (uri digest : string) (class : TerminalEvidenceClass) : bool :=
  ValidateSponsorshipReleaseProfile (qr_Mode body) (qr_AssuranceLevel body) (qr_SponsorshipReleaseEvidenceClass body)
    (qr_SponsorshipReleaseProfileURI body) (qr_SponsorshipReleaseProfileDigest body) uri digest class.

Definition requestedPositive (body : RelayQuoteRequestBody) : bool :=
  match RequestedSponsorship body with Some amount => validateAmount amount true | None => false end.

Definition validateRelayQuoteRequestShape (body : RelayQuoteRequestBody) : result string unit :=
  fail_if (negb (qr_SchemaVersion body =? 1) || negb (identifier (RequestID body) 256) ||
           negb (identifier (RequesterAgentID body) 256) || negb (identifier (qr_ProviderAgentID body) 256) ||
           negb (validateNetworkDomain (Network body)) || negb (validMode (qr_Mode body)) ||
           negb (validAssuranceLevel (qr_AssuranceLevel body)) || negb (identifier (SourceAccount body) 256) ||
           negb (digestPattern (SourceAccountAuthorityDigest body)) || negb (identifier (TransactionProfileURI body) 256) ||
           negb (digestPattern (TransactionProfileDigest body)) || negb (semanticActionKind (UnderlyingActionKind body)) ||
           negb (digestPattern (qr_StableActionID body)) || negb (digestPattern (qr_ExactRequestDigest body)) ||
           negb (digestPattern (qr_SignedTransactionDigest body)) ||
           negb (cellHashPattern (qr_SignedTransactionCellHash body)) || (SignedTransactionSize body =? 0) ||
           (MaxSignedTransactionBytes <? SignedTransactionSize body) || negb (digestPattern (TransactionIntentDigest body)) ||
           (TransactionValidUntilUnix body =? 0) || negb (validateAmount (MaximumServiceFee body) false) ||
           negb (canonicalAtomic (qr_MaximumNetworkFeeAtomic body)) ||
           negb (canonicalAtomic (qr_MaximumTransactionValueAtomic body)) || (qr_CreatedAtUnix body =? 0) ||
           (qr_ExpiresAtUnix body <=? qr_CreatedAtUnix body) ||
           (MaxRelayRequestLifetime <? qr_ExpiresAtUnix body - qr_CreatedAtUnix body) ||
           (TransactionValidUntilUnix body <=? qr_ExpiresAtUnix body))
    "relay quote request body is invalid";;
  match qr_Mode body with
  | ModeRelayExact =>
      fail_if (negb (validProfileSelection (RelayFinalityProfileURI body) (RelayFinalityProfileDigest body)) ||
               negb (validRelayTerminalClass (qr_RelayTerminalEvidenceClass body) (qr_AssuranceLevel body)) ||
               negb (same (qr_SponsorshipTerminalEvidenceClass body) NoEvidenceClass) ||
               negb (streq (SponsorshipTerminalProfileURI body) "") ||
               negb (streq (qr_SponsorshipTerminalProfileDigest body) "") ||
               match RequestedSponsorship body with Some _ => true | None => false end ||
               negb (requestReleaseSelection body "" "" NoEvidenceClass))
        "relay-only request carries sponsorship"
  | ModeSponsorOnly =>
      fail_if (negb (streq (RelayFinalityProfileURI body) "") || negb (streq (RelayFinalityProfileDigest body) "") ||
               negb (same (qr_RelayTerminalEvidenceClass body) NoEvidenceClass) ||
               negb (validSponsorshipTerminalClass (qr_SponsorshipTerminalEvidenceClass body) (qr_AssuranceLevel body)) ||
               negb (validProfileSelection (SponsorshipTerminalProfileURI body) (qr_SponsorshipTerminalProfileDigest body)) ||
               negb (requestedPositive body) ||
               negb (requestReleaseSelection body (SponsorshipTerminalProfileURI body)
                       (qr_SponsorshipTerminalProfileDigest body) (qr_SponsorshipTerminalEvidenceClass body)))
        "sponsor-only request lacks its exact terminal predicate or positive amount"
  | ModeSponsorAndRelay =>
      fail_if (negb (validProfileSelection (RelayFinalityProfileURI body) (RelayFinalityProfileDigest body)) ||
               negb (validProfileSelection (SponsorshipTerminalProfileURI body) (qr_SponsorshipTerminalProfileDigest body)) ||
               negb (validRelayTerminalClass (qr_RelayTerminalEvidenceClass body) (qr_AssuranceLevel body)) ||
               negb (validSponsorshipTerminalClass (qr_SponsorshipTerminalEvidenceClass body) (qr_AssuranceLevel body)) ||
               negb (requestedPositive body) ||
               negb (requestReleaseSelection body (SponsorshipTerminalProfileURI body)
                       (qr_SponsorshipTerminalProfileDigest body) (qr_SponsorshipTerminalEvidenceClass body)))
        "combined request lacks exact relay or sponsorship predicates"
  | ModeOther _ => Err "relay mode is invalid"%string
  end.

Definition quoteReleaseSelection (body : ProviderRelayQuoteBody) (uri digest : string) (class : TerminalEvidenceClass) : bool :=
  ValidateSponsorshipReleaseProfile (pq_Mode body) (pq_AssuranceLevel body) (pq_SponsorshipReleaseEvidenceClass body)
    (pq_SponsorshipReleaseProfileURI body) (pq_SponsorshipReleaseProfileDigest body) uri digest class.

Definition reservedPositive (body : ProviderRelayQuoteBody) : bool :=
  match ReservedSponsorship body with Some amount => validateAmount amount true | None => false end.

(** The selected profile: present, valid and of the declared evidence class. *)
Definition selectedProfile (profile : option FinalityProfile) (class : TerminalEvidenceClass) : bool :=
  match profile with
  | Some p => validateFinalityProfile p && same (fp_TerminalEvidenceClass p) class
  | None => false
  end.

Definition sponsorshipSelection (body : ProviderRelayQuoteBody) : bool :=
  match SponsorshipTerminalProfile body with
  | Some p => quoteReleaseSelection body (ProfileURI p) (ProfileDigest p) (pq_SponsorshipTerminalEvidenceClass body)
  | None => false
  end.

Definition feeKinds (body : ProviderRelayQuoteBody) (kinds : list string) : bool :=
  bool_decide ((Kind <$> FeeLines body) = kinds).

Definition validateProviderRelayQuoteShape (body : ProviderRelayQuoteBody) : result string unit :=
  fail_if (negb (pq_SchemaVersion body =? 1) || negb (identifier (QuoteID body) 256) ||
           negb (digestPattern (QuoteRequestDigest body)) || negb (digestPattern (ServiceProfileDigest body)) ||
           negb (identifier (pq_ProviderAgentID body) 256) || negb (validMode (pq_Mode body)) ||
           negb (validAssuranceLevel (pq_AssuranceLevel body)) || (zlen (FeeLines body) =? 0) ||
           (MaxRelayFeeLines <? zlen (FeeLines body)) || negb (sortedFeeLines (FeeLines body)) ||
           negb (canonicalAtomic (pq_MaximumNetworkFeeAtomic body)) ||
           negb (canonicalAtomic (pq_MaximumTransactionValueAtomic body)) || (pq_MaximumRequestBytes body =? 0) ||
           (MaxSignedTransactionBytes <? pq_MaximumRequestBytes body) || negb (validateEndpoint (StatusEndpoint body)) ||
           (ProviderPolicyRevision body =? 0) ||
           (negb (streq (OfferIntentDigest body) "") && negb (digestPattern (OfferIntentDigest body))) ||
           (ValidFromUnix body =? 0) || (pq_ExpiresAtUnix body <=? ValidFromUnix body) ||
           (MaxRelayRequestLifetime <? pq_ExpiresAtUnix body - ValidFromUnix body))
    "provider relay quote body is invalid";;
  fail_if (negb (forallb (fun l => one_of (Kind l) [ObligationRelayFee; ObligationSponsorshipFee] &&
                                   validateAmount (FeeAmount l) false) (FeeLines body)))
    "provider relay quote fee line is invalid";;
  match pq_Mode body with
  | ModeRelayExact =>
      fail_if (negb (selectedProfile (RelayFinalityProfile body) (pq_RelayTerminalEvidenceClass body)) ||
               negb (validRelayTerminalClass (pq_RelayTerminalEvidenceClass body) (pq_AssuranceLevel body)) ||
               negb (same (pq_SponsorshipTerminalEvidenceClass body) NoEvidenceClass) ||
               match SponsorshipTerminalProfile body with Some _ => true | None => false end ||
               match ReservedSponsorship body with Some _ => true | None => false end ||
               negb (feeKinds body [ObligationRelayFee]) || negb (quoteReleaseSelection body "" "" NoEvidenceClass))
        "relay-only quote has invalid fee or sponsorship lines"
  | ModeSponsorOnly =>
      fail_if (match RelayFinalityProfile body with Some _ => true | None => false end ||
               negb (selectedProfile (SponsorshipTerminalProfile body) (pq_SponsorshipTerminalEvidenceClass body)) ||
               negb (same (pq_RelayTerminalEvidenceClass body) NoEvidenceClass) ||
               negb (validSponsorshipTerminalClass (pq_SponsorshipTerminalEvidenceClass body) (pq_AssuranceLevel body)) ||
               negb (reservedPositive body) || negb (feeKinds body [ObligationSponsorshipFee]) ||
               negb (sponsorshipSelection body))
        "sponsor-only quote is incomplete"
  | ModeSponsorAndRelay =>
      fail_if (negb (selectedProfile (RelayFinalityProfile body) (pq_RelayTerminalEvidenceClass body)) ||
               negb (selectedProfile (SponsorshipTerminalProfile body) (pq_SponsorshipTerminalEvidenceClass body)) ||
               negb (validRelayTerminalClass (pq_RelayTerminalEvidenceClass body) (pq_AssuranceLevel body)) ||
               negb (validSponsorshipTerminalClass (pq_SponsorshipTerminalEvidenceClass body) (pq_AssuranceLevel body)) ||
               negb (reservedPositive body) || negb (feeKinds body [ObligationSponsorshipFee; ObligationRelayFee]) ||
               negb (sponsorshipSelection body))
        "combined relay quote is incomplete"
  | ModeOther _ => Ok tt
  end.

Definition validateRelayExecutionRequestCoreShape (request : RelayExecutionRequest) : result string unit :=
  fail_if (negb (ex_SchemaVersion request =? 1) ||
           negb (is_ok (validateRelayQuoteRequestShape (qr_Body (QuoteRequest request)))) ||
           negb (is_ok (validateProviderRelayQuoteShape (pq_Body (ProviderQuote request)))) ||
           negb (digestPattern (AgreementBodyDigest request)) || (AgreementExpiresAtUnix request =? 0) ||
           (zlen (FeeObligationIDs request) =? 0) ||
           negb (sortedIdentifiers (FeeObligationIDs request) MaxRelayFeeLines) ||
           (slen (SignedTransactionBytes request) =? 0) ||
           (MaxSignedTransactionBytes <? slen (SignedTransactionBytes request)) ||
           (slen (UnderlyingActionRequest request) =? 0) ||
           (MaxRelayActionRequestBytes <? slen (UnderlyingActionRequest request)) || (ex_CreatedAtUnix request =? 0) ||
           (ex_ExpiresAtUnix request <=? ex_CreatedAtUnix request) ||
           (AgreementExpiresAtUnix request <? ex_ExpiresAtUnix request) ||
           (pq_ExpiresAtUnix (pq_Body (ProviderQuote request)) <? ex_ExpiresAtUnix request))
    "relay execution request envelope is invalid";;
  match qr_Mode (qr_Body (QuoteRequest request)) with
  | ModeRelayExact =>
      fail_if (negb (identifier (RelayObligationID request) 128) || negb (streq (SponsorshipObligationID request) ""))
        "relay execution obligation set is invalid"
  | ModeSponsorOnly =>
      fail_if (negb (streq (RelayObligationID request) "") || negb (identifier (SponsorshipObligationID request) 128))
        "sponsor execution obligation set is invalid"
  | ModeSponsorAndRelay =>
      fail_if (negb (identifier (RelayObligationID request) 128) || negb (identifier (SponsorshipObligationID request) 128))
        "combined execution obligation set is invalid"
  | ModeOther _ => Ok tt
  end.

Definition RelaySponsorshipProofBundleDigest (bundle : string) : result string string :=
  fail_if ((slen bundle =? 0) || (MaxRelayProofBundleBytes <? slen bundle)) "relay sponsorship proof bundle byte length is invalid"%string;;
  DigestCanonical cbor_canonical "tos.agent-relay-sponsorship-proof-bundle.v1" bundle.

(** The payment request behind a sponsorship document is the one it names. *)
Definition paymentMatches (pay : AgreementPaymentRequest) (network paymentDigest stable exact destination : string)
    (validUntil : Z) (amount : AssetAmount) : bool :=
  (pay_SchemaVersion pay =? 3) && returns (AgreementPaymentRequestDigest pay) paymentDigest &&
  returns (material ← PaymentAuthorizationMaterial pay; ExactRequestDigest material.1) exact &&
  streq (NetworkDomainDigest pay) network && streq (pay_StableActionID pay) stable &&
  streq (Destination pay) destination && (pay_ExpiresAtUnix pay =? validUntil) && streq (aa_AssetNamespace (pay_Amount pay)) (AssetNamespace (Asset amount)) &&
  streq (aa_AssetIdentifier (pay_Amount pay)) (AssetIdentifier (Asset amount)) &&
  streq (aa_Unit (pay_Amount pay)) (Unit (Asset amount)) && streq (aa_AmountAtomic (pay_Amount pay)) (AmountAtomic amount).

Definition validateRelaySponsorshipTransactionEvidenceShape (e : RelaySponsorshipTransactionEvidence) : bool :=
  (te_SchemaVersion e =? 1) &&
  ((same (te_TerminalEvidenceClass e) ValidatorFinality && ValidatorAuthenticatedPortableProof e) ||
   (same (te_TerminalEvidenceClass e) ClientCorroborated && negb (ValidatorAuthenticatedPortableProof e))) &&
  digestPattern (te_NetworkDigest e) &&
  paymentMatches (te_Payment e) (te_NetworkDigest e) (te_PaymentDigest e) (te_StableActionID e) (te_ExactRequestDigest e)
    (te_DestinationAccount e) (te_ValidUntilUnix e) (te_Amount e) &&
  digestPattern (te_PaymentDigest e) && digestPattern (te_StableActionID e) && digestPattern (te_ExactRequestDigest e) &&
  identifier (te_SourceAccount e) 256 && negb (te_ValidUntilUnix e =? 0) && digestPattern (te_TopUpDigest e) &&
  cellHashPattern (te_TopUpCellHash e) && cellHashPattern (te_CommitmentCellHash e) &&
  identifier (te_DestinationAccount e) 256 && validateAmount (te_Amount e) true &&
  identifier (SubmittedTransactionHash e) 1024 && identifier (te_SourceExecutionReference e) 1024 &&
  sortedDigests (te_DestinationCreditReferences e) MaxRelayEvidenceRefs &&
  identifier (te_FinalizedCheckpointID e) 1024 && negb (te_FinalizedCheckpointSequence e =? 0) &&
  negb (te_FinalizedCheckpointUnix e =? 0) && negb (ConfirmationDepth e =? 0) &&
  digestPattern (te_TerminalProfileDigest e) && sortedDigests (te_ObservationDigests e) MaxRelayEvidenceRefs &&
  digestPattern (ProofBundleDigest e) &&
  negb ((slen (ProofBundle e) =? 0) && streq (PortableProofLocator e) "") &&
  ((slen (ProofBundle e) =? 0) || returns (RelaySponsorshipProofBundleDigest (ProofBundle e)) (ProofBundleDigest e)) &&
  (streq (PortableProofLocator e) "" || identifier (PortableProofLocator e) 1024) &&
  negb (te_ObservedAtUnix e =? 0) && (te_FinalizedCheckpointUnix e <=? wrap64 (te_ObservedAtUnix e + 5 * 60)).

Definition validateRelaySponsorshipCreditObservationShape (o : RelaySponsorshipCreditObservation) : bool :=
  (co_SchemaVersion o =? 1) && digestPattern (co_NetworkDigest o) &&
  paymentMatches (co_Payment o) (co_NetworkDigest o) (co_PaymentDigest o) (co_StableActionID o) (co_ExactRequestDigest o)
    (co_DestinationAccount o) (co_ValidUntilUnix o) (co_Amount o) &&
  digestPattern (co_PaymentDigest o) && digestPattern (co_StableActionID o) && digestPattern (co_ExactRequestDigest o) &&
  identifier (co_SourceAccount o) 256 && negb (co_ValidUntilUnix o =? 0) && digestPattern (co_TopUpDigest o) &&
  cellHashPattern (co_TopUpCellHash o) && cellHashPattern (co_CommitmentCellHash o) &&
  identifier (co_DestinationAccount o) 256 && validateAmount (co_Amount o) true &&
  identifier (co_SubmittedTransactionHash o) 1024 && identifier (co_SourceExecutionReference o) 1024 &&
  sortedDigests (co_DestinationCreditReferences o) MaxRelayEvidenceRefs &&
  streq (co_EvidenceProfileURI o) RPCCorroborationEvidenceProfileURI && digestPattern (co_EvidenceProfileDigest o) &&
  identifier (ObservedCheckpointID o) 1024 && negb (ObservedCheckpointSequence o =? 0) &&
  negb (ObservedCheckpointUnix o =? 0) && sortedDigests (co_ObservationDigests o) MaxRelayEvidenceRefs &&
  negb (co_ObservedAtUnix o =? 0) && (ObservedCheckpointUnix o <=? wrap64 (co_ObservedAtUnix o + 5 * 60)).

(** ** Digests: the shape first, then the codec *)

Definition encoded {A} (o : option A) : result string A := opt_err o "codec error"%string.

Definition NetworkDigest (network : NetworkDomain) : result string string :=
  fail_if (negb (validateNetworkDomain network)) "relay network domain is invalid";; Digest "tos.agent-relay-network-domain.v1" (marshal_network network).
Definition RelayServiceProfileDigest (profile : RelayServiceProfile) : result string string :=
  validateRelayServiceProfileShape profile;; Digest "tos.agent-relay-service-profile.v1" (marshal_profile profile).
Definition RelayQuoteRequestDigest (body : RelayQuoteRequestBody) : result string string :=
  validateRelayQuoteRequestShape body;; Digest "tos.agent-relay-quote-request.v1" (marshal_quote_request body).
Definition ProviderRelayQuoteDigest (body : ProviderRelayQuoteBody) : result string string :=
  validateProviderRelayQuoteShape body;; Digest "tos.agent-relay-provider-quote.v1" (marshal_provider_quote body).
Definition relayExecutionRequestProjectionDigest (request : RelayExecutionRequest) : result string string :=
  Digest "tos.agent-relay-execution-request.v1" (marshal_execution (executionProjection request)).
Definition RelayExecutionRequestDigest (request : RelayExecutionRequest) : result string string :=
  validateRelayExecutionRequestCoreShape request;; relayExecutionRequestProjectionDigest request.
Definition RelaySponsorshipTransactionEvidenceDigest (e : RelaySponsorshipTransactionEvidence) : result string string :=
  fail_if (negb (validateRelaySponsorshipTransactionEvidenceShape e)) "relay sponsorship transaction evidence is invalid";;
  Digest "tos.agent-relay-sponsorship-transaction-evidence.v1" (marshal_evidence e).
Definition RelaySponsorshipCreditObservationDigest (o : RelaySponsorshipCreditObservation) : result string string :=
  fail_if (negb (validateRelaySponsorshipCreditObservationShape o)) "relay sponsorship credit observation is invalid";;
  Digest "tos.agent-relay-sponsorship-credit-observation.v1" (marshal_observation o).

(** *** The checks and digests are total *)

Lemma NetworkDigest_total network : no_panic (NetworkDigest network).
Proof. unfold NetworkDigest. solve_total. Qed.
Lemma RelayServiceProfileDigest_total profile : no_panic (RelayServiceProfileDigest profile).
Proof. unfold RelayServiceProfileDigest, validateRelayServiceProfileShape. solve_total. Qed.
Lemma RelayQuoteRequestDigest_total body : no_panic (RelayQuoteRequestDigest body).
Proof. unfold RelayQuoteRequestDigest, validateRelayQuoteRequestShape. solve_total. Qed.
Lemma ProviderRelayQuoteDigest_total body : no_panic (ProviderRelayQuoteDigest body).
Proof. unfold ProviderRelayQuoteDigest, validateProviderRelayQuoteShape. solve_total. Qed.
Lemma RelayExecutionRequestDigest_total request : no_panic (RelayExecutionRequestDigest request).
Proof. unfold RelayExecutionRequestDigest, validateRelayExecutionRequestCoreShape, relayExecutionRequestProjectionDigest. solve_total. Qed.
Lemma observation_digest_total o : no_panic (RelaySponsorshipCreditObservationDigest o).
Proof. unfold RelaySponsorshipCreditObservationDigest. solve_total. Qed.
End Shapes.

#[export] Hint Resolve NetworkDigest_total RelayServiceProfileDigest_total RelayQuoteRequestDigest_total
  ProviderRelayQuoteDigest_total RelayExecutionRequestDigest_total observation_digest_total : no_panic.
