(* ===== verification/RelayAbsence.v ===== *)
(** * Absence observations (src/pkg/agentrelay/absence.go, canonical.go)

    Proving that a sponsored transfer or a relayed transaction did not happen: sets
    of observer references about one exact action, checked against the observer and
    operator-domain thresholds of the selected profile, and the proof bundle that
    carries them. *)

From S2P Require Import Prelude Text Codec RelayTypes.

(** ** Data *)

Definition RelayAbsenceTOSRPCProofProfileURI : string := "tos.relay-absence.tosctl-rpc-snapshot.v1".

Inductive RelayAbsenceProofScope := ScopeSponsorshipOnly | ScopeTransactionOnly | ScopeDual | ScopeOther (s : string).
#[global] Instance RelayAbsenceProofScope_eq_dec : EqDecision RelayAbsenceProofScope.
Proof. solve_decision. Defined.

Inductive RelayAbsenceObservationKind := SponsorshipAction | ClientTransaction | ObservationKindOther (s : string).
#[global] Instance RelayAbsenceObservationKind_eq_dec : EqDecision RelayAbsenceObservationKind.
Proof. solve_decision. Defined.

Inductive RelayAbsenceConclusion :=
  | NoConclusion | ConclusionAbsent | ConclusionExpired | ConclusionInvalidated | ConclusionOther (s : string).
#[global] Instance RelayAbsenceConclusion_eq_dec : EqDecision RelayAbsenceConclusion.
Proof. solve_decision. Defined.

Record RelayAbsenceObservationReference := {
  ar_SchemaVersion : Z; ObservationKind : RelayAbsenceObservationKind; Conclusion : RelayAbsenceConclusion;
  ar_ProviderAgentID : string; ar_NetworkDigest : string; RelayStableActionID : string; RelayExactRequestDigest : string;
  ar_RelayExecutionDigest : string; ar_SponsorshipStableActionID : string; ar_SponsorshipExactRequestDigest : string;
  ar_SponsorshipValidUntilUnix : Z; ar_SignedTransactionDigest : string; ar_SignedTransactionCellHash : string;
  TerminalProfileURI : string; TerminalProfileDigest : string; ar_TerminalEvidenceClass : TerminalEvidenceClass;
  FinalizedCheckpointID : string; FinalizedCheckpointSequence : Z; FinalizedCheckpointUnix : Z; ObserverID : string;
  OperatorDomainID : string; ObservationEvidenceProfileURI : string; ObservationEvidenceProfileDigest : string;
  ObservationDigest : string; ar_ObservedAtUnix : Z }.

(** A component array of the encoded bundle: the codec tells an absent field from an
    empty array and from another value. *)
Inductive component :=
  | FieldAbsent
  | FieldArray (l : list RelayAbsenceObservationReference)
  | FieldOther.
Definition component_refs (c : component) : list RelayAbsenceObservationReference :=
  match c with FieldArray l => l | _ => [] end.

Record RelayAbsenceProofBundleV1 := {
  pb_SchemaVersion : Z; ProofScope : RelayAbsenceProofScope; ProofProfileURI : string; ProofProfileDigest : string;
  ProofPayloadDigest : string; ProofPayload : string; pb_Sponsorship : component; pb_Transaction : component }.

Definition RelayAbsenceProofBundleDomainV1 : string := "tos.agent-relay-absence-proof-bundle.v1".
Definition RelayAbsenceProofPayloadDomainV1 : string := "tos.agent-relay-absence-proof-payload.v1".

Record relayAbsenceTOSRPCProofProfileV1 := {
  rp_SchemaVersion : Z; rp_ProfileURI : string; IndependentSnapshotQuery : bool; MaximumBundleBytes : Z; ChainSideEffect : bool }.

(** The encodings of absence proofs. *)
Class AbsenceCodec := {
  marshal_reference : RelayAbsenceObservationReference -> option string;
  marshal_proof_profile : relayAbsenceTOSRPCProofProfileV1 -> option string;
  (* codec.Unmarshal into the bundle *)
  unmarshal_bundle : string -> option RelayAbsenceProofBundleV1 }.

Record relayAbsenceContext := {
  providerAgentID : string; networkDigest : string; relayStableActionID : string; relayExactRequestDigest : string;
  relayExecutionDigest : string; sponsorshipStableActionID : string; sponsorshipExactRequestDigest : string;
  sponsorshipValidUntilUnix : Z; transactionValidUntilUnix : Z; signedTransactionDigest : string;
  signedTransactionCellHash : string; observationEvidenceProfileURI : string; observationEvidenceProfileDigest : string;
  sponsorshipTerminalProfile : FinalityProfile; relayFinalityProfile : option FinalityProfile;
  maximumObservedAtUnix : Z; outcome : TerminalOutcome }.

(** ** Digest sets (state.go) *)

(** The copy is sorted and compared position by position. *)
Definition sortedOptionalDigests (values : list string) : bool :=
  (zlen values <=? MaxRelayEvidenceRefs) && forallb digestPattern values &&
  bool_decide (values = sort_strings values) && bool_decide (NoDup values).

Definition sortedRequiredDigests (values : list string) (minimum : Z) : bool :=
  (0 <? minimum) && (minimum <=? zlen values) && sortedOptionalDigests values.

Definition mergeSortedDigestSets (left right : list string) : list string :=
  sort_strings (elements (list_to_set left ∪ list_to_set right : gset string)).

Definition digestSetsDisjoint (left right : list string) : bool := forallb (fun v => negb (one_of v right)) left.

Definition equalStrings (left right : list string) : bool := bool_decide (left = right).

(** Both sorted: one scan over the container. *)
Fixpoint containsAll (container required : list string) : bool :=
  match required with
  | [] => true
  | value :: required' =>
      (fix scan container :=
         match container with
         | [] => false
         | c :: container' =>
             if bool_decide (bytes_lt c value) then scan container'
             else streq c value && containsAll container' required'
         end) container
  end.
Definition digestSetContainsAll (container required : list string) : bool :=
  sortedOptionalDigests container && sortedOptionalDigests required && containsAll container required.

Definition validSponsorshipIdentity (stableActionID exactRequestDigest : string) : bool :=
  digestPattern stableActionID && digestPattern exactRequestDigest.

Definition safeTerminalAbsenceOutcome (o : TerminalOutcome) : bool :=
  match o with
  | OutcomeFinalizedExpired | OutcomeFinalizedAbsent | OutcomeFinalizedInvalidated
  | OutcomeCorroboratedExpired | OutcomeCorroboratedAbsent | OutcomeCorroboratedInvalidated => true
  | _ => false
  end.

(** ** References *)

Definition transactionConclusion (o : TerminalOutcome) : RelayAbsenceConclusion :=
  match o with
  | OutcomeFinalizedAbsent | OutcomeCorroboratedAbsent => ConclusionAbsent
  | OutcomeFinalizedExpired | OutcomeCorroboratedExpired => ConclusionExpired
  | OutcomeFinalizedInvalidated | OutcomeCorroboratedInvalidated => ConclusionInvalidated
  | _ => NoConclusion
  end.

Definition validateRelayAbsenceObservationReferenceShape (r : RelayAbsenceObservationReference) : bool :=
  (ar_SchemaVersion r =? 1) && (same (ObservationKind r) SponsorshipAction || same (ObservationKind r) ClientTransaction) &&
  (same (Conclusion r) ConclusionAbsent || same (Conclusion r) ConclusionExpired || same (Conclusion r) ConclusionInvalidated) &&
  identifier (ar_ProviderAgentID r) 256 && digestPattern (ar_NetworkDigest r) && digestPattern (RelayStableActionID r) &&
  digestPattern (RelayExactRequestDigest r) && digestPattern (ar_RelayExecutionDigest r) &&
  digestPattern (ar_SponsorshipStableActionID r) && digestPattern (ar_SponsorshipExactRequestDigest r) &&
  negb (ar_SponsorshipValidUntilUnix r =? 0) && digestPattern (ar_SignedTransactionDigest r) &&
  cellHashPattern (ar_SignedTransactionCellHash r) && identifier (TerminalProfileURI r) 256 &&
  digestPattern (TerminalProfileDigest r) &&
  (same (ar_TerminalEvidenceClass r) ValidatorFinality || same (ar_TerminalEvidenceClass r) ProviderCorroborated ||
   same (ar_TerminalEvidenceClass r) ClientCorroborated) &&
  identifier (FinalizedCheckpointID r) 1024 && negb (FinalizedCheckpointSequence r =? 0) &&
  negb (FinalizedCheckpointUnix r =? 0) && (ar_ObservedAtUnix r <=? maxUint64 - 5 * 60) &&
  (FinalizedCheckpointUnix r <=? ar_ObservedAtUnix r + 5 * 60) && identifier (ObserverID r) 256 &&
  identifier (OperatorDomainID r) 256 && identifier (ObservationEvidenceProfileURI r) 256 &&
  digestPattern (ObservationEvidenceProfileDigest r) && digestPattern (ObservationDigest r) &&
  negb (ar_ObservedAtUnix r =? 0).

Definition relayAbsenceNotBefore (validUntil reorgWindowSeconds : Z) : option Z :=
  if (validUntil =? 0) || (maxUint64 - reorgWindowSeconds <? validUntil) then None
  else Some (validUntil + reorgWindowSeconds).

Section Absence.
Context `{C : RelayCodec} `{AC : AbsenceCodec}.

Definition RelayAbsenceObservationReferenceDigest (r : RelayAbsenceObservationReference) : result string string :=
  fail_if (negb (validateRelayAbsenceObservationReferenceShape r)) "relay absence observation reference is invalid";;
  Digest "tos.agent-relay-absence-observation-reference.v1" (marshal_reference r).

(** An error leaves the zero value, the empty text. *)
Definition relayAbsenceObservationReferenceDigests (references : list RelayAbsenceObservationReference) : list string :=
  (fun r => match RelayAbsenceObservationReferenceDigest r with Ok d => d | _ => ""%string end) <$> references.

(** The exact action, profile and checkpoint an observation must be about. *)
Definition matchesContext (ctx : relayAbsenceContext) (profile : FinalityProfile) (kind : RelayAbsenceObservationKind)
    (conclusion : RelayAbsenceConclusion) (first r : RelayAbsenceObservationReference) : bool :=
  validateRelayAbsenceObservationReferenceShape r && same (ObservationKind r) kind && same (Conclusion r) conclusion &&
  streq (ar_ProviderAgentID r) (providerAgentID ctx) && streq (ar_NetworkDigest r) (networkDigest ctx) &&
  streq (RelayStableActionID r) (relayStableActionID ctx) &&
  streq (RelayExactRequestDigest r) (relayExactRequestDigest ctx) &&
  streq (ar_RelayExecutionDigest r) (relayExecutionDigest ctx) &&
  streq (ar_SponsorshipStableActionID r) (sponsorshipStableActionID ctx) &&
  streq (ar_SponsorshipExactRequestDigest r) (sponsorshipExactRequestDigest ctx) &&
  (ar_SponsorshipValidUntilUnix r =? sponsorshipValidUntilUnix ctx) &&
  streq (ar_SignedTransactionDigest r) (signedTransactionDigest ctx) &&
  streq (ar_SignedTransactionCellHash r) (signedTransactionCellHash ctx) &&
  streq (TerminalProfileURI r) (ProfileURI profile) && streq (TerminalProfileDigest r) (ProfileDigest profile) &&
  same (ar_TerminalEvidenceClass r) (fp_TerminalEvidenceClass profile) &&
  streq (ObservationEvidenceProfileURI r) (observationEvidenceProfileURI ctx) &&
  streq (ObservationEvidenceProfileDigest r) (observationEvidenceProfileDigest ctx) &&
  streq (FinalizedCheckpointID r) (FinalizedCheckpointID first) &&
  (FinalizedCheckpointSequence r =? FinalizedCheckpointSequence first) &&
  (FinalizedCheckpointUnix r =? FinalizedCheckpointUnix first) &&
  negb (negb (maximumObservedAtUnix ctx =? 0) && (maximumObservedAtUnix ctx <? ar_ObservedAtUnix r)).

(** The loop's maps and the digests so far, newest first. *)
Record ObservationLoop := {
  observerIDs : gset string; operatorDomains : gset string; proofDigests : gset string; revDigests : list string }.

Definition observationStep (ctx : relayAbsenceContext) (profile : FinalityProfile) (kind : RelayAbsenceObservationKind)
    (conclusion : RelayAbsenceConclusion) (first : RelayAbsenceObservationReference) (t : ObservationLoop)
    (r : RelayAbsenceObservationReference) : result string ObservationLoop :=
  fail_if (negb (matchesContext ctx profile kind conclusion first r))
    "relay absence observation conflicts with the exact action context";;
  fail_if (bool_decide (ObserverID r ∈ observerIDs t)) "relay absence observation repeats an observer";;
  fail_if (bool_decide (ObservationDigest r ∈ proofDigests t)) "relay absence observation repeats a proof";;
  let order := "relay absence observations are not in canonical digest order"%string in
  digest ← or_err (RelayAbsenceObservationReferenceDigest r) order;
  fail_if (match revDigests t with previous :: _ => bool_decide (bytes_le digest previous) | [] => false end) order;;
  Ok {| observerIDs := {[ObserverID r]} ∪ observerIDs t; operatorDomains := {[OperatorDomainID r]} ∪ operatorDomains t;
        proofDigests := {[ObservationDigest r]} ∪ proofDigests t; revDigests := digest :: revDigests t |}.

Definition newObservationLoop : ObservationLoop :=
  {| observerIDs := ∅; operatorDomains := ∅; proofDigests := ∅; revDigests := [] |}.

(** Digests in order and the set of underlying proofs. *)
Definition validateRelayAbsenceObservationSet (references : list RelayAbsenceObservationReference)
    (kind : RelayAbsenceObservationKind) (conclusion : RelayAbsenceConclusion) (ctx : relayAbsenceContext)
    (profile : FinalityProfile) (notBeforeUnix : Z) : result string (list string * gset string) :=
  fail_if (same conclusion NoConclusion || (zlen references <? MinimumObservers profile) ||
           (MaxRelayEvidenceRefs <? zlen references)) "relay absence observation threshold is incomplete";;
  match references with
  | [] => Panic "index out of range"
  | first :: _ =>
      t ← foldM (observationStep ctx profile kind conclusion first) newObservationLoop references;
      fail_if (FinalizedCheckpointUnix first <? notBeforeUnix)
        "relay absence checkpoint predates its side-effect terminal window";;
      fail_if ((Z.of_nat (size (observerIDs t)) <? MinimumObservers profile) ||
               (Z.of_nat (size (operatorDomains t)) <? MinimumOperatorDomains profile))
        "relay absence observation profile threshold is not met";;
      Ok (rev (revDigests t), proofDigests t)
  end.

Definition validateRelayAbsenceOutcomeClass (o : TerminalOutcome) (sponsorshipProfile : FinalityProfile)
    (relayProfile : option FinalityProfile) : result string unit :=
  let allValidator := same (fp_TerminalEvidenceClass sponsorshipProfile) ValidatorFinality &&
    match relayProfile with Some p => same (fp_TerminalEvidenceClass p) ValidatorFinality | None => true end in
  let finalized := match o with OutcomeFinalizedExpired | OutcomeFinalizedAbsent | OutcomeFinalizedInvalidated => true | _ => false end in
  let corroborated :=
    match o with OutcomeCorroboratedExpired | OutcomeCorroboratedAbsent | OutcomeCorroboratedInvalidated => true | _ => false end in
  fail_if (allValidator && negb finalized) "validator-authenticated absence requires a finalized outcome";;
  fail_if (negb allValidator && negb corroborated) "corroborated absence requires a corroborated outcome".

Definition sponsorshipNotBefore (ctx : relayAbsenceContext) : result string Z :=
  opt_err (relayAbsenceNotBefore (sponsorshipValidUntilUnix ctx) (ReorgWindowSeconds (sponsorshipTerminalProfile ctx)))
    "relay sponsorship absence deadline overflows".

Definition transactionProfile (ctx : relayAbsenceContext) : FinalityProfile :=
  default (sponsorshipTerminalProfile ctx) (relayFinalityProfile ctx).

Definition transactionNotBefore (ctx : relayAbsenceContext) (conclusion : RelayAbsenceConclusion) : result string Z :=
  if same conclusion ConclusionInvalidated then Ok 0
  else opt_err (relayAbsenceNotBefore (transactionValidUntilUnix ctx) (ReorgWindowSeconds (transactionProfile ctx)))
    "relay client-transaction absence deadline overflows".

Definition validateRelayAbsenceObservationSets (sponsorship transaction : list RelayAbsenceObservationReference)
    (ctx : relayAbsenceContext) : result string (list string) :=
  validateRelayAbsenceOutcomeClass (outcome ctx) (sponsorshipTerminalProfile ctx) (relayFinalityProfile ctx);;
  notBefore ← sponsorshipNotBefore ctx;
  s ← validateRelayAbsenceObservationSet sponsorship SponsorshipAction ConclusionExpired ctx
        (sponsorshipTerminalProfile ctx) notBefore;
  let conclusion := transactionConclusion (outcome ctx) in
  notBefore ← transactionNotBefore ctx conclusion;
  t ← validateRelayAbsenceObservationSet transaction ClientTransaction conclusion ctx (transactionProfile ctx) notBefore;
  fail_if (negb (bool_decide (s.2 ∩ t.2 = ∅))) "one observer proof was relabelled for both absent side effects";;
  let merged := mergeSortedDigestSets s.1 t.1 in
  fail_if (negb (sortedOptionalDigests merged)) "relay absence observation set is too large";;
  Ok merged.

Definition validateRelaySponsorshipAbsenceObservationSet (sponsorship : list RelayAbsenceObservationReference)
    (ctx : relayAbsenceContext) : result string (list string) :=
  notBefore ← sponsorshipNotBefore ctx;
  s ← validateRelayAbsenceObservationSet sponsorship SponsorshipAction ConclusionExpired ctx
        (sponsorshipTerminalProfile ctx) notBefore;
  Ok s.1.

Definition validateRelayTransactionAbsenceObservationSet (transaction : list RelayAbsenceObservationReference)
    (ctx : relayAbsenceContext) : result string (list string) :=
  match transaction with
  | [] => Err "relay client-transaction absence threshold is incomplete"%string
  | first :: _ =>
      let conclusion := Conclusion first in
      fail_if (negb (same conclusion ConclusionAbsent || same conclusion ConclusionExpired || same conclusion ConclusionInvalidated))
        "relay client-transaction absence conclusion is invalid";;
      notBefore ← transactionNotBefore ctx conclusion;
      t ← validateRelayAbsenceObservationSet transaction ClientTransaction conclusion ctx (transactionProfile ctx) notBefore;
      Ok t.1
  end.

Definition validateRelayAbsenceObservationComponents (sponsorship transaction : list RelayAbsenceObservationReference)
    (ctx : relayAbsenceContext) : result string (list string) :=
  match sponsorship, transaction with
  | _ :: _, _ :: _ =>
      fail_if (negb (safeTerminalAbsenceOutcome (outcome ctx))) "dual relay absence requires a whole-negative outcome";;
      validateRelayAbsenceObservationSets sponsorship transaction ctx
  | _ :: _, [] => validateRelaySponsorshipAbsenceObservationSet sponsorship ctx
  | [], _ :: _ => validateRelayTransactionAbsenceObservationSet transaction ctx
  | [], [] => Err "relay absence proof has no component observations"%string
  end.

(** ** The proof bundle *)

Definition nonemptyArray (c : component) : result string bool :=
  match c with
  | FieldAbsent => Ok false
  | FieldArray (_ :: _) => Ok true
  | _ => Err "relay absence proof bundle component must be a non-empty array"%string
  end.

(** The scope says which component arrays there are. *)
Definition scopeMatches (scope : RelayAbsenceProofScope) (hasSponsorship hasTransaction : bool) : bool :=
  match scope with
  | ScopeSponsorshipOnly => hasSponsorship && negb hasTransaction
  | ScopeTransactionOnly => negb hasSponsorship && hasTransaction
  | ScopeDual => hasSponsorship && hasTransaction
  | ScopeOther _ => false
  end.

Definition scopeError (scope : RelayAbsenceProofScope) (sponsorship transaction dual : string) : string :=
  match scope with
  | ScopeSponsorshipOnly => sponsorship
  | ScopeTransactionOnly => transaction
  | ScopeDual => dual
  | ScopeOther _ => "relay absence proof bundle scope is unknown"
  end.

Definition validateRelayAbsenceProofBundleFieldPresence (bundle : RelayAbsenceProofBundleV1) : result string unit :=
  hasSponsorship ← nonemptyArray (pb_Sponsorship bundle);
  hasTransaction ← nonemptyArray (pb_Transaction bundle);
  fail_if (negb (scopeMatches (ProofScope bundle) hasSponsorship hasTransaction))
    (scopeError (ProofScope bundle) "sponsorship-only proof bundle has invalid component field presence"
       "transaction-only proof bundle has invalid component field presence"
       "dual proof bundle has invalid component field presence").

Definition RelayAbsenceTOSRPCProofProfileDigest : result string string :=
  Digest "tos.agent-relay-absence-proof-profile.v1"
    (marshal_proof_profile {| rp_SchemaVersion := 1; rp_ProfileURI := RelayAbsenceTOSRPCProofProfileURI; IndependentSnapshotQuery := true;
                              MaximumBundleBytes := MaxRelayProofBundleBytes; ChainSideEffect := false |}).

Definition validateRelayAbsenceProofBundle (bundle : RelayAbsenceProofBundleV1) : result string unit :=
  fail_if (negb (pb_SchemaVersion bundle =? 1) || negb (streq (ProofProfileURI bundle) RelayAbsenceTOSRPCProofProfileURI) ||
           negb (returns RelayAbsenceTOSRPCProofProfileDigest (ProofProfileDigest bundle)) ||
           negb (digestPattern (ProofPayloadDigest bundle)) || (slen (ProofPayload bundle) =? 0) ||
           (MaxRelayProofBundleBytes <? slen (ProofPayload bundle)))
    "relay absence proof bundle shape is invalid";;
  fail_if (negb (returns (DigestCanonical cbor_canonical RelayAbsenceProofPayloadDomainV1 (ProofPayload bundle)) (ProofPayloadDigest bundle)))
    "relay absence proof payload digest is invalid";;
  let sponsorship := component_refs (pb_Sponsorship bundle) in
  let transaction := component_refs (pb_Transaction bundle) in
  let hasSponsorship := negb (zlen sponsorship =? 0) in
  let hasTransaction := negb (zlen transaction =? 0) in
  fail_if (match pb_Sponsorship bundle with FieldArray [] => true | _ => false end ||
           match pb_Transaction bundle with FieldArray [] => true | _ => false end)
    "relay absence proof bundle has an empty component array";;
  fail_if (negb (scopeMatches (ProofScope bundle) hasSponsorship hasTransaction))
    (scopeError (ProofScope bundle) "sponsorship-only proof bundle has the wrong component arrays"
       "transaction-only proof bundle has the wrong component arrays" "dual proof bundle lacks one component array");;
  fail_if ((hasSponsorship && negb (sortedRequiredDigests (relayAbsenceObservationReferenceDigests sponsorship) 1)) ||
           (hasTransaction && negb (sortedRequiredDigests (relayAbsenceObservationReferenceDigests transaction) 1)))
    "relay absence proof bundle reference arrays are invalid".

Definition RelayAbsenceProofBundleDigest (bundle : string) : result string string :=
  fail_if ((slen bundle =? 0) || (MaxRelayProofBundleBytes <? slen bundle))
    "relay absence proof bundle byte length is invalid";;
  decoded ← encoded (unmarshal_bundle bundle);
  validateRelayAbsenceProofBundleFieldPresence decoded;;
  validateRelayAbsenceProofBundle decoded;;
  DigestCanonical cbor_canonical RelayAbsenceProofBundleDomainV1 bundle.

Definition validateRelayAbsenceProofBundleForBody (sponsorship transaction : list RelayAbsenceObservationReference)
    (bundleDigest bundle : string) : result string unit :=
  let hasSponsorship := negb (zlen sponsorship =? 0) in
  let hasTransaction := negb (zlen transaction =? 0) in
  if negb hasSponsorship && negb hasTransaction then
    fail_if (negb (streq bundleDigest "") || negb (slen bundle =? 0))
      "non-absence finality evidence carries an absence proof bundle"
  else
    fail_if (negb (digestPattern bundleDigest) || (slen bundle =? 0))
      "absence finality evidence lacks its exact proof bundle";;
    let invalid := "absence proof bundle digest is invalid"%string in
    digest ← or_err (RelayAbsenceProofBundleDigest bundle) invalid;
    fail_if (negb (streq digest bundleDigest)) invalid;;
    decoded ← encoded (unmarshal_bundle bundle);
    let expectedScope :=
      if hasSponsorship && negb hasTransaction then ScopeSponsorshipOnly
      else if negb hasSponsorship && hasTransaction then ScopeTransactionOnly
      else ScopeDual in
    fail_if (negb (same (ProofScope decoded) expectedScope) ||
             negb (equalStrings (relayAbsenceObservationReferenceDigests (component_refs (pb_Sponsorship decoded)))
                     (relayAbsenceObservationReferenceDigests sponsorship)) ||
             negb (equalStrings (relayAbsenceObservationReferenceDigests (component_refs (pb_Transaction decoded)))
                     (relayAbsenceObservationReferenceDigests transaction)))
      "absence proof bundle conflicts with its signed finality body".

Record SponsorshipRecoveryHandle := {
  AgreementPaymentRequestDigestOf : string; HandleStableActionID : string; HandleExactRequestDigest : string;
  HandleValidUntilUnix : Z; OpaqueToken : string }.

Definition relayAbsenceContextForRequest (request : RelayExecutionRequest) (recovery : SponsorshipRecoveryHandle)
    (o : TerminalOutcome) (atUnix : Z) : result string relayAbsenceContext :=
  let body := qr_Body (QuoteRequest request) in
  let quote := pq_Body (ProviderQuote request) in
  fail_if (negb (validSponsorshipIdentity (HandleStableActionID recovery) (HandleExactRequestDigest recovery)) ||
           (HandleValidUntilUnix recovery =? 0) || (TransactionValidUntilUnix body =? 0))
    "relay sponsorship absence identity is invalid";;
  network ← NetworkDigest (Network body);
  execution ← RelayExecutionRequestDigest request;
  fail_if ((atUnix <? 0) || (maxUint64 - 5 * 60 <? atUnix)) "relay absence observation time is invalid";;
  sponsorshipProfile ← opt_err (SponsorshipTerminalProfile quote) "relay sponsorship absence terminal profile is missing";
  fail_if (streq (qr_SponsorshipReleaseProfileURI body) "" || negb (digestPattern (qr_SponsorshipReleaseProfileDigest body)))
    "relay sponsorship absence observation profile is missing";;
  Ok {| providerAgentID := pq_ProviderAgentID quote; networkDigest := network;
        relayStableActionID := ActionStableActionID request; relayExactRequestDigest := ActionExactRequestDigest request;
        relayExecutionDigest := execution; sponsorshipStableActionID := HandleStableActionID recovery;
        sponsorshipExactRequestDigest := HandleExactRequestDigest recovery;
        sponsorshipValidUntilUnix := HandleValidUntilUnix recovery;
        transactionValidUntilUnix := TransactionValidUntilUnix body;
        signedTransactionDigest := qr_SignedTransactionDigest body;
        signedTransactionCellHash := qr_SignedTransactionCellHash body;
        observationEvidenceProfileURI := qr_SponsorshipReleaseProfileURI body;
        observationEvidenceProfileDigest := qr_SponsorshipReleaseProfileDigest body;
        sponsorshipTerminalProfile := sponsorshipProfile; relayFinalityProfile := RelayFinalityProfile quote;
        maximumObservedAtUnix := atUnix + 5 * 60; outcome := o |}.

(** ** Totality *)

Lemma RelayAbsenceObservationReferenceDigest_total r : no_panic (RelayAbsenceObservationReferenceDigest r).
Proof. unfold RelayAbsenceObservationReferenceDigest. solve_total. Qed.

Lemma set_total references kind conclusion ctx profile notBefore : references <> [] ->
  no_panic (validateRelayAbsenceObservationSet references kind conclusion ctx profile notBefore).
Proof.
  intros Hne. unfold validateRelayAbsenceObservationSet, observationStep. destruct references; [done|].
  pose proof RelayAbsenceObservationReferenceDigest_total. solve_total.
Qed.

Lemma notBefore_total ctx conclusion : no_panic (sponsorshipNotBefore ctx) /\ no_panic (transactionNotBefore ctx conclusion).
Proof. unfold sponsorshipNotBefore, transactionNotBefore. split; solve_total. Qed.

Lemma components_total sponsorship transaction ctx :
  no_panic (validateRelayAbsenceObservationComponents sponsorship transaction ctx).
Proof.
  pose proof (fun c => proj1 (notBefore_total ctx c)) as Hs. pose proof (fun c => proj2 (notBefore_total ctx c)) as Ht.
  unfold validateRelayAbsenceObservationComponents, validateRelayAbsenceObservationSets, validateRelayAbsenceOutcomeClass,
    validateRelaySponsorshipAbsenceObservationSet, validateRelayTransactionAbsenceObservationSet.
  destruct sponsorship, transaction; solve_total; first [by apply set_total | by apply (Hs NoConclusion) | by apply Ht].
Qed.

Lemma bundle_total sponsorship transaction digest bundle :
  no_panic (validateRelayAbsenceProofBundleForBody sponsorship transaction digest bundle).
Proof.
  unfold validateRelayAbsenceProofBundleForBody, RelayAbsenceProofBundleDigest, validateRelayAbsenceProofBundleFieldPresence,
    nonemptyArray, validateRelayAbsenceProofBundle, encoded. solve_total.
Qed.

Lemma context_total request recovery o at_ : no_panic (relayAbsenceContextForRequest request recovery o at_).
Proof. unfold relayAbsenceContextForRequest. solve_total. Qed.

(** ** What an accepted set of observations is *)

Definition increasing (l : list string) : Prop :=
  forall i a b, l !! i = Some a -> l !! S i = Some b -> bytes_lt a b.

(** An observation of this very fact: its document is well formed, it is of the kind and
    the conclusion asked for, by the quote's provider on the quote's network, about the
    context's relay action, sponsorship action and transaction, under the terminal profile
    and the observation profile asked for, and it was not made after the time allowed. *)
Record observes (ctx : relayAbsenceContext) (profile : FinalityProfile) (kind : RelayAbsenceObservationKind)
    (conclusion : RelayAbsenceConclusion) (r : RelayAbsenceObservationReference) : Prop := {
  obs_shape : validateRelayAbsenceObservationReferenceShape r = true;
  obs_kind : ObservationKind r = kind /\ Conclusion r = conclusion;
  obs_provider : ar_ProviderAgentID r = providerAgentID ctx /\ ar_NetworkDigest r = networkDigest ctx;
  obs_relay : RelayStableActionID r = relayStableActionID ctx /\ RelayExactRequestDigest r = relayExactRequestDigest ctx /\
    ar_RelayExecutionDigest r = relayExecutionDigest ctx;
  obs_sponsorship : ar_SponsorshipStableActionID r = sponsorshipStableActionID ctx /\
    ar_SponsorshipExactRequestDigest r = sponsorshipExactRequestDigest ctx /\
    ar_SponsorshipValidUntilUnix r = sponsorshipValidUntilUnix ctx;
  obs_transaction : ar_SignedTransactionDigest r = signedTransactionDigest ctx /\
    ar_SignedTransactionCellHash r = signedTransactionCellHash ctx;
  obs_terminal : TerminalProfileURI r = ProfileURI profile /\ TerminalProfileDigest r = ProfileDigest profile /\
    ar_TerminalEvidenceClass r = fp_TerminalEvidenceClass profile;
  obs_evidence : ObservationEvidenceProfileURI r = observationEvidenceProfileURI ctx /\
    ObservationEvidenceProfileDigest r = observationEvidenceProfileDigest ctx;
  obs_time : maximumObservedAtUnix ctx <> 0 -> ar_ObservedAtUnix r <= maximumObservedAtUnix ctx }.

(** The finalized checkpoint an observation was made at. *)
Definition checkpoint (r : RelayAbsenceObservationReference) : string * Z * Z :=
  (FinalizedCheckpointID r, FinalizedCheckpointSequence r, FinalizedCheckpointUnix r).

Lemma matches_observes ctx profile kind conclusion first r : matchesContext ctx profile kind conclusion first r = true <->
  observes ctx profile kind conclusion r /\ checkpoint r = checkpoint first.
Proof.
  assert (forall a b : Z, negb (negb (a =? 0) && (a <? b)) = true <-> (a <> 0 -> b <= a)) as Ht.
  { intros a b. destruct (Z.eqb_spec a 0), (Z.ltb_spec a b); cbn; split; intros; lia || done. }
  unfold matchesContext, checkpoint, same. rewrite !andb_true_iff, Ht, !streq_true, !bool_decide_eq_true, !Z.eqb_eq.
  split; [intros H; destruct_and! H; split; [by split|congruence]|]. intros [[] E]. injection E as ? ? ?. split_and!; naive_solver.
Qed.

(** A quorum of independent observations of one fact at one checkpoint. *)
Record quorum (references : list RelayAbsenceObservationReference) (kind : RelayAbsenceObservationKind)
    (conclusion : RelayAbsenceConclusion) (ctx : relayAbsenceContext) (profile : FinalityProfile) (notBefore : Z)
    (digests : list string) (proofs : gset string) : Prop := {
  quorum_observers : NoDup (ObserverID <$> references);
  quorum_proofs : NoDup (ObservationDigest <$> references);
  quorum_size : MinimumObservers profile <= zlen references <= MaxRelayEvidenceRefs;
  quorum_domains : MinimumOperatorDomains profile <= Z.of_nat (size (list_to_set (OperatorDomainID <$> references) : gset string));
  quorum_digests : Forall2 (fun r d => RelayAbsenceObservationReferenceDigest r = Ok d) references digests;
  quorum_order : increasing digests;
  quorum_proof_set : proofs = list_to_set (ObservationDigest <$> references);
  quorum_conclusion : conclusion <> NoConclusion;
  quorum_subject : Forall (observes ctx profile kind conclusion) references;
  quorum_checkpoint : references <> [] /\ exists id sequence unix, notBefore <= unix /\
    Forall (fun r => checkpoint r = (id, sequence, unix)) references }.

(** The loop's test of every reference, against the checkpoint of the first. *)
Lemma quorum_matches ctx profile kind conclusion notBefore first rest :
  (notBefore <= FinalizedCheckpointUnix first /\
   Forall (fun r => matchesContext ctx profile kind conclusion first r = true) (first :: rest)) <->
  Forall (observes ctx profile kind conclusion) (first :: rest) /\
  exists id sequence unix, notBefore <= unix /\ Forall (fun r => checkpoint r = (id, sequence, unix)) (first :: rest).
Proof.
  setoid_rewrite matches_observes. rewrite Forall_and. split.
  - intros (Hnb & Ho & Hc). split; [done|]. by exists (FinalizedCheckpointID first), (FinalizedCheckpointSequence first), (FinalizedCheckpointUnix first).
  - intros (Ho & id & sequence & unix & Hnb & Hc). pose proof (Forall_inv Hc) as E. cbn in E.
    split; [unfold checkpoint in E; injection E as _ _ ->; done|]. split; [done|]. by rewrite E.
Qed.

(** The loop after a prefix of the references. *)
Record loop_at (ctx : relayAbsenceContext) (profile : FinalityProfile) (kind : RelayAbsenceObservationKind)
    (conclusion : RelayAbsenceConclusion) (first : RelayAbsenceObservationReference)
    (l : list RelayAbsenceObservationReference) (t : ObservationLoop) : Prop := {
  loop_subject : Forall (fun r => matchesContext ctx profile kind conclusion first r = true) l;
  loop_observers : NoDup (ObserverID <$> l);
  loop_proofs : NoDup (ObservationDigest <$> l);
  loop_digests : Forall2 (fun r d => RelayAbsenceObservationReferenceDigest r = Ok d) l (rev (revDigests t));
  loop_order : increasing (rev (revDigests t));
  loop_observer_set : observerIDs t = list_to_set (ObserverID <$> l);
  loop_domain_set : operatorDomains t = list_to_set (OperatorDomainID <$> l);
  loop_proof_set : proofDigests t = list_to_set (ObservationDigest <$> l) }.

Lemma increasing_snoc l d : increasing (l ++ [d]) <-> increasing l /\ forall p, last l = Some p -> bytes_lt p d.
Proof.
  unfold increasing. split.
  - intros H. split.
    + intros i a b Ha Hb. apply (H i); by apply lookup_app_l_Some.
    + intros p Hp. rewrite last_lookup in Hp. destruct (length l) as [|n] eqn:Hn; [by destruct l|].
      cbn in Hp. apply (H n); [by apply lookup_app_l_Some|]. by rewrite lookup_app_r, Hn, Nat.sub_diag by lia.
  - intros [H Hl] i a b Ha Hb. apply lookup_app_Some in Hb as [Hb|[Hi Hb]].
    + apply (H i a b); [|done]. apply lookup_app_Some in Ha as [?|[Hle _]]; [done|]. apply lookup_lt_Some in Hb. lia.
    + apply list_lookup_singleton_Some in Hb as [Hi' ->]. apply Hl. rewrite last_lookup.
      apply lookup_app_Some in Ha as [Ha|[Hle _]]; [|lia]. replace (pred (length l)) with i by lia. done.
Qed.

Lemma list_to_set_snoc (l : list string) a : (list_to_set (l ++ [a]) : gset string) = {[a]} ∪ list_to_set l.
Proof. set_solver. Qed.

Lemma not_le_lt a b : ~ bytes_le a b <-> bytes_lt b a.
Proof. unfold bytes_le, bytes_lt. rewrite (cmp_bytes_antisym a b). destruct (cmp_bytes a b); cbn; naive_solver. Qed.

Lemma step_at ctx profile kind conclusion first l t r t' :
  loop_at ctx profile kind conclusion first l t ->
  observationStep ctx profile kind conclusion first t r = Ok t' -> loop_at ctx profile kind conclusion first (l ++ [r]) t'.
Proof.
  intros [Hs Ho Hp Hd Hi Hos Hds Hps] H. unfold observationStep in H.
  apply bind_Ok in H as (? & Hm & H). apply bind_Ok in H as (? & Hobs & H). apply bind_Ok in H as (? & Hprf & H).
  apply bind_Ok in H as (d & Hdig & H). apply bind_Ok in H as (? & Hord & [= <-]).
  apply fail_if_Ok in Hm, Hobs, Hprf, Hord. apply or_err_Ok in Hdig. apply negb_false_iff in Hm.
  apply bool_decide_eq_false in Hobs, Hprf. rewrite Hos, elem_of_list_to_set in Hobs. rewrite Hps, elem_of_list_to_set in Hprf.
  split; cbn; rewrite ?fmap_app; cbn.
  - apply Forall_app. by repeat constructor.
  - apply NoDup_app. split; [done|]. split; [|apply NoDup_singleton]. set_solver.
  - apply NoDup_app. split; [done|]. split; [|apply NoDup_singleton]. set_solver.
  - apply Forall2_app; [done|]. by constructor.
  - apply increasing_snoc. split; [done|]. intros p Hp'. destruct (revDigests t) as [|q ds]; [done|].
    cbn in Hp'. rewrite last_snoc in Hp'. injection Hp' as <-. by apply bool_decide_eq_false, not_le_lt in Hord.
  - by rewrite list_to_set_snoc, Hos.
  - by rewrite list_to_set_snoc, Hds.
  - by rewrite list_to_set_snoc, Hps.
Qed.

Lemma loop_reaches ctx profile kind conclusion first l t :
  foldM (observationStep ctx profile kind conclusion first) newObservationLoop l = Ok t ->
  loop_at ctx profile kind conclusion first l t.
Proof.
  revert t. induction l as [|r l IH] using rev_ind; intros t H.
  - cbn in H. injection H as <-. split; cbn; try done; try constructor.
  - rewrite foldM_app in H. apply bind_Ok in H as (t1 & H1 & H2). cbn in H2. apply bind_Ok in H2 as (t2 & H2 & [= <-]).
    eapply step_at; eauto.
Qed.

Lemma zlen_nonneg {A} (l : list A) : 0 <= zlen l.
Proof. unfold zlen. lia. Qed.

Lemma set_quorum references kind conclusion ctx profile notBefore digests proofs :
  validateRelayAbsenceObservationSet references kind conclusion ctx profile notBefore = Ok (digests, proofs) ->
  quorum references kind conclusion ctx profile notBefore digests proofs.
Proof.
  unfold validateRelayAbsenceObservationSet. intros H. apply bind_Ok in H as (? & Hg & H). apply fail_if_Ok in Hg.
  rewrite !orb_false_iff in Hg. destruct Hg as [[Hc Hmin%Z.ltb_ge] Hmax%Z.ltb_ge].
  destruct references as [|first rest]; [done|]. apply bind_Ok in H as (t & Ht & H). apply loop_reaches in Ht as [Hs Ho Hp Hd Hi Hos Hds Hps].
  apply bind_Ok in H as (? & Hnb & H). apply bind_Ok in H as (? & Hth & [= <- <-]). apply fail_if_Ok in Hnb, Hth.
  apply Z.ltb_ge in Hnb. apply orb_false_iff in Hth as [_ Hdom%Z.ltb_ge]. split; try done.
  - by rewrite <-Hds.
  - intros ->. done.
  - by apply (quorum_matches ctx profile kind conclusion notBefore first rest).
  - split; [done|]. by apply (quorum_matches ctx profile kind conclusion notBefore first rest).
Qed.

Lemma loop_runs ctx profile kind conclusion first l ds :
  Forall (fun r => matchesContext ctx profile kind conclusion first r = true) l ->
  NoDup (ObserverID <$> l) -> NoDup (ObservationDigest <$> l) ->
  Forall2 (fun r d => RelayAbsenceObservationReferenceDigest r = Ok d) l ds -> increasing ds ->
  exists t, foldM (observationStep ctx profile kind conclusion first) newObservationLoop l = Ok t /\ rev (revDigests t) = ds.
Proof.
  revert ds. induction l as [|r l IH] using rev_ind; intros ds Hs Ho Hp Hd Hi.
  { apply Forall2_nil_inv_l in Hd as ->. by exists newObservationLoop. }
  apply Forall2_app_inv_l in Hd as (ds1 & ds2 & Hd1 & Hd2 & ->). apply Forall2_cons_inv_l in Hd2 as (d & ds3 & Hd & Hd3 & ->).
  apply Forall2_nil_inv_l in Hd3 as ->. apply increasing_snoc in Hi as [Hi Hlast]. apply Forall_app in Hs as [Hs [Hr _]%Forall_cons].
  rewrite fmap_app in Ho, Hp. apply NoDup_app in Ho as (Ho & Ho' & _). apply NoDup_app in Hp as (Hp & Hp' & _).
  destruct (IH ds1) as (t & Ht & Hrev); [done..|]. pose proof (loop_reaches _ _ _ _ _ _ _ Ht) as [_ _ _ _ _ Hos _ Hps].
  cbn beta in Hd, Hr. rewrite foldM_app, Ht. cbn [mbind result_bind foldM]. unfold observationStep. rewrite Hr, Hos, Hps.
  rewrite bool_decide_eq_false_2 by set_solver. rewrite bool_decide_eq_false_2 by set_solver. rewrite Hd. cbn.
  assert (match revDigests t with previous :: _ => bool_decide (bytes_le d previous) | [] => false end = false) as ->.
  { destruct (revDigests t) as [|q qs]; [done|]. cbn in Hrev. subst ds1.
    apply bool_decide_eq_false, not_le_lt, Hlast. apply last_snoc. }
  eexists. split; [done|]. cbn. by rewrite Hrev.
Qed.

Lemma quorum_set references kind conclusion ctx profile notBefore digests proofs :
  quorum references kind conclusion ctx profile notBefore digests proofs ->
  validateRelayAbsenceObservationSet references kind conclusion ctx profile notBefore = Ok (digests, proofs).
Proof.
  intros [Ho Hp [Hmin Hmax] Hdom Hd Hi -> Hc Hobs [Hne Hcp]]. unfold validateRelayAbsenceObservationSet.
  assert (same conclusion NoConclusion = false) as -> by by apply bool_decide_eq_false.
  rewrite (proj2 (Z.ltb_ge _ _) Hmin), (proj2 (Z.ltb_ge _ _) Hmax). cbn [orb fail_if mbind result_bind].
  destruct references as [|first rest]; [done|].
  destruct (proj2 (quorum_matches ctx profile kind conclusion notBefore first rest) (conj Hobs Hcp)) as [Hnb Hs].
  destruct (loop_runs ctx profile kind conclusion first (first :: rest) digests) as (t & Ht & Hrev); [done..|].
  rewrite Ht. cbn [mbind result_bind]. apply loop_reaches in Ht as [_ _ _ _ _ Hos Hds Hps].
  rewrite (proj2 (Z.ltb_ge _ _) Hnb), Hos, Hds, Hps, Hrev. cbn [fail_if mbind result_bind].
  rewrite (size_list_to_set (ObserverID <$> first :: rest)) by done. rewrite length_fmap. unfold zlen in Hmin.
  rewrite (proj2 (Z.ltb_ge _ _) Hmin), (proj2 (Z.ltb_ge _ _) Hdom). done.
Qed.

(** C35: the check of an absence observation set accepts exactly the quorums: at least
    the profile's minimum and at most 64 observations, by pairwise different observers,
    with pairwise different proofs, from at least the minimum of operator domains, each
    a valid document of the kind and the conclusion asked for, by the quote's provider,
    about this very relay action, sponsorship action, transaction and network, under
    the terminal and the observation profile asked for, and made no later than the
    context allows; all at one checkpoint (one identifier, sequence and time) that is
    not before the deadline, with their digests in strictly increasing order; it
    returns those digests and proofs. *)
Theorem absence_set_is_quorum (references : list RelayAbsenceObservationReference) (kind : RelayAbsenceObservationKind)
    (conclusion : RelayAbsenceConclusion) (ctx : relayAbsenceContext) (profile : FinalityProfile) (notBefore : Z)
    (digests : list string) (proofs : gset string) :
  validateRelayAbsenceObservationSet references kind conclusion ctx profile notBefore = Ok (digests, proofs) <->
  quorum references kind conclusion ctx profile notBefore digests proofs.
Proof. split; [apply set_quorum|apply quorum_set]. Qed.

(** A dual absence is two independent quorums.  When both components are
    accepted, the sponsorship observations are a quorum for an expired payment after
    its reorganisation window and the transaction observations a quorum for the
    outcome's conclusion, which is a negative one; no proof serves both; and the
    digests returned are the sorted union of the two sets, at most 64. *)
Theorem dual_absence_independent (sponsorship transaction : list RelayAbsenceObservationReference)
    (ctx : relayAbsenceContext) (merged : list string) :
  validateRelayAbsenceObservationSets sponsorship transaction ctx = Ok merged ->
  exists ns nt ds dt ps pt,
    relayAbsenceNotBefore (sponsorshipValidUntilUnix ctx) (ReorgWindowSeconds (sponsorshipTerminalProfile ctx)) = Some ns /\
    quorum sponsorship SponsorshipAction ConclusionExpired ctx (sponsorshipTerminalProfile ctx) ns ds ps /\
    transactionNotBefore ctx (transactionConclusion (outcome ctx)) = Ok nt /\
    quorum transaction ClientTransaction (transactionConclusion (outcome ctx)) ctx (transactionProfile ctx) nt dt pt /\
    ps ## pt /\ safeTerminalAbsenceOutcome (outcome ctx) = true /\
    merged = mergeSortedDigestSets ds dt /\ zlen merged <= MaxRelayEvidenceRefs.
Proof.
  unfold validateRelayAbsenceObservationSets. intros H. apply bind_Ok in H as (? & _ & H).
  apply bind_Ok in H as (ns & Hns & H). apply bind_Ok in H as ([ds ps] & Hs & H). apply bind_Ok in H as (nt & Hnt & H).
  apply bind_Ok in H as ([dt pt] & Ht & H). apply bind_Ok in H as (? & Hdis & H). apply bind_Ok in H as (? & Hsz & [= <-]).
  apply fail_if_Ok in Hdis, Hsz. apply negb_false_iff in Hdis, Hsz. apply bool_decide_eq_true in Hdis.
  apply set_quorum in Hs, Ht. unfold sponsorshipNotBefore in Hns. apply opt_err_Ok in Hns.
  exists ns, nt, ds, dt, ps, pt. repeat split_and!; try done.
  - set_solver.
  - destruct Ht as [_ _ _ _ _ _ _ Hc _ _]. by destruct (outcome ctx).
  - unfold sortedOptionalDigests in Hsz. rewrite !andb_true_iff in Hsz.
    destruct Hsz as [[[Hsz _] _] _]. by apply Z.leb_le.
Qed.
End Absence.

(** ** An observed absence on concrete documents *)
Module Sample.

Definition dg (c : ascii) : string := "sha256:" +:+ repeat_byte c 64.

Definition codec : AbsenceCodec :=
  {| marshal_reference := fun r => Some (if same (ObservationKind r) SponsorshipAction then "sponsorship" else "transaction")%string;
     marshal_proof_profile := fun p => Some (rp_ProfileURI p); unmarshal_bundle := fun _ => None |}.
#[local] Existing Instance codec.

Definition finality : FinalityProfile :=
  {| ProfileURI := "tos.finality"; ProfileDigest := dg "0"; fp_TerminalEvidenceClass := ValidatorFinality;
     MinimumConfirmationDepth := 1; MinimumObservers := 1; MinimumOperatorDomains := 1; ReorgWindowSeconds := 10;
     MaximumResolutionSeconds := 60 |}.

Definition context : relayAbsenceContext :=
  {| providerAgentID := "provider"; networkDigest := dg "0"; relayStableActionID := dg "1"; relayExactRequestDigest := dg "2";
     relayExecutionDigest := dg "3"; sponsorshipStableActionID := dg "4"; sponsorshipExactRequestDigest := dg "5";
     sponsorshipValidUntilUnix := 1500; transactionValidUntilUnix := 1600; signedTransactionDigest := dg "6";
     signedTransactionCellHash := "tvm-cell-sha256:" +:+ repeat_byte "0" 64; observationEvidenceProfileURI := "tos.rpc";
     observationEvidenceProfileDigest := dg "7"; sponsorshipTerminalProfile := finality; relayFinalityProfile := None;
     maximumObservedAtUnix := 2300; outcome := OutcomeFinalizedExpired |}.

Definition observation (kind : RelayAbsenceObservationKind) (proof : ascii) : RelayAbsenceObservationReference :=
  {| ar_SchemaVersion := 1; ObservationKind := kind; Conclusion := ConclusionExpired; ar_ProviderAgentID := "provider";
     ar_NetworkDigest := dg "0"; RelayStableActionID := dg "1"; RelayExactRequestDigest := dg "2";
     ar_RelayExecutionDigest := dg "3"; ar_SponsorshipStableActionID := dg "4"; ar_SponsorshipExactRequestDigest := dg "5";
     ar_SponsorshipValidUntilUnix := 1500; ar_SignedTransactionDigest := dg "6";
     ar_SignedTransactionCellHash := "tvm-cell-sha256:" +:+ repeat_byte "0" 64; TerminalProfileURI := "tos.finality";
     TerminalProfileDigest := dg "0"; ar_TerminalEvidenceClass := ValidatorFinality; FinalizedCheckpointID := "checkpoint";
     FinalizedCheckpointSequence := 9; FinalizedCheckpointUnix := 1700; ObserverID := "observer"; OperatorDomainID := "domain";
     ObservationEvidenceProfileURI := "tos.rpc"; ObservationEvidenceProfileDigest := dg "7"; ObservationDigest := dg proof;
     ar_ObservedAtUnix := 2000 |}.

Definition merged : list string :=
  match validateRelayAbsenceObservationSets [observation SponsorshipAction "8"] [observation ClientTransaction "9"] context with
  | Ok digests => digests
  | _ => []
  end.

Lemma dual_absence_independent_witness :
  exists ns nt ds dt ps pt,
    relayAbsenceNotBefore (sponsorshipValidUntilUnix context) (ReorgWindowSeconds (sponsorshipTerminalProfile context)) = Some ns /\
    quorum [observation SponsorshipAction "8"] SponsorshipAction ConclusionExpired context
      (sponsorshipTerminalProfile context) ns ds ps /\
    transactionNotBefore context (transactionConclusion (outcome context)) = Ok nt /\
    quorum [observation ClientTransaction "9"] ClientTransaction (transactionConclusion (outcome context)) context
      (transactionProfile context) nt dt pt /\
    ps ## pt /\ safeTerminalAbsenceOutcome (outcome context) = true /\
    merged = mergeSortedDigestSets ds dt /\ zlen merged <= MaxRelayEvidenceRefs.
Proof.
  apply (dual_absence_independent [observation SponsorshipAction "8"] [observation ClientTransaction "9"] context merged).
  vm_compute. reflexivity.
Defined.
End Sample.
