(* ===== verification/RelayAdmission.v ===== *)
(** * Side-effect admission receipts (src/pkg/agentrelay/admission.go)

    The owner's authority admits the side effects of one relay execution with a
    signed receipt; a relay-only action may move to another provider through a chain
    of receipts.  This file builds and checks descriptors, receipts and chains. *)

From S2P Require Import Prelude Text Sha256 Base64 Codec Semantic Authority Amounts Billing Payment RelayTypes.

Definition MaxRelayRouteAttempts : Z := 32.

(** ** Data *)

Record RelaySideEffectAdmissionDescriptor := {
  ds_SchemaVersion : Z; ds_OwnerID : string; ds_AgentID : string; ds_AuthenticatedPrincipal : string;
  ds_ProviderAgentID : string; ds_ServiceProfileDigest : string; ds_ProviderQuoteDigest : string; ds_NetworkDigest : string;
  ds_TransactionIdentityDigest : string; ds_Mode : Mode; ds_AssuranceLevel : AssuranceLevel;
  ds_StageMask : list SideEffectStage; ds_RouteAttempt : Z; ds_PredecessorReceiptDigest : string;
  ds_StableActionID : string; ds_ExactRequestDigest : string; ds_RelayExecutionDigest : string;
  ds_AuthorizedActionDigest : string; ds_WriterFenceDigest : string; StartNotAfterCapUnix : Z;
  ds_AuthorizedAction : AuthorizedAction; ds_WriterFence : WriterFence; ds_UnderlyingActionRequest : string;
  ds_SemanticFields : list SemanticFieldValue }.

(** ** Keys and signatures (canonical.go) *)

Definition parsePublicKey (value : string) : result string string :=
  parse_key "relay public key scheme is invalid" "relay public key is invalid" value.
Definition parseSignature (value : string) : result string string :=
  parse_signature "relay signature scheme is invalid" "relay signature is invalid" value.

(** The hash that is signed, of a domain and a canonical encoding. *)
Definition signatureMessage (domain canonical : string) : string :=
  Sum256 (domain +:+ PutUint32 (wrap32 (slen canonical)) +:+ canonical).

(** ** Routes and stages *)

Definition RelaySideEffectStages (mode : Mode) : option (list SideEffectStage) :=
  match mode with
  | ModeRelayExact => Some [SideEffectBroadcast]
  | ModeSponsorOnly => Some [SideEffectSponsorship]
  | ModeSponsorAndRelay => Some [SideEffectBroadcast; SideEffectSponsorship]
  | ModeOther _ => None
  end.

Definition stage_text (stage : SideEffectStage) : string :=
  match stage with SideEffectSponsorship => "sponsorship" | SideEffectBroadcast => "broadcast" | SideEffectOther s => s end.

Definition equalStages (left right : list SideEffectStage) : bool := bool_decide (left = right).

Definition validateRelayAdmissionRoute (routeAttempt : Z) (predecessorReceiptDigest : string) : bool :=
  negb ((routeAttempt =? 0) || (MaxRelayRouteAttempts <? routeAttempt) ||
        ((routeAttempt =? 1) && negb (streq predecessorReceiptDigest "")) ||
        ((1 <? routeAttempt) && negb (digestPattern predecessorReceiptDigest))).

(** ** Receipts *)

Definition receiptSignatureDomain : string :=
  "tos.agent-relay-side-effect-admission-receipt-signature.v1" +:+ bytes [0%N].

Definition validateRelaySideEffectAdmissionReceiptBody (body : RelaySideEffectAdmissionReceiptBody) : bool :=
  match RelaySideEffectStages (rb_Mode body) with
  | None => false
  | Some stages =>
      (rb_SchemaVersion body =? 1) && identifier (rb_OwnerID body) 256 && identifier (rb_AgentID body) 256 &&
      identifier (rb_AuthenticatedPrincipal body) 256 && identifier (rb_AuthorityID body) 256 &&
      identifier (rb_ProviderAgentID body) 256 && identifier (WriterLeaseID body) 256 &&
      digestPattern (rb_ServiceProfileDigest body) && digestPattern (rb_ProviderQuoteDigest body) &&
      digestPattern (rb_NetworkDigest body) && digestPattern (rb_TransactionIdentityDigest body) &&
      validAssuranceLevel (rb_AssuranceLevel body) &&
      validateRelayAdmissionRoute (rb_RouteAttempt body) (rb_PredecessorReceiptDigest body) &&
      negb ((1 <? rb_RouteAttempt body) &&
            (negb (same (rb_Mode body) ModeRelayExact) ||
             negb (same (rb_AssuranceLevel body) AssuranceAutonomousDecentralized))) &&
      digestPattern (rb_StableActionID body) && digestPattern (rb_ExactRequestDigest body) &&
      digestPattern (rb_RelayExecutionDigest body) && digestPattern (rb_AuthorizedActionDigest body) &&
      digestPattern (rb_WriterFenceDigest body) && digestPattern (rb_MandateDigest body) &&
      (streq (rb_ApprovalDigest body) "" || digestPattern (rb_ApprovalDigest body)) &&
      equalStages (rb_StageMask body) stages && negb (rb_WriterGeneration body =? 0) && negb (rb_PolicyRevision body =? 0) &&
      negb (AdmissionSequence body =? 0) && negb (rb_IssuedAtUnix body =? 0) &&
      (rb_IssuedAtUnix body <? StartNotAfterUnix body) &&
      (StartNotAfterUnix body - rb_IssuedAtUnix body <=? MaxRelayAdmissionStartDelay)
  end.

Definition validateRelaySideEffectAdmissionReceiptShape (receipt : SignedRelaySideEffectAdmissionReceipt)
  : result string unit :=
  fail_if (negb (validateRelaySideEffectAdmissionReceiptBody (rc_Body receipt)))
    "relay side-effect admission receipt body is invalid";;
  parsePublicKey (rc_PublicKey receipt);;
  parseSignature (rc_Signature receipt);;
  Ok tt.

Section Admission.
Context `{C : RelayCodec}.

Definition RelaySideEffectAdmissionReceiptBodyDigest (body : RelaySideEffectAdmissionReceiptBody) : result string string :=
  fail_if (negb (validateRelaySideEffectAdmissionReceiptBody body)) "relay side-effect admission receipt body is invalid";;
  Digest "tos.agent-relay-side-effect-admission-receipt.v1" (marshal_receipt_body body).

Definition RelaySideEffectAdmissionReceiptDigest (receipt : SignedRelaySideEffectAdmissionReceipt) : result string string :=
  validateRelaySideEffectAdmissionReceiptShape receipt;;
  RelaySideEffectAdmissionReceiptBodyDigest (rc_Body receipt).

Definition VerifyRelaySideEffectAdmissionReceiptSignature (receipt : SignedRelaySideEffectAdmissionReceipt)
  : result string unit :=
  validateRelaySideEffectAdmissionReceiptShape receipt;;
  public ← parsePublicKey (rc_PublicKey receipt);
  signature ← parseSignature (rc_Signature receipt);
  let invalid := "relay side-effect admission receipt signature is invalid"%string in
  canonical ← opt_err (marshal_receipt_body (rc_Body receipt)) invalid;
  fail_if (negb (ed25519_Verify public (signatureMessage receiptSignatureDomain canonical) signature)) invalid.

(** ** Descriptors *)

Definition RelayTransactionIdentityProjectionDigest (identity : RelayTransactionIdentity) : result string string :=
  fail_if (negb (ti_SchemaVersion identity =? 1) || negb (validateNetworkDomain (ti_Network identity)) ||
           negb (identifier (ti_SourceAccount identity) 256) || negb (digestPattern (ti_SourceAccountAuthorityDigest identity)) ||
           negb (identifier (ti_TransactionProfileURI identity) 256) || negb (digestPattern (ti_TransactionProfileDigest identity)) ||
           negb (semanticActionKind (ti_UnderlyingActionKind identity)) || negb (digestPattern (ti_StableActionID identity)) ||
           negb (digestPattern (ti_ExactRequestDigest identity)) || negb (digestPattern (ti_SignedTransactionDigest identity)) ||
           negb (cellHashPattern (ti_SignedTransactionCellHash identity)) || (ti_SignedTransactionSize identity =? 0) ||
           (MaxSignedTransactionBytes <? ti_SignedTransactionSize identity) ||
           negb (digestPattern (ti_TransactionIntentDigest identity)) || (ti_TransactionValidUntilUnix identity =? 0))
    "relay transaction identity is invalid";;
  Digest "tos.agent-relay-transaction-identity.v1" (marshal_transaction_identity identity).

Definition transactionIdentity (body : RelayQuoteRequestBody) : RelayTransactionIdentity :=
  {| ti_SchemaVersion := 1; ti_Network := Network body; ti_SourceAccount := SourceAccount body;
     ti_SourceAccountAuthorityDigest := SourceAccountAuthorityDigest body;
     ti_TransactionProfileURI := TransactionProfileURI body; ti_TransactionProfileDigest := TransactionProfileDigest body;
     ti_UnderlyingActionKind := UnderlyingActionKind body; ti_StableActionID := qr_StableActionID body;
     ti_ExactRequestDigest := qr_ExactRequestDigest body; ti_SignedTransactionDigest := qr_SignedTransactionDigest body;
     ti_SignedTransactionCellHash := qr_SignedTransactionCellHash body;
     ti_SignedTransactionSize := SignedTransactionSize body; ti_TransactionIntentDigest := TransactionIntentDigest body;
     ti_SourceSequence := SourceSequence body; ti_TransactionValidUntilUnix := TransactionValidUntilUnix body |}.

Definition RelayTransactionIdentityDigest (body : RelayQuoteRequestBody) : result string string :=
  validateRelayQuoteRequestShape body;;
  RelayTransactionIdentityProjectionDigest (transactionIdentity body).

(** The earliest deadline of the execution. *)
Definition startCap (request : RelayExecutionRequest) : Z :=
  foldl Z.min (ex_ExpiresAtUnix request)
    [AgreementExpiresAtUnix request; pq_ExpiresAtUnix (pq_Body (ProviderQuote request));
     TransactionValidUntilUnix (qr_Body (QuoteRequest request)); ac_ExpiresAtUnix (ex_AuthorizedAction request);
     wf_ExpiresAtUnix (wf_Body (ex_WriterFence request))].

Definition buildRelaySideEffectAdmissionDescriptorForRoute (request : RelayExecutionRequest) (authenticatedPrincipal : string)
    (routeAttempt : Z) (predecessorReceiptDigest : string) : result string RelaySideEffectAdmissionDescriptor :=
  validateRelayExecutionRequestCoreShape request;;
  fail_if (negb (identifier authenticatedPrincipal 256)) "relay admission authenticated principal is invalid";;
  fail_if (negb (validateRelayAdmissionRoute routeAttempt predecessorReceiptDigest)) "relay admission route lineage is invalid";;
  execution ← relayExecutionRequestProjectionDigest request;
  quote ← ProviderRelayQuoteDigest (pq_Body (ProviderQuote request));
  network ← NetworkDigest (Network (qr_Body (QuoteRequest request)));
  transaction ← RelayTransactionIdentityDigest (qr_Body (QuoteRequest request));
  action ← AuthorizedActionDigest (ex_AuthorizedAction request);
  fence ← WriterFenceDigest (ex_WriterFence request);
  stages ← opt_err (RelaySideEffectStages (qr_Mode (qr_Body (QuoteRequest request)))) "relay admission mode is invalid"%string;
  Ok {| ds_SchemaVersion := 1; ds_OwnerID := ac_OwnerID (ex_AuthorizedAction request);
        ds_AgentID := ac_AgentID (ex_AuthorizedAction request); ds_AuthenticatedPrincipal := authenticatedPrincipal;
        ds_ProviderAgentID := pq_ProviderAgentID (pq_Body (ProviderQuote request));
        ds_ServiceProfileDigest := ServiceProfileDigest (pq_Body (ProviderQuote request)); ds_ProviderQuoteDigest := quote;
        ds_NetworkDigest := network; ds_TransactionIdentityDigest := transaction;
        ds_Mode := qr_Mode (qr_Body (QuoteRequest request)); ds_AssuranceLevel := qr_AssuranceLevel (qr_Body (QuoteRequest request));
        ds_StageMask := stages; ds_RouteAttempt := routeAttempt; ds_PredecessorReceiptDigest := predecessorReceiptDigest;
        ds_StableActionID := ActionStableActionID request; ds_ExactRequestDigest := ActionExactRequestDigest request;
        ds_RelayExecutionDigest := execution; ds_AuthorizedActionDigest := action; ds_WriterFenceDigest := fence;
        StartNotAfterCapUnix := startCap request; ds_AuthorizedAction := ex_AuthorizedAction request;
        ds_WriterFence := ex_WriterFence request; ds_UnderlyingActionRequest := UnderlyingActionRequest request;
        ds_SemanticFields := SemanticFields request |}.

Definition BuildRelaySideEffectAdmissionDescriptorForPrincipal (request : RelayExecutionRequest) (authenticatedPrincipal : string)
  : result string RelaySideEffectAdmissionDescriptor :=
  buildRelaySideEffectAdmissionDescriptorForRoute request authenticatedPrincipal 1 "".

Definition BuildRelaySideEffectAdmissionDescriptor (request : RelayExecutionRequest)
  : result string RelaySideEffectAdmissionDescriptor :=
  BuildRelaySideEffectAdmissionDescriptorForPrincipal request (RequesterAgentID (qr_Body (QuoteRequest request))).

(** ** Moving to another provider *)

(** Only relay-only actions of decentralized assurance have a next route. *)
Definition successorEligible (body : RelaySideEffectAdmissionReceiptBody) : bool :=
  same (rb_Mode body) ModeRelayExact && same (rb_AssuranceLevel body) AssuranceAutonomousDecentralized &&
  (rb_RouteAttempt body <? MaxRelayRouteAttempts).

(** What a successor may not change. *)
Definition sameAction (body : RelaySideEffectAdmissionReceiptBody) (predecessorDigest owner agent principal authority : string)
    (policy : Z) (mandate approval network transaction : string) (assurance : AssuranceLevel) (stable exact named : string) : bool :=
  streq named predecessorDigest && streq owner (rb_OwnerID body) && streq agent (rb_AgentID body) &&
  streq principal (rb_AuthenticatedPrincipal body) && streq authority (rb_AuthorityID body) &&
  (policy =? rb_PolicyRevision body) && streq mandate (rb_MandateDigest body) && streq approval (rb_ApprovalDigest body) &&
  streq network (rb_NetworkDigest body) && streq transaction (rb_TransactionIdentityDigest body) &&
  same assurance (rb_AssuranceLevel body) && streq stable (rb_StableActionID body) && streq exact (rb_ExactRequestDigest body).

Definition ValidateRelaySideEffectAdmissionRouteTransition (predecessor : SignedRelaySideEffectAdmissionReceipt)
    (d : RelaySideEffectAdmissionDescriptor) : result string unit :=
  let body := rc_Body predecessor in
  let consecutive := "relay admission route transition is not relay-only or consecutive"%string in
  or_err (VerifyRelaySideEffectAdmissionReceiptSignature predecessor) consecutive;;
  fail_if (negb (successorEligible body) || negb (same (ds_Mode d) ModeRelayExact) ||
           negb (same (ds_AssuranceLevel d) AssuranceAutonomousDecentralized) ||
           negb (ds_RouteAttempt d =? rb_RouteAttempt body + 1)) consecutive;;
  let differs := "relay admission successor differs from its immutable predecessor action"%string in
  digest ← or_err (RelaySideEffectAdmissionReceiptBodyDigest body) differs;
  let action := ds_AuthorizedAction d in
  fail_if (negb (sameAction body digest (ds_OwnerID d) (ds_AgentID d) (ds_AuthenticatedPrincipal d)
                   (wf_AuthorityID (wf_Body (ds_WriterFence d))) (ac_PolicyRevision action) (ac_MandateDigest action)
                   (ac_ApprovalDigest action) (ds_NetworkDigest d) (ds_TransactionIdentityDigest d) (ds_AssuranceLevel d)
                   (ds_StableActionID d) (ds_ExactRequestDigest d) (ds_PredecessorReceiptDigest d))) differs;;
  fail_if (streq (ds_ProviderAgentID d) (rb_ProviderAgentID body))
    "relay admission successor does not select a different Provider".

Definition BuildRelaySideEffectAdmissionSuccessorDescriptor (request : RelayExecutionRequest) (authenticatedPrincipal : string)
    (predecessor : SignedRelaySideEffectAdmissionReceipt) : result string RelaySideEffectAdmissionDescriptor :=
  let ineligible := "relay admission predecessor is not successor-eligible"%string in
  or_err (VerifyRelaySideEffectAdmissionReceiptSignature predecessor) ineligible;;
  fail_if (negb (successorEligible (rc_Body predecessor))) ineligible;;
  digest ← RelaySideEffectAdmissionReceiptBodyDigest (rc_Body predecessor);
  d ← buildRelaySideEffectAdmissionDescriptorForRoute request authenticatedPrincipal
        (rb_RouteAttempt (rc_Body predecessor) + 1) digest;
  ValidateRelaySideEffectAdmissionRouteTransition predecessor d;;
  Ok d.

Definition validateRelaySideEffectAdmissionReceiptRouteTransition (predecessor successor : SignedRelaySideEffectAdmissionReceipt)
  : result string unit :=
  let body := rc_Body predecessor in
  let next := rc_Body successor in
  fail_if (negb (successorEligible body) || negb (same (rb_Mode next) ModeRelayExact) ||
           negb (same (rb_AssuranceLevel next) AssuranceAutonomousDecentralized) ||
           negb (rb_RouteAttempt next =? rb_RouteAttempt body + 1))
    "persisted relay admission route transition is not relay-only or consecutive";;
  let differs := "persisted relay admission successor differs from its immutable route head"%string in
  digest ← or_err (RelaySideEffectAdmissionReceiptBodyDigest body) differs;
  fail_if (negb (sameAction body digest (rb_OwnerID next) (rb_AgentID next) (rb_AuthenticatedPrincipal next)
                   (rb_AuthorityID next) (rb_PolicyRevision next) (rb_MandateDigest next) (rb_ApprovalDigest next)
                   (rb_NetworkDigest next) (rb_TransactionIdentityDigest next) (rb_AssuranceLevel next)
                   (rb_StableActionID next) (rb_ExactRequestDigest next) (rb_PredecessorReceiptDigest next))) differs;;
  fail_if (streq (rb_ProviderAgentID next) (rb_ProviderAgentID body) || (AdmissionSequence next <=? AdmissionSequence body))
    "persisted relay admission successor Provider or sequence is invalid".

(** The loop over the rest of a chain, after [previous]. *)
Fixpoint validateRouteTail (previous : SignedRelaySideEffectAdmissionReceipt) (chain : list SignedRelaySideEffectAdmissionReceipt)
  : result string unit :=
  match chain with
  | [] => Ok tt
  | receipt :: chain =>
      or_err (VerifyRelaySideEffectAdmissionReceiptSignature receipt) "relay admission route chain contains an invalid receipt"%string;;
      validateRelaySideEffectAdmissionReceiptRouteTransition previous receipt;;
      validateRouteTail receipt chain
  end.

Definition ValidateRelaySideEffectAdmissionRouteChain (chain : list SignedRelaySideEffectAdmissionReceipt) : result string unit :=
  fail_if (MaxRelayRouteAttempts <? zlen chain) "relay admission route chain length is invalid";;
  match chain with
  | [] => Err "relay admission route chain length is invalid"%string
  | receipt :: rest =>
      or_err (VerifyRelaySideEffectAdmissionReceiptSignature receipt) "relay admission route chain contains an invalid receipt"%string;;
      fail_if (negb (rb_RouteAttempt (rc_Body receipt) =? 1) || negb (streq (rb_PredecessorReceiptDigest (rc_Body receipt)) ""))
        "relay admission route chain does not start at attempt one";;
      validateRouteTail receipt rest
  end.

(** ** Issuing and verifying a receipt *)

Definition BuildRelaySideEffectAdmissionReceiptBody (d : RelaySideEffectAdmissionDescriptor)
    (admissionSequence issuedAtUnix startNotAfterUnix : Z) : result string RelaySideEffectAdmissionReceiptBody :=
  let action := ds_AuthorizedAction d in
  let fence := wf_Body (ds_WriterFence d) in
  fail_if (StartNotAfterCapUnix d <? startNotAfterUnix) "relay side-effect admission receipt exceeds its descriptor cap";;
  let body :=
    {| rb_SchemaVersion := 1; rb_OwnerID := ds_OwnerID d; rb_AgentID := ds_AgentID d;
       rb_AuthenticatedPrincipal := ds_AuthenticatedPrincipal d; rb_AuthorityID := wf_AuthorityID fence;
       rb_ProviderAgentID := ds_ProviderAgentID d; rb_ServiceProfileDigest := ds_ServiceProfileDigest d;
       rb_ProviderQuoteDigest := ds_ProviderQuoteDigest d; rb_NetworkDigest := ds_NetworkDigest d;
       rb_TransactionIdentityDigest := ds_TransactionIdentityDigest d; rb_Mode := ds_Mode d;
       rb_AssuranceLevel := ds_AssuranceLevel d; rb_StageMask := ds_StageMask d; rb_RouteAttempt := ds_RouteAttempt d;
       rb_PredecessorReceiptDigest := ds_PredecessorReceiptDigest d; rb_StableActionID := ds_StableActionID d;
       rb_ExactRequestDigest := ds_ExactRequestDigest d; rb_RelayExecutionDigest := ds_RelayExecutionDigest d;
       rb_AuthorizedActionDigest := ds_AuthorizedActionDigest d; rb_WriterFenceDigest := ds_WriterFenceDigest d;
       WriterLeaseID := LeaseID fence; rb_WriterGeneration := wf_WriterGeneration fence;
       rb_PolicyRevision := ac_PolicyRevision action; rb_MandateDigest := ac_MandateDigest action;
       rb_ApprovalDigest := ac_ApprovalDigest action; AdmissionSequence := admissionSequence;
       rb_IssuedAtUnix := issuedAtUnix; StartNotAfterUnix := startNotAfterUnix |} in
  fail_if (negb (validateRelaySideEffectAdmissionReceiptBody body)) "relay side-effect admission receipt body is invalid";;
  Ok body.

(** [Sign] is the signer of the key whose public half is [public]. *)
Definition SignRelaySideEffectAdmissionReceipt (Sign : string -> string) (public : string)
    (body : RelaySideEffectAdmissionReceiptBody) : result string SignedRelaySideEffectAdmissionReceipt :=
  fail_if (negb (validateRelaySideEffectAdmissionReceiptBody body)) "relay side-effect admission receipt is invalid";;
  canonical ← encoded (marshal_receipt_body body);
  Ok {| rc_Body := body; rc_PublicKey := key_text public;
        rc_Signature := signature_text (Sign (signatureMessage receiptSignatureDomain canonical)) |}.

(** The receipt says exactly what the descriptor says. *)
Definition receiptMatches (receipt : SignedRelaySideEffectAdmissionReceipt) (d : RelaySideEffectAdmissionDescriptor) : bool :=
  let body := rc_Body receipt in
  let action := ds_AuthorizedAction d in
  let fence := ds_WriterFence d in
  streq (rb_OwnerID body) (ds_OwnerID d) && streq (rb_AgentID body) (ds_AgentID d) &&
  streq (rb_AuthenticatedPrincipal body) (ds_AuthenticatedPrincipal d) &&
  streq (rb_ProviderAgentID body) (ds_ProviderAgentID d) && streq (rb_ServiceProfileDigest body) (ds_ServiceProfileDigest d) &&
  streq (rb_ProviderQuoteDigest body) (ds_ProviderQuoteDigest d) && streq (rb_NetworkDigest body) (ds_NetworkDigest d) &&
  streq (rb_TransactionIdentityDigest body) (ds_TransactionIdentityDigest d) && same (rb_Mode body) (ds_Mode d) &&
  same (rb_AssuranceLevel body) (ds_AssuranceLevel d) && equalStages (rb_StageMask body) (ds_StageMask d) &&
  (rb_RouteAttempt body =? ds_RouteAttempt d) && streq (rb_PredecessorReceiptDigest body) (ds_PredecessorReceiptDigest d) &&
  streq (rb_StableActionID body) (ds_StableActionID d) && streq (rb_ExactRequestDigest body) (ds_ExactRequestDigest d) &&
  streq (rb_RelayExecutionDigest body) (ds_RelayExecutionDigest d) &&
  streq (rb_AuthorizedActionDigest body) (ds_AuthorizedActionDigest d) &&
  streq (rb_WriterFenceDigest body) (ds_WriterFenceDigest d) && streq (WriterLeaseID body) (LeaseID (wf_Body fence)) &&
  (rb_WriterGeneration body =? wf_WriterGeneration (wf_Body fence)) && (rb_PolicyRevision body =? ac_PolicyRevision action) &&
  streq (rb_MandateDigest body) (ac_MandateDigest action) && streq (rb_ApprovalDigest body) (ac_ApprovalDigest action) &&
  streq (rb_AuthorityID body) (wf_AuthorityID (wf_Body fence)) && streq (rc_PublicKey receipt) (wf_PublicKey fence) &&
  streq (rc_PublicKey receipt) (AuthorityPublicKey action).

(** The receipt's window lies in every frozen authorization window. *)
Definition windowWithin (body : RelaySideEffectAdmissionReceiptBody) (d : RelaySideEffectAdmissionDescriptor)
    (request : RelayExecutionRequest) : bool :=
  negb ((rb_IssuedAtUnix body <? wf_IssuedAtUnix (wf_Body (ds_WriterFence d))) ||
        (wf_ExpiresAtUnix (wf_Body (ds_WriterFence d)) <? StartNotAfterUnix body) ||
        (ac_ExpiresAtUnix (ds_AuthorizedAction d) <? StartNotAfterUnix body) ||
        (StartNotAfterCapUnix d <? StartNotAfterUnix body) ||
        (negb (ex_SchemaVersion request =? 0) &&
         ((rb_IssuedAtUnix body <? ex_CreatedAtUnix request) || (ex_ExpiresAtUnix request <? StartNotAfterUnix body) ||
          (AgreementExpiresAtUnix request <? StartNotAfterUnix body) ||
          (pq_ExpiresAtUnix (pq_Body (ProviderQuote request)) <? StartNotAfterUnix body) ||
          (TransactionValidUntilUnix (qr_Body (QuoteRequest request)) <? StartNotAfterUnix body)))).

Definition VerifyRelaySideEffectAdmissionReceiptForDescriptor (receipt : SignedRelaySideEffectAdmissionReceipt)
    (d : RelaySideEffectAdmissionDescriptor) (request : RelayExecutionRequest) (now : Z) : result string unit :=
  VerifyRelaySideEffectAdmissionReceiptSignature receipt;;
  fail_if (negb (receiptMatches receipt d)) "relay side-effect admission receipt conflicts with the exact execution";;
  fail_if ((now <? 0) || (now <? rb_IssuedAtUnix (rc_Body receipt)) || (StartNotAfterUnix (rc_Body receipt) <=? now))
    "relay side-effect admission receipt is premature or expired";;
  fail_if (negb (windowWithin (rc_Body receipt) d request))
    "relay side-effect admission receipt exceeds a frozen authorization window".

Definition VerifyRelaySideEffectAdmissionReceipt (receipt : SignedRelaySideEffectAdmissionReceipt)
    (request : RelayExecutionRequest) (now : Z) : result string unit :=
  d ← buildRelaySideEffectAdmissionDescriptorForRoute request (rb_AuthenticatedPrincipal (rc_Body receipt))
        (rb_RouteAttempt (rc_Body receipt)) (rb_PredecessorReceiptDigest (rc_Body receipt));
  VerifyRelaySideEffectAdmissionReceiptForDescriptor receipt d request now.

Definition VerifyRelaySideEffectAdmissionSuccessorReceipt (receipt : SignedRelaySideEffectAdmissionReceipt)
    (request : RelayExecutionRequest) (predecessor : SignedRelaySideEffectAdmissionReceipt) (now : Z) : result string unit :=
  d ← BuildRelaySideEffectAdmissionSuccessorDescriptor request (rb_AuthenticatedPrincipal (rc_Body receipt)) predecessor;
  fail_if (negb (ds_RouteAttempt d =? rb_RouteAttempt (rc_Body receipt)) ||
           negb (streq (ds_PredecessorReceiptDigest d) (rb_PredecessorReceiptDigest (rc_Body receipt))))
    "relay side-effect admission successor receipt has the wrong lineage";;
  VerifyRelaySideEffectAdmissionReceiptForDescriptor receipt d request now.

(** At the instant of its issue. *)
Definition VerifyRelaySideEffectAdmissionReceiptIntegrity (receipt : SignedRelaySideEffectAdmissionReceipt)
    (request : RelayExecutionRequest) : result string unit :=
  let issued := rb_IssuedAtUnix (rc_Body receipt) in
  fail_if ((issued =? 0) || (2 ^ 63 - 1 <? issued)) "relay side-effect admission receipt issuance time is invalid";;
  VerifyRelaySideEffectAdmissionReceipt receipt request issued.

Definition VerifyRelaySubmitPrincipal (request : RelayExecutionRequest) (authenticatedPrincipal : string) : result string unit :=
  fail_if (negb (identifier authenticatedPrincipal 256) ||
           negb (streq (rb_AuthenticatedPrincipal (rc_Body (AdmissionReceipt request))) authenticatedPrincipal))
    "relay Submit principal does not match the side-effect admission receipt".

Definition validateRelayExecutionRequestShape (request : RelayExecutionRequest) : result string unit :=
  validateRelayExecutionRequestCoreShape request;;
  validateRelaySideEffectAdmissionReceiptShape (AdmissionReceipt request).

(** Every signed window stays open for the resolution of the stage (validation.go). *)
Definition VerifyRelayRemainingValidity (request : RelayExecutionRequest) (now : Z) (stage : SideEffectStage) : result string unit :=
  let mode := qr_Mode (qr_Body (QuoteRequest request)) in
  let quote := pq_Body (ProviderQuote request) in
  match stage with
  | SideEffectSponsorship =>
      fail_if (same mode ModeRelayExact || bool_decide (ReservedSponsorship quote = None))
        "relay request has no sponsorship side-effect stage"
  | SideEffectBroadcast =>
      fail_if (same mode ModeSponsorOnly) "sponsor-only request has no broadcast side-effect stage"
  | SideEffectOther _ => Err "relay side-effect stage is invalid"%string
  end;;
  fail_if (now <? 0) "relay side-effect time is invalid";;
  let invalid := "relay side-effect terminal profile is invalid"%string in
  finality ← opt_err (if same stage SideEffectSponsorship then SponsorshipTerminalProfile quote else RelayFinalityProfile quote) invalid;
  fail_if (negb (validateFinalityProfile finality)) invalid;;
  let budget := MaximumResolutionSeconds finality + MinimumRelayInclusionMarginSeconds in
  fail_if (negb (forallb (fun deadline => hasStrictRemainingWindow now deadline budget)
             [ex_ExpiresAtUnix request; AgreementExpiresAtUnix request; qr_ExpiresAtUnix (qr_Body (QuoteRequest request));
              pq_ExpiresAtUnix quote; TransactionValidUntilUnix (qr_Body (QuoteRequest request));
              ac_ExpiresAtUnix (ex_AuthorizedAction request); wf_ExpiresAtUnix (wf_Body (ex_WriterFence request))]))
    ("relay " +:+ stage_text stage +:+ " lacks the required finality and inclusion window")%string.

(** ** Totality *)

Lemma parsePublicKey_total value : no_panic (parsePublicKey value).
Proof. apply parse_key_total. Qed.
Lemma parseSignature_total value : no_panic (parseSignature value).
Proof. apply parse_signature_total. Qed.
Lemma receipt_shape_total receipt : no_panic (validateRelaySideEffectAdmissionReceiptShape receipt).
Proof.
  unfold validateRelaySideEffectAdmissionReceiptShape. pose proof parsePublicKey_total. pose proof parseSignature_total. solve_total.
Qed.
Lemma receipt_digest_total receipt : no_panic (RelaySideEffectAdmissionReceiptDigest receipt).
Proof.
  unfold RelaySideEffectAdmissionReceiptDigest, RelaySideEffectAdmissionReceiptBodyDigest.
  pose proof receipt_shape_total. solve_total.
Qed.
Lemma receipt_signature_total receipt : no_panic (VerifyRelaySideEffectAdmissionReceiptSignature receipt).
Proof.
  unfold VerifyRelaySideEffectAdmissionReceiptSignature. pose proof receipt_shape_total. pose proof parsePublicKey_total.
  pose proof parseSignature_total. solve_total.
Qed.
Lemma transaction_identity_total body : no_panic (RelayTransactionIdentityDigest body).
Proof.
  unfold RelayTransactionIdentityDigest, RelayTransactionIdentityProjectionDigest, validateRelayQuoteRequestShape. solve_total.
Qed.
Lemma descriptor_total request principal attempt predecessor :
  no_panic (buildRelaySideEffectAdmissionDescriptorForRoute request principal attempt predecessor).
Proof.
  unfold buildRelaySideEffectAdmissionDescriptorForRoute, validateRelayExecutionRequestCoreShape, relayExecutionRequestProjectionDigest.
  pose proof transaction_identity_total. solve_total.
Qed.
Lemma verify_receipt_total receipt request now : no_panic (VerifyRelaySideEffectAdmissionReceipt receipt request now).
Proof.
  unfold VerifyRelaySideEffectAdmissionReceipt, VerifyRelaySideEffectAdmissionReceiptForDescriptor.
  pose proof receipt_signature_total. pose proof descriptor_total. solve_total.
Qed.

(** ** What a verified receipt binds *)


Lemma descriptor_fields request principal attempt predecessor d :
  buildRelaySideEffectAdmissionDescriptorForRoute request principal attempt predecessor = Ok d ->
  RelayExecutionRequestDigest request = Ok (ds_RelayExecutionDigest d) /\
  ProviderRelayQuoteDigest (pq_Body (ProviderQuote request)) = Ok (ds_ProviderQuoteDigest d) /\
  NetworkDigest (Network (qr_Body (QuoteRequest request))) = Ok (ds_NetworkDigest d) /\
  RelayTransactionIdentityDigest (qr_Body (QuoteRequest request)) = Ok (ds_TransactionIdentityDigest d) /\
  AuthorizedActionDigest (ex_AuthorizedAction request) = Ok (ds_AuthorizedActionDigest d) /\
  WriterFenceDigest (ex_WriterFence request) = Ok (ds_WriterFenceDigest d) /\
  RelaySideEffectStages (qr_Mode (qr_Body (QuoteRequest request))) = Some (ds_StageMask d) /\
  ds_StableActionID d = ActionStableActionID request /\ ds_ExactRequestDigest d = ActionExactRequestDigest request /\
  ds_AuthorizedAction d = ex_AuthorizedAction request /\ ds_WriterFence d = ex_WriterFence request /\
  StartNotAfterCapUnix d = startCap request /\ ds_AuthenticatedPrincipal d = principal /\ ds_RouteAttempt d = attempt /\
  ds_PredecessorReceiptDigest d = predecessor /\ ds_Mode d = qr_Mode (qr_Body (QuoteRequest request)).
Proof.
  unfold buildRelaySideEffectAdmissionDescriptorForRoute, encoded. intros H. apply bind_Ok in H as ([] & Hc & H).
  do 2 (apply bind_Ok in H as (? & _ & H)). apply bind_Ok in H as (? & He & H). apply bind_Ok in H as (? & Hq & H).
  apply bind_Ok in H as (? & Hn & H). apply bind_Ok in H as (? & Ht & H). apply bind_Ok in H as (? & Ha & H).
  apply bind_Ok in H as (? & Hf & H). apply bind_Ok in H as (? & Hs & H). injection H as <-.
  apply opt_err_Ok in Hs. unfold RelayExecutionRequestDigest. rewrite Hc. cbn [mbind result_bind]. by repeat split.
Qed.


Lemma signature_fields receipt : VerifyRelaySideEffectAdmissionReceiptSignature receipt = Ok tt ->
  validateRelaySideEffectAdmissionReceiptBody (rc_Body receipt) = true /\
  exists public signature canonical, parsePublicKey (rc_PublicKey receipt) = Ok public /\
    parseSignature (rc_Signature receipt) = Ok signature /\ marshal_receipt_body (rc_Body receipt) = Some canonical /\
    ed25519_Verify public (signatureMessage receiptSignatureDomain canonical) signature = true.
Proof.
  unfold VerifyRelaySideEffectAdmissionReceiptSignature, validateRelaySideEffectAdmissionReceiptShape. intros H.
  apply bind_Ok in H as (? & Hs & H). apply bind_Ok in Hs as (? & Hb & _). apply fail_if_Ok, negb_false_iff in Hb.
  apply bind_Ok in H as (public & Hp & H). apply bind_Ok in H as (signature & Hsig & H).
  apply bind_Ok in H as (canonical & Hcan & H). apply opt_err_Ok in Hcan. apply fail_if_Ok, negb_false_iff in H.
  split; [done|]. by exists public, signature, canonical.
Qed.

Lemma body_window body : validateRelaySideEffectAdmissionReceiptBody body = true ->
  rb_IssuedAtUnix body < StartNotAfterUnix body <= rb_IssuedAtUnix body + MaxRelayAdmissionStartDelay /\
  RelaySideEffectStages (rb_Mode body) = Some (rb_StageMask body) /\
  (1 < rb_RouteAttempt body -> rb_Mode body = ModeRelayExact) /\ rb_RouteAttempt body <= MaxRelayRouteAttempts.
Proof.
  unfold validateRelaySideEffectAdmissionReceiptBody. destruct (RelaySideEffectStages (rb_Mode body)) as [stages|]; [|done].
  rewrite !andb_true_iff. intros H. destruct_and?.
  repeat match goal with H : (_ <? _) = true |- _ => apply Z.ltb_lt in H | H : (_ <=? _) = true |- _ => apply Z.leb_le in H end.
  match goal with H : equalStages _ _ = true |- _ => apply bool_decide_eq_true in H as -> end.
  match goal with H : negb (_ && (_ || _)) = true |- _ => apply negb_true_iff in H; rename H into Hroute end.
  match goal with H : validateRelayAdmissionRoute _ _ = true |- _ => apply negb_true_iff in H; rename H into Hmax end.
  rewrite !orb_false_iff, Z.ltb_ge in Hmax. destruct Hmax as [[[_ Hmax] _] _].
  split; [lia|]. split; [done|]. split; [|done]. intros Hgt%Z.ltb_lt. rewrite Hgt in Hroute. cbn in Hroute.
  apply orb_false_iff in Hroute as [Hm%negb_false_iff _]. by apply same_eq.
Qed.


(** ** Chains of receipts *)

(** The action a receipt admits, with its authority; no route may change it. *)
Definition admittedAction (body : RelaySideEffectAdmissionReceiptBody) :=
  (rb_OwnerID body, rb_AgentID body, rb_AuthenticatedPrincipal body, rb_AuthorityID body, rb_PolicyRevision body,
   rb_MandateDigest body, rb_ApprovalDigest body, rb_NetworkDigest body, rb_TransactionIdentityDigest body,
   rb_StableActionID body, rb_ExactRequestDigest body).

(** One receipt follows another. *)
Record follows (a b : RelaySideEffectAdmissionReceiptBody) : Prop := {
  follows_attempt : rb_RouteAttempt b = rb_RouteAttempt a + 1;
  follows_digest : RelaySideEffectAdmissionReceiptBodyDigest a = Ok (rb_PredecessorReceiptDigest b);
  follows_action : admittedAction b = admittedAction a;
  follows_provider : rb_ProviderAgentID b <> rb_ProviderAgentID a;
  follows_sequence : AdmissionSequence a < AdmissionSequence b;
  follows_mode : rb_Mode a = ModeRelayExact /\ rb_Mode b = ModeRelayExact }.

Lemma transition_follows predecessor successor :
  validateRelaySideEffectAdmissionReceiptRouteTransition predecessor successor = Ok tt ->
  follows (rc_Body predecessor) (rc_Body successor).
Proof.
  unfold validateRelaySideEffectAdmissionReceiptRouteTransition. intros H. apply bind_Ok in H as (? & H1 & H).
  apply bind_Ok in H as (digest & H2 & H). apply bind_Ok in H as (? & H3 & H4). apply or_err_Ok in H2.
  apply fail_if_Ok in H1, H3, H4. unfold successorEligible, sameAction in *. rewrite ?orb_false_iff, ?negb_false_iff in *.
  rewrite !andb_true_iff in H1. rewrite !andb_true_iff in H3. destruct_and?.
  repeat match goal with
  | H : streq _ _ = true |- _ => apply streq_true in H
  | H : streq _ _ = false |- _ => apply streq_false in H
  | H : same _ _ = true |- _ => apply same_eq in H
  | H : (_ =? _) = true |- _ => apply Z.eqb_eq in H
  | H : (_ <=? _) = false |- _ => apply Z.leb_gt in H
  end.
  split; try done; [congruence|]. unfold admittedAction. congruence.
Qed.

Lemma tail_follows previous chain : validateRouteTail previous chain = Ok tt ->
  Forall (fun r => VerifyRelaySideEffectAdmissionReceiptSignature r = Ok tt) chain /\
  forall i a b, (previous :: chain) !! i = Some a -> (previous :: chain) !! S i = Some b -> follows (rc_Body a) (rc_Body b).
Proof.
  revert previous. induction chain as [|r chain IH]; intros previous H; cbn [validateRouteTail] in H.
  { split; [done|]. intros [|i] a b _ Hb; done. }
  apply bind_Ok in H as ([] & Hs & H). apply bind_Ok in H as ([] & Ht & H). apply or_err_Ok in Hs.
  apply transition_follows in Ht. destruct (IH r H) as [Hall Hf]. split; [by constructor|].
  intros [|i] a b Ha Hb; [cbn in Ha, Hb; by simplify_eq|]. by apply (Hf i).
Qed.

(** What a valid chain is. *)
Record valid_chain (chain : list SignedRelaySideEffectAdmissionReceipt) : Prop := {
  chain_signed : Forall (fun r => VerifyRelaySideEffectAdmissionReceiptSignature r = Ok tt) chain;
  chain_first r : head chain = Some r -> rb_RouteAttempt (rc_Body r) = 1;
  chain_follows i a b : chain !! i = Some a -> chain !! S i = Some b -> follows (rc_Body a) (rc_Body b) }.

Lemma chain_valid chain : ValidateRelaySideEffectAdmissionRouteChain chain = Ok tt -> valid_chain chain /\ chain <> [].
Proof.
  unfold ValidateRelaySideEffectAdmissionRouteChain. intros H. apply bind_Ok in H as (? & _ & H).
  destruct chain as [|r rest]; [done|]. apply bind_Ok in H as ([] & Hs & H). apply bind_Ok in H as (? & Hf & H).
  apply or_err_Ok in Hs. apply fail_if_Ok, orb_false_iff in Hf as [Hf%negb_false_iff _]. apply Z.eqb_eq in Hf.
  destruct (tail_follows _ _ H) as [Hall Hfol]. split; [|done]. split; [by constructor| |done]. intros r' [= <-]. done.
Qed.

Lemma chain_steps chain r0 i r : valid_chain chain -> head chain = Some r0 -> chain !! i = Some r ->
  rb_RouteAttempt (rc_Body r) = Z.of_nat i + 1 /\ admittedAction (rc_Body r) = admittedAction (rc_Body r0).
Proof.
  intros [_ Hfirst Hf] H0. revert r. induction i as [|i IH]; intros r Hr.
  - rewrite <-head_lookup, H0 in Hr. injection Hr as <-. by rewrite (Hfirst _ H0).
  - destruct (lookup_lt_is_Some_2 chain i) as [a Ha]; [apply lookup_lt_Some in Hr; lia|].
    destruct (IH a Ha) as [Hat Hact]. destruct (Hf i a r Ha Hr) as [Hn _ Hs _ _ _]. split; [lia|congruence].
Qed.

(** A route chain is one action's path through providers.  In a chain the
    validator accepts, the attempts are numbered from one, every receipt is validly
    signed, names its predecessor by digest and admits the same owner's action,
    request and transaction under the same authority and policy; each provider differs
    from the one before, sequences strictly increase; and if there is more than one
    receipt, none of them admits a sponsorship. *)
Theorem route_chain_one_action (chain : list SignedRelaySideEffectAdmissionReceipt) :
  ValidateRelaySideEffectAdmissionRouteChain chain = Ok tt ->
  exists first, head chain = Some first /\
    (forall i r, chain !! i = Some r ->
       VerifyRelaySideEffectAdmissionReceiptSignature r = Ok tt /\ rb_RouteAttempt (rc_Body r) = Z.of_nat i + 1 /\
       admittedAction (rc_Body r) = admittedAction (rc_Body first) /\
       ((1 < length chain)%nat -> rb_StageMask (rc_Body r) = [SideEffectBroadcast])) /\
    (forall i a b, chain !! i = Some a -> chain !! S i = Some b -> follows (rc_Body a) (rc_Body b)).
Proof.
  intros [V Hne]%chain_valid. destruct chain as [|first rest] eqn:Hc; [done|]. rewrite <-Hc in *. exists first.
  assert (head chain = Some first) as Hhd by by rewrite Hc. split; [done|]. split; [|apply V].
  intros i r Hr. pose proof (chain_signed _ V) as Hs. rewrite Forall_lookup in Hs. pose proof (Hs _ _ Hr) as Hsig.
  destruct (chain_steps _ _ _ _ V Hhd Hr) as [Hat Hact]. split; [done|]. split; [done|]. split; [done|]. intros Hlen.
  apply signature_fields in Hsig as [Hb _]. apply body_window in Hb as (_ & Hst & _ & _).
  assert (rb_Mode (rc_Body r) = ModeRelayExact) as Hm.
  { destruct i as [|i].
    - destruct (lookup_lt_is_Some_2 chain 1) as [b Hb]; [done|]. by destruct (follows_mode _ _ (chain_follows _ V 0 r b Hr Hb)).
    - destruct (lookup_lt_is_Some_2 chain i) as [a Ha]; [apply lookup_lt_Some in Hr; lia|].
      by destruct (follows_mode _ _ (chain_follows _ V i a r Ha Hr)). }
  rewrite Hm in Hst. cbn in Hst. congruence.
Qed.

(** Two different receipt bodies with one digest. *)
Definition collision : Prop :=
  exists a b d, a <> b /\ RelaySideEffectAdmissionReceiptBodyDigest a = Ok d /\ RelaySideEffectAdmissionReceiptBodyDigest b = Ok d.

Lemma chains_agree c1 c2 n : valid_chain c1 -> valid_chain c2 ->
  (length c1 = S n)%nat -> (length c2 = S n)%nat ->
  rc_Body <$> last c1 = rc_Body <$> last c2 -> collision \/
  forall i a b, c1 !! i = Some a -> c2 !! i = Some b -> rc_Body a = rc_Body b.
Proof.
  intros V1 V2 L1 L2 Hlast.
  assert (forall k, (k <= n)%nat -> collision \/
    forall a b, c1 !! (n - k)%nat = Some a -> c2 !! (n - k)%nat = Some b -> rc_Body a = rc_Body b) as Hback.
  { induction k as [|k IH]; intros Hk.
    - right. intros a b Ha Hb. rewrite !last_lookup, L1, L2 in Hlast. cbn in Hlast. rewrite Nat.sub_0_r in Ha, Hb.
      rewrite Ha, Hb in Hlast. cbn in Hlast. congruence.
    - destruct IH as [?|IH]; [lia|by left|]. replace (n - k)%nat with (S (n - S k))%nat in IH by lia.
      destruct (lookup_lt_is_Some_2 c1 (n - S k)) as [a Ha]; [lia|]. destruct (lookup_lt_is_Some_2 c2 (n - S k)) as [b Hb]; [lia|].
      destruct (lookup_lt_is_Some_2 c1 (S (n - S k))) as [a' Ha']; [lia|].
      destruct (lookup_lt_is_Some_2 c2 (S (n - S k))) as [b' Hb']; [lia|].
      pose proof (follows_digest _ _ (chain_follows _ V1 _ _ _ Ha Ha')) as Da.
      pose proof (follows_digest _ _ (chain_follows _ V2 _ _ _ Hb Hb')) as Db. rewrite (IH _ _ Ha' Hb') in Da.
      destruct (decide (rc_Body a = rc_Body b)) as [Heq|Hne]; [|left; by exists (rc_Body a), (rc_Body b), (rb_PredecessorReceiptDigest (rc_Body b'))].
      right. intros a1 b1 Ha1 Hb1. congruence. }
  assert (forall m, (m <= n)%nat -> collision \/ forall k a b, (k <= m)%nat ->
    c1 !! (n - k)%nat = Some a -> c2 !! (n - k)%nat = Some b -> rc_Body a = rc_Body b) as Hall.
  { induction m as [|m IH]; intros Hm.
    - destruct (Hback O Hm) as [?|H]; [by left|right]. intros k a b Hk. assert (k = O) as -> by lia. apply H.
    - destruct IH as [?|IH]; [lia|by left|]. destruct (Hback (S m) Hm) as [?|H]; [by left|right].
      intros k a b Hk. destruct (decide (k = S m)) as [->|]; [apply H|apply IH; lia]. }
  destruct (Hall n) as [?|H]; [lia|by left|right]. intros i a b Ha Hb. pose proof (lookup_lt_Some _ _ _ Ha).
  apply (H (n - i)%nat); [lia|..]; by replace (n - (n - i))%nat with i by lia.
Qed.

(** The last receipt of a route chain determines the whole chain: two accepted
    chains that end in the same receipt body have the same bodies throughout, unless
    two different receipt bodies with the same digest have been found. *)
Theorem route_chain_determined (c1 c2 : list SignedRelaySideEffectAdmissionReceipt) :
  ValidateRelaySideEffectAdmissionRouteChain c1 = Ok tt -> ValidateRelaySideEffectAdmissionRouteChain c2 = Ok tt ->
  rc_Body <$> last c1 = rc_Body <$> last c2 -> rc_Body <$> c1 = rc_Body <$> c2 \/ collision.
Proof.
  intros [V1 N1]%chain_valid [V2 N2]%chain_valid Hlast.
  destruct c1 as [|f1 t1] eqn:E1; [done|]. destruct c2 as [|f2 t2] eqn:E2; [done|]. rewrite <-E1, <-E2 in *.
  destruct (lookup_lt_is_Some_2 c1 (length t1)) as [l1 Hl1]; [by rewrite E1; cbn; lia|].
  destruct (lookup_lt_is_Some_2 c2 (length t2)) as [l2 Hl2]; [by rewrite E2; cbn; lia|].
  assert (last c1 = Some l1) as La1 by (rewrite last_lookup, E1 in *; done).
  assert (last c2 = Some l2) as La2 by (rewrite last_lookup, E2 in *; done).
  destruct (chain_steps c1 f1 _ _ V1 ltac:(by rewrite E1) Hl1) as [A1 _].
  destruct (chain_steps c2 f2 _ _ V2 ltac:(by rewrite E2) Hl2) as [A2 _].
  assert (rc_Body l1 = rc_Body l2) as Hb by (rewrite La1, La2 in Hlast; cbn in Hlast; congruence).
  assert (length t1 = length t2) as Hlen by (rewrite Hb in A1; lia).
  destruct (chains_agree c1 c2 (length t1) V1 V2) as [?|H]; [by rewrite E1|by rewrite E2, Hlen|done|by right|left].
  apply list_eq_same_length with (S (length t1)); rewrite ?length_fmap; [by rewrite E2, Hlen|by rewrite E1|].
  intros i x y _ Hx Hy. apply list_lookup_fmap_Some in Hx as (a & -> & Ha). apply list_lookup_fmap_Some in Hy as (b & -> & Hb').
  by eapply H.
Qed.
(** ** Issuing then verifying *)

Lemma signed_verifies Sign public body receipt :
  slen public = PublicKeySize -> (forall m, slen (Sign m) = SignatureSize) -> (forall m, ed25519_Verify public m (Sign m) = true) ->
  SignRelaySideEffectAdmissionReceipt Sign public body = Ok receipt ->
  rc_Body receipt = body /\ rc_PublicKey receipt = key_text public /\
  VerifyRelaySideEffectAdmissionReceiptSignature receipt = Ok tt.
Proof.
  intros Hp Hs Hv. unfold SignRelaySideEffectAdmissionReceipt, encoded. intros H. apply bind_Ok in H as ([] & Hb & H).
  apply bind_Ok in H as (canonical & Hc & H). injection H as <-. apply opt_err_Ok in Hc. apply fail_if_Ok in Hb.
  split; [done|]. split; [done|].
  unfold VerifyRelaySideEffectAdmissionReceiptSignature, validateRelaySideEffectAdmissionReceiptShape. cbn [rc_Body rc_PublicKey rc_Signature].
  unfold parsePublicKey, parseSignature. rewrite Hb, (parse_key_text _ _ _ Hp), (parse_signature_text _ _ _ (Hs _)). cbn [fail_if mbind result_bind].
  rewrite Hc. cbn [opt_err mbind result_bind]. by rewrite Hv.
Qed.

Lemma built_body d sequence issued start body :
  BuildRelaySideEffectAdmissionReceiptBody d sequence issued start = Ok body ->
  validateRelaySideEffectAdmissionReceiptBody body = true /\ start <= StartNotAfterCapUnix d /\
  rb_IssuedAtUnix body = issued /\ StartNotAfterUnix body = start /\ rb_AuthenticatedPrincipal body = ds_AuthenticatedPrincipal d /\
  rb_RouteAttempt body = ds_RouteAttempt d /\ rb_PredecessorReceiptDigest body = ds_PredecessorReceiptDigest d /\
  forall receipt, rc_Body receipt = body -> rc_PublicKey receipt = wf_PublicKey (ds_WriterFence d) ->
    rc_PublicKey receipt = AuthorityPublicKey (ds_AuthorizedAction d) -> receiptMatches receipt d = true.
Proof.
  unfold BuildRelaySideEffectAdmissionReceiptBody. intros H. apply bind_Ok in H as (? & Hcap & H).
  apply bind_Ok in H as (? & Hb & H). injection H as <-. apply fail_if_Ok in Hcap, Hb. apply Z.ltb_ge in Hcap.
  apply negb_false_iff in Hb. split; [done|]. split; [done|]. do 5 (split; [done|]). intros receipt Hbody Hf Ha.
  unfold receiptMatches, equalStages. rewrite Hbody. cbn. rewrite <-Hf, <-Ha.
  assert (forall s, streq s s = true) as E by (intros s; by apply streq_true). rewrite !E, !Z.eqb_refl.
  assert (forall m : Mode, same m m = true) as -> by (intros m; by apply bool_decide_eq_true).
  assert (forall m : AssuranceLevel, same m m = true) as -> by (intros m; by apply bool_decide_eq_true).
  by rewrite bool_decide_eq_true_2.
Qed.

Lemma window_open d request body principal attempt predecessor :
  buildRelaySideEffectAdmissionDescriptorForRoute request principal attempt predecessor = Ok d ->
  Z.max (ex_CreatedAtUnix request) (wf_IssuedAtUnix (wf_Body (ex_WriterFence request))) <= rb_IssuedAtUnix body ->
  StartNotAfterUnix body <= StartNotAfterCapUnix d -> windowWithin body d request = true.
Proof.
  intros Hd Hi Hs. apply descriptor_fields in Hd as (_ & _ & _ & _ & _ & _ & _ & _ & _ & Ha & Hf & Hc & _).
  unfold windowWithin. rewrite Ha, Hf, Hc in *. unfold startCap in *. cbn in Hs |- *. apply negb_true_iff.
  rewrite !orb_false_iff, andb_false_iff, !orb_false_iff, !Z.ltb_ge. lia.
Qed.

(** An authority that follows the protocol produces receipts that verify.  For a
    descriptor of the request built for a principal and route, a body built from it
    and signed with the authority's key verifies for the request at every instant
    between its issue and the end of its start window. *)
Theorem admission_roundtrip (Sign : string -> string) (public principal predecessor : string) (attempt : Z)
    (request : RelayExecutionRequest) (d : RelaySideEffectAdmissionDescriptor) (sequence issued start now : Z)
    (body : RelaySideEffectAdmissionReceiptBody) (canonical : string) :
  slen public = PublicKeySize -> (forall m, slen (Sign m) = SignatureSize) -> (forall m, ed25519_Verify public m (Sign m) = true) ->
  wf_PublicKey (ex_WriterFence request) = key_text public ->
  AuthorityPublicKey (ex_AuthorizedAction request) = key_text public ->
  buildRelaySideEffectAdmissionDescriptorForRoute request principal attempt predecessor = Ok d ->
  BuildRelaySideEffectAdmissionReceiptBody d sequence issued start = Ok body ->
  marshal_receipt_body body = Some canonical ->
  Z.max (ex_CreatedAtUnix request) (wf_IssuedAtUnix (wf_Body (ex_WriterFence request))) <= issued -> 0 <= issued -> issued <= now < start ->
  exists receipt, SignRelaySideEffectAdmissionReceipt Sign public body = Ok receipt /\ rc_Body receipt = body /\
  VerifyRelaySideEffectAdmissionReceipt receipt request now = Ok tt.
Proof.
  intros Hp Hsl Hv Hfk Hak Hd Hb Hcan Hi Hpos Hnow. pose proof (built_body _ _ _ _ _ Hb) as (Hval & Hcap & Hbi & Hbs & Hbp & Hba & Hbd & Hm).
  pose proof (descriptor_fields _ _ _ _ _ Hd) as (_ & _ & _ & _ & _ & _ & _ & _ & _ & Ha & Hf & _ & Hdp & Hda & Hdd & _).
  assert (exists receipt, SignRelaySideEffectAdmissionReceipt Sign public body = Ok receipt) as [receipt Hr].
  { unfold SignRelaySideEffectAdmissionReceipt. rewrite Hval. cbn [negb fail_if mbind result_bind]. rewrite Hcan. by eexists. }
  exists receipt. destruct (signed_verifies _ _ _ _ Hp Hsl Hv Hr) as (Hrb & Hrk & Hsig). split; [done|]. split; [done|].
  unfold VerifyRelaySideEffectAdmissionReceipt, VerifyRelaySideEffectAdmissionReceiptForDescriptor.
  rewrite Hrb, Hbp, Hba, Hbd, Hdp, Hda, Hdd, Hd. cbn [mbind result_bind]. rewrite Hsig. cbn [mbind result_bind].
  rewrite Hm by (rewrite ?Ha, ?Hf; congruence). cbn [negb fail_if mbind result_bind]. rewrite Hbi, Hbs.
  rewrite (window_open _ _ _ _ _ _ Hd) by (rewrite ?Hbi, ?Hbs; done).
  assert (((now <? 0) || (now <? issued) || (start <=? now)) = false) as -> by
    (rewrite !orb_false_iff, !Z.ltb_ge, Z.leb_gt; lia). done.
Qed.
End Admission.

#[export] Hint Resolve receipt_digest_total verify_receipt_total : no_panic.

(** ** Sample objects *)
Module Sample.
Definition dg (c : ascii) : string := "sha256:" +:+ repeat_byte c 64.
Definition cellHash (c : ascii) : string := "tvm-cell-sha256:" +:+ repeat_byte c 64.

(** An encoding that keeps the identity of each sample; every signature is accepted. *)
Definition net : NetParser :=
  {| ParseRequestURI := fun s => Some {| Scheme := "https"; Host := s; HasUser := false; Fragment := ""; RawQuery := ""; Path := "/"; Hostname := s |};
     ParseAddr := fun _ => None |}.

Definition codec : RelayCodec :=
  {| relay_commerce := Authority.Sample.codec; relay_payment := Payment.Sample.codec; relay_net := net;
     marshal_network := fun n => Some (NetworkID n); marshal_profile := fun p => Some (ProfileID p);
     marshal_quote_request := fun b => Some (RequestID b); marshal_provider_quote := fun b => Some (QuoteID b);
     marshal_execution := fun x => Some (xp_SignedTransactionBytes x); marshal_observation := fun o => Some (co_StableActionID o);
     marshal_evidence := fun e => Some (te_StableActionID e); marshal_transaction_identity := fun i => Some (ti_SourceAccount i);
     marshal_receipt_body := fun b => Some (FormatZ (AdmissionSequence b)); cbor_canonical := fun _ => true |}.

#[local] Existing Instance codec.

Definition network : NetworkDomain :=
  {| NetworkID := "tos-main"; GlobalID := 1; ZeroStateRootHash := dg "0"; ZeroStateFileHash := dg "1"; WorkchainID := 0 |}.
(** The digests of the sample documents. *)
Definition networkDigest : string := Eval vm_compute in or_empty (NetworkDigest network).
Definition profileDigest : string := Eval vm_compute in or_empty (Digest "tos.agent-relay-service-profile.v1" (Some "profile"%string)).
Definition requestDigest (id : string) : string := or_empty (Digest "tos.agent-relay-quote-request.v1" (Some id)).

Definition coin : AssetIdentity := {| AssetNamespace := "native"; AssetIdentifier := "tos"; Unit := "nano" |}.
Definition coins (n : string) : AssetAmount := {| Asset := coin; AmountAtomic := n |}.

Definition finality : FinalityProfile :=
  {| ProfileURI := "tos.finality"; ProfileDigest := dg "0"; fp_TerminalEvidenceClass := ValidatorFinality;
     MinimumConfirmationDepth := 1; MinimumObservers := 1; MinimumOperatorDomains := 1; ReorgWindowSeconds := 10;
     MaximumResolutionSeconds := 60 |}.

Definition quoteRequest (id : string) : SignedRelayQuoteRequest :=
  {| qr_Body :=
       {| qr_SchemaVersion := 1; RequestID := id; RequesterAgentID := "requester"; qr_ProviderAgentID := "provider";
          Network := network; qr_Mode := ModeSponsorOnly; qr_AssuranceLevel := AssuranceAutonomousDecentralized;
          qr_SponsorshipReleaseEvidenceClass := ReleaseValidatorFinality; qr_SponsorshipReleaseProfileURI := "tos.finality";
          qr_SponsorshipReleaseProfileDigest := dg "0"; qr_RelayTerminalEvidenceClass := NoEvidenceClass;
          qr_SponsorshipTerminalEvidenceClass := ValidatorFinality; SourceAccount := "0:source";
          SourceAccountAuthorityDigest := dg "0"; TransactionProfileURI := "tos.transaction"; TransactionProfileDigest := dg "0";
          UnderlyingActionKind := "payment.direct"; qr_StableActionID := dg "1"; qr_ExactRequestDigest := dg "2";
          qr_SignedTransactionDigest := dg "3"; qr_SignedTransactionCellHash := cellHash "0"; SignedTransactionSize := 4;
          TransactionIntentDigest := dg "4"; SourceSequence := 7; TransactionValidUntilUnix := 5000;
          RequestedSponsorship := Some (coins "100"); MaximumServiceFee := coins "5"; qr_MaximumNetworkFeeAtomic := "1";
          qr_MaximumTransactionValueAtomic := "0"; RelayFinalityProfileURI := ""; RelayFinalityProfileDigest := "";
          SponsorshipTerminalProfileURI := "tos.finality"; qr_SponsorshipTerminalProfileDigest := dg "0";
          qr_CreatedAtUnix := 1000; qr_ExpiresAtUnix := 1500 |};
     qr_PublicKey := "key"; qr_Signature := "signature" |}.

Definition proposal (id : string) : SignedProviderRelayQuote :=
  {| pq_Body :=
       {| pq_SchemaVersion := 1; QuoteID := id; QuoteRequestDigest := requestDigest id;
          ServiceProfileDigest := profileDigest; pq_ProviderAgentID := "provider"; pq_Mode := ModeSponsorOnly;
          pq_AssuranceLevel := AssuranceAutonomousDecentralized;
          pq_SponsorshipReleaseEvidenceClass := ReleaseValidatorFinality; pq_SponsorshipReleaseProfileURI := "tos.finality";
          pq_SponsorshipReleaseProfileDigest := dg "0"; pq_RelayTerminalEvidenceClass := NoEvidenceClass;
          pq_SponsorshipTerminalEvidenceClass := ValidatorFinality;
          FeeLines := [{| Kind := ObligationSponsorshipFee; FeeAmount := coins "5" |}];
          ReservedSponsorship := Some (coins "100"); pq_MaximumNetworkFeeAtomic := "1";
          pq_MaximumTransactionValueAtomic := "0"; pq_MaximumRequestBytes := 65536; RelayFinalityProfile := None;
          SponsorshipTerminalProfile := Some finality; StatusEndpoint := "status"; ProviderPolicyRevision := 1;
          OfferIntentDigest := ""; ValidFromUnix := 1000; pq_ExpiresAtUnix := 1500 |};
     pq_PublicKey := "key"; pq_Signature := "signature" |}.

Definition authorityKey : string := "ed25519:" +:+ repeat_byte "0" 64.
Definition proof : string := "ed25519:" +:+ repeat_byte "A" 86.

Definition fence : WriterFence :=
  {| wf_Body := {| wf_SchemaVersion := 1; wf_OwnerID := "owner"; wf_AgentID := "requester"; InstanceID := "instance";
                   LeaseID := "lease"; wf_WriterGeneration := 1; wf_IssuedAtUnix := 1000; wf_ExpiresAtUnix := 2000;
                   wf_AuthorityID := "authority"; Scope := ["payment.direct"%string] |};
     wf_PublicKey := authorityKey; Proof := proof |}.

Definition action : AuthorizedAction :=
  {| ac_SchemaVersion := 1; ac_OwnerID := "owner"; ac_AgentID := "requester"; ActionKind := "payment.direct";
     ac_StableActionID := dg "1"; ac_ExactRequestDigest := dg "2"; ac_WriterGeneration := 1; ac_WriterFenceDigest := dg "d";
     ac_PolicyRevision := 1; ac_MandateDigest := dg "0"; ac_ApprovalDigest := ""; ExpectedPriorState := "idle";
     ac_ExpiresAtUnix := 2000; ac_AuthorityID := "authority"; AuthorityPublicKey := authorityKey; AuthorizationProof := proof |}.

(** The request before its receipt is issued; the receipt field is not part of it. *)
Definition request (receipt : SignedRelaySideEffectAdmissionReceipt) : RelayExecutionRequest :=
  {| ex_SchemaVersion := 1; QuoteRequest := quoteRequest "first"; ProviderQuote := proposal "first";
     SignedTransactionBytes := "boc!"; AgreementBodyDigest := dg "5"; AgreementExpiresAtUnix := 2000; RelayObligationID := "";
     SponsorshipObligationID := "sponsorship"; FeeObligationIDs := ["fee"%string]; UnderlyingActionRequest := "action";
     SemanticFields := []; ex_AuthorizedAction := action; ex_WriterFence := fence; AdmissionReceipt := receipt;
     ex_CreatedAtUnix := 1100; ex_ExpiresAtUnix := 1500 |}.

Definition empty : SignedRelaySideEffectAdmissionReceipt :=
  {| rc_Body :=
       {| rb_SchemaVersion := 1; rb_OwnerID := "owner"; rb_AgentID := "requester"; rb_AuthenticatedPrincipal := "requester";
          rb_AuthorityID := "authority"; rb_ProviderAgentID := "provider"; rb_ServiceProfileDigest := dg "1";
          rb_ProviderQuoteDigest := dg "4"; rb_NetworkDigest := dg "0"; rb_TransactionIdentityDigest := dg "e";
          rb_Mode := ModeSponsorOnly; rb_AssuranceLevel := AssuranceAutonomousDecentralized;
          rb_StageMask := [SideEffectSponsorship]; rb_RouteAttempt := 1; rb_PredecessorReceiptDigest := "";
          rb_StableActionID := dg "1"; rb_ExactRequestDigest := dg "2"; rb_RelayExecutionDigest := dg "6";
          rb_AuthorizedActionDigest := dg "c"; rb_WriterFenceDigest := dg "d"; WriterLeaseID := "lease";
          rb_WriterGeneration := 1; rb_PolicyRevision := 1; rb_MandateDigest := dg "0"; rb_ApprovalDigest := "";
          AdmissionSequence := 1; rb_IssuedAtUnix := 1100; StartNotAfterUnix := 1150 |};
     rc_PublicKey := authorityKey; rc_Signature := proof |}.

(** The receipt issued for it. *)
Definition receipt : SignedRelaySideEffectAdmissionReceipt := Eval vm_compute in
  match d ← buildRelaySideEffectAdmissionDescriptorForRoute (request empty) "requester" 1 "";
        BuildRelaySideEffectAdmissionReceiptBody d 1 1100 1150 with
  | Ok body => {| rc_Body := body; rc_PublicKey := authorityKey; rc_Signature := proof |}
  | _ => empty
  end.

Definition execution : RelayExecutionRequest := request receipt.

Definition public : string := repeat_byte "000" 32.
Definition Sign (_ : string) : string := repeat_byte "000" 64.


Lemma admission_roundtrip_witness :
  match buildRelaySideEffectAdmissionDescriptorForRoute execution "requester" 1 "" with
  | Ok d =>
      match BuildRelaySideEffectAdmissionReceiptBody d 1 1100 1150 with
      | Ok body => exists signed, SignRelaySideEffectAdmissionReceipt Sign public body = Ok signed /\ rc_Body signed = body /\
          VerifyRelaySideEffectAdmissionReceipt signed execution 1120 = Ok tt
      | _ => False
      end
  | _ => False
  end.
Proof.
  assert (match buildRelaySideEffectAdmissionDescriptorForRoute execution "requester" 1 "" with
          | Ok d => match BuildRelaySideEffectAdmissionReceiptBody d 1 1100 1150 with Ok _ => True | _ => False end
          | _ => False
          end) as Hsample by (vm_compute; exact I).
  destruct (buildRelaySideEffectAdmissionDescriptorForRoute execution "requester" 1 "") as [d| |] eqn:Hd; [|done..].
  destruct (BuildRelaySideEffectAdmissionReceiptBody d 1 1100 1150) as [body| |] eqn:Hb; [|done..].
  apply (admission_roundtrip Sign public "requester" "" 1 execution d 1 1100 1150 1120 body (FormatZ (AdmissionSequence body)));
    [reflexivity|reflexivity|reflexivity|vm_compute; reflexivity|vm_compute; reflexivity|exact Hd|exact Hb|reflexivity
    |vm_compute; discriminate|lia|lia].
Defined.

(** A relay-only action that moves from one provider to a second. *)
Definition routed (attempt : Z) (provider predecessor : string) : SignedRelaySideEffectAdmissionReceipt :=
  {| rc_Body :=
       {| rb_SchemaVersion := 1; rb_OwnerID := "owner"; rb_AgentID := "requester"; rb_AuthenticatedPrincipal := "requester";
          rb_AuthorityID := "authority"; rb_ProviderAgentID := provider; rb_ServiceProfileDigest := dg "1";
          rb_ProviderQuoteDigest := dg "4"; rb_NetworkDigest := dg "0"; rb_TransactionIdentityDigest := dg "e";
          rb_Mode := ModeRelayExact; rb_AssuranceLevel := AssuranceAutonomousDecentralized;
          rb_StageMask := [SideEffectBroadcast]; rb_RouteAttempt := attempt; rb_PredecessorReceiptDigest := predecessor;
          rb_StableActionID := dg "1"; rb_ExactRequestDigest := dg "2"; rb_RelayExecutionDigest := dg "6";
          rb_AuthorizedActionDigest := dg "c"; rb_WriterFenceDigest := dg "d"; WriterLeaseID := "lease";
          rb_WriterGeneration := 1; rb_PolicyRevision := 1; rb_MandateDigest := dg "0"; rb_ApprovalDigest := "";
          AdmissionSequence := attempt; rb_IssuedAtUnix := 1100; StartNotAfterUnix := 1150 |};
     rc_PublicKey := authorityKey; rc_Signature := proof |}.

Definition firstDigest : string := Eval vm_compute in
  or_empty (RelaySideEffectAdmissionReceiptBodyDigest (rc_Body (routed 1 "provider" ""))).
Definition route : list SignedRelaySideEffectAdmissionReceipt := [routed 1 "provider" ""; routed 2 "second" firstDigest].

Example route_needs_new_provider :
  ValidateRelaySideEffectAdmissionRouteChain [routed 1 "provider" ""; routed 2 "provider" firstDigest] =
  Err "persisted relay admission successor Provider or sequence is invalid"%string.
Proof. vm_compute. reflexivity. Qed.

Lemma route_chain_one_action_witness :
  ValidateRelaySideEffectAdmissionRouteChain route = Ok tt /\
  follows (rc_Body (routed 1 "provider" "")) (rc_Body (routed 2 "second" firstDigest)).
Proof.
  assert (ValidateRelaySideEffectAdmissionRouteChain route = Ok tt) as H by (vm_compute; reflexivity). split; [exact H|].
  destruct (route_chain_one_action route H) as (first & _ & _ & Hf). exact (Hf 0%nat _ _ eq_refl eq_refl).
Defined.

Lemma route_chain_determined_witness :
  ValidateRelaySideEffectAdmissionRouteChain route = Ok tt /\ (rc_Body <$> route = rc_Body <$> route \/ collision).
Proof.
  assert (ValidateRelaySideEffectAdmissionRouteChain route = Ok tt) as H by (vm_compute; reflexivity). split; [exact H|].
  exact (route_chain_determined route route H H eq_refl).
Defined.
End Sample.
