(* ===== verification/RelayQuotes.v ===== *)
(** * Quotes and executions of the transaction relay (src/pkg/agentrelay: validation.go, canonical.go)

    A client signs a quote request, a provider signs a quote for it, an agreement binds
    both parties to the quote pair, and an execution request carries the signed
    transaction.  This file models the checks a provider makes before any side effect:
    the request and the quote against the published profile, the inspected transaction,
    the underlying authorized action, and the agreement's obligations. *)

From S2P Require Import Prelude Text Sha256 Base64 Codec Semantic Authority Amounts Billing Agreement Payment.
From S2P Require Import RelayTypes RelayAdmission.

(** ** Instants *)

(** [t.Unix()], and [uint64(t.Unix())] *)
Definition Unix (t : Time) : Z := int64 (t_sec t - unixToInternal).
Definition unixU (t : Time) : Z := wrap64 (Unix t).

(** [t.Add(d)] for a whole, positive number of seconds; the sum saturates. *)
Definition AddSeconds (t : Time) (d : Z) : Time :=
  let sum := int64 (t_sec t + d) in
  {| t_sec := (if Bool.eqb (t_sec t <? sum) (0 <? d) then sum else 2 ^ 63 - 1); t_nsec := t_nsec t |}.

(** ** Constants *)

Definition AgreementBindingContentType : string := "application/vnd.tos.agent-relay-agreement-binding.v1+cbor".
Definition DirectPaymentAdapterURI : string := "tos.payment.direct.v1".
Definition ObligationRelayDelivery : string := "transaction_relay".
Definition ObligationSponsorDelivery : string := "gas_sponsorship".

(** ** Data *)

Record SponsorshipReleaseProfile := {
  EvidenceClass : SponsorshipReleaseEvidenceClass; sr_ProfileURI : string; sr_ProfileDigest : string }.

Definition SelectedSponsorshipReleaseProfile (body : RelayQuoteRequestBody) : SponsorshipReleaseProfile :=
  {| EvidenceClass := qr_SponsorshipReleaseEvidenceClass body; sr_ProfileURI := qr_SponsorshipReleaseProfileURI body;
     sr_ProfileDigest := qr_SponsorshipReleaseProfileDigest body |}.

Record RelayAgreementBinding := {
  bd_SchemaVersion : Z; bd_QuoteRequestDigest : string; bd_ProviderQuoteDigest : string; bd_ServiceProfileDigest : string;
  bd_Mode : Mode; bd_AssuranceLevel : AssuranceLevel;
  bd_SponsorshipReleaseEvidenceClass : SponsorshipReleaseEvidenceClass; bd_SponsorshipReleaseProfileURI : string;
  bd_SponsorshipReleaseProfileDigest : string; bd_RelayTerminalEvidenceClass : TerminalEvidenceClass;
  bd_SponsorshipTerminalEvidenceClass : TerminalEvidenceClass; bd_RelayFinalityProfileURI : string;
  bd_RelayFinalityProfileDigest : string; bd_SponsorshipTerminalProfileURI : string;
  bd_SponsorshipTerminalProfileDigest : string; bd_RequesterAgentID : string; bd_ProviderAgentID : string;
  bd_StableActionID : string; bd_ExactRequestDigest : string; bd_SignedTransactionDigest : string }.

Record ResolveCall := { rq_StableActionID : string; rq_ExactRequestDigest : string }.
Record EvidenceCall := { eq_StableActionID : string; eq_ExactRequestDigest : string }.

(** What the chain's parser reports about a transaction. *)
Record InspectedTransaction := {
  in_NetworkDigest : string; in_SourceAccount : string; in_SourceAccountAuthorityDigest : string; AuthorizedAgentID : string;
  ControllerEpoch : Z; in_SourceSequence : Z; in_ValidUntilUnix : Z; in_Destination : string; ValueAtomic : string;
  in_TransactionIntentDigest : string; in_SignedTransactionCellHash : string; in_MaximumNetworkFeeAtomic : string;
  in_MaximumTransactionValueAtomic : string }.

Inductive TransactionInspectionPhase := InspectionAdmission | InspectionReadyToBroadcast.

(** ** The interfaces the checks call *)

Definition AgentKeyResolver := NetworkDomain -> string -> string -> Time -> result string unit.
Definition TransactionInspector :=
  RelayQuoteRequestBody -> TransactionProfile -> string -> TransactionInspectionPhase -> result string InspectedTransaction.
Definition ActionTransactionBinder := RelayExecutionRequest -> InspectedTransaction -> result string unit.
(** [agentcommerce.CurrentWriterFenceResolver] *)
Record CurrentWriterFenceResolver := {
  AuthorizeFenceKey : FenceAuthorityResolver; ConfirmWriterFence : WriterFence -> Time -> result string unit }.

(** codec.Marshal of the binding *)
Class BindingCodec := { marshal_binding : RelayAgreementBinding -> option string }.

(** ** Lookups in a profile *)

(** [sort.Search] on the texts *)
Definition containsMode (values : list Mode) (wanted : Mode) : bool := containsSorted (mode_text <$> values) (mode_text wanted).
Definition containsAssuranceLevel (values : list AssuranceLevel) (wanted : AssuranceLevel) : bool :=
  containsSorted (assurance_text <$> values) (assurance_text wanted).
Definition containsNetwork (values : list NetworkDomain) (wanted : NetworkDomain) : bool := existsb (same wanted) values.
Definition containsAsset (values : list AssetIdentity) (wanted : AssetIdentity) : bool := existsb (same wanted) values.

Fixpoint findTransactionProfile (values : list TransactionProfile) (uri digest : string) : option TransactionProfile :=
  match values with
  | [] => None
  | candidate :: rest =>
      if streq (tp_ProfileURI candidate) uri && streq (tp_ProfileDigest candidate) digest then Some candidate
      else findTransactionProfile rest uri digest
  end.

Fixpoint findFinalityProfile (values : list FinalityProfile) (uri digest : string) : option FinalityProfile :=
  match values with
  | [] => None
  | candidate :: rest =>
      if streq (ProfileURI candidate) uri && streq (ProfileDigest candidate) digest then Some candidate
      else findFinalityProfile rest uri digest
  end.

Definition withinExposure (values : list ExposureLimit) (amount : AssetAmount) : bool :=
  match findExposureLimit values (Asset amount) with
  | Some limit => compareAtomic (AmountAtomic amount) (MaximumPerRequestAtomic limit) <=? 0
  | None => false
  end.

Definition sameAgreementAmount (left : AgreementAmount) (right : AssetAmount) : bool :=
  streq (aa_AssetNamespace left) (AssetNamespace (Asset right)) && streq (aa_AssetIdentifier left) (AssetIdentifier (Asset right)) &&
  streq (aa_Unit left) (Unit (Asset right)) && streq (aa_AmountAtomic left) (AmountAtomic right) && streq (AmountDecimal left) "".

Definition profilePointerMatchesSelection (profile : option FinalityProfile) (uri digest : string) : bool :=
  match profile with
  | None => streq uri "" && streq digest ""
  | Some p => streq (ProfileURI p) uri && streq (ProfileDigest p) digest
  end.

#[global] Instance FinalityProfile_eq_dec : EqDecision FinalityProfile.
Proof. solve_decision. Defined.

(** [left == right] on pointers to profiles, compared by value. *)
Definition equalFinalityProfilePointers (left right : option FinalityProfile) : bool := same left right.

(** ** Queries *)

Definition ValidateResolveCall (call : ResolveCall) : result string unit :=
  fail_if (negb (digestPattern (rq_StableActionID call)) || negb (digestPattern (rq_ExactRequestDigest call)))
    "relay resolution query is invalid".
Definition ValidateEvidenceCall (call : EvidenceCall) : result string unit :=
  ValidateResolveCall {| rq_StableActionID := eq_StableActionID call; rq_ExactRequestDigest := eq_ExactRequestDigest call |}.

Section Quotes.
Context `{C : RelayCodec}.

(** ** Signatures of agents *)

(** The body is given by its encoding. *)
Definition verifyAgentSignature (network : NetworkDomain) (agentID encodedKey encodedSignature domain : string)
    (canonical : option string) (resolver : option AgentKeyResolver) (at_ : Time) : result string unit :=
  authorize ← opt_err resolver "relay Agent authority resolver is required"%string;
  let unauthorized := "relay signing key is not authorized"%string in
  public ← or_err (parsePublicKey encodedKey) unauthorized;
  or_err (authorize network agentID public at_) unauthorized;;
  signature ← parseSignature encodedSignature;
  let invalid := "relay signature is invalid"%string in
  message ← opt_err canonical invalid;
  fail_if (negb (ed25519_Verify public (signatureMessage domain message) signature)) invalid.

Definition quoteRequestDomain : string := "tos.agent-relay-quote-request-signature.v1" +:+ bytes [0%N].
Definition providerQuoteDomain : string := "tos.agent-relay-provider-quote-signature.v1" +:+ bytes [0%N].

(** [Sign] is the signer of the key whose public half is [public]. *)
Definition SignRelayQuoteRequest (Sign : string -> string) (public : string) (body : RelayQuoteRequestBody)
  : result string SignedRelayQuoteRequest :=
  validateRelayQuoteRequestShape body;;
  canonical ← encoded (marshal_quote_request body);
  Ok {| qr_Body := body; qr_PublicKey := key_text public;
        qr_Signature := signature_text (Sign (signatureMessage quoteRequestDomain canonical)) |}.

Definition SignProviderRelayQuote (Sign : string -> string) (public : string) (body : ProviderRelayQuoteBody)
  : result string SignedProviderRelayQuote :=
  validateProviderRelayQuoteShape body;;
  canonical ← encoded (marshal_provider_quote body);
  Ok {| pq_Body := body; pq_PublicKey := key_text public;
        pq_Signature := signature_text (Sign (signatureMessage providerQuoteDomain canonical)) |}.

(** ** Profiles and quote requests *)

Definition ValidateRelayServiceProfile (profile : RelayServiceProfile) (now : Time) : result string unit :=
  validateRelayServiceProfileShape profile;;
  fail_if ((unixU (AddSeconds now (5 * 60)) <? sp_CreatedAtUnix profile) || (sp_ExpiresAtUnix profile <=? unixU now))
    "relay service profile is premature or expired".

(** The terminal profile the request selects, when its mode has one. *)
Definition selectFinality (profile : RelayServiceProfile) (selects : bool) (uri digest : string) (class : TerminalEvidenceClass)
    (unsupported conflicts : string) : result string (option FinalityProfile) :=
  if selects then
    finality ← opt_err (findFinalityProfile (FinalityProfiles profile) uri digest) unsupported;
    fail_if (negb (same (fp_TerminalEvidenceClass finality) class)) conflicts;;
    Ok (Some finality)
  else Ok None.

Definition maximumResolution (finality : option FinalityProfile) : Z :=
  match finality with Some p => MaximumResolutionSeconds p | None => 0 end.

Definition VerifyRelayQuoteRequest (signed : SignedRelayQuoteRequest) (profile : RelayServiceProfile)
    (resolver : option AgentKeyResolver) (now : Time) : result string unit :=
  let invalid := "relay quote request or provider profile is invalid"%string in
  or_err (ValidateRelayServiceProfile profile now) invalid;;
  or_err (validateRelayQuoteRequestShape (qr_Body signed)) invalid;;
  let body := qr_Body signed in
  fail_if (negb (streq (qr_ProviderAgentID body) (sp_ProviderAgentID profile)) ||
           negb (containsMode (SupportedModes profile) (qr_Mode body)) ||
           negb (containsAssuranceLevel (SupportedAssuranceLevels profile) (qr_AssuranceLevel body)) ||
           negb (containsNetwork (NetworkDomains profile) (Network body)) ||
           (sp_MaximumRequestBytes profile <? SignedTransactionSize body) ||
           (qr_CreatedAtUnix body <? sp_CreatedAtUnix profile) || (sp_ExpiresAtUnix profile <? qr_ExpiresAtUnix body))
    "relay quote request is outside the provider profile";;
  let unsupported := "relay transaction profile is unsupported"%string in
  transactionProfile ← opt_err (findTransactionProfile (TransactionProfiles profile) (TransactionProfileURI body)
                                  (TransactionProfileDigest body)) unsupported;
  fail_if (MaximumSignedBytes transactionProfile <? SignedTransactionSize body) unsupported;;
  relayFinality ← selectFinality profile (negb (same (qr_Mode body) ModeSponsorOnly)) (RelayFinalityProfileURI body)
    (RelayFinalityProfileDigest body) (qr_RelayTerminalEvidenceClass body) "relay finality profile is unsupported"
    "relay terminal evidence class conflicts with its selected profile";
  sponsorshipFinality ← selectFinality profile (negb (same (qr_Mode body) ModeRelayExact)) (SponsorshipTerminalProfileURI body)
    (qr_SponsorshipTerminalProfileDigest body) (qr_SponsorshipTerminalEvidenceClass body)
    "sponsorship terminal profile is unsupported" "sponsorship terminal evidence class conflicts with its selected profile";
  fail_if (negb (hasStrictRemainingWindow (qr_CreatedAtUnix body) (TransactionValidUntilUnix body)
             (Z.max (maximumResolution relayFinality) (maximumResolution sponsorshipFinality) + MinimumRelayInclusionMarginSeconds)))
    "relay transaction cannot remain valid through every selected terminal predicate";;
  fail_if (negb (containsAsset (FeeAssets profile) (Asset (MaximumServiceFee body))) ||
           match RequestedSponsorship body with
           | Some amount => negb (withinExposure (ExposureLimits profile) amount)
           | None => false
           end) "relay fee or sponsorship exceeds the published profile";;
  fail_if ((qr_ExpiresAtUnix body <=? unixU now) || (unixU (AddSeconds now (5 * 60)) <? qr_CreatedAtUnix body))
    "relay quote request is premature or expired";;
  verifyAgentSignature (Network body) (RequesterAgentID body) (qr_PublicKey signed) (qr_Signature signed) quoteRequestDomain
    (marshal_quote_request body) resolver now.

(** ** Provider quotes *)

(** A terminal profile of the quote is the profile's own. *)
Definition quotedProfileKept (profile : RelayServiceProfile) (quoted : option FinalityProfile) (uri digest : string) : bool :=
  match quoted with
  | Some p => same (findFinalityProfile (FinalityProfiles profile) uri digest) (Some p)
  | None => true
  end.

Definition sameSponsorship (reserved requested : option AssetAmount) : bool :=
  match reserved, requested with
  | Some a, Some b => sameAmount a b
  | None, None => true
  | _, _ => false
  end.

(** One turn of the loop over the fee lines. *)
Definition addFee (profile : RelayServiceProfile) (maximum : AssetAmount) (total : string) (line : FeeLine) : result string string :=
  fail_if (negb (sameAsset (Asset (FeeAmount line)) (Asset maximum)) || negb (containsAsset (FeeAssets profile) (Asset (FeeAmount line))))
    "provider quote selects an unauthorized fee asset"%string;;
  addAtomic total (AmountAtomic (FeeAmount line)).

Definition quoteMatchesRequest (quote : ProviderRelayQuoteBody) (request : RelayQuoteRequestBody) (profile : RelayServiceProfile)
    (requestDigest profileDigest : string) (now : Time) : bool :=
  streq (QuoteRequestDigest quote) requestDigest && streq (ServiceProfileDigest quote) profileDigest &&
  streq (pq_ProviderAgentID quote) (qr_ProviderAgentID request) && streq (pq_ProviderAgentID quote) (sp_ProviderAgentID profile) &&
  same (pq_Mode quote) (qr_Mode request) && same (pq_AssuranceLevel quote) (qr_AssuranceLevel request) &&
  same (pq_RelayTerminalEvidenceClass quote) (qr_RelayTerminalEvidenceClass request) &&
  same (pq_SponsorshipTerminalEvidenceClass quote) (qr_SponsorshipTerminalEvidenceClass request) &&
  same (pq_SponsorshipReleaseEvidenceClass quote) (qr_SponsorshipReleaseEvidenceClass request) &&
  streq (pq_SponsorshipReleaseProfileURI quote) (qr_SponsorshipReleaseProfileURI request) &&
  streq (pq_SponsorshipReleaseProfileDigest quote) (qr_SponsorshipReleaseProfileDigest request) &&
  (SignedTransactionSize request <=? pq_MaximumRequestBytes quote) && (pq_MaximumRequestBytes quote <=? sp_MaximumRequestBytes profile) &&
  streq (pq_MaximumNetworkFeeAtomic quote) (qr_MaximumNetworkFeeAtomic request) &&
  streq (pq_MaximumTransactionValueAtomic quote) (qr_MaximumTransactionValueAtomic request) &&
  profilePointerMatchesSelection (RelayFinalityProfile quote) (RelayFinalityProfileURI request) (RelayFinalityProfileDigest request) &&
  profilePointerMatchesSelection (SponsorshipTerminalProfile quote) (SponsorshipTerminalProfileURI request)
    (qr_SponsorshipTerminalProfileDigest request) &&
  streq (StatusEndpoint quote) (ResolveURL (Endpoints profile)) && (ProviderPolicyRevision quote =? PolicyRevision profile) &&
  (qr_CreatedAtUnix request <=? ValidFromUnix quote) && (pq_ExpiresAtUnix quote <=? qr_ExpiresAtUnix request) &&
  (pq_ExpiresAtUnix quote <? TransactionValidUntilUnix request) && (ValidFromUnix quote <=? unixU now) &&
  (unixU now <? pq_ExpiresAtUnix quote).

Definition VerifyProviderRelayQuote (signed : SignedProviderRelayQuote) (request : SignedRelayQuoteRequest)
    (profile : RelayServiceProfile) (resolver : option AgentKeyResolver) (now : Time) : result string unit :=
  let invalid := "provider relay quote or service profile is invalid"%string in
  or_err (ValidateRelayServiceProfile profile now) invalid;;
  or_err (validateProviderRelayQuoteShape (pq_Body signed)) invalid;;
  let body := pq_Body signed in
  let asked := qr_Body request in
  let mismatch := "provider quote does not match the exact request and profile"%string in
  requestDigest ← or_err (RelayQuoteRequestDigest asked) mismatch;
  profileDigest ← or_err (RelayServiceProfileDigest profile) mismatch;
  fail_if (negb (quoteMatchesRequest body asked profile requestDigest profileDigest now)) mismatch;;
  fail_if (negb (quotedProfileKept profile (RelayFinalityProfile body) (RelayFinalityProfileURI asked) (RelayFinalityProfileDigest asked)))
    "provider quote changes the selected relay finality profile";;
  fail_if (negb (quotedProfileKept profile (SponsorshipTerminalProfile body) (SponsorshipTerminalProfileURI asked)
                   (qr_SponsorshipTerminalProfileDigest asked)))
    "provider quote changes the selected sponsorship terminal profile";;
  fail_if (negb (sameSponsorship (ReservedSponsorship body) (RequestedSponsorship asked)))
    "provider quote changes the requested sponsorship";;
  total ← foldM (addFee profile (MaximumServiceFee asked)) "0"%string (FeeLines body);
  fail_if (0 <? compareAtomic total (AmountAtomic (MaximumServiceFee asked))) "provider quote exceeds the maximum service fee";;
  verifyAgentSignature (Network asked) (pq_ProviderAgentID body) (pq_PublicKey signed) (pq_Signature signed) providerQuoteDomain
    (marshal_provider_quote body) resolver now.

(** ** Transactions *)

Definition SignedTransactionDigest (payload : string) : result string string :=
  fail_if ((slen payload =? 0) || (MaxSignedTransactionBytes <? slen payload)) "signed transaction byte length is invalid"%string;;
  Ok ("sha256:" +:+ hex_EncodeToString (Sum256 payload))%string.

Definition validateInspection (body : RelayQuoteRequestBody) (inspected : InspectedTransaction) : result string unit :=
  let conflicts := "inspected transaction conflicts with the relay request"%string in
  network ← or_err (NetworkDigest (Network body)) conflicts;
  fail_if (negb (streq (in_NetworkDigest inspected) network) || negb (streq (in_SourceAccount inspected) (SourceAccount body)) ||
           negb (streq (in_SourceAccountAuthorityDigest inspected) (SourceAccountAuthorityDigest body)) ||
           negb (streq (AuthorizedAgentID inspected) (RequesterAgentID body)) ||
           negb (digestPattern (in_SourceAccountAuthorityDigest inspected)) || negb (identifier (AuthorizedAgentID inspected) 256) ||
           negb (in_SourceSequence inspected =? SourceSequence body) ||
           negb (in_ValidUntilUnix inspected =? TransactionValidUntilUnix body) || negb (identifier (in_Destination inspected) 256) ||
           negb (positiveAtomic (ValueAtomic inspected)) ||
           negb (streq (in_TransactionIntentDigest inspected) (TransactionIntentDigest body)) ||
           negb (streq (in_SignedTransactionCellHash inspected) (qr_SignedTransactionCellHash body)) ||
           negb (canonicalAtomic (in_MaximumNetworkFeeAtomic inspected)) ||
           negb (canonicalAtomic (in_MaximumTransactionValueAtomic inspected)) ||
           (0 <? compareAtomic (in_MaximumNetworkFeeAtomic inspected) (qr_MaximumNetworkFeeAtomic body)) ||
           (0 <? compareAtomic (in_MaximumTransactionValueAtomic inspected) (qr_MaximumTransactionValueAtomic body)) ||
           (0 <? compareAtomic (ValueAtomic inspected) (qr_MaximumTransactionValueAtomic body))) conflicts.

(** ** Executions *)

Definition inspectionPhase (request : RelayExecutionRequest) : TransactionInspectionPhase :=
  if same (qr_Mode (qr_Body (QuoteRequest request))) ModeRelayExact then InspectionReadyToBroadcast else InspectionAdmission.

Definition ConfirmRelayCurrentWriterFence (request : RelayExecutionRequest) (resolver : option CurrentWriterFenceResolver) (now : Time)
  : result string unit :=
  labelled "confirm current relay writer fence: "
    (ConfirmCurrentWriterFence (ex_WriterFence request) (ConfirmWriterFence <$> resolver) now).

Definition executionBindsAction (request : RelayExecutionRequest) (now : Time) : bool :=
  let body := qr_Body (QuoteRequest request) in
  let quote := pq_Body (ProviderQuote request) in
  let action := ex_AuthorizedAction request in
  (unixU now <? ex_ExpiresAtUnix request) && (ex_CreatedAtUnix request <=? unixU (AddSeconds now (5 * 60))) &&
  (qr_CreatedAtUnix body <=? ex_CreatedAtUnix request) && (ValidFromUnix quote <=? ex_CreatedAtUnix request) &&
  (ex_ExpiresAtUnix request <=? TransactionValidUntilUnix body) && streq (ActionKind action) (UnderlyingActionKind body) &&
  streq (ac_StableActionID action) (qr_StableActionID body) && streq (ac_ExactRequestDigest action) (qr_ExactRequestDigest body) &&
  streq (ac_AgentID action) (RequesterAgentID body) && (ex_ExpiresAtUnix request <=? ac_ExpiresAtUnix action) &&
  (ex_ExpiresAtUnix request <=? wf_ExpiresAtUnix (wf_Body (ex_WriterFence request))) &&
  (zlen (FeeObligationIDs request) =? zlen (FeeLines quote)).

Definition verifyRelayExecutionRequestCoreAtAuthorityTime (request : RelayExecutionRequest) (profile : RelayServiceProfile)
    (agentResolver : option AgentKeyResolver) (fenceResolver : option CurrentWriterFenceResolver)
    (inspector : option TransactionInspector) (now actionAuthorityAt : Time) (requireCurrentWriter : bool) : result string unit :=
  validateRelayExecutionRequestCoreShape request;;
  VerifyRelayQuoteRequest (QuoteRequest request) profile agentResolver now;;
  VerifyProviderRelayQuote (ProviderQuote request) (QuoteRequest request) profile agentResolver now;;
  let body := qr_Body (QuoteRequest request) in
  let required := "relay transaction inspector is required"%string in
  transactionProfile ← opt_err (findTransactionProfile (TransactionProfiles profile) (TransactionProfileURI body)
                                  (TransactionProfileDigest body)) required;
  inspect ← opt_err inspector required;
  let mismatch := "relay execution bytes do not match the quoted descriptor"%string in
  digest ← or_err (SignedTransactionDigest (SignedTransactionBytes request)) mismatch;
  fail_if (negb (streq digest (qr_SignedTransactionDigest body)) ||
           negb (wrap32 (slen (SignedTransactionBytes request)) =? SignedTransactionSize body)) mismatch;;
  inspection ← labelled "inspect exact relay transaction: "
    (inspect body transactionProfile (SignedTransactionBytes request) (inspectionPhase request));
  validateInspection body inspection;;
  fail_if (negb (executionBindsAction request now)) "relay execution does not bind the quoted underlying action";;
  fields ← ImportSemanticFields (UnderlyingActionKind body) (SemanticFields request);
  labelled "verify underlying authorized action: "
    (VerifyAuthorizedActionAtAuthorityTime (ex_AuthorizedAction request) fields (UnderlyingActionRequest request)
       (ex_WriterFence request) (AuthorizeFenceKey <$> fenceResolver) now actionAuthorityAt);;
  if requireCurrentWriter then ConfirmRelayCurrentWriterFence request fenceResolver now else Ok tt.

(** [time.Unix(int64(receipt.IssuedAtUnix), 0)] *)
Definition issuedAt (request : RelayExecutionRequest) : Time := UnixTime (rb_IssuedAtUnix (rc_Body (AdmissionReceipt request))).

Definition VerifyRelayExecutionRequest (request : RelayExecutionRequest) (profile : RelayServiceProfile)
    (agentResolver : option AgentKeyResolver) (fenceResolver : option CurrentWriterFenceResolver)
    (inspector : option TransactionInspector) (now : Time) : result string unit :=
  VerifyRelaySideEffectAdmissionReceipt (AdmissionReceipt request) request (Unix now);;
  verifyRelayExecutionRequestCoreAtAuthorityTime request profile agentResolver fenceResolver inspector now (issuedAt request) false.

Definition VerifyRelayExecutionRequestForAdmission (request : RelayExecutionRequest) (profile : RelayServiceProfile)
    (agentResolver : option AgentKeyResolver) (fenceResolver : option CurrentWriterFenceResolver)
    (inspector : option TransactionInspector) (now : Time) : result string unit :=
  verifyRelayExecutionRequestCoreAtAuthorityTime request profile agentResolver fenceResolver inspector now now true.

Definition verifyTransactionAt (request : RelayExecutionRequest) (profile : RelayServiceProfile)
    (inspector : option TransactionInspector) (binder : option ActionTransactionBinder) (phase : TransactionInspectionPhase)
  : result string unit :=
  let required := "relay action-to-transaction verifier is required"%string in
  inspect ← opt_err inspector required;
  bind ← opt_err binder required;
  let body := qr_Body (QuoteRequest request) in
  transactionProfile ← opt_err (findTransactionProfile (TransactionProfiles profile) (TransactionProfileURI body)
                                  (TransactionProfileDigest body)) "relay transaction profile is unsupported"%string;
  inspected ← inspect body transactionProfile (SignedTransactionBytes request) phase;
  validateInspection body inspected;;
  bind request inspected.

Definition VerifyActionTransactionBinding (request : RelayExecutionRequest) (profile : RelayServiceProfile)
    (inspector : option TransactionInspector) (binder : option ActionTransactionBinder) : result string unit :=
  verifyTransactionAt request profile inspector binder (inspectionPhase request).

Definition VerifyRelayReadyToBroadcast (request : RelayExecutionRequest) (profile : RelayServiceProfile)
    (inspector : option TransactionInspector) (binder : option ActionTransactionBinder) : result string unit :=
  fail_if (same (qr_Mode (qr_Body (QuoteRequest request))) ModeSponsorOnly) "sponsor-only requests have no relay broadcast stage"%string;;
  verifyTransactionAt request profile inspector binder InspectionReadyToBroadcast.

(** ** The agreement's obligations *)

Context `{BC : BindingCodec}.

Definition validateRelayAgreementBinding (binding : RelayAgreementBinding) : result string unit :=
  fail_if (negb (bd_SchemaVersion binding =? 1) || negb (digestPattern (bd_QuoteRequestDigest binding)) ||
           negb (digestPattern (bd_ProviderQuoteDigest binding)) || negb (digestPattern (bd_ServiceProfileDigest binding)) ||
           negb (validMode (bd_Mode binding)) || negb (validAssuranceLevel (bd_AssuranceLevel binding)) ||
           negb (identifier (bd_RequesterAgentID binding) 256) || negb (identifier (bd_ProviderAgentID binding) 256) ||
           negb (digestPattern (bd_StableActionID binding)) || negb (digestPattern (bd_ExactRequestDigest binding)) ||
           negb (digestPattern (bd_SignedTransactionDigest binding))) "relay Agreement binding is invalid";;
  let relaySelection := validProfileSelection (bd_RelayFinalityProfileURI binding) (bd_RelayFinalityProfileDigest binding) in
  let relayClass := validRelayTerminalClass (bd_RelayTerminalEvidenceClass binding) (bd_AssuranceLevel binding) in
  if same (bd_Mode binding) ModeRelayExact then
    fail_if (negb (same (bd_SponsorshipReleaseEvidenceClass binding) NoReleaseClass) ||
             negb (streq (bd_SponsorshipReleaseProfileURI binding) "") || negb (streq (bd_SponsorshipReleaseProfileDigest binding) "") ||
             negb relayClass || negb (same (bd_SponsorshipTerminalEvidenceClass binding) NoEvidenceClass) || negb relaySelection ||
             negb (streq (bd_SponsorshipTerminalProfileURI binding) "") || negb (streq (bd_SponsorshipTerminalProfileDigest binding) ""))
      "relay Agreement carries an unexpected sponsorship release policy"
  else
    fail_if (negb (identifier (bd_SponsorshipReleaseProfileURI binding) 256) ||
             negb (digestPattern (bd_SponsorshipReleaseProfileDigest binding)) ||
             negb (validProfileSelection (bd_SponsorshipTerminalProfileURI binding) (bd_SponsorshipTerminalProfileDigest binding)) ||
             negb (validSponsorshipTerminalClass (bd_SponsorshipTerminalEvidenceClass binding) (bd_AssuranceLevel binding)) ||
             (same (bd_Mode binding) ModeSponsorOnly &&
              (negb (streq (bd_RelayFinalityProfileURI binding) "") || negb (streq (bd_RelayFinalityProfileDigest binding) "") ||
               negb (same (bd_RelayTerminalEvidenceClass binding) NoEvidenceClass))) ||
             (same (bd_Mode binding) ModeSponsorAndRelay && negb relaySelection) ||
             (same (bd_Mode binding) ModeSponsorAndRelay && negb relayClass) ||
             (negb (same (bd_SponsorshipReleaseEvidenceClass binding) ReleaseValidatorFinality) &&
              negb (same (bd_SponsorshipReleaseEvidenceClass binding) ReleaseObservedUnproven)) ||
             (same (bd_SponsorshipReleaseEvidenceClass binding) ReleaseObservedUnproven &&
              (same (bd_AssuranceLevel binding) AssuranceAutonomousDecentralized ||
               negb (streq (bd_SponsorshipReleaseProfileURI binding) RPCCorroborationEvidenceProfileURI))) ||
             negb (ValidateSponsorshipReleaseProfile (bd_Mode binding) (bd_AssuranceLevel binding)
                     (bd_SponsorshipReleaseEvidenceClass binding) (bd_SponsorshipReleaseProfileURI binding)
                     (bd_SponsorshipReleaseProfileDigest binding) (bd_SponsorshipTerminalProfileURI binding)
                     (bd_SponsorshipTerminalProfileDigest binding) (bd_SponsorshipTerminalEvidenceClass binding)))
      "relay Agreement sponsorship release policy is invalid".

Definition RelayAgreementBindingBytes (binding : RelayAgreementBinding) : result string string :=
  validateRelayAgreementBinding binding;; encoded (marshal_binding binding).
Definition RelayAgreementBindingDigest (binding : RelayAgreementBinding) : result string string :=
  validateRelayAgreementBinding binding;; Digest "tos.agent-relay-agreement-binding.v1" (marshal_binding binding).

(** The quote answers the request it names. *)
Definition quoteBindsRequest (quote : ProviderRelayQuoteBody) (request : RelayQuoteRequestBody) (requestDigest : string) : bool :=
  streq (QuoteRequestDigest quote) requestDigest && same (pq_Mode quote) (qr_Mode request) &&
  same (pq_AssuranceLevel quote) (qr_AssuranceLevel request) &&
  same (pq_RelayTerminalEvidenceClass quote) (qr_RelayTerminalEvidenceClass request) &&
  same (pq_SponsorshipTerminalEvidenceClass quote) (qr_SponsorshipTerminalEvidenceClass request) &&
  same (pq_SponsorshipReleaseEvidenceClass quote) (qr_SponsorshipReleaseEvidenceClass request) &&
  streq (pq_SponsorshipReleaseProfileURI quote) (qr_SponsorshipReleaseProfileURI request) &&
  streq (pq_SponsorshipReleaseProfileDigest quote) (qr_SponsorshipReleaseProfileDigest request) &&
  profilePointerMatchesSelection (RelayFinalityProfile quote) (RelayFinalityProfileURI request) (RelayFinalityProfileDigest request) &&
  profilePointerMatchesSelection (SponsorshipTerminalProfile quote) (SponsorshipTerminalProfileURI request)
    (qr_SponsorshipTerminalProfileDigest request).

Definition CompileRelayAgreementBinding (request : SignedRelayQuoteRequest) (quote : SignedProviderRelayQuote)
  : result string RelayAgreementBinding :=
  let body := qr_Body request in
  let mismatch := "provider quote does not bind the quote request"%string in
  requestDigest ← RelayQuoteRequestDigest body;
  quoteDigest ← or_err (ProviderRelayQuoteDigest (pq_Body quote)) mismatch;
  fail_if (negb (quoteBindsRequest (pq_Body quote) body requestDigest)) mismatch;;
  Ok {| bd_SchemaVersion := 1; bd_QuoteRequestDigest := requestDigest; bd_ProviderQuoteDigest := quoteDigest;
        bd_ServiceProfileDigest := ServiceProfileDigest (pq_Body quote); bd_Mode := qr_Mode body;
        bd_AssuranceLevel := qr_AssuranceLevel body;
        bd_SponsorshipReleaseEvidenceClass := qr_SponsorshipReleaseEvidenceClass body;
        bd_SponsorshipReleaseProfileURI := qr_SponsorshipReleaseProfileURI body;
        bd_SponsorshipReleaseProfileDigest := qr_SponsorshipReleaseProfileDigest body;
        bd_RelayTerminalEvidenceClass := qr_RelayTerminalEvidenceClass body;
        bd_SponsorshipTerminalEvidenceClass := qr_SponsorshipTerminalEvidenceClass body;
        bd_RelayFinalityProfileURI := RelayFinalityProfileURI body; bd_RelayFinalityProfileDigest := RelayFinalityProfileDigest body;
        bd_SponsorshipTerminalProfileURI := SponsorshipTerminalProfileURI body;
        bd_SponsorshipTerminalProfileDigest := qr_SponsorshipTerminalProfileDigest body;
        bd_RequesterAgentID := RequesterAgentID body; bd_ProviderAgentID := qr_ProviderAgentID body;
        bd_StableActionID := qr_StableActionID body; bd_ExactRequestDigest := qr_ExactRequestDigest body;
        bd_SignedTransactionDigest := qr_SignedTransactionDigest body |}.

Definition relayReservedObligationKind (kind : string) : bool :=
  one_of kind [ObligationRelayDelivery; ObligationSponsorDelivery; ObligationRelayFee; ObligationSponsorshipFee].

Definition sameBoundObligation (o : AgreementObligation) (kind obligor beneficiary subject : string) : bool :=
  nonempty (ObligationID o) && streq (ob_Kind o) kind && streq (ObligorAgentID o) obligor &&
  streq (BeneficiaryAgentID o) beneficiary && streq (SubjectContentType o) AgreementBindingContentType && streq (Subject o) subject.

(** The zero value of an obligation, which a missing map entry reads as. *)
Definition noObligation : AgreementObligation :=
  {| ObligationID := ""; ob_Kind := ""; ObligorAgentID := ""; BeneficiaryAgentID := ""; DependsOnObligationIDs := [];
     SubjectContentType := ""; Subject := ""; AttachmentDigests := []; ob_Amount := None; ob_NotBeforeUnix := 0;
     ob_DueAtUnix := 0; ob_ExpiresAtUnix := 0; AcceptanceEvidenceRequirements := []; ConfidentialityPolicy := "";
     CancellationPolicy := ""; DisputePolicy := ""; ob_BillingTerms := None; ob_SettlementAdapterURI := "";
     SettlementParameters := ""; AuthorizationPredicateIDs := []; ob_RequiredExtensions := []; ob_OptionalExtensions := [] |}.

Definition addObligation (m : gmap string AgreementObligation) (o : AgreementObligation) : result string (gmap string AgreementObligation) :=
  fail_if (bool_decide (is_Some (m !! ObligationID o))) "relay Agreement obligation identity is duplicated"%string;;
  Ok (<[ObligationID o := o]> m).

Definition feeLineMap (lines : list FeeLine) : gmap string FeeLine := foldl (fun m line => <[Kind line := line]> m) ∅ lines.

(** The kinds of the service obligations expected so far, and the fee kinds seen. *)
Record ServiceObligations := { expectedKinds : gmap string string; seenKinds : gset string }.

(** One turn of the loop over the fee obligations of the request. *)
Definition addFeeObligation (obligations : gmap string AgreementObligation) (feeLines : gmap string FeeLine)
    (client provider binding : string) (s : ServiceObligations) (id : string) : result string ServiceObligations :=
  let o := default noObligation (obligations !! id) in
  line ← opt_err (feeLines !! ob_Kind o) "relay service fee obligation kind is not quoted"%string;
  fail_if (bool_decide (ob_Kind o ∈ seenKinds s)) "relay fee obligations contain a duplicate kind"%string;;
  fail_if (negb (sameBoundObligation o (Kind line) client provider binding) ||
           match ob_Amount o with Some amount => negb (sameAgreementAmount amount (FeeAmount line)) | None => true end)
    "relay service fee obligation is missing or conflicts"%string;;
  Ok {| expectedKinds := <[id := ob_Kind o]> (expectedKinds s); seenKinds := {[ob_Kind o]} ∪ seenKinds s |}.

(** The relay and sponsorship obligations, when the request names them. *)
Definition checkDelivery (request : RelayExecutionRequest) (obligations : gmap string AgreementObligation)
    (client provider binding : string) : result string (gmap string string) :=
  let relayID := RelayObligationID request in
  let sponsorID := SponsorshipObligationID request in
  let relay := default noObligation (obligations !! relayID) in
  let sponsor := default noObligation (obligations !! sponsorID) in
  expected ← (if nonempty relayID then
    fail_if (negb (sameBoundObligation relay ObligationRelayDelivery provider client binding) ||
             match ob_Amount relay with Some _ => true | None => false end)
      "relay delivery obligation is missing or conflicts"%string;;
    Ok {[relayID := ObligationRelayDelivery]}
  else Ok ∅);
  if nonempty sponsorID then
    fail_if (negb (sameBoundObligation sponsor ObligationSponsorDelivery provider client binding) ||
             match ob_Amount sponsor, ReservedSponsorship (pq_Body (ProviderQuote request)) with
             | Some amount, Some reserved => negb (sameAgreementAmount amount reserved)
             | _, _ => true
             end || negb (streq (ob_SettlementAdapterURI sponsor) DirectPaymentAdapterURI))
      "gas sponsorship obligation is missing or conflicts"%string;;
    Ok (<[sponsorID := ObligationSponsorDelivery]> expected)
  else Ok expected.

(** A service obligation that the request does not name under its kind. *)
Definition strayObligation (expected : gmap string string) (binding : string) (o : AgreementObligation) : bool :=
  (relayReservedObligationKind (ob_Kind o) ||
   (streq (SubjectContentType o) AgreementBindingContentType && streq (Subject o) binding)) &&
  negb (bool_decide (expected !! ObligationID o = Some (ob_Kind o))).

Context `{A : AgreementCodec}.

Definition VerifyRelayExecutionAgreement (request : RelayExecutionRequest) (agreement : AgentAgreement)
    (verifier : option AgreementEvidenceVerifier) (now : Time) : result string unit :=
  labelled "verify relay Agreement authorization: " (ValidateAgreementAuthorization agreement verifier now);;
  let mismatch := "relay execution Agreement digest or expiry mismatch"%string in
  digest ← or_err (Agreement.AgreementBodyDigest (ag_Body agreement)) mismatch;
  fail_if (negb (streq digest (AgreementBodyDigest request)) ||
           negb (ab_ExpiresAtUnix (ag_Body agreement) =? AgreementExpiresAtUnix request)) mismatch;;
  compiled ← CompileRelayAgreementBinding (QuoteRequest request) (ProviderQuote request);
  binding ← RelayAgreementBindingBytes compiled;
  fail_if (negb (streq (TermsContentType (ag_Body agreement)) AgreementBindingContentType) ||
           negb (streq (Terms (ag_Body agreement)) binding)) "relay Agreement top-level terms do not bind the exact quote pair";;
  obligations ← foldM addObligation ∅ (Obligations (ag_Body agreement));
  let client := RequesterAgentID (qr_Body (QuoteRequest request)) in
  let provider := qr_ProviderAgentID (qr_Body (QuoteRequest request)) in
  delivery ← checkDelivery request obligations client provider binding;
  let feeLines := feeLineMap (FeeLines (pq_Body (ProviderQuote request))) in
  service ← foldM (addFeeObligation obligations feeLines client provider binding)
    {| expectedKinds := delivery; seenKinds := ∅ |} (FeeObligationIDs request);
  fail_if (negb (size (seenKinds service) =? size feeLines)%nat) "relay service fee obligation set is incomplete";;
  fail_if (existsb (strayObligation (expectedKinds service) binding) (Obligations (ag_Body agreement)))
    "relay Agreement contains an unreferenced or conflicting service obligation".
End Quotes.

(** ** What verified quotes and executions guarantee *)

(** The number an atomic amount stands for. *)
Definition atomic (text : string) : Z := default 0 (SetString10 text).
Definition feeTotal (lines : list FeeLine) : Z := foldr (fun line acc => atomic (AmountAtomic (FeeAmount line)) + acc) 0 lines.

Lemma compare_atomic left right : compareAtomic left right <= 0 -> is_Some (SetString10 left) -> is_Some (SetString10 right) ->
  atomic left <= atomic right.
Proof.
  unfold compareAtomic, atomic. intros H [a Ha] [b Hb]. rewrite Ha, Hb in *. cbn. revert H. case Z.compare_spec; lia.
Qed.

Lemma canonical_number text : canonicalAtomic text = true -> is_Some (SetString10 text).
Proof. intros (n & Hn & _)%canonicalAtomic_value. eauto. Qed.

Lemma amount_number amount positive : validateAmount amount positive = true -> is_Some (SetString10 (AmountAtomic amount)).
Proof. unfold validateAmount. rewrite !andb_true_iff. intros [[_ H] _]. by apply canonical_number. Qed.

Lemma fees_added profile maximum total lines result n : foldM (addFee profile maximum) total lines = Ok result ->
  SetString10 total = Some n -> SetString10 result = Some (n + feeTotal lines).
Proof.
  revert total n. induction lines as [|line lines IH]; intros total n H Hn; cbn in H.
  - injection H as <-. rewrite Hn. f_equal. cbn. lia.
  - apply bind_Ok in H as (next & Hnext & H). unfold addFee in Hnext. apply bind_Ok in Hnext as (_ & _ & Hnext).
    unfold addAtomic in Hnext. rewrite Hn in Hnext. cbn [feeTotal foldr]. fold (feeTotal lines). unfold atomic.
    destruct (SetString10 (AmountAtomic (FeeAmount line))) as [a|]; [injection Hnext as <-|done].
    rewrite (IH _ (n + a) H (FormatZ_value _)). f_equal. cbn. lia.
Qed.

Section Guarantees.
Context `{C : RelayCodec} `{BC : BindingCodec} `{A : AgreementCodec}.

Lemma request_numbers body : validateRelayQuoteRequestShape body = Ok tt ->
  is_Some (SetString10 (AmountAtomic (MaximumServiceFee body))) /\ is_Some (SetString10 (qr_MaximumNetworkFeeAtomic body)) /\
  is_Some (SetString10 (qr_MaximumTransactionValueAtomic body)) /\
  (forall amount, RequestedSponsorship body = Some amount -> is_Some (SetString10 (AmountAtomic amount))).
Proof.
  unfold validateRelayQuoteRequestShape. intros (u & Hg & Hm)%bind_Ok.
  assert (forall amount, RequestedSponsorship body = Some amount -> is_Some (SetString10 (AmountAtomic amount))) as Hsponsor.
  { clear Hg. intros amount Ha. unfold requestedPositive in Hm. rewrite Ha in Hm.
    destruct (qr_Mode body); [..|discriminate Hm]; apply fail_if_Ok in Hm; rewrite !orb_false_iff, ?negb_false_iff in Hm; destruct_and!;
      [discriminate|by eapply amount_number..]. }
  clear Hm. apply fail_if_Ok in Hg. rewrite !orb_false_iff, !negb_false_iff in Hg. destruct_and!.
  split_and!; [eapply amount_number; eassumption|apply canonical_number; assumption..|exact Hsponsor].
Qed.

Lemma profile_limits profile limit : validateRelayServiceProfileShape profile = Ok tt -> limit ∈ ExposureLimits profile ->
  is_Some (SetString10 (MaximumPerRequestAtomic limit)).
Proof.
  unfold validateRelayServiceProfileShape. intros H Hin. repeat (apply bind_Ok in H as (? & ? & H)).
  match goal with Hl : fail_if (negb (forallb _ (ExposureLimits profile))) _ = Ok _ |- _ =>
    apply fail_if_Ok, negb_false_iff in Hl; rewrite forallb_forall in Hl; specialize (Hl limit) end.
  apply list_elem_of_In in Hin. match goal with Hl : In limit _ -> _ |- _ => apply Hl in Hin end.
  rewrite !andb_true_iff in Hin. destruct Hin as [[[_ Hp] _] _]. apply canonical_number.
  unfold positiveAtomic in Hp. by apply andb_true_iff in Hp as [? _].
Qed.

Lemma find_limit values asset limit : findExposureLimit values asset = Some limit -> limit ∈ values /\ LimitAsset limit = asset.
Proof.
  induction values as [|v values IH]; cbn; [done|]. destruct (sameAsset (LimitAsset v) asset) eqn:E.
  - intros [= ->]. apply same_eq in E. split; [left|done].
  - intros [? ?]%IH. split; [by right|done].
Qed.

Lemma same_sponsorship reserved requested : sameSponsorship reserved requested = true -> reserved = requested.
Proof.
  destruct reserved as [[? ?]|], requested as [[? ?]|]; cbn; try done.
  unfold sameAmount. cbn. intros [->%same_eq ->%streq_true]%andb_true_iff. done.
Qed.

Lemma request_exposure signed profile resolver now amount : VerifyRelayQuoteRequest signed profile resolver now = Ok tt ->
  RequestedSponsorship (qr_Body signed) = Some amount -> exists limit, limit ∈ ExposureLimits profile /\
    LimitAsset limit = Asset amount /\ atomic (AmountAtomic amount) <= atomic (MaximumPerRequestAtomic limit).
Proof.
  unfold VerifyRelayQuoteRequest. intros H Ha. repeat (apply bind_Ok in H as (? & ? & H)). clear H.
  match goal with Hs : or_err (validateRelayQuoteRequestShape _) _ = Ok ?u |- _ => destruct u; apply or_err_Ok in Hs;
    destruct (request_numbers _ Hs) as (_ & _ & _ & Hn) end.
  match goal with Hp : or_err (ValidateRelayServiceProfile _ _) _ = Ok _ |- _ => apply or_err_Ok in Hp;
    rename Hp into Hprofile end.
  unfold ValidateRelayServiceProfile in Hprofile. apply bind_Ok in Hprofile as ([] & Hshape & _).
  match goal with Hx : fail_if (_ || match RequestedSponsorship _ with _ => _ end) _ = Ok _ |- _ =>
    rename Hx into Hexp end.
  rewrite Ha in Hexp. apply fail_if_Ok, orb_false_iff in Hexp as [_ Hx]. unfold withinExposure in Hx. apply negb_false_iff in Hx.
  destruct (findExposureLimit _ _) as [limit|] eqn:E; [|done]. apply find_limit in E as [Hin Hasset]. apply Z.leb_le in Hx.
  exists limit. split; [done|]. split; [done|]. apply compare_atomic; [done|by apply Hn|by eapply profile_limits].
Qed.

Lemma quote_fees signed request profile resolver now : VerifyProviderRelayQuote signed request profile resolver now = Ok tt ->
  feeTotal (FeeLines (pq_Body signed)) <= atomic (AmountAtomic (MaximumServiceFee (qr_Body request))) /\
  (forall line, line ∈ FeeLines (pq_Body signed) -> Asset (FeeAmount line) = Asset (MaximumServiceFee (qr_Body request))) /\
  ReservedSponsorship (pq_Body signed) = RequestedSponsorship (qr_Body request).
Proof.
  unfold VerifyProviderRelayQuote. intros H. repeat (apply bind_Ok in H as (? & ? & H)). clear H.
  match goal with Hd : or_err (RelayQuoteRequestDigest _) _ = Ok _ |- _ => apply or_err_Ok in Hd;
    rename Hd into Hdigest end.
  unfold RelayQuoteRequestDigest in Hdigest. apply bind_Ok in Hdigest as ([] & Hs & _).
  match goal with Hf : foldM _ _ _ = Ok ?t |- _ => pose proof (fees_added _ _ _ _ _ 0 Hf eq_refl) as Ht; rename Hf into Hfold end.
  match goal with Hc : fail_if (0 <? _) _ = Ok _ |- _ => apply fail_if_Ok, Z.ltb_ge, compare_atomic in Hc; [|eauto|by apply request_numbers] end.
  match goal with Hr : fail_if (negb (sameSponsorship _ _)) _ = Ok _ |- _ =>
    apply fail_if_Ok, negb_false_iff, same_sponsorship in Hr end.
  split; [|split; [|done]].
  - match goal with Hc : atomic _ <= _ |- _ => etrans; [|exact Hc] end. unfold atomic. rewrite Ht. cbn. lia.
  - intros line Hin. apply (foldM_each (fun line => Asset (FeeAmount line) = Asset (MaximumServiceFee (qr_Body request)))) in Hfold;
      [by rewrite Forall_forall in Hfold; apply Hfold|].
    intros ? ? ? (? & Hx & _)%bind_Ok. apply fail_if_Ok, orb_false_iff in Hx as [Hx _]. by apply negb_false_iff, same_eq in Hx.
Qed.

Lemma inspection_limits body inspected : validateRelayQuoteRequestShape body = Ok tt -> validateInspection body inspected = Ok tt ->
  atomic (ValueAtomic inspected) <= atomic (qr_MaximumTransactionValueAtomic body) /\
  atomic (in_MaximumNetworkFeeAtomic inspected) <= atomic (qr_MaximumNetworkFeeAtomic body) /\
  in_SourceAccount inspected = SourceAccount body /\ AuthorizedAgentID inspected = RequesterAgentID body /\
  in_SourceSequence inspected = SourceSequence body /\ in_ValidUntilUnix inspected = TransactionValidUntilUnix body.
Proof.
  intros (_ & Hfee & Hvalue & _)%request_numbers H. unfold validateInspection in H. apply bind_Ok in H as (network & _ & H).
  apply fail_if_Ok in H. rewrite !orb_false_iff, !negb_false_iff, !Z.ltb_ge, !Z.eqb_eq in H. destruct_and!.
  repeat match goal with He : streq _ _ = true |- _ => apply streq_true in He end.
  split_and!; try assumption; apply compare_atomic; try assumption; try apply canonical_number; try assumption.
  unfold positiveAtomic in *. match goal with Hp : canonicalAtomic ?v && _ = true |- canonicalAtomic ?v = true =>
    by apply andb_true_iff in Hp as [? _] end.
Qed.

(** C16: an execution request that passes the provider's verification stays within what its two parties signed: the
    transaction bytes are the ones whose digest the quote request names, and the chain's parser reports for them the
    quoted account, sequence and expiry, a value and a network fee of at most the client's maxima; the service fees
    add up to at most the client's maximum fee, in its asset; the sponsorship is exactly the requested amount and at
    most the provider's limit per request; and the owner's authority authorized the quoted action. *)
Theorem verified_execution_bounded (request : RelayExecutionRequest) (profile : RelayServiceProfile)
    (agents : option AgentKeyResolver) (fences : option CurrentWriterFenceResolver) (inspect : TransactionInspector)
    (now authorityAt : Time) (current : bool) :
  verifyRelayExecutionRequestCoreAtAuthorityTime request profile agents fences (Some inspect) now authorityAt current = Ok tt ->
  let asked := qr_Body (QuoteRequest request) in
  let quote := pq_Body (ProviderQuote request) in
  let action := ex_AuthorizedAction request in
  SignedTransactionDigest (SignedTransactionBytes request) = Ok (qr_SignedTransactionDigest asked) /\
  (exists transactionProfile inspected,
     inspect asked transactionProfile (SignedTransactionBytes request) (inspectionPhase request) = Ok inspected /\
     atomic (ValueAtomic inspected) <= atomic (qr_MaximumTransactionValueAtomic asked) /\
     atomic (in_MaximumNetworkFeeAtomic inspected) <= atomic (qr_MaximumNetworkFeeAtomic asked) /\
     in_SourceAccount inspected = SourceAccount asked /\ AuthorizedAgentID inspected = RequesterAgentID asked /\
     in_SourceSequence inspected = SourceSequence asked /\ in_ValidUntilUnix inspected = TransactionValidUntilUnix asked) /\
  feeTotal (FeeLines quote) <= atomic (AmountAtomic (MaximumServiceFee asked)) /\
  (forall line, line ∈ FeeLines quote -> Asset (FeeAmount line) = Asset (MaximumServiceFee asked)) /\
  ReservedSponsorship quote = RequestedSponsorship asked /\
  (forall amount, RequestedSponsorship asked = Some amount -> exists limit, limit ∈ ExposureLimits profile /\
     LimitAsset limit = Asset amount /\ atomic (AmountAtomic amount) <= atomic (MaximumPerRequestAtomic limit)) /\
  ac_StableActionID action = qr_StableActionID asked /\ ac_ExactRequestDigest action = qr_ExactRequestDigest asked /\
  ac_AgentID action = RequesterAgentID asked /\
  exists fields, VerifyAuthorizedActionAtAuthorityTime action fields (UnderlyingActionRequest request) (ex_WriterFence request)
    (AuthorizeFenceKey <$> fences) now authorityAt = Ok tt.
Proof.
  intros H. unfold verifyRelayExecutionRequestCoreAtAuthorityTime in H.
  apply bind_Ok in H as ([] & Hshape & H). apply bind_Ok in H as ([] & Hrequest & H). apply bind_Ok in H as ([] & Hquote & H).
  apply bind_Ok in H as (tp & Htp & H). apply bind_Ok in H as (inspect' & [= <-]%opt_err_Ok & H).
  apply bind_Ok in H as (digest & Hdigest%or_err_Ok & H). apply bind_Ok in H as (? & Hbytes & H).
  apply bind_Ok in H as (inspected & Hinspected & H). apply bind_Ok in H as ([] & Hvalid & H).
  apply bind_Ok in H as (? & Hbinds & H). apply bind_Ok in H as (fields & _ & H). apply bind_Ok in H as ([] & Haction & _).
  cbv zeta. destruct (quote_fees _ _ _ _ _ Hquote) as (Hfees & Hasset & Hsame).
  assert (validateRelayQuoteRequestShape (qr_Body (QuoteRequest request)) = Ok tt) as Hasked.
  { unfold VerifyRelayQuoteRequest in Hrequest. apply bind_Ok in Hrequest as (? & _ & Hrequest).
    apply bind_Ok in Hrequest as ([] & Hs%or_err_Ok & _). exact Hs. }
  apply fail_if_Ok, orb_false_iff in Hbytes as [Hbytes _]. apply negb_false_iff, streq_true in Hbytes as ->.
  apply fail_if_Ok, negb_false_iff in Hbinds. unfold executionBindsAction in Hbinds. rewrite !andb_true_iff in Hbinds. destruct_and!.
  repeat match goal with He : streq _ _ = true |- _ => apply streq_true in He end.
  split_and!; try assumption.
  - exists tp, inspected. split; [|exact (inspection_limits _ _ Hasked Hvalid)]. destruct (inspect _ _ _ _); [|discriminate..]. exact Hinspected.
  - intros amount. apply (request_exposure _ _ _ _ amount Hrequest).
  - exists fields. destruct (VerifyAuthorizedActionAtAuthorityTime _ _ _ _ _ _ _); [|discriminate..]. exact Haction.
Qed.

(** *** The agreement's service obligations *)

Lemma filter_none {X} (P : X -> Prop) `{!forall x, Decision (P x)} (l : list X) : (forall y, y ∈ l -> ~ P y) -> filter P l = [].
Proof.
  induction l as [|y l IH]; intros Hn; [done|]. rewrite filter_cons_False by (apply Hn; left). apply IH. intros z Hz. apply Hn. by right.
Qed.

Lemma filter_unique {X} (P : X -> Prop) `{!forall x, Decision (P x)} (l : list X) (x : X) : NoDup l -> x ∈ l -> P x ->
  (forall y, y ∈ l -> P y -> y = x) -> filter P l = [x].
Proof.
  induction l as [|y l IH]; intros Hd Hx HP Hu; [by apply elem_of_nil in Hx|]. apply NoDup_cons in Hd as [Hy Hd].
  destruct (decide (P y)) as [HPy|HPy].
  - rewrite filter_cons_True by done. assert (y = x) as -> by (apply Hu; [left|done]). f_equal. apply filter_none.
    intros z Hz HPz. assert (z = x) as -> by (apply Hu; [by right|done]). done.
  - rewrite filter_cons_False by done. apply elem_of_cons in Hx as [->|Hx]; [done|]. apply IH; [done..|]. intros z Hz. apply Hu. by right.
Qed.

Lemma obligation_map l : forall m m', foldM addObligation m l = Ok m' ->
  NoDup (ObligationID <$> l) /\ (forall o, o ∈ l -> m !! ObligationID o = None /\ m' !! ObligationID o = Some o) /\
  (forall id o, m' !! id = Some o -> m !! id = Some o \/ (o ∈ l /\ ObligationID o = id)) /\
  (forall id o, m !! id = Some o -> m' !! id = Some o).
Proof.
  induction l as [|o l IH]; intros m m' H; cbn in H.
  - injection H as <-. split_and!; [constructor|intros ? []%elem_of_nil|auto..].
  - apply bind_Ok in H as (m1 & Hm & H). unfold addObligation in Hm. apply bind_Ok in Hm as (? & Hnew & [= <-]).
    apply fail_if_Ok, bool_decide_eq_false in Hnew. rewrite <-eq_None_not_Some in Hnew.
    apply IH in H as (Hd & Hin & Hout & Hkeep). split_and!.
    + cbn. constructor; [|done]. intros (o' & He & Hl)%list_elem_of_fmap. destruct (Hin o' Hl) as [Hno _].
      rewrite <-He, lookup_insert_eq in Hno. done.
    + intros o' [->|Hl]%elem_of_cons; [split; [done|]; apply Hkeep, lookup_insert_eq|].
      destruct (Hin o' Hl) as [Hno Hyes]. split; [|done]. apply lookup_insert_None in Hno. tauto.
    + intros id o' [[[<- ->]|[Hne Hm]]%lookup_insert_Some|[Hl He]]%Hout; [right|by left|right]; (split; [|done]); [left|by right].
    + intros id o' Hm. apply Hkeep. apply lookup_insert_Some. right. split; [|done]. intros <-. congruence.
Qed.

Definition feeObligation (obligations : gmap string AgreementObligation) (feeLines : gmap string FeeLine)
    (client provider binding : string) (id kind : string) : Prop :=
  exists o line amount, default noObligation (obligations !! id) = o /\ ob_Kind o = kind /\ feeLines !! kind = Some line /\
    sameBoundObligation o (Kind line) client provider binding = true /\ ob_Amount o = Some amount /\
    sameAgreementAmount amount (FeeAmount line) = true.

Lemma fee_loop obligations feeLines client provider binding ids : forall s s',
  foldM (addFeeObligation obligations feeLines client provider binding) s ids = Ok s' ->
  exists kinds, Forall2 (feeObligation obligations feeLines client provider binding) ids kinds /\ NoDup kinds /\
    (forall k, k ∈ kinds -> k ∉ seenKinds s) /\ (forall k, k ∈ seenKinds s' <-> k ∈ kinds \/ k ∈ seenKinds s) /\
    (forall id k, expectedKinds s' !! id = Some k -> expectedKinds s !! id = Some k \/ (id, k) ∈ zip ids kinds).
Proof.
  induction ids as [|id ids IH]; intros s s' H; cbn in H.
  - injection H as <-. exists []. split_and!; [constructor..|set_solver|set_solver|auto].
  - apply bind_Ok in H as (s1 & H1 & H). unfold addFeeObligation in H1.
    set (o := default noObligation (obligations !! id)) in *.
    apply bind_Ok in H1 as (line & Hline%opt_err_Ok & H1). apply bind_Ok in H1 as (? & Hseen & H1).
    apply bind_Ok in H1 as (? & Hsame & [= <-]). apply fail_if_Ok, bool_decide_eq_false in Hseen.
    apply fail_if_Ok, orb_false_iff in Hsame as [Hsame Hamount]. apply negb_false_iff in Hsame.
    destruct (ob_Amount o) as [amount|] eqn:Ea; [|done]. apply negb_false_iff in Hamount.
    apply IH in H as (kinds & Hall & Hd & Hnew & Hs & He). cbn in Hnew, Hs, He. exists (ob_Kind o :: kinds). split_and!.
    + constructor; [|done]. exists o, line, amount. done.
    + constructor; [|done]. intros Hk. apply (Hnew _ Hk). set_solver.
    + intros k [->|Hk]%elem_of_cons; [done|]. specialize (Hnew k Hk). set_solver.
    + intros k. rewrite Hs. set_solver.
    + intros i k [[[<- <-]|[Hne Hl]]%lookup_insert_Some|Hz]%He; [right; left|by left|right; by right].
Qed.

Lemma zip_unique {X Y} (l : list X) (k : list Y) a b y : NoDup k -> (a, y) ∈ zip l k -> (b, y) ∈ zip l k -> a = b.
Proof.
  intros Hd [i Ha]%list_elem_of_lookup [j Hb]%list_elem_of_lookup. apply lookup_zip_Some in Ha as [Ha Hya].
  apply lookup_zip_Some in Hb as [Hb Hyb]. assert (i = j) as -> by (by eapply NoDup_lookup). congruence.
Qed.

Lemma fee_line_map lines : NoDup (Kind <$> lines) -> forall line, line ∈ lines -> feeLineMap lines !! Kind line = Some line.
Proof.
  unfold feeLineMap. generalize (∅ : gmap string FeeLine).
  induction lines as [|x lines IH]; intros m Hd line Hin; [by apply elem_of_nil in Hin|].
  cbn in *. apply NoDup_cons in Hd as [Hx Hd]. apply elem_of_cons in Hin as [->|Hin]; [|by apply IH].
  clear IH. assert (forall m : gmap string FeeLine, m !! Kind x = Some x ->
    foldl (fun m line => <[Kind line := line]> m) m lines !! Kind x = Some x) as Hk; [|apply Hk, lookup_insert_eq].
  clear m Hd. induction lines as [|y lines IH]; intros m Hm; [done|]. cbn in *.
  apply IH; [set_solver|]. rewrite lookup_insert_ne; [done|]. set_solver.
Qed.

Lemma fee_line_dom lines k line : feeLineMap lines !! k = Some line -> line ∈ lines /\ Kind line = k.
Proof.
  unfold feeLineMap. assert (forall m : gmap string FeeLine, foldl (fun m line => <[Kind line := line]> m) m lines !! k = Some line ->
    (line ∈ lines /\ Kind line = k) \/ m !! k = Some line) as H; [|by intros [?|?]%H].
  induction lines as [|x lines IH]; intros m; cbn; [by right|].
  intros [[? ?]|[[<- ->]|[_ ?]]%lookup_insert_Some]%IH; [left; split; [by right|done]|left; split; [left|done]|by right].
Qed.

Lemma sorted_nodup (l : list string) : sorted l -> NoDup l.
Proof.
  intros Hs. apply NoDup_alt. intros i j x Hi Hj. destruct (Nat.lt_trichotomy i j) as [Hlt|[?|Hlt]]; [|done|];
    destruct (bytes_lt_irrefl x); by eapply (Hs _ _ _ _ Hlt).
Qed.

Lemma quote_fee_kinds body : validateProviderRelayQuoteShape body = Ok tt ->
  NoDup (Kind <$> FeeLines body) /\
  (forall line, line ∈ FeeLines body -> Kind line = ObligationRelayFee \/ Kind line = ObligationSponsorshipFee).
Proof.
  unfold validateProviderRelayQuoteShape. intros H. apply bind_Ok in H as (? & Hg & H). apply bind_Ok in H as (? & Hl & _).
  apply fail_if_Ok in Hg. rewrite !orb_false_iff, ?negb_false_iff in Hg. destruct_and!. split.
  - match goal with Hf : sortedFeeLines _ = true |- _ => exact (sorted_nodup _ (ascending_sorted _ _ Hf)) end.
  - intros line Hin. apply fail_if_Ok, negb_false_iff in Hl. rewrite forallb_forall in Hl.
    apply list_elem_of_In, Hl in Hin. apply andb_true_iff in Hin as [Hin _].
    unfold one_of in Hin. cbn [existsb] in Hin. rewrite !orb_true_iff, !streq_true in Hin. destruct Hin as [?|[?|[=]]]; auto.
Qed.

Lemma delivery_kinds request obligations client provider binding expected :
  checkDelivery request obligations client provider binding = Ok expected -> forall id k, expected !! id = Some k ->
  (id = RelayObligationID request /\ k = ObligationRelayDelivery) \/
  (id = SponsorshipObligationID request /\ k = ObligationSponsorDelivery).
Proof.
  unfold checkDelivery. intros (relay & Hrelay & H)%bind_Ok.
  assert (forall id k, relay !! id = Some k -> id = RelayObligationID request /\ k = ObligationRelayDelivery) as Hr.
  { intros id k. destruct (nonempty (RelayObligationID request)); [apply bind_Ok in Hrelay as (? & _ & Hrelay)|]; injection Hrelay as <-;
      [|by rewrite lookup_empty]. by intros [<- <-]%lookup_singleton_Some. }
  clear Hrelay. destruct (nonempty (SponsorshipObligationID request)); [apply bind_Ok in H as (? & _ & H)|]; injection H as <-.
  - intros id k [[<- <-]|[_ Hk]]%lookup_insert_Some; [by right|left; by apply Hr].
  - intros id k Hk. left. by apply Hr.
Qed.

Lemma fee_obligation_found obligations feeLines client provider binding id kind :
  feeObligation obligations feeLines client provider binding id kind ->
  exists o line amount, obligations !! id = Some o /\ ob_Kind o = kind /\ feeLines !! kind = Some line /\
    ObligorAgentID o = client /\ BeneficiaryAgentID o = provider /\
    (SubjectContentType o = AgreementBindingContentType /\ Subject o = binding) /\ ob_Amount o = Some amount /\
    sameAgreementAmount amount (FeeAmount line) = true.
Proof.
  intros (o & line & amount & Ho & Hk & Hl & Hb & Ha & Hs). unfold sameBoundObligation in Hb. rewrite !andb_true_iff in Hb.
  destruct Hb as [[[[[Hid _] Hobligor] Hbeneficiary] Htype] Hsubject]. apply streq_true in Hobligor, Hbeneficiary, Htype, Hsubject.
  exists o, line, amount. destruct (obligations !! id) as [o'|]; [cbn in Ho; subst o'; done|]. cbn in Ho. subst o. done.
Qed.

(** The amount of an agreement that an asset amount stands for. *)
Definition atomicAgreementAmount (amount : AssetAmount) : AgreementAmount :=
  {| aa_AssetNamespace := AssetNamespace (Asset amount); aa_AssetIdentifier := AssetIdentifier (Asset amount);
     aa_AmountAtomic := AmountAtomic amount; AmountDecimal := ""; aa_Unit := Unit (Asset amount) |}.

Lemma same_amount_exact left right : sameAgreementAmount left right = true -> left = atomicAgreementAmount right.
Proof.
  unfold sameAgreementAmount, atomicAgreementAmount. rewrite !andb_true_iff, !streq_true. destruct left. cbn.
  intros [[[[-> ->] ->] ->] ->]. reflexivity.
Qed.

(** The agreement is the one the request names, and its terms are the encoding of the
    binding of the request's own quote pair: the digests of both quote documents, the
    service, the parties, the action and its transaction. *)
Record quote_pair_terms (request : RelayExecutionRequest) (agreement : AgentAgreement) (b : RelayAgreementBinding) : Prop := {
  qt_agreement : Agreement.AgreementBodyDigest (ag_Body agreement) = Ok (AgreementBodyDigest request) /\
    ab_ExpiresAtUnix (ag_Body agreement) = AgreementExpiresAtUnix request;
  qt_terms : TermsContentType (ag_Body agreement) = AgreementBindingContentType /\
    marshal_binding b = Some (Terms (ag_Body agreement));
  qt_request : RelayQuoteRequestDigest (qr_Body (QuoteRequest request)) = Ok (bd_QuoteRequestDigest b) /\
    QuoteRequestDigest (pq_Body (ProviderQuote request)) = bd_QuoteRequestDigest b;
  qt_quote : ProviderRelayQuoteDigest (pq_Body (ProviderQuote request)) = Ok (bd_ProviderQuoteDigest b) /\
    bd_ServiceProfileDigest b = ServiceProfileDigest (pq_Body (ProviderQuote request));
  qt_service : bd_Mode b = qr_Mode (qr_Body (QuoteRequest request)) /\
    bd_AssuranceLevel b = qr_AssuranceLevel (qr_Body (QuoteRequest request));
  qt_parties : bd_RequesterAgentID b = RequesterAgentID (qr_Body (QuoteRequest request)) /\
    bd_ProviderAgentID b = qr_ProviderAgentID (qr_Body (QuoteRequest request));
  qt_action : bd_StableActionID b = qr_StableActionID (qr_Body (QuoteRequest request)) /\
    bd_ExactRequestDigest b = qr_ExactRequestDigest (qr_Body (QuoteRequest request)) /\
    bd_SignedTransactionDigest b = qr_SignedTransactionDigest (qr_Body (QuoteRequest request)) }.

Lemma quote_pair_steps request agreement verifier now : VerifyRelayExecutionAgreement request agreement verifier now = Ok tt ->
  exists b, CompileRelayAgreementBinding (QuoteRequest request) (ProviderQuote request) = Ok b /\ quote_pair_terms request agreement b.
Proof.
  unfold VerifyRelayExecutionAgreement. intros H. apply bind_Ok in H as (? & _ & H). apply bind_Ok in H as (digest & Hd%or_err_Ok & H).
  apply bind_Ok in H as (? & Hm & H). apply bind_Ok in H as (b & Hc & H). apply bind_Ok in H as (binding & Hb & H).
  apply bind_Ok in H as (? & Hterms & _). apply fail_if_Ok, orb_false_iff in Hterms as [Htype Hterms].
  apply negb_false_iff, streq_true in Htype, Hterms. apply fail_if_Ok, orb_false_iff in Hm as [Hm He].
  apply negb_false_iff, streq_true in Hm. apply negb_false_iff, Z.eqb_eq in He. subst binding digest.
  unfold RelayAgreementBindingBytes in Hb. apply bind_Ok in Hb as (? & _ & Hb). apply opt_err_Ok in Hb.
  exists b. split; [exact Hc|]. unfold CompileRelayAgreementBinding in Hc. apply bind_Ok in Hc as (requestDigest & Hr & Hc).
  apply bind_Ok in Hc as (quoteDigest & Hq%or_err_Ok & Hc). apply bind_Ok in Hc as (? & Hbind & Hc). injection Hc as <-.
  apply fail_if_Ok, negb_false_iff in Hbind. unfold quoteBindsRequest in Hbind. rewrite !andb_true_iff in Hbind.
  destruct Hbind as [[[[[[[[[Hqd _] _] _] _] _] _] _] _] _]. apply streq_true in Hqd.
  split; cbn; [exact (conj Hd He)|exact (conj Htype Hb)|exact (conj Hr Hqd)|exact (conj Hq eq_refl)|by split..|by split_and!].
Qed.

(** The obligations an agreement check works with. *)
Record service_obligations (request : RelayExecutionRequest) (agreement : AgentAgreement) (binding : string)
    (obligations : gmap string AgreementObligation) (expected : gmap string string) (kinds : list string) : Prop := {
  sv_distinct : NoDup (ObligationID <$> Obligations (ag_Body agreement));
  sv_map : forall id o, obligations !! id = Some o <-> o ∈ Obligations (ag_Body agreement) /\ ObligationID o = id;
  sv_fees : Forall2 (feeObligation obligations (feeLineMap (FeeLines (pq_Body (ProviderQuote request))))
              (RequesterAgentID (qr_Body (QuoteRequest request))) (qr_ProviderAgentID (qr_Body (QuoteRequest request))) binding)
              (FeeObligationIDs request) kinds;
  sv_kinds : NoDup kinds;
  sv_complete : forall line, line ∈ FeeLines (pq_Body (ProviderQuote request)) -> Kind line ∈ kinds;
  sv_expected : forall id k, expected !! id = Some k ->
    (id = RelayObligationID request /\ k = ObligationRelayDelivery) \/
    (id = SponsorshipObligationID request /\ k = ObligationSponsorDelivery) \/ (id, k) ∈ zip (FeeObligationIDs request) kinds;
  sv_named : forall o, o ∈ Obligations (ag_Body agreement) ->
    relayReservedObligationKind (ob_Kind o) = true \/
    (SubjectContentType o = AgreementBindingContentType /\ Subject o = binding) -> expected !! ObligationID o = Some (ob_Kind o) }.

Lemma agreement_steps request agreement verifier now : VerifyRelayExecutionAgreement request agreement verifier now = Ok tt ->
  exists binding obligations expected kinds, Terms (ag_Body agreement) = binding /\
    validateProviderRelayQuoteShape (pq_Body (ProviderQuote request)) = Ok tt /\
    service_obligations request agreement binding obligations expected kinds.
Proof.
  unfold VerifyRelayExecutionAgreement. intros H. apply bind_Ok in H as (? & _ & H). apply bind_Ok in H as (digest & _ & H).
  apply bind_Ok in H as (? & _ & H). apply bind_Ok in H as (compiled & Hc & H). apply bind_Ok in H as (binding & _ & H).
  apply bind_Ok in H as (? & Hterms & H). apply bind_Ok in H as (obligations & Ho & H). apply bind_Ok in H as (delivery & Hd & H).
  apply bind_Ok in H as (service & Hs & H). apply bind_Ok in H as (? & Hsize & H).
  apply fail_if_Ok, orb_false_iff in Hterms as [_ Hterms]. apply negb_false_iff, streq_true in Hterms.
  apply fail_if_Ok, negb_false_iff, Nat.eqb_eq in Hsize. apply fail_if_Ok in H.
  unfold CompileRelayAgreementBinding in Hc. apply bind_Ok in Hc as (? & _ & Hc). apply bind_Ok in Hc as (? & Hq%or_err_Ok & _).
  unfold ProviderRelayQuoteDigest in Hq. apply bind_Ok in Hq as ([] & Hq & _).
  apply obligation_map in Ho as (Hnd & Hin & Hout & _). apply fee_loop in Hs as (kinds & Hall & Hdk & _ & Hseen & He). cbn in Hseen, He.
  exists binding, obligations, (expectedKinds service), kinds. split; [done|]. split; [exact Hq|]. split; [done| |done|done|..].
  - intros id o. split; [intros [Hno|Hok]%Hout; [by rewrite lookup_empty in Hno|done]|]. intros [Hl <-]. by apply Hin.
  - intros line Hl. apply quote_fee_kinds in Hq as [Hnk _]. set (feeLines := feeLineMap (FeeLines (pq_Body (ProviderQuote request)))) in *.
    assert (seenKinds service ≡ dom feeLines) as Heq.
    { apply set_subseteq_size_equiv; [|by rewrite size_dom, Hsize]. intros k [Hk|Hk]%Hseen; [|by apply elem_of_empty in Hk].
      apply list_elem_of_lookup in Hk as [i Hi]. destruct (Forall2_lookup_r _ _ _ _ _ Hall Hi) as (id & _ & o & fl & ? & _ & _ & Hfl & _).
      by apply elem_of_dom_2 in Hfl. }
    assert (Kind line ∈ dom feeLines) as Hdom. { apply elem_of_dom. exists line. by apply fee_line_map. }
    rewrite <-Heq in Hdom. apply Hseen in Hdom as [?|Hno]; [done|by apply elem_of_empty in Hno].
  - intros id k [Hk|Hk]%He; [|by right; right]. apply (delivery_kinds _ _ _ _ _ _ Hd) in Hk as [?|?]; auto.
  - intros o Hl Hserv. assert (strayObligation (expectedKinds service) binding o = false) as Hst.
    { apply not_true_is_false. intros Hst. assert (existsb (strayObligation (expectedKinds service) binding) (Obligations (ag_Body agreement)) = true) as Hx;
        [apply existsb_exists; exists o; split; [by apply list_elem_of_In|done]|]. by rewrite Hx in H. }
    unfold strayObligation in Hst. apply andb_false_iff in Hst as [Hst|Hst]; [exfalso|by apply negb_false_iff, bool_decide_eq_true in Hst].
    apply orb_false_iff in Hst as [Hst1 Hst2]. destruct Hserv as [Hserv|[Hs1 Hs2]]; [by rewrite Hserv in Hst1|].
    apply andb_false_iff in Hst2 as [Hst2|Hst2]; apply streq_false in Hst2; done.
Qed.

(** C17: an agreement that passes the check for an execution carries the quoted service exactly.  It is the agreement
    the request names, by digest and expiry, and its terms are the encoded binding compiled from the request's own quote
    pair: the digests of the quote request and of the provider's quote, which answers that request, their service,
    parties, action and transaction.  Every obligation of a reserved relay kind, and every obligation whose subject is
    that binding, is one the execution request names in its role; and for each quoted fee line the agreement has exactly
    one obligation of that kind, owed by the client to the provider, whose subject is that binding and whose amount is
    exactly the quoted one. *)
Theorem agreement_carries_quoted_service (request : RelayExecutionRequest) (agreement : AgentAgreement)
    (verifier : option AgreementEvidenceVerifier) (now : Time) :
  VerifyRelayExecutionAgreement request agreement verifier now = Ok tt ->
  let asked := qr_Body (QuoteRequest request) in
  let obligations := Obligations (ag_Body agreement) in
  let binding := Terms (ag_Body agreement) in
  (exists b, CompileRelayAgreementBinding (QuoteRequest request) (ProviderQuote request) = Ok b /\
     quote_pair_terms request agreement b) /\
  (forall o, o ∈ obligations ->
     relayReservedObligationKind (ob_Kind o) = true \/
     (SubjectContentType o = AgreementBindingContentType /\ Subject o = binding) ->
     (ob_Kind o = ObligationRelayDelivery /\ ObligationID o = RelayObligationID request) \/
     (ob_Kind o = ObligationSponsorDelivery /\ ObligationID o = SponsorshipObligationID request) \/
     (ObligationID o ∈ FeeObligationIDs request /\ exists line, line ∈ FeeLines (pq_Body (ProviderQuote request)) /\ Kind line = ob_Kind o)) /\
  forall line, line ∈ FeeLines (pq_Body (ProviderQuote request)) ->
    exists o, filter (fun o => ob_Kind o = Kind line) obligations = [o] /\
      ObligorAgentID o = RequesterAgentID asked /\ BeneficiaryAgentID o = qr_ProviderAgentID asked /\
      (SubjectContentType o = AgreementBindingContentType /\ Subject o = binding) /\
      ob_Amount o = Some (atomicAgreementAmount (FeeAmount line)).
Proof.
  intros Hverify. cbv zeta. split; [exact (quote_pair_steps _ _ _ _ Hverify)|]. revert Hverify.
  intros (binding & obligations & expected & kinds & <- & Hquote & [Hnd Hmap Hfees Hdk Hall Hexp Hnamed])%agreement_steps.
  apply quote_fee_kinds in Hquote as [Hlines Hkinds]. split.
  - intros o Hin Hserv. specialize (Hnamed o Hin Hserv). apply Hexp in Hnamed as [[? ?]|[[? ?]|Hz]]; [by auto..|]. right; right.
    apply list_elem_of_lookup in Hz as [i Hz]. apply lookup_zip_Some in Hz as [Hi Hk]. split; [by eapply list_elem_of_lookup_2|].
    destruct (Forall2_lookup_lr _ _ _ _ _ _ Hfees Hi Hk) as (o' & line & ? & _ & _ & Hl & _). exists line. by apply fee_line_dom in Hl.
  - intros line Hin. pose proof (Hall line Hin) as Hk. apply list_elem_of_lookup in Hk as [i Hi].
    destruct (Forall2_lookup_r _ _ _ _ _ Hfees Hi) as (id & Hid & Hfee).
    destruct (fee_obligation_found _ _ _ _ _ _ _ Hfee) as (o & line' & amount & Ho & Hok & Hl & Hobl & Hben & Hsub & Ham & Hsame).
    rewrite (fee_line_map _ Hlines _ Hin) in Hl. injection Hl as <-. apply Hmap in Ho as [Ho <-].
    apply same_amount_exact in Hsame as ->.
    exists o. split; [|done]. apply filter_unique; [by eapply NoDup_fmap_1|done|done|].
    intros y Hy Hyk. assert (relayReservedObligationKind (ob_Kind y) = true) as Hres.
    { rewrite Hyk. destruct (Hkinds line Hin) as [-> | ->]; reflexivity. }
    pose proof (Hnamed y Hy (or_introl Hres)) as Hy'. rewrite Hyk in Hy'. apply Hexp in Hy' as [[_ Hbad]|[[_ Hbad]|Hz]].
    1-2: destruct (Hkinds line Hin) as [He|He]; rewrite He in Hbad; discriminate Hbad.
    assert (ObligationID y = ObligationID o) as Hsid.
    { eapply (zip_unique _ _ _ _ _ Hdk Hz). apply (list_elem_of_lookup_2 _ i), lookup_zip_Some. done. }
    assert (Some y = Some o) as [= ->]; [|done]. rewrite <-(proj2 (Hmap (ObligationID o) o)) by done.
    symmetry. apply Hmap. done.
Qed.
End Guarantees.

(** ** A verified execution *)

Module Sample.
Definition dg (c : ascii) : string := "sha256:" +:+ repeat_byte c 64.
Definition codec : RelayCodec := RelayAdmission.Sample.codec.
Definition bindings : BindingCodec := {| marshal_binding := fun b => Some (bd_StableActionID b) |}.
Definition agreements : AgreementCodec :=
  {| marshal_core := fun _ => Some "core"%string; marshal_policy := fun _ => Some "policy"%string;
     marshal_agreement_body := fun _ => Some "body"%string; marshal_acceptance_body := fun _ => None; marshal_acceptance := fun _ => None;
     unmarshal_acceptance := fun s => if streq s "accepted" then Some Agreement.Sample.fromAlice else None;
     marshal_descriptor := fun d => Some (pd_ProfileURI d) |}.
#[local] Existing Instance codec.
#[local] Existing Instance bindings.
#[local] Existing Instance agreements.

Definition start : Z := 1700000000.
Definition now : Time := UnixTime (start + 100).
Definition network : NetworkDomain := RelayAdmission.Sample.network.
Definition coins : string -> AssetAmount := RelayAdmission.Sample.coins.
Definition finality : FinalityProfile := RelayAdmission.Sample.finality.
Definition endpoint : string := "relay.example".

Definition profile : RelayServiceProfile :=
  {| sp_SchemaVersion := 1; ProfileID := "profile"; Revision := 1; sp_ProviderAgentID := "provider"; NetworkDomains := [network];
     SupportedModes := [ModeRelayExact]; SupportedAssuranceLevels := [AssuranceAutonomousDecentralized];
     TransactionProfiles := [{| tp_ProfileURI := "tos.transaction"; tp_ProfileDigest := dg "0"; MaximumSignedBytes := 1024;
                                InspectableSourceSequence := true; InspectableTransactionExpiry := true |}];
     FinalityProfiles := [finality]; FeeAssets := [RelayAdmission.Sample.coin];
     ExposureLimits := [{| LimitAsset := RelayAdmission.Sample.coin; MaximumPerRequestAtomic := "1000"; MaximumOutstandingAtomic := "5000" |}];
     sp_AdmissionLimits := {| MaximumQuoteReservations := 10; MaximumActiveExecutions := 10; MaximumActivePerRequester := 5;
                              MaximumQuoteRequestsPerWindow := 10; MaximumQuoteRequestsPerRequesterWindow := 5; QuoteRequestWindowSeconds := 60 |};
     sp_MaximumRequestBytes := 65536;
     Endpoints := {| QuoteURL := endpoint; SubmitURL := endpoint; ResolveURL := endpoint; EvidenceURL := endpoint |};
     PolicyRevision := 1; sp_CreatedAtUnix := start - 1000; sp_ExpiresAtUnix := start + 10000 |}.

(** The authorized action behind the transaction. *)
Definition action : AuthorizedAction := Eval vm_compute in
  match Authority.Sample.signed with Ok a => a | _ => RelayAdmission.Sample.action end.
Definition fence : WriterFence := Eval vm_compute in Authority.Sample.fence.
Definition fields : list SemanticFieldValue := Eval vm_compute in
  match ExportSemanticFields "execution.prepare" Authority.Sample.fields with Ok l => l | _ => [] end.

Definition transaction : string := "boc!".
Definition transactionDigest : string := Eval vm_compute in or_empty (SignedTransactionDigest transaction).

Definition asked : RelayQuoteRequestBody :=
  {| qr_SchemaVersion := 1; RequestID := "request"; RequesterAgentID := "agent"; qr_ProviderAgentID := "provider";
     Network := network; qr_Mode := ModeRelayExact; qr_AssuranceLevel := AssuranceAutonomousDecentralized;
     qr_SponsorshipReleaseEvidenceClass := NoReleaseClass; qr_SponsorshipReleaseProfileURI := "";
     qr_SponsorshipReleaseProfileDigest := ""; qr_RelayTerminalEvidenceClass := ValidatorFinality;
     qr_SponsorshipTerminalEvidenceClass := NoEvidenceClass; SourceAccount := "0:source";
     SourceAccountAuthorityDigest := dg "0"; TransactionProfileURI := "tos.transaction"; TransactionProfileDigest := dg "0";
     UnderlyingActionKind := "execution.prepare"; qr_StableActionID := ac_StableActionID action;
     qr_ExactRequestDigest := ac_ExactRequestDigest action; qr_SignedTransactionDigest := transactionDigest;
     qr_SignedTransactionCellHash := RelayAdmission.Sample.cellHash "0"; SignedTransactionSize := 4; TransactionIntentDigest := dg "4";
     SourceSequence := 7; TransactionValidUntilUnix := start + 5000; RequestedSponsorship := None; MaximumServiceFee := coins "5";
     qr_MaximumNetworkFeeAtomic := "10"; qr_MaximumTransactionValueAtomic := "200"; RelayFinalityProfileURI := "tos.finality";
     RelayFinalityProfileDigest := dg "0"; SponsorshipTerminalProfileURI := ""; qr_SponsorshipTerminalProfileDigest := "";
     qr_CreatedAtUnix := start; qr_ExpiresAtUnix := start + 600 |}.

Definition quoted : ProviderRelayQuoteBody :=
  {| pq_SchemaVersion := 1; QuoteID := "quote"; QuoteRequestDigest := or_empty (RelayQuoteRequestDigest asked);
     ServiceProfileDigest := or_empty (RelayServiceProfileDigest profile); pq_ProviderAgentID := "provider"; pq_Mode := ModeRelayExact;
     pq_AssuranceLevel := AssuranceAutonomousDecentralized; pq_SponsorshipReleaseEvidenceClass := NoReleaseClass;
     pq_SponsorshipReleaseProfileURI := ""; pq_SponsorshipReleaseProfileDigest := ""; pq_RelayTerminalEvidenceClass := ValidatorFinality;
     pq_SponsorshipTerminalEvidenceClass := NoEvidenceClass; FeeLines := [{| Kind := ObligationRelayFee; FeeAmount := coins "5" |}];
     ReservedSponsorship := None; pq_MaximumNetworkFeeAtomic := "10"; pq_MaximumTransactionValueAtomic := "200";
     pq_MaximumRequestBytes := 1024; RelayFinalityProfile := Some finality; SponsorshipTerminalProfile := None; StatusEndpoint := endpoint;
     ProviderPolicyRevision := 1; OfferIntentDigest := ""; ValidFromUnix := start; pq_ExpiresAtUnix := start + 500 |}.

Definition public : string := RelayAdmission.Sample.public.
Definition signer : string -> string := RelayAdmission.Sample.Sign.
Definition signedRequest : SignedRelayQuoteRequest :=
  {| qr_Body := asked; qr_PublicKey := key_text public; qr_Signature := signature_text (signer "") |}.
Definition signedQuote : SignedProviderRelayQuote :=
  {| pq_Body := quoted; pq_PublicKey := key_text public; pq_Signature := signature_text (signer "") |}.

Definition inspect : TransactionInspector := fun _ _ _ _ =>
  Ok {| in_NetworkDigest := RelayAdmission.Sample.networkDigest; in_SourceAccount := "0:source";
        in_SourceAccountAuthorityDigest := dg "0"; AuthorizedAgentID := "agent"; ControllerEpoch := 1; in_SourceSequence := 7;
        in_ValidUntilUnix := start + 5000; in_Destination := "0:target"; ValueAtomic := "150"; in_TransactionIntentDigest := dg "4";
        in_SignedTransactionCellHash := RelayAdmission.Sample.cellHash "0"; in_MaximumNetworkFeeAtomic := "9";
        in_MaximumTransactionValueAtomic := "200" |}.
Definition agents : AgentKeyResolver := fun _ _ key _ => fail_if (negb (streq key public)) "untrusted key"%string.
Definition fences : CurrentWriterFenceResolver := {| AuthorizeFenceKey := Authority.Sample.authorize; ConfirmWriterFence := fun _ _ => Ok tt |}.

(** An agreement whose terms are the encoded binding. *)
Definition agreementUntil : Z := start + 3600.
Definition obligation (id kind obligor beneficiary predicate : string) (amount : option AgreementAmount) : AgreementObligation :=
  {| ObligationID := id; ob_Kind := kind; ObligorAgentID := obligor; BeneficiaryAgentID := beneficiary; DependsOnObligationIDs := [];
     SubjectContentType := AgreementBindingContentType; Subject := ac_StableActionID action; AttachmentDigests := []; ob_Amount := amount;
     ob_NotBeforeUnix := 0; ob_DueAtUnix := 0; ob_ExpiresAtUnix := 0; AcceptanceEvidenceRequirements := []; ConfidentialityPolicy := "none";
     CancellationPolicy := "none"; DisputePolicy := "none"; ob_BillingTerms := None;
     ob_SettlementAdapterURI := match amount with Some _ => DirectPaymentAdapterURI | None => "" end;
     SettlementParameters := match amount with Some _ => "direct" | None => "" end;
     AuthorizationPredicateIDs := [predicate]; ob_RequiredExtensions := []; ob_OptionalExtensions := [] |}.
Definition fee : AgreementAmount :=
  {| aa_AssetNamespace := "native"; aa_AssetIdentifier := "tos"; aa_AmountAtomic := "5"; AmountDecimal := ""; aa_Unit := "nano" |}.

Definition predicate (id name obligation : string) : AgreementAuthorizationPredicate :=
  {| PredicateID := id; AuthoritySubject := Agreement.Sample.agent name; RoleScope := []; ObligationIDs := [obligation];
     EvidenceProfileURI := EvidenceProfileAgentSignature; EvidenceProfileVersion := 1; EvidenceProfileDigest := Agreement.Sample.agentDigest;
     EvidenceTargetProjectionDigest := ""; pr_ValidFromUnix := 0; pr_ExpiresAtUnix := agreementUntil;
     pr_RequiredExtensions := []; pr_OptionalExtensions := [] |}.

Definition draft : AgentAgreementBody :=
  {| ab_SchemaVersion := 1; AgreementID := "agreement"; Version := 1; PredecessorAgreementDigest := ""; NetworkContext := "tos-main";
     Participants := [{| pt_AgentID := "agent"; Roles := ["client"%string] |}; {| pt_AgentID := "provider"; Roles := ["relay"%string] |}];
     ReferencedIntents := []; TermsContentType := AgreementBindingContentType; Terms := ac_StableActionID action; ab_AttachmentDigests := [];
     Obligations := [obligation "fee" ObligationRelayFee "agent" "provider" "pa" (Some fee);
                     obligation "relay" ObligationRelayDelivery "provider" "agent" "pb" None];
     AuthorizationPredicates := [predicate "pa" "agent" "fee"; predicate "pb" "provider" "relay"];
     ab_RequiredExtensions := []; ab_OptionalExtensions := ∅; ab_ValidFromUnix := start; ab_ExpiresAtUnix := agreementUntil |}.
Definition terms : AgentAgreementBody := match PrepareAgreementTargets draft with Ok body => body | _ => draft end.

Definition evidence (id name : string) : AgreementAuthorizationEvidence :=
  {| ev_AgreementID := "agreement"; ev_AgreementVersion := 1; ev_AgreementBodyDigest := or_empty (Agreement.AgreementBodyDigest terms);
     ev_AuthoritySubject := Agreement.Sample.agent name; ev_PredicateIDs := [id]; ev_EvidenceProfileURI := EvidenceProfileAgentSignature;
     ev_EvidenceProfileVersion := 1; ev_EvidenceProfileDigest := Agreement.Sample.agentDigest;
     ev_EvidenceTargetProjectionDigests := EvidenceTargetProjectionDigest <$> filter (fun p => PredicateID p = id) (AuthorizationPredicates terms);
     EvidenceContentType := AgreementAcceptanceContentType; ev_Evidence := "accepted" |}.
Definition agreement : AgentAgreement :=
  {| ag_Body := terms; AuthorizationEvidence := [evidence "pa" "agent"; evidence "pb" "provider"] |}.
Definition verifier : AgreementEvidenceVerifier := fun e _ => fail_if (negb (streq (ev_Evidence e) "accepted")) "not accepted"%string.

Definition request : RelayExecutionRequest :=
  {| ex_SchemaVersion := 1; QuoteRequest := signedRequest; ProviderQuote := signedQuote; SignedTransactionBytes := transaction;
     AgreementBodyDigest := or_empty (Agreement.AgreementBodyDigest terms); AgreementExpiresAtUnix := agreementUntil;
     RelayObligationID := "relay"; SponsorshipObligationID := ""; FeeObligationIDs := ["fee"%string]; UnderlyingActionRequest := "request";
     SemanticFields := fields; ex_AuthorizedAction := action; ex_WriterFence := fence; AdmissionReceipt := RelayAdmission.Sample.empty;
     ex_CreatedAtUnix := start + 50; ex_ExpiresAtUnix := start + 400 |}.

Definition verified : Prop :=
  verifyRelayExecutionRequestCoreAtAuthorityTime request profile (Some agents) (Some fences) (Some inspect) now now true = Ok tt.

Lemma verified_execution_bounded_witness :
  verified /\ SignedTransactionDigest (SignedTransactionBytes request) = Ok (qr_SignedTransactionDigest (qr_Body (QuoteRequest request))) /\
  feeTotal (FeeLines (pq_Body (ProviderQuote request))) <= atomic (AmountAtomic (MaximumServiceFee (qr_Body (QuoteRequest request)))).
Proof.
  assert (verified) as H by (vm_compute; reflexivity). split; [exact H|].
  destruct (verified_execution_bounded request profile (Some agents) (Some fences) inspect now now true H) as (Hd & _ & Hf & _).
  exact (conj Hd Hf).
Defined.

Lemma agreement_carries_quoted_service_witness :
  VerifyRelayExecutionAgreement request agreement (Some verifier) now = Ok tt /\
  (exists b, marshal_binding b = Some (Terms (ag_Body agreement)) /\
     RelayQuoteRequestDigest (qr_Body (QuoteRequest request)) = Ok (bd_QuoteRequestDigest b)) /\
  (forall line, line ∈ FeeLines (pq_Body (ProviderQuote request)) ->
    exists o, filter (fun o => ob_Kind o = Kind line) (Obligations (ag_Body agreement)) = [o] /\
      ObligorAgentID o = RequesterAgentID (qr_Body (QuoteRequest request)) /\
      BeneficiaryAgentID o = qr_ProviderAgentID (qr_Body (QuoteRequest request)) /\
      (SubjectContentType o = AgreementBindingContentType /\ Subject o = Terms (ag_Body agreement)) /\
      ob_Amount o = Some (atomicAgreementAmount (FeeAmount line))).
Proof.
  assert (VerifyRelayExecutionAgreement request agreement (Some verifier) now = Ok tt) as H by (vm_compute; reflexivity). split; [exact H|].
  destruct (agreement_carries_quoted_service request agreement (Some verifier) now H) as ((b & _ & [_ [_ Hb] [Hr _] _ _ _ _]) & _ & Hfees).
  split; [exists b; exact (conj Hb Hr)|exact Hfees].
Defined.
End Sample.
