(* ===== verification/AgentRelay.v ===== *)
(** * The relay provider's journal (src/pkg/agentrelay/state.go)

    [MemoryJournal]: quote reservations behind signed quotes, with their sponsorship
    exposure, the action records admitted from them, and the operations that carry a
    record to its terminal state.  An operation returns the journal it leaves and its
    result; an error comes with the record the code returns beside it.  The journal's
    mutex makes each operation one step.  A [time.Time] is its Unix second, an int64. *)

From S2P Require Import Prelude Text Codec Semantic Authority Amounts Billing Payment RelayTypes RelayAbsence RelayAdmission.

Definition ErrRelayConflict : string := "relay action identity conflicts with the frozen request".
Definition ErrRelayInvalidState : string := "relay state transition is invalid".
Definition ErrRelayUnknown : string := "relay action is unknown".
Definition ErrRelayExposure : string := "relay provider sponsorship exposure is exhausted".
Definition ErrRelayAdmissionLimit : string := "relay provider admission limit is exhausted".
Definition ErrRelayQuoteUnreserved : string := "relay provider quote is not reserved".
Definition ErrRelayQuoteConsumed : string := "relay provider quote reservation was already consumed".

(** ** Data *)

(** The fields of a record that no operation changes. *)
Record RecordIdentity := {
  ProviderAgentID : string; RecordNetworkDigest : string; StableActionID : string; RecordExactRequestDigest : string;
  RelayExecutionDigest : string; ProviderQuoteDigest : string; AdmissionReceiptDigest : string;
  SignedTransactionDigest : string; CreatedAtUnix : Z; request : RelayExecutionRequest }.

(** The sponsorship payment a record stands for. *)
Record PaymentIdentity := {
  SponsorshipAgreementPaymentRequestDigest : string; SponsorshipStableActionID : string;
  SponsorshipExactRequestDigest : string; SponsorshipValidUntilUnix : Z }.

(** The protected token of a payment that may have been attempted. *)
Record RecoveryToken := {
  SponsorshipAttempted : bool; SponsorshipRecoveryTokenDigest : string; sponsorshipRecoveryToken : string }.

Record AbsenceProof := {
  SponsorshipAbsenceObservations : list RelayAbsenceObservationReference;
  TransactionAbsenceObservations : list RelayAbsenceObservationReference;
  SponsorshipAbsenceObservationDigests : list string; TransactionAbsenceObservationDigests : list string;
  AbsenceProofBundleDigest : string; AbsenceProofBundle : string; SupersededAbsenceProofBundleDigest : string }.

(** [Record]; the name is a keyword here. *)
Record RelayRecord := {
  identity : RecordIdentity;
  State : ActionResolutionState; StateRevision : Z; TransactionReference : string;
  payment : PaymentIdentity; recovery : RecoveryToken;
  SponsorshipTransferReference : string;
  SponsorshipCreditObservation : option RelaySponsorshipCreditObservation;
  SupersededSponsorshipCreditObservationDigest : string;
  SponsorshipTransactionEvidence : option RelaySponsorshipTransactionEvidence;
  absence : AbsenceProof;
  SponsorshipExposureReleaseEvidenceRefs : list string; SponsorshipExposureReleasedAtUnix : Z;
  EvidenceRefs : list string; RecordTerminalOutcome : TerminalOutcome; UpdatedAtUnix : Z }.

Definition record_request (r : RelayRecord) : RelayQuoteRequestBody := qr_Body (QuoteRequest (request (identity r))).
Definition record_quote (r : RelayRecord) : ProviderRelayQuoteBody := pq_Body (ProviderQuote (request (identity r))).
Definition record_mode (r : RelayRecord) : Mode := qr_Mode (record_request r).

Definition noPayment : PaymentIdentity :=
  {| SponsorshipAgreementPaymentRequestDigest := ""; SponsorshipStableActionID := "";
     SponsorshipExactRequestDigest := ""; SponsorshipValidUntilUnix := 0 |}.
Definition noToken : RecoveryToken :=
  {| SponsorshipAttempted := false; SponsorshipRecoveryTokenDigest := ""; sponsorshipRecoveryToken := "" |}.
Definition noAbsence : AbsenceProof :=
  {| SponsorshipAbsenceObservations := []; TransactionAbsenceObservations := [];
     SponsorshipAbsenceObservationDigests := []; TransactionAbsenceObservationDigests := [];
     AbsenceProofBundleDigest := ""; AbsenceProofBundle := ""; SupersededAbsenceProofBundleDigest := "" |}.

Record quoteReservation := {
  requestDigest : string; quoteDigest : string; reservedQuote : SignedProviderRelayQuote;
  reservedSponsorship : option AssetAmount; expiresAtUnix : Z; consumed : bool; exposureReleased : bool;
  stableActionID : string; executionDigest : string; admissionLimits : AdmissionLimits }.

Record MemoryJournal := {
  journalProvider : string; records : gmap string RelayRecord; quoteReservations : gmap string quoteReservation;
  quoteDigestBindings : gmap string string; quoteAdmissions : gmap string (list Z) }.

Definition NewMemoryJournal : MemoryJournal :=
  {| journalProvider := ""; records := ∅; quoteReservations := ∅; quoteDigestBindings := ∅; quoteAdmissions := ∅ |}.

(** What a call returns: a value, or an error with the record returned beside it. *)
Abbreviation reply := (result (option RelayRecord * string)).

(** ** Keys *)

Definition relayRecordKey (stableActionID : string) : string := stableActionID.
Definition relayQuoteReservationKey (providerAgentID requestDigest : string) : string :=
  providerAgentID +:+ bytes [0%N] +:+ requestDigest.

(** ** Updates of the journal *)

Definition with_provider (p : string) (j : MemoryJournal) : MemoryJournal :=
  {| journalProvider := p; records := records j; quoteReservations := quoteReservations j;
     quoteDigestBindings := quoteDigestBindings j; quoteAdmissions := quoteAdmissions j |}.
Definition with_records (m : gmap string RelayRecord) (j : MemoryJournal) : MemoryJournal :=
  {| journalProvider := journalProvider j; records := m; quoteReservations := quoteReservations j;
     quoteDigestBindings := quoteDigestBindings j; quoteAdmissions := quoteAdmissions j |}.
Definition with_reservations (m : gmap string quoteReservation) (b : gmap string string) (j : MemoryJournal) : MemoryJournal :=
  {| journalProvider := journalProvider j; records := records j; quoteReservations := m;
     quoteDigestBindings := b; quoteAdmissions := quoteAdmissions j |}.
Definition with_admissions (m : gmap string (list Z)) (j : MemoryJournal) : MemoryJournal :=
  {| journalProvider := journalProvider j; records := records j; quoteReservations := quoteReservations j;
     quoteDigestBindings := quoteDigestBindings j; quoteAdmissions := m |}.

(** The journal and the error, if any. *)
Definition bindProviderLocked (j : MemoryJournal) (providerAgentID : string) : MemoryJournal * option string :=
  let j' := if streq (journalProvider j) "" then with_provider providerAgentID j else j in
  (j', if streq (journalProvider j') providerAgentID then None
       else Some "relay journal is scoped to a different provider"%string).

Definition deleteQuoteReservationLocked (j : MemoryJournal) (key : string) (reservation : quoteReservation) : MemoryJournal :=
  with_reservations (delete key (quoteReservations j))
    (if streq (default ""%string (quoteDigestBindings j !! quoteDigest reservation)) key
     then delete (quoteDigest reservation) (quoteDigestBindings j) else quoteDigestBindings j) j.

Definition expiredUnconsumed (nowUnix : Z) (reservation : quoteReservation) : bool :=
  negb (consumed reservation) && (expiresAtUnix reservation <=? nowUnix).

(** One turn of the loop that drops expired reservations. *)
Definition releaseExpired (nowUnix : Z) (j : MemoryJournal) (entry : string * quoteReservation) : MemoryJournal :=
  if expiredUnconsumed nowUnix entry.2 then deleteQuoteReservationLocked j entry.1 entry.2 else j.
Definition releaseExpiredUnconsumedLocked (j : MemoryJournal) (nowUnix : Z) : MemoryJournal :=
  foldl (releaseExpired nowUnix) j (map_to_list (quoteReservations j)).

(** ** Limits *)

(** The reservation counts against the asset's exposure. *)
Definition exposes (asset : AssetIdentity) (reservation : quoteReservation) : bool :=
  negb (exposureReleased reservation) &&
  match reservedSponsorship reservation with Some amount => sameAsset (Asset amount) asset | None => false end.

Definition addExposure (asset : AssetIdentity) (total : string) (reservation : quoteReservation) : result string string :=
  match reservedSponsorship reservation with
  | Some amount => if exposes asset reservation then addAtomic total (AmountAtomic amount) else Ok total
  | None => Ok total
  end.

Definition canReserveExposureLocked (j : MemoryJournal) (profile : RelayServiceProfile) (requested : AssetAmount)
  : result string bool :=
  match findExposureLimit (ExposureLimits profile) (Asset requested) with
  | None => Ok false
  | Some limit =>
      if 0 <? compareAtomic (AmountAtomic requested) (MaximumPerRequestAtomic limit) then Ok false
      else
        total ← foldM (addExposure (Asset requested)) "0"%string (map_to_list (quoteReservations j)).*2;
        total ← addAtomic total (AmountAtomic requested);
        Ok (compareAtomic total (MaximumOutstandingAtomic limit) <=? 0)
  end.

Definition indicator (b : bool) : Z := if b then 1 else 0.

Definition activeQuoteReservationsLocked (j : MemoryJournal) : Z :=
  map_sum (fun r => indicator (negb (consumed r))) (quoteReservations j).

Definition closedState (s : ActionResolutionState) : bool :=
  match s with ActionTerminal | ActionRejected | ActionConflict => true | _ => false end.

Definition activeFor (requesterAgentID : string) (r : RelayRecord) : bool :=
  negb (closedState (State r)) &&
  (streq requesterAgentID "" || streq (RequesterAgentID (record_request r)) requesterAgentID).
Definition activeExecutionsLocked (j : MemoryJournal) (requesterAgentID : string) : Z :=
  map_sum (fun r => indicator (activeFor requesterAgentID r)) (records j).

(** The times after the cutoff; the list is read from its front. *)
Fixpoint pruneRelayAdmissionTimes (admissions : list Z) (cutoff : Z) : list Z :=
  match admissions with
  | first :: rest => if first <=? cutoff then pruneRelayAdmissionTimes rest cutoff else first :: rest
  | [] => []
  end.

Definition globalBucket : string := bytes [0%N] +:+ "provider-global".

Definition admitQuoteRateLocked (j : MemoryJournal) (requesterAgentID : string) (limits : AdmissionLimits) (nowUnix : Z)
  : MemoryJournal * bool :=
  let window := QuoteRequestWindowSeconds limits in
  let cutoff := if window <? nowUnix then nowUnix - window else 0 in
  let m := quoteAdmissions j in
  let global := pruneRelayAdmissionTimes (default [] (m !! globalBucket)) cutoff in
  let requester := pruneRelayAdmissionTimes (default [] (m !! requesterAgentID)) cutoff in
  let m := <[requesterAgentID := requester]> (<[globalBucket := global]> m) in
  if (MaximumQuoteRequestsPerWindow limits <=? zlen global) ||
     (MaximumQuoteRequestsPerRequesterWindow limits <=? zlen requester)
  then (with_admissions m j, false)
  else (with_admissions (<[requesterAgentID := requester ++ [nowUnix]]> (<[globalBucket := global ++ [nowUnix]]> m)) j, true).

(** ** Whether a record may move *)

Definition validRelayTransition (from to : ActionResolutionState) : bool :=
  match from with
  | ActionPrepared => same to ActionSubmitted || same to ActionRejected || same to ActionConflict || same to ActionTerminal
  | ActionSubmitted => same to ActionAccepted || same to ActionRejected || same to ActionConflict || same to ActionTerminal
  | ActionAccepted => same to ActionSubmitted || same to ActionTerminal
  | _ => false
  end.

Definition openState (s : ActionResolutionState) : bool :=
  same s ActionPrepared || same s ActionSubmitted || same s ActionAccepted.

Definition sponsorshipOnlyOutcome (o : TerminalOutcome) : bool :=
  same o OutcomeFinalizedSponsorshipOnly || same o OutcomeCorroboratedSponsorshipOnly.
Definition relayOnlyOutcome (o : TerminalOutcome) : bool :=
  same o OutcomeFinalizedRelayOnly || same o OutcomeCorroboratedRelayOnly.

Definition validRelayModeState (mode : Mode) (state : ActionResolutionState) (outcome : TerminalOutcome)
    (sponsorshipReference : string) (sponsorshipObserved sponsorshipAbsent transactionAbsent : bool) : bool :=
  let sponsored := negb (streq sponsorshipReference "") in
  let sponsorshipPresent := sponsored || sponsorshipObserved in
  let refused := same state ActionRejected || same state ActionConflict in
  let moving := same state ActionSubmitted || same state ActionAccepted in
  match mode with
  | ModeRelayExact =>
      negb sponsorshipPresent && negb sponsorshipAbsent && negb transactionAbsent && negb (sponsorshipOnlyOutcome outcome)
  | ModeSponsorOnly =>
      if transactionAbsent then false
      else if sponsorshipObserved then
        (same state ActionPrepared || same state ActionSubmitted) && same outcome NoOutcome && negb sponsorshipAbsent
      else if moving || (sponsorshipPresent && refused) then false
      else negb (same state ActionTerminal) ||
           (sponsored && negb sponsorshipAbsent && sponsorshipOnlyOutcome outcome) ||
           (negb sponsored && sponsorshipAbsent && safeTerminalAbsenceOutcome outcome)
  | ModeSponsorAndRelay =>
      if sponsorshipPresent && refused then false
      else if moving then
        (sponsorshipPresent && negb sponsorshipAbsent && negb transactionAbsent) ||
        (negb sponsorshipPresent && sponsorshipAbsent && negb transactionAbsent && same outcome NoOutcome)
      else if same state ActionTerminal then
        (sponsored && negb sponsorshipAbsent && negb transactionAbsent &&
         (same outcome OutcomeFinalizedSuccess || sponsorshipOnlyOutcome outcome || same outcome OutcomeCorroboratedSuccess)) ||
        (sponsored && negb sponsorshipAbsent && transactionAbsent && sponsorshipOnlyOutcome outcome) ||
        (negb sponsorshipPresent && sponsorshipAbsent && negb transactionAbsent && relayOnlyOutcome outcome) ||
        (negb sponsorshipPresent && sponsorshipAbsent && transactionAbsent && safeTerminalAbsenceOutcome outcome)
      else if same state ActionPrepared && sponsorshipAbsent && negb transactionAbsent && negb sponsorshipPresent &&
              same outcome NoOutcome then true
      else negb sponsorshipAbsent && negb transactionAbsent
  | ModeOther _ => false
  end.

Definition validRelayAbsenceStateShape (mode : Mode) (state : ActionResolutionState) (outcome : TerminalOutcome)
    (sponsorshipReference transactionReference : string) (sponsorshipAbsent transactionAbsent : bool) : bool :=
  let unsponsored := streq sponsorshipReference "" in
  if negb sponsorshipAbsent && negb transactionAbsent then false
  else if negb (same state ActionTerminal) then
    same mode ModeSponsorAndRelay && sponsorshipAbsent && negb transactionAbsent && unsponsored &&
    same outcome NoOutcome && openState state
  else match mode with
  | ModeSponsorOnly =>
      sponsorshipAbsent && negb transactionAbsent && unsponsored && streq transactionReference "" &&
      safeTerminalAbsenceOutcome outcome
  | ModeSponsorAndRelay =>
      if sponsorshipAbsent && transactionAbsent then
        unsponsored && streq transactionReference "" && safeTerminalAbsenceOutcome outcome
      else if sponsorshipAbsent then unsponsored && negb (streq transactionReference "") && relayOnlyOutcome outcome
      else negb unsponsored && streq transactionReference sponsorshipReference && sponsorshipOnlyOutcome outcome
  | _ => false
  end.

Definition finalizedNegative (o : TerminalOutcome) : bool :=
  same o OutcomeFinalizedExpired || same o OutcomeFinalizedAbsent || same o OutcomeFinalizedInvalidated ||
  same o OutcomeFinalizedRelayOnly || same o OutcomeFinalizedSponsorshipOnly.
Definition corroboratedNegative (o : TerminalOutcome) : bool :=
  same o OutcomeCorroboratedExpired || same o OutcomeCorroboratedAbsent || same o OutcomeCorroboratedInvalidated ||
  same o OutcomeCorroboratedRelayOnly || same o OutcomeCorroboratedSponsorshipOnly.

Definition validatorProfile (profile : option FinalityProfile) : bool :=
  match profile with Some p => same (fp_TerminalEvidenceClass p) ValidatorFinality | None => false end.

Definition validRelayAbsenceOutcomeAssurance (request : RelayExecutionRequest) (outcome : TerminalOutcome)
    (sponsorshipAbsent transactionAbsent : bool) (sponsorshipEvidence : option RelaySponsorshipTransactionEvidence) : bool :=
  let body := qr_Body (QuoteRequest request) in
  let quote := pq_Body (ProviderQuote request) in
  if same outcome NoOutcome then same (qr_Mode body) ModeSponsorAndRelay && sponsorshipAbsent && negb transactionAbsent
  else
    let sponsorshipValidator :=
      if sponsorshipAbsent then validatorProfile (SponsorshipTerminalProfile quote)
      else match sponsorshipEvidence with
           | Some e => same (te_TerminalEvidenceClass e) ValidatorFinality && ValidatorAuthenticatedPortableProof e
           | None => false
           end in
    let allValidator :=
      if same (qr_Mode body) ModeSponsorAndRelay && (transactionAbsent || relayOnlyOutcome outcome)
      then sponsorshipValidator && validatorProfile (RelayFinalityProfile quote) else sponsorshipValidator in
    (allValidator && finalizedNegative outcome) ||
    (negb allValidator && corroboratedNegative outcome &&
     negb (same (qr_AssuranceLevel body) AssuranceAutonomousDecentralized)).

(** [mergeEvidenceRefs] of service.go. *)
Definition mergeEvidenceRefs (left right : list string) : list string :=
  sort_strings (elements (list_to_set left ∪ list_to_set right : gset string)).

Definition sameObservedSponsorshipTransaction (o : RelaySponsorshipCreditObservation)
    (e : RelaySponsorshipTransactionEvidence) : bool :=
  streq (co_NetworkDigest o) (te_NetworkDigest e) && streq (co_PaymentDigest o) (te_PaymentDigest e) &&
  streq (co_StableActionID o) (te_StableActionID e) && streq (co_ExactRequestDigest o) (te_ExactRequestDigest e) &&
  streq (co_SourceAccount o) (te_SourceAccount e) && (co_SourceSequence o =? te_SourceSequence e) &&
  (co_ValidUntilUnix o =? te_ValidUntilUnix e) && streq (co_TopUpDigest o) (te_TopUpDigest e) &&
  streq (co_TopUpCellHash o) (te_TopUpCellHash e) && streq (co_CommitmentCellHash o) (te_CommitmentCellHash e) &&
  streq (co_DestinationAccount o) (te_DestinationAccount e) && sameAmount (co_Amount o) (te_Amount e) &&
  streq (co_SubmittedTransactionHash o) (SubmittedTransactionHash e) &&
  streq (co_SourceExecutionReference o) (te_SourceExecutionReference e) &&
  equalStrings (co_DestinationCreditReferences o) (te_DestinationCreditReferences e).

Definition sameObservedSponsorshipCredit (l r : RelaySponsorshipCreditObservation) : bool :=
  streq (co_NetworkDigest l) (co_NetworkDigest r) && streq (co_PaymentDigest l) (co_PaymentDigest r) &&
  streq (co_StableActionID l) (co_StableActionID r) && streq (co_ExactRequestDigest l) (co_ExactRequestDigest r) &&
  streq (co_SourceAccount l) (co_SourceAccount r) && (co_SourceSequence l =? co_SourceSequence r) &&
  (co_ValidUntilUnix l =? co_ValidUntilUnix r) && streq (co_TopUpDigest l) (co_TopUpDigest r) &&
  streq (co_TopUpCellHash l) (co_TopUpCellHash r) && streq (co_CommitmentCellHash l) (co_CommitmentCellHash r) &&
  streq (co_DestinationAccount l) (co_DestinationAccount r) && sameAmount (co_Amount l) (co_Amount r) &&
  streq (co_SubmittedTransactionHash l) (co_SubmittedTransactionHash r) &&
  streq (co_SourceExecutionReference l) (co_SourceExecutionReference r) &&
  equalStrings (co_DestinationCreditReferences l) (co_DestinationCreditReferences r) &&
  streq (co_EvidenceProfileURI l) (co_EvidenceProfileURI r) && streq (co_EvidenceProfileDigest l) (co_EvidenceProfileDigest r).

(** [int64(v)] of a uint64. *)
Definition to_int64 (v : Z) : Z := if v <? 2 ^ 63 then v else v - two64.

Definition recoveryHandle (r : RelayRecord) : SponsorshipRecoveryHandle :=
  {| AgreementPaymentRequestDigestOf := SponsorshipAgreementPaymentRequestDigest (payment r);
     HandleStableActionID := SponsorshipStableActionID (payment r);
     HandleExactRequestDigest := SponsorshipExactRequestDigest (payment r);
     HandleValidUntilUnix := SponsorshipValidUntilUnix (payment r);
     OpaqueToken := sponsorshipRecoveryToken (recovery r) |}.

Section Journal.
Context `{C : RelayCodec} `{AC : AbsenceCodec}.

Definition validSponsorshipAbsenceRecord (r : RelayRecord) : bool :=
  match SponsorshipTerminalProfile (record_quote r) with
  | None => false
  | Some sponsorshipProfile =>
      let transactionProfile := default sponsorshipProfile (RelayFinalityProfile (record_quote r)) in
      let p := absence r in
      let sponsorship := SponsorshipAbsenceObservations p in
      let transaction := TransactionAbsenceObservations p in
      let sponsorshipDigests := relayAbsenceObservationReferenceDigests sponsorship in
      let transactionDigests := relayAbsenceObservationReferenceDigests transaction in
      let handle := {| AgreementPaymentRequestDigestOf := ""; HandleStableActionID := SponsorshipStableActionID (payment r);
                       HandleExactRequestDigest := SponsorshipExactRequestDigest (payment r);
                       HandleValidUntilUnix := SponsorshipValidUntilUnix (payment r); OpaqueToken := "" |} in
      let merged := mergeSortedDigestSets sponsorshipDigests transactionDigests in
      let hasSponsorshipAbsence := negb (zlen sponsorship =? 0) in
      let hasTransactionAbsence := negb (zlen transaction =? 0) in
      validRelayAbsenceStateShape (record_mode r) (State r) (RecordTerminalOutcome r) (SponsorshipTransferReference r)
        (TransactionReference r) hasSponsorshipAbsence hasTransactionAbsence &&
      validSponsorshipIdentity (SponsorshipStableActionID (payment r)) (SponsorshipExactRequestDigest (payment r)) &&
      match relayAbsenceContextForRequest (request (identity r)) handle (RecordTerminalOutcome r)
              (to_int64 (UpdatedAtUnix r)) with
      | Ok context =>
          match validateRelayAbsenceObservationComponents sponsorship transaction context with
          | Ok validated => equalStrings validated merged
          | _ => false
          end
      | _ => false
      end &&
      is_ok (validateRelayAbsenceProofBundleForBody sponsorship transaction (AbsenceProofBundleDigest p)
               (AbsenceProofBundle p)) &&
      equalStrings (SponsorshipAbsenceObservationDigests p) sponsorshipDigests &&
      equalStrings (TransactionAbsenceObservationDigests p) transactionDigests &&
      (negb hasSponsorshipAbsence || sortedRequiredDigests sponsorshipDigests (MinimumObservers sponsorshipProfile)) &&
      (negb hasTransactionAbsence || sortedRequiredDigests transactionDigests (MinimumObservers transactionProfile)) &&
      digestSetsDisjoint sponsorshipDigests transactionDigests && sortedOptionalDigests merged &&
      digestSetContainsAll (EvidenceRefs r) merged &&
      validRelayAbsenceOutcomeAssurance (request (identity r)) (RecordTerminalOutcome r) hasSponsorshipAbsence
        hasTransactionAbsence (SponsorshipTransactionEvidence r)
  end.

Definition sponsorshipRecoveryTokenDigest (token : string) : result string string :=
  fail_if ((slen token =? 0) || (MaxSignedTransactionBytes <? slen token)) "sponsorship recovery token is invalid"%string;;
  ExactRequestDigest token.

(** ** Quotes *)

Definition fails {A} (j : MemoryJournal) (e : string) : MemoryJournal * reply A := (j, Err (None, e)).

(** The proposal answers the request and the profile, and has not expired. *)
Definition proposalMatches (profile : RelayServiceProfile) (body : RelayQuoteRequestBody) (quote : ProviderRelayQuoteBody)
    (requestDigest profileDigest : string) (nowUnix : Z) : bool :=
  streq (qr_ProviderAgentID body) (sp_ProviderAgentID profile) &&
  streq (pq_ProviderAgentID quote) (sp_ProviderAgentID profile) && streq (QuoteRequestDigest quote) requestDigest &&
  streq (ServiceProfileDigest quote) profileDigest && negb (pq_ExpiresAtUnix quote <=? nowUnix) &&
  match RequestedSponsorship body, ReservedSponsorship quote with
  | None, None => true
  | Some requested, Some reserved => sameAmount requested reserved
  | _, _ => false
  end.

Definition newReservation (profile : RelayServiceProfile) (proposal : SignedProviderRelayQuote)
    (requestDigest quoteDigest : string) : quoteReservation :=
  {| requestDigest := requestDigest; quoteDigest := quoteDigest; reservedQuote := proposal;
     reservedSponsorship := ReservedSponsorship (pq_Body proposal); expiresAtUnix := pq_ExpiresAtUnix (pq_Body proposal);
     consumed := false; exposureReleased := false; stableActionID := ""; executionDigest := "";
     admissionLimits := sp_AdmissionLimits profile |}.

(** From the first use of the journal on. *)
Definition reserveLocked (j : MemoryJournal) (profile : RelayServiceProfile) (requester requestDigest quoteDigest : string)
    (proposal : SignedProviderRelayQuote) (nowUnix : Z) : MemoryJournal * reply (SignedProviderRelayQuote * bool) :=
  let key := relayQuoteReservationKey (sp_ProviderAgentID profile) requestDigest in
  let '(j, bound) := bindProviderLocked j (sp_ProviderAgentID profile) in
  match bound with
  | Some e => fails j e
  | None =>
      let j := releaseExpiredUnconsumedLocked j nowUnix in
      match quoteReservations j !! key with
      | Some existing =>
          if nowUnix <? expiresAtUnix existing then (j, Ok (reservedQuote existing, false)) else fails j ErrRelayQuoteConsumed
      | None =>
          if match quoteDigestBindings j !! quoteDigest with Some bound => negb (streq bound key) | None => false end
          then fails j ErrRelayConflict
          else if MaximumQuoteReservations (sp_AdmissionLimits profile) <=? activeQuoteReservationsLocked j
          then fails j ErrRelayAdmissionLimit
          else
            match match ReservedSponsorship (pq_Body proposal) with
                  | Some amount => canReserveExposureLocked j profile amount
                  | None => Ok true
                  end with
            | Panic why => (j, Panic why)
            | Err e => fails j e
            | Ok false => fails j ErrRelayExposure
            | Ok true =>
                let '(j, admitted) := admitQuoteRateLocked j requester (sp_AdmissionLimits profile) nowUnix in
                if negb admitted then fails j ErrRelayAdmissionLimit
                else
                  (with_reservations
                     (<[key := newReservation profile proposal requestDigest quoteDigest]> (quoteReservations j))
                     (<[quoteDigest := key]> (quoteDigestBindings j)) j,
                   Ok (proposal, true))
            end
      end
  end.

Definition ReserveQuote (j : MemoryJournal) (profile : RelayServiceProfile) (request : SignedRelayQuoteRequest)
    (proposal : SignedProviderRelayQuote) (now : Z) : MemoryJournal * reply (SignedProviderRelayQuote * bool) :=
  match
    requestDigest ← RelayQuoteRequestDigest (qr_Body request);
    quoteDigest ← ProviderRelayQuoteDigest (pq_Body proposal);
    profileDigest ← RelayServiceProfileDigest profile;
    fail_if (now <? 0) ErrRelayInvalidState;;
    fail_if (negb (proposalMatches profile (qr_Body request) (pq_Body proposal) requestDigest profileDigest now))
      ErrRelayConflict;;
    Ok (requestDigest, quoteDigest)
  with
  | Ok (requestDigest, quoteDigest) =>
      reserveLocked j profile (RequesterAgentID (qr_Body request)) requestDigest quoteDigest proposal now
  | Err e => fails j e
  | Panic why => (j, Panic why)
  end.

(** ** Admission *)

Definition NewPreparedRecord (request : RelayExecutionRequest) (now : Z) : result string RelayRecord :=
  VerifyRelaySideEffectAdmissionReceipt (AdmissionReceipt request) request now;;
  executionDigest ← RelayExecutionRequestDigest request;
  networkDigest ← NetworkDigest (Network (qr_Body (QuoteRequest request)));
  quoteDigest ← ProviderRelayQuoteDigest (pq_Body (ProviderQuote request));
  receipt ← RelaySideEffectAdmissionReceiptDigest (AdmissionReceipt request);
  Ok {| identity :=
          {| ProviderAgentID := pq_ProviderAgentID (pq_Body (ProviderQuote request)); RecordNetworkDigest := networkDigest;
             StableActionID := ActionStableActionID request; RecordExactRequestDigest := ActionExactRequestDigest request;
             RelayExecutionDigest := executionDigest; ProviderQuoteDigest := quoteDigest;
             AdmissionReceiptDigest := receipt;
             SignedTransactionDigest := qr_SignedTransactionDigest (qr_Body (QuoteRequest request));
             CreatedAtUnix := wrap64 now; request := request |};
        State := ActionPrepared; StateRevision := 1; TransactionReference := ""; payment := noPayment;
        recovery := noToken; SponsorshipTransferReference := ""; SponsorshipCreditObservation := None;
        SupersededSponsorshipCreditObservationDigest := ""; SponsorshipTransactionEvidence := None;
        absence := noAbsence; SponsorshipExposureReleaseEvidenceRefs := []; SponsorshipExposureReleasedAtUnix := 0;
        EvidenceRefs := []; RecordTerminalOutcome := NoOutcome; UpdatedAtUnix := wrap64 now |}.

(** The record already stands for exactly this request. *)
Definition sameAdmission (existing : RecordIdentity) (request : RelayExecutionRequest) (executionDigest receipt : string)
  : bool :=
  streq (RecordExactRequestDigest existing) (ActionExactRequestDigest request) &&
  streq (RelayExecutionDigest existing) executionDigest && streq (AdmissionReceiptDigest existing) receipt &&
  streq (SignedTransactionDigest existing) (qr_SignedTransactionDigest (qr_Body (QuoteRequest request))).

Definition consume (stable execution : string) (r : quoteReservation) : quoteReservation :=
  {| requestDigest := requestDigest r; quoteDigest := quoteDigest r; reservedQuote := reservedQuote r;
     reservedSponsorship := reservedSponsorship r; expiresAtUnix := expiresAtUnix r; consumed := true;
     exposureReleased := exposureReleased r; stableActionID := stable; executionDigest := execution;
     admissionLimits := admissionLimits r |}.

(** The first admission of an action from its reservation. *)
Definition admitNew (j : MemoryJournal) (request : RelayExecutionRequest) (reservationKey quote execution : string) (now : Z)
  : MemoryJournal * reply (RelayRecord * bool) :=
  match VerifyRelaySideEffectAdmissionReceipt (AdmissionReceipt request) request now with
  | Err e => fails j e
  | Panic why => (j, Panic why)
  | Ok _ =>
  match quoteReservations j !! reservationKey with
  | None => fails j ErrRelayQuoteUnreserved
  | Some reservation =>
      let limits := admissionLimits reservation in
      if negb (streq (quoteDigest reservation) quote) ||
         negb (streq (pq_PublicKey (reservedQuote reservation)) (pq_PublicKey (ProviderQuote request))) ||
         negb (streq (pq_Signature (reservedQuote reservation)) (pq_Signature (ProviderQuote request)))
      then fails j ErrRelayConflict
      else if expiresAtUnix reservation <=? now then
        fails (if consumed reservation then j else deleteQuoteReservationLocked j reservationKey reservation)
          ErrRelayQuoteUnreserved
      else if consumed reservation then fails j ErrRelayQuoteConsumed
      else if (MaximumActiveExecutions limits =? 0) || (MaximumActiveExecutions limits <=? activeExecutionsLocked j "") ||
              (MaximumActivePerRequester limits <=?
                 activeExecutionsLocked j (RequesterAgentID (qr_Body (QuoteRequest request))))
      then fails j ErrRelayAdmissionLimit
      else match NewPreparedRecord request now with
      | Ok record =>
          let stable := ActionStableActionID request in
          (with_reservations (<[reservationKey := consume stable execution reservation]> (quoteReservations j))
             (quoteDigestBindings j) (with_records (<[relayRecordKey stable := record]> (records j)) j),
           Ok (record, true))
      | Err e => fails j e
      | Panic why => (j, Panic why)
      end
  end
  end.

Definition Admit (j : MemoryJournal) (request : RelayExecutionRequest) (now : Z) : MemoryJournal * reply (RelayRecord * bool) :=
  match
    fail_if (now <? 0) ErrRelayInvalidState;;
    execution ← RelayExecutionRequestDigest request;
    quote ← ProviderRelayQuoteDigest (pq_Body (ProviderQuote request));
    receipt ← RelaySideEffectAdmissionReceiptDigest (AdmissionReceipt request);
    requestDigest ← RelayQuoteRequestDigest (qr_Body (QuoteRequest request));
    Ok (execution, quote, receipt, requestDigest)
  with
  | Ok (execution, quote, receipt, requestDigest) =>
      let provider := pq_ProviderAgentID (pq_Body (ProviderQuote request)) in
      let '(j, bound) := bindProviderLocked j provider in
      match bound with
      | Some e => fails j e
      | None =>
          match records j !! relayRecordKey (ActionStableActionID request) with
          | Some existing =>
              if sameAdmission (identity existing) request execution receipt then (j, Ok (existing, false))
              else (j, Err (Some existing, ErrRelayConflict))
          | None => admitNew j request (relayQuoteReservationKey provider requestDigest) quote execution now
          end
      end
  | Err e => fails j e
  | Panic why => (j, Panic why)
  end.

Definition Resolve (j : MemoryJournal) (stableActionID exactRequestDigest : string) : reply RelayRecord :=
  if negb (digestPattern stableActionID) || negb (digestPattern exactRequestDigest) then Err (None, ErrRelayUnknown)
  else match records j !! relayRecordKey stableActionID with
  | None => Err (None, ErrRelayUnknown)
  | Some record =>
      if streq (RecordExactRequestDigest (identity record)) exactRequestDigest then Ok record
      else Err (Some record, ErrRelayConflict)
  end.

(** ** Operations on one record

    What an operation does with the record it found: an exact retry changes
    nothing; otherwise the record is written, and the exposure of its reservation
    may be released. *)
Inductive edit :=
  | Replay
  | Write (r : RelayRecord) (release : bool).

Definition releaseExposure (r : quoteReservation) : quoteReservation :=
  {| requestDigest := requestDigest r; quoteDigest := quoteDigest r; reservedQuote := reservedQuote r;
     reservedSponsorship := reservedSponsorship r; expiresAtUnix := expiresAtUnix r; consumed := consumed r;
     exposureReleased := true; stableActionID := stableActionID r; executionDigest := executionDigest r;
     admissionLimits := admissionLimits r |}.

Definition releaseRecordExposureLocked (j : MemoryJournal) (record : RelayRecord) : MemoryJournal :=
  match RelayQuoteRequestDigest (record_request record) with
  | Ok requestDigest =>
      let key := relayQuoteReservationKey (ProviderAgentID (identity record)) requestDigest in
      match quoteReservations j !! key with
      | None => j
      | Some reservation =>
          if negb (consumed reservation) || negb (streq (stableActionID reservation) (StableActionID (identity record))) ||
             negb (streq (executionDigest reservation) (RelayExecutionDigest (identity record))) then j
          else if negb (streq (SponsorshipTransferReference record) "") &&
                  (zlen (SponsorshipExposureReleaseEvidenceRefs record) =? 0) then j
          else with_reservations (<[key := releaseExposure reservation]> (quoteReservations j)) (quoteDigestBindings j) j
      end
  | _ => j
  end.

Definition onRecord (j : MemoryJournal) (stableActionID exactRequestDigest : string)
    (f : RelayRecord -> result string edit) : MemoryJournal * reply RelayRecord :=
  match records j !! relayRecordKey stableActionID with
  | None => fails j ErrRelayUnknown
  | Some record =>
      if negb (streq (RecordExactRequestDigest (identity record)) exactRequestDigest)
      then (j, Err (Some record, ErrRelayConflict))
      else match f record with
      | Ok Replay => (j, Ok record)
      | Ok (Write record' release) =>
          let j' := with_records (<[relayRecordKey stableActionID := record']> (records j)) j in
          (if release then releaseRecordExposureLocked j' record' else j', Ok record')
      | Err e => (j, Err (Some record, e))
      | Panic why => (j, Panic why)
      end
  end.

(** The common start of an operation: its own arguments are checked first. *)
Definition guarded (invalid : bool) (j : MemoryJournal) (k : MemoryJournal * reply RelayRecord) : MemoryJournal * reply RelayRecord :=
  if invalid then fails j ErrRelayInvalidState else k.

(** *** BeginSponsorship *)

(** [validSponsorshipIdentityPair]: whether there is an identity, and whether it is valid. *)
Definition validSponsorshipIdentityPair (stable exact : string) : bool * bool :=
  if streq stable "" && streq exact "" then (false, true) else (true, validSponsorshipIdentity stable exact).

Definition sameHandle (r : RelayRecord) (h : SponsorshipRecoveryHandle) (digest : string) : bool :=
  streq (SponsorshipAgreementPaymentRequestDigest (payment r)) (AgreementPaymentRequestDigestOf h) &&
  streq (SponsorshipStableActionID (payment r)) (HandleStableActionID h) &&
  streq (SponsorshipExactRequestDigest (payment r)) (HandleExactRequestDigest h) &&
  (SponsorshipValidUntilUnix (payment r) =? HandleValidUntilUnix h) &&
  streq (SponsorshipRecoveryTokenDigest (recovery r)) digest && streq (sponsorshipRecoveryToken (recovery r)) (OpaqueToken h).

Definition bump (r : RelayRecord) : Z := wrap64 (StateRevision r + 1).

Definition attempted (r : RelayRecord) (h : SponsorshipRecoveryHandle) (digest : string) (at_ : Z) : RelayRecord :=
  {| identity := identity r; State := State r; StateRevision := bump r; TransactionReference := TransactionReference r;
     payment := {| SponsorshipAgreementPaymentRequestDigest := AgreementPaymentRequestDigestOf h;
                   SponsorshipStableActionID := HandleStableActionID h;
                   SponsorshipExactRequestDigest := HandleExactRequestDigest h;
                   SponsorshipValidUntilUnix := HandleValidUntilUnix h |};
     recovery := {| SponsorshipAttempted := true; SponsorshipRecoveryTokenDigest := digest;
                    sponsorshipRecoveryToken := OpaqueToken h |};
     SponsorshipTransferReference := SponsorshipTransferReference r;
     SponsorshipCreditObservation := SponsorshipCreditObservation r;
     SupersededSponsorshipCreditObservationDigest := SupersededSponsorshipCreditObservationDigest r;
     SponsorshipTransactionEvidence := SponsorshipTransactionEvidence r; absence := absence r;
     SponsorshipExposureReleaseEvidenceRefs := SponsorshipExposureReleaseEvidenceRefs r;
     SponsorshipExposureReleasedAtUnix := SponsorshipExposureReleasedAtUnix r; EvidenceRefs := EvidenceRefs r;
     RecordTerminalOutcome := RecordTerminalOutcome r; UpdatedAtUnix := wrap64 at_ |}.

Definition beginEdit (expectedRevision : Z) (h : SponsorshipRecoveryHandle) (digest : string) (at_ : Z) (r : RelayRecord)
  : result string edit :=
  let p := absence r in
  fail_if (negb (same (State r) ActionPrepared) || same (record_mode r) ModeRelayExact ||
           negb (streq (SponsorshipTransferReference r) "") || negb (zlen (SponsorshipAbsenceObservations p) =? 0) ||
           negb (zlen (TransactionAbsenceObservations p) =? 0) || negb (streq (AbsenceProofBundleDigest p) "") ||
           negb (slen (AbsenceProofBundle p) =? 0) ||
           (ex_ExpiresAtUnix (request (identity r)) <? HandleValidUntilUnix h)) ErrRelayInvalidState;;
  profile ← opt_err (SponsorshipTerminalProfile (record_quote r)) ErrRelayInvalidState;
  fail_if (negb (hasStrictRemainingWindow at_ (HandleValidUntilUnix h)
                   (MinimumRelayInclusionMarginSeconds + MaximumResolutionSeconds profile))) ErrRelayInvalidState;;
  if SponsorshipAttempted (recovery r) then fail_if (negb (sameHandle r h digest)) ErrRelayConflict;; Ok Replay
  else fail_if (negb (StateRevision r =? expectedRevision)) ErrRelayInvalidState;; Ok (Write (attempted r h digest at_) false).

Definition BeginSponsorship (j : MemoryJournal) (stable exact : string) (expectedRevision : Z)
    (h : SponsorshipRecoveryHandle) (at_ : Z) : MemoryJournal * reply RelayRecord :=
  let digest := sponsorshipRecoveryTokenDigest (OpaqueToken h) in
  let '(hasIdentity, validIdentity) := validSponsorshipIdentityPair (HandleStableActionID h) (HandleExactRequestDigest h) in
  guarded ((expectedRevision =? 0) || negb (is_ok digest) || negb hasIdentity || negb validIdentity ||
           negb (digestPattern (AgreementPaymentRequestDigestOf h)) || (at_ <? 0) || (HandleValidUntilUnix h <=? at_)) j
    (onRecord j stable exact (beginEdit expectedRevision h (or_empty digest) at_)).

(** *** RecordSponsorshipObservation *)

Definition observed (r : RelayRecord) (o : RelaySponsorshipCreditObservation) (at_ : Z) : RelayRecord :=
  {| identity := identity r; State := State r; StateRevision := bump r; TransactionReference := TransactionReference r;
     payment := payment r; recovery := recovery r; SponsorshipTransferReference := SponsorshipTransferReference r;
     SponsorshipCreditObservation := Some o;
     SupersededSponsorshipCreditObservationDigest := SupersededSponsorshipCreditObservationDigest r;
     SponsorshipTransactionEvidence := SponsorshipTransactionEvidence r; absence := absence r;
     SponsorshipExposureReleaseEvidenceRefs := SponsorshipExposureReleaseEvidenceRefs r;
     SponsorshipExposureReleasedAtUnix := SponsorshipExposureReleasedAtUnix r; EvidenceRefs := EvidenceRefs r;
     RecordTerminalOutcome := RecordTerminalOutcome r; UpdatedAtUnix := wrap64 at_ |}.

(** The observation or evidence names the payment the record stands for. *)
Definition namesPayment (r : RelayRecord) (paymentDigest stable exact : string) (validUntil : Z) : bool :=
  SponsorshipAttempted (recovery r) &&
  validSponsorshipIdentity (SponsorshipStableActionID (payment r)) (SponsorshipExactRequestDigest (payment r)) &&
  streq paymentDigest (SponsorshipAgreementPaymentRequestDigest (payment r)) &&
  streq stable (SponsorshipStableActionID (payment r)) && streq exact (SponsorshipExactRequestDigest (payment r)) &&
  (validUntil =? SponsorshipValidUntilUnix (payment r)).

Definition observeEdit (expectedRevision : Z) (o : RelaySponsorshipCreditObservation) (digest : string) (at_ : Z)
    (r : RelayRecord) : result string edit :=
  fail_if (same (record_mode r) ModeRelayExact ||
           same (qr_AssuranceLevel (record_request r)) AssuranceAutonomousDecentralized || negb (openState (State r)) ||
           negb (streq (SponsorshipTransferReference r) "")) ErrRelayInvalidState;;
  match SponsorshipCreditObservation r with
  | Some existing =>
      match RelaySponsorshipCreditObservationDigest existing with
      | Ok existingDigest =>
          if streq existingDigest digest then Ok Replay
          else
            fail_if (negb (sameObservedSponsorshipCredit existing o) || (co_ObservedAtUnix o <? co_ObservedAtUnix existing) ||
                     (ObservedCheckpointSequence o <? ObservedCheckpointSequence existing) ||
                     negb (StateRevision r =? expectedRevision)) ErrRelayConflict;;
            Ok (Write (observed r o at_) false)
      | _ => Err ErrRelayConflict
      end
  | None =>
      fail_if (negb (namesPayment r (co_PaymentDigest o) (co_StableActionID o) (co_ExactRequestDigest o) (co_ValidUntilUnix o)))
        ErrRelayInvalidState;;
      fail_if (negb (StateRevision r =? expectedRevision)) ErrRelayInvalidState;;
      Ok (Write (observed r o at_) false)
  end.

Definition RecordSponsorshipObservation (j : MemoryJournal) (stable exact : string) (expectedRevision : Z)
    (o : RelaySponsorshipCreditObservation) (at_ : Z) : MemoryJournal * reply RelayRecord :=
  match RelaySponsorshipCreditObservationDigest o with
  | Ok digest => guarded (expectedRevision =? 0) j (onRecord j stable exact (observeEdit expectedRevision o digest at_))
  | _ => fails j ErrRelayInvalidState
  end.

(** *** RecordSponsorship *)

Definition transferred (r : RelayRecord) (e : RelaySponsorshipTransactionEvidence) (at_ : Z) : RelayRecord :=
  {| identity := identity r; State := State r; StateRevision := bump r; TransactionReference := TransactionReference r;
     payment := payment r; recovery := if same (record_mode r) ModeSponsorAndRelay then recovery r else noToken;
     SponsorshipTransferReference := SubmittedTransactionHash e; SponsorshipCreditObservation := None;
     SupersededSponsorshipCreditObservationDigest := SupersededSponsorshipCreditObservationDigest r;
     SponsorshipTransactionEvidence := Some e; absence := absence r;
     SponsorshipExposureReleaseEvidenceRefs := SponsorshipExposureReleaseEvidenceRefs r;
     SponsorshipExposureReleasedAtUnix := SponsorshipExposureReleasedAtUnix r; EvidenceRefs := te_ObservationDigests e;
     RecordTerminalOutcome := RecordTerminalOutcome r; UpdatedAtUnix := wrap64 at_ |}.

Definition transferEdit (expectedRevision : Z) (e : RelaySponsorshipTransactionEvidence) (digest : string) (at_ : Z)
    (r : RelayRecord) : result string edit :=
  fail_if (same (record_mode r) ModeRelayExact || negb (openState (State r))) ErrRelayInvalidState;;
  match SponsorshipTransactionEvidence r with
  | Some existing =>
      match RelaySponsorshipTransactionEvidenceDigest existing with
      | Ok existingDigest => fail_if (negb (streq existingDigest digest)) ErrRelayConflict;; Ok Replay
      | _ => Err ErrRelayConflict
      end
  | None =>
      fail_if (negb (namesPayment r (te_PaymentDigest e) (te_StableActionID e) (te_ExactRequestDigest e) (te_ValidUntilUnix e)) ||
               match SponsorshipCreditObservation r with
               | Some o => negb (sameObservedSponsorshipTransaction o e)
               | None => false
               end) ErrRelayInvalidState;;
      fail_if (negb (StateRevision r =? expectedRevision)) ErrRelayInvalidState;;
      Ok (Write (transferred r e at_) false)
  end.

Definition RecordSponsorship (j : MemoryJournal) (stable exact : string) (expectedRevision : Z)
    (e : RelaySponsorshipTransactionEvidence) (at_ : Z) : MemoryJournal * reply RelayRecord :=
  match RelaySponsorshipTransactionEvidenceDigest e with
  | Ok digest => guarded (expectedRevision =? 0) j (onRecord j stable exact (transferEdit expectedRevision e digest at_))
  | _ => fails j ErrRelayInvalidState
  end.

(** *** RecordSponsorshipAbsence *)

(** The arguments of an absence report. *)
Record AbsenceReport := {
  reportOutcome : TerminalOutcome; reportSponsorship : list RelayAbsenceObservationReference;
  reportTransaction : list RelayAbsenceObservationReference; reportBundleDigest : string; reportBundle : string }.

Definition hasSponsorshipAbsence (a : AbsenceReport) : bool := negb (zlen (reportSponsorship a) =? 0).
Definition hasTransactionAbsence (a : AbsenceReport) : bool := negb (zlen (reportTransaction a) =? 0).

Definition exactReplay (r : RelayRecord) (a : AbsenceReport) : bool :=
  let p := absence r in
  same (RecordTerminalOutcome r) (reportOutcome a) &&
  equalStrings (SponsorshipAbsenceObservationDigests p) (relayAbsenceObservationReferenceDigests (reportSponsorship a)) &&
  equalStrings (TransactionAbsenceObservationDigests p) (relayAbsenceObservationReferenceDigests (reportTransaction a)) &&
  streq (AbsenceProofBundleDigest p) (reportBundleDigest a) && streq (AbsenceProofBundle p) (reportBundle a).

(** A pending sponsorship component becomes a dual absence, with the same references. *)
Definition promotesToDual (r : RelayRecord) (a : AbsenceReport) : bool :=
  let p := absence r in
  same (record_mode r) ModeSponsorAndRelay && negb (same (State r) ActionTerminal) &&
  same (RecordTerminalOutcome r) NoOutcome && negb (zlen (SponsorshipAbsenceObservations p) =? 0) &&
  (zlen (TransactionAbsenceObservations p) =? 0) && hasTransactionAbsence a &&
  equalStrings (SponsorshipAbsenceObservationDigests p) (relayAbsenceObservationReferenceDigests (reportSponsorship a)) &&
  safeTerminalAbsenceOutcome (reportOutcome a).

Definition absenceScope (r : RelayRecord) (a : AbsenceReport) (promoting : bool) : bool :=
  let mode := record_mode r in
  let s := hasSponsorshipAbsence a in
  let t := hasTransactionAbsence a in
  let unsponsored := streq (SponsorshipTransferReference r) "" in
  let attempted := SponsorshipAttempted (recovery r) in
  let safe := safeTerminalAbsenceOutcome (reportOutcome a) in
  (same mode ModeSponsorOnly && s && negb t && unsponsored && attempted && safe) ||
  (same mode ModeSponsorAndRelay && s && t && unsponsored && attempted && safe) ||
  (same mode ModeSponsorAndRelay && s && negb t && unsponsored && attempted && same (reportOutcome a) NoOutcome) ||
  (same mode ModeSponsorAndRelay && negb s && t && negb unsponsored && attempted &&
   match SponsorshipTransactionEvidence r with Some _ => true | None => false end && sponsorshipOnlyOutcome (reportOutcome a)) ||
  (promoting && s && t && unsponsored && safe).

(** The record after the report: [observation] and [superseded] are what is left of
    a credit observation. *)
Definition absent (r : RelayRecord) (a : AbsenceReport) (promoting : bool) (merged : list string)
    (observation : option RelaySponsorshipCreditObservation) (superseded : string) (at_ : Z) : RelayRecord :=
  let mode := record_mode r in
  let pending := same mode ModeSponsorAndRelay && hasSponsorshipAbsence a && negb (hasTransactionAbsence a) &&
                 same (reportOutcome a) NoOutcome in
  let terminal := same mode ModeSponsorOnly || hasTransactionAbsence a in
  {| identity := identity r; State := if terminal then ActionTerminal else State r; StateRevision := bump r;
     TransactionReference := if terminal then SponsorshipTransferReference r else TransactionReference r;
     payment := payment r;
     recovery := if terminal || (hasSponsorshipAbsence a && negb pending) then noToken else recovery r;
     SponsorshipTransferReference := SponsorshipTransferReference r; SponsorshipCreditObservation := observation;
     SupersededSponsorshipCreditObservationDigest := superseded;
     SponsorshipTransactionEvidence := SponsorshipTransactionEvidence r;
     absence :=
       {| SponsorshipAbsenceObservations := reportSponsorship a; TransactionAbsenceObservations := reportTransaction a;
          SponsorshipAbsenceObservationDigests := relayAbsenceObservationReferenceDigests (reportSponsorship a);
          TransactionAbsenceObservationDigests := relayAbsenceObservationReferenceDigests (reportTransaction a);
          AbsenceProofBundleDigest := reportBundleDigest a; AbsenceProofBundle := reportBundle a;
          SupersededAbsenceProofBundleDigest :=
            if promoting then AbsenceProofBundleDigest (absence r) else SupersededAbsenceProofBundleDigest (absence r) |};
     SponsorshipExposureReleaseEvidenceRefs := SponsorshipExposureReleaseEvidenceRefs r;
     SponsorshipExposureReleasedAtUnix := SponsorshipExposureReleasedAtUnix r;
     EvidenceRefs := mergeEvidenceRefs (EvidenceRefs r) merged; RecordTerminalOutcome := reportOutcome a;
     UpdatedAtUnix := wrap64 at_ |}.

(** A valid absence proof is already recorded. *)
Definition absenceRecorded (r : RelayRecord) : bool :=
  negb (zlen (SponsorshipAbsenceObservations (absence r)) + zlen (TransactionAbsenceObservations (absence r)) =? 0) &&
  validSponsorshipAbsenceRecord r.

Definition checkAbsence (expectedRevision : Z) (a : AbsenceReport) (at_ : Z) (r : RelayRecord) (promoting : bool)
  : result string edit :=
  context ← or_err (relayAbsenceContextForRequest (request (identity r)) (recoveryHandle r) (reportOutcome a) at_)
    ErrRelayInvalidState;
  merged ← or_err (validateRelayAbsenceObservationComponents (reportSponsorship a) (reportTransaction a) context)
    ErrRelayInvalidState;
  or_err (validateRelayAbsenceProofBundleForBody (reportSponsorship a) (reportTransaction a) (reportBundleDigest a)
            (reportBundle a)) ErrRelayInvalidState;;
  fail_if (negb (openState (State r)) || negb (absenceScope r a promoting) ||
           negb (validSponsorshipIdentity (SponsorshipStableActionID (payment r)) (SponsorshipExactRequestDigest (payment r))) ||
           negb (StateRevision r =? expectedRevision) || negb (sortedOptionalDigests merged) ||
           negb (validRelayAbsenceOutcomeAssurance (request (identity r)) (reportOutcome a) (hasSponsorshipAbsence a)
                   (hasTransactionAbsence a) (SponsorshipTransactionEvidence r))) ErrRelayInvalidState;;
  let terminal := same (record_mode r) ModeSponsorOnly || hasTransactionAbsence a in
  match SponsorshipCreditObservation r with
  | Some o =>
      if hasSponsorshipAbsence a then
        digest ← or_err (RelaySponsorshipCreditObservationDigest o) ErrRelayInvalidState;
        Ok (Write (absent r a promoting merged None digest at_) terminal)
      else Ok (Write (absent r a promoting merged (Some o) (SupersededSponsorshipCreditObservationDigest r) at_) terminal)
  | None => Ok (Write (absent r a promoting merged None (SupersededSponsorshipCreditObservationDigest r) at_) terminal)
  end.

Definition absenceEdit (expectedRevision : Z) (a : AbsenceReport) (at_ : Z) (r : RelayRecord) : result string edit :=
  if absenceRecorded r then
    if exactReplay r a then Ok Replay
    else fail_if (negb (promotesToDual r a)) ErrRelayConflict;; checkAbsence expectedRevision a at_ r true
  else checkAbsence expectedRevision a at_ r false.

Definition RecordSponsorshipAbsence (j : MemoryJournal) (stable exact : string) (expectedRevision : Z) (a : AbsenceReport)
    (at_ : Z) : MemoryJournal * reply RelayRecord :=
  guarded ((expectedRevision =? 0) || (negb (same (reportOutcome a) NoOutcome) && negb (validOutcome (reportOutcome a)))) j
    (onRecord j stable exact (absenceEdit expectedRevision a at_)).

(** *** ReleaseSponsorshipExposure *)

Definition settled (r : RelayRecord) (refs : list string) (at_ : Z) : RelayRecord :=
  {| identity := identity r; State := State r; StateRevision := bump r; TransactionReference := TransactionReference r;
     payment := payment r; recovery := recovery r; SponsorshipTransferReference := SponsorshipTransferReference r;
     SponsorshipCreditObservation := SponsorshipCreditObservation r;
     SupersededSponsorshipCreditObservationDigest := SupersededSponsorshipCreditObservationDigest r;
     SponsorshipTransactionEvidence := SponsorshipTransactionEvidence r; absence := absence r;
     SponsorshipExposureReleaseEvidenceRefs := refs; SponsorshipExposureReleasedAtUnix := wrap64 at_;
     EvidenceRefs := EvidenceRefs r; RecordTerminalOutcome := RecordTerminalOutcome r; UpdatedAtUnix := wrap64 at_ |}.

Definition settleEdit (expectedRevision : Z) (refs : list string) (at_ : Z) (r : RelayRecord) : result string edit :=
  if 0 <? zlen (SponsorshipExposureReleaseEvidenceRefs r) then
    fail_if (negb (equalStrings (SponsorshipExposureReleaseEvidenceRefs r) refs)) ErrRelayConflict;; Ok Replay
  else
    fail_if (negb (StateRevision r =? expectedRevision) || negb (same (State r) ActionTerminal) ||
             streq (SponsorshipTransferReference r) "") ErrRelayInvalidState;;
    Ok (Write (settled r refs at_) true).

Definition ReleaseSponsorshipExposure (j : MemoryJournal) (stable exact : string) (expectedRevision : Z)
    (settlementEvidenceRefs : list string) (at_ : Z) : MemoryJournal * reply RelayRecord :=
  guarded ((expectedRevision =? 0) || (zlen settlementEvidenceRefs =? 0) || negb (sortedOptionalDigests settlementEvidenceRefs)) j
    (onRecord j stable exact (settleEdit expectedRevision settlementEvidenceRefs at_)).

(** *** Transition *)

Definition moved (r : RelayRecord) (target : ActionResolutionState) (reference : string) (refs : list string)
    (o : TerminalOutcome) (at_ : Z) : RelayRecord :=
  {| identity := identity r; State := target; StateRevision := bump r; TransactionReference := reference;
     payment := payment r; recovery := if same target ActionTerminal then noToken else recovery r;
     SponsorshipTransferReference := SponsorshipTransferReference r;
     SponsorshipCreditObservation := SponsorshipCreditObservation r;
     SupersededSponsorshipCreditObservationDigest := SupersededSponsorshipCreditObservationDigest r;
     SponsorshipTransactionEvidence := SponsorshipTransactionEvidence r; absence := absence r;
     SponsorshipExposureReleaseEvidenceRefs := SponsorshipExposureReleaseEvidenceRefs r;
     SponsorshipExposureReleasedAtUnix := SponsorshipExposureReleasedAtUnix r; EvidenceRefs := refs;
     RecordTerminalOutcome := o; UpdatedAtUnix := wrap64 at_ |}.

(** While a payment may be in flight, only these moves are allowed. *)
Definition attemptAllows (r : RelayRecord) (target : ActionResolutionState) (o : TerminalOutcome) : bool :=
  let observedCredit := match SponsorshipCreditObservation r with Some _ => true | None => false end in
  let pendingSponsorshipAbsence :=
    negb (zlen (SponsorshipAbsenceObservations (absence r)) =? 0) && (zlen (TransactionAbsenceObservations (absence r)) =? 0) &&
    streq (SponsorshipTransferReference r) "" && negb observedCredit && same (RecordTerminalOutcome r) NoOutcome in
  let terminalRelayOnly := same target ActionTerminal && pendingSponsorshipAbsence && relayOnlyOutcome o in
  let retainedSuccessfulSponsorship :=
    SponsorshipAttempted (recovery r) && same (record_mode r) ModeSponsorAndRelay &&
    negb (streq (SponsorshipTransferReference r) "") &&
    match SponsorshipTransactionEvidence r with Some _ => true | None => false end in
  negb (SponsorshipAttempted (recovery r) && negb terminalRelayOnly && negb retainedSuccessfulSponsorship &&
        (negb observedCredit || (negb (same target ActionSubmitted) && negb (same target ActionAccepted)))).

Definition transitionEdit (expectedRevision : Z) (target : ActionResolutionState) (reference : string) (refs : list string)
    (o : TerminalOutcome) (at_ : Z) (r : RelayRecord) : result string edit :=
  fail_if (negb (StateRevision r =? expectedRevision) || negb (validRelayTransition (State r) target)) ErrRelayInvalidState;;
  fail_if (negb (attemptAllows r target o)) ErrRelayInvalidState;;
  fail_if (if same target ActionTerminal then negb (validOutcome o) || (zlen refs =? 0) else negb (same o NoOutcome))
    ErrRelayInvalidState;;
  fail_if (negb (validRelayModeState (record_mode r) target o (SponsorshipTransferReference r)
             match SponsorshipCreditObservation r with Some _ => true | None => false end
             (negb (zlen (SponsorshipAbsenceObservations (absence r)) =? 0))
             (negb (zlen (TransactionAbsenceObservations (absence r)) =? 0)))) ErrRelayInvalidState;;
  Ok (Write (moved r target reference refs o at_) (closedState target)).

Definition Transition (j : MemoryJournal) (stable exact : string) (expectedRevision : Z) (target : ActionResolutionState)
    (transactionReference : string) (evidenceRefs : list string) (o : TerminalOutcome) (at_ : Z)
  : MemoryJournal * reply RelayRecord :=
  guarded ((expectedRevision =? 0) || negb (sortedOptionalDigests evidenceRefs) || (1024 <? slen transactionReference)) j
    (onRecord j stable exact (transitionEdit expectedRevision target transactionReference evidenceRefs o at_)).
End Journal.
