(* ===== verification/RelayFinality.v ===== *)
(** * Resolutions and finality evidence of the transaction relay (src/pkg/agentrelay: types.go, validation.go, canonical.go)

    What a provider signs about an execution: its current state (a resolution) and, once
    it is terminal, the evidence.  This file models the checks on both documents, how
    they are bound to the execution and its mode, and the readiness capability a
    verifier must have. *)

From S2P Require Import Prelude Text Sha256 Base64 Codec Semantic Authority Amounts Billing Agreement Payment.
From S2P Require Import RelayTypes RelayAbsence RelayAdmission AgentRelay RelayQuotes.

(** ** Data *)

Inductive SponsorshipResolutionStatus :=
  | NoStatus | ResolutionUnknown | ResolutionObservedUnproven | ResolutionCorroboratedTerminal | ResolutionCorroboratedAbsent
  | ResolutionFinalized | ResolutionFinalizedAbsent | ResolutionOther (s : string).
#[global] Instance SponsorshipResolutionStatus_eq_dec : EqDecision SponsorshipResolutionStatus.
Proof. solve_decision. Defined.

Record RelayResolutionBody := {
  rr_SchemaVersion : Z; rr_ProviderAgentID : string; rr_Network : NetworkDomain; rr_AssuranceLevel : AssuranceLevel;
  rr_StableActionID : string; rr_ExactRequestDigest : string; rr_RelayExecutionDigest : string; rr_State : ActionResolutionState;
  rr_StateRevision : Z; rr_TerminalOutcome : TerminalOutcome; rr_TransactionReference : string;
  rr_SponsorshipStableActionID : string; rr_SponsorshipExactRequestDigest : string; rr_SponsorshipValidUntilUnix : Z;
  rr_SponsorshipTransferReference : string; SponsorshipStatus : SponsorshipResolutionStatus;
  SponsorshipObservationDigest : string; EvidenceSetDigest : string; rr_ObservedAtUnix : Z; rr_ExpiresAtUnix : Z }.

Record SignedRelayResolution := { rr_Body : RelayResolutionBody; rr_PublicKey : string; rr_Signature : string }.

Record RelayFinalityEvidenceBody := {
  fe_SchemaVersion : Z; fe_ProviderAgentID : string; fe_Network : NetworkDomain; fe_AssuranceLevel : AssuranceLevel;
  fe_StableActionID : string; fe_ExactRequestDigest : string; fe_RelayExecutionDigest : string;
  fe_SignedTransactionDigest : string; fe_SignedTransactionCellHash : string; fe_TransactionValidUntilUnix : Z;
  fe_SourceAccount : string; fe_SourceSequence : Z; fe_SponsorshipStableActionID : string;
  fe_SponsorshipExactRequestDigest : string; fe_SponsorshipValidUntilUnix : Z; fe_SponsorshipTransferReference : string;
  fe_SponsorshipTransactionEvidence : option RelaySponsorshipTransactionEvidence;
  fe_SponsorshipAbsenceObservations : list RelayAbsenceObservationReference;
  fe_TransactionAbsenceObservations : list RelayAbsenceObservationReference; fe_AbsenceProofBundleDigest : string;
  fe_AbsenceProofBundle : string; fe_SponsorshipTerminalProfile : option FinalityProfile; fe_SubmittedTransactionHash : string;
  fe_SourceExecutionReference : string; fe_DestinationCreditReferences : list string;
  fe_RelayTerminalEvidenceClass : TerminalEvidenceClass; RelayValidatorAuthenticatedPortableProof : option bool;
  RelayFinalizedCheckpointID : string; RelayFinalizedCheckpointSequence : Z; RelayFinalizedCheckpointUnix : Z;
  RelayConfirmationDepth : Z; fe_RelayFinalityProfile : option FinalityProfile; RelayObservationDigests : list string;
  Outcome : TerminalOutcome; fe_ObservedAtUnix : Z; SigningAuthorityAtUnix : Z }.

Record SignedRelayFinalityEvidence := { fe_Body : RelayFinalityEvidenceBody; fe_PublicKey : string; fe_Signature : string }.

Record RelaySponsorshipEvidenceContext := {
  cx_AgreementBodyDigest : string; cx_AgreementObligationID : string; cx_PayerAgentID : string; cx_PayeeAgentID : string;
  cx_NetworkID : string; cx_NetworkDomainDigest : string; cx_DestinationSourceAccount : string; cx_Amount : AssetAmount;
  MaximumExpiresAtUnix : Z; cx_SponsorshipStableActionID : string; cx_SponsorshipExactRequestDigest : string }.

Record RelayEvidenceCapability := {
  cap_Mode : Mode; cap_AssuranceLevel : AssuranceLevel; cap_Network : NetworkDomain; cap_TransactionProfileURI : string;
  cap_TransactionProfileDigest : string; cap_UnderlyingActionKind : string; cap_RelayTerminalEvidenceClass : TerminalEvidenceClass;
  cap_SponsorshipTerminalEvidenceClass : TerminalEvidenceClass; cap_RelayFinalityProfile : option FinalityProfile;
  cap_SponsorshipReleaseProfile : SponsorshipReleaseProfile; cap_SponsorshipTerminalProfile : option FinalityProfile;
  AbsenceProofProfileURI : string; AbsenceProofProfileDigest : string }.

(** codec.Marshal of the documents of this file *)
Class FinalityCodec := {
  marshal_resolution : RelayResolutionBody -> option string;
  marshal_finality : RelayFinalityEvidenceBody -> option string }.

(** ** Pointers and indices *)

Definition deref {X} (pointer : option X) : result string X :=
  match pointer with Some x => Ok x | None => Panic "nil pointer dereference" end.
Definition first {X} (l : list X) : result string X :=
  match l with x :: _ => Ok x | [] => Panic "index out of range" end.

Definition present {X} (pointer : option X) : bool := match pointer with Some _ => true | None => false end.
Definition filled {X} (l : list X) : bool := negb (zlen l =? 0).

(** ** Resolutions *)

Definition validateRelayResolutionBody (body : RelayResolutionBody) : result string unit :=
  let (hasSponsorshipIdentity, validIdentity) :=
    validSponsorshipIdentityPair (rr_SponsorshipStableActionID body) (rr_SponsorshipExactRequestDigest body) in
  fail_if (negb (rr_SchemaVersion body =? 1) || negb (identifier (rr_ProviderAgentID body) 256) ||
           negb (validateNetworkDomain (rr_Network body)) || negb (validAssuranceLevel (rr_AssuranceLevel body)) ||
           negb (digestPattern (rr_StableActionID body)) || negb (digestPattern (rr_ExactRequestDigest body)) ||
           negb (digestPattern (rr_RelayExecutionDigest body)) || (rr_StateRevision body =? 0) || (rr_ObservedAtUnix body =? 0) ||
           (rr_ExpiresAtUnix body <=? rr_ObservedAtUnix body) || (24 * 60 * 60 <? rr_ExpiresAtUnix body - rr_ObservedAtUnix body) ||
           (1024 <? slen (rr_TransactionReference body)) || (1024 <? slen (rr_SponsorshipTransferReference body)) ||
           negb validIdentity || negb (Bool.eqb hasSponsorshipIdentity (negb (rr_SponsorshipValidUntilUnix body =? 0))) ||
           (nonempty (rr_SponsorshipTransferReference body) && negb hasSponsorshipIdentity)) "relay resolution body is invalid";;
  match SponsorshipStatus body with
  | NoStatus => fail_if (nonempty (SponsorshipObservationDigest body)) "relay resolution carries an untyped sponsorship observation"
  | ResolutionObservedUnproven =>
      fail_if (negb hasSponsorshipIdentity || nonempty (rr_SponsorshipTransferReference body) ||
               negb (digestPattern (SponsorshipObservationDigest body)) || negb (openState (rr_State body)))
        "observed-unproven sponsorship resolution is invalid"
  | _ => Err "relay resolution carries an unknown sponsorship substate"%string
  end;;
  match rr_State body with
  | ActionPrepared | ActionSubmitted | ActionAccepted | ActionRejected | ActionConflict =>
      fail_if (negb (same (rr_TerminalOutcome body) NoOutcome) || nonempty (EvidenceSetDigest body))
        "nonterminal relay resolution carries terminal evidence"
  | ActionTerminal =>
      fail_if (negb (validOutcome (rr_TerminalOutcome body)) || negb (digestPattern (EvidenceSetDigest body)))
        "terminal relay resolution lacks exact evidence"
  | _ => Err "relay resolution state is unknown"%string
  end.

Definition validateRelayResolutionMode (body : RelayResolutionBody) (mode : Mode) : result string unit :=
  let hasSponsorshipIdentity := nonempty (rr_SponsorshipStableActionID body) || nonempty (rr_SponsorshipExactRequestDigest body) ||
    negb (rr_SponsorshipValidUntilUnix body =? 0) in
  let hasSponsorship := hasSponsorshipIdentity || nonempty (rr_SponsorshipTransferReference body) ||
    negb (same (SponsorshipStatus body) NoStatus) || nonempty (SponsorshipObservationDigest body) in
  let outcome := rr_TerminalOutcome body in
  match mode with
  | ModeRelayExact =>
      fail_if (hasSponsorship || sponsorshipOnlyOutcome outcome || same outcome OutcomeCorroboratedSuccess)
        "relay-only resolution carries a sponsorship result"
  | ModeOther _ => Err "relay resolution mode is invalid"%string
  | ModeSponsorOnly | ModeSponsorAndRelay =>
      if negb (same (rr_State body) ActionTerminal) then
        fail_if (same mode ModeSponsorOnly && nonempty (rr_TransactionReference body))
          "nonterminal sponsor-only resolution carries a transaction reference"
      else if negb (nonempty (rr_SponsorshipTransferReference body)) then
        let relayOnly := same mode ModeSponsorAndRelay && relayOnlyOutcome outcome && nonempty (rr_TransactionReference body) in
        let sponsorshipAbsent := safeTerminalAbsenceOutcome outcome && negb (nonempty (rr_TransactionReference body)) in
        fail_if (negb hasSponsorshipIdentity || (negb relayOnly && negb sponsorshipAbsent))
          "sponsorship resolution lacks a typed terminal result"
      else if same mode ModeSponsorOnly then
        fail_if (negb (sponsorshipOnlyOutcome outcome) ||
                 negb (streq (rr_TransactionReference body) (rr_SponsorshipTransferReference body)))
          "sponsor-only resolution carries a relay outcome"
      else match outcome with
      | OutcomeFinalizedSponsorshipOnly | OutcomeCorroboratedSponsorshipOnly =>
          fail_if (negb (streq (rr_TransactionReference body) (rr_SponsorshipTransferReference body)))
            "partial combined resolution changed the sponsorship reference"
      | OutcomeFinalizedSuccess | OutcomeCorroboratedSuccess =>
          fail_if (negb (nonempty (rr_TransactionReference body)) ||
                   streq (rr_TransactionReference body) (rr_SponsorshipTransferReference body))
            "combined success lacks a distinct relayed transaction reference"
      | _ => Err "combined resolution outcome conflicts with its sponsorship side effect"%string
      end
  end.

Definition resolutionDomain : string := "tos.agent-relay-resolution-signature.v1" +:+ bytes [0%N].
Definition finalityDomain : string := "tos.agent-relay-finality-evidence-signature.v1" +:+ bytes [0%N].

Section Resolutions.
Context `{C : RelayCodec} `{FC : FinalityCodec}.

Definition RelayResolutionDigest (body : RelayResolutionBody) : result string string :=
  validateRelayResolutionBody body;; Digest "tos.agent-relay-resolution.v1" (marshal_resolution body).

Definition SignRelayResolution (Sign : string -> string) (public : string) (body : RelayResolutionBody)
  : result string SignedRelayResolution :=
  validateRelayResolutionBody body;;
  canonical ← encoded (marshal_resolution body);
  Ok {| rr_Body := body; rr_PublicKey := key_text public;
        rr_Signature := signature_text (Sign (signatureMessage resolutionDomain canonical)) |}.

Definition VerifyRelayResolution (signed : SignedRelayResolution) (resolver : option AgentKeyResolver) (now : Time) : result string unit :=
  validateRelayResolutionBody (rr_Body signed);;
  let nowUnix := Unix now in
  let futureLimitUnix := Unix (AddSeconds now (5 * 60)) in
  fail_if ((nowUnix <? 0) || (futureLimitUnix <? 0) || (futureLimitUnix <? rr_ObservedAtUnix (rr_Body signed)) ||
           (rr_ExpiresAtUnix (rr_Body signed) <=? nowUnix)) "relay resolution is premature or expired";;
  verifyAgentSignature (rr_Network (rr_Body signed)) (rr_ProviderAgentID (rr_Body signed)) (rr_PublicKey signed) (rr_Signature signed)
    resolutionDomain (marshal_resolution (rr_Body signed)) resolver now.

Definition VerifyRelayResolutionForExecution (signed : SignedRelayResolution) (request : RelayExecutionRequest)
    (resolver : option AgentKeyResolver) (now : Time) : result string unit :=
  VerifyRelayResolution signed resolver now;;
  executionDigest ← RelayExecutionRequestDigest request;
  let body := rr_Body signed in
  let quoted := qr_Body (QuoteRequest request) in
  fail_if (negb (streq (rr_ProviderAgentID body) (pq_ProviderAgentID (pq_Body (ProviderQuote request)))) ||
           negb (same (rr_Network body) (Network quoted)) || negb (same (rr_AssuranceLevel body) (qr_AssuranceLevel quoted)) ||
           negb (streq (rr_StableActionID body) (qr_StableActionID quoted)) ||
           negb (streq (rr_ExactRequestDigest body) (qr_ExactRequestDigest quoted)) ||
           negb (streq (rr_RelayExecutionDigest body) executionDigest))
    "relay resolution conflicts with the exact execution and assurance level";;
  fail_if (same (SponsorshipStatus body) ResolutionObservedUnproven &&
           negb (same (qr_SponsorshipReleaseEvidenceClass quoted) ReleaseObservedUnproven))
    "relay resolution weakens the signed sponsorship release evidence class";;
  validateRelayResolutionMode body (qr_Mode quoted).
End Resolutions.

(** ** Finality evidence *)

Section Finality.
Context `{C : RelayCodec} `{AC : AbsenceCodec} `{FC : FinalityCodec}.

(** The body reports a terminal result of the relayed transaction. *)
Definition hasRelayTerminal (body : RelayFinalityEvidenceBody) : bool :=
  negb (same (fe_RelayTerminalEvidenceClass body) NoEvidenceClass) || present (RelayValidatorAuthenticatedPortableProof body) ||
  nonempty (RelayFinalizedCheckpointID body) || negb (RelayFinalizedCheckpointSequence body =? 0) ||
  negb (RelayFinalizedCheckpointUnix body =? 0) || negb (RelayConfirmationDepth body =? 0) || filled (RelayObservationDigests body) ||
  nonempty (fe_SubmittedTransactionHash body) || nonempty (fe_SourceExecutionReference body) || filled (fe_DestinationCreditReferences body).

Definition finalityEnvelope (body : RelayFinalityEvidenceBody) : result string unit :=
  let (hasSponsorshipIdentity, validIdentity) :=
    validSponsorshipIdentityPair (fe_SponsorshipStableActionID body) (fe_SponsorshipExactRequestDigest body) in
  let hasSponsorshipAbsence := filled (fe_SponsorshipAbsenceObservations body) in
  let transferred := nonempty (fe_SponsorshipTransferReference body) in
  fail_if (negb (fe_SchemaVersion body =? 1) || negb (identifier (fe_ProviderAgentID body) 256) ||
           negb (validateNetworkDomain (fe_Network body)) || negb (validAssuranceLevel (fe_AssuranceLevel body)) ||
           negb (digestPattern (fe_StableActionID body)) || negb (digestPattern (fe_ExactRequestDigest body)) ||
           negb (digestPattern (fe_RelayExecutionDigest body)) || negb (digestPattern (fe_SignedTransactionDigest body)) ||
           negb (cellHashPattern (fe_SignedTransactionCellHash body)) || (fe_TransactionValidUntilUnix body =? 0) ||
           negb (identifier (fe_SourceAccount body) 256) || (1024 <? slen (fe_SponsorshipTransferReference body)) ||
           (1024 <? slen (fe_SubmittedTransactionHash body)) || (1024 <? slen (fe_SourceExecutionReference body)) ||
           (maxUint64 - 5 * 60 <? fe_ObservedAtUnix body) || (SigningAuthorityAtUnix body =? 0) ||
           (maxUint64 - 5 * 60 <? SigningAuthorityAtUnix body) || (SigningAuthorityAtUnix body + 5 * 60 <? fe_ObservedAtUnix body) ||
           negb (validOutcome (Outcome body)) || (fe_ObservedAtUnix body =? 0) ||
           negb (sortedOptionalDigests (fe_DestinationCreditReferences body)) || negb validIdentity ||
           negb (Bool.eqb hasSponsorshipIdentity (negb (fe_SponsorshipValidUntilUnix body =? 0))) ||
           (transferred && negb hasSponsorshipIdentity) ||
           negb (Bool.eqb transferred (present (fe_SponsorshipTransactionEvidence body))) ||
           (hasSponsorshipIdentity && negb transferred && negb hasSponsorshipAbsence) || (transferred && hasSponsorshipAbsence))
    "relay finality evidence body is invalid".

Definition checkRelayTerminal (body : RelayFinalityEvidenceBody) : result string unit :=
  match fe_RelayFinalityProfile body with
  | Some profile => fail_if (negb (validateFinalityProfile profile)) "relay terminal profile is invalid"
  | None => fail_if (hasRelayTerminal body) "relay terminal result lacks its signed profile"
  end;;
  if hasRelayTerminal body then
    profile ← deref (fe_RelayFinalityProfile body);
    let class := fe_RelayTerminalEvidenceClass body in
    let validClass :=
      (same class ValidatorFinality && same (RelayValidatorAuthenticatedPortableProof body) (Some true)) ||
      (same class ProviderCorroborated && same (RelayValidatorAuthenticatedPortableProof body) (Some false) &&
       negb (same (fe_AssuranceLevel body) AssuranceAutonomousDecentralized)) in
    fail_if (negb validClass || negb (same (fp_TerminalEvidenceClass profile) class) ||
             negb (identifier (RelayFinalizedCheckpointID body) 1024) || (RelayFinalizedCheckpointSequence body =? 0) ||
             (RelayFinalizedCheckpointUnix body =? 0) || (fe_ObservedAtUnix body + 5 * 60 <? RelayFinalizedCheckpointUnix body) ||
             (RelayConfirmationDepth body <? MinimumConfirmationDepth profile) ||
             negb (sortedDigests (RelayObservationDigests body) MaxRelayEvidenceRefs) ||
             (zlen (RelayObservationDigests body) <? MinimumObservers profile))
      "relay terminal result does not meet its selected evidence profile"
  else Ok tt.

(** The signed profile of the sponsorship, and the nested transaction evidence under it. *)
Definition checkSponsorshipEvidence (body : RelayFinalityEvidenceBody) : result string unit :=
  let (hasSponsorshipIdentity, _) :=
    validSponsorshipIdentityPair (fe_SponsorshipStableActionID body) (fe_SponsorshipExactRequestDigest body) in
  let hasAnyAbsence := filled (fe_SponsorshipAbsenceObservations body) || filled (fe_TransactionAbsenceObservations body) in
  match fe_SponsorshipTerminalProfile body with
  | Some profile =>
      fail_if (negb (validateFinalityProfile profile) ||
               negb (validSponsorshipTerminalClass (fp_TerminalEvidenceClass profile) (fe_AssuranceLevel body)))
        "sponsorship terminal profile is invalid"
  | None =>
      fail_if (hasSponsorshipIdentity || present (fe_SponsorshipTransactionEvidence body) || hasAnyAbsence)
        "sponsorship terminal result lacks its signed profile"
  end;;
  match fe_SponsorshipTransactionEvidence body with
  | None => Ok tt
  | Some evidence =>
      profile ← deref (fe_SponsorshipTerminalProfile body);
      let conflicts := "relay sponsorship transaction evidence conflicts with its signed parent"%string in
      fail_if (negb (validateRelaySponsorshipTransactionEvidenceShape evidence)) conflicts;;
      network ← or_err (NetworkDigest (fe_Network body)) conflicts;
      fail_if (negb (streq (te_NetworkDigest evidence) network) ||
               negb (streq (te_StableActionID evidence) (fe_SponsorshipStableActionID body)) ||
               negb (streq (te_ExactRequestDigest evidence) (fe_SponsorshipExactRequestDigest body)) ||
               negb (te_ValidUntilUnix evidence =? fe_SponsorshipValidUntilUnix body) ||
               negb (streq (SubmittedTransactionHash evidence) (fe_SponsorshipTransferReference body)) ||
               negb (streq (te_DestinationAccount evidence) (fe_SourceAccount body)) ||
               negb (streq (te_TerminalProfileDigest evidence) (ProfileDigest profile)) ||
               negb (same (te_TerminalEvidenceClass evidence) (fp_TerminalEvidenceClass profile)) ||
               (ConfirmationDepth evidence <? MinimumConfirmationDepth profile) ||
               (zlen (te_ObservationDigests evidence) <? MinimumObservers profile) ||
               (same (fe_AssuranceLevel body) AssuranceAutonomousDecentralized &&
                (negb (same (te_TerminalEvidenceClass evidence) ValidatorFinality) || negb (ValidatorAuthenticatedPortableProof evidence))) ||
               (fe_ObservedAtUnix body + 5 * 60 <? te_ObservedAtUnix evidence)) conflicts;;
      fail_if (same (te_TerminalEvidenceClass evidence) ClientCorroborated &&
               (negb (streq (ProfileURI profile) ClientCorroboratedTerminalProfileURI) ||
                (negb (same (Outcome body) OutcomeCorroboratedSponsorshipOnly) && negb (same (Outcome body) OutcomeCorroboratedSuccess))))
        "client-corroborated sponsorship was relabeled as validator-finalized"
  end.

Definition evidenceAbsenceContext (body : RelayFinalityEvidenceBody) (network : string) (profile : FinalityProfile)
    (reference : RelayAbsenceObservationReference) : relayAbsenceContext :=
  {| providerAgentID := fe_ProviderAgentID body; networkDigest := network; relayStableActionID := fe_StableActionID body;
     relayExactRequestDigest := fe_ExactRequestDigest body; relayExecutionDigest := fe_RelayExecutionDigest body;
     sponsorshipStableActionID := fe_SponsorshipStableActionID body;
     sponsorshipExactRequestDigest := fe_SponsorshipExactRequestDigest body;
     sponsorshipValidUntilUnix := fe_SponsorshipValidUntilUnix body; transactionValidUntilUnix := fe_TransactionValidUntilUnix body;
     signedTransactionDigest := fe_SignedTransactionDigest body; signedTransactionCellHash := fe_SignedTransactionCellHash body;
     observationEvidenceProfileURI := ObservationEvidenceProfileURI reference;
     observationEvidenceProfileDigest := ObservationEvidenceProfileDigest reference; sponsorshipTerminalProfile := profile;
     relayFinalityProfile := fe_RelayFinalityProfile body; maximumObservedAtUnix := fe_ObservedAtUnix body; outcome := Outcome body |}.

(** The absence components of the body; every failure is the one error. *)
Definition checkAbsenceComponents (body : RelayFinalityEvidenceBody) : result string unit :=
  let sponsorship := fe_SponsorshipAbsenceObservations body in
  let transaction := fe_TransactionAbsenceObservations body in
  let invalid := "relay finality sponsorship absence evidence is invalid"%string in
  if filled sponsorship || filled transaction then
    profile ← deref (fe_SponsorshipTerminalProfile body);
    reference ← first (if filled sponsorship then sponsorship else transaction);
    let (hasSponsorshipIdentity, _) :=
      validSponsorshipIdentityPair (fe_SponsorshipStableActionID body) (fe_SponsorshipExactRequestDigest body) in
    network ← or_err (NetworkDigest (fe_Network body)) invalid;
    let context := evidenceAbsenceContext body network profile reference in
    let transferred := nonempty (fe_SponsorshipTransferReference body) in
    let executed := nonempty (fe_SubmittedTransactionHash body) && nonempty (fe_SourceExecutionReference body) in
    let untouched := negb (nonempty (fe_SubmittedTransactionHash body)) && negb (nonempty (fe_SourceExecutionReference body)) in
    merged ← or_err (if filled sponsorship && filled transaction then validateRelayAbsenceObservationSets sponsorship transaction context
                     else if filled sponsorship then validateRelaySponsorshipAbsenceObservationSet sponsorship context
                     else validateRelayTransactionAbsenceObservationSet transaction context) invalid;
    let misshapen :=
      if filled sponsorship && filled transaction then
        transferred || hasRelayTerminal body || negb (safeTerminalAbsenceOutcome (Outcome body))
      else if filled sponsorship then
        transferred || (negb (relayOnlyOutcome (Outcome body) && hasRelayTerminal body && executed) &&
                        negb (safeTerminalAbsenceOutcome (Outcome body) && negb (hasRelayTerminal body) && untouched))
      else negb (sponsorshipOnlyOutcome (Outcome body)) || negb transferred || negb (present (fe_SponsorshipTransactionEvidence body)) ||
           hasRelayTerminal body in
    fail_if (negb hasSponsorshipIdentity || misshapen || (zlen merged =? 0)) invalid
  else Ok tt.

Definition validatorEvidence (evidence : option RelaySponsorshipTransactionEvidence) : bool :=
  match evidence with Some e => same (te_TerminalEvidenceClass e) ValidatorFinality | None => true end.

Definition validatorReference (references : list RelayAbsenceObservationReference) : result string bool :=
  reference ← first references; Ok (same (ar_TerminalEvidenceClass reference) ValidatorFinality).

(** [has && !validator(references[0])]: the index is taken only when there is a reference. *)
Definition corroboratedFirst (references : list RelayAbsenceObservationReference) : result string bool :=
  if filled references then validator ← validatorReference references; Ok (negb validator) else Ok false.

(** The switch on the outcome. *)
Definition checkOutcome (body : RelayFinalityEvidenceBody) : result string unit :=
  let sponsorship := fe_SponsorshipAbsenceObservations body in
  let transaction := fe_TransactionAbsenceObservations body in
  let hasAnyAbsence := filled sponsorship || filled transaction in
  let (hasSponsorshipIdentity, _) :=
    validSponsorshipIdentityPair (fe_SponsorshipStableActionID body) (fe_SponsorshipExactRequestDigest body) in
  let transferred := nonempty (fe_SponsorshipTransferReference body) in
  let executed := nonempty (fe_SubmittedTransactionHash body) && nonempty (fe_SourceExecutionReference body) in
  let relayValidator := same (fe_RelayTerminalEvidenceClass body) ValidatorFinality in
  let autonomous := same (fe_AssuranceLevel body) AssuranceAutonomousDecentralized in
  let evidence := fe_SponsorshipTransactionEvidence body in
  match Outcome body with
  | OutcomeFinalizedSuccess =>
      fail_if (negb (hasRelayTerminal body) || negb executed || hasAnyAbsence || negb relayValidator || negb (validatorEvidence evidence))
        "successful relay evidence lacks source execution"
  | OutcomeCorroboratedSuccess =>
      fail_if (autonomous || negb (hasRelayTerminal body) || hasAnyAbsence || (relayValidator && validatorEvidence evidence) || negb executed)
        "corroborated relay success overstates or understates its selected assurance"
  | OutcomeFinalizedSponsorshipOnly | OutcomeCorroboratedSponsorshipOnly =>
      let invalid := "sponsorship-only evidence is invalid"%string in
      fail_if (negb transferred || negb hasSponsorshipIdentity || filled sponsorship || nonempty (fe_SubmittedTransactionHash body) ||
               nonempty (fe_SourceExecutionReference body) || filled (fe_DestinationCreditReferences body) || negb (present evidence)) invalid;;
      e ← deref evidence;
      lower ← corroboratedFirst transaction;
      let validator := same (te_TerminalEvidenceClass e) ValidatorFinality in
      fail_if (if same (Outcome body) OutcomeFinalizedSponsorshipOnly
               then negb validator || negb (ValidatorAuthenticatedPortableProof e) || lower
               else autonomous || (validator && negb lower)) invalid;;
      fail_if (hasRelayTerminal body) invalid
  | OutcomeFinalizedRelayOnly | OutcomeCorroboratedRelayOnly =>
      lower ← corroboratedFirst sponsorship;
      let allValidator := relayValidator && same (RelayValidatorAuthenticatedPortableProof body) (Some true) && filled sponsorship && negb lower in
      fail_if ((autonomous && negb allValidator) || negb (filled sponsorship) || filled transaction || transferred || present evidence ||
               negb (hasRelayTerminal body) || negb executed ||
               (same (Outcome body) OutcomeFinalizedRelayOnly && negb allValidator) ||
               (same (Outcome body) OutcomeCorroboratedRelayOnly && allValidator)) "relay-only component evidence is invalid"
  | OutcomeFinalizedExpired | OutcomeFinalizedAbsent | OutcomeFinalizedInvalidated =>
      if filled sponsorship then
        lower ← corroboratedFirst sponsorship;
        lowerTransaction ← corroboratedFirst transaction;
        fail_if (negb (validatorProfile (fe_SponsorshipTerminalProfile body)) || lower || lowerTransaction)
          "validator-finalized sponsorship absence lacks validator evidence"
      else fail_if (negb (hasRelayTerminal body) || negb relayValidator) "validator-finalized relay result lacks validator evidence"
  | OutcomeCorroboratedExpired | OutcomeCorroboratedAbsent | OutcomeCorroboratedInvalidated =>
      fail_if autonomous "corroborated negative outcome is invalid for autonomous assurance";;
      if filled sponsorship then
        lower ← corroboratedFirst sponsorship;
        lowerTransaction ← corroboratedFirst transaction;
        fail_if (negb (present (fe_SponsorshipTerminalProfile body)) || (negb lower && negb lowerTransaction))
          "corroborated absence lacks a selected lower-assurance predicate"
      else fail_if (negb (hasRelayTerminal body) || negb (same (fe_RelayTerminalEvidenceClass body) ProviderCorroborated))
             "corroborated relay result lacks its Provider predicate"
  | _ => Ok tt
  end.

Definition validateRelayFinalityEvidenceBody (body : RelayFinalityEvidenceBody) : result string unit :=
  finalityEnvelope body;;
  validateRelayAbsenceProofBundleForBody (fe_SponsorshipAbsenceObservations body) (fe_TransactionAbsenceObservations body)
    (fe_AbsenceProofBundleDigest body) (fe_AbsenceProofBundle body);;
  checkRelayTerminal body;;
  checkSponsorshipEvidence body;;
  checkAbsenceComponents body;;
  checkOutcome body.

Definition RelayFinalityEvidenceDigest (body : RelayFinalityEvidenceBody) : result string string :=
  validateRelayFinalityEvidenceBody body;; Digest "tos.agent-relay-finality-evidence.v1" (marshal_finality body).

Definition SignRelayFinalityEvidence (Sign : string -> string) (public : string) (body : RelayFinalityEvidenceBody)
  : result string SignedRelayFinalityEvidence :=
  validateRelayFinalityEvidenceBody body;;
  canonical ← encoded (marshal_finality body);
  Ok {| fe_Body := body; fe_PublicKey := key_text public;
        fe_Signature := signature_text (Sign (signatureMessage finalityDomain canonical)) |}.

Definition VerifyRelayFinalityEvidence (signed : SignedRelayFinalityEvidence) (resolver : option AgentKeyResolver) (now : Time)
  : result string unit :=
  validateRelayFinalityEvidenceBody (fe_Body signed);;
  let nowSeconds := Unix now in
  let signedAt := SigningAuthorityAtUnix (fe_Body signed) in
  fail_if ((nowSeconds <? 0) || (MaxInt64 <? signedAt) || ((nowSeconds <? signedAt) && (5 * 60 <? signedAt - nowSeconds)))
    "relay finality evidence signing-authority time is invalid";;
  verifyAgentSignature (fe_Network (fe_Body signed)) (fe_ProviderAgentID (fe_Body signed)) (fe_PublicKey signed) (fe_Signature signed)
    finalityDomain (marshal_finality (fe_Body signed)) resolver (UnixTime signedAt).

(** ** Evidence for an execution *)

Definition validateRelayFinalityEvidenceMode (body : RelayFinalityEvidenceBody) (mode : Mode) : result string unit :=
  let hasEvidence := present (fe_SponsorshipTransactionEvidence body) in
  let hasSponsorshipAbsence := filled (fe_SponsorshipAbsenceObservations body) in
  let hasTransactionAbsence := filled (fe_TransactionAbsenceObservations body) in
  let hasAbsence := hasSponsorshipAbsence || hasTransactionAbsence in
  let hasSponsorshipIdentity := nonempty (fe_SponsorshipStableActionID body) || nonempty (fe_SponsorshipExactRequestDigest body) ||
    negb (fe_SponsorshipValidUntilUnix body =? 0) in
  let transferred := nonempty (fe_SponsorshipTransferReference body) in
  let submitted := nonempty (fe_SubmittedTransactionHash body) in
  let executed := submitted && nonempty (fe_SourceExecutionReference body) in
  match mode with
  | ModeOther _ => Err "relay terminal evidence mode is invalid"%string
  | ModeRelayExact =>
      fail_if (negb (present (fe_RelayFinalityProfile body)) || present (fe_SponsorshipTerminalProfile body) || hasEvidence || hasAbsence ||
               hasSponsorshipIdentity || transferred || sponsorshipOnlyOutcome (Outcome body))
        "relay-only terminal evidence carries a sponsorship result"
  | ModeSponsorOnly | ModeSponsorAndRelay =>
      let combined := same mode ModeSponsorAndRelay in
      fail_if (negb (present (fe_SponsorshipTerminalProfile body)) || (negb combined && present (fe_RelayFinalityProfile body)) ||
               (combined && negb (present (fe_RelayFinalityProfile body))))
        "relay terminal evidence profile set conflicts with the selected mode";;
      if negb hasEvidence then
        let sponsorOnlyNegative := negb combined && hasSponsorshipAbsence && negb hasTransactionAbsence &&
          safeTerminalAbsenceOutcome (Outcome body) && negb submitted in
        let combinedNegative := combined && hasSponsorshipAbsence && hasTransactionAbsence &&
          safeTerminalAbsenceOutcome (Outcome body) && negb submitted in
        let relayOnly := combined && hasSponsorshipAbsence && negb hasTransactionAbsence && relayOnlyOutcome (Outcome body) && executed in
        fail_if (negb hasAbsence || negb hasSponsorshipIdentity || transferred ||
                 (negb sponsorOnlyNegative && negb combinedNegative && negb relayOnly))
          "sponsorship execution lacks exact transaction or absence evidence"
      else
        fail_if (hasSponsorshipAbsence || negb transferred) "sponsorship transaction evidence conflicts with absence or transfer identity";;
        if negb combined then
          fail_if (negb (sponsorshipOnlyOutcome (Outcome body)) || submitted || nonempty (fe_SourceExecutionReference body) ||
                   hasTransactionAbsence) "sponsor-only terminal evidence carries a relay result"
        else match Outcome body with
        | OutcomeFinalizedSponsorshipOnly | OutcomeCorroboratedSponsorshipOnly =>
            fail_if (submitted || nonempty (fe_SourceExecutionReference body)) "partial combined terminal evidence carries relay execution"
        | OutcomeFinalizedSuccess | OutcomeCorroboratedSuccess =>
            fail_if (negb submitted || negb (nonempty (fe_SourceExecutionReference body))) "combined terminal success lacks relay execution"
        | _ => Err "combined terminal outcome conflicts with its sponsorship side effect"%string
        end
  end.

(** The part of a capability that the request alone determines. *)
Definition requestCapability (quoted : RelayQuoteRequestBody) (relay sponsorship : option FinalityProfile) : RelayEvidenceCapability :=
  let proofs := negb (same (qr_Mode quoted) ModeRelayExact) && negb (same (qr_AssuranceLevel quoted) AssuranceAutonomousDecentralized) in
  {| cap_Mode := qr_Mode quoted; cap_AssuranceLevel := qr_AssuranceLevel quoted; cap_Network := Network quoted;
     cap_TransactionProfileURI := TransactionProfileURI quoted; cap_TransactionProfileDigest := TransactionProfileDigest quoted;
     cap_UnderlyingActionKind := UnderlyingActionKind quoted; cap_RelayTerminalEvidenceClass := qr_RelayTerminalEvidenceClass quoted;
     cap_SponsorshipTerminalEvidenceClass := qr_SponsorshipTerminalEvidenceClass quoted; cap_RelayFinalityProfile := relay;
     cap_SponsorshipReleaseProfile := SelectedSponsorshipReleaseProfile quoted; cap_SponsorshipTerminalProfile := sponsorship;
     AbsenceProofProfileURI := if proofs then RelayAbsenceTOSRPCProofProfileURI else "";
     AbsenceProofProfileDigest := if proofs then or_empty RelayAbsenceTOSRPCProofProfileDigest else "" |}.

Definition relayEvidenceCapabilityForExecution (request : RelayExecutionRequest) : RelayEvidenceCapability :=
  requestCapability (qr_Body (QuoteRequest request)) (RelayFinalityProfile (pq_Body (ProviderQuote request)))
    (SponsorshipTerminalProfile (pq_Body (ProviderQuote request))).

Definition VerifySponsorshipPaymentRequestForEvidence (payment : AgreementPaymentRequest)
    (evidence : RelaySponsorshipTransactionEvidence) (expected : RelaySponsorshipEvidenceContext) : result string unit :=
  fail_if (negb (pay_SchemaVersion payment =? 3)) "sponsorship evidence requires AgreementPaymentRequestV3"%string;;
  let mismatch := "sponsorship payment request digest mismatch"%string in
  paymentDigest ← or_err (AgreementPaymentRequestDigest payment) mismatch;
  fail_if (negb (streq paymentDigest (te_PaymentDigest evidence))) mismatch;;
  material ← or_err (PaymentAuthorizationMaterial payment) "sponsorship payment request is invalid"%string;
  let conflicts := "sponsorship payment request conflicts with the exact Agreement, obligation, route, or amount"%string in
  exactDigest ← or_err (ExactRequestDigest material.1) conflicts;
  let amount := pay_Amount payment in
  fail_if (negb (streq (pay_StableActionID payment) (te_StableActionID evidence)) ||
           negb (streq exactDigest (te_ExactRequestDigest evidence)) ||
           negb (streq (pay_StableActionID payment) (cx_SponsorshipStableActionID expected)) ||
           negb (streq exactDigest (cx_SponsorshipExactRequestDigest expected)) ||
           negb (streq (pay_AgreementBodyDigest payment) (cx_AgreementBodyDigest expected)) ||
           negb (streq (AgreementObligationID payment) (cx_AgreementObligationID expected)) ||
           negb (streq (PayerAgentID payment) (cx_PayerAgentID expected)) || negb (streq (AgentID payment) (cx_PayerAgentID expected)) ||
           negb (streq (PayeeAgentID payment) (cx_PayeeAgentID expected)) || negb (streq (pay_NetworkID payment) (cx_NetworkID expected)) ||
           negb (streq (NetworkDomainDigest payment) (cx_NetworkDomainDigest expected)) ||
           negb (streq (Destination payment) (cx_DestinationSourceAccount expected)) ||
           negb (streq (SettlementAdapterURI payment) DirectPaymentAdapterURI) ||
           negb (pay_ExpiresAtUnix payment =? te_ValidUntilUnix evidence) || (MaximumExpiresAtUnix expected <? pay_ExpiresAtUnix payment) ||
           negb (streq (aa_AssetNamespace amount) (AssetNamespace (Asset (cx_Amount expected)))) ||
           negb (streq (aa_AssetIdentifier amount) (AssetIdentifier (Asset (cx_Amount expected)))) ||
           negb (streq (aa_Unit amount) (Unit (Asset (cx_Amount expected)))) ||
           negb (streq (aa_AmountAtomic amount) (AmountAtomic (cx_Amount expected)))) conflicts.

Definition RelayEvidenceSetDigest (values : list string) : result string string :=
  fail_if (negb (sortedDigests values MaxRelayEvidenceRefs)) "relay evidence digest set is invalid"%string;;
  ExactRequestDigest (foldr (fun value rest => value +:+ bytes [0%N] +:+ rest) ""%string values).

(** *** The client's verifiers

    [PortableRelayFinalityEvidenceVerifier] and its like are optional extensions of an
    interface: the extension's answer is [None] when the verifier does not have it. *)

Record RelayFinalityEvidenceVerifier := {
  VerifyRelayFinality : RelayExecutionRequest -> SignedRelayFinalityEvidence -> result string unit;
  SupportsRelayEvidenceCapability : RelayEvidenceCapability -> bool;
  SupportsRelayDualAbsenceEvidence : RelayEvidenceCapability -> bool;
  SupportsRelaySponsorshipComponentAbsenceEvidence : RelayEvidenceCapability -> bool;
  SupportsRelayTransactionComponentAbsenceEvidence : RelayEvidenceCapability -> bool;
  HasIndependentPortableRelayFinalityProofs : option bool }.

Record SponsorshipTransactionEvidenceVerifier := {
  VerifySponsorshipTransactionEvidence :
    RelaySponsorshipTransactionEvidence -> RelaySponsorshipEvidenceContext -> FinalityProfile -> result string unit;
  HasIndependentPortableSponsorshipProofs : option bool }.

(** The payment an execution expects for its sponsorship. *)
Definition sponsorshipContext (request : RelayExecutionRequest) (network : string) (reserved : AssetAmount) (stable exact : string)
  : RelaySponsorshipEvidenceContext :=
  let quoted := qr_Body (QuoteRequest request) in
  {| cx_AgreementBodyDigest := AgreementBodyDigest request; cx_AgreementObligationID := SponsorshipObligationID request;
     cx_PayerAgentID := qr_ProviderAgentID quoted; cx_PayeeAgentID := RequesterAgentID quoted;
     cx_NetworkID := NetworkID (Network quoted); cx_NetworkDomainDigest := network;
     cx_DestinationSourceAccount := SourceAccount quoted; cx_Amount := reserved; MaximumExpiresAtUnix := ex_ExpiresAtUnix request;
     cx_SponsorshipStableActionID := stable; cx_SponsorshipExactRequestDigest := exact |}.

(** The class of the nested evidence against the selected assurance and release policy. *)
Definition checkEvidenceAssurance (request : RelayExecutionRequest) (evidence : RelaySponsorshipTransactionEvidence)
    (verifier : SponsorshipTransactionEvidenceVerifier) : result string unit :=
  let quoted := qr_Body (QuoteRequest request) in
  let validator := same (te_TerminalEvidenceClass evidence) ValidatorFinality && ValidatorAuthenticatedPortableProof evidence in
  if same (qr_AssuranceLevel quoted) AssuranceAutonomousDecentralized then
    fail_if (negb validator || negb (same (HasIndependentPortableSponsorshipProofs verifier) (Some true)) ||
             streq (PortableProofLocator evidence) "") "autonomous sponsorship requires independently verifiable portable proof evidence"
  else if same (qr_SponsorshipReleaseEvidenceClass quoted) ReleaseObservedUnproven then
    fail_if (negb (same (te_TerminalEvidenceClass evidence) ClientCorroborated) || ValidatorAuthenticatedPortableProof evidence ||
             match SponsorshipTerminalProfile (pq_Body (ProviderQuote request)) with
             | Some profile => negb (streq (ProfileURI profile) ClientCorroboratedTerminalProfileURI)
             | None => true
             end) "lower-assurance RPC sponsorship requires explicitly corroborated terminal evidence"
  else fail_if (negb validator) "validator-finality sponsorship profile requires validator-authenticated evidence".

Definition evidenceMatchesExecution (body : RelayFinalityEvidenceBody) (request : RelayExecutionRequest) (executionDigest : string) : bool :=
  let quoted := qr_Body (QuoteRequest request) in
  let quote := pq_Body (ProviderQuote request) in
  streq (fe_ProviderAgentID body) (pq_ProviderAgentID quote) && same (fe_Network body) (Network quoted) &&
  same (fe_AssuranceLevel body) (qr_AssuranceLevel quoted) && streq (fe_StableActionID body) (qr_StableActionID quoted) &&
  streq (fe_ExactRequestDigest body) (qr_ExactRequestDigest quoted) && streq (fe_RelayExecutionDigest body) executionDigest &&
  streq (fe_SignedTransactionDigest body) (qr_SignedTransactionDigest quoted) &&
  streq (fe_SignedTransactionCellHash body) (qr_SignedTransactionCellHash quoted) &&
  (fe_TransactionValidUntilUnix body =? TransactionValidUntilUnix quoted) && streq (fe_SourceAccount body) (SourceAccount quoted) &&
  (fe_SourceSequence body =? SourceSequence quoted) &&
  equalFinalityProfilePointers (fe_RelayFinalityProfile body) (RelayFinalityProfile quote) &&
  equalFinalityProfilePointers (fe_SponsorshipTerminalProfile body) (SponsorshipTerminalProfile quote).

(** A verifier that is ready for the exact capability. *)
Definition checkReadiness (supports dual sponsorship transaction : RelayEvidenceCapability -> bool) (mode : Mode)
    (capability : RelayEvidenceCapability) (who : string) (ready dualError componentError transactionError : string) : result string unit :=
  fail_if (negb (supports capability)) (who +:+ ready)%string;;
  fail_if (same mode ModeSponsorAndRelay && negb (dual capability)) (who +:+ dualError)%string;;
  fail_if (negb (same mode ModeRelayExact) && negb (sponsorship capability)) (who +:+ componentError)%string;;
  fail_if (same mode ModeSponsorAndRelay && negb (transaction capability)) (who +:+ transactionError)%string.

Definition VerifyRelayFinalityEvidenceForExecution (signed : SignedRelayFinalityEvidence) (request : RelayExecutionRequest)
    (resolver : option AgentKeyResolver) (finalityVerifier : option RelayFinalityEvidenceVerifier)
    (sponsorshipVerifier : option SponsorshipTransactionEvidenceVerifier) (now : Time) : result string unit :=
  VerifyRelayFinalityEvidence signed resolver now;;
  executionDigest ← RelayExecutionRequestDigest request;
  let body := fe_Body signed in
  let quoted := qr_Body (QuoteRequest request) in
  let mode := qr_Mode quoted in
  fail_if (negb (evidenceMatchesExecution body request executionDigest))
    "relay finality evidence conflicts with the exact execution and assurance level";;
  let release := SelectedSponsorshipReleaseProfile quoted in
  fail_if (negb (forallb (fun reference => streq (ObservationEvidenceProfileURI reference) (sr_ProfileURI release) &&
                                           streq (ObservationEvidenceProfileDigest reference) (sr_ProfileDigest release))
                   (fe_SponsorshipAbsenceObservations body ++ fe_TransactionAbsenceObservations body)))
    "relay absence observation profile conflicts with the exact signed release profile";;
  validateRelayFinalityEvidenceMode body mode;;
  let capability := relayEvidenceCapabilityForExecution request in
  verifier ← opt_err finalityVerifier "client finality verifier is not ready for the exact signed capability"%string;
  checkReadiness (SupportsRelayEvidenceCapability verifier) (SupportsRelayDualAbsenceEvidence verifier)
    (SupportsRelaySponsorshipComponentAbsenceEvidence verifier) (SupportsRelayTransactionComponentAbsenceEvidence verifier) mode capability
    "client finality verifier " "is not ready for the exact signed capability" "cannot verify both sponsorship absence domains"
    "cannot verify component sponsorship absence" "cannot verify component transaction absence";;
  let requiresPortable := same (qr_AssuranceLevel quoted) AssuranceAutonomousDecentralized ||
    same (qr_RelayTerminalEvidenceClass quoted) ValidatorFinality || same (qr_SponsorshipTerminalEvidenceClass quoted) ValidatorFinality in
  fail_if (requiresPortable && negb (same (HasIndependentPortableRelayFinalityProofs verifier) (Some true)))
    "selected finality predicate requires independently verifiable portable relay evidence";;
  labelled "verify relay finality evidence: " (VerifyRelayFinality verifier request signed);;
  let hasSponsorshipAbsence := filled (fe_SponsorshipAbsenceObservations body) in
  let hasTransactionAbsence := filled (fe_TransactionAbsenceObservations body) in
  if same mode ModeRelayExact then
    fail_if (present (fe_SponsorshipTransactionEvidence body) || hasSponsorshipAbsence || hasTransactionAbsence ||
             nonempty (fe_SponsorshipStableActionID body) || nonempty (fe_SponsorshipExactRequestDigest body) ||
             negb (fe_SponsorshipValidUntilUnix body =? 0) || nonempty (fe_SponsorshipTransferReference body))
      "relay-only finality evidence carries a sponsorship result"
  else match fe_SponsorshipTransactionEvidence body with
  | None =>
      let validSponsorOnlyAbsence := same mode ModeSponsorOnly && hasSponsorshipAbsence && negb hasTransactionAbsence &&
        safeTerminalAbsenceOutcome (Outcome body) in
      let validCombinedDual := same mode ModeSponsorAndRelay && hasSponsorshipAbsence && hasTransactionAbsence &&
        safeTerminalAbsenceOutcome (Outcome body) in
      let validRelayOnly := same mode ModeSponsorAndRelay && hasSponsorshipAbsence && negb hasTransactionAbsence &&
        relayOnlyOutcome (Outcome body) in
      fail_if (negb validSponsorOnlyAbsence && negb validCombinedDual && negb validRelayOnly)
        "sponsorship execution lacks transaction or typed absence evidence"
  | Some evidence =>
      proofs ← opt_err sponsorshipVerifier "independent sponsorship transaction evidence verifier is required"%string;
      let incomplete := "sponsorship execution context is incomplete"%string in
      network ← or_err (NetworkDigest (Network quoted)) incomplete;
      reserved ← opt_err (ReservedSponsorship (pq_Body (ProviderQuote request))) incomplete;
      let expected := sponsorshipContext request network reserved (te_StableActionID evidence) (te_ExactRequestDigest evidence) in
      VerifySponsorshipPaymentRequestForEvidence (te_Payment evidence) evidence expected;;
      checkEvidenceAssurance request evidence proofs;;
      profile ← opt_err (SponsorshipTerminalProfile (pq_Body (ProviderQuote request))) "sponsorship execution lacks its signed terminal profile"%string;
      labelled "verify sponsorship transaction evidence: " (VerifySponsorshipTransactionEvidence proofs evidence expected profile)
  end.
End Finality.

(** ** What the evidence guarantees *)

Section Evidence.
Context `{C : RelayCodec} `{AC : AbsenceCodec} `{FC : FinalityCodec}.

Lemma set_class references kind conclusion ctx profile notBefore digests :
  validateRelayAbsenceObservationSet references kind conclusion ctx profile notBefore = Ok digests ->
  forall r, r ∈ references -> ar_TerminalEvidenceClass r = fp_TerminalEvidenceClass profile.
Proof.
  destruct digests as [digests proofs]. intros [_ _ _ _ _ _ _ _ Hall _]%set_quorum r Hr.
  rewrite Forall_forall in Hall. by destruct (obs_terminal _ _ _ _ _ (Hall r Hr)) as (_ & _ & ->).
Qed.

(** The references of a component are all of one class. *)
Definition uniform (references : list RelayAbsenceObservationReference) : Prop :=
  exists class, forall r, r ∈ references -> ar_TerminalEvidenceClass r = class.

Lemma uniform_nil : uniform [].
Proof. exists NoEvidenceClass. intros r []%elem_of_nil. Qed.

(** The shape of the side effects beside an absence. *)
Definition absence_shape (body : RelayFinalityEvidenceBody) : Prop :=
  (filled (fe_SponsorshipAbsenceObservations body) = true -> filled (fe_TransactionAbsenceObservations body) = true ->
     hasRelayTerminal body = false) /\
  (filled (fe_SponsorshipAbsenceObservations body) = true -> relayOnlyOutcome (Outcome body) = true \/ hasRelayTerminal body = false) /\
  (filled (fe_SponsorshipAbsenceObservations body) = false -> filled (fe_TransactionAbsenceObservations body) = true ->
     sponsorshipOnlyOutcome (Outcome body) = true).

Lemma absence_components body : checkAbsenceComponents body = Ok tt ->
  uniform (fe_SponsorshipAbsenceObservations body) /\ uniform (fe_TransactionAbsenceObservations body) /\ absence_shape body.
Proof.
  unfold checkAbsenceComponents, absence_shape.
  set (s := fe_SponsorshipAbsenceObservations body). set (t := fe_TransactionAbsenceObservations body).
  destruct (filled s || filled t) eqn:Hany.
  2: { apply orb_false_iff in Hany as [Hs Ht]. intros _. rewrite Hs, Ht. unfold filled in Hs, Ht. destruct s, t; [|discriminate..].
    split_and!; [apply uniform_nil..|discriminate|discriminate|discriminate]. }
  intros H. apply bind_Ok in H as (profile & _ & H). apply bind_Ok in H as (reference & _ & H).
  destruct (validSponsorshipIdentityPair _ _) as [hasIdentity valid]. apply bind_Ok in H as (network & _ & H).
  apply bind_Ok in H as (merged & Hsets%or_err_Ok & H). apply fail_if_Ok, orb_false_iff in H as [H _].
  apply orb_false_iff in H as [_ H]. set (ctx := evidenceAbsenceContext body network profile reference) in *.
  destruct (filled s) eqn:Hs, (filled t) eqn:Ht; cbn [andb orb] in *; [..|discriminate Hany].
  - unfold validateRelayAbsenceObservationSets in Hsets. repeat (apply bind_Ok in Hsets as (? & ? & Hsets)).
    rewrite !orb_false_iff in H. destruct H as [[_ Hterm] _]. split_and!; [eexists; by eapply set_class..|done|by right|done].
  - unfold validateRelaySponsorshipAbsenceObservationSet in Hsets. repeat (apply bind_Ok in Hsets as (? & ? & Hsets)).
    assert (t = []) as -> by (destruct t; [done|discriminate Ht]).
    split_and!; [eexists; by eapply set_class|apply uniform_nil|done| |done]. intros _.
    apply orb_false_iff in H as [_ H]. apply andb_false_iff in H as [H|H]; apply negb_false_iff in H; rewrite !andb_true_iff in H;
      [left; tauto|right; by destruct H as [[_ H%negb_true_iff] _]].
  - assert (s = []) as -> by (destruct s; [done|discriminate Hs]).
    unfold validateRelayTransactionAbsenceObservationSet in Hsets. destruct t as [|first' t']; [discriminate|].
    repeat (apply bind_Ok in Hsets as (? & ? & Hsets)). rewrite !orb_false_iff, !negb_false_iff in H.
    split_and!; [apply uniform_nil|eexists; by eapply set_class|done|done|]. tauto.
Qed.

Lemma corroborated_none references : uniform references -> corroboratedFirst references = Ok false ->
  forall r, r ∈ references -> ar_TerminalEvidenceClass r = ValidatorFinality.
Proof.
  intros [class Hu] H r Hr. destruct references as [|f references]; [by apply elem_of_nil in Hr|].
  unfold corroboratedFirst in H. cbn in H. injection H as H. apply negb_false_iff, same_eq in H.
  rewrite (Hu r Hr). rewrite <-(Hu f); [done|left].
Qed.

Definition finalizedOutcome (o : TerminalOutcome) : bool := same o OutcomeFinalizedSuccess || finalizedNegative o.

Lemma relay_terminal body : checkRelayTerminal body = Ok tt -> hasRelayTerminal body = true ->
  (fe_RelayTerminalEvidenceClass body = ValidatorFinality /\ RelayValidatorAuthenticatedPortableProof body = Some true) \/
  (fe_RelayTerminalEvidenceClass body = ProviderCorroborated /\ fe_AssuranceLevel body <> AssuranceAutonomousDecentralized).
Proof.
  unfold checkRelayTerminal. intros (? & _ & H)%bind_Ok Ht. rewrite Ht in H. apply bind_Ok in H as (profile & _ & H).
  apply fail_if_Ok in H. rewrite !orb_false_iff, negb_false_iff, orb_true_iff, !andb_true_iff in H. destruct_and!.
  match goal with Hc : _ \/ _ |- _ => destruct Hc as [[Hc%same_eq Hp%same_eq]|[[Hc%same_eq _] Ha]] end; [by left|right].
  split; [done|]. apply negb_true_iff in Ha. unfold same in Ha. by apply bool_decide_eq_false in Ha.
Qed.

Lemma sponsorship_evidence body e : checkSponsorshipEvidence body = Ok tt -> fe_SponsorshipTransactionEvidence body = Some e ->
  (te_TerminalEvidenceClass e = ValidatorFinality /\ ValidatorAuthenticatedPortableProof e = true) \/
  (te_TerminalEvidenceClass e = ClientCorroborated /\
   (Outcome body = OutcomeCorroboratedSponsorshipOnly \/ Outcome body = OutcomeCorroboratedSuccess)).
Proof.
  unfold checkSponsorshipEvidence. destruct (validSponsorshipIdentityPair _ _) as [hasIdentity valid].
  intros (? & _ & H)%bind_Ok He. rewrite He in H. apply bind_Ok in H as (profile & _ & H). apply bind_Ok in H as (? & Hshape & H).
  apply bind_Ok in H as (network & _ & H). apply bind_Ok in H as (? & _ & H). apply fail_if_Ok in H.
  apply fail_if_Ok, negb_false_iff in Hshape. unfold validateRelaySponsorshipTransactionEvidenceShape in Hshape.
  rewrite !andb_true_iff in Hshape. destruct_and!.
  match goal with Hc : same (te_TerminalEvidenceClass e) _ && _ || _ = true |- _ => rename Hc into Hclass end.
  apply orb_true_iff in Hclass as [[Hc%same_eq Hp]%andb_true_iff|[Hc%same_eq Hp]%andb_true_iff].
  - by left.
  - right. split; [done|]. rewrite Hc in H. rewrite (proj2 (same_true _ _) eq_refl) in H. cbn [andb] in H.
    apply orb_false_iff in H as [_ H]. apply andb_false_iff in H as [H|H]; apply negb_false_iff, same_eq in H; auto.
Qed.

(** The parts of a valid body. *)
Lemma body_steps body : validateRelayFinalityEvidenceBody body = Ok tt ->
  checkRelayTerminal body = Ok tt /\ checkSponsorshipEvidence body = Ok tt /\ checkAbsenceComponents body = Ok tt /\ checkOutcome body = Ok tt.
Proof.
  unfold validateRelayFinalityEvidenceBody. intros H. repeat (apply bind_Ok in H as ([] & ? & H)). done.
Qed.

Lemma filled_nil {X} (l : list X) : filled l = false -> l = [].
Proof. by destruct l. Qed.

Lemma first_validator references lower : corroboratedFirst references = Ok lower -> lower = false -> uniform references ->
  forall r, r ∈ references -> ar_TerminalEvidenceClass r = ValidatorFinality.
Proof. intros H -> Hu. by apply corroborated_none. Qed.

(** What a finalized outcome demands of the classes in the body. *)
Definition validator_only (body : RelayFinalityEvidenceBody) : Prop :=
  (hasRelayTerminal body = true -> fe_RelayTerminalEvidenceClass body = ValidatorFinality) /\
  (forall r, r ∈ fe_SponsorshipAbsenceObservations body ++ fe_TransactionAbsenceObservations body ->
     ar_TerminalEvidenceClass r = ValidatorFinality).

Lemma negative_checks body : uniform (fe_SponsorshipAbsenceObservations body) -> uniform (fe_TransactionAbsenceObservations body) ->
  absence_shape body -> relayOnlyOutcome (Outcome body) = false -> sponsorshipOnlyOutcome (Outcome body) = false ->
  (if filled (fe_SponsorshipAbsenceObservations body) then
     lower ← corroboratedFirst (fe_SponsorshipAbsenceObservations body);
     lowerTransaction ← corroboratedFirst (fe_TransactionAbsenceObservations body);
     fail_if (negb (validatorProfile (fe_SponsorshipTerminalProfile body)) || lower || lowerTransaction)
       "validator-finalized sponsorship absence lacks validator evidence"%string
   else fail_if (negb (hasRelayTerminal body) || negb (same (fe_RelayTerminalEvidenceClass body) ValidatorFinality))
     "validator-finalized relay result lacks validator evidence"%string) = Ok tt -> validator_only body.
Proof.
  intros Hus Hut (_ & Hsponsor & Htransaction) Hro Hso H. unfold validator_only.
  destruct (filled (fe_SponsorshipAbsenceObservations body)) eqn:Hs.
  - apply bind_Ok in H as (lower & Hl & H). apply bind_Ok in H as (lower' & Hl' & H). apply fail_if_Ok in H.
    rewrite !orb_false_iff in H. destruct H as [[_ Hlow] Hlow']. split.
    + destruct (Hsponsor eq_refl) as [Hbad|Hno]; [by rewrite Hro in Hbad|by rewrite Hno].
    + intros r [Hr|Hr]%elem_of_app; [by eapply (first_validator _ _ Hl)|by eapply (first_validator _ _ Hl')].
  - apply fail_if_Ok, orb_false_iff in H as [_ Hclass%negb_false_iff%same_eq]. split; [done|].
    destruct (filled (fe_TransactionAbsenceObservations body)) eqn:Ht; [by rewrite Hso in Htransaction; specialize (Htransaction eq_refl eq_refl)|].
    rewrite (filled_nil _ Hs), (filled_nil _ Ht). intros r []%elem_of_nil.
Qed.

Lemma finalized_checks body : checkOutcome body = Ok tt -> finalizedOutcome (Outcome body) = true ->
  uniform (fe_SponsorshipAbsenceObservations body) -> uniform (fe_TransactionAbsenceObservations body) -> absence_shape body ->
  validator_only body.
Proof.
  intros H Hf Hus Hut Hshape. pose proof (negative_checks body Hus Hut Hshape) as Hnegative. revert H Hnegative.
  unfold checkOutcome, validator_only. destruct (validSponsorshipIdentityPair _ _) as [hasIdentity valid].
  destruct (Outcome body) eqn:Ho; try discriminate Hf; clear Hf; intros H Hnegative;
    try (apply Hnegative; [reflexivity|reflexivity|exact H]); clear Hnegative.
  - apply fail_if_Ok in H. rewrite !orb_false_iff, !negb_false_iff in H. destruct H as [[[[_ _] [Hs Ht]] Hclass%same_eq] _].
    rewrite (filled_nil _ Hs), (filled_nil _ Ht). split; [done|]. intros r []%elem_of_nil.
  - apply bind_Ok in H as (? & Hg & H). apply bind_Ok in H as (e & _ & H). apply bind_Ok in H as (lower & Hl & H).
    apply bind_Ok in H as (? & Hc & Hterm%fail_if_Ok). split; [by rewrite Hterm|].
    apply fail_if_Ok in Hg. rewrite !orb_false_iff in Hg. destruct_and!. rewrite (filled_nil (fe_SponsorshipAbsenceObservations body)) by done.
    change (same OutcomeFinalizedSponsorshipOnly OutcomeFinalizedSponsorshipOnly) with true in Hc.
    apply fail_if_Ok, orb_false_iff in Hc as [_ Hlow]. by apply (first_validator _ _ Hl Hlow).
  - apply bind_Ok in H as (lower & Hl & H). apply fail_if_Ok in H. rewrite !orb_false_iff in H.
    destruct H as [[[[[[[[_ _] Ht] _] _] _] _] Hall] _].
    change (same OutcomeFinalizedRelayOnly OutcomeFinalizedRelayOnly) with true in Hall. cbn [andb] in Hall. apply negb_false_iff in Hall.
    rewrite !andb_true_iff, negb_true_iff in Hall. destruct Hall as [[[Hclass%same_eq _] _] Hlow].
    rewrite (filled_nil _ Ht), app_nil_r. split; [done|]. by apply (first_validator _ _ Hl Hlow).
Qed.

Lemma autonomous_finalized body : checkOutcome body = Ok tt -> validOutcome (Outcome body) = true ->
  fe_AssuranceLevel body = AssuranceAutonomousDecentralized -> finalizedOutcome (Outcome body) = true.
Proof.
  unfold checkOutcome. intros H Hv Ha. destruct (validSponsorshipIdentityPair _ _) as [hasIdentity valid]. rewrite Ha in H.
  change (same AssuranceAutonomousDecentralized AssuranceAutonomousDecentralized) with true in H.
  destruct (Outcome body) eqn:Ho; try discriminate Hv; try reflexivity; exfalso.
  - apply fail_if_Ok in H. discriminate H.
  - apply bind_Ok in H as (? & H & _). discriminate H.
  - apply bind_Ok in H as (? & H & _). discriminate H.
  - apply bind_Ok in H as (? & H & _). discriminate H.
  - apply bind_Ok in H as (? & _ & H). apply bind_Ok in H as (e & _ & H). apply bind_Ok in H as (lower & _ & H).
    apply bind_Ok in H as (? & H & _). discriminate H.
  - apply bind_Ok in H as (lower & _ & H). apply fail_if_Ok in H. rewrite !orb_false_iff in H.
    destruct H as [[[[[[[[Hauto _] _] _] _] _] _] _] Hall].
    change (same OutcomeCorroboratedRelayOnly OutcomeCorroboratedRelayOnly) with true in Hall. cbn [andb] in Hauto, Hall.
    rewrite Hall in Hauto. discriminate Hauto.
Qed.

Lemma envelope_outcome body : finalityEnvelope body = Ok tt -> validOutcome (Outcome body) = true.
Proof.
  unfold finalityEnvelope. destruct (validSponsorshipIdentityPair _ _) as [hasIdentity valid]. intros H%fail_if_Ok.
  rewrite !orb_false_iff, !negb_false_iff in H. destruct_and!. assumption.
Qed.

(** C18: signed evidence does not overstate its assurance.  When a finality evidence body is valid and its outcome is a
    finalized one, every component in it is authenticated by validators: the relayed transaction's result, the
    provider's sponsorship payment, and each absence observation.  Under the autonomous assurance level every valid
    body has a finalized outcome. *)
Theorem finalized_evidence_is_validator (body : RelayFinalityEvidenceBody) :
  validateRelayFinalityEvidenceBody body = Ok tt ->
  (fe_AssuranceLevel body = AssuranceAutonomousDecentralized -> finalizedOutcome (Outcome body) = true) /\
  (finalizedOutcome (Outcome body) = true ->
     (hasRelayTerminal body = true ->
        fe_RelayTerminalEvidenceClass body = ValidatorFinality /\ RelayValidatorAuthenticatedPortableProof body = Some true) /\
     (forall e, fe_SponsorshipTransactionEvidence body = Some e ->
        te_TerminalEvidenceClass e = ValidatorFinality /\ ValidatorAuthenticatedPortableProof e = true) /\
     (forall r, r ∈ fe_SponsorshipAbsenceObservations body ++ fe_TransactionAbsenceObservations body ->
        ar_TerminalEvidenceClass r = ValidatorFinality)).
Proof.
  intros H. destruct (body_steps _ H) as (Hrelay & Hsponsor & Habsence & Houtcome). split.
  - apply autonomous_finalized; [done|]. unfold validateRelayFinalityEvidenceBody in H. apply bind_Ok in H as ([] & H & _).
    by apply envelope_outcome.
  - intros Hf. destruct (absence_components _ Habsence) as (Hus & Hut & Hshape).
    destruct (finalized_checks _ Houtcome Hf Hus Hut Hshape) as [Hclass Hrefs]. split_and!; [..|done].
    + intros Ht. specialize (Hclass Ht). destruct (relay_terminal _ Hrelay Ht) as [?|[Hc _]]; [done|congruence].
    + intros e He. destruct (sponsorship_evidence _ _ Hsponsor He) as [?|[_ [Ho|Ho]]]; [done|..]; rewrite Ho in Hf; discriminate Hf.
Qed.

(** *** No nil dereference *)

Lemma first_total {X} (l : list X) : filled l = true -> no_panic (first l).
Proof. by destruct l. Qed.

Lemma corroborated_total references : no_panic (corroboratedFirst references).
Proof. by destruct references. Qed.

Lemma relay_terminal_total body : no_panic (checkRelayTerminal body).
Proof.
  unfold checkRelayTerminal. apply bind_no_panic; [case_match; auto with no_panic|]. intros u Hu.
  destruct (hasRelayTerminal body) eqn:Ht; [|done]. apply bind_no_panic; [|intros; auto with no_panic].
  destruct (fe_RelayFinalityProfile body); [done|]. by apply fail_if_Ok in Hu.
Qed.

Lemma sponsorship_evidence_total body : no_panic (checkSponsorshipEvidence body).
Proof.
  unfold checkSponsorshipEvidence. destruct (validSponsorshipIdentityPair _ _) as [hasIdentity valid].
  apply bind_no_panic; [case_match; auto with no_panic|]. intros u Hu.
  destruct (fe_SponsorshipTransactionEvidence body) as [e|]; [|done].
  destruct (fe_SponsorshipTerminalProfile body); [|by apply fail_if_Ok in Hu; rewrite !orb_false_iff in Hu; destruct_and!].
  cbn [deref]. solve_total.
Qed.

Lemma absence_total body : checkSponsorshipEvidence body = Ok tt -> no_panic (checkAbsenceComponents body).
Proof.
  unfold checkSponsorshipEvidence, checkAbsenceComponents. destruct (validSponsorshipIdentityPair _ _) as [hasIdentity valid].
  intros (u & Hu & _)%bind_Ok. set (s := fe_SponsorshipAbsenceObservations body) in *. set (t := fe_TransactionAbsenceObservations body) in *.
  destruct (filled s || filled t) eqn:Hany; [|done].
  destruct (fe_SponsorshipTerminalProfile body) as [profile|]; [|by apply fail_if_Ok in Hu; rewrite !orb_false_iff in Hu; destruct_and!].
  cbn [deref]. apply bind_no_panic; [done|]. intros p _. apply bind_no_panic.
  { apply first_total. destruct (filled s) eqn:Hs; [done|exact Hany]. }
  intros reference _. apply bind_no_panic; [auto with no_panic|]. intros network _. apply bind_no_panic; [|intros; auto with no_panic].
  apply or_err_no_panic. set (ctx := evidenceAbsenceContext _ _ _ _).
  pose proof (fun c => proj1 (notBefore_total ctx c)) as Hnb. pose proof (fun c => proj2 (notBefore_total ctx c)) as Hnt.
  assert (forall l : list RelayAbsenceObservationReference, filled l = true -> l <> []) as Hne by (by intros [|? ?]).
  destruct (filled s) eqn:Hs, (filled t) eqn:Ht; cbn [andb]; [..|discriminate Hany];
    unfold validateRelayAbsenceObservationSets, validateRelaySponsorshipAbsenceObservationSet,
      validateRelayTransactionAbsenceObservationSet, validateRelayAbsenceOutcomeClass;
    solve_total; first [by apply set_total, Hne | by apply (Hnb NoConclusion) | by apply Hnt | by apply set_total].
Qed.

Lemma deref_total {X} (pointer : option X) : present pointer = true -> no_panic (deref pointer).
Proof. by destruct pointer. Qed.

Lemma guarded_deref {X} (guard : bool) (pointer : option X) (message : string) :
  fail_if (guard || negb (present pointer)) message = Ok tt -> no_panic (deref pointer).
Proof. intros [_ H%negb_false_iff]%fail_if_Ok%orb_false_iff. by apply deref_total. Qed.

Lemma outcome_total body : no_panic (checkOutcome body).
Proof.
  unfold checkOutcome. destruct (validSponsorshipIdentityPair _ _) as [hasIdentity valid]. pose proof corroborated_total as Hc.
  destruct (Outcome body);
    try (apply bind_no_panic; [apply fail_if_no_panic|]; intros [] Hg; apply bind_no_panic; [exact (guarded_deref _ _ _ Hg)|]; intros e _);
    solve_total; apply Hc.
Qed.

(** Checking finality evidence always returns: no pointer the body leaves nil is dereferenced and no empty list of
    observations is indexed, whatever the body and the bytes of its proof bundle. *)
Theorem finality_validation_total (body : RelayFinalityEvidenceBody) :
  no_panic (validateRelayFinalityEvidenceBody body) /\ no_panic (RelayFinalityEvidenceDigest body).
Proof.
  assert (no_panic (validateRelayFinalityEvidenceBody body)) as Hv.
  { unfold validateRelayFinalityEvidenceBody. apply bind_no_panic.
    { unfold finalityEnvelope. destruct (validSponsorshipIdentityPair _ _). auto with no_panic. }
    intros _ _. apply bind_no_panic; [apply bundle_total|]. intros _ _. apply bind_no_panic; [apply relay_terminal_total|].
    intros _ _. apply bind_no_panic; [apply sponsorship_evidence_total|]. intros [] Hs. apply bind_no_panic; [by apply absence_total|].
    intros _ _. apply outcome_total. }
  split; [done|]. unfold RelayFinalityEvidenceDigest. apply bind_no_panic; [done|]. intros _ _. auto with no_panic.
Qed.
End Evidence.

(** ** Signed documents verify *)

Section Roundtrip.
Context `{C : RelayCodec} `{AC : AbsenceCodec} `{FC : FinalityCodec}.
Variables (Sign : string -> string) (public : string).
Hypothesis key_size : slen public = PublicKeySize.
Hypothesis signature_size : forall m, slen (Sign m) = SignatureSize.
Hypothesis sign_verifies : forall m, ed25519_Verify public m (Sign m) = true.

Lemma agent_signature network agent domain canonical (authorize : AgentKeyResolver) at_ : authorize network agent public at_ = Ok tt ->
  verifyAgentSignature network agent (key_text public) (signature_text (Sign (signatureMessage domain canonical))) domain
    (Some canonical) (Some authorize) at_ = Ok tt.
Proof using key_size signature_size sign_verifies.
  intros Ha. unfold verifyAgentSignature, parsePublicKey, parseSignature. cbn [opt_err mbind result_bind].
  rewrite (parse_key_text _ _ _ key_size). cbn [or_err mbind result_bind]. rewrite Ha. cbn [or_err mbind result_bind].
  rewrite (parse_signature_text _ _ _ (signature_size _)). cbn [opt_err mbind result_bind]. by rewrite sign_verifies.
Qed.

(** The instants of the next two centuries or so. *)
Definition presentDay (t : Time) : Prop := unixToInternal <= t_sec t < 2 ^ 62.

Lemma present_unix t : presentDay t -> Unix t = unixSeconds t.
Proof. unfold presentDay, Unix, unixSeconds, int64, two64, unixToInternal. intros H. rewrite Z.mod_small; lia. Qed.

Lemma present_later t d : presentDay t -> 0 < d <= 86400 -> Unix (AddSeconds t d) = unixSeconds t + d.
Proof.
  unfold presentDay, Unix, AddSeconds, unixSeconds, int64, two64, unixToInternal. intros H Hd. cbn [t_sec].
  rewrite (Z.mod_small (t_sec t + d + 2 ^ 63)) by lia.
  assert ((t_sec t <? t_sec t + d + 2 ^ 63 - 2 ^ 63) = true) as -> by (apply Z.ltb_lt; lia).
  assert ((0 <? d) = true) as -> by (apply Z.ltb_lt; lia). cbn [Bool.eqb]. rewrite Z.mod_small; lia.
Qed.

(** A provider's resolution verifies from five minutes before its observation until it expires, and its finality
    evidence at any time from five minutes before its signing time on, for a client whose resolver authorizes the
    provider's key. *)
Theorem finality_documents_roundtrip (authorize : AgentKeyResolver) (now : Time) :
  presentDay now ->
  (forall body canonical, validateRelayResolutionBody body = Ok tt -> marshal_resolution body = Some canonical ->
     authorize (rr_Network body) (rr_ProviderAgentID body) public now = Ok tt ->
     rr_ObservedAtUnix body - 300 <= unixSeconds now < rr_ExpiresAtUnix body ->
     exists signed, SignRelayResolution Sign public body = Ok signed /\ rr_Body signed = body /\
       VerifyRelayResolution signed (Some authorize) now = Ok tt) /\
  (forall body canonical, validateRelayFinalityEvidenceBody body = Ok tt -> marshal_finality body = Some canonical ->
     authorize (fe_Network body) (fe_ProviderAgentID body) public (UnixTime (SigningAuthorityAtUnix body)) = Ok tt ->
     SigningAuthorityAtUnix body <= MaxInt64 -> SigningAuthorityAtUnix body - 300 <= unixSeconds now ->
     exists signed, SignRelayFinalityEvidence Sign public body = Ok signed /\ fe_Body signed = body /\
       VerifyRelayFinalityEvidence signed (Some authorize) now = Ok tt).
Proof using key_size signature_size sign_verifies.
  intros Hnow. assert (0 <= unixSeconds now) as Hpos by (unfold presentDay, unixSeconds in *; lia). split; intros body canonical Hv Hm Ha.
  - intros Hw. unfold SignRelayResolution, encoded. rewrite Hv, Hm. cbn [mbind result_bind opt_err]. eexists. split; [done|]. split; [done|].
    unfold VerifyRelayResolution. cbn [rr_Body rr_PublicKey rr_Signature]. rewrite Hv, Hm. cbn [mbind result_bind].
    rewrite (present_later now (5 * 60) Hnow), (present_unix now Hnow) by lia.
    assert ((unixSeconds now <? 0) || (unixSeconds now + 5 * 60 <? 0) || (unixSeconds now + 5 * 60 <? rr_ObservedAtUnix body) ||
            (rr_ExpiresAtUnix body <=? unixSeconds now) = false) as ->.
    { rewrite !orb_false_iff, !Z.ltb_ge, Z.leb_gt. lia. }
    cbn [fail_if mbind result_bind]. by apply agent_signature.
  - intros Hmax Hw. unfold SignRelayFinalityEvidence, encoded. rewrite Hv, Hm. cbn [mbind result_bind opt_err]. eexists. split; [done|]. split; [done|].
    unfold VerifyRelayFinalityEvidence. cbn [fe_Body fe_PublicKey fe_Signature]. rewrite Hv, Hm. cbn [mbind result_bind].
    rewrite (present_unix now Hnow).
    assert ((unixSeconds now <? 0) || (MaxInt64 <? SigningAuthorityAtUnix body) ||
            ((unixSeconds now <? SigningAuthorityAtUnix body) && (5 * 60 <? SigningAuthorityAtUnix body - unixSeconds now)) = false) as ->.
    { rewrite !orb_false_iff, andb_false_iff, !Z.ltb_ge. lia. }
    cbn [fail_if mbind result_bind]. by apply agent_signature.
Qed.
End Roundtrip.

(** ** Corroborated success of a relay-only execution *)

(** The journal closes a relay-only action with a corroborated success and the evidence's mode check accepts it, but no
    client accepts the resolution that reports it. *)
Theorem corroborated_relay_resolution_refused `{C : RelayCodec} `{FC : FinalityCodec} (signed : SignedRelayResolution)
    (request : RelayExecutionRequest) (resolver : option AgentKeyResolver) (now : Time) :
  qr_Mode (qr_Body (QuoteRequest request)) = ModeRelayExact ->
  rr_TerminalOutcome (rr_Body signed) = OutcomeCorroboratedSuccess ->
  validRelayModeState ModeRelayExact ActionTerminal OutcomeCorroboratedSuccess "" false false false = true /\
  VerifyRelayResolutionForExecution signed request resolver now <> Ok tt.
Proof.
  intros Hmode Ho. split; [reflexivity|]. unfold VerifyRelayResolutionForExecution. intros H.
  apply bind_Ok in H as (? & _ & H). apply bind_Ok in H as (? & _ & H). apply bind_Ok in H as (? & _ & H). apply bind_Ok in H as (? & _ & H).
  unfold validateRelayResolutionMode in H. rewrite Hmode, Ho in H. apply fail_if_Ok in H.
  rewrite !orb_false_iff in H. destruct H as [_ H]. discriminate H.
Qed.

(** ** Examples *)

Module Sample.
Definition dg (c : ascii) : string := "sha256:" +:+ repeat_byte c 64.
Definition codec : RelayCodec := RelayAdmission.Sample.codec.
Definition absences : AbsenceCodec := RelayAbsence.Sample.codec.
Definition documents : FinalityCodec :=
  {| marshal_resolution := fun b => Some (rr_StableActionID b); marshal_finality := fun b => Some (fe_StableActionID b) |}.
#[local] Existing Instance codec.
#[local] Existing Instance absences.
#[local] Existing Instance documents.

Definition finality : FinalityProfile := RelayAdmission.Sample.finality.

(** The validators' proof of a relayed transaction. *)
Definition relayed (level : AssuranceLevel) (class : TerminalEvidenceClass) (portable : bool) (profile : FinalityProfile) (outcome : TerminalOutcome) : RelayFinalityEvidenceBody :=
  {| fe_SchemaVersion := 1; fe_ProviderAgentID := "provider"; fe_Network := RelayAdmission.Sample.network; fe_AssuranceLevel := level;
     fe_StableActionID := dg "1"; fe_ExactRequestDigest := dg "2"; fe_RelayExecutionDigest := dg "6"; fe_SignedTransactionDigest := dg "3";
     fe_SignedTransactionCellHash := RelayAdmission.Sample.cellHash "0"; fe_TransactionValidUntilUnix := 5000; fe_SourceAccount := "0:source";
     fe_SourceSequence := 7; fe_SponsorshipStableActionID := ""; fe_SponsorshipExactRequestDigest := ""; fe_SponsorshipValidUntilUnix := 0;
     fe_SponsorshipTransferReference := ""; fe_SponsorshipTransactionEvidence := None; fe_SponsorshipAbsenceObservations := [];
     fe_TransactionAbsenceObservations := []; fe_AbsenceProofBundleDigest := ""; fe_AbsenceProofBundle := "";
     fe_SponsorshipTerminalProfile := None; fe_SubmittedTransactionHash := "hash"; fe_SourceExecutionReference := "execution";
     fe_DestinationCreditReferences := []; fe_RelayTerminalEvidenceClass := class;
     RelayValidatorAuthenticatedPortableProof := Some portable; RelayFinalizedCheckpointID := "checkpoint"; RelayFinalizedCheckpointSequence := 40;
     RelayFinalizedCheckpointUnix := 4000; RelayConfirmationDepth := 3; fe_RelayFinalityProfile := Some profile;
     RelayObservationDigests := [dg "7"]; Outcome := outcome; fe_ObservedAtUnix := 4100; SigningAuthorityAtUnix := 4100 |}.
Definition evidence : RelayFinalityEvidenceBody :=
  relayed AssuranceAutonomousDecentralized ValidatorFinality true finality OutcomeFinalizedSuccess.

Definition resolution : RelayResolutionBody :=
  {| rr_SchemaVersion := 1; rr_ProviderAgentID := "provider"; rr_Network := RelayAdmission.Sample.network;
     rr_AssuranceLevel := AssuranceAutonomousDecentralized; rr_StableActionID := dg "1"; rr_ExactRequestDigest := dg "2";
     rr_RelayExecutionDigest := dg "6"; rr_State := ActionTerminal; rr_StateRevision := 4; rr_TerminalOutcome := OutcomeFinalizedSuccess;
     rr_TransactionReference := "hash"; rr_SponsorshipStableActionID := ""; rr_SponsorshipExactRequestDigest := "";
     rr_SponsorshipValidUntilUnix := 0; rr_SponsorshipTransferReference := ""; SponsorshipStatus := NoStatus;
     SponsorshipObservationDigest := ""; EvidenceSetDigest := dg "8"; rr_ObservedAtUnix := 4100; rr_ExpiresAtUnix := 4400 |}.

Definition public : string := RelayAdmission.Sample.public.
Definition Sign : string -> string := RelayAdmission.Sample.Sign.
Definition agents : AgentKeyResolver := fun _ agent key _ => fail_if (negb (streq key public)) "untrusted key"%string.
Definition now : Time := UnixTime 4200.

Lemma finality_documents_roundtrip_witness :
  (exists signed, SignRelayResolution Sign public resolution = Ok signed /\ rr_Body signed = resolution /\
     VerifyRelayResolution signed (Some agents) now = Ok tt) /\
  (exists signed, SignRelayFinalityEvidence Sign public evidence = Ok signed /\ fe_Body signed = evidence /\
     VerifyRelayFinalityEvidence signed (Some agents) now = Ok tt).
Proof.
  destruct (finality_documents_roundtrip (C := codec) Sign public eq_refl (fun _ => eq_refl) (fun _ => eq_refl) agents now) as [Hr He].
  - vm_compute. split; [discriminate|reflexivity].
  - split; [apply (Hr resolution (dg "1"))|apply (He evidence (dg "1"))]; vm_compute; try reflexivity; try discriminate.
    split; [discriminate|reflexivity].
Defined.

Lemma finalized_evidence_is_validator_witness :
  validateRelayFinalityEvidenceBody evidence = Ok tt /\ fe_RelayTerminalEvidenceClass evidence = ValidatorFinality /\
  RelayValidatorAuthenticatedPortableProof evidence = Some true.
Proof.
  assert (validateRelayFinalityEvidenceBody evidence = Ok tt) as H by (vm_compute; reflexivity). split; [exact H|].
  destruct (finalized_evidence_is_validator evidence H) as [Hlevel Hclass].
  exact (proj1 (Hclass (Hlevel eq_refl)) eq_refl).
Defined.

(** Evidence of a corroborated success of a relay-only execution is valid for its mode. *)
Definition corroborated : RelayFinalityEvidenceBody :=
  relayed AssuranceAuthorizedSingleProvider ProviderCorroborated false
    {| ProfileURI := ProviderCorroboratedTerminalProfileURI; ProfileDigest := dg "0"; fp_TerminalEvidenceClass := ProviderCorroborated;
       MinimumConfirmationDepth := 1; MinimumObservers := 1; MinimumOperatorDomains := 1; ReorgWindowSeconds := 10;
       MaximumResolutionSeconds := 60 |} OutcomeCorroboratedSuccess.
Example corroborated_relay_evidence_valid :
  validateRelayFinalityEvidenceBody corroborated = Ok tt /\ validateRelayFinalityEvidenceMode corroborated ModeRelayExact = Ok tt.
Proof. vm_compute. split; reflexivity. Qed.
End Sample.
