(* ===== verification/RelaySafety.v ===== *)
(** * What the relay provider's journal guarantees

    Any sequence of operations on a fresh [MemoryJournal]: the invariant of its
    records and reservations, the bounds on exposure and on concurrent work, the
    single use of quotes, and the single payment identity of a record. *)

From S2P Require Import Prelude Text Codec Semantic Authority Amounts Billing Payment RelayTypes RelayAbsence RelayAdmission AgentRelay.

(** ** Documents whose digest exists *)

Lemma SetString10_FormatZ z : 0 <= z -> SetString10 (FormatZ z) = Some z.
Proof. intros Hz. rewrite <-(Z2N.id z Hz). by rewrite FormatZ_of_N, SetString10_FormatN. Qed.

Lemma validateAmount_positive a : validateAmount a true = true -> exists n, SetString10 (AmountAtomic a) = Some n /\ 0 < n.
Proof.
  unfold validateAmount. intros [[_ (n & Hn & Hf)%canonicalAtomic_value]%andb_true_iff Hz]%andb_true_iff.
  exists (Z.of_N n). split; [done|]. destruct n; [|lia]. rewrite <-Hf in Hz. done.
Qed.

Section Digests.
Context `{C : RelayCodec} `{AC : AbsenceCodec}.

Lemma quote_reserves body d a :
  ProviderRelayQuoteDigest body = Ok d -> ReservedSponsorship body = Some a ->
  exists n, SetString10 (AmountAtomic a) = Some n /\ 0 < n.
Proof.
  unfold ProviderRelayQuoteDigest, validateProviderRelayQuoteShape. intros H Ha.
  apply bind_Ok in H as (u & H & _). apply bind_Ok in H as (u1 & H1 & H). apply bind_Ok in H as (u2 & _ & H).
  unfold reservedPositive in H. rewrite Ha in H. destruct (pq_Mode body) eqn:Hm; [| | |clear H].
  1-3: apply fail_if_Ok in H; rewrite ?orb_false_iff, ?negb_false_iff in H; destruct_and?;
    try done; by apply validateAmount_positive.
  apply fail_if_Ok in H1. rewrite ?orb_false_iff, ?negb_false_iff in H1. destruct_and?. done.
Qed.

Lemma evidence_reference e d : RelaySponsorshipTransactionEvidenceDigest e = Ok d -> SubmittedTransactionHash e <> ""%string.
Proof.
  unfold RelaySponsorshipTransactionEvidenceDigest. intros (u & Hs & _)%bind_Ok Heq.
  apply fail_if_Ok, negb_false_iff in Hs.
  unfold validateRelaySponsorshipTransactionEvidenceShape in Hs. rewrite Heq, !andb_true_iff in Hs. destruct_and?. done.
Qed.
End Digests.

(** ** Runs *)

Inductive Op :=
  | OpReserveQuote (profile : RelayServiceProfile) (request : SignedRelayQuoteRequest) (proposal : SignedProviderRelayQuote) (now : Z)
  | OpAdmit (request : RelayExecutionRequest) (now : Z)
  | OpBeginSponsorship (stable exact : string) (revision : Z) (handle : SponsorshipRecoveryHandle) (at_ : Z)
  | OpRecordObservation (stable exact : string) (revision : Z) (o : RelaySponsorshipCreditObservation) (at_ : Z)
  | OpRecordSponsorship (stable exact : string) (revision : Z) (e : RelaySponsorshipTransactionEvidence) (at_ : Z)
  | OpRecordAbsence (stable exact : string) (revision : Z) (a : AbsenceReport) (at_ : Z)
  | OpReleaseExposure (stable exact : string) (revision : Z) (refs : list string) (at_ : Z)
  | OpTransition (stable exact : string) (revision : Z) (target : ActionResolutionState) (reference : string)
      (refs : list string) (o : TerminalOutcome) (at_ : Z).

(** One successful check after another, until none is left. *)
Ltac passed H :=
  repeat (apply bind_Ok in H; let u := fresh in let G := fresh "G" in destruct H as (u & G & H); try apply fail_if_Ok in G).

Section Runs.
Context `{C : RelayCodec} `{AC : AbsenceCodec}.

Definition exec (j : MemoryJournal) (op : Op) : MemoryJournal :=
  match op with
  | OpReserveQuote profile request proposal now => (ReserveQuote j profile request proposal now).1
  | OpAdmit request now => (Admit j request now).1
  | OpBeginSponsorship stable exact revision h at_ => (BeginSponsorship j stable exact revision h at_).1
  | OpRecordObservation stable exact revision o at_ => (RecordSponsorshipObservation j stable exact revision o at_).1
  | OpRecordSponsorship stable exact revision e at_ => (RecordSponsorship j stable exact revision e at_).1
  | OpRecordAbsence stable exact revision a at_ => (RecordSponsorshipAbsence j stable exact revision a at_).1
  | OpReleaseExposure stable exact revision refs at_ => (ReleaseSponsorshipExposure j stable exact revision refs at_).1
  | OpTransition stable exact revision target reference refs o at_ =>
      (Transition j stable exact revision target reference refs o at_).1
  end.

Definition run (ops : list Op) : MemoryJournal := foldl exec NewMemoryJournal ops.

(** ** One record *)

(** What holds of every record: its transfer reference is that of its evidence, a
    payment it stands for is in flight, transferred or closed, and settlement
    evidence belongs to a closed record with a transfer. *)
Record record_ok (r : RelayRecord) : Prop := {
  ok_evidence : SponsorshipTransactionEvidence r = None -> SponsorshipTransferReference r = ""%string;
  ok_payment : payment r = noPayment \/ SponsorshipAttempted (recovery r) = true \/
               SponsorshipTransferReference r <> ""%string \/ State r = ActionTerminal;
  ok_settled : SponsorshipExposureReleaseEvidenceRefs r <> [] -> State r = ActionTerminal /\ SponsorshipTransferReference r <> ""%string }.

(** How one operation may change a record. *)
Record advances (r r' : RelayRecord) : Prop := {
  adv_identity : identity r' = identity r;
  adv_revision : StateRevision r' = wrap64 (StateRevision r + 1);
  adv_payment : payment r' = payment r \/ payment r = noPayment;
  adv_reference : SponsorshipTransferReference r' = SponsorshipTransferReference r \/
                  (SponsorshipTransferReference r = ""%string /\ closedState (State r) = false);
  adv_state : State r' = State r \/ (openState (State r) = true /\ validRelayTransition (State r) (State r') = true);
  adv_closed : closedState (State r) = true ->
    State r = ActionTerminal /\ State r' = State r /\ RecordTerminalOutcome r' = RecordTerminalOutcome r /\
    EvidenceRefs r' = EvidenceRefs r /\ absence r' = absence r /\ SponsorshipExposureReleaseEvidenceRefs r = [];
  adv_settled : SponsorshipExposureReleaseEvidenceRefs r' = SponsorshipExposureReleaseEvidenceRefs r \/
                SponsorshipExposureReleaseEvidenceRefs r = [] }.

(** An edit is sound on a record when what it writes is a good successor, and it asks
    for the release of the exposure exactly when the record is closed. *)
Definition sound (f : RelayRecord -> result string edit) : Prop :=
  forall r r' release, record_ok r -> f r = Ok (Write r' release) ->
    record_ok r' /\ advances r r' /\ release = closedState (State r').

Lemma openState_cases s : openState s = true -> s = ActionPrepared \/ s = ActionSubmitted \/ s = ActionAccepted.
Proof. unfold openState. rewrite !orb_true_iff, !same_true. tauto. Qed.

Lemma open_not_closed s : openState s = true -> closedState s = false.
Proof. by intros [-> | [-> | ->]]%openState_cases. Qed.

Lemma open_terminal s : openState s = true -> validRelayTransition s ActionTerminal = true.
Proof. by intros [-> | [-> | ->]]%openState_cases. Qed.

Lemma transition_open s t : validRelayTransition s t = true -> openState s = true.
Proof. by destruct s. Qed.

Lemma begin_sound revision h digest at_ :
  validSponsorshipIdentity (HandleStableActionID h) (HandleExactRequestDigest h) = true ->
  sound (beginEdit revision h digest at_).
Proof.
  intros Hid r r' release [He Hp Hs] H. unfold beginEdit in H.
  apply bind_Ok in H as (u & Hg & H). apply bind_Ok in H as (profile & _ & H). apply bind_Ok in H as (u' & _ & H).
  apply fail_if_Ok in Hg. guard_facts.
  destruct (SponsorshipAttempted (recovery r)) eqn:Ha.
  { apply bind_Ok in H as (? & _ & [=]). }
  apply bind_Ok in H as (? & Hrev & [= <- <-]).
  assert (payment r = noPayment) as Hno by (destruct Hp as [?|[?|[?|?]]]; congruence).
  split; [|split]; [split; cbn; [done|by right; left|]|split; cbn; eauto|]; cbn.
  - intros [Ht _]%Hs. congruence.
  - intros Hc. match goal with E : State r = _ |- _ => by rewrite E in Hc end.
  - by match goal with E : State r = _ |- _ => rewrite E end.
Qed.

(** A write that keeps the state open, the payment, and what was settled. *)
Lemma observed_sound r o at_ : record_ok r -> openState (State r) = true ->
  record_ok (observed r o at_) /\ advances r (observed r o at_) /\ false = closedState (State (observed r o at_)).
Proof.
  intros [He Hp Hs] Ho. pose proof (open_not_closed _ Ho) as Hc.
  split; [done|]. split; [split; cbn; eauto|done]. congruence.
Qed.

Lemma observe_sound revision o digest at_ : sound (observeEdit revision o digest at_).
Proof.
  intros r r' release Hok H. unfold observeEdit in H. apply bind_Ok in H as (u & Hg & H). apply fail_if_Ok in Hg. guard_facts.
  destruct (SponsorshipCreditObservation r) as [existing|].
  - destruct (RelaySponsorshipCreditObservationDigest existing) as [d| |]; [|done..].
    destruct (streq d digest); [done|]. apply bind_Ok in H as (? & _ & [= <- <-]). by apply observed_sound.
  - apply bind_Ok in H as (? & _ & H). apply bind_Ok in H as (? & _ & [= <- <-]). by apply observed_sound.
Qed.

Lemma transfer_sound revision e digest at_ :
  SubmittedTransactionHash e <> ""%string -> sound (transferEdit revision e digest at_).
Proof.
  intros Hhash r r' release [He Hp Hs] H. unfold transferEdit in H. apply bind_Ok in H as (u & Hg & H).
  apply fail_if_Ok in Hg. guard_facts.
  assert (closedState (State r) = false) as Hc by by apply open_not_closed.
  destruct (SponsorshipTransactionEvidence r) as [existing|].
  { destruct (RelaySponsorshipTransactionEvidenceDigest existing); [|done..]. by apply bind_Ok in H as (? & _ & [=]). }
  apply bind_Ok in H as (? & _ & H). apply bind_Ok in H as (? & _ & [= <- <-]).
  split; [split; cbn; [done|auto|]|split; [split; cbn; auto|done]].
  - intros [Ht _]%Hs. by rewrite Ht in Hc.
  - congruence.
Qed.

Lemma settle_sound revision refs at_ : refs <> [] -> sound (settleEdit revision refs at_).
Proof.
  intros Hrefs r r' release [He Hp Hs] H. unfold settleEdit in H. case_match eqn:Hz.
  { by apply bind_Ok in H as (? & _ & [=]). }
  apply bind_Ok in H as (? & Hg & [= <- <-]). apply fail_if_Ok in Hg. guard_facts.
  assert (SponsorshipExposureReleaseEvidenceRefs r = []) as Hnil.
  { unfold zlen in Hz. destruct (SponsorshipExposureReleaseEvidenceRefs r); [done|]. cbn [length] in Hz. apply Z.ltb_ge in Hz. lia. }
  assert (State r = ActionTerminal) as Ht by done.
  assert (SponsorshipTransferReference r <> ""%string) as Href by by apply streq_false.
  split; [by split; cbn; auto|]. split; [split; cbn; auto|by cbn; rewrite Ht]. intros _. by repeat split.
Qed.

Lemma transition_sound revision target reference refs o at_ : sound (transitionEdit revision target reference refs o at_).
Proof.
  intros r r' release [He Hp Hs] H. unfold transitionEdit in H. apply bind_Ok in H as (? & Hg & H).
  do 3 (apply bind_Ok in H as (? & _ & H)). injection H as <- <-. apply fail_if_Ok in Hg. guard_facts.
  assert (openState (State r) = true) as Ho by by eapply transition_open.
  pose proof (open_not_closed _ Ho) as Hc.
  split; [split; cbn; [done| |]|split; [split; cbn; auto; congruence|done]].
  - destruct (same target ActionTerminal) eqn:Ht; [by apply same_eq in Ht as ->; auto|].
    destruct Hp as [?|[?|[?|Hterm]]]; [auto..|]. by rewrite Hterm in Hc.
  - intros [Ht _]%Hs. by rewrite Ht in Hc.
Qed.

Lemma absent_sound r a promoting merged observation superseded at_ :
  record_ok r -> openState (State r) = true -> absenceScope r a promoting = true ->
  let r' := absent r a promoting merged observation superseded at_ in
  record_ok r' /\ advances r r' /\ (same (record_mode r) ModeSponsorOnly || hasTransactionAbsence a) = closedState (State r').
Proof.
  intros [He Hp Hs] Ho Hscope. pose proof (open_not_closed _ Ho) as Hc. cbn zeta.
  assert (SponsorshipExposureReleaseEvidenceRefs r = []) as Hnil.
  { destruct (SponsorshipExposureReleaseEvidenceRefs r) eqn:E; [done|]. destruct Hs as [Ht _]; [done|]. by rewrite Ht in Hc. }
  split; [split; cbn; [done| |by rewrite Hnil]|split; [split; cbn; auto; try congruence|cbn; by destruct (_ || _)]].
  - destruct (same (record_mode r) ModeSponsorOnly || hasTransactionAbsence a) eqn:Hterm; [by auto|].
    apply orb_false_iff in Hterm as [Hm Ht]. cbn [orb].
    unfold absenceScope in Hscope. rewrite Hm, Ht in *. cbn in Hscope.
    rewrite ?andb_false_r, ?andb_true_r, ?orb_false_r in Hscope. cbn in Hscope.
    rewrite !andb_true_iff in Hscope. destruct Hscope as [[[[Hsr Hsa] _] Hatt] Hout].
    right; left. by rewrite Hsr, Hsa, Hout.
  - destruct (_ || _); [right; split; [done|by apply open_terminal]|by left].
Qed.

Lemma absence_sound revision a at_ : sound (absenceEdit revision a at_).
Proof.
  assert (forall promoting, sound (fun r => checkAbsence revision a at_ r promoting)) as Hcheck.
  { intros promoting r r' release Hok H. unfold checkAbsence in H.
    do 3 (apply bind_Ok in H as (? & _ & H)). apply bind_Ok in H as (? & Hg & H). apply fail_if_Ok in Hg.
    rewrite !orb_false_iff, !negb_false_iff in Hg. destruct_and?.
    destruct (SponsorshipCreditObservation r) as [o|]; [destruct (hasSponsorshipAbsence a) eqn:Hsa|].
    1: apply bind_Ok in H as (? & _ & H).
    all: injection H as <- <-; by apply absent_sound. }
  intros r r' release Hok H. unfold absenceEdit in H. repeat case_match; [done| |by eapply Hcheck].
  apply bind_Ok in H as (? & _ & H). by eapply (Hcheck true).
Qed.

(** ** The journal in small steps

    The abstract journal: what any operation is made of.  Every operation is a
    sequence of these steps, so an invariant is proved once per kind of step. *)

Definition writeRecord (j : MemoryJournal) (stable : string) (r : RelayRecord) (release : bool) : MemoryJournal :=
  let j' := with_records (<[relayRecordKey stable := r]> (records j)) j in
  if release then releaseRecordExposureLocked j' r else j'.

Definition addReservation (j : MemoryJournal) (key : string) (res : quoteReservation) : MemoryJournal :=
  with_reservations (<[key := res]> (quoteReservations j)) (<[quoteDigest res := key]> (quoteDigestBindings j)) j.

Definition admitRecord (j : MemoryJournal) (key : string) (res : quoteReservation) (r : RelayRecord) : MemoryJournal :=
  let stable := StableActionID (identity r) in
  with_reservations (<[key := consume stable (RelayExecutionDigest (identity r)) res]> (quoteReservations j))
    (quoteDigestBindings j) (with_records (<[relayRecordKey stable := r]> (records j)) j).

Inductive micro (op : Op) (j : MemoryJournal) : MemoryJournal -> Prop :=
  | micro_provider p : journalProvider j = ""%string -> micro op j (with_provider p j)
  | micro_admissions m : micro op j (with_admissions m j)
  | micro_delete key res :
      quoteReservations j !! key = Some res -> consumed res = false -> micro op j (deleteQuoteReservationLocked j key res)
  | micro_reserve profile request proposal now key rd qd :
      op = OpReserveQuote profile request proposal now -> quoteReservations j !! key = None ->
      ProviderRelayQuoteDigest (pq_Body proposal) = Ok qd ->
      activeQuoteReservationsLocked j < MaximumQuoteReservations (sp_AdmissionLimits profile) ->
      (forall amount, ReservedSponsorship (pq_Body proposal) = Some amount -> canReserveExposureLocked j profile amount = Ok true) ->
      micro op j (addReservation j key (newReservation profile proposal rd qd))
  | micro_admit request now r rd res :
      op = OpAdmit request now -> NewPreparedRecord request now = Ok r -> records j !! StableActionID (identity r) = None ->
      RelayQuoteRequestDigest (record_request r) = Ok rd ->
      quoteReservations j !! relayQuoteReservationKey (ProviderAgentID (identity r)) rd = Some res ->
      consumed res = false -> ProviderRelayQuoteDigest (record_quote r) = Ok (quoteDigest res) ->
      pq_PublicKey (reservedQuote res) = pq_PublicKey (ProviderQuote request) ->
      pq_Signature (reservedQuote res) = pq_Signature (ProviderQuote request) -> now < expiresAtUnix res ->
      activeExecutionsLocked j "" < MaximumActiveExecutions (admissionLimits res) ->
      activeExecutionsLocked j (RequesterAgentID (record_request r)) < MaximumActivePerRequester (admissionLimits res) ->
      micro op j (admitRecord j (relayQuoteReservationKey (ProviderAgentID (identity r)) rd) res r)
  | micro_edit f stable r r' release :
      records j !! stable = Some r -> sound f -> f r = Ok (Write r' release) -> micro op j (writeRecord j stable r' release).

Lemma prepared_record req now r : NewPreparedRecord req now = Ok r ->
  record_ok r /\ request (identity r) = req /\ State r = ActionPrepared /\ StateRevision r = 1 /\
  ProviderAgentID (identity r) = pq_ProviderAgentID (pq_Body (ProviderQuote req)) /\
  StableActionID (identity r) = ActionStableActionID req /\
  RelayExecutionRequestDigest req = Ok (RelayExecutionDigest (identity r)).
Proof.
  unfold NewPreparedRecord. intros H. apply bind_Ok in H as (? & _ & H).
  apply bind_Ok in H as (execution & Hex & H). do 3 (apply bind_Ok in H as (? & _ & H)). injection H as <-.
  split; [split; cbn; auto; done|]. cbn. by repeat split.
Qed.

Lemma release_expired_micro op nowUnix j l :
  NoDup l.*1 -> (forall k r, (k, r) ∈ l -> quoteReservations j !! k = Some r) ->
  rtc (micro op) j (foldl (releaseExpired nowUnix) j l).
Proof.
  revert j. induction l as [|[k r] l IH]; intros j Hnd Hin; [done|]. cbn [foldl]. apply NoDup_cons in Hnd as [Hk Hnd].
  unfold releaseExpired at 2. cbn [fst snd]. destruct (expiredUnconsumed nowUnix r) eqn:He.
  - eapply rtc_l; [apply (micro_delete _ _ k r)|].
    + apply Hin; by left.
    + unfold expiredUnconsumed in He. apply andb_true_iff in He as [He _]. by apply negb_true_iff.
    + apply IH; [done|]. intros k' r' Hkr. cbn. rewrite lookup_delete_ne; [apply Hin; by right|].
      intros <-. apply Hk, list_elem_of_fmap. by exists (k, r').
  - apply IH; [done|]. intros; apply Hin; by right.
Qed.

Lemma release_all_micro op j nowUnix : rtc (micro op) j (releaseExpiredUnconsumedLocked j nowUnix).
Proof. apply release_expired_micro; [apply NoDup_fst_map_to_list|]. intros k r. apply elem_of_map_to_list. Qed.

Lemma bind_micro op j p j' bound : bindProviderLocked j p = (j', bound) -> rtc (micro op) j j'.
Proof.
  unfold bindProviderLocked. intros [= <- _]. destruct (streq _ _) eqn:E; [|done].
  apply streq_true in E. apply rtc_once. by apply micro_provider.
Qed.

Lemma rate_admissions j requester limits now :
  exists m ok, admitQuoteRateLocked j requester limits now = (with_admissions m j, ok).
Proof. unfold admitQuoteRateLocked. cbn zeta. case_match; eauto. Qed.

Lemma reserve_micro j profile request proposal now requester rd qd :
  ProviderRelayQuoteDigest (pq_Body proposal) = Ok qd ->
  rtc (micro (OpReserveQuote profile request proposal now)) j (reserveLocked j profile requester rd qd proposal now).1.
Proof.
  intros Hqd. set (op := OpReserveQuote _ _ _ _). unfold reserveLocked.
  destruct (bindProviderLocked j _) as [j1 bound] eqn:Hb. apply (bind_micro op) in Hb. etrans; [exact Hb|]. clear Hb.
  destruct bound; [done|]. etrans; [apply (release_all_micro op j1 now)|].
  generalize (releaseExpiredUnconsumedLocked j1 now). clear j1. intros j1.
  destruct (quoteReservations j1 !! _) as [existing|] eqn:Hk; [by case_match|]. case_match; [done|].
  destruct (_ <=? _) eqn:Hlim; [done|]. apply Z.leb_gt in Hlim.
  match goal with |- context [match ?c with Ok _ => _ | Err _ => _ | Panic _ => _ end] => destruct c as [[]| |] eqn:Hcan; try done end.
  destruct (rate_admissions j1 requester (sp_AdmissionLimits profile) now) as (m & ok & ->). destruct ok; cbn [negb fst]; revgoals.
  - apply rtc_once, micro_admissions.
  - eapply rtc_l; [apply micro_admissions|]. apply rtc_once. eapply micro_reserve; [done|done|done|done|].
    intros amount Ha. by rewrite Ha in Hcan.
Qed.

Lemma admit_micro j req now : rtc (micro (OpAdmit req now)) j (Admit j req now).1.
Proof.
  unfold Admit. match goal with |- context [match ?c with Ok _ => _ | Err _ => _ | Panic _ => _ end] => destruct c as [[[[execution quote] receipt] rd]| |] eqn:Hd; try done end.
  apply bind_Ok in Hd as (? & _ & Hd). apply bind_Ok in Hd as (? & Hex & Hd). apply bind_Ok in Hd as (? & Hq & Hd).
  apply bind_Ok in Hd as (? & _ & Hd). apply bind_Ok in Hd as (? & Hrd & [= -> -> _ ->]).
  destruct (bindProviderLocked j _) as [j1 bound] eqn:Hb. apply (bind_micro (OpAdmit req now)) in Hb.
  etrans; [exact Hb|]. clear Hb. destruct bound; [done|].
  destruct (records j1 !! _) as [existing|] eqn:Hrec; [by case_match|]. unfold admitNew.
  destruct (VerifyRelaySideEffectAdmissionReceipt _ _ _) as [[]| |]; [|done..].
  destruct (quoteReservations j1 !! _) as [res|] eqn:Hres; [|done].
  destruct (_ || _ || _) eqn:Hconf; [done|]. rewrite !orb_false_iff, !negb_false_iff in Hconf.
  destruct Hconf as [[Hqd%streq_true Hpk%streq_true] Hsig%streq_true].
  destruct (expiresAtUnix res <=? now) eqn:Hexp.
  { destruct (consumed res) eqn:Hc; [done|]. by apply rtc_once, micro_delete. }
  destruct (consumed res) eqn:Hc; [done|]. destruct (_ || _ || _) eqn:Hlim; [done|].
  destruct (NewPreparedRecord req now) as [r| |] eqn:Hnew; [|done..].
  destruct (prepared_record _ _ _ Hnew) as (_ & Hreq & _ & _ & Hprov & Hst & Hexec).
  rewrite !orb_false_iff, !Z.leb_gt in Hlim. destruct Hlim as [[_ Hl1] Hl2]. apply Z.leb_gt in Hexp.
  assert (execution = RelayExecutionDigest (identity r)) as -> by congruence.
  apply rtc_once. cbn [fst]. rewrite <-Hst, <-Hprov. unfold relayRecordKey in Hrec.
  apply (micro_admit _ _ req now r rd res); unfold record_request, record_quote; rewrite ?Hreq, ?Hprov, ?Hst; try done.
  by rewrite Hqd.
Qed.

Lemma on_record_micro op j stable exact f : sound f -> rtc (micro op) j (onRecord j stable exact f).1.
Proof.
  intros Hf. unfold onRecord. destruct (records j !! _) as [r|] eqn:Hr; [|done]. case_match; [done|].
  destruct (f r) as [[|r' release]| |] eqn:Hfr; try done. apply rtc_once. by eapply (micro_edit _ _ f stable r).
Qed.

Lemma guarded_micro op invalid j k : (invalid = false -> rtc (micro op) j k.1) -> rtc (micro op) j (guarded invalid j k).1.
Proof. destruct invalid; [done|]. eauto. Qed.

(** Every operation is a sequence of small steps. *)
Lemma exec_micro j op : rtc (micro op) j (exec j op).
Proof.
  destruct op as [profile request proposal now|request now|stable exact revision h at_|stable exact revision o at_|
    stable exact revision e at_|stable exact revision a at_|stable exact revision refs at_|
    stable exact revision target reference refs o at_]; cbn [exec].
  - unfold ReserveQuote. destruct (_ ≫= _) as [[rd qd]| |] eqn:Hd; [|done..].
    apply bind_Ok in Hd as (? & _ & Hd). apply bind_Ok in Hd as (? & Hq & Hd). do 3 (apply bind_Ok in Hd as (? & _ & Hd)).
    injection Hd as -> ->. by apply reserve_micro.
  - apply admit_micro.
  - unfold BeginSponsorship, validSponsorshipIdentityPair. destruct (_ && _).
    + apply guarded_micro. by rewrite ?orb_true_r.
    + apply guarded_micro. intros Hg. rewrite !orb_false_iff, !negb_false_iff in Hg. destruct_and?.
      by apply on_record_micro, begin_sound.
  - unfold RecordSponsorshipObservation. case_match; [|done..].
    apply guarded_micro. intros _. apply on_record_micro, observe_sound.
  - unfold RecordSponsorship. case_match eqn:Hd; [|done..].
    apply guarded_micro. intros _. eapply on_record_micro, transfer_sound, evidence_reference, Hd.
  - apply guarded_micro. intros _. apply on_record_micro, absence_sound.
  - apply guarded_micro. intros Hg. rewrite !orb_false_iff in Hg. destruct Hg as [[_ Hz] _].
    apply on_record_micro, settle_sound. by intros ->.
  - apply guarded_micro. intros _. apply on_record_micro, transition_sound.
Qed.

(** ** The invariant *)

(** The exposure of the record's reservation may be given back. *)
Definition releasable (r : RelayRecord) : Prop :=
  closedState (State r) = true /\
  (SponsorshipTransferReference r = ""%string \/ SponsorshipExposureReleaseEvidenceRefs r <> []).

(** The reservation the record was admitted from. *)
Definition sourced (j : MemoryJournal) (k : string) (r : RelayRecord) : Prop :=
  exists rd res,
    RelayQuoteRequestDigest (record_request r) = Ok rd /\
    quoteReservations j !! relayQuoteReservationKey (ProviderAgentID (identity r)) rd = Some res /\
    consumed res = true /\ stableActionID res = k /\ executionDigest res = RelayExecutionDigest (identity r).

Definition reservation_ok (res : quoteReservation) : Prop :=
  ProviderRelayQuoteDigest (pq_Body (reservedQuote res)) = Ok (quoteDigest res) /\
  reservedSponsorship res = ReservedSponsorship (pq_Body (reservedQuote res)).

Record inv (j : MemoryJournal) : Prop := {
  inv_record k r : records j !! k = Some r -> record_ok r /\ StableActionID (identity r) = k /\ sourced j k r;
  inv_quote k res : quoteReservations j !! k = Some res -> reservation_ok res;
  inv_released k res : quoteReservations j !! k = Some res -> exposureReleased res = true ->
    consumed res = true /\ exists r, records j !! stableActionID res = Some r /\ releasable r }.

Lemma inv_new : inv NewMemoryJournal.
Proof. split; cbn; intros k x H; by apply lookup_empty_Some in H. Qed.

Lemma advances_releasable r r' : advances r r' -> releasable r -> releasable r'.
Proof.
  intros A [Hc Hr]. destruct (adv_closed _ _ A Hc) as (_ & Hst & _). split; [by rewrite Hst|].
  destruct (adv_reference _ _ A) as [->|[_ Hc']]; [|congruence].
  destruct Hr as [?|Hr]; [by left|right]. by destruct (adv_settled _ _ A) as [->|?].
Qed.

Lemma sourced_reservations j j' k r :
  (forall key res, quoteReservations j !! key = Some res -> consumed res = true ->
     exists res', quoteReservations j' !! key = Some res' /\ consumed res' = true /\ stableActionID res' = stableActionID res /\
       executionDigest res' = executionDigest res) ->
  sourced j k r -> sourced j' k r.
Proof.
  intros H (rd & res & Hrd & Hres & Hc & Hst & Hex). destruct (H _ _ Hres Hc) as (res' & Hres' & Hc' & Hst' & Hex').
  exists rd, res'. repeat split; congruence.
Qed.

Lemma inv_with_record j k r r' : inv j -> records j !! k = Some r -> record_ok r' -> advances r r' ->
  inv (with_records (<[k := r']> (records j)) j).
Proof.
  intros [Ir Iq Il] Hr Hok A. pose proof (adv_identity _ _ A) as Hid. split; cbn; [|done|].
  - intros k' r1 [[<- <-]|[_ Hr1]]%lookup_insert_Some.
    + destruct (Ir _ _ Hr) as (_ & Hk & Hs). rewrite Hid. split; [done|]. split; [done|].
      unfold sourced, record_request. by rewrite Hid.
    + by apply Ir.
  - intros key res Hres Hrel. destruct (Il _ _ Hres Hrel) as (Hc & r1 & Hr1 & Hr1r). split; [done|].
    destruct (decide (stableActionID res = k)) as [Heq|Hne].
    + rewrite Heq in *. assert (r1 = r) as -> by congruence.
      exists r'. rewrite lookup_insert_eq. split; [done|]. by eapply advances_releasable.
    + exists r1. by rewrite lookup_insert_ne.
Qed.

Lemma release_cases j r :
  releaseRecordExposureLocked j r = j \/
  exists rd res, let key := relayQuoteReservationKey (ProviderAgentID (identity r)) rd in
    quoteReservations j !! key = Some res /\ consumed res = true /\ stableActionID res = StableActionID (identity r) /\
    (SponsorshipTransferReference r = ""%string \/ SponsorshipExposureReleaseEvidenceRefs r <> []) /\
    releaseRecordExposureLocked j r =
      with_reservations (<[key := releaseExposure res]> (quoteReservations j)) (quoteDigestBindings j) j.
Proof.
  unfold releaseRecordExposureLocked. destruct (RelayQuoteRequestDigest _) as [rd| |]; [|by left..].
  destruct (quoteReservations j !! _) as [res|] eqn:Hres; [|by left].
  destruct (_ || _ || _) eqn:Hg; [by left|]. destruct (_ && _) eqn:Hs; [by left|]. right. exists rd, res.
  rewrite !orb_false_iff, !negb_false_iff in Hg. destruct Hg as [[Hc Hst%streq_true] _].
  split; [done|]. split; [done|]. split; [done|]. split; [|done].
  apply andb_false_iff in Hs as [Hs|Hs]; [left; by apply negb_false_iff, streq_true in Hs|right]. by intros E; rewrite E in Hs.
Qed.

Lemma inv_release j r : inv j -> records j !! StableActionID (identity r) = Some r -> closedState (State r) = true ->
  inv (releaseRecordExposureLocked j r).
Proof.
  intros [Ir Iq Il] Hr Hcl. destruct (release_cases j r) as [->|(rd & res & Hres & Hc & Hst & Hsafe & ->)]; [done|].
  split; cbn.
  - intros k r1 Hr1. destruct (Ir _ _ Hr1) as (Hok & Hk & Hs). split; [done|]. split; [done|].
    eapply sourced_reservations, Hs. intros key res1 Hres1 Hc1. cbn.
    destruct (decide (key = relayQuoteReservationKey (ProviderAgentID (identity r)) rd)) as [->|Hne].
    + exists (releaseExposure res). rewrite lookup_insert_eq. split; [done|]. cbn. by simplify_eq.
    + exists res1. by rewrite lookup_insert_ne.
  - intros k res1 [[<- <-]|[_ H]]%lookup_insert_Some; [apply (Iq _ _ Hres)|by eapply Iq].
  - intros k res1 [[<- <-]|[_ H]]%lookup_insert_Some; [|by eapply Il]. intros _. cbn. split; [done|].
    exists r. rewrite Hst. done.
Qed.

Lemma inv_micro op j j' : micro op j j' -> inv j -> inv j'.
Proof.
  intros [p _|m|key res Hres Hc|profile request proposal now key rd qd _ Hk Hqd _ _
    |request now r rd res _ Hnew Hnone Hrd Hres Hc _ _ _ _ _ _|f stable r r' release Hr Hf Hw] [Ir Iq Il].
  - by split.
  - by split.
  - split; cbn.
    + intros k r Hr. destruct (Ir _ _ Hr) as (Hok & Hk & Hs). split; [done|]. split; [done|].
      eapply sourced_reservations, Hs. intros key1 res1 Hres1 Hc1. exists res1. cbn.
      rewrite lookup_delete_ne; [done|]. intros <-. congruence.
    + intros k r [_ H]%lookup_delete_Some. by eapply Iq.
    + intros k r [_ H]%lookup_delete_Some. by eapply Il.
  - split; cbn.
    + intros k r Hr. destruct (Ir _ _ Hr) as (Hok & Hkk & Hs). split; [done|]. split; [done|].
      eapply sourced_reservations, Hs. intros key1 res1 Hres1 Hc1. exists res1. cbn.
      rewrite lookup_insert_ne; [done|]. intros <-. congruence.
    + intros k res [[<- <-]|[_ H]]%lookup_insert_Some; [by split|by eapply Iq].
    + intros k res [[<- <-]|[_ H]]%lookup_insert_Some; [done|by eapply Il].
  - destruct (prepared_record _ _ _ Hnew) as (Hok & _). unfold relayRecordKey. split; cbn.
    + intros k r1 [[<- <-]|[Hne Hr1]]%lookup_insert_Some.
      * split; [done|]. split; [done|]. exists rd, (consume (StableActionID (identity r)) (RelayExecutionDigest (identity r)) res).
        cbn. by rewrite lookup_insert_eq.
      * destruct (Ir _ _ Hr1) as (Hok1 & Hk1 & Hs). split; [done|]. split; [done|].
        eapply sourced_reservations, Hs. intros key1 res1 Hres1 Hc1. exists res1. cbn.
        rewrite lookup_insert_ne; [done|]. intros <-. congruence.
    + intros k res1 [[<- <-]|[_ H]]%lookup_insert_Some; [apply (Iq _ _ Hres)|by eapply Iq].
    + intros k res1 [[<- <-]|[_ H]]%lookup_insert_Some; cbn; intros Hrel.
      * destruct (Il _ _ Hres Hrel). congruence.
      * destruct (Il _ _ H Hrel) as (Hc1 & r1 & Hr1 & Hrr). split; [done|]. exists r1.
        rewrite lookup_insert_ne; [done|]. unfold relayRecordKey. intros E. rewrite E in Hnone. congruence.
  - destruct (Ir _ _ Hr) as (Hok & Hk & _). destruct (Hf _ _ _ Hok Hw) as (Hok' & A & ->).
    assert (inv (with_records (<[stable := r']> (records j)) j)) as I' by by eapply inv_with_record.
    unfold writeRecord, relayRecordKey. destruct (closedState (State r')) eqn:Hcl; [|done].
    apply inv_release; [done| |done]. cbn. by rewrite (adv_identity _ _ A), Hk, lookup_insert_eq.
Qed.

Lemma inv_steps op j j' : rtc (micro op) j j' -> inv j -> inv j'.
Proof. induction 1; [done|]. eauto using inv_micro. Qed.

Lemma inv_exec j op : inv j -> inv (exec j op).
Proof. apply (inv_steps op), exec_micro. Qed.

Lemma run_inv ops : inv (run ops).
Proof.
  unfold run. pose proof inv_new as I. revert I. generalize NewMemoryJournal.
  induction ops as [|op ops IH]; intros j I; [done|]. apply IH, inv_exec, I.
Qed.

(** ** Runs extend one another *)

(** Any step keeps every record, unchanged or advanced. *)
Definition extends (j j' : MemoryJournal) : Prop :=
  forall k r, records j !! k = Some r -> exists r', records j' !! k = Some r' /\ (r' = r \/ advances r r').

Lemma release_records j r : records (releaseRecordExposureLocked j r) = records j.
Proof. by destruct (release_cases j r) as [->|(? & ? & ? & ? & ? & ? & ->)]. Qed.

Lemma write_records j stable r release : records (writeRecord j stable r release) = <[stable := r]> (records j).
Proof. unfold writeRecord. destruct release; [by rewrite release_records|done]. Qed.

Lemma micro_extends op j j' : micro op j j' -> inv j -> extends j j'.
Proof.
  intros H [Ir _ _] k r Hr.
  destruct H as [p _|m|key res _ _|profile request proposal now key rd qd _ _ _ _ _
    |request now r1 rd res _ _ Hnone _ _ _ _ _ _ _ _ _|f stable r1 r' release Hr1 Hf Hw]; try (exists r; by auto).
  - exists r. cbn. rewrite lookup_insert_ne; [by auto|]. unfold relayRecordKey. congruence.
  - rewrite write_records. destruct (decide (stable = k)) as [->|Hne].
    + exists r'. rewrite lookup_insert_eq. simplify_eq. split; [done|right].
      destruct (Ir _ _ Hr1) as [Hok _]. by destruct (Hf _ _ _ Hok Hw) as (_ & ? & _).
    + exists r. rewrite lookup_insert_ne by done. by auto.
Qed.

(** What a predicate of two records that holds over [advances] gives over a run. *)
Lemma run_extends (R : RelayRecord -> RelayRecord -> Prop) `{!Reflexive R, !Transitive R} j ops :
  (forall r r', record_ok r -> advances r r' -> R r r') -> inv j ->
  forall k r, records j !! k = Some r -> exists r', records (foldl exec j ops) !! k = Some r' /\ R r r'.
Proof.
  intros HR. revert j. induction ops as [|op ops IH]; intros j I k r Hr; [by exists r|]. cbn [foldl].
  assert (exists r', records (exec j op) !! k = Some r' /\ R r r') as (r1 & Hr1 & H1).
  { pose proof (exec_micro j op) as H. clear IH. induction H as [j|j j1 j2 Hm _ IHm] in r, Hr, I |- *; [by exists r|].
    destruct (micro_extends _ _ _ Hm I k r Hr) as (r1 & Hr1 & Hadv).
    destruct (IHm (inv_micro _ _ _ Hm I) r1 Hr1) as (r2 & Hr2 & H2). exists r2. split; [done|].
    etrans; [|exact H2]. destruct Hadv as [->|A]; [done|]. apply HR; [|done]. by destruct I as [Ir _ _]; destruct (Ir _ _ Hr). }
  destruct (IH (exec j op) (inv_exec _ _ I) k r1 Hr1) as (r2 & Hr2 & H2). exists r2. split; [done|]. by etrans.
Qed.

(** ** Exposure *)

(** What a reservation adds to the outstanding exposure in an asset. *)
Definition exposure (asset : AssetIdentity) (res : quoteReservation) : Z :=
  if exposes asset res then
    match reservedSponsorship res with Some amount => default 0 (SetString10 (AmountAtomic amount)) | None => 0 end
  else 0.
Definition outstanding (asset : AssetIdentity) (j : MemoryJournal) : Z := map_sum (exposure asset) (quoteReservations j).

Lemma exposure_nonneg asset res : reservation_ok res -> 0 <= exposure asset res.
Proof.
  intros [Hq Hs]. unfold exposure. case_match; [|done]. destruct (reservedSponsorship res) as [a|]; [|done].
  destruct (quote_reserves _ _ a Hq (eq_sym Hs)) as (n & -> & Hn). cbn. lia.
Qed.

Lemma add_exposure asset t res : 0 <= t -> reservation_ok res ->
  addExposure asset (FormatZ t) res = Ok (FormatZ (t + exposure asset res)).
Proof.
  intros Ht [Hq Hs]. unfold addExposure, exposure. destruct (reservedSponsorship res) as [a|] eqn:Ha.
  - destruct (exposes asset res); [|by rewrite Z.add_0_r].
    destruct (quote_reserves _ _ a Hq (eq_sym Hs)) as (n & Hn & _).
    unfold addAtomic. by rewrite SetString10_FormatZ, Hn by done.
  - by destruct (exposes asset res); rewrite Z.add_0_r.
Qed.

Lemma total_exposure asset t l : 0 <= t -> Forall reservation_ok l ->
  foldM (addExposure asset) (FormatZ t) l = Ok (FormatZ (t + zsum (exposure asset <$> l))).
Proof.
  intros Ht Hl. induction Hl as [|res l Hres Hl IH] in t, Ht |- *; [cbn; by rewrite Z.add_0_r|].
  cbn [foldM]. rewrite add_exposure by done. cbn [mbind result_bind]. pose proof (exposure_nonneg asset res Hres).
  rewrite IH by lia. rewrite fmap_cons, zsum_cons. do 2 f_equal. lia.
Qed.

(** The check, as integers. *)
Lemma can_reserve j profile amount n : inv j -> SetString10 (AmountAtomic amount) = Some n -> 0 < n ->
  canReserveExposureLocked j profile amount =
  Ok match findExposureLimit (ExposureLimits profile) (Asset amount) with
     | Some limit =>
         (compareAtomic (AmountAtomic amount) (MaximumPerRequestAtomic limit) <=? 0) &&
         match SetString10 (MaximumOutstandingAtomic limit) with
         | Some m => outstanding (Asset amount) j + n <=? m
         | None => false
         end
     | None => false
     end.
Proof.
  intros [_ Iq _] Hn Hpos. unfold canReserveExposureLocked. destruct (findExposureLimit _ _) as [limit|]; [|done].
  assert (Forall reservation_ok (map_to_list (quoteReservations j)).*2) as Hall.
  { apply Forall_forall. intros res ([k res'] & -> & Hin%elem_of_map_to_list)%list_elem_of_fmap. by eapply Iq. }
  rewrite (Z.leb_antisym 0 (compareAtomic (AmountAtomic amount) _)).
  destruct (0 <? compareAtomic (AmountAtomic amount) _); [done|].
  cbn [negb andb].
  pose proof (total_exposure (Asset amount) 0 _ ltac:(done) Hall) as Ht. cbn [FormatZ] in Ht. rewrite Ht. cbn [mbind result_bind].
  rewrite <-map_sum_list. fold (outstanding (Asset amount) j).
  assert (0 <= outstanding (Asset amount) j).
  { apply map_sum_nonneg. intros k b Hb. eapply exposure_nonneg, Iq, Hb. }
  unfold addAtomic. rewrite SetString10_FormatZ, Hn by lia. cbn [mbind result_bind]. f_equal.
  unfold compareAtomic. rewrite SetString10_FormatZ by lia. destruct (SetString10 (MaximumOutstandingAtomic limit)) as [m|]; [|done].
  rewrite Z.add_0_l. destruct (Z.compare_spec (outstanding (Asset amount) j + n) m); symmetry; [apply Z.leb_le|apply Z.leb_le|apply Z.leb_gt]; lia.
Qed.

(** Sums over reservations when one is released: nothing but the released flag changes. *)
Lemma release_sum (f : quoteReservation -> Z) j r :
  (forall k res, quoteReservations j !! k = Some res -> f (releaseExposure res) <= f res) ->
  map_sum f (quoteReservations (releaseRecordExposureLocked j r)) <= map_sum f (quoteReservations j).
Proof.
  intros Hf. destruct (release_cases j r) as [->|(rd & res & Hres & _ & _ & _ & ->)]; [lia|]. cbn.
  rewrite (map_sum_insert _ _ _ _ _ Hres). specialize (Hf _ _ Hres). lia.
Qed.

Lemma write_sum (f : quoteReservation -> Z) j stable r release :
  (forall k res, quoteReservations j !! k = Some res -> f (releaseExposure res) <= f res) ->
  map_sum f (quoteReservations (writeRecord j stable r release)) <= map_sum f (quoteReservations j).
Proof. intros Hf. unfold writeRecord. destruct release; [|done]. etrans; [by apply release_sum|done]. Qed.

(** The operation's profile, if it brings one, limits the asset to at most [m]. *)
Definition limits_asset (asset : AssetIdentity) (m : Z) (op : Op) : Prop :=
  match op with
  | OpReserveQuote profile _ _ _ =>
      match findExposureLimit (ExposureLimits profile) asset with
      | Some limit => default m (SetString10 (MaximumOutstandingAtomic limit)) <= m
      | None => True
      end
  | _ => True
  end.

Lemma exposure_micro asset m op j j' :
  micro op j j' -> inv j -> limits_asset asset m op -> outstanding asset j <= m -> outstanding asset j' <= m.
Proof.
  intros H I Hlim Hle. pose proof (inv_quote _ I) as Iq. unfold outstanding in *.
  destruct H as [p _|n|key res Hres _|profile request proposal now key rd qd -> Hk Hqd _ Hcan
    |request now r rd res _ _ _ _ Hres _ _ _ _ _ _ _|f stable r r' release _ _ _]; cbn; try done.
  - rewrite (map_sum_delete _ _ _ _ Hres). pose proof (exposure_nonneg asset res (Iq _ _ Hres)). lia.
  - rewrite map_sum_insert_new by done. unfold exposure at 1, exposes. cbn.
    destruct (ReservedSponsorship (pq_Body proposal)) as [amount|] eqn:Ha; [|cbn; lia].
    destruct (sameAsset (Asset amount) asset) eqn:Hs; [|cbn; lia]. unfold sameAsset in Hs. apply same_eq in Hs as <-.
    destruct (quote_reserves _ _ amount Hqd Ha) as (n & Hn & Hpos). specialize (Hcan amount eq_refl).
    rewrite (can_reserve j profile amount n I Hn Hpos) in Hcan. rewrite Hn. cbn in Hlim |- *.
    destruct (findExposureLimit _ _) as [limit|]; [|discriminate]. injection Hcan as [_ Hcan]%andb_true_iff.
    destruct (SetString10 (MaximumOutstandingAtomic limit)); [|discriminate]. apply Z.leb_le in Hcan.
    unfold outstanding in Hcan. cbn in Hlim. lia.
  - rewrite (map_sum_insert _ _ _ _ _ Hres). 
    change (map_sum (exposure asset) (quoteReservations j) - exposure asset res + exposure asset res <= m). lia.
  - etrans; [|exact Hle]. apply write_sum. intros k res Hres.
    exact (exposure_nonneg asset res (Iq _ _ Hres)).
Qed.

(** An invariant of the small steps of the operations of a run. *)
Lemma run_invariant (P : MemoryJournal -> Prop) (Q : Op -> Prop) ops :
  P NewMemoryJournal -> (forall op j j', Q op -> micro op j j' -> inv j -> P j -> P j') -> Forall Q ops -> P (run ops).
Proof.
  intros H0 Hstep. unfold run. pose proof inv_new as I. revert I H0. generalize NewMemoryJournal as j.
  induction ops as [|op ops IH]; intros j I Hj HQ; [done|]. apply Forall_cons in HQ as [Hq Hops]. cbn [foldl].
  assert (P (exec j op)) as Hexec.
  { pose proof (exec_micro j op) as H. clear IH. induction H as [|j j1 j2 Hm _ IHm]; [done|]. eauto using inv_micro. }
  apply IH; [by apply inv_exec|done|done].
Qed.

(** C2: however many quotes, admissions and settlements are interleaved, the
    sponsorship reserved in an asset and not yet released never exceeds the
    provider's limit: if every profile the journal is used with allows at most [m]
    outstanding in the asset, then at most [m] is outstanding. *)
Theorem relay_exposure_bounded (ops : list Op) (asset : AssetIdentity) (m : Z) :
  0 <= m -> Forall (limits_asset asset m) ops -> outstanding asset (run ops) <= m.
Proof.
  intros Hm. apply (run_invariant (fun j => outstanding asset j <= m)); [done|].
  intros op j j' Hlim Hmicro I Hle. by eapply exposure_micro.
Qed.

(** ** Concurrent work *)

(** The operation's profile, if it brings one, allows at most these many unconsumed
    quotes and active executions. *)
Definition limits_work (quotes executions : Z) (op : Op) : Prop :=
  match op with
  | OpReserveQuote profile _ _ _ =>
      MaximumQuoteReservations (sp_AdmissionLimits profile) <= quotes /\
      MaximumActiveExecutions (sp_AdmissionLimits profile) <= executions
  | _ => True
  end.

(** The reservations' own limits are those of the profiles they came from. *)
Definition work_within (quotes executions : Z) (j : MemoryJournal) : Prop :=
  activeQuoteReservationsLocked j <= quotes /\ activeExecutionsLocked j "" <= executions /\
  forall k res, quoteReservations j !! k = Some res -> MaximumActiveExecutions (admissionLimits res) <= executions.

Lemma write_active j stable r r' release requester : records j !! stable = Some r -> advances r r' ->
  activeExecutionsLocked (writeRecord j stable r' release) requester <= activeExecutionsLocked j requester.
Proof.
  intros Hr A. unfold activeExecutionsLocked. rewrite write_records, (map_sum_insert _ _ _ _ _ Hr).
  assert (indicator (activeFor requester r') <= indicator (activeFor requester r)); [|lia].
  unfold activeFor, record_request. rewrite (adv_identity _ _ A).
  destruct (closedState (State r)) eqn:Hc.
  - destruct (adv_closed _ _ A Hc) as (_ & -> & _). by rewrite Hc.
  - cbn [negb andb]. destruct (negb (closedState (State r'))), (_ || _); cbn; lia.
Qed.

Lemma write_limits j stable r release k res :
  quoteReservations (writeRecord j stable r release) !! k = Some res ->
  exists res', quoteReservations j !! k = Some res' /\ admissionLimits res = admissionLimits res' /\ consumed res = consumed res'.
Proof.
  unfold writeRecord. destruct release; [|by eauto].
  match goal with |- context [releaseRecordExposureLocked ?j1 r] => destruct (release_cases j1 r) as [->|(rd & res1 & Hres & _ & _ & _ & ->)] end;
    cbn in *; [by eauto|].
  intros [[<- <-]|[_ H]]%lookup_insert_Some; eauto.
Qed.

Lemma work_micro quotes executions op j j' :
  micro op j j' -> inv j -> limits_work quotes executions op -> work_within quotes executions j ->
  work_within quotes executions j'.
Proof.
  intros H I Hlim (Hq & He & Hl). unfold work_within, activeQuoteReservationsLocked in *.
  destruct H as [p _|n|key res Hres Hc|profile request proposal now key rd qd -> Hk Hqd Hmax _
    |request now r rd res _ Hnew Hnone Hrd Hres Hc _ _ _ _ Hact _|f stable r r' release Hr Hf Hw]; cbn; [done|done|..].
  - rewrite (map_sum_delete _ _ _ _ Hres), Hc. cbn. split; [lia|]. split; [done|].
    intros k res1 [_ H]%lookup_delete_Some. by eapply Hl.
  - destruct Hlim as [Hlq Hle]. rewrite map_sum_insert_new by done. cbn.
    unfold activeQuoteReservationsLocked in Hmax. split; [lia|]. split; [done|].
    intros k res1 [[<- <-]|[_ H]]%lookup_insert_Some; [done|by eapply Hl].
  - rewrite (map_sum_insert _ _ _ _ _ Hres), Hc. cbn. split; [lia|]. split.
    + unfold activeExecutionsLocked, relayRecordKey in *. cbn. rewrite map_sum_insert_new by done.
      specialize (Hl _ _ Hres). assert (indicator (activeFor "" r) <= 1) by (by destruct (activeFor "" r)). lia.
    + intros k res1 [[<- <-]|[_ H]]%lookup_insert_Some; [by eapply (Hl _ _ Hres)|by eapply Hl].
  - destruct (inv_record _ I _ _ Hr) as (Hok & _). destruct (Hf _ _ _ Hok Hw) as (_ & A & _). split; [|split].
    + etrans; [|exact Hq]. by apply write_sum.
    + etrans; [by eapply write_active|done].
    + intros k res (res' & Hres' & -> & _)%write_limits. by eapply Hl.
Qed.

(** The provider's admission limits hold at every moment: if every profile the
    journal is used with allows at most [quotes] open quotes and [executions] active
    actions, there are never more unconsumed reservations than [quotes] nor more
    records short of a closed state than [executions]. *)
Theorem relay_work_bounded (ops : list Op) (quotes executions : Z) :
  0 <= quotes -> 0 <= executions -> Forall (limits_work quotes executions) ops ->
  activeQuoteReservationsLocked (run ops) <= quotes /\ activeExecutionsLocked (run ops) "" <= executions.
Proof.
  intros Hq He Hops.
  destruct (run_invariant (work_within quotes executions) (limits_work quotes executions) ops) as (? & ? & _); [..|done].
  - unfold work_within. split; [done|]. split; [done|]. intros k res H. cbn in H. by apply lookup_empty_Some in H.
  - intros op j j' Hlim Hm I. by apply work_micro with (op := op).
  - done.
Qed.

(** ** Quotes and records *)

(** A reserved quote is used at most once: two records admitted from the same
    quote request of the same provider are one record. *)
Theorem relay_quote_single_use (ops : list Op) (k1 k2 : string) (r1 r2 : RelayRecord) :
  records (run ops) !! k1 = Some r1 -> records (run ops) !! k2 = Some r2 ->
  ProviderAgentID (identity r1) = ProviderAgentID (identity r2) ->
  RelayQuoteRequestDigest (record_request r1) = RelayQuoteRequestDigest (record_request r2) ->
  k1 = k2 /\ r1 = r2.
Proof.
  intros H1 H2 Hp Hd. pose proof (inv_record _ (run_inv ops)) as Ir.
  destruct (Ir _ _ H1) as (_ & _ & rd1 & res1 & Hrd1 & Hres1 & _ & Hk1 & _).
  destruct (Ir _ _ H2) as (_ & _ & rd2 & res2 & Hrd2 & Hres2 & _ & Hk2 & _).
  rewrite Hrd1, Hrd2 in Hd. injection Hd as ->. rewrite Hp in Hres1. rewrite Hres1 in Hres2. injection Hres2 as ->.
  split; congruence.
Qed.

(** A record is created only from a reserved quote.  When [Admit] reports a new
    record, the journal held an unexpired, unconsumed reservation for exactly this
    quote request, with the quote's digest, key and signature; it is now consumed by
    this action and this execution request, no other reservation has changed, and the
    record is the first, prepared state of the request. *)
Theorem relay_admission_consumes (j j' : MemoryJournal) (req : RelayExecutionRequest) (now : Z) (r : RelayRecord) :
  Admit j req now = (j', Ok (r, true)) ->
  records j !! ActionStableActionID req = None /\ NewPreparedRecord req now = Ok r /\
  records j' = <[ActionStableActionID req := r]> (records j) /\
  exists rd res execution,
    RelayQuoteRequestDigest (qr_Body (QuoteRequest req)) = Ok rd /\ RelayExecutionRequestDigest req = Ok execution /\
    let key := relayQuoteReservationKey (pq_ProviderAgentID (pq_Body (ProviderQuote req))) rd in
    quoteReservations j !! key = Some res /\ consumed res = false /\ now < expiresAtUnix res /\
    ProviderRelayQuoteDigest (pq_Body (ProviderQuote req)) = Ok (quoteDigest res) /\
    pq_PublicKey (reservedQuote res) = pq_PublicKey (ProviderQuote req) /\
    pq_Signature (reservedQuote res) = pq_Signature (ProviderQuote req) /\
    quoteReservations j' = <[key := consume (ActionStableActionID req) execution res]> (quoteReservations j).
Proof.
  unfold Admit. match goal with |- context [match ?c with Ok _ => _ | Err _ => _ | Panic _ => _ end] => destruct c as [[[[execution quote] receipt] rd]| |] eqn:Hd; try done end.
  apply bind_Ok in Hd as (? & _ & Hd). apply bind_Ok in Hd as (? & Hex & Hd). apply bind_Ok in Hd as (? & Hq & Hd).
  apply bind_Ok in Hd as (? & _ & Hd). apply bind_Ok in Hd as (? & Hrd & [= -> -> _ ->]).
  destruct (bindProviderLocked j _) as [j1 bound] eqn:Hb.
  assert (records j1 = records j /\ quoteReservations j1 = quoteReservations j) as [Hj1 Hj2].
  { unfold bindProviderLocked in Hb. injection Hb as <- _. by destruct (streq _ _). }
  destruct bound; [done|]. rewrite Hj1. destruct (records j !! _) as [existing|] eqn:Hrec; [by case_match|].
  unfold admitNew. rewrite Hj1, Hj2.
  destruct (VerifyRelaySideEffectAdmissionReceipt _ _ _) as [[]| |]; [|done..].
  destruct (quoteReservations j !! _) as [res|] eqn:Hres; [|done].
  destruct (_ || _ || _) eqn:Hconf; [done|]. rewrite !orb_false_iff, !negb_false_iff in Hconf.
  destruct Hconf as [[Hqd%streq_true Hpk%streq_true] Hsig%streq_true].
  destruct (expiresAtUnix res <=? now) eqn:Hexp; [done|]. destruct (consumed res) eqn:Hc; [done|].
  destruct (_ || _ || _) eqn:Hlim; [done|].
  destruct (NewPreparedRecord req now) as [r0| |] eqn:Hnew; [|done..]. intros [= <- <-].
  apply Z.leb_gt in Hexp. split; [done|]. split; [done|]. split; [done|].
  exists rd, res, execution. rewrite Hqd. by repeat split.
Qed.

(** What never changes in a record once set, and what is final once it is closed. *)
Record preserved (r r' : RelayRecord) : Prop := {
  pres_identity : identity r' = identity r;
  pres_closed : closedState (State r) = true ->
    State r' = State r /\ RecordTerminalOutcome r' = RecordTerminalOutcome r /\ EvidenceRefs r' = EvidenceRefs r /\
    absence r' = absence r /\ SponsorshipTransferReference r' = SponsorshipTransferReference r;
  pres_payment : payment r <> noPayment -> payment r' = payment r;
  pres_reference : SponsorshipTransferReference r <> ""%string ->
    SponsorshipTransferReference r' = SponsorshipTransferReference r;
  pres_settled : SponsorshipExposureReleaseEvidenceRefs r <> [] ->
    SponsorshipExposureReleaseEvidenceRefs r' = SponsorshipExposureReleaseEvidenceRefs r }.

#[global] Instance preserved_reflexive : Reflexive preserved.
Proof. by split. Qed.
#[global] Instance preserved_transitive : Transitive preserved.
Proof.
  intros r1 r2 r3 [A1 B1 C1 D1 E1] [A2 B2 C2 D2 E2]. split.
  - congruence.
  - intros Hc. destruct (B1 Hc) as (HA & HB & HC & HD & HE). rewrite <-HA in Hc.
    destruct (B2 Hc) as (HA2 & HB2 & HC2 & HD2 & HE2). repeat split; congruence.
  - intros H. specialize (C1 H). rewrite <-C1 in H. specialize (C2 H). congruence.
  - intros H. specialize (D1 H). rewrite <-D1 in H. specialize (D2 H). congruence.
  - intros H. specialize (E1 H). rewrite <-E1 in H. specialize (E2 H). congruence.
Qed.

Lemma advances_preserved r r' : advances r r' -> preserved r r'.
Proof.
  intros A. split.
  - apply A.
  - intros Hc. destruct (adv_closed _ _ A Hc) as (_ & ? & ? & ? & ? & _). repeat split; try done.
    destruct (adv_reference _ _ A) as [?|[_ Hc']]; [done|congruence].
  - intros H. by destruct (adv_payment _ _ A).
  - intros H. by destruct (adv_reference _ _ A) as [?|[? _]].
  - intros H. by destruct (adv_settled _ _ A).
Qed.

(** A record is durable.  Once in the journal it is never removed, whatever
    operations follow; the request it was admitted for is frozen; the one sponsorship
    payment it stands for, the transfer it recorded and the settlement evidence never
    change once set; and a terminal, rejected or conflicting record keeps its state,
    outcome, evidence and absence proof for ever. *)
Theorem relay_record_durable (ops later : list Op) (k : string) (r : RelayRecord) :
  records (run ops) !! k = Some r -> exists r', records (run (ops ++ later)) !! k = Some r' /\ preserved r r'.
Proof.
  intros Hr. unfold run. rewrite foldl_app. apply (run_extends preserved); [|apply run_inv|done].
  intros r1 r2 _. apply advances_preserved.
Qed.

(** Sponsored value stays on the provider's books.  A record whose transfer is
    recorded and not yet settled keeps its reservation, unreleased: its amount still
    counts as outstanding exposure, also after the record is terminal. *)
Theorem relay_exposure_retained (ops : list Op) (k : string) (r : RelayRecord) :
  records (run ops) !! k = Some r -> SponsorshipTransferReference r <> ""%string ->
  SponsorshipExposureReleaseEvidenceRefs r = [] ->
  exists rd res, RelayQuoteRequestDigest (record_request r) = Ok rd /\
    quoteReservations (run ops) !! relayQuoteReservationKey (ProviderAgentID (identity r)) rd = Some res /\
    consumed res = true /\ stableActionID res = k /\ exposureReleased res = false.
Proof.
  intros Hr Href Hset. destruct (run_inv ops) as [Ir _ Il].
  destruct (Ir _ _ Hr) as (_ & _ & rd & res & Hrd & Hres & Hc & Hk & _). exists rd, res. repeat split; try done.
  destruct (exposureReleased res) eqn:Hrel; [|done].
  destruct (Il _ _ Hres Hrel) as (_ & r' & Hr' & _ & [?|?]); congruence.
Qed.

(** ** Revisions *)

(** The record an operation names, with the request and revision it expects. *)
Definition target_of (op : Op) : option (string * string * Z) :=
  match op with
  | OpReserveQuote _ _ _ _ | OpAdmit _ _ => None
  | OpBeginSponsorship k exact revision _ _ | OpRecordObservation k exact revision _ _
  | OpRecordSponsorship k exact revision _ _ | OpRecordAbsence k exact revision _ _
  | OpReleaseExposure k exact revision _ _ | OpTransition k exact revision _ _ _ _ _ => Some (k, exact, revision)
  end.

(** The edit writes only at the revision it expects. *)
Definition checks (revision : Z) (f : RelayRecord -> result string edit) : Prop :=
  forall r r' release, f r = Ok (Write r' release) -> StateRevision r = revision.

Lemma revision_guard r revision (b : bool) : b || negb (StateRevision r =? revision) = false -> StateRevision r = revision.
Proof. intros [_ H%negb_false_iff]%orb_false_iff. by apply Z.eqb_eq. Qed.

Lemma begin_checks revision h digest at_ : checks revision (beginEdit revision h digest at_).
Proof.
  intros r r' release H. unfold beginEdit in H. passed H. destruct (SponsorshipAttempted _); passed H; [done|].
  by apply Z.eqb_eq, negb_false_iff.
Qed.

Lemma observe_checks revision o digest at_ : checks revision (observeEdit revision o digest at_).
Proof.
  intros r r' release H. unfold observeEdit in H. passed H. destruct (SponsorshipCreditObservation r).
  - destruct (RelaySponsorshipCreditObservationDigest _) as [d| |]; [|done..]. destruct (streq d digest); [done|]. passed H.
    by eapply revision_guard.
  - passed H. by apply Z.eqb_eq, negb_false_iff.
Qed.

Lemma transfer_checks revision e digest at_ : checks revision (transferEdit revision e digest at_).
Proof.
  intros r r' release H. unfold transferEdit in H. passed H. destruct (SponsorshipTransactionEvidence r).
  - destruct (RelaySponsorshipTransactionEvidenceDigest _); [|done..]. by passed H.
  - passed H. by apply Z.eqb_eq, negb_false_iff.
Qed.

Lemma absence_checks revision a at_ : checks revision (absenceEdit revision a at_).
Proof.
  assert (forall promoting, checks revision (fun r => checkAbsence revision a at_ r promoting)) as Hcheck.
  { intros promoting r r' release H. unfold checkAbsence in H. do 3 (apply bind_Ok in H as (? & _ & H)).
    apply bind_Ok in H as (? & G & _). apply fail_if_Ok in G. rewrite !orb_false_iff, !negb_false_iff in G. destruct_and?.
    by apply Z.eqb_eq. }
  intros r r' release H. unfold absenceEdit in H. repeat case_match; [done| |by eapply (Hcheck false)].
  apply bind_Ok in H as (? & _ & H). by eapply (Hcheck true).
Qed.

Lemma settle_checks revision refs at_ : checks revision (settleEdit revision refs at_).
Proof.
  intros r r' release H. unfold settleEdit in H. case_match; passed H; [done|].
  rewrite !orb_false_iff, !negb_false_iff in *. destruct_and?. by apply Z.eqb_eq.
Qed.

Lemma transition_checks revision target reference refs o at_ : checks revision (transitionEdit revision target reference refs o at_).
Proof.
  intros r r' release H. unfold transitionEdit in H. apply bind_Ok in H as (? & G & _). apply fail_if_Ok in G.
  rewrite !orb_false_iff, !negb_false_iff in G. destruct_and?. by apply Z.eqb_eq.
Qed.

Lemma on_record_checks j k exact revision invalid f r : checks revision f -> records j !! k = Some r ->
  records (guarded invalid j (onRecord j k exact f)).1 !! k <> Some r ->
  invalid = false /\ RecordExactRequestDigest (identity r) = exact /\ StateRevision r = revision /\
  exists r' release, f r = Ok (Write r' release) /\ (guarded invalid j (onRecord j k exact f)) = (writeRecord j k r' release, Ok r').
Proof.
  intros Hf Hr. unfold guarded, onRecord, relayRecordKey. rewrite Hr. destruct invalid; [done|].
  destruct (streq _ _) eqn:Hs; cbn [negb]; [|done]. apply streq_true in Hs.
  destruct (f r) as [[|r' release]| |] eqn:Hfr; try done. intros _. split; [done|]. split; [done|]. split; [by eapply Hf|].
  by exists r', release.
Qed.

(** An operation on a record is an edit behind a guard, or refuses outright. *)
Lemma exec_edit j op k exact revision : target_of op = Some (k, exact, revision) ->
  exec j op = j \/
  exists invalid f, exec j op = (guarded invalid j (onRecord j k exact f)).1 /\ checks revision f /\
    (invalid = false -> sound f /\ revision <> 0).
Proof.
  destruct op as [| |? ? ? h at_|? ? ? o at_|? ? ? e at_|? ? ? a at_|? ? ? refs at_|? ? ? target reference refs o at_];
    cbn [target_of exec]; try done; intros [= -> -> ->].
  - right. unfold BeginSponsorship, validSponsorshipIdentityPair. destruct (_ && _).
    + do 2 eexists. split; [done|]. split; [apply begin_checks|]. by rewrite ?orb_true_r.
    + do 2 eexists. split; [done|]. split; [apply begin_checks|]. intros Hg. rewrite !orb_false_iff, !negb_false_iff in Hg.
      destruct_and?. split; [by apply begin_sound|]. by apply Z.eqb_neq.
  - unfold RecordSponsorshipObservation. destruct (RelaySponsorshipCreditObservationDigest o) as [d| |]; [right|by left..].
    do 2 eexists. split; [done|]. split; [apply observe_checks|]. intros H%Z.eqb_neq. split; [apply observe_sound|done].
  - unfold RecordSponsorship. destruct (RelaySponsorshipTransactionEvidenceDigest e) as [d| |] eqn:Hd; [right|by left..].
    do 2 eexists. split; [done|]. split; [apply transfer_checks|]. intros H%Z.eqb_neq. split; [|done].
    eapply transfer_sound, evidence_reference, Hd.
  - right. do 2 eexists. split; [done|]. split; [apply absence_checks|]. intros [H%Z.eqb_neq _]%orb_false_iff.
    split; [apply absence_sound|done].
  - right. do 2 eexists. split; [done|]. split; [apply settle_checks|]. intros Hg. rewrite !orb_false_iff in Hg.
    destruct Hg as [[H%Z.eqb_neq Hz] _]. split; [|done]. apply settle_sound. by intros ->.
  - right. do 2 eexists. split; [done|]. split; [apply transition_checks|]. intros Hg. rewrite !orb_false_iff in Hg.
    destruct Hg as [[H%Z.eqb_neq _] _]. split; [apply transition_sound|done].
Qed.

(** Revisions are compare-and-swap tickets.  An operation that names a record and
    changes it found the record at exactly the revision and for exactly the request
    digest the caller named, and the record it leaves is an advance of that one by a
    single revision; every other caller still holding the old revision is refused. *)
Theorem relay_revision_cas (ops : list Op) (op : Op) (k exact : string) (revision : Z) (r : RelayRecord) :
  target_of op = Some (k, exact, revision) -> records (run ops) !! k = Some r ->
  records (exec (run ops) op) !! k <> Some r ->
  RecordExactRequestDigest (identity r) = exact /\ StateRevision r = revision /\ revision <> 0 /\
  exists r', records (exec (run ops) op) !! k = Some r' /\ StateRevision r' = wrap64 (revision + 1) /\
    identity r' = identity r /\ (State r' = State r \/ validRelayTransition (State r) (State r') = true).
Proof.
  intros Ht Hr Hne. destruct (inv_record _ (run_inv ops) _ _ Hr) as (Hok & _).
  destruct (exec_edit (run ops) op k exact revision Ht) as [E|(invalid & f & E & Hchk & Hf)]; rewrite E in Hne |- *; [done|].
  destruct (on_record_checks _ _ _ _ _ _ _ Hchk Hr Hne) as (Hinv & Hex & Hrev & r' & release & Hw & ->).
  destruct (Hf Hinv) as [Hsound Hnz]. destruct (Hsound _ _ _ Hok Hw) as (_ & A & _).
  split; [done|]. split; [done|]. split; [done|]. exists r'. cbn [fst]. rewrite write_records, lookup_insert_eq.
  split; [done|]. rewrite (adv_revision _ _ A), Hrev. split; [done|]. split; [apply A|].
  destruct (adv_state _ _ A) as [?|[_ ?]]; auto.
Qed.

(** ** Totality *)

(** The operation returns: a value or an error. *)
Definition answers (j : MemoryJournal) (op : Op) : Prop :=
  match op with
  | OpReserveQuote profile request proposal now => no_panic (ReserveQuote j profile request proposal now).2
  | OpAdmit request now => no_panic (Admit j request now).2
  | OpBeginSponsorship stable exact revision h at_ => no_panic (BeginSponsorship j stable exact revision h at_).2
  | OpRecordObservation stable exact revision o at_ => no_panic (RecordSponsorshipObservation j stable exact revision o at_).2
  | OpRecordSponsorship stable exact revision e at_ => no_panic (RecordSponsorship j stable exact revision e at_).2
  | OpRecordAbsence stable exact revision a at_ => no_panic (RecordSponsorshipAbsence j stable exact revision a at_).2
  | OpReleaseExposure stable exact revision refs at_ => no_panic (ReleaseSponsorshipExposure j stable exact revision refs at_).2
  | OpTransition stable exact revision target reference refs o at_ =>
      no_panic (Transition j stable exact revision target reference refs o at_).2
  end.

Lemma on_record_total j k exact invalid f : (forall r, no_panic (f r)) -> no_panic (guarded invalid j (onRecord j k exact f)).2.
Proof.
  intros Hf. unfold guarded, onRecord. destruct invalid; [done|]. destruct (records j !! _) as [r|]; [|done].
  case_match; [done|]. specialize (Hf r). by destruct (f r) as [[]| |].
Qed.

Lemma prepared_total req now : no_panic (NewPreparedRecord req now).
Proof. unfold NewPreparedRecord. solve_total. Qed.

Lemma reserve_total (op : Op) j profile requester rd qd proposal now :
  inv j -> ProviderRelayQuoteDigest (pq_Body proposal) = Ok qd ->
  no_panic (reserveLocked j profile requester rd qd proposal now).2.
Proof.
  intros I Hqd. unfold reserveLocked. destruct (bindProviderLocked j _) as [j1 bound] eqn:Hb.
  apply (bind_micro op) in Hb. destruct bound; [done|].
  assert (inv (releaseExpiredUnconsumedLocked j1 now)) as I2.
  { eapply (inv_steps op); [|exact I]. etrans; [exact Hb|apply release_all_micro]. }
  generalize dependent (releaseExpiredUnconsumedLocked j1 now). intros j2 I2.
  destruct (quoteReservations j2 !! _); [by case_match|]. case_match; [done|]. destruct (_ <=? _); [done|].
  destruct (ReservedSponsorship (pq_Body proposal)) as [amount|] eqn:Ha.
  - destruct (quote_reserves _ _ amount Hqd Ha) as (n & Hn & Hpos). pose proof (can_reserve _ profile _ _ I2 Hn Hpos) as Hcan.
    destruct (canReserveExposureLocked j2 profile amount) as [[]| |]; try done.
    destruct (admitQuoteRateLocked _ _ _ _) as [j3 []]; done.
  - destruct (admitQuoteRateLocked _ _ _ _) as [j3 []]; done.
Qed.

Lemma admit_total j req now : no_panic (Admit j req now).2.
Proof.
  unfold Admit. match goal with |- context [match ?c with Ok _ => _ | Err _ => _ | Panic _ => _ end] => assert (no_panic c) as Hc by solve_total; destruct c as [[[[execution quote] receipt] rd]| |]; try done end.
  destruct (bindProviderLocked j _) as [j1 []]; [done|]. destruct (records j1 !! _); [by case_match|].
  unfold admitNew. pose proof (prepared_total req now). pose proof (verify_receipt_total (AdmissionReceipt req) req now).
  repeat case_match; done.
Qed.

Lemma edits_total r :
  (forall revision h digest at_, no_panic (beginEdit revision h digest at_ r)) /\
  (forall revision o digest at_, no_panic (observeEdit revision o digest at_ r)) /\
  (forall revision e digest at_, no_panic (transferEdit revision e digest at_ r)) /\
  (forall revision a at_, no_panic (absenceEdit revision a at_ r)) /\
  (forall revision refs at_, no_panic (settleEdit revision refs at_ r)) /\
  (forall revision target reference refs o at_, no_panic (transitionEdit revision target reference refs o at_ r)).
Proof.
  pose proof context_total. pose proof components_total. pose proof bundle_total.
  unfold beginEdit, observeEdit, transferEdit, absenceEdit, checkAbsence, settleEdit, transitionEdit.
  repeat split; intros; solve_total.
Qed.

(** C37: the journal always answers: after any operations, each operation returns a
    value or an error; no amount it adds up fails to parse and no empty observation
    set is indexed. *)
Theorem relay_journal_total (ops : list Op) (op : Op) : answers (run ops) op.
Proof.
  pose proof (run_inv ops) as I. generalize dependent (run ops). intros j I.
  destruct op as [profile req proposal now|req now| | | | | | ]; cbn [answers]; try (apply on_record_total; intros r; apply edits_total).
  - unfold ReserveQuote. match goal with |- context [match ?c with Ok _ => _ | Err _ => _ | Panic _ => _ end] => assert (no_panic c) as Hc by solve_total; destruct c as [[rd qd]| |] eqn:Hd; try done end.
    apply bind_Ok in Hd as (? & _ & Hd). apply bind_Ok in Hd as (? & Hq & Hd). do 3 (apply bind_Ok in Hd as (? & _ & Hd)).
    injection Hd as -> ->. by apply (reserve_total (OpReserveQuote profile req proposal now)).
  - apply admit_total.
  - unfold BeginSponsorship. destruct (validSponsorshipIdentityPair _ _). apply on_record_total. intros r; apply edits_total.
  - unfold RecordSponsorshipObservation. case_match; [|done..]. apply on_record_total. intros r; apply edits_total.
  - unfold RecordSponsorship. case_match; [|done..]. apply on_record_total. intros r; apply edits_total.
Qed.
End Runs.

(** ** A run on concrete documents

    One sponsored action, from its quote to the settlement of its exposure, with a
    codec that gives each kind of document a fixed digest. *)
Module Sample.
Import RelayAdmission.Sample.

Definition absenceCodec : AbsenceCodec :=
  {| marshal_reference := fun r => Some (ObserverID r); marshal_proof_profile := fun p => Some (rp_ProfileURI p);
     unmarshal_bundle := fun _ => None |}.

#[local] Existing Instances RelayAdmission.Sample.codec absenceCodec.

(** At most 150 outstanding, two open quotes and one active action. *)
Definition profile : RelayServiceProfile :=
  {| sp_SchemaVersion := 1; ProfileID := "profile"; Revision := 1; sp_ProviderAgentID := "provider";
     NetworkDomains := [network]; SupportedModes := [ModeSponsorOnly];
     SupportedAssuranceLevels := [AssuranceAutonomousDecentralized];
     TransactionProfiles := [{| tp_ProfileURI := "tos.transaction"; tp_ProfileDigest := dg "0"; MaximumSignedBytes := 4096;
                                InspectableSourceSequence := true; InspectableTransactionExpiry := true |}];
     FinalityProfiles := [finality]; FeeAssets := [coin];
     ExposureLimits := [{| LimitAsset := coin; MaximumPerRequestAtomic := "120"; MaximumOutstandingAtomic := "150" |}];
     sp_AdmissionLimits := {| MaximumQuoteReservations := 2; MaximumActiveExecutions := 1; MaximumActivePerRequester := 1;
                              MaximumQuoteRequestsPerWindow := 10; MaximumQuoteRequestsPerRequesterWindow := 10;
                              QuoteRequestWindowSeconds := 60 |};
     sp_MaximumRequestBytes := 65536;
     Endpoints := {| QuoteURL := "q"; SubmitURL := "s"; ResolveURL := "r"; EvidenceURL := "e" |}; PolicyRevision := 1;
     sp_CreatedAtUnix := 1000; sp_ExpiresAtUnix := 100000 |}.

(** The provider's payment to the account of the client. *)
Definition owed : SettlementObligation :=
  let amount := {| aa_AssetNamespace := "native"; aa_AssetIdentifier := "tos"; aa_AmountAtomic := "100"; AmountDecimal := ""; aa_Unit := "nano" |} in
  {| so_AgreementBodyDigest := dg "5"; so_AgreementObligationID := "sponsorship"; so_ObligationInstanceID := dg "6"; Sequence := 1;
     PredecessorInstanceID := ""; so_PayerAgentID := "provider"; so_PayeeAgentID := "requester"; so_Amount := amount;
     so_NotBeforeUnix := 0; so_DueAtUnix := 1400; so_ExpiresAtUnix := 1500; so_MaximumAggregateAmount := amount;
     so_SettlementAdapterURI := "tos"; SettlementParametersDigest := dg "2"; so_MandateDigest := ""; so_StableActionID := dg "3" |}.

Definition pay : AgreementPaymentRequest := Eval vm_compute in
  match BuildDomainBoundAgreementPaymentRequest "owner" "provider" "tos-main" networkDigest "0:source" owed with
  | Ok r => r
  | _ => {| pay_SchemaVersion := 0; OwnerID := ""; AgentID := ""; pay_AgreementBodyDigest := ""; AgreementObligationID := "";
            ObligationInstanceID := ""; PayerAgentID := ""; PayeeAgentID := ""; pay_NetworkID := ""; NetworkDomainDigest := "";
            pay_Amount := so_Amount owed; Destination := ""; SettlementAdapterURI := ""; SemanticActionKind := "";
            AdapterProfileDigest := ""; ExternalSystemID := ""; pay_StableActionID := ""; pay_ExpiresAtUnix := 0 |}
  end.
Definition payDigest : string := Eval vm_compute in or_empty (AgreementPaymentRequestDigest pay).
Definition payExact : string := Eval vm_compute in
  or_empty (material ← PaymentAuthorizationMaterial pay; ExactRequestDigest material.1).

Definition handle : SponsorshipRecoveryHandle :=
  {| AgreementPaymentRequestDigestOf := payDigest; HandleStableActionID := pay_StableActionID pay; HandleExactRequestDigest := payExact;
     HandleValidUntilUnix := 1500; OpaqueToken := "token" |}.

Definition proofDigest : string := Eval vm_compute in or_empty (RelaySponsorshipProofBundleDigest "proof").

Definition evidence : RelaySponsorshipTransactionEvidence :=
  {| te_SchemaVersion := 1; te_TerminalEvidenceClass := ValidatorFinality; ValidatorAuthenticatedPortableProof := true;
     te_NetworkDigest := networkDigest; te_Payment := pay; te_PaymentDigest := payDigest; te_StableActionID := pay_StableActionID pay;
     te_ExactRequestDigest := payExact; te_SourceAccount := "0:sponsor"; te_SourceSequence := 1; te_ValidUntilUnix := 1500;
     te_TopUpDigest := dg "c"; te_TopUpCellHash := cellHash "1"; te_CommitmentCellHash := cellHash "2";
     te_DestinationAccount := "0:source"; te_Amount := coins "100"; SubmittedTransactionHash := "transfer";
     te_SourceExecutionReference := "reference"; te_DestinationCreditReferences := [dg "d"];
     te_FinalizedCheckpointID := "checkpoint"; te_FinalizedCheckpointSequence := 9; te_FinalizedCheckpointUnix := 1200;
     ConfirmationDepth := 1; te_TerminalProfileDigest := dg "0"; te_ObservationDigests := [dg "e"];
     ProofBundleDigest := proofDigest; ProofBundle := "proof"; PortableProofLocator := ""; te_ObservedAtUnix := 1210 |}.

(** Two quotes are asked for, the second beyond the limit; the first is used. *)
Definition quoted : list Op :=
  [ OpReserveQuote profile (quoteRequest "first") (proposal "first") 1050;
    OpReserveQuote profile (quoteRequest "second") (proposal "second") 1060 ].
Definition admitted : list Op := quoted ++ [OpAdmit execution 1100].
Definition sponsored : list Op :=
  admitted ++ [ OpBeginSponsorship (dg "1") (dg "2") 1 handle 1150; OpRecordSponsorship (dg "1") (dg "2") 2 evidence 1210;
                OpTransition (dg "1") (dg "2") 3 ActionTerminal "transfer" [dg "e"] OutcomeFinalizedSponsorshipOnly 1220 ].
Definition settlement : Op := OpReleaseExposure (dg "1") (dg "2") 4 [dg "f"] 1300.

Definition reservationKey : string := relayQuoteReservationKey "provider" (requestDigest "first").

(** The run, evaluated once: what is outstanding, and the record before and after the settlement. *)
Definition sample_check : bool :=
  let opened := run quoted in
  let j := foldl exec opened (drop 2 sponsored) in
  let settled := exec j settlement in
  (outstanding coin opened =? 100) && (outstanding coin j =? 100) && (outstanding coin settled =? 0) &&
  match records j !! dg "1", records settled !! dg "1" with
  | Some r, Some r' =>
      nonempty (SponsorshipTransferReference r) && (zlen (SponsorshipExposureReleaseEvidenceRefs r) =? 0) && (StateRevision r' =? 5) &&
      (StateRevision r =? 4)
  | _, _ => false
  end.

Lemma sample_evaluated : sample_check = true.
Proof. vm_compute. reflexivity. Qed.

Lemma sponsored_run : run sponsored = foldl exec (run quoted) (drop 2 sponsored).
Proof. unfold run, sponsored, admitted, quoted. by rewrite <-!foldl_app. Qed.

Lemma sponsored_record : exists r r', records (run sponsored) !! dg "1" = Some r /\
  records (exec (run sponsored) settlement) !! dg "1" = Some r' /\ StateRevision r = 4 /\ StateRevision r' = 5 /\
  SponsorshipTransferReference r <> ""%string /\ SponsorshipExposureReleaseEvidenceRefs r = [].
Proof.
  pose proof sample_evaluated as H. unfold sample_check in H. cbv zeta in H. rewrite <-sponsored_run in H. apply andb_true_iff in H as [_ H].
  destruct (records (run sponsored) !! dg "1") as [r|]; [|done].
  destruct (records (exec (run sponsored) settlement) !! dg "1") as [r'|]; [|done].
  rewrite !andb_true_iff, !Z.eqb_eq in H. destruct H as [[[Href Hset] H5] H4]. exists r, r'.
  apply nonempty_true in Href. unfold zlen in Hset. repeat split; try done. destruct (SponsorshipExposureReleaseEvidenceRefs r); [done|cbn in Hset; lia].
Qed.

Lemma limits_hold : Forall (limits_asset coin 150) (sponsored ++ [settlement]).
Proof. repeat (apply Forall_cons; split; [vm_compute; done|]). apply Forall_nil; exact I. Qed.

Lemma relay_exposure_bounded_witness : outstanding coin (run (sponsored ++ [settlement])) <= 150.
Proof. apply (relay_exposure_bounded (sponsored ++ [settlement]) coin 150); [lia|apply limits_hold]. Defined.

Lemma relay_work_bounded_witness :
  activeQuoteReservationsLocked (run admitted) <= 2 /\ activeExecutionsLocked (run admitted) "" <= 1.
Proof.
  apply (relay_work_bounded admitted 2 1); [lia|lia|].
  repeat (apply Forall_cons; split; [vm_compute; done|]). apply Forall_nil; exact I.
Defined.

Lemma relay_quote_single_use_witness :
  exists r, records (run sponsored) !! dg "1" = Some r /\ dg "1" = dg "1" /\ r = r.
Proof.
  destruct sponsored_record as (r & r' & Hr & _). exists r. split; [exact Hr|].
  exact (relay_quote_single_use sponsored (dg "1") (dg "1") r r Hr Hr eq_refl eq_refl).
Defined.

Lemma relay_record_durable_witness :
  exists r r', records (run sponsored) !! dg "1" = Some r /\ records (run (sponsored ++ [settlement])) !! dg "1" = Some r' /\ preserved r r'.
Proof.
  destruct sponsored_record as (r & r1 & Hr & _). destruct (relay_record_durable sponsored [settlement] (dg "1") r Hr) as (r' & Hr' & Hp).
  exists r, r'. exact (conj Hr (conj Hr' Hp)).
Defined.

Lemma relay_exposure_retained_witness :
  exists r rd res, records (run sponsored) !! dg "1" = Some r /\ RelayQuoteRequestDigest (record_request r) = Ok rd /\
    quoteReservations (run sponsored) !! relayQuoteReservationKey (ProviderAgentID (identity r)) rd = Some res /\
    consumed res = true /\ stableActionID res = dg "1" /\ exposureReleased res = false.
Proof.
  destruct sponsored_record as (r & r1 & Hr & _ & _ & _ & Href & Hset).
  destruct (relay_exposure_retained sponsored (dg "1") r Hr Href Hset) as (rd & res & H). exists r, rd, res. exact (conj Hr H).
Defined.

Lemma relay_revision_cas_witness :
  exists r r', records (run sponsored) !! dg "1" = Some r /\ RecordExactRequestDigest (identity r) = dg "2" /\
    records (exec (run sponsored) settlement) !! dg "1" = Some r' /\ StateRevision r' = wrap64 (4 + 1) /\ identity r' = identity r.
Proof.
  destruct sponsored_record as (r & r1 & Hr & Hr1 & H4 & H5 & _).
  destruct (relay_revision_cas sponsored settlement (dg "1") (dg "2") 4 r eq_refl Hr) as (He & _ & _ & r' & Hr' & Hrev & Hid & _).
  - rewrite Hr1. intros E. injection E as E. rewrite E, H4 in H5. discriminate H5.
  - exists r, r'. exact (conj Hr (conj He (conj Hr' (conj Hrev Hid)))).
Defined.

Lemma relay_admission_consumes_witness :
  match Admit (run quoted) execution 1100 with
  | (j', Ok (r, true)) => records (run quoted) !! ActionStableActionID execution = None /\
      NewPreparedRecord execution 1100 = Ok r /\ records j' = <[ActionStableActionID execution := r]> (records (run quoted))
  | _ => False
  end.
Proof.
  assert (match Admit (run quoted) execution 1100 with (_, Ok (_, true)) => True | _ => False end) as Hsample by (vm_compute; done).
  destruct (Admit (run quoted) execution 1100) as [j' [[r []]| |]] eqn:Ha; [|destruct Hsample..].
  destruct (relay_admission_consumes (run quoted) j' execution 1100 r Ha) as (H1 & H2 & H3 & _).
  exact (conj H1 (conj H2 H3)).
Defined.
End Sample.
