(* ===== verification/RelayRestore.v ===== *)
(** * Restoring relay records (src/pkg/agentrelay/state.go)

    A durable journal stores of a record its snapshot, which carries no secret, and in a
    protected area the exact request and the recovery token.  [RestoreRecord] checks the
    three against each other and rebuilds the record. *)

From S2P Require Import Prelude Text Sha256 Base64 Codec Semantic Authority Amounts Billing Agreement Payment.
From S2P Require Import RelayTypes RelayAbsence RelayAdmission AgentRelay RelaySafety.

Record RecordSnapshot := {
  ss_ProviderAgentID : string; ss_NetworkDigest : string; ss_StableActionID : string; ss_ExactRequestDigest : string;
  ss_RelayExecutionDigest : string; ss_ProviderQuoteDigest : string; ss_AdmissionReceiptDigest : string;
  ss_SignedTransactionDigest : string; ss_State : ActionResolutionState; ss_StateRevision : Z; ss_TransactionReference : string;
  ss_SponsorshipAttempted : bool; ss_payment : PaymentIdentity; ss_SponsorshipRecoveryTokenDigest : string;
  ss_SponsorshipTransferReference : string; ss_SponsorshipCreditObservation : option RelaySponsorshipCreditObservation;
  ss_SupersededSponsorshipCreditObservationDigest : string;
  ss_SponsorshipTransactionEvidence : option RelaySponsorshipTransactionEvidence; ss_absence : AbsenceProof;
  ss_SponsorshipExposureReleaseEvidenceRefs : list string; ss_SponsorshipExposureReleasedAtUnix : Z; ss_EvidenceRefs : list string;
  ss_TerminalOutcome : TerminalOutcome; ss_CreatedAtUnix : Z; ss_UpdatedAtUnix : Z }.

Definition Snapshot (r : RelayRecord) : RecordSnapshot :=
  let i := identity r in
  {| ss_ProviderAgentID := ProviderAgentID i; ss_NetworkDigest := RecordNetworkDigest i; ss_StableActionID := StableActionID i;
     ss_ExactRequestDigest := RecordExactRequestDigest i; ss_RelayExecutionDigest := RelayExecutionDigest i;
     ss_ProviderQuoteDigest := ProviderQuoteDigest i; ss_AdmissionReceiptDigest := AdmissionReceiptDigest i;
     ss_SignedTransactionDigest := SignedTransactionDigest i; ss_State := State r; ss_StateRevision := StateRevision r;
     ss_TransactionReference := TransactionReference r; ss_SponsorshipAttempted := SponsorshipAttempted (recovery r);
     ss_payment := payment r; ss_SponsorshipRecoveryTokenDigest := SponsorshipRecoveryTokenDigest (recovery r);
     ss_SponsorshipTransferReference := SponsorshipTransferReference r;
     ss_SponsorshipCreditObservation := SponsorshipCreditObservation r;
     ss_SupersededSponsorshipCreditObservationDigest := SupersededSponsorshipCreditObservationDigest r;
     ss_SponsorshipTransactionEvidence := SponsorshipTransactionEvidence r; ss_absence := absence r;
     ss_SponsorshipExposureReleaseEvidenceRefs := SponsorshipExposureReleaseEvidenceRefs r;
     ss_SponsorshipExposureReleasedAtUnix := SponsorshipExposureReleasedAtUnix r; ss_EvidenceRefs := EvidenceRefs r;
     ss_TerminalOutcome := RecordTerminalOutcome r; ss_CreatedAtUnix := CreatedAtUnix i; ss_UpdatedAtUnix := UpdatedAtUnix r |}.

(** The record that [RestoreRecord] returns. *)
Definition restored (s : RecordSnapshot) (request : RelayExecutionRequest) (token : string) : RelayRecord :=
  {| identity :=
       {| ProviderAgentID := ss_ProviderAgentID s; RecordNetworkDigest := ss_NetworkDigest s; StableActionID := ss_StableActionID s;
          RecordExactRequestDigest := ss_ExactRequestDigest s; RelayExecutionDigest := ss_RelayExecutionDigest s;
          ProviderQuoteDigest := ss_ProviderQuoteDigest s; AdmissionReceiptDigest := ss_AdmissionReceiptDigest s;
          SignedTransactionDigest := ss_SignedTransactionDigest s; CreatedAtUnix := ss_CreatedAtUnix s; request := request |};
     State := ss_State s; StateRevision := ss_StateRevision s; TransactionReference := ss_TransactionReference s; payment := ss_payment s;
     recovery := {| SponsorshipAttempted := ss_SponsorshipAttempted s;
                    SponsorshipRecoveryTokenDigest := ss_SponsorshipRecoveryTokenDigest s; sponsorshipRecoveryToken := token |};
     SponsorshipTransferReference := ss_SponsorshipTransferReference s;
     SponsorshipCreditObservation := ss_SponsorshipCreditObservation s;
     SupersededSponsorshipCreditObservationDigest := ss_SupersededSponsorshipCreditObservationDigest s;
     SponsorshipTransactionEvidence := ss_SponsorshipTransactionEvidence s; absence := ss_absence s;
     SponsorshipExposureReleaseEvidenceRefs := ss_SponsorshipExposureReleaseEvidenceRefs s;
     SponsorshipExposureReleasedAtUnix := ss_SponsorshipExposureReleasedAtUnix s; EvidenceRefs := ss_EvidenceRefs s;
     RecordTerminalOutcome := ss_TerminalOutcome s; UpdatedAtUnix := ss_UpdatedAtUnix s |}.

(** The public status of a record. *)
Definition Resolution (r : RelayRecord) : ActionResolution :=
  {| ar_StableActionID := StableActionID (identity r); ar_ExactRequestDigest := RecordExactRequestDigest (identity r); ar_State := State r;
     SinkReference := TransactionReference r; ar_EvidenceRefs := EvidenceRefs r; ar_StateRevision := StateRevision r |}.

(** ** Flags of a snapshot *)

Definition some {A} (o : option A) : bool := match o with Some _ => true | None => false end.
Definition filledList {A} (l : list A) : bool := negb (zlen l =? 0).

Section Flags.
Variable s : RecordSnapshot.
Variable mode : Mode.

Definition hasSponsorshipAbsenceOf : bool := filledList (SponsorshipAbsenceObservations (ss_absence s)).
Definition hasTransactionAbsenceOf : bool := filledList (TransactionAbsenceObservations (ss_absence s)).
Definition hasTransfer : bool := nonempty (ss_SponsorshipTransferReference s).
Definition hasSponsorshipIdentity : bool :=
  (validSponsorshipIdentityPair (SponsorshipStableActionID (ss_payment s)) (SponsorshipExactRequestDigest (ss_payment s))).1.
Definition pendingSponsorshipAbsence : bool :=
  same mode ModeSponsorAndRelay && hasSponsorshipAbsenceOf && negb hasTransactionAbsenceOf && same (ss_TerminalOutcome s) NoOutcome &&
  negb hasTransfer.
Definition pendingTransactionResolution : bool :=
  same mode ModeSponsorAndRelay && hasTransfer && some (ss_SponsorshipTransactionEvidence s) && negb hasSponsorshipAbsenceOf &&
  negb hasTransactionAbsenceOf && same (ss_TerminalOutcome s) NoOutcome && negb (same (ss_State s) ActionTerminal).
Definition hasAnyAbsence : bool :=
  let p := ss_absence s in
  hasSponsorshipAbsenceOf || hasTransactionAbsenceOf || filledList (SponsorshipAbsenceObservationDigests p) ||
  filledList (TransactionAbsenceObservationDigests p) || nonempty (AbsenceProofBundleDigest p) ||
  negb (slen (AbsenceProofBundle p) =? 0) || nonempty (SupersededAbsenceProofBundleDigest p).
End Flags.

(** ** The checks *)

Definition selectedTerminalUsesCorroboration (request : RelayExecutionRequest) (sponsorship : option RelaySponsorshipTransactionEvidence)
  : bool :=
  if same (qr_RelayTerminalEvidenceClass (qr_Body (QuoteRequest request))) ProviderCorroborated then true
  else match sponsorship with Some e => same (te_TerminalEvidenceClass e) ClientCorroborated | None => false end.

(** The sponsorship fields fit together. *)
Definition invalidSponsorshipState (s : RecordSnapshot) (request : RelayExecutionRequest) : bool :=
  let quoted := qr_Body (QuoteRequest request) in
  let mode := qr_Mode quoted in
  let paid := ss_payment s in
  let attempted := ss_SponsorshipAttempted s in
  let hasCreditObservation := some (ss_SponsorshipCreditObservation s) in
  let hasTransactionEvidence := some (ss_SponsorshipTransactionEvidence s) in
  let validIdentity := (validSponsorshipIdentityPair (SponsorshipStableActionID paid) (SponsorshipExactRequestDigest paid)).2 in
  negb validIdentity ||
  (same mode ModeRelayExact &&
   (hasTransfer s || attempted || hasCreditObservation || hasTransactionEvidence || hasSponsorshipIdentity s || hasAnyAbsence s)) ||
  (pendingSponsorshipAbsence s mode && negb attempted) || (pendingTransactionResolution s mode && negb attempted) ||
  (attempted && hasTransfer s && negb (pendingTransactionResolution s mode)) ||
  (attempted && negb hasCreditObservation && negb (pendingSponsorshipAbsence s mode) && negb (pendingTransactionResolution s mode) &&
   negb (same (ss_State s) ActionPrepared)) ||
  (hasCreditObservation &&
   (negb attempted || hasTransactionEvidence || negb (same (qr_SponsorshipReleaseEvidenceClass quoted) ReleaseObservedUnproven) ||
    negb (openState (ss_State s)))) ||
  negb (Bool.eqb hasTransactionEvidence (hasTransfer s)) || (hasTransfer s && hasSponsorshipAbsenceOf s) ||
  (nonempty (ss_SupersededSponsorshipCreditObservationDigest s) &&
   (negb (hasSponsorshipAbsenceOf s) || negb (digestPattern (ss_SupersededSponsorshipCreditObservationDigest s)))) ||
  negb (Bool.eqb (attempted || hasTransfer s || hasAnyAbsence s) (hasSponsorshipIdentity s)) ||
  negb (Bool.eqb (hasSponsorshipIdentity s) (digestPattern (SponsorshipAgreementPaymentRequestDigest paid))) ||
  negb (Bool.eqb (hasSponsorshipIdentity s) (negb (SponsorshipValidUntilUnix paid =? 0))) ||
  (ex_ExpiresAtUnix request <? SponsorshipValidUntilUnix paid) || (hasTransfer s && (zlen (ss_EvidenceRefs s) =? 0)) ||
  (1024 <? slen (ss_SponsorshipTransferReference s)).

Section Restore.
Context `{C : RelayCodec} `{AC : AbsenceCodec}.

Definition validObservation (s : RecordSnapshot) (request : RelayExecutionRequest) : bool :=
  let quoted := qr_Body (QuoteRequest request) in
  match ss_SponsorshipCreditObservation s with
  | Some o =>
      validateRelaySponsorshipCreditObservationShape o && streq (co_EvidenceProfileURI o) (qr_SponsorshipReleaseProfileURI quoted) &&
      streq (co_EvidenceProfileDigest o) (qr_SponsorshipReleaseProfileDigest quoted) &&
      streq (co_PaymentDigest o) (SponsorshipAgreementPaymentRequestDigest (ss_payment s)) &&
      streq (co_StableActionID o) (SponsorshipStableActionID (ss_payment s)) &&
      streq (co_ExactRequestDigest o) (SponsorshipExactRequestDigest (ss_payment s)) &&
      (co_ValidUntilUnix o =? SponsorshipValidUntilUnix (ss_payment s))
  | None => true
  end.

Definition validEvidence (s : RecordSnapshot) : bool :=
  match ss_SponsorshipTransactionEvidence s with
  | Some e =>
      validateRelaySponsorshipTransactionEvidenceShape e &&
      streq (te_PaymentDigest e) (SponsorshipAgreementPaymentRequestDigest (ss_payment s)) &&
      streq (te_StableActionID e) (SponsorshipStableActionID (ss_payment s)) &&
      streq (te_ExactRequestDigest e) (SponsorshipExactRequestDigest (ss_payment s)) &&
      (te_ValidUntilUnix e =? SponsorshipValidUntilUnix (ss_payment s)) &&
      streq (SubmittedTransactionHash e) (ss_SponsorshipTransferReference s)
  | None => true
  end.

Definition checkAbsenceEvidence (s : RecordSnapshot) (request : RelayExecutionRequest) : result string unit :=
  if negb (hasAnyAbsence s) then Ok tt
  else
    let mode := qr_Mode (qr_Body (QuoteRequest request)) in
    let quote := pq_Body (ProviderQuote request) in
    sponsorshipProfile ← opt_err (SponsorshipTerminalProfile quote) "relay journal sponsorship absence lacks its terminal profile"%string;
    let transactionProfile := default sponsorshipProfile (RelayFinalityProfile quote) in
    let p := ss_absence s in
    let sponsorship := SponsorshipAbsenceObservations p in
    let transaction := TransactionAbsenceObservations p in
    let sponsorshipDigests := relayAbsenceObservationReferenceDigests sponsorship in
    let transactionDigests := relayAbsenceObservationReferenceDigests transaction in
    let handle := {| AgreementPaymentRequestDigestOf := ""; HandleStableActionID := SponsorshipStableActionID (ss_payment s);
                     HandleExactRequestDigest := SponsorshipExactRequestDigest (ss_payment s);
                     HandleValidUntilUnix := SponsorshipValidUntilUnix (ss_payment s); OpaqueToken := "" |} in
    let merged := mergeSortedDigestSets sponsorshipDigests transactionDigests in
    let promoted := nonempty (SupersededAbsenceProofBundleDigest p) in
    fail_if
      ((promoted &&
        (negb (digestPattern (SupersededAbsenceProofBundleDigest p)) || negb (same mode ModeSponsorAndRelay) ||
         negb (hasSponsorshipAbsenceOf s) || negb (hasTransactionAbsenceOf s) ||
         streq (SupersededAbsenceProofBundleDigest p) (AbsenceProofBundleDigest p))) ||
       negb (validRelayAbsenceStateShape mode (ss_State s) (ss_TerminalOutcome s) (ss_SponsorshipTransferReference s)
               (ss_TransactionReference s) (hasSponsorshipAbsenceOf s) (hasTransactionAbsenceOf s)) ||
       (ss_SponsorshipAttempted s && negb (pendingSponsorshipAbsence s mode)) ||
       negb match relayAbsenceContextForRequest request handle (ss_TerminalOutcome s) (to_int64 (ss_UpdatedAtUnix s)) with
            | Ok context =>
                match validateRelayAbsenceObservationComponents sponsorship transaction context with
                | Ok validated => equalStrings validated merged
                | _ => false
                end
            | _ => false
            end ||
       negb (is_ok (validateRelayAbsenceProofBundleForBody sponsorship transaction (AbsenceProofBundleDigest p) (AbsenceProofBundle p))) ||
       negb (equalStrings (SponsorshipAbsenceObservationDigests p) sponsorshipDigests) ||
       negb (equalStrings (TransactionAbsenceObservationDigests p) transactionDigests) ||
       (hasSponsorshipAbsenceOf s && negb (sortedRequiredDigests sponsorshipDigests (MinimumObservers sponsorshipProfile))) ||
       (hasTransactionAbsenceOf s && negb (sortedRequiredDigests transactionDigests (MinimumObservers transactionProfile))) ||
       negb (digestSetsDisjoint sponsorshipDigests transactionDigests) || negb (sortedOptionalDigests merged) ||
       negb (digestSetContainsAll (ss_EvidenceRefs s) merged) ||
       negb (validRelayAbsenceOutcomeAssurance request (ss_TerminalOutcome s) (hasSponsorshipAbsenceOf s) (hasTransactionAbsenceOf s)
               (ss_SponsorshipTransactionEvidence s)))
      "relay journal snapshot carries invalid sponsorship absence evidence"%string.

(** The protected token against its digest. *)
Definition checkToken (s : RecordSnapshot) (token : string) : result string unit :=
  if ss_SponsorshipAttempted s then
    digest ← or_err (sponsorshipRecoveryTokenDigest token) "relay journal sponsorship recovery token conflicts with its digest"%string;
    fail_if (negb (streq digest (ss_SponsorshipRecoveryTokenDigest s))) "relay journal sponsorship recovery token conflicts with its digest"%string
  else
    fail_if (nonempty (ss_SponsorshipRecoveryTokenDigest s) || negb (slen token =? 0))
      "relay journal carries an unexpected sponsorship recovery token"%string.

Definition validRelease (s : RecordSnapshot) : bool :=
  let refs := ss_SponsorshipExposureReleaseEvidenceRefs s in
  sortedOptionalDigests refs && Bool.eqb (filledList refs) (negb (ss_SponsorshipExposureReleasedAtUnix s =? 0)) &&
  negb (filledList refs && (negb (same (ss_State s) ActionTerminal) || negb (hasTransfer s))).

(** The outcome against the state and the selected evidence classes. *)
Definition checkOutcomeOf (s : RecordSnapshot) (request : RelayExecutionRequest) : result string unit :=
  let quoted := qr_Body (QuoteRequest request) in
  let o := ss_TerminalOutcome s in
  let evidence := ss_SponsorshipTransactionEvidence s in
  match ss_State s with
  | ActionPrepared | ActionSubmitted | ActionAccepted | ActionRejected | ActionConflict =>
      fail_if (negb (same o NoOutcome)) "nonterminal relay journal snapshot carries a terminal outcome"%string
  | ActionTerminal =>
      fail_if (negb (validOutcome o) || (zlen (ss_EvidenceRefs s) =? 0)) "terminal relay journal snapshot lacks evidence"%string;;
      fail_if (sponsorshipOnlyOutcome o && (same (qr_Mode quoted) ModeRelayExact || negb (hasTransfer s)))
        "terminal sponsorship outcome conflicts with the relay mode"%string;;
      fail_if (same o OutcomeCorroboratedSponsorshipOnly &&
               (same (qr_AssuranceLevel quoted) AssuranceAutonomousDecentralized ||
                match SponsorshipTerminalProfile (pq_Body (ProviderQuote request)) with
                | Some profile => negb (streq (ProfileURI profile) ClientCorroboratedTerminalProfileURI)
                | None => true
                end ||
                match evidence with
                | Some e => negb (same (te_TerminalEvidenceClass e) ClientCorroborated) || ValidatorAuthenticatedPortableProof e
                | None => true
                end)) "corroborated sponsorship outcome overstates its assurance"%string;;
      fail_if (same o OutcomeCorroboratedSuccess &&
               (same (qr_Mode quoted) ModeSponsorOnly || same (qr_AssuranceLevel quoted) AssuranceAutonomousDecentralized ||
                negb (selectedTerminalUsesCorroboration request evidence)))
        "corroborated success conflicts with its selected evidence classes"%string;;
      fail_if (same o OutcomeFinalizedSuccess && selectedTerminalUsesCorroboration request evidence)
        "client-corroborated sponsorship was mislabeled as wholly finalized"%string
  | _ => Err "relay journal snapshot state is invalid"%string
  end.

(** The snapshot is of this request. *)
Definition snapshotOfRequest (s : RecordSnapshot) (request : RelayExecutionRequest) (execution network quote receipt : string) : bool :=
  streq (ss_ProviderAgentID s) (pq_ProviderAgentID (pq_Body (ProviderQuote request))) && streq (ss_NetworkDigest s) network &&
  streq (ss_StableActionID s) (ActionStableActionID request) && streq (ss_ExactRequestDigest s) (ActionExactRequestDigest request) &&
  streq (ss_RelayExecutionDigest s) execution && streq (ss_ProviderQuoteDigest s) quote && streq (ss_AdmissionReceiptDigest s) receipt &&
  streq (ss_SignedTransactionDigest s) (qr_SignedTransactionDigest (qr_Body (QuoteRequest request))) &&
  negb (ss_StateRevision s =? 0) && negb (ss_CreatedAtUnix s =? 0) && (ss_CreatedAtUnix s <=? ss_UpdatedAtUnix s) &&
  sortedOptionalDigests (ss_EvidenceRefs s).

Definition RestoreRecord (s : RecordSnapshot) (request : RelayExecutionRequest) (protectedRecoveryToken : list string)
  : result string RelayRecord :=
  execution ← RelayExecutionRequestDigest request;
  network ← NetworkDigest (Network (qr_Body (QuoteRequest request)));
  quote ← ProviderRelayQuoteDigest (pq_Body (ProviderQuote request));
  receipt ← RelaySideEffectAdmissionReceiptDigest (AdmissionReceipt request);
  fail_if (negb (snapshotOfRequest s request execution network quote receipt))
    "relay journal snapshot conflicts with its protected request"%string;;
  fail_if (invalidSponsorshipState s request) "relay journal snapshot carries invalid sponsorship state"%string;;
  fail_if (negb (validObservation s request)) "relay journal snapshot carries invalid sponsorship observation"%string;;
  fail_if (negb (validEvidence s)) "relay journal snapshot carries invalid sponsorship transaction evidence"%string;;
  checkAbsenceEvidence s request;;
  fail_if (1 <? zlen protectedRecoveryToken) "relay journal snapshot has multiple protected recovery tokens"%string;;
  let token := match protectedRecoveryToken with [token] => token | _ => ""%string end in
  checkToken s token;;
  fail_if (negb (validRelease s)) "relay journal snapshot carries invalid sponsorship exposure release"%string;;
  checkOutcomeOf s request;;
  fail_if (negb (validRelayModeState (qr_Mode (qr_Body (QuoteRequest request))) (ss_State s) (ss_TerminalOutcome s)
                   (ss_SponsorshipTransferReference s) (some (ss_SponsorshipCreditObservation s)) (hasSponsorshipAbsenceOf s)
                   (hasTransactionAbsenceOf s))) "relay journal snapshot mode and side-effect state conflict"%string;;
  Ok (restored s request token).
End Restore.

(** ** What a restored record is *)

Section Restored.
Context `{C : RelayCodec} `{AC : AbsenceCodec}.

Lemma snapshot_restored s request token : Snapshot (restored s request token) = s.
Proof. by destruct s. Qed.
Lemma restored_snapshot r : restored (Snapshot r) (request (identity r)) (sponsorshipRecoveryToken (recovery r)) = r.
Proof. destruct r as [[] ? ? ? ? []]. reflexivity. Qed.

(** The checks a restored record passed. *)
Record passedChecks (s : RecordSnapshot) (request : RelayExecutionRequest) (token : string) : Prop := {
  ps_request : exists execution network quote receipt, RelayExecutionRequestDigest request = Ok execution /\
    snapshotOfRequest s request execution network quote receipt = true;
  ps_sponsorship : invalidSponsorshipState s request = false;
  ps_evidence : validEvidence s = true;
  ps_absence : hasAnyAbsence s = true ->
    validRelayAbsenceStateShape (qr_Mode (qr_Body (QuoteRequest request))) (ss_State s) (ss_TerminalOutcome s)
      (ss_SponsorshipTransferReference s) (ss_TransactionReference s) (hasSponsorshipAbsenceOf s) (hasTransactionAbsenceOf s) = true;
  ps_token : checkToken s token = Ok tt;
  ps_release : validRelease s = true;
  ps_outcome : checkOutcomeOf s request = Ok tt;
  ps_mode : validRelayModeState (qr_Mode (qr_Body (QuoteRequest request))) (ss_State s) (ss_TerminalOutcome s)
      (ss_SponsorshipTransferReference s) (some (ss_SponsorshipCreditObservation s)) (hasSponsorshipAbsenceOf s)
      (hasTransactionAbsenceOf s) = true }.

Lemma restore_passed s request tokens r : RestoreRecord s request tokens = Ok r ->
  exists token, r = restored s request token /\ passedChecks s request token.
Proof.
  unfold RestoreRecord. intros (execution & Hx & H)%bind_Ok. do 3 (apply bind_Ok in H as (? & _ & H)).
  apply bind_Ok in H as (? & Hreq%fail_if_Ok & H). apply bind_Ok in H as (? & Hs%fail_if_Ok & H). apply bind_Ok in H as (? & _ & H).
  apply bind_Ok in H as (? & He%fail_if_Ok & H). apply bind_Ok in H as (? & Ha & H). apply bind_Ok in H as (? & _ & H).
  apply bind_Ok in H as ([] & Ht & H). apply bind_Ok in H as (? & Hr%fail_if_Ok & H). apply bind_Ok in H as ([] & Ho & H).
  apply bind_Ok in H as (? & Hm%fail_if_Ok & H). injection H as <-. eexists. split; [reflexivity|].
  apply negb_false_iff in Hreq, He, Hr, Hm. split; try assumption; [by repeat eexists|].
  intros Hany. unfold checkAbsenceEvidence in Ha. rewrite Hany in Ha. apply bind_Ok in Ha as (? & _ & Ha%fail_if_Ok).
  rewrite !orb_false_iff, !negb_false_iff in Ha. tauto.
Qed.

Lemma identity_pair stable exact : stable <> ""%string -> (validSponsorshipIdentityPair stable exact).1 = true.
Proof. intros H. unfold validSponsorshipIdentityPair. by destruct stable. Qed.
Lemma filledList_true {A} (l : list A) : l <> [] -> filledList l = true.
Proof. by destruct l. Qed.

(** A payment that may be in flight is of an open action. *)
Lemma attempted_open s request token : passedChecks s request token -> ss_SponsorshipAttempted s = true -> openState (ss_State s) = true.
Proof.
  intros [_ Hs _ Ha _ _ Ho Hm] Hatt. unfold invalidSponsorshipState in Hs. rewrite Hatt in Hs. cbv zeta in Hs. cbn [negb andb] in Hs.
  rewrite !orb_false_iff in Hs. destruct_and!.
  destruct (some (ss_SponsorshipCreditObservation s)) eqn:Hobs.
  { match goal with H : (true && _) = false |- _ => cbn in H; rewrite !orb_false_iff in H; destruct_and!; by apply negb_false_iff end. }
  destruct (pendingSponsorshipAbsence s _) eqn:Hp.
  { clear -Ha Hp. unfold pendingSponsorshipAbsence in Hp. rewrite !andb_true_iff in Hp. destruct Hp as [[[[_ Habs] _] Ho] _].
    assert (hasAnyAbsence s = true) as Hany by (unfold hasAnyAbsence; by rewrite Habs). specialize (Ha Hany).
    apply (proj1 (same_true _ _)) in Ho. unfold validRelayAbsenceStateShape in Ha. rewrite Ho in Ha.
    destruct (negb _ && negb _); [done|]. destruct (negb (same (ss_State s) ActionTerminal)).
    - rewrite !andb_true_iff in Ha. tauto.
    - exfalso. destruct (qr_Mode _), (hasSponsorshipAbsenceOf s), (hasTransactionAbsenceOf s), (streq (ss_SponsorshipTransferReference s) ""),
        (streq (ss_TransactionReference s) ""), (streq (ss_TransactionReference s) (ss_SponsorshipTransferReference s)); done. }
  destruct (pendingTransactionResolution s _) eqn:Hpt.
  - unfold pendingTransactionResolution in Hpt. rewrite !andb_true_iff in Hpt. destruct Hpt as [[[[[[Hmode Href] _] _] _] _] Hnt].
    apply (proj1 (same_true _ _)) in Hmode. rewrite Hmode in Hm. unfold hasTransfer in Href. apply nonempty_true in Href.
    assert (streq (ss_SponsorshipTransferReference s) "" = false) as Hne.
    { destruct (streq _ _) eqn:E; [|done]. by apply streq_true in E. }
    unfold checkOutcomeOf in Ho. unfold validRelayModeState in Hm. rewrite Hne in Hm. by destruct (ss_State s).
  - match goal with H : _ && negb (same (ss_State s) ActionPrepared) = false |- _ => cbn in H; rename H into Hprep end.
    apply negb_false_iff in Hprep. apply (proj1 (same_true _ _)) in Hprep. by rewrite Hprep.
Qed.

Lemma transfer_of_evidence s req : invalidSponsorshipState s req = false ->
  ss_SponsorshipTransactionEvidence s = None <-> ss_SponsorshipTransferReference s = ""%string.
Proof.
  unfold invalidSponsorshipState. cbv zeta. rewrite !orb_false_iff. intros H. destruct_and!.
  match goal with H : negb (Bool.eqb (some _) (hasTransfer s)) = false |- _ => rename H into He end.
  apply negb_false_iff, eqb_prop in He. unfold hasTransfer in He.
  destruct (ss_SponsorshipTransactionEvidence s), (ss_SponsorshipTransferReference s); cbn in He; done.
Qed.

Lemma payment_backed s req : invalidSponsorshipState s req = false ->
  (hasAnyAbsence s = true ->
    validRelayAbsenceStateShape (qr_Mode (qr_Body (QuoteRequest req))) (ss_State s) (ss_TerminalOutcome s)
      (ss_SponsorshipTransferReference s) (ss_TransactionReference s) (hasSponsorshipAbsenceOf s) (hasTransactionAbsenceOf s) = true) ->
  SponsorshipStableActionID (ss_payment s) <> ""%string ->
  ss_SponsorshipAttempted s = true \/ ss_SponsorshipTransferReference s <> ""%string \/ ss_State s = ActionTerminal.
Proof.
  unfold invalidSponsorshipState. cbv zeta. rewrite !orb_false_iff. intros H Ha Hid. destruct_and!.
  apply (identity_pair _ (SponsorshipExactRequestDigest (ss_payment s))) in Hid. fold (hasSponsorshipIdentity s) in Hid.
  match goal with H : negb (Bool.eqb (_ || _ || hasAnyAbsence s) _) = false |- _ => rename H into He end.
  match goal with H : pendingSponsorshipAbsence s _ && _ = false |- _ => rename H into Hp end.
  apply negb_false_iff, eqb_prop in He. rewrite Hid in He. apply orb_true_iff in He as [[He|He]%orb_true_iff|He]; [by left| |].
  { right; left. by apply nonempty_true. }
  destruct (ss_SponsorshipAttempted s); [by left|]. right. rewrite andb_true_r in Hp. specialize (Ha He).
  unfold validRelayAbsenceStateShape in Ha. destruct (negb _ && negb _); [done|].
  destruct (negb (same (ss_State s) ActionTerminal)) eqn:Hst.
  - left. intros Eref. rewrite !andb_true_iff in Ha. destruct Ha as [[[[[Hm Hsa] Hta] _] Ho] _]. unfold pendingSponsorshipAbsence, hasTransfer in Hp.
    by rewrite Hm, Hsa, Hta, Ho, Eref in Hp.
  - right. apply negb_false_iff in Hst. by apply (proj1 (same_true _ _)).
Qed.

(** C32: A restored record is safe to go on with.  Whatever snapshot, request and token a
    durable journal hands to [RestoreRecord], a record it returns is the snapshot's, of
    exactly that request; it has transfer evidence exactly when it has a transfer
    reference; a payment it names is in flight, transferred or of a closed action; while
    it is in flight the action is open and the protected token is the one whose digest the
    snapshot carries; and released exposure is of a terminal action with a transfer. *)
Theorem restored_record_sound (s : RecordSnapshot) (req : RelayExecutionRequest) (tokens : list string) (r : RelayRecord) :
  RestoreRecord s req tokens = Ok r ->
  Snapshot r = s /\ request (identity r) = req /\ StableActionID (identity r) = ActionStableActionID req /\
  RelayExecutionRequestDigest req = Ok (RelayExecutionDigest (identity r)) /\
  (SponsorshipTransactionEvidence r = None <-> SponsorshipTransferReference r = ""%string) /\
  (SponsorshipStableActionID (payment r) <> ""%string ->
     SponsorshipAttempted (recovery r) = true \/ SponsorshipTransferReference r <> ""%string \/ State r = ActionTerminal) /\
  (SponsorshipAttempted (recovery r) = true -> openState (State r) = true /\
     sponsorshipRecoveryTokenDigest (sponsorshipRecoveryToken (recovery r)) = Ok (SponsorshipRecoveryTokenDigest (recovery r))) /\
  (SponsorshipExposureReleaseEvidenceRefs r <> [] -> State r = ActionTerminal /\ SponsorshipTransferReference r <> ""%string).
Proof.
  intros (token & -> & P)%restore_passed. rewrite snapshot_restored. cbn [restored identity request StableActionID RelayExecutionDigest
    SponsorshipTransactionEvidence SponsorshipTransferReference payment recovery SponsorshipAttempted State
    sponsorshipRecoveryToken SponsorshipRecoveryTokenDigest SponsorshipExposureReleaseEvidenceRefs].
  split; [done|]. split; [done|]. pose proof P as [(x & n & q & rc & Hx & Hreq) Hs _ Ha Ht Hr _ _].
  unfold snapshotOfRequest in Hreq. rewrite !andb_true_iff, !streq_true in Hreq. destruct_and!.
  split; [done|]. split; [congruence|]. split; [by apply transfer_of_evidence in Hs|]. split; [by apply (payment_backed s req)|]. split.
  - intros Hatt. split; [by eapply attempted_open|]. unfold checkToken in Ht. rewrite Hatt in Ht.
    apply bind_Ok in Ht as (d & Hd%or_err_Ok & Heq%fail_if_Ok). apply negb_false_iff, streq_true in Heq. by rewrite Hd, Heq.
  - intros Hrel%filledList_true. unfold validRelease in Hr. rewrite Hrel in Hr. rewrite !andb_true_iff, negb_true_iff in Hr.
    destruct Hr as [_ Hr]. cbn in Hr. rewrite orb_false_iff, !negb_false_iff in Hr. destruct Hr as [Hst Htr].
    split; [by apply (proj1 (same_true _ _))|by apply nonempty_true].
Qed.

(** ** Records that restore *)

Lemma execution_mode req d : RelayExecutionRequestDigest req = Ok d -> validMode (qr_Mode (qr_Body (QuoteRequest req))) = true.
Proof.
  intros (? & H & _)%bind_Ok. unfold validateRelayExecutionRequestCoreShape in H. apply bind_Ok in H as (? & H%fail_if_Ok & _).
  rewrite !orb_false_iff, !negb_false_iff in H. destruct H as [[[[[[[[[[[[[[_ Hq] _] _] _] _] _] _] _] _] _] _] _] _] _].
  destruct (validateRelayQuoteRequestShape _) eqn:E; [|done..]. unfold validateRelayQuoteRequestShape in E.
  apply bind_Ok in E as (? & E%fail_if_Ok & _). rewrite !orb_false_iff, !negb_false_iff in E. tauto.
Qed.

(** A record without observations, evidence or absences, PREPARED, restores when its
    payment and token fit together. *)
Lemma plain_restores req now r0 r tokens : NewPreparedRecord req now = Ok r0 -> identity r = identity r0 ->
  0 < now < two64 -> now <= UpdatedAtUnix r -> StateRevision r <> 0 ->
  r = restored (Snapshot r) req (match tokens with [token] => token | _ => ""%string end) -> (length tokens <= 1)%nat ->
  State r = ActionPrepared -> RecordTerminalOutcome r = NoOutcome -> EvidenceRefs r = [] -> absence r = noAbsence ->
  SponsorshipTransferReference r = ""%string -> SponsorshipCreditObservation r = None -> SponsorshipTransactionEvidence r = None ->
  SupersededSponsorshipCreditObservationDigest r = ""%string -> SponsorshipExposureReleaseEvidenceRefs r = [] ->
  SponsorshipExposureReleasedAtUnix r = 0 ->
  invalidSponsorshipState (Snapshot r) req = false ->
  checkToken (Snapshot r) (match tokens with [token] => token | _ => ""%string end) = Ok tt ->
  RestoreRecord (Snapshot r) req tokens = Ok r.
Proof.
  intros Hp Hi Hnow Hup Hrev Heq Hlen Hst Ho Hrefs Habs Href Hobs Hev Hsup Hrel Hrelat Hinv Htok.
  unfold NewPreparedRecord in Hp. apply bind_Ok in Hp as (? & _ & Hp). apply bind_Ok in Hp as (execution & Hx & Hp).
  apply bind_Ok in Hp as (network & Hn & Hp). apply bind_Ok in Hp as (quote & Hq & Hp). apply bind_Ok in Hp as (receipt & Hrc & Hp). injection Hp as <-.
  unfold RestoreRecord. rewrite Hx, Hn, Hq, Hrc. cbn [mbind result_bind].
  assert (snapshotOfRequest (Snapshot r) req execution network quote receipt = true) as ->.
  { unfold snapshotOfRequest, Snapshot. cbn. rewrite Hi, Hrefs. cbn. rewrite !streq_refl. cbn. rewrite (wrap64_small now) by (unfold u64; lia).
    rewrite (proj2 (Z.eqb_neq _ _) Hrev), (proj2 (Z.eqb_neq now 0)) by lia. cbn. rewrite (proj2 (Z.leb_le _ _) Hup). reflexivity. }
  cbn [negb fail_if mbind result_bind]. rewrite Hinv.
  assert (validObservation (Snapshot r) req = true) as -> by (unfold validObservation; cbn; by rewrite Hobs).
  assert (validEvidence (Snapshot r) = true) as -> by (unfold validEvidence; cbn; by rewrite Hev).
  assert (hasAnyAbsence (Snapshot r) = false) as Hany by (unfold hasAnyAbsence, hasSponsorshipAbsenceOf, hasTransactionAbsenceOf; cbn; by rewrite Habs).
  unfold checkAbsenceEvidence. rewrite Hany. cbn [negb fail_if mbind result_bind].
  assert (1 <? zlen tokens = false) as -> by (apply Z.ltb_ge; unfold zlen; lia). cbn [fail_if mbind result_bind]. rewrite Htok. cbn [mbind result_bind].
  assert (validRelease (Snapshot r) = true) as -> by (unfold validRelease; cbn; by rewrite Hrel, Hrelat). cbn [negb fail_if mbind result_bind].
  assert (checkOutcomeOf (Snapshot r) req = Ok tt) as -> by (unfold checkOutcomeOf; cbn; by rewrite Hst, Ho). cbn [mbind result_bind].
  assert (validRelayModeState (qr_Mode (qr_Body (QuoteRequest req))) (ss_State (Snapshot r)) (ss_TerminalOutcome (Snapshot r))
    (ss_SponsorshipTransferReference (Snapshot r)) (some (ss_SponsorshipCreditObservation (Snapshot r))) (hasSponsorshipAbsenceOf (Snapshot r))
    (hasTransactionAbsenceOf (Snapshot r)) = true) as ->.
  { unfold hasSponsorshipAbsenceOf, hasTransactionAbsenceOf. cbn. rewrite Hst, Ho, Href, Hobs, Habs. apply execution_mode in Hx. by destruct (qr_Mode _). }
  cbn [negb fail_if mbind result_bind]. by rewrite <-Heq.
Qed.

(** The sponsorship checks of such a record. *)
Lemma plain_sponsorship s req (has : bool) : ss_SponsorshipAttempted s = has -> hasSponsorshipIdentity s = has -> ss_State s = ActionPrepared ->
  ss_absence s = noAbsence -> ss_SponsorshipTransferReference s = ""%string -> ss_SponsorshipCreditObservation s = None ->
  ss_SponsorshipTransactionEvidence s = None -> ss_SupersededSponsorshipCreditObservationDigest s = ""%string ->
  (validSponsorshipIdentityPair (SponsorshipStableActionID (ss_payment s)) (SponsorshipExactRequestDigest (ss_payment s))).2 = true ->
  digestPattern (SponsorshipAgreementPaymentRequestDigest (ss_payment s)) = has ->
  negb (SponsorshipValidUntilUnix (ss_payment s) =? 0) = has -> SponsorshipValidUntilUnix (ss_payment s) <= ex_ExpiresAtUnix req ->
  (has = true -> qr_Mode (qr_Body (QuoteRequest req)) <> ModeRelayExact) ->
  invalidSponsorshipState s req = false.
Proof.
  intros Ha Hh Hst Habs Href Hobs Hev Hsup Hv Hd Hu Hle Hm. unfold invalidSponsorshipState. cbv zeta.
  assert (hasTransfer s = false) as Ht by (unfold hasTransfer; by rewrite Href).
  assert (hasSponsorshipAbsenceOf s = false) as Hs by (unfold hasSponsorshipAbsenceOf; by rewrite Habs).
  assert (hasTransactionAbsenceOf s = false) as Hta by (unfold hasTransactionAbsenceOf; by rewrite Habs).
  assert (hasAnyAbsence s = false) as Hany by (unfold hasAnyAbsence; rewrite Hs, Hta, Habs; reflexivity).
  rewrite Hv, Ha, Hobs, Hev, Hh, Hd, Hu, Href, Hsup, Hst. unfold pendingSponsorshipAbsence, pendingTransactionResolution.
  rewrite Ht, Hs, Hta, Hany, (proj2 (Z.ltb_ge _ _) Hle). cbn [some]. rewrite !andb_false_r. cbn.
  destruct has; [|by rewrite andb_false_r]. destruct (qr_Mode _); try done. by destruct (Hm eq_refl).
Qed.

Lemma begin_prepared j k exact revision h at_ r0 r1 : records j !! k = Some r0 -> recovery r0 = noToken ->
  (BeginSponsorship j k exact revision h at_).2 = Ok r1 ->
  exists digest, r1 = attempted r0 h digest at_ /\ sponsorshipRecoveryTokenDigest (OpaqueToken h) = Ok digest /\
    validSponsorshipIdentityPair (HandleStableActionID h) (HandleExactRequestDigest h) = (true, true) /\
    digestPattern (AgreementPaymentRequestDigestOf h) = true /\ 0 <= at_ < HandleValidUntilUnix h /\
    HandleValidUntilUnix h <= ex_ExpiresAtUnix (request (identity r0)) /\ record_mode r0 <> ModeRelayExact.
Proof.
  intros Hr Hno. unfold BeginSponsorship. destruct (validSponsorshipIdentityPair _ _) as [has valid]. unfold guarded.
  destruct (_ || _) eqn:Hg; [done|]. rewrite !orb_false_iff, !negb_false_iff in Hg. destruct Hg as [[[[[[_ Hd] ->] ->] Hp] Ha] Hv].
  destruct (sponsorshipRecoveryTokenDigest (OpaqueToken h)) as [digest| |] eqn:Ht; [|done..]. cbn [or_empty].
  unfold onRecord, relayRecordKey. rewrite Hr. destruct (negb (streq _ _)); [done|].
  destruct (beginEdit _ _ _ _ r0) as [[|r' release]| |] eqn:Hw; try done; intros [= <-]; unfold beginEdit in Hw; rewrite Hno in Hw; passed Hw; [done|].
  injection Hw as <- _. exists digest. split; [done|]. split; [done|]. split; [done|]. split; [done|].
  apply Z.ltb_ge in Ha. apply Z.leb_gt in Hv. split; [lia|].
  match goal with G : _ || (ex_ExpiresAtUnix _ <? _) = false |- _ => rewrite !orb_false_iff in G; destruct_and! end.
  match goal with G : (_ <? HandleValidUntilUnix h) = false |- _ => apply Z.ltb_ge in G end. split; [done|].
  match goal with G : same (record_mode r0) ModeRelayExact = false |- _ => intros Em; by rewrite Em in G end.
Qed.

(** C31: No payment is lost in a crash.  The record of an admitted action restores from its
    snapshot, and so does the record [BeginSponsorship] answers with before the first
    payment attempt, with the protected token: to exactly the same record, in particular
    with the payment identity and the token under which the payment can be queried (the
    clock is positive and does not run backwards in between). *)
Theorem relay_payment_restorable (j : MemoryJournal) (req : RelayExecutionRequest) (now : Z) (r0 r1 : RelayRecord)
    (k exact : string) (revision : Z) (h : SponsorshipRecoveryHandle) (at_ : Z) :
  NewPreparedRecord req now = Ok r0 -> records j !! k = Some r0 -> 0 < now -> now <= at_ < two64 ->
  (BeginSponsorship j k exact revision h at_).2 = Ok r1 ->
  RestoreRecord (Snapshot r0) req [] = Ok r0 /\ RestoreRecord (Snapshot r1) req [OpaqueToken h] = Ok r1 /\
  recoveryHandle r1 = h.
Proof.
  intros Hp Hr Hnow Hat Hb. pose proof Hp as Hp'. unfold NewPreparedRecord in Hp'.
  do 5 (apply bind_Ok in Hp' as (? & _ & Hp')). injection Hp' as Hr0.
  assert (u64 now) as Hu by (unfold u64; lia). assert (u64 at_) as Hu' by (unfold u64; lia). assert (0 < now < two64) as Hn by lia.
  apply (begin_prepared _ _ _ _ _ _ r0) in Hb as (digest & -> & Hdig & Hid & Hpat & Hvu & Hex & Hmode); [|done|by subst r0].
  rewrite <-Hr0 in Hex, Hmode. cbn in Hex. unfold record_mode, record_request in Hmode. cbn in Hmode.
  split; [|split; [|by destruct h]].
  - apply (plain_restores req now r0 r0); try assumption; subst r0; try reflexivity; cbn; rewrite ?wrap64_small by done; try lia.
    eapply (plain_sponsorship _ _ false); try reflexivity; cbn; [lia|done].
  - apply (plain_restores req now r0); try assumption; subst r0; try reflexivity; cbn; rewrite ?wrap64_small by done; try lia.
    + unfold bump. cbn. rewrite wrap64_small by (apply u64_lit; reflexivity). lia.
    + eapply (plain_sponsorship _ _ true); try reflexivity; unfold hasSponsorshipIdentity; cbn; rewrite ?Hid; try done.
      apply negb_true_iff, Z.eqb_neq. lia.
    + unfold checkToken. cbn. rewrite Hdig. cbn. by rewrite streq_refl.
Qed.
End Restored.

(** ** An example *)

Module Sample.
Import RelayAdmission.Sample RelaySafety.Sample.
#[local] Existing Instances RelayAdmission.Sample.codec absenceCodec.

Definition opened (r0 : RelayRecord) : MemoryJournal := with_records {[dg "1" := r0]} NewMemoryJournal.
Definition began : bool :=
  match NewPreparedRecord execution 1100 with
  | Ok r0 =>
      match (BeginSponsorship (opened r0) (dg "1") (dg "2") 1 handle 1150).2 with
      | Ok r1 => is_ok (RestoreRecord (Snapshot r1) execution [OpaqueToken handle])
      | _ => false
      end
  | _ => false
  end.
Lemma began_true : began = true.
Proof. vm_compute. reflexivity. Qed.

Lemma relay_payment_restorable_witness : exists r0 r1, NewPreparedRecord execution 1100 = Ok r0 /\
  (BeginSponsorship (opened r0) (dg "1") (dg "2") 1 handle 1150).2 = Ok r1 /\
  RestoreRecord (Snapshot r1) execution [OpaqueToken handle] = Ok r1 /\ recoveryHandle r1 = handle.
Proof.
  pose proof began_true as H. unfold began in H. destruct (NewPreparedRecord execution 1100) as [r0| |] eqn:H0; [|discriminate H..].
  destruct (BeginSponsorship (opened r0) (dg "1") (dg "2") 1 handle 1150).2 as [r1| |] eqn:H1; [|discriminate H..].
  exists r0, r1. split; [reflexivity|]. split; [exact H1|].
  refine (proj2 (relay_payment_restorable (opened r0) execution 1100 r0 r1 (dg "1") (dg "2") 1 handle 1150 H0 _ _ _ H1)).
  - apply lookup_insert_eq.
  - reflexivity.
  - split; [discriminate|reflexivity].
Defined.

Lemma restored_record_sound_witness : exists r1 r, RestoreRecord (Snapshot r1) execution [OpaqueToken handle] = Ok r /\ Snapshot r = Snapshot r1.
Proof.
  pose proof began_true as H. unfold began in H. destruct (NewPreparedRecord execution 1100) as [r0| |]; [|discriminate H..].
  destruct (BeginSponsorship (opened r0) (dg "1") (dg "2") 1 handle 1150).2 as [r1| |]; [|discriminate H..].
  destruct (RestoreRecord (Snapshot r1) execution [OpaqueToken handle]) as [r| |] eqn:Hr; [|discriminate H..].
  exists r1, r. split; [exact Hr|]. exact (proj1 (restored_record_sound (Snapshot r1) execution [OpaqueToken handle] r Hr)).
Defined.
End Sample.
