(* ===== verification/RelayService.v ===== *)
(** * The relay provider's service (src/pkg/agentrelay/service.go)

    [Quote], [Submit], [Resolve] and [Evidence] as programs: trees of calls to the
    journal, the clock and the services around the provider (payment processor,
    broadcaster, chain resolver, admission authority).  An answer of a service is
    arbitrary, so a program's properties hold whatever the services do; the journal's
    answers are those of [MemoryJournal].  Any number of programs run concurrently on one
    journal, interleaved at the calls, and any of them may stop for good at any call. *)

From S2P Require Import Prelude Text Sha256 Base64 Codec Semantic Authority Amounts Billing Agreement Payment.
From S2P Require Import RelayTypes RelayAbsence RelayAdmission AgentRelay RelayQuotes RelayFinality RelaySafety.

(** ** Data *)

Record SponsorshipResolution := {
  sn_Status : SponsorshipResolutionStatus; sn_TransferReference : string; sn_EvidenceRefs : list string;
  sn_AbsenceOutcome : TerminalOutcome; sn_SponsorshipAbsenceObservations : list RelayAbsenceObservationReference;
  sn_TransactionAbsenceObservations : list RelayAbsenceObservationReference; sn_AbsenceProofBundleDigest : string;
  sn_AbsenceProofBundle : string; sn_CreditObservation : option RelaySponsorshipCreditObservation;
  sn_TransactionEvidence : option RelaySponsorshipTransactionEvidence }.

Inductive BroadcastStatus := BroadcastUnknown | BroadcastAccepted | BroadcastOther (s : string).
Record BroadcastResult := { br_Status : BroadcastStatus; br_TransactionReference : string }.

(** [cr_State] is [None] for the empty string. *)
Record ChainResolution := {
  cr_State : option ActionResolutionState; cr_TransactionReference : string; cr_EvidenceRefs : list string;
  cr_TerminalOutcome : TerminalOutcome; SafeToRebroadcastExact : bool;
  cr_TransactionAbsenceObservations : list RelayAbsenceObservationReference; cr_AbsenceProofBundleDigest : string;
  cr_AbsenceProofBundle : string }.

Record RelaySideEffectAdmissionLookup := {
  lk_SchemaVersion : Z; lk_OwnerID : string; lk_AgentID : string; lk_AuthenticatedPrincipal : string; lk_AuthorityID : string;
  lk_ProviderAgentID : string; lk_ServiceProfileDigest : string; lk_ProviderQuoteDigest : string; lk_NetworkDigest : string;
  lk_TransactionIdentityDigest : string; lk_Mode : Mode; lk_AssuranceLevel : AssuranceLevel; lk_RouteAttempt : Z;
  lk_PredecessorReceiptDigest : string; lk_StableActionID : string; lk_ExactRequestDigest : string;
  lk_RelayExecutionDigest : string; lk_StageMask : list SideEffectStage }.

Definition Lookup (d : RelaySideEffectAdmissionDescriptor) : RelaySideEffectAdmissionLookup :=
  {| lk_SchemaVersion := 1; lk_OwnerID := ds_OwnerID d; lk_AgentID := ds_AgentID d;
     lk_AuthenticatedPrincipal := ds_AuthenticatedPrincipal d; lk_AuthorityID := wf_AuthorityID (wf_Body (ds_WriterFence d));
     lk_ProviderAgentID := ds_ProviderAgentID d; lk_ServiceProfileDigest := ds_ServiceProfileDigest d;
     lk_ProviderQuoteDigest := ds_ProviderQuoteDigest d; lk_NetworkDigest := ds_NetworkDigest d;
     lk_TransactionIdentityDigest := ds_TransactionIdentityDigest d; lk_Mode := ds_Mode d; lk_AssuranceLevel := ds_AssuranceLevel d;
     lk_RouteAttempt := ds_RouteAttempt d; lk_PredecessorReceiptDigest := ds_PredecessorReceiptDigest d;
     lk_StableActionID := ds_StableActionID d; lk_ExactRequestDigest := ds_ExactRequestDigest d;
     lk_RelayExecutionDigest := ds_RelayExecutionDigest d; lk_StageMask := ds_StageMask d |}.

(** codec.Marshal of a signed receipt *)
Class ServiceCodec := { marshal_receipt : SignedRelaySideEffectAdmissionReceipt -> option string }.

(** [IndependentFinalityEvidenceSource] *)
Record EvidenceSourceContract := {
  sourceSupportsCapability : RelayEvidenceCapability -> bool; sourceSupportsDualAbsence : RelayEvidenceCapability -> bool;
  sourceSupportsSponsorshipAbsence : RelayEvidenceCapability -> bool; sourceSupportsTransactionAbsence : RelayEvidenceCapability -> bool;
  HasRetrievableIndependentProofs : bool; HasRollbackResistantCheckpoint : bool; HasRollbackResistantTerminalCommitment : bool }.

(** The answers of the verifiers at the moment of a check: they may differ from one
    check to the next. *)
Record Environment := {
  AgentResolver : option AgentKeyResolver; FenceResolver : option CurrentWriterFenceResolver;
  Inspector : option TransactionInspector; ActionBinder : option ActionTransactionBinder;
  AgreementVerifier : option AgreementEvidenceVerifier; evidenceContract : option EvidenceSourceContract }.

(** [ProviderService]: which of its services are there, and its signing key. *)
Record ProviderService := {
  Profile : RelayServiceProfile; SigningKey : option ((string -> string) * string); hasAdmissionAuthority : bool;
  hasQuotePolicy : bool; hasJournal : bool; hasSponsorship : bool; resolvesDualAbsence : bool; resolvesTransactionAbsence : bool;
  hasObservationVerifier : bool; hasBroadcaster : bool; hasEvidenceSource : bool }.

(** ** Outcomes *)

Definition sponsorshipResolutionHasTransfer (status : SponsorshipResolutionStatus) : bool :=
  same status ResolutionCorroboratedTerminal || same status ResolutionFinalized.

Definition clientCorroborated (evidence : option RelaySponsorshipTransactionEvidence) : bool :=
  match evidence with Some e => same (te_TerminalEvidenceClass e) ClientCorroborated | None => false end.

Definition sponsorshipOnlyOutcomeForEvidence (evidence : option RelaySponsorshipTransactionEvidence) : TerminalOutcome :=
  if clientCorroborated evidence then OutcomeCorroboratedSponsorshipOnly else OutcomeFinalizedSponsorshipOnly.

Definition relayOutcomeForSelectedEvidence (o : TerminalOutcome) (relayClass : TerminalEvidenceClass)
    (evidence : option RelaySponsorshipTransactionEvidence) : TerminalOutcome :=
  if negb (same relayClass ProviderCorroborated || clientCorroborated evidence) then o
  else match o with
  | OutcomeFinalizedSuccess => OutcomeCorroboratedSuccess
  | OutcomeFinalizedExpired => OutcomeCorroboratedExpired
  | OutcomeFinalizedAbsent => OutcomeCorroboratedAbsent
  | OutcomeFinalizedInvalidated => OutcomeCorroboratedInvalidated
  | OutcomeFinalizedRelayOnly => OutcomeCorroboratedRelayOnly
  | _ => o
  end.

Definition relayOnlyOutcomeForAbsence (request : RelayExecutionRequest) : TerminalOutcome :=
  if validRelayAbsenceOutcomeAssurance request OutcomeFinalizedRelayOnly true false None
  then OutcomeFinalizedRelayOnly else OutcomeCorroboratedRelayOnly.

Definition sponsorshipOnlyOutcomeForTransactionAbsence (request : RelayExecutionRequest)
    (evidence : option RelaySponsorshipTransactionEvidence) : TerminalOutcome :=
  if validRelayAbsenceOutcomeAssurance request OutcomeFinalizedSponsorshipOnly false true evidence
  then OutcomeFinalizedSponsorshipOnly else OutcomeCorroboratedSponsorshipOnly.

(** ** Checks *)

Definition agreementObligation (agreement : AgentAgreement) (obligationID : string) : option AgreementObligation :=
  find (fun o => streq (ObligationID o) obligationID) (Obligations (ag_Body agreement)).

Definition relaySignedWindowExpired (request : RelayExecutionRequest) (now : Time) : bool :=
  let nowSeconds := Unix now in
  (nowSeconds <? 0) ||
  existsb (fun deadline => (deadline =? 0) || (deadline <=? nowSeconds))
    [ex_ExpiresAtUnix request; AgreementExpiresAtUnix request; qr_ExpiresAtUnix (qr_Body (QuoteRequest request));
     pq_ExpiresAtUnix (pq_Body (ProviderQuote request)); TransactionValidUntilUnix (qr_Body (QuoteRequest request));
     ac_ExpiresAtUnix (ex_AuthorizedAction request); wf_ExpiresAtUnix (wf_Body (ex_WriterFence request))].

Section Checks.
Context `{C : RelayCodec} `{AC : AbsenceCodec} `{FC : FinalityCodec} `{SC : ServiceCodec}.

Definition equalCanonicalRelayAdmissionReceipts (left right : SignedRelaySideEffectAdmissionReceipt) : result string bool :=
  validateRelaySideEffectAdmissionReceiptShape left;;
  validateRelaySideEffectAdmissionReceiptShape right;;
  leftCanonical ← encoded (marshal_receipt left);
  rightCanonical ← encoded (marshal_receipt right);
  Ok (streq leftCanonical rightCanonical).

Definition exactRelayAdmissionMatches (record : RelayRecord) (request : RelayExecutionRequest) : result string unit :=
  executionDigest ← or_err (RelayExecutionRequestDigest request) ErrRelayConflict;
  fail_if (negb (streq executionDigest (RelayExecutionDigest (identity record)))) ErrRelayConflict;;
  receiptDigest ← or_err (RelaySideEffectAdmissionReceiptDigest (AdmissionReceipt request)) ErrRelayConflict;
  fail_if (negb (streq receiptDigest (AdmissionReceiptDigest (identity record))) ||
           negb (streq (qr_SignedTransactionDigest (qr_Body (QuoteRequest request))) (AgentRelay.SignedTransactionDigest (identity record))))
    ErrRelayConflict;;
  equal ← or_err (equalCanonicalRelayAdmissionReceipts (AdmissionReceipt (AgentRelay.request (identity record))) (AdmissionReceipt request))
    ErrRelayConflict;
  fail_if (negb equal) ErrRelayConflict.

Definition validateSponsorshipRecoveryHandle (recovery : SponsorshipRecoveryHandle) : result string unit :=
  fail_if (negb (digestPattern (AgreementPaymentRequestDigestOf recovery)) ||
           negb (validSponsorshipIdentity (HandleStableActionID recovery) (HandleExactRequestDigest recovery)) ||
           (HandleValidUntilUnix recovery =? 0)) "gas sponsorship recovery identity is invalid"%string;;
  or_err (sponsorshipRecoveryTokenDigest (OpaqueToken recovery)) "gas sponsorship recovery token is invalid"%string;;
  Ok tt.

Definition validateSponsorshipPaymentForRequest (payment : AgreementPaymentRequest)
    (paymentDigest stableActionID exactRequestDigest : string) (validUntilUnix : Z) (network destination : string)
    (amount : AssetAmount) (observedAtUnix : Z) (request : RelayExecutionRequest) (recovery : SponsorshipRecoveryHandle) (at_ : Time)
  : result string unit :=
  let quoted := qr_Body (QuoteRequest request) in
  let conflicts := "sponsorship payment evidence conflicts with the exact execution"%string in
  wantNetwork ← or_err (NetworkDigest (Network quoted)) conflicts;
  reserved ← opt_err (ReservedSponsorship (pq_Body (ProviderQuote request))) conflicts;
  fail_if (negb (streq paymentDigest (AgreementPaymentRequestDigestOf recovery)) ||
           negb (streq stableActionID (HandleStableActionID recovery)) ||
           negb (streq exactRequestDigest (HandleExactRequestDigest recovery)) ||
           negb (validUntilUnix =? HandleValidUntilUnix recovery) || negb (streq network wantNetwork) ||
           negb (streq destination (SourceAccount quoted)) || negb (sameAmount amount reserved) ||
           negb (streq (pay_AgreementBodyDigest payment) (AgreementBodyDigest request)) ||
           negb (streq (AgreementObligationID payment) (SponsorshipObligationID request)) ||
           negb (streq (AgentID payment) (qr_ProviderAgentID quoted)) || negb (streq (PayerAgentID payment) (qr_ProviderAgentID quoted)) ||
           negb (streq (PayeeAgentID payment) (RequesterAgentID quoted)) ||
           negb (streq (pay_NetworkID payment) (NetworkID (Network quoted))) ||
           negb (streq (NetworkDomainDigest payment) wantNetwork) ||
           negb (streq (SettlementAdapterURI payment) DirectPaymentAdapterURI) ||
           negb (streq (Destination payment) (SourceAccount quoted)) ||
           negb (pay_ExpiresAtUnix payment =? HandleValidUntilUnix recovery) ||
           (ex_ExpiresAtUnix request <? pay_ExpiresAtUnix payment) ||
           (unixU (AddSeconds at_ (5 * 60)) <? observedAtUnix)) conflicts.

Definition validateSponsorshipCreditObservationForRequest (observation : RelaySponsorshipCreditObservation)
    (request : RelayExecutionRequest) (recovery : SponsorshipRecoveryHandle) (at_ : Time) : result string unit :=
  let quoted := qr_Body (QuoteRequest request) in
  fail_if (negb (same (qr_SponsorshipReleaseEvidenceClass quoted) ReleaseObservedUnproven) ||
           negb (streq (co_EvidenceProfileURI observation) (qr_SponsorshipReleaseProfileURI quoted)) ||
           negb (streq (co_EvidenceProfileDigest observation) (qr_SponsorshipReleaseProfileDigest quoted)))
    "sponsorship credit observation conflicts with the selected release profile"%string;;
  validateSponsorshipPaymentForRequest (co_Payment observation) (co_PaymentDigest observation) (co_StableActionID observation)
    (co_ExactRequestDigest observation) (co_ValidUntilUnix observation) (co_NetworkDigest observation)
    (co_DestinationAccount observation) (co_Amount observation) (co_ObservedAtUnix observation) request recovery at_.

Definition validateSponsorshipTransactionEvidenceForRequest (evidence : RelaySponsorshipTransactionEvidence)
    (request : RelayExecutionRequest) (recovery : SponsorshipRecoveryHandle) (at_ : Time) : result string unit :=
  let invalid := "autonomous sponsorship evidence has no portable proof locator"%string in
  profile ← opt_err (SponsorshipTerminalProfile (pq_Body (ProviderQuote request))) invalid;
  fail_if (negb (streq (te_TerminalProfileDigest evidence) (ProfileDigest profile)) ||
           negb (same (te_TerminalEvidenceClass evidence) (fp_TerminalEvidenceClass profile)) ||
           (zlen (te_ObservationDigests evidence) <? MinimumObservers profile) ||
           (ConfirmationDepth evidence <? MinimumConfirmationDepth profile) ||
           (same (qr_AssuranceLevel (qr_Body (QuoteRequest request))) AssuranceAutonomousDecentralized &&
            streq (PortableProofLocator evidence) "") ||
           (same (te_TerminalEvidenceClass evidence) ClientCorroborated &&
            negb (streq (ProfileURI profile) ClientCorroboratedTerminalProfileURI))) invalid;;
  validateSponsorshipPaymentForRequest (te_Payment evidence) (te_PaymentDigest evidence) (te_StableActionID evidence)
    (te_ExactRequestDigest evidence) (te_ValidUntilUnix evidence) (te_NetworkDigest evidence) (te_DestinationAccount evidence)
    (te_Amount evidence) (te_ObservedAtUnix evidence) request recovery at_.

(** No data beside the status. *)
Definition emptyAbsence (r : SponsorshipResolution) : bool :=
  same (sn_AbsenceOutcome r) NoOutcome && negb (filled (sn_SponsorshipAbsenceObservations r)) &&
  negb (filled (sn_TransactionAbsenceObservations r)) && streq (sn_AbsenceProofBundleDigest r) "" && (slen (sn_AbsenceProofBundle r) =? 0).

(** The transfer of a terminal resolution. *)
Definition validTransfer (r : SponsorshipResolution) (e : RelaySponsorshipTransactionEvidence) (request : RelayExecutionRequest)
    (recovery : SponsorshipRecoveryHandle) (at_ : Time) : bool :=
  (0 <? slen (sn_TransferReference r)) && (slen (sn_TransferReference r) <=? 1024) && filled (sn_EvidenceRefs r) &&
  sortedOptionalDigests (sn_EvidenceRefs r) && emptyAbsence r && negb (present (sn_CreditObservation r)) &&
  validateRelaySponsorshipTransactionEvidenceShape e &&
  is_ok (validateSponsorshipTransactionEvidenceForRequest e request recovery at_) &&
  streq (SubmittedTransactionHash e) (sn_TransferReference r) && equalStrings (te_ObservationDigests e) (sn_EvidenceRefs r).

Definition checkTransferClass (corroborated : bool) (e : RelaySponsorshipTransactionEvidence) (request : RelayExecutionRequest)
  : result string unit :=
  let quoted := qr_Body (QuoteRequest request) in
  if corroborated then
    fail_if (same (qr_AssuranceLevel quoted) AssuranceAutonomousDecentralized ||
             negb (same (qr_SponsorshipReleaseEvidenceClass quoted) ReleaseObservedUnproven) ||
             match SponsorshipTerminalProfile (pq_Body (ProviderQuote request)) with
             | Some profile => negb (streq (ProfileURI profile) ClientCorroboratedTerminalProfileURI)
             | None => true
             end || negb (same (te_TerminalEvidenceClass e) ClientCorroborated) || ValidatorAuthenticatedPortableProof e)
      "corroborated sponsorship terminal evidence is not permitted for this assurance"
  else
    fail_if (negb (same (qr_SponsorshipReleaseEvidenceClass quoted) ReleaseValidatorFinality) ||
             negb (same (te_TerminalEvidenceClass e) ValidatorFinality) || negb (ValidatorAuthenticatedPortableProof e))
      "finalized sponsorship lacks validator-authenticated evidence".

(** A resolution that reports an absence: [corroborating] when its status is the lower one. *)
Definition validateAbsenceResolution (r : SponsorshipResolution) (corroborating : bool) (request : RelayExecutionRequest)
    (recovery : SponsorshipRecoveryHandle) (at_ : Time) : result string unit :=
  let quoted := qr_Body (QuoteRequest request) in
  let quote := pq_Body (ProviderQuote request) in
  let sponsorship := sn_SponsorshipAbsenceObservations r in
  let transaction := sn_TransactionAbsenceObservations r in
  fail_if (negb (streq (sn_TransferReference r) "") || filled (sn_EvidenceRefs r) || present (sn_CreditObservation r) ||
           present (sn_TransactionEvidence r) || negb (safeTerminalAbsenceOutcome (sn_AbsenceOutcome r)))
    "gas sponsorship finalized-absence evidence is incomplete"%string;;
  fail_if ((same (qr_Mode quoted) ModeSponsorOnly && (negb (filled sponsorship) || filled transaction)) ||
           (same (qr_Mode quoted) ModeSponsorAndRelay && negb (filled sponsorship)) || same (qr_Mode quoted) ModeRelayExact)
    "gas sponsorship absence scope conflicts with the selected mode"%string;;
  context ← or_err (relayAbsenceContextForRequest request recovery (sn_AbsenceOutcome r) (Unix at_))
    "gas sponsorship finalized-absence context is invalid"%string;
  labelled "gas sponsorship finalized-absence evidence is incomplete: "
    (validateRelayAbsenceObservationComponents sponsorship transaction context);;
  labelled "gas sponsorship absence proof bundle is incomplete: "
    (validateRelayAbsenceProofBundleForBody sponsorship transaction (sn_AbsenceProofBundleDigest r) (sn_AbsenceProofBundle r));;
  let corroborated := same (sn_AbsenceOutcome r) OutcomeCorroboratedExpired || same (sn_AbsenceOutcome r) OutcomeCorroboratedAbsent ||
    same (sn_AbsenceOutcome r) OutcomeCorroboratedInvalidated in
  let allValidator := validatorProfile (SponsorshipTerminalProfile quote) &&
    (negb (filled transaction) || validatorProfile (RelayFinalityProfile quote)) in
  fail_if (if corroborating then negb corroborated || allValidator else corroborated || negb allValidator)
    "gas sponsorship absence status overstates or understates its selected evidence class"%string.

Definition validateSponsorshipResolution (r : SponsorshipResolution) (request : RelayExecutionRequest)
    (recovery : SponsorshipRecoveryHandle) (at_ : Time) : result string unit :=
  let noTransfer := streq (sn_TransferReference r) "" && negb (filled (sn_EvidenceRefs r)) && emptyAbsence r in
  match sn_Status r with
  | ResolutionUnknown =>
      fail_if (negb noTransfer || present (sn_CreditObservation r) || present (sn_TransactionEvidence r))
        "unresolved sponsorship query returned terminal data"
  | ResolutionObservedUnproven =>
      let incomplete := "gas sponsorship unproven credit observation is incomplete or not permitted"%string in
      fail_if (negb (same (qr_SponsorshipReleaseEvidenceClass (qr_Body (QuoteRequest request))) ReleaseObservedUnproven) ||
               negb noTransfer || present (sn_TransactionEvidence r) ||
               match sn_CreditObservation r with
               | Some o => negb (validateRelaySponsorshipCreditObservationShape o) ||
                           negb (is_ok (validateSponsorshipCreditObservationForRequest o request recovery at_))
               | None => true
               end) incomplete
  | ResolutionCorroboratedTerminal | ResolutionFinalized =>
      let incomplete := "gas sponsorship finality evidence is incomplete"%string in
      e ← opt_err (sn_TransactionEvidence r) incomplete;
      fail_if (negb (validTransfer r e request recovery at_)) incomplete;;
      checkTransferClass (same (sn_Status r) ResolutionCorroboratedTerminal) e request
  | ResolutionCorroboratedAbsent | ResolutionFinalizedAbsent =>
      validateAbsenceResolution r (same (sn_Status r) ResolutionCorroboratedAbsent) request recovery at_
  | _ => Err "gas sponsorship resolution status is invalid"%string
  end.

(** The finality profile of a selection, when the mode has one. *)
Definition selectedFinality (service : ProviderService) (selects : bool) (uri digest unavailable : string)
  : result string (option FinalityProfile) :=
  if selects then
    profile ← opt_err (findFinalityProfile (FinalityProfiles (Profile service)) uri digest) unavailable;
    Ok (Some profile)
  else Ok None.

Definition verifyEvidenceCapability (service : ProviderService) (env : Environment) (request : RelayQuoteRequestBody) : result string unit :=
  source ← opt_err (evidenceContract env) "relay terminal evidence source has no exact capability contract"%string;
  relay ← selectedFinality service (negb (same (qr_Mode request) ModeSponsorOnly)) (RelayFinalityProfileURI request)
    (RelayFinalityProfileDigest request) "selected relay terminal profile is unavailable";
  sponsorship ← selectedFinality service (negb (same (qr_Mode request) ModeRelayExact)) (SponsorshipTerminalProfileURI request)
    (qr_SponsorshipTerminalProfileDigest request) "selected sponsorship terminal profile is unavailable";
  let capability := requestCapability request relay sponsorship in
  fail_if (negb (sourceSupportsCapability source capability))
    "relay terminal evidence source is not ready for the exact signed capability"%string;;
  fail_if (same (qr_Mode request) ModeSponsorAndRelay && negb (sourceSupportsDualAbsence source capability))
    "relay terminal evidence source cannot prove both sponsorship absence domains"%string;;
  fail_if (negb (same (qr_Mode request) ModeRelayExact) && negb (sourceSupportsSponsorshipAbsence source capability))
    "relay terminal evidence source cannot prove component sponsorship absence"%string;;
  fail_if (same (qr_Mode request) ModeSponsorAndRelay && negb (sourceSupportsTransactionAbsence source capability))
    "relay terminal evidence source cannot prove component transaction absence"%string;;
  fail_if (same (qr_AssuranceLevel request) AssuranceAutonomousDecentralized &&
           (negb (HasRetrievableIndependentProofs source) || negb (HasRollbackResistantCheckpoint source) ||
            negb (HasRollbackResistantTerminalCommitment source)))
    "relay terminal evidence source lacks autonomous assurance capabilities"%string.
End Checks.

(** ** Programs *)

(** The calls to everything but the journal. *)
Inductive query :=
  | Now
  | CurrentEnvironment
  | ResolveRelaySideEffectAdmission (lookup : RelaySideEffectAdmissionLookup)
  | PolicyQuote (request : SignedRelayQuoteRequest) (now : Time)
  | PrepareRecovery (request : RelayExecutionRequest) (agreement : AgentAgreement) (obligation : AgreementObligation)
  | EnsureFinalized (request : RelayExecutionRequest) (agreement : AgentAgreement) (obligation : AgreementObligation)
      (recovery : SponsorshipRecoveryHandle)
  | ResolveFinalized (request : RelayExecutionRequest) (recovery : SponsorshipRecoveryHandle)
  | ResolveRelayDualAbsence (request : RelayExecutionRequest) (recovery : SponsorshipRecoveryHandle)
      (references : list RelayAbsenceObservationReference) (bundleDigest bundle : string)
  | ResolveRelayTransactionAbsence (request : RelayExecutionRequest) (recovery : SponsorshipRecoveryHandle) (o : TerminalOutcome)
  | VerifySponsorshipCreditObservation (o : RelaySponsorshipCreditObservation) (profile : SponsorshipReleaseProfile)
  | SubmitExact (request : RelayExecutionRequest)
  | ResolveChain (record : RelayRecord)
  | SourceEvidence (record : RelayRecord).

Definition answer (q : query) : Type :=
  match q with
  | Now => Time
  | CurrentEnvironment => Environment
  | ResolveRelaySideEffectAdmission _ => result string SignedRelaySideEffectAdmissionReceipt
  | PolicyQuote _ _ => result string ProviderRelayQuoteBody
  | PrepareRecovery _ _ _ => result string SponsorshipRecoveryHandle
  | EnsureFinalized _ _ _ _ | ResolveFinalized _ _ | ResolveRelayDualAbsence _ _ _ _ _ => result string SponsorshipResolution
  | ResolveRelayTransactionAbsence _ _ _ | ResolveChain _ => result string ChainResolution
  | VerifySponsorshipCreditObservation _ _ => result string unit
  | SubmitExact _ => result string BroadcastResult
  | SourceEvidence _ => result string RelayFinalityEvidenceBody
  end.

(** The calls to the journal: reading a record, or one of its operations. *)
Inductive jcall := Read (stable exact : string) | Perform (op : Op).

Definition jreply (c : jcall) : Type :=
  match c with
  | Perform (OpReserveQuote _ _ _ _) => reply (SignedProviderRelayQuote * bool)
  | Perform (OpAdmit _ _) => reply (RelayRecord * bool)
  | _ => reply RelayRecord
  end.

Inductive prog (A : Type) : Type :=
  | Ret (a : A)
  | Ask (q : query) (k : answer q -> prog A)
  | Do (c : jcall) (k : jreply c -> prog A).
Arguments Ret {A} a.
Arguments Ask {A} q k.
Arguments Do {A} c k.

Fixpoint bind {A B} (p : prog A) (f : A -> prog B) : prog B :=
  match p with
  | Ret a => f a
  | Ask q k => Ask q (fun a => bind (k a) f)
  | Do c k => Do c (fun a => bind (k a) f)
  end.

(** A program that may stop early with an error, and the record returned beside it. *)
Definition then_ {A B} (p : prog (reply A)) (f : A -> prog (reply B)) : prog (reply B) :=
  bind p (fun r => match r with Ok a => f a | Err e => Ret (Err e) | Panic why => Ret (Panic why) end).
Declare Scope prog_scope.
Open Scope prog_scope.
Notation "x <~ p ; q" := (then_ p (fun x => q)) (at level 100, p at next level, right associativity) : prog_scope.
Notation "p ;~ q" := (then_ p (fun _ => q)) (at level 100, right associativity) : prog_scope.

Definition return_ {A} (a : A) : prog (reply A) := Ret (Ok a).
Definition stop {A} (beside : option RelayRecord) (e : string) : prog (reply A) := Ret (Err (beside, e)).
Definition beside {A} (record : option RelayRecord) (r : result string A) : reply A :=
  match r with Ok a => Ok a | Err e => Err (record, e) | Panic why => Panic why end.
Definition check {A} (record : option RelayRecord) (r : result string A) : prog (reply A) := Ret (beside record r).
Definition clock : prog (reply Time) := Ask Now (fun t => Ret (Ok t)).
Definition environment : prog (reply Environment) := Ask CurrentEnvironment (fun env => Ret (Ok env)).

(** The journal's operations, at an instant *)
Definition transition (record : RelayRecord) (target : ActionResolutionState) (reference : string) (refs : list string)
    (o : TerminalOutcome) (at_ : Time) : prog (reply RelayRecord) :=
  Do (Perform (OpTransition (StableActionID (identity record)) (RecordExactRequestDigest (identity record)) (StateRevision record)
                 target reference refs o (Unix at_))) Ret.
Definition recordObservation (record : RelayRecord) (o : RelaySponsorshipCreditObservation) (at_ : Time) : prog (reply RelayRecord) :=
  Do (Perform (OpRecordObservation (StableActionID (identity record)) (RecordExactRequestDigest (identity record))
                 (StateRevision record) o (Unix at_))) Ret.
Definition recordSponsorship (record : RelayRecord) (e : RelaySponsorshipTransactionEvidence) (at_ : Time) : prog (reply RelayRecord) :=
  Do (Perform (OpRecordSponsorship (StableActionID (identity record)) (RecordExactRequestDigest (identity record))
                 (StateRevision record) e (Unix at_))) Ret.
Definition recordAbsence (record : RelayRecord) (o : TerminalOutcome) (sponsorship transaction : list RelayAbsenceObservationReference)
    (bundleDigest bundle : string) (at_ : Time) : prog (reply RelayRecord) :=
  Do (Perform (OpRecordAbsence (StableActionID (identity record)) (RecordExactRequestDigest (identity record)) (StateRevision record)
                 {| reportOutcome := o; reportSponsorship := sponsorship; reportTransaction := transaction;
                    reportBundleDigest := bundleDigest; reportBundle := bundle |} (Unix at_))) Ret.

(** [errors.Join] *)
Definition join (cause e : string) : string := cause +:+ bytes [10%N] +:+ e.

(** The record of a failed operation gives way to the one at hand. *)
Definition closing (record : RelayRecord) (cause : string) (p : prog (reply RelayRecord)) : prog (reply RelayRecord) :=
  bind p (fun r => match r with
                   | Ok closed => stop (Some closed) cause
                   | Err (_, e) => stop (Some record) (join cause e)
                   | Panic why => Ret (Panic why)
                   end).

Definition rejectPrepared (record : RelayRecord) (cause : string) (at_ : Time) : prog (reply RelayRecord) :=
  closing record cause (transition record ActionRejected "" (EvidenceRefs record) NoOutcome at_).

Definition terminalizeSponsorshipOnly (record : RelayRecord) (cause : string) (at_ : Time) : prog (reply RelayRecord) :=
  if streq (SponsorshipTransferReference record) "" || negb (filled (EvidenceRefs record)) then
    stop (Some record) (join cause "finalized sponsorship checkpoint is unavailable")
  else closing record cause
    (transition record ActionTerminal (SponsorshipTransferReference record) (EvidenceRefs record)
       (sponsorshipOnlyOutcomeForEvidence (SponsorshipTransactionEvidence record)) at_).

(** A failed check closes the action some way; a panic stays one. *)
Definition orClose {A} (r : result string A) (close : string -> prog (reply RelayRecord)) (k : prog (reply RelayRecord))
  : prog (reply RelayRecord) :=
  match r with Ok _ => k | Err e => close e | Panic why => Ret (Panic why) end.

Section Service.
Context `{C : RelayCodec} `{AC : AbsenceCodec} `{FC : FinalityCodec} `{SC : ServiceCodec} `{BC : BindingCodec} `{A : AgreementCodec}.
Variable service : ProviderService.

Definition stableOf (request : RelayExecutionRequest) : string := ActionStableActionID request.
Definition modeOf (request : RelayExecutionRequest) : Mode := qr_Mode (qr_Body (QuoteRequest request)).
Definition requestOf (record : RelayRecord) : RelayExecutionRequest := AgentRelay.request (identity record).

(** The observation is checked by the independent verifier, then recorded. *)
Definition observeCredit (record : RelayRecord) (request : RelayExecutionRequest) (resolution : SponsorshipResolution)
    (record_ : RelaySponsorshipCreditObservation -> prog (reply RelayRecord)) : prog (reply RelayRecord) :=
  if negb (hasObservationVerifier service) then
    stop (Some record) "independent sponsorship credit observation verifier is unavailable"
  else
    o <~ check (Some record) (deref (sn_CreditObservation resolution));
    Ask (VerifySponsorshipCreditObservation o (SelectedSponsorshipReleaseProfile (qr_Body (QuoteRequest request)))) (fun verified =>
    check (Some record) (labelled "verify sponsorship credit observation: " verified) ;~
    record_ o).

(** The outcome the journal keeps of an absence: none while the relayed transaction is open. *)
Definition journalOutcome (request : RelayExecutionRequest) (resolution : SponsorshipResolution) : TerminalOutcome :=
  if same (modeOf request) ModeSponsorAndRelay && filled (sn_SponsorshipAbsenceObservations resolution) &&
     negb (filled (sn_TransactionAbsenceObservations resolution)) then NoOutcome else sn_AbsenceOutcome resolution.

Definition recordAbsenceOf (record : RelayRecord) (request : RelayExecutionRequest) (resolution : SponsorshipResolution) (at_ : Time)
  : prog (reply RelayRecord) :=
  recordAbsence record (journalOutcome request resolution) (sn_SponsorshipAbsenceObservations resolution)
    (sn_TransactionAbsenceObservations resolution) (sn_AbsenceProofBundleDigest resolution) (sn_AbsenceProofBundle resolution) at_.

Definition resolveAttemptedSponsorship (record : RelayRecord) (at_ : Time) : prog (reply RelayRecord) :=
  let recovery := recoveryHandle record in
  if negb (hasSponsorship service) || negb (SponsorshipAttempted (AgentRelay.recovery record)) then
    stop (Some record) "sponsorship recovery processor or token is unavailable"
  else
    check (Some record) (validateSponsorshipRecoveryHandle recovery) ;~
    Ask (ResolveFinalized (requestOf record) recovery) (fun resolved =>
    resolution <~ check (Some record) resolved;
    check (Some record) (validateSponsorshipResolution resolution (requestOf record) recovery at_) ;~
    match sn_Status resolution with
    | ResolutionUnknown => return_ record
    | ResolutionObservedUnproven => observeCredit record (requestOf record) resolution (fun o => recordObservation record o at_)
    | ResolutionCorroboratedAbsent | ResolutionFinalizedAbsent => recordAbsenceOf record (requestOf record) resolution at_
    | ResolutionCorroboratedTerminal | ResolutionFinalized =>
        e <~ check (Some record) (deref (sn_TransactionEvidence resolution));
        record <~ recordSponsorship record e at_;
        transition record ActionTerminal (sn_TransferReference resolution) (sn_EvidenceRefs resolution)
          (sponsorshipOnlyOutcomeForEvidence (sn_TransactionEvidence resolution)) at_
    | _ => stop (Some record) "sponsorship recovery returned an unknown resolution status"
    end).

Definition resolveObservedSponsorship (record : RelayRecord) (at_ : Time) : prog (reply RelayRecord) :=
  if negb (hasSponsorship service) || negb (SponsorshipAttempted (AgentRelay.recovery record)) ||
     negb (present (SponsorshipCreditObservation record)) then
    stop (Some record) "observed sponsorship recovery processor or token is unavailable"
  else
    let recovery := recoveryHandle record in
    Ask (ResolveFinalized (requestOf record) recovery) (fun resolved =>
    resolution <~ check (Some record) resolved;
    check (Some record) (validateSponsorshipResolution resolution (requestOf record) recovery at_) ;~
    match sn_Status resolution with
    | ResolutionUnknown => return_ record
    | ResolutionObservedUnproven => observeCredit record (requestOf record) resolution (fun o => recordObservation record o at_)
    | ResolutionCorroboratedTerminal | ResolutionFinalized =>
        e <~ check (Some record) (deref (sn_TransactionEvidence resolution));
        recordSponsorship record e at_
    | ResolutionCorroboratedAbsent | ResolutionFinalizedAbsent => recordAbsenceOf record (requestOf record) resolution at_
    | _ => stop (Some record) "observed sponsorship recovery returned an unknown status"
    end).

(** *** Submit *)

(** A stage of [Submit] either returns its record or goes on with it. *)
Inductive stage := Return (record : RelayRecord) | Continue (record : RelayRecord).
Definition finishWith (p : prog (reply RelayRecord)) : prog (reply stage) := record <~ p; return_ (Return record).

(** The first sponsorship of an action, or an exact retry of it. *)
Definition recoveryFor (request : RelayExecutionRequest) (agreement : AgentAgreement) (obligation : AgreementObligation)
    (record : RelayRecord) : prog (reply (stage * SponsorshipRecoveryHandle)) :=
  let handle := recoveryHandle record in
  if negb (SponsorshipAttempted (AgentRelay.recovery record)) then
    Ask (PrepareRecovery request agreement obligation) (fun prepared =>
    recovery <~ check (Some record) prepared;
    check (Some record) (validateSponsorshipRecoveryHandle recovery) ;~
    now <~ clock;
    match VerifyRelayRemainingValidity request (Unix now) SideEffectSponsorship with
    | Ok _ =>
        record <~ Do (Perform (OpBeginSponsorship (StableActionID (identity record)) (RecordExactRequestDigest (identity record))
                                 (StateRevision record) recovery (Unix now))) Ret;
        return_ (Continue record, recovery)
    | Err e => rejected <~ rejectPrepared record e now; return_ (Return rejected, recovery)
    | Panic why => Ret (Panic why)
    end)
  else check (Some record) (validateSponsorshipRecoveryHandle handle) ;~ return_ (Continue record, handle).

(** What the processor's answer does to the action. *)
Definition applyResolution (request : RelayExecutionRequest) (record : RelayRecord) (resolution : SponsorshipResolution)
  : prog (reply stage) :=
  match sn_Status resolution with
  | ResolutionUnknown => return_ (Return record)
  | ResolutionObservedUnproven =>
      record <~ observeCredit record request resolution (fun o => now <~ clock; recordObservation record o now);
      if same (modeOf request) ModeSponsorOnly then
        now <~ clock;
        finishWith (transition record ActionSubmitted "" [] NoOutcome now)
      else return_ (Continue record)
  | ResolutionCorroboratedAbsent | ResolutionFinalizedAbsent =>
      now <~ clock;
      finishWith (recordAbsenceOf record request resolution now)
  | ResolutionCorroboratedTerminal | ResolutionFinalized =>
      e <~ check (Some record) (deref (sn_TransactionEvidence resolution));
      now <~ clock;
      record <~ recordSponsorship record e now;
      return_ (Continue record)
  | _ => stop (Some record) "gas sponsorship returned an unknown resolution status"
  end.

(** The payment itself: its identity is durable before the processor is asked to pay. *)
Definition paySponsorship (request : RelayExecutionRequest) (agreement : AgentAgreement) (record : RelayRecord) : prog (reply stage) :=
  if negb (hasSponsorship service) then stop (Some record) "gas sponsorship processor is unavailable"
  else match agreementObligation agreement (SponsorshipObligationID request) with
  | None => stop (Some record) "gas sponsorship Agreement obligation is unavailable"
  | Some obligation =>
      now <~ clock;
      match VerifyRelayRemainingValidity request (Unix now) SideEffectSponsorship with
      | Err e => finishWith (rejectPrepared record e now)
      | Panic why => Ret (Panic why)
      | Ok _ =>
          prepared <~ recoveryFor request agreement obligation record;
          match prepared with
          | (Return record, _) => return_ (Return record)
          | (Continue record, recovery) =>
              Ask (EnsureFinalized request agreement obligation recovery) (fun paid =>
              resolution <~ check (Some record) paid;
              now <~ clock;
              check (Some record) (validateSponsorshipResolution resolution request recovery now) ;~
              applyResolution request record resolution)
          end
      end
  end.

Definition sponsor (request : RelayExecutionRequest) (agreement : AgentAgreement) (record : RelayRecord) : prog (reply stage) :=
  if streq (SponsorshipTransferReference record) "" && present (SponsorshipCreditObservation record) then
    if negb (same (qr_SponsorshipReleaseEvidenceClass (qr_Body (QuoteRequest request))) ReleaseObservedUnproven) then
      stop (Some record) "durable unproven sponsorship conflicts with the signed release profile"
    else if same (modeOf request) ModeSponsorOnly then
      now <~ clock;
      finishWith (transition record ActionSubmitted "" [] NoOutcome now)
    else return_ (Continue record)
  else if streq (SponsorshipTransferReference record) "" && negb (filled (SponsorshipAbsenceObservations (absence record)))
  then paySponsorship request agreement record
  else return_ (Continue record).

(** The core check against the current verifiers. *)
Definition coreCheck (request : RelayExecutionRequest) (now : Time) (env : Environment) : result string unit :=
  verifyRelayExecutionRequestCoreAtAuthorityTime request (Profile service) (AgentResolver env) (FenceResolver env) (Inspector env)
    now (issuedAt request) false.
Definition readyCheck (request : RelayExecutionRequest) (env : Environment) : result string unit :=
  VerifyRelayReadyToBroadcast request (Profile service) (Inspector env) (ActionBinder env).

(** SUBMITTED is persisted before the one write attempt. *)
Definition broadcast (request : RelayExecutionRequest) (record : RelayRecord) : prog (reply RelayRecord) :=
  if negb (hasBroadcaster service) then stop (Some record) "exact transaction broadcaster is unavailable"
  else
    now <~ clock;
    match VerifyRelayRemainingValidity request (Unix now) SideEffectBroadcast with
    | Err e =>
        if negb (streq (SponsorshipTransferReference record) "") then terminalizeSponsorshipOnly record e now
        else if present (SponsorshipCreditObservation record) then stop (Some record) e
        else rejectPrepared record e now
    | Panic why => Ret (Panic why)
    | Ok _ =>
        record <~ transition record ActionSubmitted "" (EvidenceRefs record) NoOutcome now;
        Ask (SubmitExact request) (fun submitted =>
        result <~ check (Some record) submitted;
        match br_Status result with
        | BroadcastUnknown => return_ record
        | BroadcastAccepted =>
            now <~ clock;
            transition record ActionAccepted (br_TransactionReference result) (EvidenceRefs record) NoOutcome now
        | BroadcastOther _ =>
            stop (Some record) "relay broadcaster returned an unauthenticated rejection; write outcome remains ambiguous"
        end)
    end.

(** After the sponsorship: the sponsor-only action ends, the combined one is checked again. *)
Definition afterSponsorship (request : RelayExecutionRequest) (record : RelayRecord) : prog (reply RelayRecord) :=
  now <~ clock;
  if same (modeOf request) ModeSponsorOnly then
    transition record ActionTerminal (SponsorshipTransferReference record) (EvidenceRefs record)
      (sponsorshipOnlyOutcomeForEvidence (SponsorshipTransactionEvidence record)) now
  else
    let close cause := terminalizeSponsorshipOnly record cause now in
    orClose (VerifyRelayRemainingValidity request (Unix now) SideEffectBroadcast) close
    (orClose (VerifyRelaySideEffectAdmissionReceiptIntegrity (AdmissionReceipt request) request) close
    (env <~ environment;
     orClose (coreCheck request now env) close
     (env <~ environment;
      orClose (readyCheck request env) close (broadcast request record)))).

(** The side effects of an admitted action. *)
Definition drain (request : RelayExecutionRequest) (agreement : AgentAgreement) (record : RelayRecord) : prog (reply RelayRecord) :=
  if negb (same (modeOf request) ModeRelayExact) then
    next <~ sponsor request agreement record;
    match next with
    | Return record => return_ record
    | Continue record => afterSponsorship request record
    end
  else broadcast request record.

(** The authority still answers with this receipt. *)
Definition confirmAdmission (request : RelayExecutionRequest) : prog (reply unit) :=
  if negb (hasAdmissionAuthority service) then stop None "relay side-effect admission authority is unavailable"
  else
    let receipt := rc_Body (AdmissionReceipt request) in
    descriptor <~ check None (buildRelaySideEffectAdmissionDescriptorForRoute request (rb_AuthenticatedPrincipal receipt)
                                (rb_RouteAttempt receipt) (rb_PredecessorReceiptDigest receipt));
    Ask (ResolveRelaySideEffectAdmission (Lookup descriptor)) (fun resolved =>
    authoritative <~ check None (labelled "resolve authoritative relay side-effect admission: " resolved);
    let conflicts := "authoritative relay side-effect admission conflicts with the submitted receipt"%string in
    equal <~ check None (or_err (equalCanonicalRelayAdmissionReceipts authoritative (AdmissionReceipt request)) conflicts);
    check None (fail_if (negb equal) conflicts)).

(** From the live checks on; [admitted] when the journal already has the action. *)
Definition enter (request : RelayExecutionRequest) (agreement : AgentAgreement) (admitted : bool) (now : Time) : prog (reply RelayRecord) :=
  env <~ environment;
  check None (coreCheck request now env) ;~
  env <~ environment;
  check None (VerifyActionTransactionBinding request (Profile service) (Inspector env) (ActionBinder env)) ;~
  env <~ environment;
  check None (VerifyRelayExecutionAgreement request agreement (AgreementVerifier env) now) ;~
  env <~ environment;
  check None (verifyEvidenceCapability service env (qr_Body (QuoteRequest request))) ;~
  now <~ clock;
  check None (if admitted then Ok tt else VerifyRelaySideEffectAdmissionReceipt (AdmissionReceipt request) request (Unix now)) ;~
  check None (VerifyRelayRemainingValidity request (Unix now)
                (if same (modeOf request) ModeRelayExact then SideEffectBroadcast else SideEffectSponsorship)) ;~
  (if admitted then return_ tt else confirmAdmission request) ;~
  admission <~ Do (Perform (OpAdmit request (Unix now))) Ret;
  let '(record, created) := admission in
  if negb created && negb (same (State record) ActionPrepared) then return_ record
  else drain request agreement record.

Definition Submit (request : RelayExecutionRequest) (agreement : AgentAgreement) : prog (reply RelayRecord) :=
  now <~ clock;
  if negb (hasJournal service) then stop None "relay provider journal is unavailable"
  else Do (Read (stableOf request) (ActionExactRequestDigest request)) (fun found =>
    match found with
    | Ok existing =>
        check (Some existing) (exactRelayAdmissionMatches existing request) ;~
        if negb (same (State existing) ActionPrepared) then return_ existing
        else if SponsorshipAttempted (AgentRelay.recovery existing) && relaySignedWindowExpired (requestOf existing) now
        then resolveAttemptedSponsorship existing now
        else
          check (Some existing) (VerifyRelaySideEffectAdmissionReceiptIntegrity (AdmissionReceipt request) request) ;~
          enter request agreement true now
    | Err (existing, e) =>
        if streq e ErrRelayConflict then stop existing ErrRelayConflict
        else if streq e ErrRelayUnknown then
          check None (VerifyRelaySideEffectAdmissionReceipt (AdmissionReceipt request) request (Unix now)) ;~
          enter request agreement false now
        else stop None e
    | Panic why => Ret (Panic why)
    end).

(** *** Resolve *)

Definition pendingAbsence (record : RelayRecord) : bool :=
  same (modeOf (requestOf record)) ModeSponsorAndRelay && streq (SponsorshipTransferReference record) "" &&
  filled (SponsorshipAbsenceObservations (absence record)) && negb (filled (TransactionAbsenceObservations (absence record))) &&
  same (RecordTerminalOutcome record) NoOutcome.

(** A PREPARED action is closed only after its signed windows. *)
Definition resolvePrepared (record : RelayRecord) : prog (reply RelayRecord) :=
  now <~ clock;
  if negb (relaySignedWindowExpired (requestOf record) now) then return_ record
  else if negb (streq (SponsorshipTransferReference record) "") then
    transition record ActionTerminal (SponsorshipTransferReference record) (EvidenceRefs record)
      (sponsorshipOnlyOutcomeForEvidence (SponsorshipTransactionEvidence record)) now
  else if SponsorshipAttempted (AgentRelay.recovery record) then resolveAttemptedSponsorship record now
  else transition record ActionRejected "" [] NoOutcome now.

Definition negativeTerminal (resolved : ChainResolution) : bool :=
  same (cr_State resolved) (Some ActionTerminal) && safeTerminalAbsenceOutcome (cr_TerminalOutcome resolved).

(** The pending absence of the sponsorship becomes a dual one. *)
Definition aggregateAbsence (record : RelayRecord) (resolved : ChainResolution) : prog (reply RelayRecord) :=
  if negb (hasSponsorship service && resolvesDualAbsence service) then
    stop (Some record) "combined relay dual-absence aggregator is unavailable"
  else
    let p := absence record in
    Ask (ResolveRelayDualAbsence (requestOf record) (recoveryHandle record) (SponsorshipAbsenceObservations p)
           (AbsenceProofBundleDigest p) (AbsenceProofBundle p)) (fun aggregated =>
    resolution <~ check (Some record) aggregated;
    if same (sn_Status resolution) ResolutionUnknown then return_ record
    else
      now <~ clock;
      check (Some record) (validateSponsorshipResolution resolution (requestOf record) (recoveryHandle record) now) ;~
      check (Some record)
        (fail_if ((negb (same (sn_Status resolution) ResolutionCorroboratedAbsent) &&
                   negb (same (sn_Status resolution) ResolutionFinalizedAbsent)) ||
                  negb (filled (sn_TransactionAbsenceObservations resolution)) ||
                  negb (equalStrings (relayAbsenceObservationReferenceDigests (SponsorshipAbsenceObservations p))
                          (relayAbsenceObservationReferenceDigests (sn_SponsorshipAbsenceObservations resolution))) ||
                  negb (same (transactionConclusion (sn_AbsenceOutcome resolution)) (transactionConclusion (cr_TerminalOutcome resolved))))
           "dual-absence aggregation substituted a component or conclusion"%string) ;~
      now <~ clock;
      recordAbsence record (sn_AbsenceOutcome resolution) (sn_SponsorshipAbsenceObservations resolution)
        (sn_TransactionAbsenceObservations resolution) (sn_AbsenceProofBundleDigest resolution) (sn_AbsenceProofBundle resolution) now).

(** [resolved] names a transaction absence. *)
Definition hasComponent (resolved : ChainResolution) : bool :=
  filled (cr_TransactionAbsenceObservations resolved) || negb (streq (cr_AbsenceProofBundleDigest resolved) "") ||
  negb (slen (cr_AbsenceProofBundle resolved) =? 0).

Definition sponsoredWithEvidence (record : RelayRecord) : bool :=
  same (modeOf (requestOf record)) ModeSponsorAndRelay && negb (streq (SponsorshipTransferReference record) "") &&
  present (SponsorshipTransactionEvidence record).

(** The transaction-only proof of a negative result beside a sponsorship that succeeded;
    [None] when the resolver knows nothing yet. *)
Definition componentAbsence (record : RelayRecord) (resolved : ChainResolution) : prog (reply (option ChainResolution)) :=
  if negb (sponsoredWithEvidence record && negativeTerminal resolved && negb (hasComponent resolved)) then return_ (Some resolved)
  else if negb (hasSponsorship service && resolvesTransactionAbsence service) then
    stop (Some record) "combined relay transaction-component absence resolver is unavailable"
  else
    Ask (ResolveRelayTransactionAbsence (requestOf record) (recoveryHandle record) (cr_TerminalOutcome resolved)) (fun answered =>
    component <~ check (Some record) answered;
    if same (cr_State component) None then return_ None
    else
      check (Some record)
        (fail_if (negb (negativeTerminal component) || negb (streq (cr_TransactionReference component) "") ||
                  negb (same (transactionConclusion (cr_TerminalOutcome component)) (transactionConclusion (cr_TerminalOutcome resolved))) ||
                  negb (filled (cr_TransactionAbsenceObservations component)) || streq (cr_AbsenceProofBundleDigest component) "" ||
                  (slen (cr_AbsenceProofBundle component) =? 0))
           "transaction-component resolver substituted the exact relay conclusion or scope"%string) ;~
      return_ (Some component)).

Definition recordComponent (record : RelayRecord) (resolved : ChainResolution) : prog (reply RelayRecord) :=
  if negb (sponsoredWithEvidence record && negativeTerminal resolved && streq (cr_TransactionReference resolved) "" &&
           filled (cr_TransactionAbsenceObservations resolved)) then
    stop (Some record) "relay transaction-component absence conflicts with the durable sponsorship state"
  else
    let o := sponsorshipOnlyOutcomeForTransactionAbsence (requestOf record) (SponsorshipTransactionEvidence record) in
    now <~ clock;
    recordAbsence record o [] (cr_TransactionAbsenceObservations resolved) (cr_AbsenceProofBundleDigest resolved)
      (cr_AbsenceProofBundle resolved) now.

(** The frozen bytes are sent again when the chain resolver allows it; the state the
    record goes to, with its reference. *)
Definition rebroadcast (record : RelayRecord) (resolved : ChainResolution) : prog (reply (option ChainResolution)) :=
  if negb (SafeToRebroadcastExact resolved) then return_ (Some resolved)
  else
    let request := requestOf record in
    env <~ environment;
    check (Some record) (verifyEvidenceCapability service env (qr_Body (QuoteRequest request))) ;~
    now <~ clock;
    check (Some record) (VerifyRelaySideEffectAdmissionReceiptIntegrity (AdmissionReceipt request) request) ;~
    env <~ environment;
    check (Some record) (coreCheck request now env) ;~
    env <~ environment;
    check (Some record) (readyCheck request env) ;~
    check (Some record) (VerifyRelayRemainingValidity request (Unix now) SideEffectBroadcast) ;~
    Ask (SubmitExact request) (fun submitted =>
    result <~ check (Some record) submitted;
    match br_Status result with
    | BroadcastUnknown => return_ None
    | BroadcastAccepted =>
        return_ (Some {| cr_State := Some ActionAccepted; cr_TransactionReference := br_TransactionReference result;
                         cr_EvidenceRefs := cr_EvidenceRefs resolved; cr_TerminalOutcome := cr_TerminalOutcome resolved;
                         SafeToRebroadcastExact := SafeToRebroadcastExact resolved;
                         cr_TransactionAbsenceObservations := cr_TransactionAbsenceObservations resolved;
                         cr_AbsenceProofBundleDigest := cr_AbsenceProofBundleDigest resolved;
                         cr_AbsenceProofBundle := cr_AbsenceProofBundle resolved |})
    | BroadcastOther _ =>
        stop (Some record) "exact relay rebroadcast returned no authenticated acceptance; original outcome remains unresolved"
    end).

(** The chain's answer changes nothing. *)
Definition unchanged (record : RelayRecord) (resolved : ChainResolution) : bool :=
  same (cr_State resolved) (Some (State record)) && streq (cr_TransactionReference resolved) (TransactionReference record) &&
  same (cr_TerminalOutcome resolved) NoOutcome && negb (filled (cr_EvidenceRefs resolved)).

(** The state, reference and outcome the record goes to. *)
Definition concluded (record : RelayRecord) (state : ActionResolutionState) (reference : string) (o : TerminalOutcome)
  : result string (ActionResolutionState * string * TerminalOutcome) :=
  let sponsored := negb (streq (SponsorshipTransferReference record) "") in
  let absent := filled (SponsorshipAbsenceObservations (absence record)) in
  let relayClass := qr_RelayTerminalEvidenceClass (qr_Body (QuoteRequest (requestOf record))) in
  let '(state, reference, o) :=
    if sponsored && (same state ActionRejected || same state ActionConflict)
    then (ActionTerminal, SponsorshipTransferReference record, sponsorshipOnlyOutcomeForEvidence (SponsorshipTransactionEvidence record))
    else (state, reference, o) in
  let terminal := same state ActionTerminal in
  o ← (if absent && negb sponsored && terminal && (same o OutcomeFinalizedSuccess || same o OutcomeCorroboratedSuccess)
       then Ok (relayOnlyOutcomeForAbsence (requestOf record))
       else if sponsored && terminal then
         if same o OutcomeFinalizedSuccess
         then Ok (relayOutcomeForSelectedEvidence o relayClass (SponsorshipTransactionEvidence record))
         else fail_if (negb (same o OutcomeCorroboratedSuccess))
                "combined post-submit relay result lacks success or typed transaction absence"%string;; Ok o
       else Ok o);
  Ok (state, reference, if terminal && negb sponsored && negb absent then relayOutcomeForSelectedEvidence o relayClass None else o).

Definition conclude (record : RelayRecord) (resolved : ChainResolution) : prog (reply RelayRecord) :=
  match cr_State resolved with
  | None => return_ record
  | Some state =>
      if unchanged record resolved then return_ record
      else
        target <~ check (Some record) (concluded record state (cr_TransactionReference resolved) (cr_TerminalOutcome resolved));
        let '(state, reference, o) := target in
        if SponsorshipAttempted (AgentRelay.recovery record) && present (SponsorshipCreditObservation record) &&
           (same state ActionTerminal || same state ActionRejected || same state ActionConflict) then return_ record
        else
          now <~ clock;
          transition record state reference (mergeEvidenceRefs (EvidenceRefs record) (cr_EvidenceRefs resolved)) o now
  end.

(** From the chain resolver on. *)
Definition resolveOnChain (record : RelayRecord) (pending : bool) : prog (reply RelayRecord) :=
  if negb (hasBroadcaster service) then stop (Some record) "relay resolver is unavailable"
  else
    Ask (ResolveChain record) (fun answered =>
    resolved <~ check (Some record) answered;
    if (same (State record) ActionSubmitted || same (State record) ActionAccepted) &&
       (same (cr_State resolved) (Some ActionRejected) || same (cr_State resolved) (Some ActionConflict)) then
      stop (Some record) "post-submit relay rejection is not proof of non-execution; outcome remains unresolved"
    else if pending && negativeTerminal resolved then aggregateAbsence record resolved
    else
      component <~ componentAbsence record resolved;
      match component with
      | None => return_ record
      | Some resolved =>
          if hasComponent resolved then recordComponent record resolved
          else
            sent <~ rebroadcast record resolved;
            match sent with None => return_ record | Some resolved => conclude record resolved end
      end).

Definition ResolveAction (stable exact : string) : prog (reply RelayRecord) :=
  if negb (hasJournal service) then stop None "relay provider journal is unavailable"
  else
    record <~ Do (Read stable exact) Ret;
    let pending := pendingAbsence record in
    if same (State record) ActionTerminal || same (State record) ActionRejected || same (State record) ActionConflict then return_ record
    else if same (State record) ActionPrepared && negb pending then resolvePrepared record
    else if SponsorshipAttempted (AgentRelay.recovery record) && present (SponsorshipCreditObservation record) then
      now <~ clock;
      record <~ resolveObservedSponsorship record now;
      if same (modeOf (requestOf record)) ModeSponsorOnly then
        if streq (SponsorshipTransferReference record) "" then return_ record
        else
          now <~ clock;
          transition record ActionTerminal (SponsorshipTransferReference record) (EvidenceRefs record)
            (sponsorshipOnlyOutcomeForEvidence (SponsorshipTransactionEvidence record)) now
      else resolveOnChain record (pendingAbsence record)
    else resolveOnChain record pending.

(** *** Quote *)

Definition Quote (request : SignedRelayQuoteRequest) : prog (reply SignedProviderRelayQuote) :=
  now <~ clock;
  if negb (hasQuotePolicy service) || negb (hasJournal service) || negb (present (SigningKey service)) then
    stop None "relay quote service is unavailable"
  else
    key <~ check None (deref (SigningKey service));
    env <~ environment;
    check None (VerifyRelayQuoteRequest request (Profile service) (AgentResolver env) now) ;~
    env <~ environment;
    check None (verifyEvidenceCapability service env (qr_Body request)) ;~
    Ask (PolicyQuote request now) (fun proposed =>
    body <~ check None proposed;
    signed <~ check None (SignProviderRelayQuote key.1 key.2 body);
    env <~ environment;
    check None (labelled "relay quote policy produced an invalid quote: "
                  (VerifyProviderRelayQuote signed request (Profile service) (AgentResolver env) now)) ;~
    reserved <~ Do (Perform (OpReserveQuote (Profile service) request signed (Unix now))) Ret;
    env <~ environment;
    check None (labelled "reserved relay quote is invalid: "
                  (VerifyProviderRelayQuote reserved.1 request (Profile service) (AgentResolver env) now)) ;~
    return_ reserved.1).

(** *** Evidence *)

Definition with_signing_time (body : RelayFinalityEvidenceBody) (t : Z) : RelayFinalityEvidenceBody :=
  {| fe_SchemaVersion := fe_SchemaVersion body; fe_ProviderAgentID := fe_ProviderAgentID body; fe_Network := fe_Network body;
     fe_AssuranceLevel := fe_AssuranceLevel body; fe_StableActionID := fe_StableActionID body;
     fe_ExactRequestDigest := fe_ExactRequestDigest body; fe_RelayExecutionDigest := fe_RelayExecutionDigest body;
     fe_SignedTransactionDigest := fe_SignedTransactionDigest body; fe_SignedTransactionCellHash := fe_SignedTransactionCellHash body;
     fe_TransactionValidUntilUnix := fe_TransactionValidUntilUnix body; fe_SourceAccount := fe_SourceAccount body;
     fe_SourceSequence := fe_SourceSequence body; fe_SponsorshipStableActionID := fe_SponsorshipStableActionID body;
     fe_SponsorshipExactRequestDigest := fe_SponsorshipExactRequestDigest body;
     fe_SponsorshipValidUntilUnix := fe_SponsorshipValidUntilUnix body;
     fe_SponsorshipTransferReference := fe_SponsorshipTransferReference body;
     fe_SponsorshipTransactionEvidence := fe_SponsorshipTransactionEvidence body;
     fe_SponsorshipAbsenceObservations := fe_SponsorshipAbsenceObservations body;
     fe_TransactionAbsenceObservations := fe_TransactionAbsenceObservations body;
     fe_AbsenceProofBundleDigest := fe_AbsenceProofBundleDigest body; fe_AbsenceProofBundle := fe_AbsenceProofBundle body;
     fe_SponsorshipTerminalProfile := fe_SponsorshipTerminalProfile body; fe_SubmittedTransactionHash := fe_SubmittedTransactionHash body;
     fe_SourceExecutionReference := fe_SourceExecutionReference body; fe_DestinationCreditReferences := fe_DestinationCreditReferences body;
     fe_RelayTerminalEvidenceClass := fe_RelayTerminalEvidenceClass body;
     RelayValidatorAuthenticatedPortableProof := RelayValidatorAuthenticatedPortableProof body;
     RelayFinalizedCheckpointID := RelayFinalizedCheckpointID body; RelayFinalizedCheckpointSequence := RelayFinalizedCheckpointSequence body;
     RelayFinalizedCheckpointUnix := RelayFinalizedCheckpointUnix body; RelayConfirmationDepth := RelayConfirmationDepth body;
     fe_RelayFinalityProfile := fe_RelayFinalityProfile body; RelayObservationDigests := RelayObservationDigests body;
     Outcome := Outcome body; fe_ObservedAtUnix := fe_ObservedAtUnix body; SigningAuthorityAtUnix := t |}.

(** The evidence is about the durable record. *)
Definition evidenceMatchesRecord (body : RelayFinalityEvidenceBody) (record : RelayRecord) : bool :=
  let request := requestOf record in
  let quoted := qr_Body (QuoteRequest request) in
  let quote := pq_Body (ProviderQuote request) in
  let p := absence record in
  streq (fe_ProviderAgentID body) (sp_ProviderAgentID (Profile service)) && same (fe_Network body) (Network quoted) &&
  same (fe_AssuranceLevel body) (qr_AssuranceLevel quoted) && streq (fe_StableActionID body) (StableActionID (identity record)) &&
  streq (fe_ExactRequestDigest body) (RecordExactRequestDigest (identity record)) &&
  streq (fe_RelayExecutionDigest body) (RelayExecutionDigest (identity record)) &&
  streq (fe_SignedTransactionDigest body) (qr_SignedTransactionDigest quoted) &&
  streq (fe_SignedTransactionCellHash body) (qr_SignedTransactionCellHash quoted) &&
  streq (fe_SourceAccount body) (SourceAccount quoted) && (fe_SourceSequence body =? SourceSequence quoted) &&
  equalFinalityProfilePointers (fe_RelayFinalityProfile body) (RelayFinalityProfile quote) &&
  equalFinalityProfilePointers (fe_SponsorshipTerminalProfile body) (SponsorshipTerminalProfile quote) &&
  same (Outcome body) (RecordTerminalOutcome record) &&
  streq (fe_SponsorshipTransferReference body) (SponsorshipTransferReference record) &&
  streq (fe_SponsorshipStableActionID body) (SponsorshipStableActionID (payment record)) &&
  streq (fe_SponsorshipExactRequestDigest body) (SponsorshipExactRequestDigest (payment record)) &&
  (fe_SponsorshipValidUntilUnix body =? SponsorshipValidUntilUnix (payment record)) &&
  equalStrings (relayAbsenceObservationReferenceDigests (fe_SponsorshipAbsenceObservations body)) (SponsorshipAbsenceObservationDigests p) &&
  equalStrings (relayAbsenceObservationReferenceDigests (fe_TransactionAbsenceObservations body)) (TransactionAbsenceObservationDigests p) &&
  streq (fe_AbsenceProofBundleDigest body) (AbsenceProofBundleDigest p) && streq (fe_AbsenceProofBundle body) (AbsenceProofBundle p).

Definition evidenceConflictsWithMode (body : RelayFinalityEvidenceBody) (mode : Mode) : bool :=
  let transferred := nonempty (fe_SponsorshipTransferReference body) in
  let hasAbsence := filled (fe_SponsorshipAbsenceObservations body) || filled (fe_TransactionAbsenceObservations body) in
  match mode with
  | ModeRelayExact =>
      nonempty (fe_SponsorshipStableActionID body) || nonempty (fe_SponsorshipExactRequestDigest body) ||
      negb (fe_SponsorshipValidUntilUnix body =? 0) || transferred || hasAbsence || sponsorshipOnlyOutcome (Outcome body)
  | ModeSponsorAndRelay => negb transferred && negb hasAbsence
  | ModeSponsorOnly => (transferred && negb (sponsorshipOnlyOutcome (Outcome body))) || (negb transferred && negb hasAbsence)
  | ModeOther _ => false
  end.

(** The nested payment evidence against the record's payment, quote and assurance. *)
Definition checkSponsorshipOfRecord (sponsorship : RelaySponsorshipTransactionEvidence) (record : RelayRecord) : result string unit :=
  let request := requestOf record in
  let quoted := qr_Body (QuoteRequest request) in
  let conflicts := "relay sponsorship evidence conflicts with the exact payment, quote, or assurance level"%string in
  let validator := same (te_TerminalEvidenceClass sponsorship) ValidatorFinality && ValidatorAuthenticatedPortableProof sponsorship in
  reserved ← opt_err (ReservedSponsorship (pq_Body (ProviderQuote request))) conflicts;
  network ← or_err (NetworkDigest (Network quoted)) conflicts;
  fail_if (negb (streq (te_PaymentDigest sponsorship) (SponsorshipAgreementPaymentRequestDigest (payment record))) ||
           negb (streq (te_StableActionID sponsorship) (SponsorshipStableActionID (payment record))) ||
           negb (streq (te_ExactRequestDigest sponsorship) (SponsorshipExactRequestDigest (payment record))) ||
           negb (te_ValidUntilUnix sponsorship =? SponsorshipValidUntilUnix (payment record)) ||
           negb (streq (te_DestinationAccount sponsorship) (SourceAccount quoted)) || negb (sameAmount (te_Amount sponsorship) reserved) ||
           negb (streq (SubmittedTransactionHash sponsorship) (SponsorshipTransferReference record)) ||
           negb (digestSetContainsAll (EvidenceRefs record) (te_ObservationDigests sponsorship)) ||
           (same (qr_AssuranceLevel quoted) AssuranceAutonomousDecentralized &&
            (streq (PortableProofLocator sponsorship) "" || negb validator)) ||
           (same (qr_SponsorshipReleaseEvidenceClass quoted) ReleaseObservedUnproven &&
            (negb (same (te_TerminalEvidenceClass sponsorship) ClientCorroborated) || ValidatorAuthenticatedPortableProof sponsorship ||
             match SponsorshipTerminalProfile (pq_Body (ProviderQuote request)) with
             | Some profile => negb (streq (ProfileURI profile) ClientCorroboratedTerminalProfileURI)
             | None => true
             end)) ||
           (same (qr_SponsorshipReleaseEvidenceClass quoted) ReleaseValidatorFinality && negb validator)) conflicts;;
  VerifySponsorshipPaymentRequestForEvidence (te_Payment sponsorship) sponsorship
    (sponsorshipContext request network reserved (SponsorshipStableActionID (payment record)) (SponsorshipExactRequestDigest (payment record)));;
  durable ← opt_err (SponsorshipTransactionEvidence record) "durable sponsorship transaction evidence is unavailable"%string;
  let substituted := "relay evidence source substituted durable sponsorship transaction evidence"%string in
  bodyDigest ← or_err (RelaySponsorshipTransactionEvidenceDigest sponsorship) substituted;
  recordDigest ← or_err (RelaySponsorshipTransactionEvidenceDigest durable) substituted;
  fail_if (negb (streq bodyDigest recordDigest)) substituted.

(** The checks of [Evidence] on the body it is about to sign. *)
Definition checkEvidenceBody (body : RelayFinalityEvidenceBody) (record : RelayRecord) : result string unit :=
  validateRelayFinalityEvidenceBody body;;
  fail_if (negb (evidenceMatchesRecord body record)) "relay evidence source conflicts with the durable terminal record"%string;;
  fail_if ((nonempty (fe_SubmittedTransactionHash body) || same (Outcome body) OutcomeFinalizedSuccess) &&
           negb (streq (fe_SubmittedTransactionHash body) (TransactionReference record)))
    "relay evidence substituted the durable submitted transaction reference"%string;;
  fail_if ((filled (fe_SponsorshipAbsenceObservations body) || filled (fe_TransactionAbsenceObservations body)) &&
           negb (validSponsorshipAbsenceRecord record)) "relay evidence source substituted sponsorship absence proof"%string;;
  fail_if (evidenceConflictsWithMode body (modeOf (requestOf record))) "relay evidence outcome conflicts with the selected service mode"%string;;
  match fe_SponsorshipTransactionEvidence body with
  | Some sponsorship => checkSponsorshipOfRecord sponsorship record
  | None => Ok tt
  end.

Definition EvidenceFor (stable exact : string) : prog (reply SignedRelayFinalityEvidence) :=
  if negb (hasJournal service) || negb (present (SigningKey service)) then stop None "relay evidence service is unavailable"
  else
    key <~ check None (deref (SigningKey service));
    record <~ Do (Read stable exact) Ret;
    if negb (same (State record) ActionTerminal) || negb (hasEvidenceSource service) then stop None "terminal relay evidence is unavailable"
    else
      Ask (SourceEvidence record) (fun produced =>
      body <~ check None produced;
      now <~ clock;
      let body := with_signing_time body (unixU now) in
      check None (checkEvidenceBody body record) ;~
      check None (SignRelayFinalityEvidence key.1 key.2 body)).

(** *** SignedResolution *)

Definition resolutionBody (record : RelayRecord) (now : Time) (observation evidenceSet : string) : RelayResolutionBody :=
  let quoted := qr_Body (QuoteRequest (requestOf record)) in
  {| rr_SchemaVersion := 1; rr_ProviderAgentID := sp_ProviderAgentID (Profile service); rr_Network := Network quoted;
     rr_AssuranceLevel := qr_AssuranceLevel quoted; rr_StableActionID := StableActionID (identity record);
     rr_ExactRequestDigest := RecordExactRequestDigest (identity record); rr_RelayExecutionDigest := RelayExecutionDigest (identity record);
     rr_State := State record; rr_StateRevision := StateRevision record; rr_TerminalOutcome := RecordTerminalOutcome record;
     rr_TransactionReference := TransactionReference record;
     rr_SponsorshipStableActionID := SponsorshipStableActionID (payment record);
     rr_SponsorshipExactRequestDigest := SponsorshipExactRequestDigest (payment record);
     rr_SponsorshipValidUntilUnix := SponsorshipValidUntilUnix (payment record);
     rr_SponsorshipTransferReference := SponsorshipTransferReference record;
     SponsorshipStatus := if nonempty observation then ResolutionObservedUnproven else NoStatus;
     SponsorshipObservationDigest := observation; EvidenceSetDigest := evidenceSet; rr_ObservedAtUnix := unixU now;
     rr_ExpiresAtUnix := unixU (AddSeconds now (15 * 60)) |}.

Definition signResolution (key : (string -> string) * string) (record : RelayRecord) (now : Time) : result string SignedRelayResolution :=
  observation ← match SponsorshipCreditObservation record with
                | Some o => if SponsorshipAttempted (AgentRelay.recovery record) then RelaySponsorshipCreditObservationDigest o else Ok ""%string
                | None => Ok ""%string
                end;
  evidenceSet ← (if same (State record) ActionTerminal then RelayEvidenceSetDigest (EvidenceRefs record) else Ok ""%string);
  SignRelayResolution key.1 key.2 (resolutionBody record now observation evidenceSet).
End Service.
