(* ===== verification/RelaySystem.v ===== *)
(** * The relay provider at work

    Any number of the provider's programs (src/pkg/agentrelay/service.go) run at once on
    one journal, interleaved at their calls; a program may stop for good at any call, and
    the services it calls may answer anything.  What they do to the outside world is
    safe: every broadcast is of bytes bound to a durable record, and by [Submit] only
    after the record left PREPARED; a relay_exact action is broadcast by [Submit] at most
    once; every payment of one action carries one durable payment identity. *)

From S2P Require Import Prelude Text Sha256 Base64 Codec Semantic Authority Amounts Billing Agreement Payment.
From S2P Require Import RelayTypes RelayAbsence RelayAdmission AgentRelay RelayQuotes RelayFinality RelaySafety RelayService.

(** ** Concurrent programs on one journal *)

Inductive task :=
  | TaskSubmit (service : ProviderService) (request : RelayExecutionRequest) (agreement : AgentAgreement)
  | TaskResolve (service : ProviderService) (stable exact : string)
  | TaskQuote (service : ProviderService) (request : SignedRelayQuoteRequest)
  | TaskEvidence (service : ProviderService) (stable exact : string)
  | TaskRelease (stable exact : string) (revision : Z) (refs : list string) (at_ : Time).

Section System.
Context `{C : RelayCodec} `{AC : AbsenceCodec} `{FC : FinalityCodec} `{SC : ServiceCodec} `{BC : BindingCodec} `{A : AgreementCodec}.

(** The journal's answer to a call. *)
Definition perform (j : MemoryJournal) (c : jcall) : MemoryJournal * jreply c :=
  match c return MemoryJournal * jreply c with
  | Read stable exact => (j, AgentRelay.Resolve j stable exact)
  | Perform (OpReserveQuote profile request proposal now) => ReserveQuote j profile request proposal now
  | Perform (OpAdmit request now) => Admit j request now
  | Perform (OpBeginSponsorship stable exact revision h at_) => BeginSponsorship j stable exact revision h at_
  | Perform (OpRecordObservation stable exact revision o at_) => RecordSponsorshipObservation j stable exact revision o at_
  | Perform (OpRecordSponsorship stable exact revision e at_) => RecordSponsorship j stable exact revision e at_
  | Perform (OpRecordAbsence stable exact revision a at_) => RecordSponsorshipAbsence j stable exact revision a at_
  | Perform (OpReleaseExposure stable exact revision refs at_) => ReleaseSponsorshipExposure j stable exact revision refs at_
  | Perform (OpTransition stable exact revision target reference refs o at_) =>
      Transition j stable exact revision target reference refs o at_
  end.

Definition forget {X} (p : prog X) : prog unit := bind p (fun _ => Ret tt).

Definition program (t : task) : prog unit :=
  match t with
  | TaskSubmit service request agreement => forget (Submit service request agreement)
  | TaskResolve service stable exact => forget (ResolveAction service stable exact)
  | TaskQuote service request => forget (Quote service request)
  | TaskEvidence service stable exact => forget (EvidenceFor service stable exact)
  | TaskRelease stable exact revision refs at_ =>
      forget (Do (Perform (OpReleaseExposure stable exact revision refs (Unix at_))) Ret)
  end.

(** The journal, the programs with what is left of them, and the calls made so far. *)
Record system := { journal : MemoryJournal; running : list (task * prog unit); calls : list (task * query) }.
Definition initial : system := {| journal := NewMemoryJournal; running := []; calls := [] |}.

Inductive step (sys : system) : system -> Prop :=
  | step_start t : step sys {| journal := journal sys; running := running sys ++ [(t, program t)]; calls := calls sys |}
  | step_ask i t q k (a : answer q) : running sys !! i = Some (t, Ask q k) ->
      step sys {| journal := journal sys; running := <[i := (t, k a)]> (running sys); calls := (t, q) :: calls sys |}
  | step_do i t c k : running sys !! i = Some (t, Do c k) ->
      step sys {| journal := (perform (journal sys) c).1;
                  running := <[i := (t, k (perform (journal sys) c).2)]> (running sys); calls := calls sys |}.

(** ** How records move on *)

(** [r'] is the record [r], or a later revision of it. *)
Record later (r r' : RelayRecord) : Prop := {
  later_identity : identity r' = identity r;
  later_revision : r' = r \/ StateRevision r < StateRevision r';
  later_state : State r <> ActionPrepared -> State r' <> ActionPrepared;
  later_payment : payment r <> noPayment -> payment r' = payment r }.

Lemma later_refl r : later r r.
Proof. by split; auto. Qed.
Lemma later_trans r1 r2 r3 : later r1 r2 -> later r2 r3 -> later r1 r3.
Proof.
  intros [Hi Hr Hs Hp] [Hi' Hr' Hs' Hp']. split; [congruence| |auto|].
  - destruct Hr as [->|?], Hr' as [->|?]; auto. right. lia.
  - intros H. rewrite <-(Hp H). apply Hp'. by rewrite (Hp H).
Qed.

Lemma advances_later r r' : 0 <= StateRevision r < maxUint64 -> advances r r' -> later r r'.
Proof.
  intros Hb [Hi Hr Hp _ Hs _ _]. split; [done| | |].
  - right. rewrite Hr, wrap64_small; [lia|]. unfold u64, maxUint64 in *. lia.
  - intros H. destruct Hs as [->|[_ Hv]]; [done|]. intros E. rewrite E in Hv. by destruct (State r).
  - intros H. by destruct Hp.
Qed.

Definition evolves (j j' : MemoryJournal) : Prop :=
  forall k r, records j !! k = Some r -> exists r', records j' !! k = Some r' /\ later r r'.

Lemma evolves_refl j : evolves j j.
Proof. intros k r H. exists r. split; [done|apply later_refl]. Qed.
Lemma evolves_trans j1 j2 j3 : evolves j1 j2 -> evolves j2 j3 -> evolves j1 j3.
Proof.
  intros H1 H2 k r Hr. destruct (H1 _ _ Hr) as (r2 & Hr2 & L1). destruct (H2 _ _ Hr2) as (r3 & Hr3 & L2).
  exists r3. split; [done|by eapply later_trans].
Qed.

(** The identity is that of the request: of its digest and of the bytes to send. *)
Definition binds (request : RelayExecutionRequest) (i : RecordIdentity) : Prop :=
  StableActionID i = stableOf request /\ RelayExecutionRequestDigest request = Ok (RelayExecutionDigest i) /\
  qr_SignedTransactionDigest (qr_Body (QuoteRequest request)) = AgentRelay.SignedTransactionDigest i.

(** Every record is of the request it was admitted for. *)
Definition identified (j : MemoryJournal) : Prop :=
  forall k r, records j !! k = Some r -> StableActionID (identity r) = k /\ binds (requestOf r) (identity r).

Definition bounded (n : Z) (j : MemoryJournal) : Prop := forall k r, records j !! k = Some r -> 1 <= StateRevision r <= n.

(** A call changes at most one record: it is new, or advances. *)
Definition touches_at (j j' : MemoryJournal) (k : string) : Prop :=
  records j' !! k = records j !! k \/
  (exists r r', records j !! k = Some r /\ records j' !! k = Some r' /\ advances r r') \/
  (exists request now r, records j !! k = None /\ records j' !! k = Some r /\ NewPreparedRecord request now = Ok r /\
     stableOf request = k).
Definition touches (j j' : MemoryJournal) : Prop := forall k, touches_at j j' k.

(** The payment a recovery handle names. *)
Definition paymentOf (h : SponsorshipRecoveryHandle) : PaymentIdentity :=
  {| SponsorshipAgreementPaymentRequestDigest := AgreementPaymentRequestDigestOf h;
     SponsorshipStableActionID := HandleStableActionID h; SponsorshipExactRequestDigest := HandleExactRequestDigest h;
     SponsorshipValidUntilUnix := HandleValidUntilUnix h |}.

Lemma bind_provider_records j p : records (bindProviderLocked j p).1 = records j.
Proof. unfold bindProviderLocked. cbn. by destruct (streq _ _). Qed.

Lemma release_expired_records j now : records (releaseExpiredUnconsumedLocked j now) = records j.
Proof.
  unfold releaseExpiredUnconsumedLocked. generalize (map_to_list (quoteReservations j)). intros l. revert j.
  induction l as [|[k r] l IH]; intros j; [done|]. cbn [foldl]. rewrite IH. unfold releaseExpired. by destruct (expiredUnconsumed _ _).
Qed.

Lemma reserve_records j profile request proposal now : records (ReserveQuote j profile request proposal now).1 = records j.
Proof.
  unfold ReserveQuote. destruct (_ ≫= _) as [[rd qd]| |]; [|done..]. unfold reserveLocked.
  destruct (bindProviderLocked j _) as [j1 bound] eqn:Hb.
  assert (records j1 = records j) as <- by (rewrite <-(bind_provider_records j (sp_ProviderAgentID profile)), Hb; done).
  destruct bound; [done|]. rewrite <-(release_expired_records j1 now). generalize (releaseExpiredUnconsumedLocked j1 now). intros j2.
  destruct (quoteReservations j2 !! _); [by case_match|].
  do 2 match goal with |- records (if ?b then _ else _).1 = _ => destruct b; [done|] end.
  destruct (match ReservedSponsorship (pq_Body proposal) with Some amount => _ | None => _ end) as [[|]| |]; [|done..].
  destruct (rate_admissions j2 (RequesterAgentID (qr_Body request)) (sp_AdmissionLimits profile) now) as (m & ok & ->). by destruct ok.
Qed.

Lemma prepared_binds request now r : NewPreparedRecord request now = Ok r ->
  binds request (identity r) /\ requestOf r = request /\ State r = ActionPrepared /\ StateRevision r = 1 /\ payment r = noPayment.
Proof.
  intros H. destruct (prepared_record _ _ _ H) as (_ & Hreq & Hs & Hv & _ & Hid & Hex). revert H. unfold NewPreparedRecord. intros H.
  do 5 (apply bind_Ok in H as (? & _ & H)). injection H as <-. by repeat split.
Qed.

(** [Admit] answers with the record that stands for the request: one found, or a new one. *)
Definition readmits (j : MemoryJournal) (request : RelayExecutionRequest) (result : MemoryJournal * reply (RelayRecord * bool)) : Prop :=
  (forall k, records result.1 !! k = records j !! k) /\
  (forall r created, result.2 = Ok (r, created) -> created = false /\
     records j !! stableOf request = Some r /\ (StableActionID (identity r) = stableOf request -> binds request (identity r))).

Lemma admit_cases j request now :
  readmits j request (Admit j request now) \/
  exists r, records j !! stableOf request = None /\ NewPreparedRecord request now = Ok r /\
       (Admit j request now).2 = Ok (r, true) /\ records (Admit j request now).1 = <[stableOf request := r]> (records j).
Proof.
  unfold Admit. destruct (_ ≫= _) as [[[[execution quote] receipt] rd]| |] eqn:Hd; [|by left..].
  apply bind_Ok in Hd as (? & _ & Hd). apply bind_Ok in Hd as (? & Hex & Hd). do 3 (apply bind_Ok in Hd as (? & _ & Hd)). injection Hd as -> _ _ _.
  destruct (bindProviderLocked j _) as [j1 bound] eqn:Hb.
  assert (records j1 = records j) as Hj by (rewrite <-(bind_provider_records j (pq_ProviderAgentID (pq_Body (ProviderQuote request)))), Hb; done).
  assert (forall j2 e, records j2 = records j1 -> readmits j request (fails j2 e)) as Hfail.
  { intros j2 e E. split; [intros; cbn; by rewrite E, Hj|done]. }
  destruct bound; [by left; apply Hfail|]. rewrite Hj. unfold relayRecordKey, stableOf in *.
  destruct (records j !! ActionStableActionID request) as [existing|] eqn:Hrec.
  - left. destruct (sameAdmission _ _ _ _) eqn:Hs; (split; [intros; cbn; by rewrite Hj|]); [|done].
    intros r created [= <- <-]. unfold sameAdmission in Hs. rewrite !andb_true_iff in Hs. destruct Hs as [[[_ Hx] _] Ht].
    apply streq_true in Hx, Ht. unfold binds. rewrite Hx. done.
  - unfold admitNew. destruct (VerifyRelaySideEffectAdmissionReceipt _ _ _) as [[]| |];
      [|by left; apply Hfail|by left; split; [intros; cbn; rewrite Hj|]].
    destruct (quoteReservations j1 !! _) as [res|]; [|by left; apply Hfail].
    destruct (_ || _ || _); [by left; apply Hfail|].
    destruct (_ <=? _); [by left; apply Hfail; destruct (consumed res)|].
    destruct (consumed res); [by left; apply Hfail|].
    destruct (_ || _ || _); [by left; apply Hfail|].
    destruct (NewPreparedRecord request now) as [r| |] eqn:Hn; [|by left; apply Hfail|by left; split; [intros; cbn; rewrite Hj|]].
    right. exists r. cbn. rewrite Hj. done.
Qed.

(** ** The journal's answers *)

Lemma perform_exec j op : (perform j (Perform op)).1 = exec j op.
Proof. by destruct op. Qed.

(** A refused or replayed call leaves the records as they are, and the others touch one. *)
Lemma perform_touches j c : inv j -> touches j (perform j c).1.
Proof.
  intros I k. unfold touches_at. destruct c as [stable exact|op]; [by left|]. rewrite perform_exec.
  destruct (target_of op) as [[[k' exact] revision]|] eqn:Ht.
  - destruct (exec_edit j op k' exact revision Ht) as [->|(invalid & f & -> & Hchk & Hf)]; [by left|].
    unfold guarded, onRecord, relayRecordKey. destruct invalid; [by left|]. destruct (Hf eq_refl) as [Hsound _].
    destruct (records j !! k') as [r|] eqn:Hr; [|by left]. destruct (negb _); [by left|].
    destruct (f r) as [[|r' release]| |] eqn:Hw; [by left| |by left..].
    destruct (inv_record _ I _ _ Hr) as (Hok & _). destruct (Hsound _ _ _ Hok Hw) as (_ & Ha & _).
    cbn [fst]. change (if release then _ else _) with (writeRecord j k' r' release). rewrite write_records.
    destruct (decide (k = k')) as [->|Hk]; [|left; by rewrite lookup_insert_ne].
    right; left. exists r, r'. by rewrite lookup_insert_eq.
  - destruct op; try done; cbn [exec].
    + left. by rewrite reserve_records.
    + destruct (admit_cases j request now) as [[H _]|(r & Hn & Hp & _ & ->)]; [left; apply H|].
      destruct (decide (k = stableOf request)) as [->|Hk]; [|left; by rewrite lookup_insert_ne].
      right; right. exists request, now, r. by rewrite lookup_insert_eq.
Qed.

Lemma perform_inv j c : inv j -> inv (perform j c).1.
Proof. destruct c as [|op]; [done|]. rewrite perform_exec. apply inv_exec. Qed.

Lemma touches_evolves n j j' : touches j j' -> bounded n j -> n < maxUint64 -> evolves j j'.
Proof.
  intros T B Hn k r Hr. destruct (T k) as [E|[(r0 & r' & Hr0 & Hr' & Ha)|(? & ? & ? & Hr0 & _)]].
  - exists r. rewrite E. split; [done|apply later_refl].
  - rewrite Hr in Hr0. injection Hr0 as <-. exists r'. split; [done|]. apply advances_later; [|done]. specialize (B _ _ Hr). lia.
  - congruence.
Qed.

Lemma touches_bounded n j j' : touches j j' -> bounded n j -> 0 <= n < maxUint64 -> bounded (n + 1) j'.
Proof.
  intros T B Hn k r Hr. destruct (T k) as [E|[(r0 & r' & Hr0 & Hr' & Ha)|(? & ? & r' & _ & Hr' & Hp & _)]].
  - rewrite E in Hr. specialize (B _ _ Hr). lia.
  - assert (r' = r) as -> by congruence. specialize (B _ _ Hr0). rewrite (adv_revision _ _ Ha), wrap64_small; [lia|].
    unfold u64, maxUint64 in *. lia.
  - assert (r' = r) as -> by congruence. destruct (prepared_binds _ _ _ Hp) as (_ & _ & _ & -> & _). lia.
Qed.

Lemma touches_identified j j' : touches j j' -> identified j -> identified j'.
Proof.
  intros T I k r Hr. destruct (T k) as [E|[(r0 & r' & Hr0 & Hr' & Ha)|(request & ? & r' & _ & Hr' & Hp & Hk)]].
  - rewrite E in Hr. by apply I.
  - assert (r' = r) as -> by congruence. specialize (I _ _ Hr0). unfold requestOf in *. by rewrite (adv_identity _ _ Ha).
  - assert (r' = r) as -> by congruence. destruct (prepared_binds _ _ _ Hp) as (Hb & Hreq & _). rewrite Hreq. split; [|done].
    by rewrite <-Hk; apply Hb.
Qed.

(** The record an operation answers with is the one it left. *)
Lemma on_record_answer invalid j k exact f r :
  (guarded invalid j (onRecord j k exact f)).2 = Ok r -> records (guarded invalid j (onRecord j k exact f)).1 !! k = Some r.
Proof.
  unfold guarded, onRecord, relayRecordKey. destruct invalid; [done|]. destruct (records j !! k) as [r0|] eqn:Hr; [|done].
  destruct (negb _); [done|]. destruct (f r0) as [[|r' release]| |]; try done; intros [= <-]; [done|].
  cbn [fst]. change (records (writeRecord j k r' release) !! k = Some r'). by rewrite write_records, lookup_insert_eq.
Qed.

Lemma read_answer j stable exact r : AgentRelay.Resolve j stable exact = Ok r -> records j !! stable = Some r.
Proof. unfold AgentRelay.Resolve, relayRecordKey. repeat case_match; congruence. Qed.

Lemma begin_answer j stable exact revision h at_ r : (BeginSponsorship j stable exact revision h at_).2 = Ok r ->
  records (BeginSponsorship j stable exact revision h at_).1 !! stable = Some r /\ payment r = paymentOf h /\ payment r <> noPayment.
Proof.
  unfold BeginSponsorship. destruct (validSponsorshipIdentityPair _ _) as [has valid]. intros H. split; [by apply on_record_answer|].
  revert H. unfold guarded at 1. destruct (_ || _) eqn:Hg; [done|]. rewrite !orb_false_iff, !negb_false_iff in Hg.
  assert (digestPattern (AgreementPaymentRequestDigestOf h) = true) as Hd by tauto. clear Hg.
  assert (paymentOf h <> noPayment) as Hno by (intros E; injection E as E _; by rewrite E in Hd).
  unfold onRecord. destruct (records j !! _) as [r0|]; [|done]. destruct (negb _); [done|].
  destruct (beginEdit _ _ _ _ r0) as [[|r' release]| |] eqn:Hw; try done; intros [= <-]; unfold beginEdit in Hw; passed Hw;
    destruct (SponsorshipAttempted _); passed Hw; try done.
  - match goal with G : negb (sameHandle _ _ _) = false |- _ => rename G into Hs end.
    apply negb_false_iff in Hs. unfold sameHandle in Hs. rewrite !andb_true_iff, !streq_true, Z.eqb_eq in Hs.
    assert (payment r0 = paymentOf h) as ->; [|done]. unfold paymentOf. destruct (payment r0); cbn in *. f_equal; tauto.
  - injection Hw as <- _. done.
Qed.

Lemma transition_answer j stable exact revision target reference refs o at_ r :
  (Transition j stable exact revision target reference refs o at_).2 = Ok r ->
  exists r0, records j !! stable = Some r0 /\ StateRevision r0 = revision /\ validRelayTransition (State r0) target = true /\
    records (Transition j stable exact revision target reference refs o at_).1 !! stable = Some r /\ State r = target /\
    identity r = identity r0.
Proof.
  intros H. pose proof H as Hr. unfold Transition in Hr. apply on_record_answer in Hr.
  change (records (Transition j stable exact revision target reference refs o at_).1 !! stable = Some r) in Hr.
  set (j' := (Transition j stable exact revision target reference refs o at_).1) in *. clearbody j'. revert H. unfold Transition, guarded.
  destruct (_ || _) eqn:Hg; [done|]. unfold onRecord, relayRecordKey. destruct (records j !! stable) as [r0|] eqn:Hr0; [|done].
  destruct (negb (streq _ _)); [done|]. destruct (transitionEdit _ _ _ _ _ _ r0) as [[|r' release]| |] eqn:Hw; try done.
  - unfold transitionEdit in Hw. by passed Hw.
  - intros [= <-]. exists r0. split; [done|]. split; [by eapply transition_checks|]. unfold transitionEdit in Hw. passed Hw. injection Hw as <- _.
    rewrite orb_false_iff, !negb_false_iff in *. destruct_and?. by repeat split.
Qed.

(** ** Safe programs *)

(** The action whose broadcasts are counted. *)
Variable action : string.

(** A broadcast of the action by [Submit], in the mode that only relays. *)
Definition spends (submitting : bool) (q : query) : bool :=
  match q with
  | SubmitExact request => submitting && streq (stableOf request) action && same (modeOf request) ModeRelayExact
  | _ => false
  end.

(** What a broadcast or a payment rests on: a durable record of the request, which [Submit]
    has taken out of PREPARED, and which names the payment. *)
Definition founded (submitting : bool) (j : MemoryJournal) (q : query) : Prop :=
  match q with
  | SubmitExact request => exists r, records j !! stableOf request = Some r /\ binds request (identity r) /\
      (submitting = true -> State r <> ActionPrepared)
  | EnsureFinalized request _ _ h => exists r, records j !! stableOf request = Some r /\ binds request (identity r) /\
      payment r = paymentOf h /\ payment r <> noPayment
  | _ => True
  end.

Lemma founded_evolves submitting j j' q : evolves j j' -> founded submitting j q -> founded submitting j' q.
Proof.
  intros E. destruct q; cbn; try done; intros (r & Hr & Hb & H); destruct (E _ _ Hr) as (r' & Hr' & [Hi _ Hs Hp]);
    exists r'; rewrite Hi; repeat split; try apply Hb; auto.
  - rewrite Hp; apply H.
  - rewrite Hp; apply H.
Qed.

(** The action is not admitted, or still PREPARED. *)
Definition isPrepared (j : MemoryJournal) : bool :=
  match records j !! action with Some r => same (State r) ActionPrepared | None => true end.

(** The call that takes the action out of PREPARED wins the right to broadcast it. *)
Definition wins (j j' : MemoryJournal) : bool := isPrepared j && negb (isPrepared j').

(** The program is safe from journal [j] on, whatever the others do to it meanwhile: its
    broadcasts and payments are founded, and it counts against the right it holds. *)
Fixpoint safe {X} (submitting has : bool) (j : MemoryJournal) (p : prog X) (Q : bool -> MemoryJournal -> X -> Prop) : Prop :=
  match p with
  | Ret x => Q has j x
  | Ask q k => founded submitting j q /\ (spends submitting q = true -> has = true) /\
               forall a, safe submitting (if spends submitting q then false else has) j (k a) Q
  | Do c k => forall j1, evolves j j1 -> inv j1 -> identified j1 -> evolves j1 (perform j1 c).1 ->
               safe submitting (has || wins j1 (perform j1 c).1) (perform j1 c).1 (k (perform j1 c).2) Q
  end.

Definition anything {X} (_ : bool) (_ : MemoryJournal) (_ : X) : Prop := True.
Definition returns {X} (P : bool -> MemoryJournal -> X -> Prop) (has : bool) (j : MemoryJournal) (r : reply X) : Prop :=
  match r with Ok x => P has j x | _ => True end.

Lemma safe_evolves {X} submitting has j j' (p : prog X) : evolves j j' ->
  safe submitting has j p anything -> safe submitting has j' p anything.
Proof.
  intros E. revert has. induction p as [x|q k IH|c k IH]; intros has; cbn [safe]; [done| |].
  - intros (Hf & Hs & Hk). split; [by eapply founded_evolves|]. split; [done|]. intros a. by apply IH.
  - intros H j1 E1. apply H. by eapply evolves_trans.
Qed.

Lemma safe_weaken {X} submitting has j (p : prog X) (Q Q' : bool -> MemoryJournal -> X -> Prop) :
  (forall h j' x, Q h j' x -> Q' h j' x) -> safe submitting has j p Q -> safe submitting has j p Q'.
Proof.
  intros HQ. revert has j. induction p as [x|q k IH|c k IH]; intros has j; cbn [safe]; [apply HQ| |].
  - intros (Hf & Hs & Hk). eauto.
  - intros H j1 E I D E1. by apply IH, H.
Qed.

Lemma safe_bind {X Y} submitting has j (p : prog X) (f : X -> prog Y) Q :
  safe submitting has j p (fun h j' x => safe submitting h j' (f x) Q) -> safe submitting has j (bind p f) Q.
Proof.
  revert has j. induction p as [x|q k IH|c k IH]; intros has j; cbn [safe bind]; [done| |].
  - intros (Hf & Hs & Hk). eauto.
  - intros H j1 E I D E1. by apply IH, H.
Qed.

Lemma safe_then {X Y} submitting has j (p : prog (reply X)) (f : X -> prog (reply Y)) P :
  safe submitting has j p (returns (fun h j' x => safe submitting h j' (f x) (returns P))) ->
  safe submitting has j (then_ p f) (returns P).
Proof. intros H. apply safe_bind. eapply safe_weaken, H. by intros h j' [x|e|w]. Qed.

Lemma safe_check {X Y} submitting has j record (r : result string X) (f : X -> prog (reply Y)) P :
  (forall x, r = Ok x -> safe submitting has j (f x) (returns P)) -> safe submitting has j (then_ (check record r) f) (returns P).
Proof. intros H. apply safe_then. cbn. destruct r; [by apply H|done..]. Qed.

Lemma safe_clock {Y} submitting has j (f : Time -> prog (reply Y)) P :
  (forall t, safe submitting has j (f t) (returns P)) -> safe submitting has j (then_ clock f) (returns P).
Proof. intros H. by split. Qed.

Lemma safe_environment {Y} submitting has j (f : Environment -> prog (reply Y)) P :
  (forall env, safe submitting has j (f env) (returns P)) -> safe submitting has j (then_ environment f) (returns P).
Proof. intros H. by split. Qed.

(** A program that neither broadcasts nor pays is safe. *)
Definition loud (q : query) : bool := match q with SubmitExact _ | EnsureFinalized _ _ _ _ => true | _ => false end.
Fixpoint quiet {X} (p : prog X) : Prop :=
  match p with
  | Ret _ => True
  | Ask q k => loud q = false /\ forall a, quiet (k a)
  | Do _ k => forall a, quiet (k a)
  end.

Lemma quiet_safe {X} submitting has j (p : prog X) Q : quiet p -> (forall h j' x, evolves j j' -> Q h j' x) -> safe submitting has j p Q.
Proof.
  revert has j. induction p as [x|q k IH|c k IH]; intros has j; cbn [safe quiet].
  - intros _ H. apply H, evolves_refl.
  - intros [Hq Hk] H. destruct q; try done; (split; [done|]); (split; [done|]); intros a; by apply IH.
  - intros Hk H j1 E _ _ E1. apply IH; [done|]. intros h j' x E2. apply H. by do 2 (eapply evolves_trans; [done|]).
Qed.

Lemma quiet_bind {X Y} (p : prog X) (f : X -> prog Y) : quiet p -> (forall x, quiet (f x)) -> quiet (bind p f).
Proof. induction p; cbn [quiet bind]; naive_solver. Qed.
Lemma quiet_then {X Y} (p : prog (reply X)) (f : X -> prog (reply Y)) : quiet p -> (forall x, quiet (f x)) -> quiet (then_ p f).
Proof. intros Hp Hf. apply quiet_bind; [done|]. by intros [x|e|w]. Qed.

Ltac hush :=
  repeat match goal with
  | |- quiet (then_ _ _) => apply quiet_then
  | |- quiet (bind _ _) => apply quiet_bind
  | |- quiet (Ask _ _) => split; [reflexivity|]
  | |- quiet (Do _ _) => cbn [quiet]
  | |- quiet (Ret _) => exact I
  | |- quiet (check _ _) => exact I
  | |- quiet (stop _ _) => exact I
  | |- quiet (return_ _) => exact I
  | |- quiet clock => split; [reflexivity|intros; exact I]
  | |- quiet environment => split; [reflexivity|intros; exact I]
  | |- quiet (transition _ _ _ _ _ _) => exact (fun _ => I)
  | |- quiet (recordObservation _ _ _) => exact (fun _ => I)
  | |- quiet (recordSponsorship _ _ _) => exact (fun _ => I)
  | |- quiet (recordAbsence _ _ _ _ _ _ _) => exact (fun _ => I)
  | |- forall _, _ => intro
  | |- quiet (match ?x with _ => _ end) => destruct x
  | |- True => exact I
  end; try done.

(** ** The programs *)
Section Programs.
Variable service : ProviderService.

Lemma closing_quiet record cause p : quiet p -> quiet (closing record cause p).
Proof. unfold closing. intros. hush. Qed.
Lemma reject_quiet record cause at_ : quiet (rejectPrepared record cause at_).
Proof. apply closing_quiet. hush. Qed.
Lemma terminalize_quiet record cause at_ : quiet (terminalizeSponsorshipOnly record cause at_).
Proof. unfold terminalizeSponsorshipOnly. hush. apply closing_quiet. hush. Qed.
Lemma observe_quiet record request resolution f : (forall o, quiet (f o)) -> quiet (observeCredit service record request resolution f).
Proof. unfold observeCredit. intros. hush. Qed.
Lemma attempted_quiet record at_ : quiet (resolveAttemptedSponsorship service record at_).
Proof. unfold resolveAttemptedSponsorship. hush; try apply observe_quiet; unfold recordAbsenceOf; hush. Qed.
Lemma prepared_quiet record : quiet (resolvePrepared service record).
Proof. unfold resolvePrepared. hush. apply attempted_quiet. Qed.
Lemma aggregate_quiet record resolved : quiet (aggregateAbsence service record resolved).
Proof. unfold aggregateAbsence. hush. Qed.
Lemma component_quiet record resolved : quiet (componentAbsence service record resolved).
Proof. unfold componentAbsence. hush. Qed.
Lemma record_component_quiet record resolved : quiet (recordComponent record resolved).
Proof. unfold recordComponent. hush. Qed.
Lemma conclude_quiet record resolved : quiet (conclude record resolved).
Proof. unfold conclude. hush. Qed.
Lemma confirm_quiet request : quiet (confirmAdmission service request).
Proof. unfold confirmAdmission. hush. Qed.
Lemma quote_quiet request : quiet (Quote service request).
Proof. unfold Quote. hush. Qed.
Lemma evidence_quiet stable exact : quiet (EvidenceFor service stable exact).
Proof. unfold EvidenceFor. hush. Qed.

(** The record the program works on is one the journal had for the request. *)
Definition held (j : MemoryJournal) (request : RelayExecutionRequest) (record : RelayRecord) : Prop :=
  binds request (identity record) /\ exists cur, records j !! stableOf request = Some cur /\ identity cur = identity record.

Lemma held_evolves j j' request record : evolves j j' -> held j request record -> held j' request record.
Proof.
  intros E (Hb & cur & Hc & Hi). split; [done|]. destruct (E _ _ Hc) as (cur' & Hc' & L). exists cur'. split; [done|].
  by rewrite (later_identity _ _ L).
Qed.

Lemma answer_held j j' request record r : held j request record -> evolves j j' ->
  records j' !! StableActionID (identity record) = Some r -> held j' request r /\ identity r = identity record.
Proof.
  intros Hh E Hr. destruct (held_evolves _ _ _ _ E Hh) as ((Hs & Hb) & cur & Hc & Hi). rewrite Hs, Hc in Hr. injection Hr as ->.
  split; [|done]. split; [|by exists r]. rewrite Hi. by split.
Qed.

(** The operation names the record and its answer is what it leaves of it. *)
Definition keeps (record : RelayRecord) (p : prog (reply RelayRecord)) : Prop :=
  forall submitting has j request, held j request record ->
    safe submitting has j p (returns (fun _ j' r => held j' request r /\ identity r = identity record)).

Lemma transition_keeps record target reference refs o at_ : keeps record (transition record target reference refs o at_).
Proof.
  intros submitting has j request Hh j1 E _ _ E1. cbn [safe]. unfold returns. destruct (perform _ _).2 as [r| |] eqn:Hr; [|done..].
  eapply answer_held; [done|by eapply evolves_trans|]. cbn [perform] in *. unfold Transition in *. by apply on_record_answer.
Qed.
Lemma observation_keeps record o at_ : keeps record (recordObservation record o at_).
Proof.
  intros submitting has j request Hh j1 E _ _ E1. cbn [safe]. unfold returns. destruct (perform _ _).2 as [r| |] eqn:Hr; [|done..].
  eapply answer_held; [done|by eapply evolves_trans|]. cbn [perform] in *. unfold RecordSponsorshipObservation in *.
  destruct (RelaySponsorshipCreditObservationDigest o); [|done..]. by apply on_record_answer.
Qed.
Lemma sponsorship_keeps record e at_ : keeps record (recordSponsorship record e at_).
Proof.
  intros submitting has j request Hh j1 E _ _ E1. cbn [safe]. unfold returns. destruct (perform _ _).2 as [r| |] eqn:Hr; [|done..].
  eapply answer_held; [done|by eapply evolves_trans|]. cbn [perform] in *. unfold RecordSponsorship in *.
  destruct (RelaySponsorshipTransactionEvidenceDigest e); [|done..]. by apply on_record_answer.
Qed.
Lemma absence_keeps record o sponsorship transaction digest bundle at_ :
  keeps record (recordAbsence record o sponsorship transaction digest bundle at_).
Proof.
  intros submitting has j request Hh j1 E _ _ E1. cbn [safe]. unfold returns. destruct (perform _ _).2 as [r| |] eqn:Hr; [|done..].
  eapply answer_held; [done|by eapply evolves_trans|]. cbn [perform] in *. unfold RecordSponsorshipAbsence in *. by apply on_record_answer.
Qed.
Lemma observe_keeps record request resolution f : (forall o, keeps record (f o)) -> keeps record (observeCredit service record request resolution f).
Proof.
  intros Hf submitting has j request' Hh. unfold observeCredit. destruct (negb _); [done|]. apply safe_check. intros o _.
  split; [done|]. split; [done|]. intros verified. apply safe_check. intros _ _. by apply Hf.
Qed.

Lemma observed_keeps record at_ : keeps record (resolveObservedSponsorship service record at_).
Proof.
  intros submitting has j request Hh. unfold resolveObservedSponsorship. destruct (_ || _); [done|].
  split; [done|]. split; [done|]. intros resolved. apply safe_check. intros resolution _. apply safe_check. intros _ _.
  destruct (sn_Status resolution); try done; try by apply absence_keeps.
  - apply observe_keeps; [|done]. intros o. apply observation_keeps.
  - apply safe_check. intros e _. by apply sponsorship_keeps.
  - apply safe_check. intros e _. by apply sponsorship_keeps.
Qed.

(** [PrepareRecovery] and [BeginSponsorship]: the payment's identity is durable. *)
Definition payable (j : MemoryJournal) (request : RelayExecutionRequest) (h : SponsorshipRecoveryHandle) : Prop :=
  exists r, records j !! stableOf request = Some r /\ payment r = paymentOf h /\ payment r <> noPayment.

Lemma recovery_safe submitting has j request agreement obligation record : held j request record ->
  (exists r, records j !! stableOf request = Some r /\ (payment record <> noPayment -> payment r = payment record)) ->
  safe submitting has j (recoveryFor request agreement obligation record)
    (returns (fun _ j' x => forall record' h, x = (Continue record', h) -> held j' request record' /\ payable j' request h)).
Proof.
  intros Hh (r & Hr & Hp). unfold recoveryFor. destruct (negb _).
  - split; [done|]. split; [done|]. intros prepared. apply safe_check. intros h _. apply safe_check. intros _ _. apply safe_clock. intros now.
    destruct (VerifyRelayRemainingValidity _ _ _); [|apply safe_then, quiet_safe; [apply reject_quiet|by intros ? ? [] ?]|done].
    apply safe_then. intros j1 E HI D E1. cbn [safe]. unfold returns at 1. destruct (perform _ _).2 as [r'| |] eqn:Hr'; [|done..].
    cbn [perform] in *. destruct (begin_answer _ _ _ _ _ _ _ Hr') as (Hrec & Hpay & Hno).
    cbn. intros record' h' [= <- <-].
    split; [eapply answer_held; [done|by eapply evolves_trans|done]|]. exists r'. split; [|done].
    destruct Hh as ((<- & _) & _). done.
  - apply safe_check. intros u Hv. cbn. intros record' h [= <- <-]. split; [done|]. exists r. split; [done|].
    assert (paymentOf (recoveryHandle record) = payment record) as -> by by destruct (payment record) eqn:E; unfold paymentOf; cbn; rewrite E.
    assert (payment record <> noPayment) as Hne; [|by rewrite (Hp Hne)].
    intros E. apply bind_Ok in Hv as (? & Hv & _). apply fail_if_Ok in Hv. unfold recoveryHandle in Hv. cbn in Hv. by rewrite E in Hv.
Qed.

(** *** Submit *)

(** A stage goes on with a record of the request. *)
Definition goesOn (request : RelayExecutionRequest) (_ : bool) (j : MemoryJournal) (next : stage) : Prop :=
  forall record, next = Continue record -> held j request record.

Lemma finish_safe submitting has j request p : quiet p -> safe submitting has j (finishWith p) (returns (goesOn request)).
Proof. intros Hp. apply safe_then, quiet_safe; [done|]. by intros h j' [r| |]. Qed.

Lemma keeps_then submitting has j request record p (f : RelayRecord -> prog (reply stage)) : keeps record p -> held j request record ->
  (forall h j' r, held j' request r -> safe submitting h j' (f r) (returns (goesOn request))) ->
  safe submitting has j (then_ p f) (returns (goesOn request)).
Proof.
  intros Hp Hh Hf. apply safe_then. eapply safe_weaken, Hp, Hh. intros h j' [r| |]; [|done..]. intros [Hr _]. by apply Hf.
Qed.

Lemma apply_safe submitting has j request record resolution : held j request record ->
  safe submitting has j (applyResolution service request record resolution) (returns (goesOn request)).
Proof.
  intros Hh. unfold applyResolution.
  destruct (sn_Status resolution); try done; try (apply safe_clock; intros now; apply finish_safe; exact (fun _ => I));
    try (apply safe_check; intros e _; apply safe_clock; intros now; apply (keeps_then _ _ _ _ record); [apply sponsorship_keeps|done|];
         intros h j' r Hr record' [= <-]; exact Hr).
  apply (keeps_then _ _ _ _ record); [|done|].
  - apply observe_keeps. intros o submitting' has' j' request' Hh'. apply safe_clock. intros now. by apply observation_keeps.
  - intros h j' r Hr. destruct (same _ _).
    + apply safe_clock. intros now. apply finish_safe. exact (fun _ => I).
    + by intros record' [= <-].
Qed.

(** What [Admit] leaves: the record itself, PREPARED. *)
Definition admitted (j : MemoryJournal) (request : RelayExecutionRequest) (record : RelayRecord) : Prop :=
  records j !! stableOf request = Some record /\ binds request (identity record) /\ State record = ActionPrepared.

Lemma admitted_held j request record : admitted j request record -> held j request record.
Proof. intros (Hr & Hb & _). split; [done|]. by exists record. Qed.

Lemma pay_safe submitting has j request agreement record : admitted j request record ->
  safe submitting has j (paySponsorship service request agreement record) (returns (goesOn request)).
Proof.
  intros Ha. unfold paySponsorship. destruct (negb _); [done|]. destruct (agreementObligation _ _) as [obligation|]; [|done].
  apply safe_clock. intros now. destruct (VerifyRelayRemainingValidity _ _ _); [|apply finish_safe, reject_quiet|done].
  apply safe_then. eapply safe_weaken; [|apply recovery_safe; [by apply admitted_held|exists record; split; [apply Ha|done]]].
  intros h j' [[[r|r] recovery]| |]; try done. intros H. destruct (H _ _ eq_refl) as [Hh (cur & Hc & Hpay & Hno)].
  split; [|split; [done|]].
  - exists cur. split; [done|]. split; [|done]. destruct Hh as (Hb & cur' & Hc' & Hi). rewrite Hc in Hc'. injection Hc' as <-. by rewrite Hi.
  - intros paid. apply safe_check. intros resolution _. apply safe_clock. intros now'. apply safe_check. intros _ _. by apply apply_safe.
Qed.

Lemma sponsor_safe submitting has j request agreement record : admitted j request record ->
  safe submitting has j (sponsor service request agreement record) (returns (goesOn request)).
Proof.
  intros Ha. unfold sponsor. destruct (_ && _).
  - destruct (negb _); [done|]. destruct (same _ _).
    + apply safe_clock. intros now. apply finish_safe. exact (fun _ => I).
    + intros r [= <-]. by apply admitted_held.
  - destruct (_ && _); [by apply pay_safe|]. intros r [= <-]. by apply admitted_held.
Qed.

Lemma quiet_anything {X} submitting has j (p : prog X) : quiet p -> safe submitting has j p anything.
Proof. intros H. by apply quiet_safe. Qed.
Lemma returns_anything {X} submitting has j (p : prog (reply X)) :
  safe submitting has j p (returns anything) -> safe submitting has j p anything.
Proof. by apply safe_weaken. Qed.
Lemma anything_returns {X} submitting has j (p : prog (reply X)) :
  safe submitting has j p anything -> safe submitting has j p (returns anything).
Proof. apply safe_weaken. by intros h j' [x| |]. Qed.

(** The one write attempt: the program that takes the record out of PREPARED makes it. *)
Lemma broadcast_safe has j request record : held j request record ->
  (modeOf request = ModeRelayExact -> admitted j request record) ->
  safe true has j (broadcast service request record) (returns anything).
Proof.
  intros Hh Hx. unfold broadcast. destruct (negb _); [done|]. apply safe_clock. intros now.
  destruct (VerifyRelayRemainingValidity _ _ _) as [u|e|]; [| |done].
  2: { apply anything_returns, quiet_anything. destruct (negb _); [apply terminalize_quiet|]. destruct (present _); [exact I|apply reject_quiet]. }
  apply safe_then. intros j1 E HI D E1. cbn [safe]. unfold returns at 1. destruct (perform _ _).2 as [r| |] eqn:Hr; [|done..].
  destruct (transition_answer _ _ _ _ _ _ _ _ _ _ Hr) as (r0 & Hr0 & Hv & _ & Hr1 & Hs & Hi). clear Hr.
  set (j2 := (perform _ _).1) in *. change (records j2 !! StableActionID (identity record) = Some r) in Hr1. clearbody j2.
  destruct (answer_held _ _ _ _ _ Hh (evolves_trans _ _ _ E E1) Hr1) as [(Hb & cur & Hc & _) _].
  destruct Hh as ((Hk & _) & _). rewrite Hk in *.
  split; [|split].
  - exists r. split; [done|]. split; [done|]. intros _. by rewrite Hs.
  - cbn [spends]. intros [[_ Ha%streq_true]%andb_true_iff Hm]%andb_true_iff. apply (proj1 (same_true _ _)) in Hm. destruct (Hx Hm) as (Hj & _ & Hprep).
    destruct (E _ _ Hj) as (r0' & Hr0' & L). rewrite Hr0 in Hr0'. injection Hr0' as <-.
    destruct (later_revision _ _ L) as [->|?]; [|lia].
    apply orb_true_iff. right. unfold wins, isPrepared. by rewrite <-Ha, Hr0, Hr1, Hprep, Hs.
  - intros submitted. apply safe_check. intros result _. destruct (br_Status result); [done| |done].
    apply safe_clock. intros now'. apply quiet_safe; [exact (fun _ => I)|by intros ? ? []].
Qed.

Lemma after_safe has j request record : held j request record -> modeOf request <> ModeRelayExact ->
  safe true has j (afterSponsorship service request record) (returns anything).
Proof.
  intros Hh Hm. unfold afterSponsorship. apply safe_clock. intros now.
  destruct (same _ _); [apply anything_returns, quiet_anything; exact (fun _ => I)|].
  assert (forall cause, safe true has j (terminalizeSponsorshipOnly record cause now) (returns anything)) as Hclose.
  { intros cause. apply anything_returns, quiet_anything, terminalize_quiet. }
  unfold orClose. do 2 (case_match; [|apply Hclose|done]). apply safe_environment. intros env. case_match; [|apply Hclose|done].
  apply safe_environment. intros env'. case_match; [|apply Hclose|done]. by apply broadcast_safe.
Qed.

Lemma drain_safe has j request agreement record : admitted j request record ->
  safe true has j (drain service request agreement record) (returns anything).
Proof.
  intros Ha. unfold drain. destruct (negb (same (modeOf request) ModeRelayExact)) eqn:Hm.
  - assert (modeOf request <> ModeRelayExact) as Hm' by (intros Em; by rewrite Em in Hm). apply safe_then. eapply safe_weaken, sponsor_safe, Ha.
    intros h j' [[r|r]| |]; [done| |done..]. intros H. by apply after_safe; [apply H|].
  - apply broadcast_safe; [by apply admitted_held|done].
Qed.

Lemma admit_safe has j request agreement known now : safe true has j (enter service request agreement known now) (returns anything).
Proof.
  unfold enter. do 4 (apply safe_environment; intros ?; apply safe_check; intros _ _). apply safe_clock. intros now'.
  do 2 (apply safe_check; intros _ _). apply safe_then, quiet_safe; [destruct known; [exact I|apply confirm_quiet]|].
  intros h j' [[]| |] E; [|done..]. apply safe_then. intros j1 E0 HI D E1. cbn [safe]. unfold returns at 1.
  destruct (perform _ _).2 as [[record created]| |] eqn:Hr; [|done..]. destruct (negb created && negb (same (State record) ActionPrepared)) eqn:Hg; [done|].
  apply drain_safe. set (j2 := (perform _ _).1) in *. assert (j2 = (Admit j1 request (Unix now')).1) as E2 by done. clearbody j2. subst j2.
  change ((Admit j1 request (Unix now')).2 = Ok (record, created)) in Hr. clear E1.
  destruct (admit_cases j1 request (Unix now')) as [[Hk Hans]|(r & Hn & Hp & Hok & Hrec)].
  - destruct (Hans _ _ Hr) as (-> & Hrec & Hb). destruct (D _ _ Hrec) as (Hs & _).
    split; [by rewrite Hk|]. split; [by apply Hb|]. apply andb_false_iff in Hg as [?|Hg]; [done|]. apply negb_false_iff in Hg. by apply (proj1 (same_true _ _)).
  - rewrite Hr in Hok. injection Hok as -> ->. destruct (prepared_binds _ _ _ Hp) as (Hb & _ & Hs & _).
    split; [rewrite Hrec; apply lookup_insert_eq|done].
Qed.

Lemma submit_safe has j request agreement : safe true has j (Submit service request agreement) (returns anything).
Proof.
  unfold Submit. apply safe_clock. intros now. destruct (negb _); [done|]. intros j1 E HI D E1. cbn [perform fst snd].
  destruct (AgentRelay.Resolve _ _ _) as [existing|[existing e]|]; [| |done].
  - apply safe_check. intros _ _. destruct (negb _); [done|].
    destruct (_ && _); [apply anything_returns, quiet_anything, attempted_quiet|]. apply safe_check. intros _ _. apply admit_safe.
  - destruct (streq e ErrRelayConflict); [done|]. destruct (streq e ErrRelayUnknown); [|done]. apply safe_check. intros _ _. apply admit_safe.
Qed.

(** *** Resolve *)

Lemma rebroadcast_safe has j record resolved : held j (requestOf record) record ->
  safe false has j (rebroadcast service record resolved) (returns anything).
Proof.
  intros (Hb & cur & Hc & Hi). unfold rebroadcast. destruct (negb _); [done|].
  apply safe_environment; intros ?. apply safe_check; intros _ _. apply safe_clock. intros now. apply safe_check; intros _ _.
  do 2 (apply safe_environment; intros ?; apply safe_check; intros _ _). apply safe_check; intros _ _.
  split; [|split; [done|]].
  - exists cur. split; [done|]. by rewrite Hi.
  - intros submitted. apply safe_check. intros result _. by destruct (br_Status result).
Qed.

Lemma chain_safe has j record pending : held j (requestOf record) record ->
  safe false has j (resolveOnChain service record pending) (returns anything).
Proof.
  intros Hh. unfold resolveOnChain. destruct (negb _); [done|]. split; [done|]. split; [done|]. intros answered. apply safe_check. intros resolved _.
  destruct (_ && _); [done|]. destruct (_ && _); [apply anything_returns, quiet_anything, aggregate_quiet|].
  apply safe_then, quiet_safe; [apply component_quiet|]. intros h j' [[component|]| |] E; try done. cbn [returns].
  destruct (hasComponent _); [apply anything_returns, quiet_anything, record_component_quiet|]. apply safe_then.
  eapply safe_weaken, rebroadcast_safe, held_evolves, Hh; [|done]. intros h' j2 [[sent|]| |] _; try done. cbn [returns].
  apply anything_returns, quiet_anything, conclude_quiet.
Qed.

Lemma resolve_safe has j stable exact : safe false has j (ResolveAction service stable exact) (returns anything).
Proof.
  unfold ResolveAction. destruct (negb _); [done|]. apply safe_then. intros j1 E HI D E1. cbn [perform fst snd safe].
  destruct (AgentRelay.Resolve _ _ _) as [record| |] eqn:Hr; [|done..]. cbn [returns]. apply read_answer in Hr.
  destruct (D _ _ Hr) as (Hs & Hb). assert (held j1 (requestOf record) record) as Hh.
  { split; [done|]. exists record. split; [|done]. destruct Hb as [Hb _]. congruence. }
  generalize (has || wins j1 j1). intros has'.
  destruct (_ || _); [done|]. destruct (_ && _); [apply anything_returns, quiet_anything, prepared_quiet|].
  destruct (_ && _); [|by apply chain_safe]. apply safe_clock. intros now. apply safe_then.
  eapply safe_weaken, observed_keeps, Hh. intros h j' [record'| |]; [|done..]. intros [Hh' Hi]. cbn [returns].
  assert (requestOf record' = requestOf record) as Hreq by (unfold requestOf; by rewrite Hi).
  destruct (same _ _); [|apply chain_safe; by rewrite Hreq].
  destruct (streq _ _); [done|]. apply safe_clock. intros now'. apply anything_returns, quiet_anything. exact (fun _ => I).
Qed.
End Programs.

(** ** Every interleaving *)

Definition submitting (t : task) : bool := match t with TaskSubmit _ _ _ => true | _ => false end.

Lemma forget_safe {X} b has j (p : prog (reply X)) : safe b has j p (returns anything) -> safe b has j (forget p) anything.
Proof. intros H. apply safe_bind. eapply safe_weaken, H. done. Qed.

Lemma task_safe has j t : safe (submitting t) has j (program t) anything.
Proof.
  destruct t; cbn [program submitting]; apply forget_safe.
  - apply submit_safe.
  - apply resolve_safe.
  - apply anything_returns, quiet_anything, quote_quiet.
  - apply anything_returns, quiet_anything, evidence_quiet.
  - apply anything_returns, quiet_anything. exact (fun _ => I).
Qed.

Fixpoint tally {X} (f : X -> bool) (l : list X) : Z := match l with [] => 0 | x :: l => indicator (f x) + tally f l end.

Lemma tally_nonneg {X} (f : X -> bool) l : 0 <= tally f l.
Proof. induction l as [|x l IH]; cbn; [done|]. unfold indicator. destruct (f x); lia. Qed.
Lemma tally_app {X} (f : X -> bool) l l' : tally f (l ++ l') = tally f l + tally f l'.
Proof. induction l as [|x l IH]; cbn; [done|]. rewrite IH. lia. Qed.
Lemma tally_insert {X} (f : X -> bool) l i x y : l !! i = Some x -> tally f (<[i := y]> l) = tally f l - indicator (f x) + indicator (f y).
Proof.
  revert i. induction l as [|z l IH]; intros [|i] H; try done; [injection H as ->; cbn; lia|].
  change (indicator (f z) + tally f (<[i := y]> l) = indicator (f z) + tally f l - indicator (f x) + indicator (f y)). rewrite (IH _ H). lia.
Qed.
Lemma tally_elem {X} (f : X -> bool) l i x : l !! i = Some x -> indicator (f x) <= tally f l.
Proof.
  intros H. pose proof (tally_insert f l i x x H). apply list_elem_of_split_length in H as (l1 & l2 & -> & _).
  rewrite tally_app. cbn. pose proof (tally_nonneg f l1). pose proof (tally_nonneg f l2). lia.
Qed.

(** The broadcasts of the action by [Submit], in the mode that only relays. *)
Definition broadcasts (l : list (task * query)) : Z := tally (fun c => spends (submitting c.1) c.2) l.

Lemma prepared_evolves j j' : evolves j j' -> isPrepared j = false -> isPrepared j' = false.
Proof.
  unfold isPrepared. intros E H. destruct (records j !! action) as [r|] eqn:Hr; [|done]. destruct (E _ _ Hr) as (r' & -> & L).
  destruct (same (State r') ActionPrepared) eqn:Hs; [|done]. apply (proj1 (same_true _ _)) in Hs. destruct (later_state _ _ L); [|done].
  intros Hp. by rewrite Hp in H.
Qed.

(** The state of the system after [n] steps; the programs' rights to broadcast and the
    broadcasts together are at most one, and none while the action is PREPARED. *)
Record good (n : Z) (sys : system) : Prop := {
  good_inv : inv (journal sys);
  good_identified : identified (journal sys);
  good_bounded : bounded n (journal sys);
  good_calls : Forall (fun c => founded (submitting c.1) (journal sys) c.2) (calls sys);
  good_running : exists rights, Forall2 (fun tp has => safe (submitting tp.1) has (journal sys) tp.2 anything) (running sys) rights /\
    tally id rights + broadcasts (calls sys) <= indicator (negb (isPrepared (journal sys))) }.

Lemma good_initial : good 0 initial.
Proof.
  split; [apply inv_new|intros k r H; change (records (journal initial)) with (∅ : gmap string RelayRecord) in H; by apply lookup_empty_Some in H..|by constructor|]. exists []. split; [constructor|]. done.
Qed.

Lemma good_step n sys sys' : 0 <= n < maxUint64 -> good n sys -> step sys sys' -> good (n + 1) sys'.
Proof.
  intros Hn [Hi Hd Hb Hc (rights & Hs & Ht)] [t|i t q k a Hp|i t c k Hp].
  - split; cbn [journal running calls]; [done|done|intros key r Hr; specialize (Hb _ _ Hr); lia|done|].
    exists (rights ++ [false]). split; [|rewrite tally_app; cbn [tally indicator id]; lia].
    apply Forall2_app; [done|]. constructor; [apply task_safe|constructor].
  - destruct (Forall2_lookup_l _ _ _ _ _ Hs Hp) as (has & Hh & Hf & Hsp & Hk). cbn in Hf, Hsp, Hk.
    split; cbn [journal running calls]; [done|done|intros key r Hr; specialize (Hb _ _ Hr); lia|by constructor|].
    exists (<[i := if spends (submitting t) q then false else has]> rights). split; [apply Forall2_insert; [done|apply Hk]|].
    rewrite (tally_insert _ _ _ has) by done. unfold broadcasts in *. cbn [tally fst snd].
    destruct (spends (submitting t) q); [rewrite (Hsp eq_refl)|]; cbn; lia.
  - destruct (Forall2_lookup_l _ _ _ _ _ Hs Hp) as (has & Hh & Hk). cbn in Hk.
    pose proof (perform_touches (journal sys) c Hi) as T. pose proof (touches_evolves _ _ _ T Hb (proj2 Hn)) as E.
    split; cbn [journal running calls]; [by apply perform_inv|by eapply touches_identified|by apply touches_bounded with (j := journal sys)| |].
    + eapply Forall_impl; [done|]. intros [t' q'] H. by eapply founded_evolves.
    + exists (<[i := has || wins (journal sys) (perform (journal sys) c).1]> rights). split.
      * apply Forall2_insert; [|by apply Hk, E; [apply evolves_refl|..]].
        eapply Forall2_impl; [done|]. intros [t' p] h H. by eapply safe_evolves.
      * rewrite (tally_insert _ _ _ has) by done. pose proof (tally_elem id _ _ _ Hh) as He. pose proof (tally_nonneg (fun c => spends (submitting c.1) c.2) (calls sys)) as Hz.
        fold (broadcasts (calls sys)) in Hz. unfold wins. pose proof (prepared_evolves _ _ E) as Hpe.
        destruct (isPrepared (journal sys)); [|rewrite Hpe by done; destruct has; cbn in *; lia].
        destruct (isPrepared _), has; cbn in *; lia.
Qed.

Lemma good_run n m sys sys' : nsteps step n sys sys' -> 0 <= m -> m + Z.of_nat n <= maxUint64 -> good m sys -> good (m + Z.of_nat n) sys'.
Proof.
  intros H. revert m. induction H as [sys|n sys sys1 sys2 H _ IH]; intros m Hm Hb G; [by rewrite Z.add_0_r|].
  replace (m + Z.of_nat (S n)) with (m + 1 + Z.of_nat n) by lia. apply IH; [lia..|]. eapply good_step; [|done..]. lia.
Qed.

Lemma good_reachable n sys : nsteps step n initial sys -> Z.of_nat n <= maxUint64 -> good (Z.of_nat n) sys.
Proof. intros H Hn. apply (good_run n 0 initial sys); [done..|apply good_initial]. Qed.
End System.

Section Theorems.
Context `{C : RelayCodec} `{AC : AbsenceCodec} `{FC : FinalityCodec} `{SC : ServiceCodec} `{BC : BindingCodec} `{A : AgreementCodec}.

(** C3: A relay_exact action is broadcast by [Submit] at most once.  Whatever requests are
    submitted, resolved and quoted concurrently on the provider's journal, in whatever
    interleaving, whatever the services around it answer and wherever programs stop for
    good, all the [Submit] programs together hand the transaction of one relay_exact action
    to the broadcaster at most once (in a run of at most 2^64 - 1 steps, so that no
    revision wraps around). *)
Theorem relay_broadcast_once (n : nat) (sys : system) (action : string) :
  nsteps step n initial sys -> Z.of_nat n <= maxUint64 -> broadcasts action (calls sys) <= 1.
Proof.
  intros H Hn. destruct (good_running action _ _ (good_reachable action n sys H Hn)) as (rights & _ & Ht).
  pose proof (tally_nonneg id rights). unfold indicator in Ht. destruct (negb _); lia.
Qed.

(** C5: Every broadcast is of a durable action.  Whenever a program hands a transaction to
    the broadcaster, the journal has a record for the request's stable action whose
    execution digest and signed-transaction digest are those of the request, so no request
    with other bytes is ever sent under that action; and a [Submit] does so only after the
    record has left PREPARED for good. *)
Theorem relay_broadcast_durable (n : nat) (sys : system) (t : task) (request : RelayExecutionRequest) :
  nsteps step n initial sys -> Z.of_nat n <= maxUint64 -> (t, SubmitExact request) ∈ calls sys ->
  exists r, records (journal sys) !! stableOf request = Some r /\ binds request (identity r) /\
    (submitting t = true -> State r <> ActionPrepared).
Proof.
  intros H Hn Hin. exact (proj1 (Forall_forall _ _) (good_calls ""%string _ _ (good_reachable ""%string n sys H Hn)) _ Hin).
Qed.

(** C4: All payment attempts of an action are one payment.  Two calls that ask the payment
    processor to pay for the same stable action, by the same or different concurrent
    programs, carry the same payment identity (request digest, stable action, exact
    request and validity), and it is the one the journal had made durable beforehand. *)
Theorem relay_payment_single (n : nat) (sys : system) (t1 t2 : task) (request1 request2 : RelayExecutionRequest)
    (agreement1 agreement2 : AgentAgreement) (o1 o2 : AgreementObligation) (h1 h2 : SponsorshipRecoveryHandle) :
  nsteps step n initial sys -> Z.of_nat n <= maxUint64 ->
  (t1, EnsureFinalized request1 agreement1 o1 h1) ∈ calls sys -> (t2, EnsureFinalized request2 agreement2 o2 h2) ∈ calls sys ->
  stableOf request1 = stableOf request2 ->
  paymentOf h1 = paymentOf h2 /\ RelayExecutionRequestDigest request1 = RelayExecutionRequestDigest request2 /\
  exists r, records (journal sys) !! stableOf request1 = Some r /\ payment r = paymentOf h1.
Proof.
  intros H Hn H1 H2 Hs. pose proof (good_calls ""%string _ _ (good_reachable ""%string n sys H Hn)) as G. rewrite Forall_forall in G.
  destruct (G _ H1) as (r1 & Hr1 & (_ & Hb1 & _) & Hp1 & _). destruct (G _ H2) as (r2 & Hr2 & (_ & Hb2 & _) & Hp2 & _).
  rewrite <-Hs, Hr1 in Hr2. injection Hr2 as <-. rewrite <-Hp1, <-Hp2, Hb1, Hb2. eauto.
Qed.

(** A rejection or conflict the chain reports for a sponsored action is never concluded:
    its conversion to a sponsorship-only outcome is refused by the check that follows it. *)
Lemma sponsored_rejection_refused record state reference o : SponsorshipTransferReference record <> ""%string ->
  state = ActionRejected \/ state = ActionConflict ->
  concluded record state reference o = Err "combined post-submit relay result lacks success or typed transaction absence"%string.
Proof.
  intros Hr Hs. unfold concluded. assert (streq (SponsorshipTransferReference record) "" = false) as ->.
  { destruct (streq _ _) eqn:E; [|done]. by apply streq_true in E. }
  assert (same state ActionRejected || same state ActionConflict = true) as -> by (destruct Hs as [-> | ->]; done).
  cbn [negb]. unfold sponsorshipOnlyOutcomeForEvidence. by destruct (clientCorroborated _), (filled _).
Qed.
End Theorems.

(** ** Runs *)

(** One turn of a run in which every service answers as [oracle] does. *)
Inductive move := Begin (t : task) | Turn (i : nat).

Section Runs.
Context `{C : RelayCodec} `{AC : AbsenceCodec} `{FC : FinalityCodec} `{SC : ServiceCodec} `{BC : BindingCodec} `{A : AgreementCodec}.
Variable oracle : forall q, answer q.

Definition advance (sys : system) (m : move) : option system :=
  match m with
  | Begin t => Some {| journal := journal sys; running := running sys ++ [(t, program t)]; calls := calls sys |}
  | Turn i =>
      match running sys !! i with
      | Some (t, Ask q k) =>
          Some {| journal := journal sys; running := <[i := (t, k (oracle q))]> (running sys); calls := (t, q) :: calls sys |}
      | Some (t, Do c k) =>
          let r := perform (journal sys) c in
          Some {| journal := r.1; running := <[i := (t, k r.2)]> (running sys); calls := calls sys |}
      | _ => None
      end
  end.

Fixpoint play (moves : list move) (sys : system) : option system :=
  match moves with [] => Some sys | m :: moves => sys ← advance sys m; play moves sys end.

Lemma advance_step sys m sys' : advance sys m = Some sys' -> step sys sys'.
Proof.
  destruct m as [t|i]; cbn [advance]; [intros [= <-]; apply step_start|].
  destruct (running sys !! i) as [[t [x|q k|c k]]|] eqn:Hi; [done|intros [= <-]..|done]; [by eapply step_ask|by eapply step_do].
Qed.

Lemma play_steps moves sys sys' : play moves sys = Some sys' -> nsteps step (length moves) sys sys'.
Proof.
  revert sys. induction moves as [|m moves IH]; intros sys; [intros [= <-]; constructor|].
  cbn [play length]. intros (sys1 & H1 & H2)%bind_Some. eapply nsteps_l; [by eapply advance_step|by apply IH].
Qed.
End Runs.

(** What a run sent and paid. *)
Definition sends (action : string) (c : task * query) : bool :=
  match c.2 with SubmitExact request => streq (stableOf request) action | _ => false end.
Definition payments (l : list (task * query)) : list (RelayExecutionRequest * SponsorshipRecoveryHandle) :=
  omap (fun c : task * query => match c.2 with EnsureFinalized request _ _ h => Some (request, h) | _ => None end) l.

Lemma sends_elem action l : existsb (sends action) l = true ->
  exists t request, (t, SubmitExact request) ∈ l /\ stableOf request = action.
Proof.
  intros ([t q] & Hin & Hs)%existsb_exists. apply list_elem_of_In in Hin. destruct q; try done. apply streq_true in Hs. eauto.
Qed.
Lemma payments_elem l request h : (request, h) ∈ payments l -> exists t a o, (t, EnsureFinalized request a o h) ∈ l.
Proof.
  intros ([t q] & Hin & Hs)%list_elem_of_omap. destruct q; try done. injection Hs as -> ->. eauto.
Qed.

(** ** Two retries of one action, interleaved *)

Module Sample.
Import RelayQuotes.Sample.
Definition receipts : ServiceCodec := {| marshal_receipt := fun r => Some (FormatZ (AdmissionSequence (rc_Body r))) |}.
#[local] Existing Instances codec bindings agreements receipts RelayFinality.Sample.absences RelayFinality.Sample.documents.

Definition withReceipt (request : RelayExecutionRequest) (receipt : SignedRelaySideEffectAdmissionReceipt) : RelayExecutionRequest :=
  {| ex_SchemaVersion := ex_SchemaVersion request; QuoteRequest := QuoteRequest request; ProviderQuote := ProviderQuote request;
     SignedTransactionBytes := SignedTransactionBytes request; AgreementBodyDigest := AgreementBodyDigest request;
     AgreementExpiresAtUnix := AgreementExpiresAtUnix request; RelayObligationID := RelayObligationID request;
     SponsorshipObligationID := SponsorshipObligationID request; FeeObligationIDs := FeeObligationIDs request;
     UnderlyingActionRequest := UnderlyingActionRequest request; SemanticFields := SemanticFields request;
     ex_AuthorizedAction := ex_AuthorizedAction request; ex_WriterFence := ex_WriterFence request; AdmissionReceipt := receipt;
     ex_CreatedAtUnix := ex_CreatedAtUnix request; ex_ExpiresAtUnix := ex_ExpiresAtUnix request |}.

(** The receipt issued for a request. *)
Definition issued (request : RelayExecutionRequest) : SignedRelaySideEffectAdmissionReceipt :=
  match d ← buildRelaySideEffectAdmissionDescriptorForRoute request "agent" 1 "";
        BuildRelaySideEffectAdmissionReceiptBody d 1 (start + 90) (start + 120) with
  | Ok body => {| rc_Body := body; rc_PublicKey := AuthorityPublicKey (ex_AuthorizedAction request); rc_Signature := RelayAdmission.Sample.proof |}
  | _ => RelayAdmission.Sample.empty
  end.
Definition submission : RelayExecutionRequest := withReceipt request (issued request).


Definition provider : ProviderService :=
  {| Profile := profile; SigningKey := Some (signer, public); hasAdmissionAuthority := true; hasQuotePolicy := true; hasJournal := true;
     hasSponsorship := true; resolvesDualAbsence := true; resolvesTransactionAbsence := true; hasObservationVerifier := true;
     hasBroadcaster := true; hasEvidenceSource := true |}.
Definition contract : EvidenceSourceContract :=
  {| sourceSupportsCapability := fun _ => true; sourceSupportsDualAbsence := fun _ => true; sourceSupportsSponsorshipAbsence := fun _ => true;
     sourceSupportsTransactionAbsence := fun _ => true; HasRetrievableIndependentProofs := true; HasRollbackResistantCheckpoint := true;
     HasRollbackResistantTerminalCommitment := true |}.
Definition verifiers : Environment :=
  {| AgentResolver := Some agents; FenceResolver := Some fences; Inspector := Some inspect; ActionBinder := Some (fun _ _ => Ok tt);
     AgreementVerifier := Some verifier; evidenceContract := Some contract |}.

(** The services answer favourably, but the broadcaster's answer is lost. *)
Definition oracle (q : query) : answer q :=
  match q return answer q with
  | Now => now
  | CurrentEnvironment => verifiers
  | ResolveRelaySideEffectAdmission _ => Ok (AdmissionReceipt submission)
  | PolicyQuote _ _ => Ok quoted
  | PrepareRecovery _ _ _ => Err "unavailable"%string
  | EnsureFinalized _ _ _ _ | ResolveFinalized _ _ | ResolveRelayDualAbsence _ _ _ _ _ => Err "unavailable"%string
  | ResolveRelayTransactionAbsence _ _ _ | ResolveChain _ => Err "unavailable"%string
  | VerifySponsorshipCreditObservation _ _ => Ok tt
  | SubmitExact _ => Err "connection lost"%string
  | SourceEvidence _ => Err "unavailable"%string
  end.

Definition submit : task := TaskSubmit provider submission agreement.
Definition retries : list move :=
  Begin (TaskQuote provider signedRequest) :: repeat (Turn 0) 7 ++ Begin submit :: Begin submit :: concat (repeat [Turn 1; Turn 2] 11) ++ [Turn 1].

Definition played : bool :=
  match play oracle retries initial with
  | Some sys => (broadcasts (stableOf submission) (calls sys) =? 1) && existsb (sends (stableOf submission)) (calls sys)
  | None => false
  end.
Lemma played_true : played = true.
Proof. vm_compute. reflexivity. Qed.

(** Both programs enter the action; one of them broadcasts it. *)
Lemma relay_broadcast_once_witness : exists sys, nsteps step (length retries) initial sys /\
  broadcasts (stableOf submission) (calls sys) = 1 /\ broadcasts (stableOf submission) (calls sys) <= 1.
Proof.
  pose proof played_true as H. unfold played in H. destruct (play oracle retries initial) as [sys|] eqn:E; [|discriminate H].
  apply andb_true_iff in H as [H _]. apply Z.eqb_eq in H. exists sys. apply play_steps in E. split; [exact E|]. split; [exact H|].
  apply (relay_broadcast_once (length retries) sys (stableOf submission) E). vm_compute. discriminate.
Defined.

Lemma relay_broadcast_durable_witness : exists sys t request r, nsteps step (length retries) initial sys /\
  (t, SubmitExact request) ∈ calls sys /\ stableOf request = stableOf submission /\
  records (journal sys) !! stableOf request = Some r /\ binds request (identity r).
Proof.
  pose proof played_true as H. unfold played in H. destruct (play oracle retries initial) as [sys|] eqn:E; [|discriminate H].
  apply andb_true_iff in H as [_ H]. apply sends_elem in H as (t & request & Hin & Hs). apply play_steps in E.
  destruct (relay_broadcast_durable (length retries) sys t request E) as (r & Hr & Hb & _); [vm_compute; discriminate|exact Hin|].
  exists sys, t, request, r. exact (conj E (conj Hin (conj Hs (conj Hr Hb)))).
Defined.

(** The same service paying for the client's gas as well. *)
Definition askedGas : RelayQuoteRequestBody :=
  {| qr_SchemaVersion := 1; RequestID := "gas"; RequesterAgentID := RequesterAgentID asked; qr_ProviderAgentID := qr_ProviderAgentID asked;
     Network := network; qr_Mode := ModeSponsorAndRelay; qr_AssuranceLevel := AssuranceAutonomousDecentralized;
     qr_SponsorshipReleaseEvidenceClass := ReleaseValidatorFinality; qr_SponsorshipReleaseProfileURI := "tos.finality";
     qr_SponsorshipReleaseProfileDigest := dg "0"; qr_RelayTerminalEvidenceClass := ValidatorFinality;
     qr_SponsorshipTerminalEvidenceClass := ValidatorFinality; SourceAccount := SourceAccount asked;
     SourceAccountAuthorityDigest := dg "0"; TransactionProfileURI := "tos.transaction"; TransactionProfileDigest := dg "0";
     UnderlyingActionKind := UnderlyingActionKind asked; qr_StableActionID := qr_StableActionID asked;
     qr_ExactRequestDigest := qr_ExactRequestDigest asked; qr_SignedTransactionDigest := transactionDigest;
     qr_SignedTransactionCellHash := qr_SignedTransactionCellHash asked; SignedTransactionSize := 4; TransactionIntentDigest := dg "4";
     SourceSequence := 7; TransactionValidUntilUnix := TransactionValidUntilUnix asked; RequestedSponsorship := Some (coins "100");
     MaximumServiceFee := coins "5"; qr_MaximumNetworkFeeAtomic := "10"; qr_MaximumTransactionValueAtomic := "200";
     RelayFinalityProfileURI := "tos.finality"; RelayFinalityProfileDigest := dg "0"; SponsorshipTerminalProfileURI := "tos.finality";
     qr_SponsorshipTerminalProfileDigest := dg "0"; qr_CreatedAtUnix := start; qr_ExpiresAtUnix := start + 600 |}.

Definition profileGas : RelayServiceProfile :=
  {| sp_SchemaVersion := 1; ProfileID := "profile"; Revision := 1; sp_ProviderAgentID := "provider"; NetworkDomains := [network];
     SupportedModes := [ModeSponsorAndRelay]; SupportedAssuranceLevels := SupportedAssuranceLevels profile;
     TransactionProfiles := TransactionProfiles profile; FinalityProfiles := [finality]; FeeAssets := FeeAssets profile;
     ExposureLimits := ExposureLimits profile; sp_AdmissionLimits := sp_AdmissionLimits profile; sp_MaximumRequestBytes := 65536;
     Endpoints := Endpoints profile; PolicyRevision := 1; sp_CreatedAtUnix := start - 1000; sp_ExpiresAtUnix := start + 10000 |}.

Definition quotedGas : ProviderRelayQuoteBody :=
  {| pq_SchemaVersion := 1; QuoteID := "gas"; QuoteRequestDigest := or_empty (RelayQuoteRequestDigest askedGas);
     ServiceProfileDigest := or_empty (RelayServiceProfileDigest profileGas); pq_ProviderAgentID := "provider"; pq_Mode := ModeSponsorAndRelay;
     pq_AssuranceLevel := AssuranceAutonomousDecentralized; pq_SponsorshipReleaseEvidenceClass := ReleaseValidatorFinality;
     pq_SponsorshipReleaseProfileURI := "tos.finality"; pq_SponsorshipReleaseProfileDigest := dg "0";
     pq_RelayTerminalEvidenceClass := ValidatorFinality; pq_SponsorshipTerminalEvidenceClass := ValidatorFinality;
     FeeLines := [{| Kind := ObligationSponsorshipFee; FeeAmount := coins "2" |}; {| Kind := ObligationRelayFee; FeeAmount := coins "3" |}];
     ReservedSponsorship := Some (coins "100"); pq_MaximumNetworkFeeAtomic := "10"; pq_MaximumTransactionValueAtomic := "200";
     pq_MaximumRequestBytes := 1024; RelayFinalityProfile := Some finality; SponsorshipTerminalProfile := Some finality;
     StatusEndpoint := endpoint; ProviderPolicyRevision := 1; OfferIntentDigest := ""; ValidFromUnix := start; pq_ExpiresAtUnix := start + 500 |}.
Definition signedRequestGas : SignedRelayQuoteRequest :=
  {| qr_Body := askedGas; qr_PublicKey := key_text public; qr_Signature := signature_text (signer "") |}.
Definition signedQuoteGas : SignedProviderRelayQuote :=
  {| pq_Body := quotedGas; pq_PublicKey := key_text public; pq_Signature := signature_text (signer "") |}.

Definition amountOf (n : string) : AgreementAmount :=
  {| aa_AssetNamespace := "native"; aa_AssetIdentifier := "tos"; aa_AmountAtomic := n; AmountDecimal := ""; aa_Unit := "nano" |}.
Definition covering (id name : string) (obligations : list string) : AgreementAuthorizationPredicate :=
  {| PredicateID := id; AuthoritySubject := Agreement.Sample.agent name; RoleScope := []; ObligationIDs := obligations;
     EvidenceProfileURI := EvidenceProfileAgentSignature; EvidenceProfileVersion := 1; EvidenceProfileDigest := Agreement.Sample.agentDigest;
     EvidenceTargetProjectionDigest := ""; pr_ValidFromUnix := 0; pr_ExpiresAtUnix := agreementUntil;
     pr_RequiredExtensions := []; pr_OptionalExtensions := [] |}.
Definition draftGas : AgentAgreementBody :=
  {| ab_SchemaVersion := 1; AgreementID := "agreement"; Version := 1; PredecessorAgreementDigest := ""; NetworkContext := "tos-main";
     Participants := Participants draft; ReferencedIntents := []; TermsContentType := AgreementBindingContentType; Terms := Terms draft;
     ab_AttachmentDigests := [];
     Obligations := [obligation "fee-gas" ObligationSponsorshipFee "agent" "provider" "pa" (Some (amountOf "2"));
                     obligation "fee-relay" ObligationRelayFee "agent" "provider" "pa" (Some (amountOf "3"));
                     obligation "gas" ObligationSponsorDelivery "provider" "agent" "pb" (Some (amountOf "100"));
                     obligation "relay" ObligationRelayDelivery "provider" "agent" "pb" None];
     AuthorizationPredicates := [covering "pa" "agent" ["fee-gas"; "fee-relay"]%string; covering "pb" "provider" ["gas"; "relay"]%string];
     ab_RequiredExtensions := []; ab_OptionalExtensions := ∅; ab_ValidFromUnix := start; ab_ExpiresAtUnix := agreementUntil |}.
Definition termsGas : AgentAgreementBody := match PrepareAgreementTargets draftGas with Ok body => body | _ => draftGas end.
Definition acceptedBy (id name : string) : AgreementAuthorizationEvidence :=
  {| ev_AgreementID := "agreement"; ev_AgreementVersion := 1; ev_AgreementBodyDigest := or_empty (Agreement.AgreementBodyDigest termsGas);
     ev_AuthoritySubject := Agreement.Sample.agent name; ev_PredicateIDs := [id]; ev_EvidenceProfileURI := EvidenceProfileAgentSignature;
     ev_EvidenceProfileVersion := 1; ev_EvidenceProfileDigest := Agreement.Sample.agentDigest;
     ev_EvidenceTargetProjectionDigests := EvidenceTargetProjectionDigest <$> filter (fun p => PredicateID p = id) (AuthorizationPredicates termsGas);
     EvidenceContentType := AgreementAcceptanceContentType; ev_Evidence := "accepted" |}.
Definition agreementGas : AgentAgreement :=
  {| ag_Body := termsGas; AuthorizationEvidence := [acceptedBy "pa" "agent"; acceptedBy "pb" "provider"] |}.

Definition requestGas : RelayExecutionRequest :=
  {| ex_SchemaVersion := 1; QuoteRequest := signedRequestGas; ProviderQuote := signedQuoteGas; SignedTransactionBytes := transaction;
     AgreementBodyDigest := or_empty (Agreement.AgreementBodyDigest termsGas); AgreementExpiresAtUnix := agreementUntil;
     RelayObligationID := "relay"; SponsorshipObligationID := "gas"; FeeObligationIDs := ["fee-gas"; "fee-relay"]%string;
     UnderlyingActionRequest := "request"; SemanticFields := fields; ex_AuthorizedAction := action; ex_WriterFence := fence;
     AdmissionReceipt := RelayAdmission.Sample.empty; ex_CreatedAtUnix := start + 50; ex_ExpiresAtUnix := start + 400 |}.
Definition submissionGas : RelayExecutionRequest := withReceipt requestGas (issued requestGas).
Definition providerGas : ProviderService :=
  {| Profile := profileGas; SigningKey := Some (signer, public); hasAdmissionAuthority := true; hasQuotePolicy := true; hasJournal := true;
     hasSponsorship := true; resolvesDualAbsence := true; resolvesTransactionAbsence := true; hasObservationVerifier := true;
     hasBroadcaster := true; hasEvidenceSource := true |}.

(** The provider's payment, and the validators' proof of it. *)
Definition owed : SettlementObligation :=
  {| so_AgreementBodyDigest := AgreementBodyDigest requestGas; so_AgreementObligationID := "gas"; so_ObligationInstanceID := dg "6"; Sequence := 1;
     PredecessorInstanceID := ""; so_PayerAgentID := "provider"; so_PayeeAgentID := "agent"; so_Amount := amountOf "100";
     so_NotBeforeUnix := 0; so_DueAtUnix := start + 300; so_ExpiresAtUnix := start + 400; so_MaximumAggregateAmount := amountOf "100";
     so_SettlementAdapterURI := DirectPaymentAdapterURI; SettlementParametersDigest := dg "2"; so_MandateDigest := ""; so_StableActionID := dg "3" |}.
Definition pay : AgreementPaymentRequest :=
  match BuildDomainBoundAgreementPaymentRequest "owner" "provider" "tos-main" RelayAdmission.Sample.networkDigest "0:source" owed with
  | Ok r => r
  | _ => RelaySafety.Sample.pay
  end.
Definition handleGas : SponsorshipRecoveryHandle :=
  {| AgreementPaymentRequestDigestOf := or_empty (AgreementPaymentRequestDigest pay); HandleStableActionID := pay_StableActionID pay;
     HandleExactRequestDigest := or_empty (material ← PaymentAuthorizationMaterial pay; ExactRequestDigest material.1);
     HandleValidUntilUnix := start + 400; OpaqueToken := "token" |}.
Definition transfer : RelaySponsorshipTransactionEvidence :=
  {| te_SchemaVersion := 1; te_TerminalEvidenceClass := ValidatorFinality; ValidatorAuthenticatedPortableProof := true;
     te_NetworkDigest := RelayAdmission.Sample.networkDigest; te_Payment := pay;
     te_PaymentDigest := AgreementPaymentRequestDigestOf handleGas; te_StableActionID := HandleStableActionID handleGas;
     te_ExactRequestDigest := HandleExactRequestDigest handleGas; te_SourceAccount := "0:sponsor"; te_SourceSequence := 1;
     te_ValidUntilUnix := start + 400; te_TopUpDigest := dg "c"; te_TopUpCellHash := RelayAdmission.Sample.cellHash "1"; te_CommitmentCellHash := RelayAdmission.Sample.cellHash "2";
     te_DestinationAccount := "0:source"; te_Amount := coins "100"; SubmittedTransactionHash := "transfer";
     te_SourceExecutionReference := "reference"; te_DestinationCreditReferences := [dg "d"]; te_FinalizedCheckpointID := "checkpoint";
     te_FinalizedCheckpointSequence := 9; te_FinalizedCheckpointUnix := start + 100; ConfirmationDepth := 1; te_TerminalProfileDigest := dg "0";
     te_ObservationDigests := [dg "e"]; ProofBundleDigest := RelaySafety.Sample.proofDigest; ProofBundle := "proof";
     PortableProofLocator := "locator"; te_ObservedAtUnix := start + 100 |}.
Definition paid : SponsorshipResolution :=
  {| sn_Status := ResolutionFinalized; sn_TransferReference := "transfer"; sn_EvidenceRefs := [dg "e"]; sn_AbsenceOutcome := NoOutcome;
     sn_SponsorshipAbsenceObservations := []; sn_TransactionAbsenceObservations := []; sn_AbsenceProofBundleDigest := "";
     sn_AbsenceProofBundle := ""; sn_CreditObservation := None; sn_TransactionEvidence := Some transfer |}.

(** The payment is finalized, and the broadcaster accepts the transaction. *)
Definition oracleGas (q : query) : answer q :=
  match q return answer q with
  | ResolveRelaySideEffectAdmission _ => Ok (AdmissionReceipt submissionGas)
  | PolicyQuote _ _ => Ok quotedGas
  | PrepareRecovery _ _ _ => Ok handleGas
  | EnsureFinalized _ _ _ _ => Ok paid
  | SubmitExact _ => Ok {| br_Status := BroadcastAccepted; br_TransactionReference := "hash" |}
  | q => oracle q
  end.
Definition submitGas : task := TaskSubmit providerGas submissionGas agreementGas.

(** A retry starts while the first program pays; the first one pays, records the transfer
    and broadcasts before the retry records it too. *)
Definition overlap : list move :=
  Begin (TaskQuote providerGas signedRequestGas) :: repeat (Turn 0) 7 ++
  Begin submitGas :: repeat (Turn 1) 14 ++ Begin submitGas :: repeat (Turn 2) 12 ++ repeat (Turn 1) 11 ++ repeat (Turn 2) 7.

Definition submitted (action : string) (l : list (task * query)) : Z := tally (fun c => submitting c.1 && sends action c) l.
Definition stateOf (sys : system) : option ActionResolutionState := State <$> records (journal sys) !! stableOf submissionGas.

(** The run in three parts: until the first broadcast has been accepted, until the retry
    has taken the record back to SUBMITTED, and the retry's own broadcast. *)
Definition until_accepted : list move := take 47 overlap.
Definition until_reverted : list move := take 6 (drop 47 overlap).
Definition until_resent : list move := drop 53 overlap.
Definition overlapped : bool :=
  match play oracleGas until_accepted initial with
  | Some sys1 =>
      match payments (calls sys1) with
      | [(r1, _); (r2, _)] => streq (stableOf r1) (stableOf r2)
      | _ => false
      end && bool_decide (stateOf sys1 = Some ActionAccepted) && (submitted (stableOf submissionGas) (calls sys1) =? 1) &&
      match play oracleGas until_reverted sys1 with
      | Some sys2 =>
          bool_decide (stateOf sys2 = Some ActionSubmitted) && (submitted (stableOf submissionGas) (calls sys2) =? 1) &&
          match play oracleGas until_resent sys2 with
          | Some sys3 => submitted (stableOf submissionGas) (calls sys3) =? 2
          | None => false
          end
      | None => false
      end
  | None => false
  end.
Lemma overlapped_true : overlapped = true.
Proof. vm_compute. reflexivity. Qed.

Lemma overlapping_run : exists sys1 sys2 sys3 r1 h1 r2 h2,
  nsteps step (length until_accepted) initial sys1 /\ nsteps step (length until_reverted) sys1 sys2 /\
  nsteps step (length until_resent) sys2 sys3 /\
  (payments (calls sys1) = [(r1, h1); (r2, h2)] /\ stableOf r1 = stableOf r2) /\
  (stateOf sys1 = Some ActionAccepted /\ submitted (stableOf submissionGas) (calls sys1) = 1) /\
  (stateOf sys2 = Some ActionSubmitted /\ submitted (stableOf submissionGas) (calls sys2) = 1) /\
  submitted (stableOf submissionGas) (calls sys3) = 2.
Proof.
  pose proof overlapped_true as H. unfold overlapped in H. destruct (play oracleGas until_accepted initial) as [sys1|] eqn:E1; [|discriminate H].
  apply andb_true_iff in H as [[[Hp Hs1%bool_decide_eq_true]%andb_true_iff Hn1%Z.eqb_eq]%andb_true_iff H].
  destruct (play oracleGas until_reverted sys1) as [sys2|] eqn:E2; [|discriminate H].
  apply andb_true_iff in H as [[Hs2%bool_decide_eq_true Hn2%Z.eqb_eq]%andb_true_iff H].
  destruct (play oracleGas until_resent sys2) as [sys3|] eqn:E3; [|discriminate H]. apply Z.eqb_eq in H.
  destruct (payments (calls sys1)) as [|[r1 h1] [|[r2 h2] [|? ?]]] eqn:P; try discriminate Hp. apply streq_true in Hp.
  apply play_steps in E1, E2, E3. exists sys1, sys2, sys3, r1, h1, r2, h2.
  exact (conj E1 (conj E2 (conj E3 (conj (conj P Hp) (conj (conj Hs1 Hn1) (conj (conj Hs2 Hn2) H)))))).
Qed.

Lemma relay_payment_single_witness : exists sys r1 h1 r2 h2, nsteps step (length until_accepted) initial sys /\
  payments (calls sys) = [(r1, h1); (r2, h2)] /\ paymentOf h1 = paymentOf h2.
Proof.
  destruct overlapping_run as (sys & _ & _ & r1 & h1 & r2 & h2 & E & _ & _ & (P & H) & _).
  destruct (payments_elem (calls sys) r1 h1) as (t1 & a1 & o1 & H1); [rewrite P; left|].
  destruct (payments_elem (calls sys) r2 h2) as (t2 & a2 & o2 & H2); [rewrite P; right; left|].
  exists sys, r1, h1, r2, h2. split; [exact E|]. split; [exact P|].
  apply (relay_payment_single (length until_accepted) sys t1 t2 r1 r2 a1 a2 o1 o2 h1 h2 E); [vm_compute; discriminate|exact H1|exact H2|exact H].
Defined.

(** A combined action may be broadcast twice by [Submit], against its comment that an
    exact retry can never broadcast bytes after a durable non-PREPARED state.  There is a
    run of two overlapping submissions of one sponsor_and_relay request, both of which ask
    for its payment, in which the record is durably ACCEPTED after one broadcast, then goes
    back to SUBMITTED, and then the transaction is broadcast a second time. *)
Example relay_combined_rebroadcast : exists n1 n2 n3 sys1 sys2 sys3 r1 h1 r2 h2,
  modeOf submissionGas = ModeSponsorAndRelay /\
  nsteps step n1 initial sys1 /\ nsteps step n2 sys1 sys2 /\ nsteps step n3 sys2 sys3 /\
  (payments (calls sys1) = [(r1, h1); (r2, h2)] /\ stableOf r1 = stableOf r2) /\
  (stateOf sys1 = Some ActionAccepted /\ submitted (stableOf submissionGas) (calls sys1) = 1) /\
  (stateOf sys2 = Some ActionSubmitted /\ submitted (stableOf submissionGas) (calls sys2) = 1) /\
  submitted (stableOf submissionGas) (calls sys3) = 2.
Proof.
  destruct overlapping_run as (sys1 & sys2 & sys3 & r1 & h1 & r2 & h2 & H).
  exists (length until_accepted), (length until_reverted), (length until_resent), sys1, sys2, sys3, r1, h1, r2, h2. exact (conj eq_refl H).
Qed.
End Sample.
